(* ===== verification/_CoqProject ===== *)
-Q . S2P
Prelude.v
Errors.v
AppErrors.v
Domain.v
Frame.v
Reassembly.v
Handshake.v
Proto.v
EventDecode.v
Session.v
SessionProps.v
Text.v
Paths.v
Fs.v
FsLogic.v
SyncStore.v
SyncJournal.v
Sync.v
SyncRun.v
SyncCrash.v
SyncDelete.v
SyncLayout.v
SyncPlan.v
SyncFrame.v
SyncProps.v
SyncRunProps.v
SyncScope.v
EventHub.v
Transfer.v
TransferProps.v
MediaMerge.v
MediaProps.v
TrustStore.v
TrustProps.v
WifiHandshake.v
WifiProps.v
MediaPage.v
MediaPageProps.v
RemotePath.v
ClientProto.v
Client.v
ClientTransfer.v
ClientTransferProps.v
ClientBatch.v
ClientBatchProps.v
FilePlan.v
FilePlanProps.v
Usb.v
UsbProps.v
I18n.v
Parse.v
Exif.v
Signals.v
Adb.v
AdbProps.v
Devices.v
Discovery.v
MediaDto.v
MediaDtoProps.v
PlanRun.v
PlanRunProps.v
Runtime.v
RuntimeProps.v
Bridge.v
SyncWatch.v
SyncJobs.v
SyncJobsInv.v
SyncJobsProps.v
FfiThumb.v
FfiThumbProps.v
FfiCore.v
FfiCoreProps.v
Serde.v
AppRequests.v
FfiCalls.v
FfiCallsProps.v
Cli.v
CliCommands.v
CliMain.v
CliProps.v
