(* ===== verification/Prelude.v ===== *)
(** * A verification of HandShaker Rust

    HandShaker talks to Smartisan phones over ADB, USB or Wi-Fi: it lists and transfers
    files, mirrors the phone's photos, and pages through its media.  The repository is a
    core crate (crates/handshaker-core: the protocol, the session, the client and the sync
    engine), an application crate above it (crates/handshaker-application: sessions,
    transfers, plans, events for a user interface), and a foreign function interface and a
    command line around those (crates/handshaker-ffi, crates/handshaker-cli).  This library
    models them as executable definitions, named after the code, and proves what they promise.
    Paths below are relative to these crates' src directories (core/, app/, ffi/, cli/).

    ** Conventions

    An unsigned integer is a [Z] at its range, with the wrapping, checked or saturating
    operation of the code written out.  A [Result<T, Error>] is [Res T] (Errors.v), an error's
    user text is its message key and arguments ([message] below).  Code that touches the disk
    is a program of [io] (Fs.v): a state monad over the files, a list of faults and a list of
    random numbers, where each call to the system takes the next fault and may go through,
    fail part way, or be the moment the process dies.  [triple] (FsLogic.v) proves a program
    against all faults at once; [runs] (TrustProps.v) is a run without faults.  Code that waits
    (channels, timers, the writer, the wire) is a function of what the waits end with, given
    as lists of answers; running out of answers is the timeout firing.  In the handshakes the waits
    have a clock: [Arrivals] (Handshake.v) says when which bytes come and when, if ever, the stream
    ends, and an [await_until] without a deadline on a silent stream does not come back.
    Concurrency is modelled as the interleaving of atomic steps: reader inputs and requests
    (Session.v, where an [await] in the middle of a call is a step of its own), publishers
    (EventHub.v), registry calls (Transfer.v), fetches and invalidations (MediaPage.v), starts
    and ends of batched transfers (ClientBatch.v), the USB reader thread and the polls of its
    stream (Usb.v), the tasks of the runtime (Runtime.v), the calls and tasks around the
    sync jobs (SyncJobs.v), the threads around a cancellation token (Signals.v).

    Third-party code is a parameter, a class whose documented behaviour is stated where a
    theorem needs it: [Crypto] (RSA, AES, MD5, SHA-256, base64; Handshake.v), [ProtoCodec]
    (Proto.v) and [Message] and [ClientCodec] (ClientProto.v) for prost and flate2, [Json] with
    [JsonRoundTrip] (Fs.v) and [SerdeJson] with [SerdeLaw] (Serde.v) for serde_json, [Kamadak]
    for kamadak-exif (Exif.v), [HashOrder] for the iteration order of a HashMap
    (Transfer.v), [UsbText] for the text of libusb's errors (Usb.v), [AdbServer] with
    [AdbForwards] for the adb program (Adb.v, AdbProps.v).  The end of Proto.v and the witnesses
    instantiate them with small concrete functions.

    ** The parts

    - Errors.v (core/error.rs, core/cancellation.rs), AppErrors.v (app/error.rs), Domain.v
      (core/domain.rs, core/events.rs), Proto.v (proto/smartsync.proto): the data.
    - Frame.v (core/protocol/frame.rs): framing and the wire log.  C2, and the round trip of
      what the host sends.
    - Reassembly.v: the contract of the three routines that reassemble length-prefixed
      messages, a class; Handshake.v (core/protocol/crypto.rs, core/protocol/handshake.rs) and
      Session.v (core/session.rs) implement it.  C3, C4, C9.
    - Session.v, SessionProps.v: session ids, routing, raw downloads, the store of unmatched
      messages, the closed state.  C4, C6 to C10.  The operations [open_signed], [send] and
      [cancel] take what happens while they are suspended as an answer ([send_answer]); C10 is about
      [tasks_path], the steps of any number of calls in flight with the reader and the close, and a
      whole call is a run of its steps.  A raw download is told from a message that spells like one
      by [taken_for_message]; what is, fails (C7, C39).  EventDecode.v (core/event_decode.rs) decodes
      what the phone pushes.
    - Text.v, Paths.v: the [str] and [Path] methods the code uses.
    - SyncStore.v (core/sync_store.rs), SyncJournal.v (core/sync_journal.rs), Sync.v
      (core/sync.rs), SyncRun.v (the sync half of app/runtime.rs and app/sync.rs): the ledger,
      the write-ahead log, plan and execution, runs.  SyncCrash.v, SyncDelete.v, SyncLayout.v,
      SyncPlan.v, SyncFrame.v are their proofs; SyncProps.v, SyncRunProps.v and SyncScope.v the
      properties: atomic saves and crash safety C11 to C13, exactness of the plan C14,
      convergence and protection of local edits C15, C17; the conflict check is exact; further theorems say where a
      file goes, what recovery trusts and when two scopes share a ledger.
    - SyncWatch.v (run_sync_watch of app/runtime.rs): the loop that applies
      the changes the phone pushes in batches, C18.  SyncJobs.v, SyncJobsInv.v, SyncJobsProps.v
      (app/runtime.rs and app/sync.rs): the registry of sync jobs with its starts, runs, stops
      and watches and the sync stage of the shutdown, C25.
    - EventHub.v (app/event.rs), Transfer.v (app/transfer.rs), TransferProps.v: the background
      transfers and their events.  C23, C24 (an entry whose task a close has taken to join it can be
      dropped while the task unwinds); cancelling a session is complete, the
      numbers of events are unique and the progress reports bounded.
    - MediaDto.v, MediaDtoProps.v (app/media.rs, app/dto.rs, app/event.rs): the public media
      records, their conversions and the merge of a change through the core; the events.
      Bridge.v (run_event_bridge of app/runtime.rs): what the phone pushes, told to the user.
      C27.
    - MediaMerge.v (core/media_merge.rs), MediaProps.v: change events applied to libraries.
      C28.  MediaPage.v (app/media.rs and the snapshots in app/runtime.rs),
      MediaPageProps.v: pages and their cache.  C36, C37.
    - TrustStore.v (core/state.rs), TrustProps.v: the records of trusted phones.  C30 to C32.
      WifiHandshake.v (core/protocol/wifi_handshake.rs and its callers), WifiProps.v: the
      Wi-Fi handshake, which comes back even from a silent phone because of its two timeouts, and
      the key it keeps.  C33, C34.
    - ClientProto.v, Client.v, ClientTransfer.v, ClientBatch.v (core/client.rs): requests,
      downloads and uploads, batches and trees.  ClientTransferProps.v: a download is all or
      nothing, C39, which makes the client the downloader the crash safety of the sync engine
      (class [DownloaderLaw] of SyncCrash.v) is proved against.  ClientBatchProps.v: trees stay
      inside and account for every file, C19.
    - RemotePath.v (resolve_remote_path of app/runtime.rs): C38.  FilePlan.v (app/file_plan.rs
      and the planners of app/runtime.rs), FilePlanProps.v: what an executable plan guarantees,
      C40.  PlanRun.v, PlanRunProps.v (execute_file_plan and start_batch_plan of
      app/runtime.rs): a plan run as one transfer among other calls of the registry, C21.
    - Usb.v, UsbProps.v (core/transport/usb.rs): finding and switching a phone,
      its endpoints, and the byte stream over the reader thread.  C22.  Parse.v: numbers, lines
      and words of text.  Adb.v, AdbProps.v (core/transport/adb.rs): the adb commands and the
      life of the port forward, which is gone after a failure when the commands are [working].
    - Exif.v (core/exif_parser.rs): what is made of the tags of a photo: dates, C20, and
      coordinates in binary64.
    - Signals.v (core/cancellation.rs, the subscription of core/events.rs): tokens as interleaved
      steps, where no wake-up is lost, and subscriptions, which lose nothing in silence.
      Discovery.v (core/discovery.rs, core/transport/wifi.rs, core/transport/mod.rs, the connection
      of core/client.rs): the hosts a browse finds, and a connection from its transport over the
      handshake and the trust record to the first request, for all three transports.  C35.
      I18n.v (core/i18n.rs): no key is missing from the catalogue, and when substituting arguments in
      turn is substituting them at once.
    - Devices.v (app/discovery.rs, app/dto.rs): descriptors, the sweep over the transports, the
      identity of a phone.  Runtime.v, RuntimeProps.v (app/runtime.rs): sessions and their
      states, launches under the gate, closes and the shutdown as interleaved steps.  C29.
    - AppRequests.v (the requests of app/runtime.rs, app/dto.rs, app/sync.rs): how a connect
      registers its session, what a request to a session asks of its client and leaves behind while
      other tasks go on, the pages of the libraries and the snapshots they are cut from, single
      transfers, blocking batches, the ledgers that are listed.
    - FfiThumb.v, FfiThumbProps.v (ffi/media.rs): the cache of thumbnails, under every fault and
      crash of the disk, C5.  FfiCore.v, FfiCoreProps.v (ffi/lib.rs, ffi/buffer.rs,
      ffi/result.rs, ffi/sync.rs): who owns which buffer, the catching of panics, the quota of
      subscriptions, the reading of profiles.
    - Serde.v: what the derived readers make of a JSON value.  FfiCalls.v, FfiCallsProps.v (all of
      ffi/): every function but those of the subscriptions and the thumbnails, between its text and
      its answer, over an application that is an interface ([Application]: it answers, fails or
      panics).  Every such call is contained, C26, and which requests refuse members they do not
      know is listed there; a
      listed device can be connected as it was printed, C16; no overwriting, no trash and no path
      is assumed.
    - Cli.v, CliCommands.v, CliMain.v (cli/cli.rs, cli/main.rs, cli/output.rs): the command
      line.  A command is a program ([prog], CliCommands.v) of questions to the runtime, the disk and the
      user; a run is any list of questions with their answers.  CliProps.v: what a command destroys was
      agreed to, but for the targets [writes_over] names (the thumbnails, and the files inside a
      directory copied with --overwrite), C1; a removal finds its paths first, a dry run only looks, a batch
      succeeds exactly when every line did and closes its session, a watch unregisters what it
      registered; and paths, names, durations, exit codes, and that a dry run counts
      what an upload sends.

    A component's theorems are proved against the promises of those it calls: the requests of
    the client run the operations of Session.v, the sync engine an abstract downloader, the
    runs of the application the engine over any ledger and journal.

    ** Bounds

    Loops that recurse on their input need no bound.  Where the code loops on a condition the
    model takes fuel: [allocate_sid] 1024 tries, as the code does; [open_tmp] 64 tries, after
    which the modelled process is dead, which the crash theorems cover (the code tries for
    ever, each time with another random name); [evict_over] the number of entries;
    [read_normal_direct] and the trust dialog one more than the bytes of the stream, proved to
    be enough; the pages of a library one more than its items; the loops of the command line that
    wait (the polls of a run, the events of a watch, the lines of the shell) a number of rounds,
    [Unfinished] when they are spent: every theorem holds for any number, and
    [wait_ends_with_the_run] says that a wait that has not ended found the run going each time.

    ** Not modelled

    Sockets, processes, libusb and mDNS themselves (what they answer is an input); the texts of the
    message catalogue; how records other than device descriptors are written as JSON; permission bits,
    except as answers; the time a call takes; the ring buffer of tokio's broadcast; calls that
    are dropped before they end (but for the interrupts of the command line); of the command line
    the parsing of arguments, the splitting of a line, the line editor, and what data each command
    hands to the printing. *)

From Stdlib Require Export ZArith Lia ZifyBool.
From Stdlib Require Export Init.Byte.
From Stdlib Require Import Strings.Byte Ascii.
From stdpp Require Export base tactics list gmap strings pretty sorting.

#[global] Open Scope Z_scope.

(** ** Results *)

(** Rust's [Result<A, E>]. *)
Inductive result (E A : Type) : Type :=
  | Ok (value : A)
  | Err (error : E).
Arguments Ok {E A} value.
Arguments Err {E A} error.

#[export] Instance result_ret {E} : MRet (result E) := fun A a => Ok a.
#[export] Instance result_bind {E} : MBind (result E) := fun A B k m =>
  match m with
  | Ok a => k a
  | Err e => Err e
  end.

Declare Scope hs_scope.
Delimit Scope hs_scope with hs.

(** The [?] operator: [let x = e?; k]. *)
Notation "'let?' x ':=' e 'in' k" :=
  (match e with Ok x => k | Err er => Err er end)
  (at level 10, x name, e at level 150, k at level 200) : hs_scope.
Notation "'let?' ''' p ':=' e 'in' k" :=
  (match e with Ok p => k | Err er => Err er end)
  (at level 10, p pattern, e at level 150, k at level 200) : hs_scope.
#[global] Open Scope hs_scope.

Definition is_ok {E A} (r : result E A) : bool :=
  match r with Ok _ => true | Err _ => false end.

(** [Option::ok_or_else] *)
Definition ok_or {E A} (o : option A) (e : E) : result E A :=
  match o with Some a => Ok a | None => Err e end.

Definition map_err {E F A} (f : E -> F) (r : result E A) : result F A :=
  match r with Ok a => Ok a | Err e => Err (f e) end.

(** ** Localised messages

    [i18n::format key args] is kept unrendered: the locale table is data of
    [locales/zh-CN.json], the key and the arguments are what the code decides. *)
Record message := Msg { msg_key : string; msg_args : list string }.

#[export] Instance message_eq_dec : EqDecision message.
Proof. solve_decision. Defined.

(** ** Machine integers *)

Definition USIZE_MAX : Z := 2 ^ 64 - 1.
Definition U32_MAX : Z := 2 ^ 32 - 1.

(** [usize::try_from] of a [u64] on a 64-bit target. *)
Definition usize_try_from (n : Z) : option Z :=
  if n <=? USIZE_MAX then Some n else None.

(** [usize::checked_add] *)
Definition checked_add_usize (a b : Z) : option Z :=
  if a + b <=? USIZE_MAX then Some (a + b) else None.

(** [u32::try_from] of a [u64]. *)
Definition u32_try_from (n : Z) : option Z :=
  if (0 <=? n) && (n <=? U32_MAX) then Some n else None.

Definition wrap32 (n : Z) : Z := n mod 2 ^ 32.

(** [u64::saturating_sub] *)
Definition saturating_sub (a b : Z) : Z := Z.max 0 (a - b).

Abbreviation zlen l := (Z.of_nat (length l)).

(** ** Bytes *)

Abbreviation byte := Init.Byte.byte.

#[export] Instance byte_eq_dec : EqDecision byte := Byte.byte_eq_dec.

Definition byte_to_Z (b : byte) : Z := Z.of_N (Byte.to_N b).
Definition byte_of_Z (z : Z) : byte := default x00 (Byte.of_N (Z.to_N (z mod 256))).

Lemma byte_to_Z_range (b : byte) : 0 <= byte_to_Z b < 256.
Proof. unfold byte_to_Z. pose proof (Byte.to_N_bounded b). lia. Qed.

Lemma byte_to_of_Z (z : Z) : byte_to_Z (byte_of_Z z) = z mod 256.
Proof.
  unfold byte_to_Z, byte_of_Z.
  destruct (Byte.of_N (Z.to_N (z mod 256))) as [b|] eqn:E.
  - apply Byte.to_of_N in E. simpl. rewrite E. pose proof (Z.mod_pos_bound z 256). lia.
  - apply Byte.of_N_None_iff in E. pose proof (Z.mod_pos_bound z 256). lia.
Qed.

Lemma byte_to_Z_inj (a b : byte) : byte_to_Z a = byte_to_Z b -> a = b.
Proof.
  unfold byte_to_Z. intros H. apply N2Z.inj in H.
  pose proof (Byte.of_to_N a) as Ha. pose proof (Byte.of_to_N b) as Hb. congruence.
Qed.

Lemma byte_of_to_Z (b : byte) : byte_of_Z (byte_to_Z b) = b.
Proof.
  apply byte_to_Z_inj. rewrite byte_to_of_Z. apply Z.mod_small, byte_to_Z_range.
Qed.

(** [to_be_bytes] of an [n]-byte unsigned integer. *)
Fixpoint be_bytes (n : nat) (z : Z) : list byte :=
  match n with
  | O => []
  | S n => be_bytes n (z / 256) ++ [byte_of_Z z]
  end.

(** [from_be_bytes] *)
Definition be_val (bs : list byte) : Z :=
  fold_left (fun acc b => acc * 256 + byte_to_Z b) bs 0.

Lemma be_bytes_length (n : nat) (z : Z) : length (be_bytes n z) = n.
Proof. revert z. induction n as [|n IH]; intros z; simpl; [done|]. rewrite length_app, IH. simpl. lia. Qed.

Lemma be_val_snoc (bs : list byte) (b : byte) : be_val (bs ++ [b]) = be_val bs * 256 + byte_to_Z b.
Proof. unfold be_val. by rewrite fold_left_app. Qed.

Lemma be_val_bytes (n : nat) (z : Z) : be_val (be_bytes n z) = z mod 256 ^ Z.of_nat n.
Proof.
  revert z. induction n as [|n IH]; intros z.
  - simpl. by rewrite Z.mod_1_r.
  - cbn [be_bytes]. rewrite be_val_snoc, IH, byte_to_of_Z.
    rewrite Nat2Z.inj_succ, Z.pow_succ_r by lia.
    rewrite Z.rem_mul_r by lia. lia.
Qed.

Lemma be_val_bytes_small (n : nat) (z : Z) :
  0 <= z < 256 ^ Z.of_nat n -> be_val (be_bytes n z) = z.
Proof. intros H. rewrite be_val_bytes. by apply Z.mod_small. Qed.

Lemma be_val_range (bs : list byte) : 0 <= be_val bs < 256 ^ zlen bs.
Proof.
  induction bs as [|b bs IH] using rev_ind; [done|].
  rewrite be_val_snoc, length_app. cbn [length]. pose proof (byte_to_Z_range b).
  replace (Z.of_nat (length bs + 1)) with (Z.succ (zlen bs)) by lia.
  rewrite Z.pow_succ_r by lia. lia.
Qed.

Lemma be_bytes_val (bs : list byte) : be_bytes (length bs) (be_val bs) = bs.
Proof.
  induction bs as [|b bs IH] using rev_ind; [done|].
  rewrite length_app, Nat.add_comm. cbn [length Nat.add be_bytes].
  pose proof (byte_to_Z_range b) as Hb. rewrite be_val_snoc.
  rewrite Z.div_add_l, Z.div_small, Z.add_0_r, IH by lia. f_equal. f_equal.
  apply byte_to_Z_inj. rewrite byte_to_of_Z, Z.add_comm, Z.mod_add by lia.
  by apply Z.mod_small.
Qed.

Lemma be_val_single (z : Z) : be_val [byte_of_Z z] = z mod 256.
Proof. apply byte_to_of_Z. Qed.

Lemma be_bytes_val_eq (n : nat) (bs : list byte) : length bs = n -> be_bytes n (be_val bs) = bs.
Proof. intros <-. apply be_bytes_val. Qed.

#[global] Arguments be_bytes : simpl never.
#[global] Arguments be_val : simpl never.

(** ** Hexadecimal rendering *)

Definition hex_digit (n : Z) : Ascii.ascii :=
  default "0"%char (String.get (Z.to_nat n) "0123456789abcdef").

(** [{byte:02x}] for each byte. *)
Fixpoint hex_of_bytes (bs : list byte) : string :=
  match bs with
  | [] => ""
  | b :: bs =>
      String (hex_digit (byte_to_Z b / 16))
        (String (hex_digit (byte_to_Z b mod 16)) (hex_of_bytes bs))
  end.

(** [{:#010x}] of a [u32]. *)
Definition hex_u32 (n : Z) : string := "0x" +:+ hex_of_bytes (be_bytes 4 n).

(** ** Proof automation *)

Create HintDb hs.
Create Rewrite HintDb hs_len.
#[export] Hint Resolve byte_to_Z_range be_bytes_length : hs.
#[export] Hint Rewrite be_bytes_length @length_app @length_cons @length_nil : hs_len.

(** Normalise list lengths, then close with [lia]. *)
Ltac len := autorewrite with hs_len in *; simpl length in *; lia.

(** Case on a boolean test of the goal or a hypothesis, turning it into an
    arithmetic fact. *)
Ltac case_test :=
  match goal with
  | |- context [if ?b then _ else _] =>
      lazymatch type of b with bool => destruct b eqn:? | _ => destruct b end
  | H : context [if ?b then _ else _] |- _ =>
      lazymatch type of b with bool => destruct b eqn:? | _ => destruct b end
  end.

(** Split every result bind on the way to an [Ok]. *)
Ltac case_result :=
  match goal with
  | H : match ?e with Ok _ => _ | Err _ => _ end = Ok _ |- _ =>
      destruct e eqn:?; [|discriminate H]
  end.

(** Every boolean comparison becomes a proposition. *)
Ltac bools :=
  repeat match goal with
  | H : (_ && _) = true |- _ => apply andb_true_iff in H; destruct H
  | H : (_ || _) = false |- _ => apply orb_false_iff in H; destruct H
  | H : negb _ = true |- _ => apply negb_true_iff in H
  | H : negb _ = false |- _ => apply negb_false_iff in H
  | H : (_ <=? _) = _ |- _ => first [apply Z.leb_le in H | apply Z.leb_gt in H]
  | H : (_ <? _) = _ |- _ => first [apply Z.ltb_lt in H | apply Z.ltb_ge in H]
  | H : (_ >? _) = _ |- _ => rewrite Z.gtb_ltb in H
  | H : (_ >=? _) = _ |- _ => rewrite Z.geb_leb in H
  | H : (_ =? _) = _ |- _ => first [apply Z.eqb_eq in H | apply Z.eqb_neq in H]
  | H : (_ <=? _)%nat = _ |- _ => first [apply Nat.leb_le in H | apply Nat.leb_gt in H]
  | H : (_ <? _)%nat = _ |- _ => first [apply Nat.ltb_lt in H | apply Nat.ltb_ge in H]
  | H : (_ =? _)%nat = _ |- _ => first [apply Nat.eqb_eq in H | apply Nat.eqb_neq in H]
  end.

(** ** Lists *)

Lemma take_app_exact {A} (l k : list A) (n : nat) : n = length l -> take n (l ++ k) = l.
Proof. intros ->. apply take_app_length. Qed.

Lemma drop_app_exact {A} (l k : list A) (n : nat) : n = length l -> drop n (l ++ k) = k.
Proof. intros ->. apply drop_app_length. Qed.

#[export] Hint Rewrite @length_take @length_drop : hs_len.

(** ** Ordered maps

    A [BTreeMap<String, V>] iterates in the byte order of its keys. *)

Definition string_le (a b : string) : Prop := String.leb a b = true.

#[export] Instance string_le_dec : RelDecision string_le.
Proof. intros a b. unfold string_le. apply _. Defined.

Definition btree_keys {V} (m : gmap string V) : list string :=
  merge_sort string_le (map_to_list m).*1.

Lemma elem_of_btree_keys {V} (m : gmap string V) (k : string) :
  k ∈ btree_keys m <-> is_Some (m !! k).
Proof.
  unfold btree_keys. rewrite (merge_sort_Permutation string_le).
  rewrite list_elem_of_fmap. split.
  - intros ([k' v] & -> & H%elem_of_map_to_list). by exists v.
  - intros [v H]. exists (k, v). split; [done|]. by apply elem_of_map_to_list.
Qed.

Lemma NoDup_btree_keys {V} (m : gmap string V) : NoDup (btree_keys m).
Proof.
  unfold btree_keys. rewrite (merge_sort_Permutation string_le).
  apply NoDup_fst_map_to_list.
Qed.

#[export] Instance string_le_total : Total string_le.
Proof.
  intros a b. unfold string_le. destruct (String.leb_total a b); auto.
Qed.

Lemma Sorted_btree_keys {V} (m : gmap string V) : Sorted string_le (btree_keys m).
Proof. apply (Sorted_merge_sort string_le). Qed.

#[export] Instance string_le_trans : Transitive string_le.
Proof.
  intros a. unfold string_le, String.leb. induction a as [|x a IH]; intros [|y b] [|z c]; simpl; try done.
  intros H1 H2. unfold Ascii.compare in *.
  destruct (N.compare_spec (N_of_ascii x) (N_of_ascii y)); [..|done];
    destruct (N.compare_spec (N_of_ascii y) (N_of_ascii z)); try done;
    destruct (N.compare_spec (N_of_ascii x) (N_of_ascii z)); try done; try lia.
  by apply (IH b c).
Qed.

Lemma StronglySorted_filter {A} (R : relation A) (P : A -> Prop) `{forall x, Decision (P x)} (l : list A) :
  StronglySorted R l -> StronglySorted R (filter P l).
Proof.
  induction 1 as [|x l Hl IH Hx]; [constructor|]. rewrite filter_cons. case_decide; [|done].
  constructor; [done|]. rewrite Forall_forall in *. intros y [_ Hy]%list_elem_of_filter. by apply Hx.
Qed.
