(* ===== verification/Errors.v ===== *)
(** * Errors and cancellation

    The error type every fallible operation returns
    (crates/handshaker-core/src/error.rs) and the cancellation data it carries
    (crates/handshaker-core/src/cancellation.rs), with the stable category and
    process exit code of each error. *)

From S2P Require Import Prelude.

Inductive CancellationOrigin :=
  | Local (flag_sent : bool)
  | Remote (error_code : option Z).

Record CancellationInfo := mkCancellationInfo {
  ci_sid : Z;
  ci_origin : CancellationOrigin;
  ci_connection_closed : bool
}.

Inductive Error :=
  | EUsage (m : message)
  | EConfiguration (m : message)
  | EDeviceSelection (m : message)
  | EAdbUnavailable (m : message)
  | ETransport (m : message)
  | EHandshake (m : message)
  | ETimeout (m : message)
  | EProtocol (m : message)
  | ERemoteIo (code : option Z) (m : message)
  | ELocalIo (m : message)
  | EConfirmationRequired (m : message)
  | EInterrupted
  | ECancelled (info : CancellationInfo).

Inductive ErrorCode :=
  | Usage | Configuration | DeviceSelection | AdbUnavailable | Transport
  | Handshake | Timeout | Protocol | RemoteIo | LocalIo
  | ConfirmationRequired | Interrupted | Cancelled.

#[export] Instance CancellationOrigin_eq_dec : EqDecision CancellationOrigin.
Proof. solve_decision. Defined.
#[export] Instance CancellationInfo_eq_dec : EqDecision CancellationInfo.
Proof. solve_decision. Defined.
#[export] Instance Error_eq_dec : EqDecision Error.
Proof. solve_decision. Defined.
#[export] Instance ErrorCode_eq_dec : EqDecision ErrorCode.
Proof. solve_decision. Defined.

(** [type Result<T> = std::result::Result<T, Error>] *)
Abbreviation Res := (result Error).

Definition error_code (e : Error) : ErrorCode :=
  match e with
  | EUsage _ => Usage
  | EConfiguration _ => Configuration
  | EDeviceSelection _ => DeviceSelection
  | EAdbUnavailable _ => AdbUnavailable
  | ETransport _ => Transport
  | EHandshake _ => Handshake
  | ETimeout _ => Timeout
  | EProtocol _ => Protocol
  | ERemoteIo _ _ => RemoteIo
  | ELocalIo _ => LocalIo
  | EConfirmationRequired _ => ConfirmationRequired
  | EInterrupted => Interrupted
  | ECancelled _ => Cancelled
  end.

Definition exit_code (e : Error) : Z :=
  match e with
  | EUsage _ => 2
  | EConfiguration _ | EDeviceSelection _ | EAdbUnavailable _ => 3
  | ETransport _ | EHandshake _ | ETimeout _ => 4
  | EProtocol _ => 5
  | ERemoteIo _ _ => 6
  | ELocalIo _ => 7
  | EConfirmationRequired _ => 8
  | EInterrupted => 130
  | ECancelled info =>
      match ci_origin info with
      | Local _ => 130
      | Remote _ => 6
      end
  end.

(** The exit code a category implies, when the category alone decides it. *)
Definition category_exit_code (c : ErrorCode) : option Z :=
  match c with
  | Usage => Some 2
  | Configuration | DeviceSelection | AdbUnavailable => Some 3
  | Transport | Handshake | Timeout => Some 4
  | Protocol => Some 5
  | RemoteIo => Some 6
  | LocalIo => Some 7
  | ConfirmationRequired => Some 8
  | Interrupted => Some 130
  | Cancelled => None
  end.

Lemma exit_code_nonzero (e : Error) : exit_code e <> 0.
Proof. destruct e as [| | | | | | | | | | | |[? [] ?]]; simpl; lia. Qed.

Lemma exit_code_category (e : Error) (c : Z) :
  category_exit_code (error_code e) = Some c -> exit_code e = c.
Proof. by destruct e; simpl; intros [= <-]. Qed.
