(* ===== verification/AppErrors.v ===== *)
(** * The public errors of the application

    crates/handshaker-application/src/error.rs: the stable codes and the mapping of
    the core's errors onto them. *)

From Stdlib Require Import Strings.String.
From S2P Require Import Prelude Errors.

#[local] Open Scope string_scope.
#[local] Open Scope list_scope.
#[local] Open Scope Z_scope.

Inductive PublicErrorCode :=
  | RuntimeClosed | InvalidArgument | InvalidState | NotFound | DeviceNotFound | DeviceUnavailable
  | ConnectFailed | ConnectionLost | SessionNotFound | SessionClosed | TrustRequired | TrustRejected
  | RemotePathNotFound | RemotePermissionDenied | RemotePathExists | PublicRemoteIo
  | LocalPathNotFound | LocalPermissionDenied | LocalPathExists
  | TransferNotFound | TransferCancelled | RemoteCancelled | ProtocolError | DecodeError
  | PublicAdbUnavailable | AdbUnauthorized | AdbOffline | WifiDiscoveryFailed | UsbUnavailable
  | MediaError | ClipboardError | SyncError | Internal.

#[export] Instance PublicErrorCode_eq_dec : EqDecision PublicErrorCode.
Proof. solve_decision. Defined.

(** The [repr(i32)] discriminants. *)
Definition public_code (c : PublicErrorCode) : Z :=
  match c with
  | RuntimeClosed => 1001 | InvalidArgument => 1101 | InvalidState => 1102 | NotFound => 1103
  | DeviceNotFound => 2001 | DeviceUnavailable => 2002 | ConnectFailed => 2101 | ConnectionLost => 2102
  | SessionNotFound => 2103 | SessionClosed => 2104 | TrustRequired => 2201 | TrustRejected => 2202
  | RemotePathNotFound => 3001 | RemotePermissionDenied => 3002 | RemotePathExists => 3003 | PublicRemoteIo => 3004
  | LocalPathNotFound => 3101 | LocalPermissionDenied => 3102 | LocalPathExists => 3103
  | TransferNotFound => 4201 | TransferCancelled => 4202 | RemoteCancelled => 4203
  | ProtocolError => 5001 | DecodeError => 5101
  | PublicAdbUnavailable => 6001 | AdbUnauthorized => 6002 | AdbOffline => 6003
  | WifiDiscoveryFailed => 6101 | UsbUnavailable => 6201
  | MediaError => 7001 | ClipboardError => 7101 | SyncError => 7201 | Internal => 9001
  end.

Definition as_str (c : PublicErrorCode) : string :=
  match c with
  | RuntimeClosed => "runtime_closed"
  | InvalidArgument => "invalid_argument"
  | InvalidState => "invalid_state"
  | NotFound => "not_found"
  | DeviceNotFound => "device_not_found"
  | DeviceUnavailable => "device_unavailable"
  | ConnectFailed => "connect_failed"
  | ConnectionLost => "connection_lost"
  | SessionNotFound => "session_not_found"
  | SessionClosed => "session_closed"
  | TrustRequired => "trust_required"
  | TrustRejected => "trust_rejected"
  | RemotePathNotFound => "remote_path_not_found"
  | RemotePermissionDenied => "remote_permission_denied"
  | RemotePathExists => "remote_path_exists"
  | PublicRemoteIo => "remote_io"
  | LocalPathNotFound => "local_path_not_found"
  | LocalPermissionDenied => "local_permission_denied"
  | LocalPathExists => "local_path_exists"
  | TransferNotFound => "transfer_not_found"
  | TransferCancelled => "transfer_cancelled"
  | RemoteCancelled => "remote_cancelled"
  | ProtocolError => "protocol_error"
  | DecodeError => "decode_error"
  | PublicAdbUnavailable => "adb_unavailable"
  | AdbUnauthorized => "adb_unauthorized"
  | AdbOffline => "adb_offline"
  | WifiDiscoveryFailed => "wifi_discovery_failed"
  | UsbUnavailable => "usb_unavailable"
  | MediaError => "media_error"
  | ClipboardError => "clipboard_error"
  | SyncError => "sync_error"
  | Internal => "internal"
  end.

(** What is shown: a literal text, a core message, or a core error's own text. *)
Inductive shown :=
  | Text (s : string)
  | Shown (m : message)
  | Display (e : Error).

#[export] Instance shown_eq_dec : EqDecision shown.
Proof. solve_decision. Defined.

Record PublicError := mkPublicError {
  pe_code : PublicErrorCode;
  pe_message : shown;
  pe_detail : option shown;
  pe_retryable : bool;
  pe_operation : option string
}.

#[export] Instance PublicError_eq_dec : EqDecision PublicError.
Proof. solve_decision. Defined.

Abbreviation AppResult := (result PublicError).

Definition public_new (code : PublicErrorCode) (m : string) : PublicError := mkPublicError code (Text m) None false None.
Definition with_detail (d : shown) (e : PublicError) : PublicError :=
  mkPublicError (pe_code e) (pe_message e) (Some d) (pe_retryable e) (pe_operation e).
Definition retryable (e : PublicError) : PublicError :=
  mkPublicError (pe_code e) (pe_message e) (pe_detail e) true (pe_operation e).
Definition operation (op : string) (e : PublicError) : PublicError :=
  mkPublicError (pe_code e) (pe_message e) (pe_detail e) (pe_retryable e) (Some op).

(** The two tables of [from_core_error]. *)
Definition core_code (e : Error) : PublicErrorCode * bool :=
  match e with
  | EInterrupted => (TransferCancelled, false)
  | ECancelled info => match ci_origin info with
                       | Local _ => (TransferCancelled, false)
                       | Remote _ => (RemoteCancelled, false)
                       end
  | ETimeout _ => (ConnectionLost, true)
  | ETransport _ => (ConnectFailed, true)
  | EHandshake _ => (TrustRejected, false)
  | EProtocol _ => (ProtocolError, false)
  | EAdbUnavailable _ => (PublicAdbUnavailable, false)
  | EDeviceSelection _ => (DeviceNotFound, false)
  | EConfiguration _ => (InvalidState, false)
  | ERemoteIo _ _ => (RemotePathNotFound, false)
  | ELocalIo _ => (LocalPathNotFound, false)
  | EUsage _ => (InvalidArgument, false)
  | EConfirmationRequired _ => (InvalidState, false)
  end.

Definition core_detail (e : Error) : option shown :=
  match e with
  | ETransport m | EHandshake m | EProtocol m | EConfiguration m | ELocalIo m | EUsage m | ETimeout m
  | ERemoteIo _ m => Some (Shown m)
  | _ => None
  end.

Definition from_core_error (e : Error) (op : string) : PublicError :=
  let (code, again) := core_code e in
  mkPublicError code (Display e) (core_detail e) again (Some op).

Lemma public_code_inj (a b : PublicErrorCode) : public_code a = public_code b -> a = b.
Proof. by destruct a, b. Qed.

Lemma as_str_inj (a b : PublicErrorCode) : as_str a = as_str b -> a = b.
Proof. by destruct a, b. Qed.
