(* ===== verification/Domain.v ===== *)
(** * Domain data

    The data types of crates/handshaker-core/src/domain.rs and the event types of
    crates/handshaker-core/src/events.rs, field by field.  Unsigned integers are
    [Z], [f64] is IEEE binary64 as [spec_float], [BTreeMap<String, _>] is
    [gmap string _], whose ordered iteration is [Prelude.btree_keys]. *)

From Stdlib Require Import Floats.SpecFloat.
From S2P Require Import Prelude Errors.

Abbreviation f64 := spec_float.

#[export] Instance f64_eq_dec : EqDecision f64.
Proof. solve_decision. Defined.

(** [x / 1000.0] in binary64. *)
Definition f64_1000 : f64 := binary_normalize 53 1024 1000 0 false.
Definition f64_div_1000 (x : f64) : f64 := SFdiv 53 1024 x f64_1000.

(** ** domain.rs *)

(** Device information returned by the phone. *)
Record DeviceInfo := mkDeviceInfo {
  di_serial : string;
  di_phone_id : option string;
  di_name : option string;
  di_model : option string;
  di_brand : option string;
  di_manufacturer : option string;
  di_smartisan_version : option string;
  di_apk_version : option string;
  di_apk_version_name : option string;
  di_root_path : string;
  di_external_storage_path : option string;
  di_disk_size : option Z;
  di_used_disk_size : option Z;
  di_battery_percentage : option Z;
  di_phone_locked : option bool
}.

(** One line of [adb devices -l]. *)
Record AdbDevice := mkAdbDevice {
  ad_serial : string;
  ad_state : string;
  ad_product : option string;
  ad_model : option string;
  ad_device : option string
}.

(** A persisted trust record without its key. *)
Record TrustRecordInfo := mkTrustRecordInfo {
  tri_device_uuid : string;
  tri_device_name : option string;
  tri_updated_at : Z
}.

(** File or directory metadata on the phone. *)
Record RemoteFile := mkRemoteFile {
  rf_path : string;
  rf_size : Z;
  rf_created_at : option Z;
  rf_modified_at : option Z;
  rf_is_directory : bool;
  rf_checksum : option string;
  rf_is_trash : option bool;
  rf_id : option Z;
  rf_ext_data : option string
}.

(** One decompressed clipboard entry. *)
Record ClipboardEntry := mkClipboardEntry {
  ce_text : string;
  ce_timestamp_ms : Z
}.

(** One unit of a batch transfer. *)
Record BatchTransferItem := mkBatchTransferItem {
  bi_source : string;
  bi_target : string
}.

(** A failed file of a batch transfer. *)
Record BatchTransferFailure := mkBatchTransferFailure {
  bf_source : string;
  bf_target : string;
  bf_message : message;
  bf_code : option ErrorCode
}.

(** Aggregated result of a batch. *)
Record BatchTransferResult := mkBatchTransferResult {
  br_ok : list BatchTransferItem;
  br_failures : list BatchTransferFailure
}.

(** An image of the photo library. *)
Record ImageFile := mkImageFile {
  img_path : option string;
  img_size : option Z;
  img_created_at : option Z;
  img_modified_at : option Z;
  img_width : option Z;
  img_height : option Z;
  img_orientation : option Z;
  img_media_id : option Z;
  img_album_id : option Z;
  img_mime_type : option string;
  img_thumbnail : option (list byte);
  img_album_name : option string;
  img_date_taken : option Z;
  img_latitude : option string;
  img_longitude : option string;
  img_mini_thumb_magic : option string;
  img_title : option string;
  img_thumbnail_error : bool;
  img_starred : bool
}.

(** A photo album. *)
Record ImageAlbum := mkImageAlbum {
  ia_path : option string;
  ia_album_id : option Z;
  ia_name : option string;
  ia_cover_image : option ImageFile
}.

(** A video of the video library. *)
Record VideoFile := mkVideoFile {
  vid_path : option string;
  vid_size : option Z;
  vid_created_at : option Z;
  vid_modified_at : option Z;
  vid_width : option Z;
  vid_height : option Z;
  vid_orientation : option Z;
  vid_media_id : option Z;
  vid_album_id : option Z;
  vid_mime_type : option string;
  vid_thumbnail : option (list byte);
  vid_thumbnail_error : bool;
  vid_duration : option f64
}.

(** A video album. *)
Record VideoAlbum := mkVideoAlbum {
  va_path : option string;
  va_album_id : option Z;
  va_name : option string
}.

(** A track of the music library. *)
Record AudioFile := mkAudioFile {
  aud_path : option string;
  aud_size : option Z;
  aud_created_at : option Z;
  aud_modified_at : option Z;
  aud_media_id : option Z;
  aud_album_id : option Z;
  aud_title : option string;
  aud_mime_type : option string;
  aud_artist_id : option Z;
  aud_artist : option string;
  aud_composer : option string;
  aud_genre : option Z;
  aud_comment : option string;
  aud_copyright : option string;
  aud_audio_codec : option string;
  aud_track : option Z;
  aud_duration : option f64
}.

(** An audio album. *)
Record AudioAlbum := mkAudioAlbum {
  aa_path : option string;
  aa_album_id : option Z;
  aa_name : option string;
  aa_artist_id : option Z;
  aa_artist : option string;
  aa_year : option Z;
  aa_thumbnail : option (list byte);
  aa_thumbnail_error : bool
}.

(** Photo library snapshot. *)
Record PhotoLibrary := mkPhotoLibrary {
  pl_images : list ImageFile;
  pl_albums : list ImageAlbum;
  pl_camera_album_id : option Z
}.

(** Video library snapshot. *)
Record VideoLibrary := mkVideoLibrary {
  vl_videos : list VideoFile;
  vl_albums : list VideoAlbum
}.

(** Audio library snapshot. *)
Record AudioLibrary := mkAudioLibrary {
  al_tracks : list AudioFile;
  al_albums : list AudioAlbum
}.

(** Photo-sync profile. *)
Record SyncConfig := mkSyncConfig {
  sc_device_uuid : string;
  sc_phone_root : string;
  sc_local_root : string;
  sc_pc_id : string
}.

(** One recorded file of the sync ledger. *)
Record SyncFileRecord := mkSyncFileRecord {
  sr_size : Z;
  sr_checksum : option string;
  sr_ext_data : option string;
  sr_modified_at : option Z;
  sr_local_path : string;
  sr_local_sha256 : option string
}.

(** Ledger snapshot keyed by absolute phone path. *)
Record SyncSnapshot := mkSyncSnapshot {
  ss_files : gmap string SyncFileRecord
}.

(** Diff between the phone's state and the ledger. *)
Record SyncDiff := mkSyncDiff {
  sd_added : list string;
  sd_info_modified : list string;
  sd_deleted : list string;
  sd_conflicts : list string
}.

(** ** events.rs *)

Inductive MediaKind := Photo | Video | Audio.

Inductive FileEventKind :=
  | FeCreate | FeDelete | FeCloseWrite | FeMovedFrom | FeMovedTo | FeDeleteSelf
  | FeMoveSelf | FeDirectoryChanged | FeUnknown.

Inductive FileChangeStatus :=
  | FcNone | FcAdded | FcDeleted | FcModified | FcInfoModified | FcFileAndInfoModified | FcUnknown.

Inductive UnknownEventReason := UnknownRequestType | MissingTypeAmbiguous | DecodeFailed.

#[export] Instance MediaKind_eq_dec : EqDecision MediaKind.
Proof. solve_decision. Defined.

(** A normalised media entry of a change event. *)
Record MediaItem := mkMediaItem {
  mi_media_id : option Z;
  mi_album_id : option Z;
  mi_path : option string;
  mi_size : option Z;
  mi_created_at : option Z;
  mi_modified_at : option Z;
  mi_width : option Z;
  mi_height : option Z;
  mi_orientation : option Z;
  mi_mime_type : option string;
  mi_title : option string;
  mi_album_name : option string;
  mi_duration : option f64;
  mi_artist : option string
}.

(** An album-level change. *)
Record MediaAlbum := mkMediaAlbum {
  ma_album_id : option Z;
  ma_path : option string;
  ma_name : option string;
  ma_artist : option string
}.

(** A normalised media library change. *)
Record MediaLibraryChange := mkMediaLibraryChange {
  mc_kind : MediaKind;
  mc_added : list MediaItem;
  mc_deleted : list MediaItem;
  mc_updated : list MediaItem;
  mc_albums : list MediaAlbum
}.

(** A directory monitor event. *)
Record FileEvent := mkFileEvent {
  fe_file : option RemoteFile;
  fe_kind : FileEventKind
}.

(** One synchronisation file change. *)
Record FileChange := mkFileChange {
  fc_file : option RemoteFile;
  fc_status : FileChangeStatus
}.

(** A photo synchronisation response. *)
Record PhotoSyncChange := mkPhotoSyncChange {
  psc_is_first : option bool;
  psc_files : list RemoteFile;
  psc_is_success : option bool
}.

(** A synchronisation monitor response. *)
Record SyncMonitorChange := mkSyncMonitorChange {
  smc_is_success : option bool
}.

(** A safely summarised event. *)
Record UnknownEvent := mkUnknownEvent {
  ue_sid : Z;
  ue_request_type : option Z;
  ue_payload_len : Z;
  ue_reason : UnknownEventReason
}.

Inductive ClientEvent :=
  | DeviceInfoChanged (info : DeviceInfo)
  | ClipboardChanged (entries : list ClipboardEntry)
  | MediaLibraryChanged (change : MediaLibraryChange)
  | DirectoryChanged (events : list FileEvent)
  | FileChanged (changes : list FileChange)
  | PhotoSyncChanged (change : PhotoSyncChange)
  | SyncMonitorChanged (change : SyncMonitorChange)
  | RequestCancelled (info : CancellationInfo)
  | UnknownEv (event : UnknownEvent).

Inductive EventKind :=
  | KDeviceInfoChanged | KClipboardChanged | KMediaLibraryChanged | KDirectoryChanged
  | KFileChanged | KPhotoSyncChanged | KSyncMonitorChanged | KRequestCancelled | KUnknown.

#[export] Instance EventKind_eq_dec : EqDecision EventKind.
Proof. solve_decision. Defined.

(** [ClientEvent::kind] *)
Definition event_kind (e : ClientEvent) : EventKind :=
  match e with
  | DeviceInfoChanged _ => KDeviceInfoChanged
  | ClipboardChanged _ => KClipboardChanged
  | MediaLibraryChanged _ => KMediaLibraryChanged
  | DirectoryChanged _ => KDirectoryChanged
  | FileChanged _ => KFileChanged
  | PhotoSyncChanged _ => KPhotoSyncChanged
  | SyncMonitorChanged _ => KSyncMonitorChanged
  | RequestCancelled _ => KRequestCancelled
  | UnknownEv _ => KUnknown
  end.

(** [EventFilter]: [None] accepts every kind. *)
Record EventFilter := mkEventFilter { ef_kinds : option (list EventKind) }.

Definition filter_accepts (f : EventFilter) (k : EventKind) : bool :=
  match ef_kinds f with
  | None => true
  | Some kinds => bool_decide (k ∈ kinds)
  end.

(** [..Default::default()] *)
Definition ImageFile_default : ImageFile :=
  mkImageFile None None None None None None None None None None None None None None None None None false false.
Definition VideoFile_default : VideoFile :=
  mkVideoFile None None None None None None None None None None None false None.
Definition AudioFile_default : AudioFile :=
  mkAudioFile None None None None None None None None None None None None None None None None None.
Definition MediaItem_default : MediaItem :=
  mkMediaItem None None None None None None None None None None None None None None.
Definition SyncDiff_default : SyncDiff := mkSyncDiff [] [] [] [].
Definition SyncSnapshot_default : SyncSnapshot := mkSyncSnapshot ∅.

#[export] Instance SyncFileRecord_eq_dec : EqDecision SyncFileRecord.
Proof. solve_decision. Defined.
#[export] Instance SyncSnapshot_eq_dec : EqDecision SyncSnapshot.
Proof. solve_decision. Defined.
#[export] Instance RemoteFile_eq_dec : EqDecision RemoteFile.
Proof. solve_decision. Defined.
