(* ===== verification/Frame.v ===== *)
(** * Wire framing

    crates/handshaker-core/src/protocol/frame.rs: the two asymmetric frame
    formats of the SSP byte stream and the wire log.  Upstream frames (host to
    phone) carry [sid:4][flag:1][length:4][payload], downstream frames (phone to
    host) carry [sid:4][length:2][chunk]; every integer is big endian. *)

From S2P Require Import Prelude Errors.

Definition MAX_UPSTREAM_PAYLOAD : Z := 0x400000.
Definition MAX_DOWNSTREAM_CHUNK : Z := 32761.

(** ** Byte streams

    The transport as [read_exact] sees it: the bytes still to arrive and the
    error that ends the stream.  [read_exact] consumes what was there when it
    fails. *)
Record reader := Reader { rd_bytes : list byte; rd_end : string }.

Definition read_exact (n : nat) (r : reader) : result string (list byte) * reader :=
  if (n <=? length (rd_bytes r))%nat
  then (Ok (take n (rd_bytes r)), Reader (drop n (rd_bytes r)) (rd_end r))
  else (Err (rd_end r), Reader [] (rd_end r)).

(** The sink end of the transport: bytes accepted so far, and the error the next
    [write_all] or [flush] reports, if any. *)
Record writer := Writer { wr_bytes : list byte; wr_fail : option string; wr_flush_fail : option string }.

Definition encode_upstream (sid flag : Z) (payload : list byte) : Res (list byte) :=
  if zlen payload >? MAX_UPSTREAM_PAYLOAD
  then Err (EProtocol (Msg "frame.upstream_too_large"
              [pretty (zlen payload); pretty MAX_UPSTREAM_PAYLOAD]))
  else Ok (be_bytes 4 sid ++ [byte_of_Z flag] ++ be_bytes 4 (wrap32 (zlen payload)) ++ payload).

Definition write_upstream (w : writer) (sid flag : Z) (payload : list byte)
  : Res (list byte) * writer :=
  match encode_upstream sid flag payload with
  | Err e => (Err e, w)
  | Ok frame =>
      match wr_fail w with
      | Some e => (Err (ETransport (Msg "frame.write_failed" [e])), w)
      | None =>
          let w' := Writer (wr_bytes w ++ frame) (wr_fail w) (wr_flush_fail w) in
          match wr_flush_fail w with
          | Some e => (Err (ETransport (Msg "frame.flush_failed" [e])), w')
          | None => (Ok frame, w')
          end
      end
  end.

Definition read_downstream (r : reader) : Res (Z * list byte * list byte) * reader :=
  match read_exact 6 r with
  | (Err e, r) => (Err (ETransport (Msg "frame.header_read_failed" [e])), r)
  | (Ok header, r) =>
      let sid := be_val (take 4 header) in
      let chunk_len := be_val (drop 4 header) in
      if chunk_len >? MAX_DOWNSTREAM_CHUNK
      then (Err (EProtocol (Msg "frame.downstream_too_large"
                   [pretty chunk_len; pretty MAX_DOWNSTREAM_CHUNK])), r)
      else match read_exact (Z.to_nat chunk_len) r with
           | (Err e, r) => (Err (ETransport (Msg "frame.data_read_failed" [e])), r)
           | (Ok chunk, r) => (Ok (sid, chunk, header), r)
           end
  end.

(** ** What the peer does

    The phone's side of the two formats, from docs/protocol/05-message-framing.md
    sections 5.1 and 5.2. *)
Definition phone_read_upstream (bs : list byte) : option (Z * Z * list byte * list byte) :=
  if (length bs <? 9)%nat then None else
  let len := be_val (take 4 (drop 5 bs)) in
  if len >? 0x400000 then None else
  let rest := drop 9 bs in
  if zlen rest <? len then None
  else Some (be_val (take 4 bs), be_val (take 1 (drop 4 bs)),
             take (Z.to_nat len) rest, drop (Z.to_nat len) rest).

Definition phone_frame (sid : Z) (chunk : list byte) : list byte :=
  be_bytes 4 sid ++ be_bytes 2 (zlen chunk) ++ chunk.

#[global] Arguments phone_frame : simpl never.

Definition is_u32 (n : Z) : Prop := 0 <= n < 2 ^ 32.
Definition is_u8 (n : Z) : Prop := 0 <= n < 256.

(** ** Wire log

    [WireLog]: the file's current contents as the lines written, the rotated
    generation, and what the file system answers to a rotation. *)
Inductive WireDirection := Out | In.

Inductive log_line :=
  | HeaderLine (direction note : string) (len : Z)
  | HexLine (bytes : list byte).

Record WireLog := mkWireLog {
  wl_payload : bool;
  wl_max_bytes : Z;
  wl_file : list log_line;
  wl_rotated : option (list log_line)
}.

Section WireLog.

(** Rendered size of the current file ([metadata().len()], [None] when the
    metadata call fails), and whether the rename and the reopening succeed. *)
Context (file_len : list log_line -> option Z) (rename_ok reopen_ok : bool).

Definition maybe_rotate (log : WireLog) : WireLog :=
  let over_limit := match file_len (wl_file log) with
                    | Some n => n >=? wl_max_bytes log
                    | None => false
                    end in
  if negb over_limit then log
  else match rename_ok, reopen_ok with
       | true, true => mkWireLog (wl_payload log) (wl_max_bytes log) [] (Some (wl_file log))
       | true, false =>
           (* the handle follows the renamed file, whose old generation is gone *)
           mkWireLog (wl_payload log) (wl_max_bytes log) (wl_file log) None
       | false, _ => log
       end.

Fixpoint chunks_of (n fuel : nat) (bs : list byte) : list (list byte) :=
  match fuel, bs with
  | _, [] => []
  | O, _ => []
  | S fuel, _ => take n bs :: chunks_of n fuel (drop n bs)
  end.

Definition record (log : WireLog) (direction : WireDirection) (note : string) (data : list byte) : WireLog :=
  let arrow := match direction with Out => ">>" | In => "<<" end in
  let log := maybe_rotate log in
  let lines := HeaderLine arrow note (zlen data)
                 :: (if wl_payload log then HexLine <$> chunks_of 32 (length data) data else []) in
  mkWireLog (wl_payload log) (wl_max_bytes log) (wl_file log ++ lines) (wl_rotated log).

End WireLog.

(** ** Lemmas *)

Lemma read_exact_app (n : nat) (a b : list byte) (e : string) :
  n = length a -> read_exact n (Reader (a ++ b) e) = (Ok a, Reader b e).
Proof.
  intros ->. unfold read_exact. simpl rd_bytes.
  rewrite (proj2 (Nat.leb_le _ _)) by (rewrite length_app; lia).
  by rewrite take_app_length, drop_app_length.
Qed.

Lemma read_exact_Ok (n : nat) (r r' : reader) (a : list byte) :
  read_exact n r = (Ok a, r') ->
  rd_bytes r = a ++ rd_bytes r' /\ length a = n /\ rd_end r' = rd_end r.
Proof.
  unfold read_exact. destruct (Nat.leb_spec n (length (rd_bytes r))); intros [= <- <-].
  simpl. rewrite take_drop, length_take. repeat split; lia.
Qed.

Lemma read_exact_short (n : nat) (r : reader) :
  (length (rd_bytes r) < n)%nat -> read_exact n r = (Err (rd_end r), Reader [] (rd_end r)).
Proof. intros H. unfold read_exact. by rewrite (proj2 (Nat.leb_gt _ _)). Qed.

Lemma encode_upstream_Ok (sid flag : Z) (payload frame : list byte) :
  encode_upstream sid flag payload = Ok frame ->
  zlen payload <= MAX_UPSTREAM_PAYLOAD /\
  frame = be_bytes 4 sid ++ [byte_of_Z flag] ++ be_bytes 4 (zlen payload) ++ payload.
Proof.
  unfold encode_upstream, MAX_UPSTREAM_PAYLOAD, wrap32.
  case_test; [discriminate|]. bools. intros [= <-]. split; [lia|].
  by rewrite Z.mod_small by lia.
Qed.

Lemma read_downstream_frame (sid : Z) (chunk rest : list byte) (e : string) :
  is_u32 sid -> zlen chunk <= MAX_DOWNSTREAM_CHUNK ->
  read_downstream (Reader (phone_frame sid chunk ++ rest) e) =
    (Ok (sid, chunk, be_bytes 4 sid ++ be_bytes 2 (zlen chunk)), Reader rest e).
Proof.
  unfold is_u32, MAX_DOWNSTREAM_CHUNK. intros Hsid Hlen.
  unfold read_downstream, phone_frame. rewrite <- !app_assoc, (app_assoc (be_bytes 4 sid)).
  rewrite read_exact_app by len.
  rewrite take_app_exact, drop_app_exact by len.
  rewrite !be_val_bytes_small by lia.
  unfold MAX_DOWNSTREAM_CHUNK.
  case_test; bools; [lia|].
  by rewrite Nat2Z.id, read_exact_app.
Qed.

Lemma read_downstream_Ok (r r' : reader) (sid : Z) (chunk header : list byte) :
  read_downstream r = (Ok (sid, chunk, header), r') ->
  is_u32 sid /\ zlen chunk <= MAX_DOWNSTREAM_CHUNK /\
  header = be_bytes 4 sid ++ be_bytes 2 (zlen chunk) /\
  rd_bytes r = phone_frame sid chunk ++ rd_bytes r' /\ rd_end r' = rd_end r.
Proof.
  unfold read_downstream, is_u32, phone_frame.
  destruct (read_exact 6 r) as [[h|] r1] eqn:E1; [|discriminate].
  apply read_exact_Ok in E1 as (Hr & Hlen & He1).
  case_test; [discriminate|]. bools.
  destruct (read_exact _ r1) as [[c|] r2] eqn:E2; [|discriminate].
  apply read_exact_Ok in E2 as (Hr1 & Hlen2 & He2).
  intros [= <- <- <- <-].
  pose proof (be_val_range (take 4 h)) as R4. pose proof (be_val_range (drop 4 h)) as R2.
  assert (length (take 4 h) = 4)%nat as L4 by len.
  assert (length (drop 4 h) = 2)%nat as L2 by len.
  rewrite L4 in R4. rewrite L2 in R2.
  assert (zlen c = be_val (drop 4 h)) as Hc by lia.
  assert (h = be_bytes 4 (be_val (take 4 h)) ++ be_bytes 2 (zlen c)) as Hh.
  { by rewrite Hc, !be_bytes_val_eq, take_drop. }
  repeat split; try lia; [exact Hh| |congruence].
  rewrite Hr, Hr1, !app_assoc. do 2 f_equal. exact Hh.
Qed.

(** ** Properties *)

(** Every frame [encode_upstream] produces is decoded by the phone's reader
    back to the same session id, flag and payload, whatever bytes follow it. *)
Theorem encode_upstream_roundtrip (sid flag : Z) (payload frame rest : list byte) :
  is_u32 sid -> is_u8 flag -> encode_upstream sid flag payload = Ok frame ->
  phone_read_upstream (frame ++ rest) = Some (sid, flag, payload, rest).
Proof.
  unfold is_u32, is_u8. intros Hsid Hflag [Hlen ->]%encode_upstream_Ok.
  unfold MAX_UPSTREAM_PAYLOAD in Hlen. unfold phone_read_upstream.
  case_test; bools; [len|].
  set (h := be_bytes 4 sid). set (l := be_bytes 4 (zlen payload)).
  assert (length h = 4%nat /\ length l = 4%nat) as [Hh Hl] by (split; apply be_bytes_length).
  set (F := (h ++ [byte_of_Z flag] ++ l ++ payload) ++ rest).
  assert (F = (h ++ [byte_of_Z flag] ++ l) ++ payload ++ rest) as F9 by (unfold F; by rewrite <- !app_assoc).
  assert (F = (h ++ [byte_of_Z flag]) ++ l ++ payload ++ rest) as F5 by (unfold F; by rewrite <- !app_assoc).
  assert (F = h ++ [byte_of_Z flag] ++ l ++ payload ++ rest) as F4 by (unfold F; by rewrite <- !app_assoc).
  assert (drop 9 F = payload ++ rest) as -> by (rewrite F9; apply drop_app_exact; len).
  assert (drop 5 F = l ++ payload ++ rest) as -> by (rewrite F5; apply drop_app_exact; len).
  assert (drop 4 F = [byte_of_Z flag] ++ l ++ payload ++ rest) as -> by (rewrite F4; by apply drop_app_exact).
  assert (take 4 F = h) as -> by (rewrite F4; by apply take_app_exact).
  rewrite (take_app_exact l) by done. unfold h, l. rewrite !be_val_bytes_small by lia.
  case_test; bools; [lia|]. case_test; bools; [len|].
  rewrite Nat2Z.id, take_app_length, drop_app_length.
  rewrite (take_app_exact [byte_of_Z flag] _ 1) by done.
  by rewrite be_val_single, Z.mod_small by lia.
Qed.

Lemma encode_upstream_roundtrip_witness :
  encode_upstream 0x80000001 1 [x61; x62] = Ok [x80; x00; x00; x01; x01; x00; x00; x00; x02; x61; x62] /\
  phone_read_upstream ([x80; x00; x00; x01; x01; x00; x00; x00; x02; x61; x62] ++ [xff])
    = Some (0x80000001, 1, [x61; x62], [xff]).
Proof.
  split; [reflexivity|].
  apply (encode_upstream_roundtrip 0x80000001 1 [x61; x62]);
    [unfold is_u32; lia | unfold is_u8; lia | reflexivity].
Defined.

(** C2: [read_downstream] accepts exactly the phone's frames: it returns
    [(sid, chunk, header)] and leaves [r'] if and only if the stream starts with
    the frame of [sid] and [chunk], the chunk is within the verified bound, and
    [r'] is the stream after that frame. *)
Theorem read_downstream_exact (r r' : reader) (sid : Z) (chunk header : list byte) :
  read_downstream r = (Ok (sid, chunk, header), r') <->
  is_u32 sid /\ zlen chunk <= MAX_DOWNSTREAM_CHUNK /\
  header = be_bytes 4 sid ++ be_bytes 2 (zlen chunk) /\
  rd_bytes r = phone_frame sid chunk ++ rd_bytes r' /\ rd_end r' = rd_end r.
Proof.
  split; [apply read_downstream_Ok|].
  intros (Hsid & Hlen & -> & Hr & He). destruct r as [bs e], r' as [bs' e'].
  simpl in *. subst. by apply read_downstream_frame.
Qed.
