(* ===== verification/Reassembly.v ===== *)
(** * Length-prefixed reassembly: the contract

    Every phone message travels as an 8-byte big-endian length followed by the
    body, cut into chunks at arbitrary places.  Three routines of the program
    put such a message together again: [read_normal_direct] (Handshake.v),
    [NormalAccumulator::push] and [receive_normal] (Session.v).  This file states
    what they promise, as a function of the bytes received so far, and the class
    [Reassembler] through which the message-level theorems are proved once. *)

From S2P Require Import Prelude Errors.

(** What the bytes received so far amount to. *)
Inductive verdict :=
  | More
  | Done (body : list byte)
  | Reject.

(** The message as the phone sends it. *)
Definition prefixed (body : list byte) : list byte := be_bytes 8 (zlen body) ++ body.

Definition reasm_spec (limit : Z) (bs : list byte) : verdict :=
  if zlen bs <? 8 then More else
  let total := be_val (take 8 bs) in
  if total >? limit then Reject
  else if zlen bs =? total + 8 then Done (drop 8 bs)
  else if zlen bs >? total + 8 then Reject
  else More.

(** One implementation: its state, the bytes the state stands for, and the
    refinement law: while the bytes so far ask for more, a push of an admissible
    chunk agrees with the specification on the longer input. *)
Class Reassembler (St : Type) := {
  ra_limit : Z;
  ra_chunk_ok : list byte -> Prop;
  ra_inv : St -> Prop;
  ra_bytes : St -> list byte;
  ra_init : St;
  ra_push : St -> list byte -> Res (option (list byte)) * St;
  ra_limit_range : 0 <= ra_limit < 2 ^ 63;
  ra_init_ok : ra_inv ra_init /\ ra_bytes ra_init = [];
  ra_inv_more : forall s, ra_inv s -> reasm_spec ra_limit (ra_bytes s) = More;
  ra_push_refines : forall s c, ra_inv s -> ra_chunk_ok c ->
    match ra_push s c with
    | (Ok None, s') =>
        reasm_spec ra_limit (ra_bytes s ++ c) = More /\ ra_inv s' /\ ra_bytes s' = ra_bytes s ++ c
    | (Ok (Some body), _) => reasm_spec ra_limit (ra_bytes s ++ c) = Done body
    | (Err _, _) => reasm_spec ra_limit (ra_bytes s ++ c) = Reject
    end
}.

(** Pushing a list of chunks: the first answer that is not "more", and the chunks
    left over. *)
Fixpoint ra_feed `{Reassembler St} (s : St) (cs : list (list byte)) : verdict * list (list byte) :=
  match cs with
  | [] => (More, [])
  | c :: cs =>
      match ra_push s c with
      | (Ok None, s) => ra_feed s cs
      | (Ok (Some body), _) => (Done body, cs)
      | (Err _, _) => (Reject, cs)
      end
  end.

(** ** The specification *)

Lemma reasm_spec_short (limit : Z) (bs : list byte) : zlen bs < 8 -> reasm_spec limit bs = More.
Proof. intros H. unfold reasm_spec. by rewrite (proj2 (Z.ltb_lt _ _)). Qed.

Lemma reasm_spec_long (limit : Z) (h k : list byte) :
  length h = 8%nat ->
  reasm_spec limit (h ++ k) =
    if be_val h >? limit then Reject
    else if zlen k =? be_val h then Done k
    else if zlen k >? be_val h then Reject else More.
Proof.
  intros Hh. unfold reasm_spec.
  rewrite (take_app_exact h _ 8), (drop_app_exact h _ 8) by done.
  rewrite length_app, Hh.
  replace (Z.of_nat (8 + length k) <? 8) with false by lia.
  replace (Z.of_nat (8 + length k) =? be_val h + 8) with (zlen k =? be_val h) by lia.
  replace (Z.of_nat (8 + length k) >? be_val h + 8) with (zlen k >? be_val h) by lia.
  done.
Qed.

Lemma reasm_spec_split (limit : Z) (bs : list byte) :
  8 <= zlen bs -> exists h k, bs = h ++ k /\ length h = 8%nat.
Proof. intros H. exists (take 8 bs), (drop 8 bs). rewrite take_drop. split; [done|len]. Qed.

(** The specification is exact: "done" is precisely a whole message within the
    limit. *)
Lemma reasm_spec_Done (limit : Z) (bs body : list byte) :
  limit < 2 ^ 64 ->
  reasm_spec limit bs = Done body <-> bs = prefixed body /\ zlen body <= limit.
Proof.
  intros Hl. unfold prefixed. split.
  - destruct (Z.ltb_spec (zlen bs) 8) as [H|H]; [by rewrite reasm_spec_short|].
    destruct (reasm_spec_split limit bs H) as (h & k & -> & Hh).
    rewrite reasm_spec_long by done.
    repeat case_test; intros [= <-]; bools.
    split; [|lia]. f_equal. rewrite Heqb0. symmetry. by apply be_bytes_val_eq.
  - intros [-> Hlim]. rewrite reasm_spec_long by apply be_bytes_length.
    rewrite be_val_bytes_small by lia.
    replace (zlen body >? limit) with false by lia. by rewrite Z.eqb_refl.
Qed.

(** Every proper prefix of a message within the limit asks for more. *)
Lemma reasm_spec_prefix (limit : Z) (body a b : list byte) :
  zlen body <= limit -> limit < 2 ^ 64 -> prefixed body = a ++ b -> b <> [] ->
  reasm_spec limit a = More.
Proof.
  unfold prefixed. intros Hl Hlim Heq Hb.
  destruct (Z.ltb_spec (zlen a) 8) as [H|H]; [by apply reasm_spec_short|].
  destruct (reasm_spec_split limit a H) as (h & k & -> & Hh).
  rewrite <- app_assoc in Heq. apply app_inj_1 in Heq as [<- ->]; [|by rewrite be_bytes_length].
  rewrite reasm_spec_long by done.
  destruct b as [|x b]; [done|].
  rewrite be_val_bytes_small by lia. rewrite length_app in *. simpl length in *.
  replace (_ >? limit) with false by lia.
  replace (_ =? _) with false by lia.
  by replace (_ >? _) with false by lia.
Qed.

(** ** Message-level facts of any implementation *)

Section Facts.
Context `{Reassembler St}.

Lemma ra_limit_u64 : ra_limit < 2 ^ 64.
Proof. pose proof ra_limit_range. lia. Qed.

Lemma ra_done_iff (bs body : list byte) :
  reasm_spec ra_limit bs = Done body <-> bs = prefixed body /\ zlen body <= ra_limit.
Proof. apply reasm_spec_Done, ra_limit_u64. Qed.

(** One push along a message: the body is answered exactly when it is complete. *)
Lemma ra_push_prefix (s : St) (c rest body : list byte) :
  ra_inv s -> ra_chunk_ok c -> zlen body <= ra_limit -> prefixed body = ra_bytes s ++ c ++ rest ->
  match ra_push s c with
  | (Ok None, s') => ra_inv s' /\ ra_bytes s' = ra_bytes s ++ c
  | (Ok (Some b), _) => b = body /\ rest = []
  | (Err _, _) => False
  end.
Proof.
  intros Hs Hc Hlen Heq. rewrite app_assoc in Heq.
  pose proof (ra_push_refines s c Hs Hc) as Hp.
  destruct (decide (rest = [])) as [->|Hne].
  - rewrite app_nil_r in Heq. rewrite <- Heq in Hp.
    rewrite (proj2 (ra_done_iff _ body)) in Hp by done.
    destruct (ra_push s c) as [[[b|]|] s']; [by injection Hp as ->|by destruct Hp|done].
  - rewrite (reasm_spec_prefix ra_limit body _ rest) in Hp by first [done | apply ra_limit_u64].
    destruct (ra_push s c) as [[[b|]|] s']; [done| |done]. by destruct Hp as (_ & Hs' & Hb).
Qed.

Lemma ra_feed_more (cs : list (list byte)) (s : St) (body : list byte) :
  ra_inv s -> Forall ra_chunk_ok cs -> zlen body <= ra_limit ->
  prefixed body = ra_bytes s ++ concat cs ->
  exists left, ra_feed s cs = (Done body, left) /\ concat left = [].
Proof.
  revert s. induction cs as [|c cs IH]; intros s Hs Hcs Hlen Heq.
  - pose proof (ra_inv_more s Hs) as Hm.
    simpl in Heq. rewrite app_nil_r in Heq. rewrite <- Heq in Hm.
    by rewrite (proj2 (ra_done_iff _ body)) in Hm.
  - apply Forall_cons in Hcs as [Hc Hcs]. simpl in *.
    pose proof (ra_push_prefix s c (concat cs) body Hs Hc Hlen Heq) as Hp.
    destruct (ra_push s c) as [[[b|]|] s']; [|destruct Hp as [Hs' Hb]|done].
    + destruct Hp as [-> Hnil]. eauto.
    + apply IH; [done..|]. by rewrite Hb, <- app_assoc.
Qed.

(** Any cut of a message within the limit is reassembled to its body. *)
Lemma ra_feed_complete (cs : list (list byte)) (body : list byte) :
  Forall ra_chunk_ok cs -> zlen body <= ra_limit -> concat cs = prefixed body ->
  exists left, ra_feed ra_init cs = (Done body, left) /\ concat left = [].
Proof.
  intros Hcs Hlen Heq. destruct ra_init_ok as [Hi Hb].
  apply ra_feed_more; [done..|]. by rewrite Hb.
Qed.

(** What is reassembled is a message the phone sent: the chunks used are a cut of
    the body with its length. *)
Lemma ra_feed_sound_from (cs left : list (list byte)) (s : St) (body : list byte) :
  ra_inv s -> Forall ra_chunk_ok cs -> ra_feed s cs = (Done body, left) ->
  exists used, cs = used ++ left /\ ra_bytes s ++ concat used = prefixed body /\ zlen body <= ra_limit.
Proof.
  revert s. induction cs as [|c cs IH]; intros s Hs Hcs; simpl; [done|].
  apply Forall_cons in Hcs as [Hc Hcs].
  pose proof (ra_push_refines s c Hs Hc) as Hp.
  destruct (ra_push s c) as [[[b|]|] s']; [| |done].
  - intros [= -> ->]. apply ra_done_iff in Hp as [Heq Hle].
    exists [c]. simpl. by rewrite app_nil_r.
  - destruct Hp as (_ & Hs' & Hb). intros Hf.
    destruct (IH s' Hs' Hcs Hf) as (used & -> & Heq & Hle).
    exists (c :: used). simpl. by rewrite app_assoc, <- Hb.
Qed.

Lemma ra_feed_sound (cs left : list (list byte)) (body : list byte) :
  Forall ra_chunk_ok cs -> ra_feed ra_init cs = (Done body, left) ->
  exists used, cs = used ++ left /\ concat used = prefixed body /\ zlen body <= ra_limit.
Proof.
  intros Hcs Hf. destruct ra_init_ok as [Hi Hb].
  destruct (ra_feed_sound_from cs left ra_init body Hi Hcs Hf) as (used & ? & Heq & ?).
  exists used. by rewrite Hb in Heq.
Qed.

End Facts.

(** ** Length field bookkeeping shared by the implementations *)

(** The length announced by the first eight bytes, once they are there. *)
Definition announced (bs : list byte) : option Z :=
  if zlen bs >=? 8 then Some (be_val (take 8 bs)) else None.

Lemma announced_app (a c : list byte) :
  match announced a with None => announced (a ++ c) | Some t => Some t end = announced (a ++ c).
Proof.
  unfold announced. destruct (zlen a >=? 8) eqn:E; [|done].
  rewrite length_app, take_app_le by lia. by replace (_ >=? 8) with true by lia.
Qed.

Lemma announced_range (bs : list byte) (t : Z) : announced bs = Some t -> 0 <= t < 2 ^ 64.
Proof.
  unfold announced. case_test; intros [= <-].
  pose proof (be_val_range (take 8 bs)) as Hr.
  rewrite length_take, Nat.min_l in Hr by lia. lia.
Qed.

Lemma reasm_spec_announced (limit : Z) (bs : list byte) :
  reasm_spec limit bs =
    match announced bs with
    | None => More
    | Some t => if t >? limit then Reject
                else if zlen bs =? t + 8 then Done (drop 8 bs)
                else if zlen bs >? t + 8 then Reject else More
    end.
Proof.
  unfold reasm_spec, announced.
  destruct (zlen bs <? 8) eqn:E; [by replace (_ >=? 8) with false by lia|].
  by replace (_ >=? 8) with true by lia.
Qed.

(** Bytes held while more is asked for stay below the limit plus the prefix. *)
Lemma reasm_more_bound (limit : Z) (bs : list byte) :
  0 <= limit -> reasm_spec limit bs = More -> zlen bs < limit + 8.
Proof.
  intros Hl. rewrite reasm_spec_announced. unfold announced.
  repeat (case_test; try discriminate); lia.
Qed.
