(* ===== verification/Handshake.v ===== *)
(** * Session keys and the raw key exchange

    crates/handshaker-core/src/protocol/crypto.rs and protocol/handshake.rs: the
    RSA session keys, the obfuscated public key the phone expects, and the
    ADB/USB handshake, which sends that key and waits for an encrypted "ok".
    RSA, AES, MD5, SHA-256 and base64 are third-party crates: the class
    [Crypto] names the operations used. *)

From Stdlib Require Import Strings.String.
From S2P Require Import Prelude Errors Frame Reassembly.

(** ** Third-party primitives *)

Class Crypto := {
  rsa_private : Type;
  rsa_public_der : rsa_private -> result string (list byte);
  rsa_sign_sha256 : rsa_private -> list byte -> result string (list byte);
  rsa_decrypt_pkcs1 : rsa_private -> list byte -> result string (list byte);
  sha256 : list byte -> list byte;
  md5 : list byte -> list byte;
  b64_encode : list byte -> list byte;
  b64_decode : list byte -> result string (list byte);
  aes256_cbc_pkcs7 : list byte -> list byte -> list byte -> list byte
}.

Definition bytes_of_Zs (zs : list Z) : list byte := byte_of_Z <$> zs.

Definition KEY_TABLE : list byte := bytes_of_Zs
  [0x2b; 0x9e; 0x34; 0xd4; 0xe1; 0xd9; 0x08; 0x89; 0x94; 0x93; 0x9e; 0xc4; 0xe3; 0xe9; 0x60; 0xc5;
   0x28; 0xe3; 0xee; 0x32; 0xb0; 0xde; 0x27; 0xef; 0x6b; 0xc2; 0x97; 0x92; 0x05; 0x4e; 0xf9; 0x73;
   0x9c; 0xe8; 0xe8; 0x7b; 0xb4; 0x95; 0xf2; 0xea; 0x0d; 0x72; 0xd4; 0xf4; 0xf4; 0x0b; 0x3b; 0xde].

(** [u8::is_ascii_whitespace]: space, tab, line feed, form feed, carriage return. *)
Definition is_ascii_whitespace (b : byte) : bool :=
  let n := byte_to_Z b in
  (n =? 32) || (n =? 9) || (n =? 10) || (n =? 12) || (n =? 13).

Fixpoint trim_ascii_start (bs : list byte) : list byte :=
  match bs with
  | b :: rest => if is_ascii_whitespace b then trim_ascii_start rest else bs
  | [] => []
  end.

(** [<[u8]>::trim_ascii] *)
Definition trim_ascii (bs : list byte) : list byte :=
  reverse (trim_ascii_start (reverse (trim_ascii_start bs))).

Definition bytes_of_string (s : string) : list byte := list_byte_of_string s.

Section Keys.
Context `{Crypto}.

Record SessionKeys := mkSessionKeys { sk_private : rsa_private; sk_public_der : list byte }.

(** [SessionKeys::generate], given what the RSA key generator answers. *)
Definition SessionKeys_generate (generated : result string rsa_private) : Res SessionKeys :=
  let? private := map_err (fun e => EHandshake (Msg "crypto.rsa_generate_failed" [e])) generated in
  let? public_der := map_err (fun e => EHandshake (Msg "crypto.rsa_public_encode_failed" [e]))
                       (rsa_public_der private) in
  Ok (mkSessionKeys private public_der).

Definition build_enckey (public_der : list byte) : list byte :=
  let digest := md5 public_der in
  let base64 := b64_encode public_der in
  let encrypted := aes256_cbc_pkcs7 (take 32 (drop 16 KEY_TABLE)) (take 16 KEY_TABLE) base64 in
  digest ++ encrypted.

Definition keys_sign (keys : SessionKeys) (data : list byte) : Res (list byte) :=
  map_err (fun e => EProtocol (Msg "crypto.rsa_sign_failed" [e]))
    (rsa_sign_sha256 (sk_private keys) (sha256 data)).

Definition decrypt_handshake_result (keys : SessionKeys) (encoded : list byte) : Res (list byte) :=
  let normalized := filter (fun b => negb (is_ascii_whitespace b)) encoded in
  let? encrypted := map_err (fun e => EHandshake (Msg "crypto.handshake_base64_invalid" [e]))
                      (b64_decode normalized) in
  map_err (fun e => EHandshake (Msg "crypto.handshake_decrypt_failed" [e]))
    (rsa_decrypt_pkcs1 (sk_private keys) encrypted).

End Keys.

(** ** Reading one normal response off the stream *)

Definition MAX_HANDSHAKE_RESPONSE : Z := 16 * 1024 * 1024.

(** The calls made to [WireLog::record], in order. *)
Abbreviation wire_trace := (list (WireDirection * string * list byte)).

Record direct_state := DirectState { ds_assembled : list byte; ds_total : option Z }.
Definition direct_init : direct_state := DirectState [] None.

(** The body of the loop of [read_normal_direct] after a chunk arrived. *)
Definition direct_push (st : direct_state) (chunk : list byte) : Res (option (list byte)) * direct_state :=
  let assembled := ds_assembled st ++ chunk in
  let total := match ds_total st with
               | None => if zlen assembled >=? 8 then Some (be_val (take 8 assembled)) else None
               | Some t => Some t
               end in
  let st := DirectState assembled total in
  match total with
  | None => (Ok None, st)
  | Some total =>
      match usize_try_from total with
      | None => (Err (EProtocol (Msg "session.response_length_too_large" [])), st)
      | Some total =>
          if total >? MAX_HANDSHAKE_RESPONSE
          then (Err (EProtocol (Msg "session.response_length_too_large" [])), st)
          else match checked_add_usize total 8 with
               | None => (Err (EProtocol (Msg "session.response_length_overflow" [])), st)
               | Some expected =>
                   if zlen assembled =? expected then (Ok (Some (drop 8 assembled)), st)
                   else if zlen assembled >? expected
                   then (Err (EProtocol (Msg "session.response_too_long" [])), st)
                   else (Ok None, st)
               end
      end
  end.

(** The loop itself; [None] means the fuel ran out, which [S (length bytes)]
    iterations never do: every accepted frame takes at least six bytes. *)
Fixpoint read_normal_loop (fuel : nat) (st : direct_state) (expected_sid : Z) (r : reader)
  (log : wire_trace) : option (Res (list byte) * reader * wire_trace) :=
  match fuel with
  | O => None
  | S fuel =>
      match read_downstream r with
      | (Err e, r) => Some (Err e, r, log)
      | (Ok (sid, chunk, header), r) =>
          if negb (sid =? expected_sid)
          then Some (Err (EProtocol (Msg "handshake.sid_mismatch" [hex_u32 expected_sid; hex_u32 sid])), r, log)
          else
            let log := log ++ [(In, "wire.handshake_header"%string, header);
                               (In, "wire.handshake_chunk"%string, chunk)] in
            match direct_push st chunk with
            | (Err e, _) => Some (Err e, r, log)
            | (Ok (Some body), _) => Some (Ok body, r, log)
            | (Ok None, st) => read_normal_loop fuel st expected_sid r log
            end
      end
  end.

Definition read_normal_direct (expected_sid : Z) (r : reader) (log : wire_trace)
  : option (Res (list byte) * reader * wire_trace) :=
  read_normal_loop (S (length (rd_bytes r))) direct_init expected_sid r log.

(** ** The ADB and USB handshake *)

(** *** Waiting

    When a stream gives what: the instant by which all but its last [n] bytes have come, and the
    instant at which it reports its end.  A stream that stays open and says nothing more has none. *)
Record Arrivals := mkArrivals { ar_left : nat -> Z; ar_end : option Z }.

(** The instant a read is answered: by the bytes it took, or by the end of the stream. *)
Definition answered_at {T} (a : Arrivals) (answer : Res T) (r : reader) : option Z :=
  match answer with
  | Err (ETransport _) => ar_end a
  | _ => Some (ar_left a (length (rd_bytes r)))
  end.

(** An [await]: under [timeout] with its deadline, or alone. *)
Inductive awaited (A : Type) := InTime (a : A) | TooLate | Hangs.
#[global] Arguments InTime {A} a.
#[global] Arguments TooLate {A}.
#[global] Arguments Hangs {A}.

Definition await_until {A} (deadline answered : option Z) (a : A) : awaited A :=
  match answered, deadline with
  | Some t, Some d => if t <=? d then InTime a else TooLate
  | None, Some _ => TooLate
  | Some _, None => InTime a
  | None, None => Hangs
  end.

Section Adb.
Context `{Crypto}.

Definition ADB_SID : Z := 0x80000001.

(** What the phone's answer means. *)
Definition adb_check_response (keys : SessionKeys) (response : list byte) : Res unit :=
  let word := trim_ascii response in
  if bool_decide (word = bytes_of_string "failed")
  then Err (EHandshake (Msg "handshake.public_key_rejected" []))
  else if bool_decide (word = bytes_of_string "locked")
  then Err (EHandshake (Msg "handshake.phone_locked" []))
  else if bool_decide (word = bytes_of_string "needauth")
  then Err (EHandshake (Msg "handshake.authorization_required" []))
  else
    let? clear := decrypt_handshake_result keys response in
    if bool_decide (clear = bytes_of_string "ok") then Ok ()
    else Err (EHandshake (Msg "handshake.result_invalid" [hex_of_bytes (take 16 clear)])).

(** [AdbRawKeyExchange::establish] over the two halves of the stream, asked at an instant.  The
    request fits the buffers of the socket, so it is written at once. *)
Definition adb_establish (generated : result string rsa_private) (asked request_timeout : Z) (arrivals : Arrivals)
  (w : writer) (r : reader) (log : wire_trace)
  : option (Res SessionKeys * writer * reader * wire_trace) :=
  match SessionKeys_generate generated with
  | Err e => Some (Err e, w, r, log)
  | Ok keys =>
      match write_upstream w ADB_SID 0 (build_enckey (sk_public_der keys)) with
      | (Err e, w) => Some (Err e, w, r, log)
      | (Ok frame, w) =>
          let log := log ++ [(Out, "wire.adb_raw_handshake"%string, frame)] in
          match read_normal_direct ADB_SID r log with
          | None => None
          | Some (response, r, log) =>
              match await_until (Some (asked + request_timeout)) (answered_at arrivals response r) response with
              | Hangs => None
              | TooLate => Some (Err (ETimeout (Msg "handshake.adb" [])), w, r, log)
              | InTime response =>
                  Some ((let? response := response in let? _ := adb_check_response keys response in Ok keys), w, r, log)
              end
          end
      end
  end.

End Adb.

(** A wait with a deadline comes back. *)
Lemma await_deadline {A} (d : Z) (answered : option Z) (a : A) : await_until (Some d) answered a <> Hangs.
Proof. unfold await_until. destruct answered; [by case_test|done]. Qed.

Lemma await_in_time {A} (d : Z) (answered : option Z) (a b : A) :
  await_until (Some d) answered a = InTime b <-> b = a /\ exists t, answered = Some t /\ t <= d.
Proof.
  unfold await_until. destruct answered as [t|]; [destruct (Z.leb_spec t d)|]; split; try done.
  - intros [= <-]. eauto.
  - by intros [-> _].
  - intros (_ & t' & [= <-] & ?). lia.
  - by intros (_ & ? & ? & _).
Qed.

(** Bytes come in the order of the stream. *)
Definition comes_in_order (a : Arrivals) : Prop := forall m n, (m <= n)%nat -> ar_left a n <= ar_left a m.

(** A stream whose end, if it has one, comes after [d]. *)
Definition silent_until (a : Arrivals) (d : Z) : Prop := match ar_end a with Some t => d < t | None => True end.

(** ** Reassembly of the handshake response *)

#[export] Program Instance direct_reassembler : Reassembler direct_state := {|
  ra_limit := MAX_HANDSHAKE_RESPONSE;
  ra_chunk_ok := fun _ => True;
  ra_inv := fun s => ds_total s = announced (ds_assembled s) /\
                     reasm_spec MAX_HANDSHAKE_RESPONSE (ds_assembled s) = More;
  ra_bytes := ds_assembled;
  ra_init := direct_init;
  ra_push := direct_push
|}.
Next Obligation. done. Qed.
Next Obligation. done. Qed.
Next Obligation. by intros s [_ H]. Qed.
Next Obligation.
  intros s c [Ht Hm] _. unfold direct_push. rewrite Ht.
  fold (announced (ds_assembled s ++ c)). rewrite announced_app.
  pose proof (reasm_spec_announced MAX_HANDSHAKE_RESPONSE (ds_assembled s ++ c)) as Hs.
  destruct (announced (ds_assembled s ++ c)) as [t|] eqn:E; [|by simpl; rewrite E].
  apply announced_range in E as Hr.
  unfold usize_try_from, checked_add_usize, USIZE_MAX in *.
  replace (t <=? _) with true by lia.
  destruct (t >? MAX_HANDSHAKE_RESPONSE) eqn:Hlim; [done|].
  unfold MAX_HANDSHAKE_RESPONSE in Hlim. replace (t + 8 <=? _) with true by lia.
  repeat (case_test; [done|]). simpl. by rewrite E.
Qed.

Definition frames_of (sid : Z) (cs : list (list byte)) : list byte :=
  concat (phone_frame sid <$> cs).

Lemma frames_of_cons (sid : Z) (c : list byte) (cs : list (list byte)) :
  frames_of sid (c :: cs) = phone_frame sid c ++ frames_of sid cs.
Proof. done. Qed.

(** One accepted frame takes at least its header off the stream. *)
Lemma read_downstream_shrinks (r r' : reader) x :
  read_downstream r = (Ok x, r') -> (length (rd_bytes r') + 6 <= length (rd_bytes r))%nat.
Proof.
  destruct x as [[sid chunk] h]. intros (_ & _ & _ & -> & _)%read_downstream_Ok.
  unfold phone_frame. len.
Qed.

Lemma read_normal_loop_total (fuel : nat) (st : direct_state) (sid : Z) (r : reader) (log : wire_trace) :
  (length (rd_bytes r) < fuel)%nat -> is_Some (read_normal_loop fuel st sid r log).
Proof.
  revert st r log. induction fuel as [|fuel IH]; intros st r log Hf; [lia|]. simpl.
  destruct (read_downstream r) as [[[[s c] h]|e] r'] eqn:E; [|done].
  apply read_downstream_shrinks in E. case_test; [done|].
  destruct (direct_push st c) as [[[b|]|e] st']; [done| |done]. apply IH. lia.
Qed.

(** The loop over a run of well-formed frames is the fold of [direct_push]. *)
Lemma read_normal_loop_frames (cs : list (list byte)) (fuel : nat) (st : direct_state) (sid : Z)
    (rest : list byte) (e : string) (log : wire_trace) (body : list byte) (left : list (list byte)) :
  is_u32 sid -> Forall (fun c => zlen c <= MAX_DOWNSTREAM_CHUNK) cs ->
  (length (frames_of sid cs ++ rest) < fuel)%nat ->
  ra_feed st cs = (Done body, left) ->
  exists log', read_normal_loop fuel st sid (Reader (frames_of sid cs ++ rest) e) log =
    Some (Ok body, Reader (frames_of sid left ++ rest) e, log').
Proof.
  intros Hsid. revert fuel st log.
  induction cs as [|c cs IH]; intros fuel st log Hcs Hf; [done|].
  apply Forall_cons in Hcs as [Hc Hcs].
  rewrite frames_of_cons, <- app_assoc in *.
  destruct fuel as [|fuel]; [lia|]. cbn [read_normal_loop ra_feed ra_push direct_reassembler].
  rewrite read_downstream_frame by done. rewrite Z.eqb_refl. simpl negb. cbv iota.
  destruct (direct_push st c) as [[[b|]|er] st'].
  - intros [= -> ->]. eauto.
  - intros Hfeed. eapply IH; [done| |done]. unfold phone_frame in Hf. len.
  - done.
Qed.

Lemma read_normal_loop_sound (fuel : nat) (st : direct_state) (sid : Z) (r r' : reader)
    (log log' : wire_trace) (body : list byte) :
  read_normal_loop fuel st sid r log = Some (Ok body, r', log') ->
  exists cs, rd_bytes r = frames_of sid cs ++ rd_bytes r' /\ rd_end r' = rd_end r /\
    Forall (fun c => zlen c <= MAX_DOWNSTREAM_CHUNK) cs /\ ra_feed st cs = (Done body, []).
Proof.
  revert st r log. induction fuel as [|fuel IH]; intros st r log; simpl; [done|].
  destruct (read_downstream r) as [[[[s c] h]|e] r1] eqn:E; [|done].
  apply read_downstream_Ok in E as (_ & Hc & _ & Hr & He).
  destruct (Z.eqb_spec s sid) as [->|]; simpl negb; cbv iota; [|done].
  destruct (direct_push st c) as [[[b|]|er] st'] eqn:Ep; [| |done].
  - intros [= -> -> _]. exists [c]. unfold frames_of. simpl. rewrite app_nil_r, Ep. split_and!; try done. by constructor.
  - intros (cs & Hr1 & He1 & Hcs & Hf)%IH. exists (c :: cs). rewrite frames_of_cons. simpl.
    rewrite Hr, Hr1, Ep, <- He, <- He1. rewrite app_assoc. split_and!; try done. by constructor.
Qed.

(** ** One message on the stream *)

(** The stream starts with frames of the session whose chunks are a cut of the body with
    its 8-byte length. *)
Definition says (sid : Z) (bs : list byte) (body bs' : list byte) : Prop :=
  exists cs, bs = frames_of sid cs ++ bs' /\ Forall (fun c => zlen c <= MAX_DOWNSTREAM_CHUNK) cs /\
             concat cs = prefixed body /\ zlen body <= MAX_HANDSHAKE_RESPONSE.

Lemma read_normal_direct_total (sid : Z) (r : reader) (log : wire_trace) : is_Some (read_normal_direct sid r log).
Proof. apply read_normal_loop_total. lia. Qed.

Lemma read_normal_direct_sound (sid : Z) (r r' : reader) (log log' : wire_trace) (body : list byte) :
  read_normal_direct sid r log = Some (Ok body, r', log') -> says sid (rd_bytes r) body (rd_bytes r') /\ rd_end r' = rd_end r.
Proof.
  intros (cs & Hr & He & Hcs & Hf)%read_normal_loop_sound. split; [|done].
  destruct (ra_feed_sound (St := direct_state) cs [] body) as (used & Hu & Hc & Hl); [by apply Forall_forall|done|].
  rewrite app_nil_r in Hu. subst used. by exists cs.
Qed.

Lemma read_normal_direct_complete (sid : Z) (bs body bs' : list byte) (e : string) (log : wire_trace) :
  is_u32 sid -> says sid bs body bs' ->
  exists left log', concat left = [] /\
    read_normal_direct sid (Reader bs e) log = Some (Ok body, Reader (frames_of sid left ++ bs') e, log').
Proof.
  intros Hsid (cs & -> & Hcs & Hc & Hl).
  destruct (ra_feed_complete (St := direct_state) cs body) as (left & Hf & Hn); [by apply Forall_forall|done..|].
  destruct (read_normal_loop_frames cs (S (length (frames_of sid cs ++ bs'))) direct_init sid bs' e
              log body left) as (log' & Hlog); [done|done|lia|done|].
  by exists left, log'.
Qed.

(** ** Properties *)

(** C3: [read_normal_direct] always terminates with an answer, and it returns a
    body exactly when the stream starts with frames of the expected session whose
    chunks are a cut of that body with its 8-byte length, the body being within
    the 16 MiB cap; the stream is left right after the last frame used. *)
Theorem read_normal_direct_correct (sid : Z) (r : reader) (log : wire_trace) :
  is_u32 sid ->
  is_Some (read_normal_direct sid r log) /\
  (forall body r' log',
     read_normal_direct sid r log = Some (Ok body, r', log') ->
     exists cs, rd_bytes r = frames_of sid cs ++ rd_bytes r' /\
                concat cs = prefixed body /\ zlen body <= MAX_HANDSHAKE_RESPONSE) /\
  (forall cs body rest,
     rd_bytes r = frames_of sid cs ++ rest -> Forall (fun c => zlen c <= MAX_DOWNSTREAM_CHUNK) cs ->
     concat cs = prefixed body -> zlen body <= MAX_HANDSHAKE_RESPONSE ->
     exists left log', concat left = [] /\
       read_normal_direct sid r log = Some (Ok body, Reader (frames_of sid left ++ rest) (rd_end r), log')).
Proof.
  intros Hsid. split; [apply read_normal_direct_total|]. split.
  - intros body r' log' [(cs & Hr & _ & Hc & Hl) _]%read_normal_direct_sound. eauto.
  - intros cs body rest Hr Hcs Hc Hl. destruct r as [bs e]. simpl in *.
    apply read_normal_direct_complete; [done|]. by exists cs.
Qed.

Lemma read_normal_direct_correct_witness :
  exists left log', concat left = [] /\
    read_normal_direct 7 (Reader (frames_of 7 [[x00; x00; x00]; [x00; x00; x00; x00; x02; x6f]; [x6b]] ++ [xff]) "eof") []
      = Some (Ok [x6f; x6b], Reader (frames_of 7 left ++ [xff]) "eof", log').
Proof.
  assert (is_u32 7) as H7 by (unfold is_u32; lia).
  destruct (read_normal_direct_correct 7
    (Reader (frames_of 7 [[x00; x00; x00]; [x00; x00; x00; x00; x02; x6f]; [x6b]] ++ [xff]) "eof") [] H7)
    as (_ & _ & H3).
  apply (H3 [[x00; x00; x00]; [x00; x00; x00; x00; x02; x6f]; [x6b]] [x6f; x6b] [xff]).
  - reflexivity.
  - repeat constructor; unfold MAX_DOWNSTREAM_CHUNK; simpl; lia.
  - reflexivity.
  - unfold MAX_HANDSHAKE_RESPONSE; simpl; lia.
Defined.
