(* ===== verification/Proto.v ===== *)
(** * Protocol messages

    The proto2 messages of proto/smartsync.proto as prost generates them: an
    optional field is an [option], a repeated field a [list], an enumeration field
    the raw [i32].  Encoding and decoding are prost's: the class [ProtoCodec]
    names the functions the code calls. *)

From Stdlib Require Import Strings.String.
From S2P Require Import Prelude Errors Domain Handshake.

Record SspFile := mkSspFile {
  f_path : option string;
  f_file_size : option Z;
  f_created_timestamp : option Z;
  f_modified_timestamp : option Z;
  f_is_directory : option bool;
  f_checksum : option string;
  f_file_type : option Z;
  f_prefix_md5 : option string;
  f_ext_data : option string;
  f_is_trash : option bool;
  f_succeed : option bool;
  f_error_code : option Z;
  f_id : option Z
}.

Record SspImageFile := mkSspImageFile {
  if_path : option string;
  if_file_size : option Z;
  if_created_timestamp : option Z;
  if_modified_timestamp : option Z;
  if_width : option Z;
  if_height : option Z;
  if_orientation : option Z;
  if_media_id : option Z;
  if_album_id : option Z;
  if_mime_type : option string;
  if_thumbnail : option (list byte);
  if_album_name : option string;
  if_date_taken : option Z;
  if_latitude : option string;
  if_longitude : option string;
  if_mini_thumb_magic : option string;
  if_title : option string;
  if_get_thumbnail_error : option bool;
  if_starred : option bool
}.

Record SspVideoFile := mkSspVideoFile {
  vf_path : option string;
  vf_file_size : option Z;
  vf_created_timestamp : option Z;
  vf_modified_timestamp : option Z;
  vf_width : option Z;
  vf_height : option Z;
  vf_orientation : option Z;
  vf_media_id : option Z;
  vf_album_id : option Z;
  vf_mime_type : option string;
  vf_thumbnail : option (list byte);
  vf_get_thumbnail_error : option bool;
  vf_duration : option f64
}.

Record SspAudioFile := mkSspAudioFile {
  af_path : option string;
  af_file_size : option Z;
  af_created_timestamp : option Z;
  af_modified_timestamp : option Z;
  af_media_id : option Z;
  af_album_id : option Z;
  af_title : option string;
  af_mime_type : option string;
  af_artist_id : option Z;
  af_artist : option string;
  af_composer : option string;
  af_genre : option Z;
  af_comment : option string;
  af_copyright : option string;
  af_audio_codec : option string;
  af_track : option Z;
  af_duration : option f64;
  af_start_offset : option f64;
  af_year : option Z;
  af_bitrate : option Z;
  af_sample_rate : option f64;
  af_play_count : option Z;
  af_rating : option f64;
  af_total_frames : option Z;
  af_bitspersample : option Z;
  af_channels : option Z;
  af_genre_name : option string
}.

Record SspAudioAlbum := mkSspAudioAlbum {
  ab_album_path : option string;
  ab_album_id : option Z;
  ab_album_name : option string;
  ab_artist_id : option Z;
  ab_artist : option string;
  ab_year : option Z;
  ab_thumbnail : option (list byte);
  ab_get_thumbnail_error : option bool
}.

Record SspRequest := mkSspRequest {
  rq_type : option Z
}.

Record SspHandShakeRequest01 := mkSspHandShakeRequest01 {
  h1q_type : option Z;
  h1q_host_uuid : option string;
  h1q_host_name : option string;
  h1q_host_timestamp : option Z;
  h1q_host_smart_sync_protocol_version : option string;
  h1q_host_app_version : option string;
  h1q_host_min_client_version : option string;
  h1q_md5 : option (list byte);
  h1q_enckey : option (list byte);
  h1q_host_model : option string;
  h1q_heartbeat_timeout_second : option Z
}.

Record SspHandShakeResponse01 := mkSspHandShakeResponse01 {
  h1r_type : option Z;
  h1r_apk_version : option string;
  h1r_apk_version_name : option string;
  h1r_client_timestamp : option Z;
  h1r_client_smart_sync_protocol_version : option string;
  h1r_client_min_host_version : option string;
  h1r_device_uuid : option string;
  h1r_device_name : option string;
  h1r_usb_serial : option string;
  h1r_is_smartisan_device : option bool;
  h1r_client_min_host_version_code : option Z
}.

Record SspHandShakeRequest02 := mkSspHandShakeRequest02 {
  h2q_type : option Z;
  h2q_host_uuid : option string;
  h2q_derived_key : option (list byte);
  h2q_trust_type : option Z
}.

Record SspHandShakeResponse02 := mkSspHandShakeResponse02 {
  h2r_type : option Z;
  h2r_trust_type : option Z;
  h2r_device_uuid : option string;
  h2r_device_name : option string;
  h2r_derived_key : option (list byte);
  h2r_result : option string
}.

Record SspHeartBeatRequest := mkSspHeartBeatRequest {
  hbq_type : option Z;
  hbq_host_timestamp : option Z
}.

Record SspQuitRequest := mkSspQuitRequest {
  qq_type : option Z
}.

Record SspGetDeviceInfoResponse := mkSspGetDeviceInfoResponse {
  dir_type : option Z;
  dir_host_timestamp : option Z;
  dir_host_smart_sync_protocol_version : option string;
  dir_apk_version : option string;
  dir_client_timestamp : option Z;
  dir_client_smart_sync_protocol_version : option string;
  dir_host_app_version : option string;
  dir_host_min_client_version : option string;
  dir_phone_model : option string;
  dir_phone_color : option string;
  dir_disk_size : option Z;
  dir_ram_size : option Z;
  dir_battery_capacity : option f64;
  dir_battery_percentage : option Z;
  dir_phone_name : option string;
  dir_used_disk_size : option Z;
  dir_root_path : option string;
  dir_product_brand : option string;
  dir_product_manufacturer : option string;
  dir_smartisan_version : option string;
  dir_phone_locked : option bool;
  dir_client_min_host_version : option string;
  dir_apk_version_name : option string;
  dir_external_storage_path : option string;
  dir_external_storage_permission : option Z;
  dir_ext_disk_size : option Z;
  dir_ext_used_disk_size : option Z;
  dir_phone_id : option string;
  dir_audio_size : option Z;
  dir_pic_video_size : option Z;
  dir_download_size : option Z;
  dir_other_size : option Z;
  dir_app_size : option Z;
  dir_cache_size : option Z;
  dir_debug_build_time : option string;
  dir_client_min_host_version_code : option Z
}.

Record SspFileEvent := mkSspFileEvent {
  fev_file : option SspFile;
  fev_event : option Z
}.

Record SspMonitorFolderResponse := mkSspMonitorFolderResponse {
  mfr_type : option Z;
  mfr_event : list SspFileEvent
}.

Record SspPhotoLibraryChange := mkSspPhotoLibraryChange {
  plc_type : option Z;
  plc_added_image : list SspImageFile;
  plc_deleted_image : list SspImageFile
}.

Record SspVideoLibraryChange := mkSspVideoLibraryChange {
  vlc_type : option Z;
  vlc_added_video : list SspVideoFile;
  vlc_deleted_video : list SspVideoFile;
  vlc_updated_video : list SspVideoFile
}.

Record SspAudioLibraryChange := mkSspAudioLibraryChange {
  alc_type : option Z;
  alc_added_audio : list SspAudioFile;
  alc_deleted_audio : list SspAudioFile;
  alc_added_album : list SspAudioAlbum
}.

Record SspClipboard := mkSspClipboard {
  cb_content : option (list byte);
  cb_mstimestamp : option Z
}.

Record SspClipboardChange := mkSspClipboardChange {
  cbc_type : option Z;
  cbc_clipboard : list SspClipboard
}.

Record SspCancelRequest := mkSspCancelRequest {
  cq_type : option Z;
  cq_session_id : option Z;
  cq_error_code : option Z
}.

Record SspPhotoSyncResponse := mkSspPhotoSyncResponse {
  psr_type : option Z;
  psr_is_first : option bool;
  psr_files : list SspFile;
  psr_is_success : option bool
}.

Record SspFileChangeItem := mkSspFileChangeItem {
  fci_file : option SspFile;
  fci_status : option Z
}.

Record SspFileChange := mkSspFileChange {
  fch_type : option Z;
  fch_file_change_items : list SspFileChangeItem
}.

Record SspSyncMonitorResponse := mkSspSyncMonitorResponse {
  smr_type : option Z;
  smr_is_success : option bool
}.

(** ** Enumerations

    [T::try_from(i32)] of the generated enumerations. *)
Inductive SspRequestType :=
  | RtHeartBeatRequest
  | RtGetDeviceInfoRequest
  | RtGetThumbnailRequest
  | RtGetPhotoLibRequest
  | RtGetVideoLibRequest
  | RtGetAudioLibRequest
  | RtGetDirFilesRequest
  | RtGetFileCountRequest
  | RtGetFileExistRequest
  | RtGetCreateFolderRequest
  | RtGetRenameFileRequest
  | RtGetDownloadFileRequest
  | RtGetDownloadFileResponseHeader
  | RtGetDownloadFileResponseBody
  | RtGetUploadFileRequestHeader
  | RtGetUploadFileResponseHeader
  | RtGetUploadFileRequestBody
  | RtGetUploadFileResponse
  | RtGetDeleteFileRequest
  | RtPhotoLibChange
  | RtAudioLibChange
  | RtVideoLibChange
  | RtMonitorFolderRequest
  | RtMonitorFolderResponseHeader
  | RtMonitorFolderResponse
  | RtGetClipboardRequest
  | RtPostClipboardRequest
  | RtClearClipboardRequest
  | RtDeleteClipboardRequest
  | RtClipboardChange
  | RtHandshakeRequest01
  | RtHandshakeResponse01
  | RtHandshakeRequest02
  | RtHandshakeResponse02
  | RtQuitRequest
  | RtCancelRequest
  | RtPhotoSyncRequest
  | RtFileChange
  | RtSyncMonitorRequest
  | RtUpdateFileInfo
  | RtUpdateFileInfoResponse.

Definition request_type_try_from (n : Z) : option SspRequestType :=
  match n with
  | 1 => Some RtHeartBeatRequest
  | 2 => Some RtGetDeviceInfoRequest
  | 3 => Some RtGetThumbnailRequest
  | 4 => Some RtGetPhotoLibRequest
  | 5 => Some RtGetVideoLibRequest
  | 6 => Some RtGetAudioLibRequest
  | 7 => Some RtGetDirFilesRequest
  | 8 => Some RtGetFileCountRequest
  | 9 => Some RtGetFileExistRequest
  | 10 => Some RtGetCreateFolderRequest
  | 11 => Some RtGetRenameFileRequest
  | 12 => Some RtGetDownloadFileRequest
  | 13 => Some RtGetDownloadFileResponseHeader
  | 14 => Some RtGetDownloadFileResponseBody
  | 15 => Some RtGetUploadFileRequestHeader
  | 16 => Some RtGetUploadFileResponseHeader
  | 17 => Some RtGetUploadFileRequestBody
  | 18 => Some RtGetUploadFileResponse
  | 19 => Some RtGetDeleteFileRequest
  | 20 => Some RtPhotoLibChange
  | 21 => Some RtAudioLibChange
  | 22 => Some RtVideoLibChange
  | 23 => Some RtMonitorFolderRequest
  | 24 => Some RtMonitorFolderResponseHeader
  | 25 => Some RtMonitorFolderResponse
  | 26 => Some RtGetClipboardRequest
  | 27 => Some RtPostClipboardRequest
  | 28 => Some RtClearClipboardRequest
  | 29 => Some RtDeleteClipboardRequest
  | 30 => Some RtClipboardChange
  | 31 => Some RtHandshakeRequest01
  | 32 => Some RtHandshakeResponse01
  | 33 => Some RtHandshakeRequest02
  | 34 => Some RtHandshakeResponse02
  | 35 => Some RtQuitRequest
  | 36 => Some RtCancelRequest
  | 37 => Some RtPhotoSyncRequest
  | 38 => Some RtFileChange
  | 39 => Some RtSyncMonitorRequest
  | 40 => Some RtUpdateFileInfo
  | 41 => Some RtUpdateFileInfoResponse
  | _ => None
  end.

Definition request_type_value (t : SspRequestType) : Z :=
  match t with
  | RtHeartBeatRequest => 1
  | RtGetDeviceInfoRequest => 2
  | RtGetThumbnailRequest => 3
  | RtGetPhotoLibRequest => 4
  | RtGetVideoLibRequest => 5
  | RtGetAudioLibRequest => 6
  | RtGetDirFilesRequest => 7
  | RtGetFileCountRequest => 8
  | RtGetFileExistRequest => 9
  | RtGetCreateFolderRequest => 10
  | RtGetRenameFileRequest => 11
  | RtGetDownloadFileRequest => 12
  | RtGetDownloadFileResponseHeader => 13
  | RtGetDownloadFileResponseBody => 14
  | RtGetUploadFileRequestHeader => 15
  | RtGetUploadFileResponseHeader => 16
  | RtGetUploadFileRequestBody => 17
  | RtGetUploadFileResponse => 18
  | RtGetDeleteFileRequest => 19
  | RtPhotoLibChange => 20
  | RtAudioLibChange => 21
  | RtVideoLibChange => 22
  | RtMonitorFolderRequest => 23
  | RtMonitorFolderResponseHeader => 24
  | RtMonitorFolderResponse => 25
  | RtGetClipboardRequest => 26
  | RtPostClipboardRequest => 27
  | RtClearClipboardRequest => 28
  | RtDeleteClipboardRequest => 29
  | RtClipboardChange => 30
  | RtHandshakeRequest01 => 31
  | RtHandshakeResponse01 => 32
  | RtHandshakeRequest02 => 33
  | RtHandshakeResponse02 => 34
  | RtQuitRequest => 35
  | RtCancelRequest => 36
  | RtPhotoSyncRequest => 37
  | RtFileChange => 38
  | RtSyncMonitorRequest => 39
  | RtUpdateFileInfo => 40
  | RtUpdateFileInfoResponse => 41
  end.

Inductive SspHandShakeTrustType :=
  | TrustWaiting | TrustUnknow | TrustNo | TrustOnce | TrustAlways | TrustRemove.

#[export] Instance SspHandShakeTrustType_eq_dec : EqDecision SspHandShakeTrustType.
Proof. solve_decision. Defined.

Definition trust_type_try_from (n : Z) : option SspHandShakeTrustType :=
  match n with
  | 1 => Some TrustWaiting
  | 2 => Some TrustUnknow
  | 3 => Some TrustNo
  | 4 => Some TrustOnce
  | 5 => Some TrustAlways
  | 6 => Some TrustRemove
  | _ => None
  end.

Inductive SspFileEventType :=
  | FileEventCreate | FileEventDelete | FileEventCloseWrite | FileEventMovedFrom
  | FileEventMovedTo | FileEventDeleteSelf | FileEventMoveSelf | FileEventDirChanged.

Definition file_event_type_try_from (n : Z) : option SspFileEventType :=
  match n with
  | 1 => Some FileEventCreate
  | 2 => Some FileEventDelete
  | 3 => Some FileEventCloseWrite
  | 4 => Some FileEventMovedFrom
  | 5 => Some FileEventMovedTo
  | 6 => Some FileEventDeleteSelf
  | 7 => Some FileEventMoveSelf
  | 8 => Some FileEventDirChanged
  | _ => None
  end.

Inductive SspFileChangeStatus :=
  | CsNone | CsAdded | CsDeleted | CsModified | CsInfoModified | CsFileAndInfoModified.

Definition file_change_status_try_from (n : Z) : option SspFileChangeStatus :=
  match n with
  | 0 => Some CsNone
  | 1 => Some CsAdded
  | 2 => Some CsDeleted
  | 3 => Some CsModified
  | 4 => Some CsInfoModified
  | 5 => Some CsFileAndInfoModified
  | _ => None
  end.

(** ** The codec

    prost's [Message::decode] and [Message::encode_to_vec], and flate2's gzip
    decoder followed by [read_to_string]. *)
Class ProtoCodec := {
  decode_SspRequest : list byte -> option SspRequest;
  decode_SspGetDeviceInfoResponse : list byte -> option SspGetDeviceInfoResponse;
  decode_SspPhotoLibraryChange : list byte -> option SspPhotoLibraryChange;
  decode_SspVideoLibraryChange : list byte -> option SspVideoLibraryChange;
  decode_SspAudioLibraryChange : list byte -> option SspAudioLibraryChange;
  decode_SspMonitorFolderResponse : list byte -> option SspMonitorFolderResponse;
  decode_SspClipboardChange : list byte -> option SspClipboardChange;
  decode_SspPhotoSyncResponse : list byte -> option SspPhotoSyncResponse;
  decode_SspFileChange : list byte -> option SspFileChange;
  decode_SspSyncMonitorResponse : list byte -> option SspSyncMonitorResponse;
  decode_SspCancelRequest : list byte -> option SspCancelRequest;
  decode_SspHandShakeResponse01 : list byte -> result string SspHandShakeResponse01;
  decode_SspHandShakeResponse02 : list byte -> result string SspHandShakeResponse02;
  encode_SspHandShakeRequest01 : SspHandShakeRequest01 -> list byte;
  encode_SspHandShakeRequest02 : SspHandShakeRequest02 -> list byte;
  encode_SspHeartBeatRequest : SspHeartBeatRequest -> list byte;
  encode_SspQuitRequest : SspQuitRequest -> list byte;
  gunzip_to_string : list byte -> option string
}.

(** ** Concrete parameters

    Small concrete instances of the third-party interfaces, used where a theorem is applied to concrete
    input: keys are byte strings and encryption is the identity; a message is a type byte followed by its
    fields, one byte each. *)

Definition toy_crypto : Crypto := {|
  rsa_private := list byte;
  rsa_public_der := fun k => Ok k;
  rsa_sign_sha256 := fun k d => Ok (k ++ d);
  rsa_decrypt_pkcs1 := fun _ bs => Ok bs;
  sha256 := fun bs => take 32 bs;
  md5 := fun bs => be_bytes 16 (be_val bs);
  b64_encode := fun bs => bs;
  b64_decode := fun bs => Ok bs;
  aes256_cbc_pkcs7 := fun _ _ bs => bs
|}.

Definition toy_cancel (bs : list byte) : option SspCancelRequest :=
  match byte_to_Z <$> bs with
  | [36; sid] => Some (mkSspCancelRequest (Some 36) (Some sid) None)
  | [36; sid; code] => Some (mkSspCancelRequest (Some 36) (Some sid) (Some code))
  | _ => None
  end.

Definition toy_codec : ProtoCodec := {|
  decode_SspRequest := fun bs => Some (mkSspRequest (byte_to_Z <$> head bs));
  decode_SspGetDeviceInfoResponse := fun _ => None;
  decode_SspPhotoLibraryChange := fun _ => None;
  decode_SspVideoLibraryChange := fun _ => None;
  decode_SspAudioLibraryChange := fun _ => None;
  decode_SspMonitorFolderResponse := fun _ => None;
  decode_SspClipboardChange := fun _ => None;
  decode_SspPhotoSyncResponse := fun bs =>
    match byte_to_Z <$> bs with
    | [t; ok] => Some (mkSspPhotoSyncResponse (Some t) None [] (Some (ok =? 1)))
    | _ => None
    end;
  decode_SspFileChange := fun _ => None;
  decode_SspSyncMonitorResponse := fun bs =>
    match byte_to_Z <$> bs with
    | [t; ok; _] => Some (mkSspSyncMonitorResponse (Some t) (Some (ok =? 1)))
    | _ => None
    end;
  decode_SspCancelRequest := toy_cancel;
  decode_SspHandShakeResponse01 := fun bs =>
    Ok (mkSspHandShakeResponse01 None None None None None None (Some (string_of_list_byte bs)) None None None None);
  decode_SspHandShakeResponse02 := fun bs =>
    match bs with
    | [t; trust] => Ok (mkSspHandShakeResponse02 (Some (byte_to_Z t)) (Some (byte_to_Z trust)) None None None None)
    | x00 :: k => Ok (mkSspHandShakeResponse02 None None None None (Some k) None)
    | _ => Ok (mkSspHandShakeResponse02 None None None None None (Some (string_of_list_byte bs)))
    end;
  encode_SspHandShakeRequest01 := fun _ => [x02];
  encode_SspHandShakeRequest02 := fun _ => [x04];
  encode_SspHeartBeatRequest := fun _ => [x01];
  encode_SspQuitRequest := fun _ => [x23];
  gunzip_to_string := fun bs => Some (string_of_list_byte bs)
|}.
