(* ===== verification/EventDecode.v ===== *)
(** * Decoding phone-initiated messages

    crates/handshaker-core/src/event_decode.rs: a message that answers no pending
    request is decoded into a [ClientEvent], by its declared type or, when the
    type is missing or not one of a push, by its shape. *)

From S2P Require Import Prelude Errors Domain Proto.

Definition remote_file (file : SspFile) : RemoteFile := {|
  rf_path := default ""%string (f_path file);
  rf_size := default 0 (f_file_size file);
  rf_created_at := f_created_timestamp file;
  rf_modified_at := f_modified_timestamp file;
  rf_is_directory := default false (f_is_directory file);
  rf_checksum := f_checksum file;
  rf_is_trash := f_is_trash file;
  rf_id := f_id file;
  rf_ext_data := f_ext_data file
|}.

Definition file_event_kind (value : SspFileEventType) : FileEventKind :=
  match value with
  | FileEventCreate => FeCreate
  | FileEventDelete => FeDelete
  | FileEventCloseWrite => FeCloseWrite
  | FileEventMovedFrom => FeMovedFrom
  | FileEventMovedTo => FeMovedTo
  | FileEventDeleteSelf => FeDeleteSelf
  | FileEventMoveSelf => FeMoveSelf
  | FileEventDirChanged => FeDirectoryChanged
  end.

Definition file_change_status (value : SspFileChangeStatus) : FileChangeStatus :=
  match value with
  | CsNone => FcNone
  | CsAdded => FcAdded
  | CsDeleted => FcDeleted
  | CsModified => FcModified
  | CsInfoModified => FcInfoModified
  | CsFileAndInfoModified => FcFileAndInfoModified
  end.

Definition photo_item (item : SspImageFile) : MediaItem := {|
  mi_media_id := if_media_id item;
  mi_album_id := if_album_id item;
  mi_path := if_path item;
  mi_size := if_file_size item;
  mi_created_at := if_created_timestamp item;
  mi_modified_at := if_modified_timestamp item;
  mi_width := if_width item;
  mi_height := if_height item;
  mi_orientation := if_orientation item;
  mi_mime_type := if_mime_type item;
  mi_title := if_title item;
  mi_album_name := if_album_name item;
  mi_duration := None;
  mi_artist := None
|}.

Definition video_item (item : SspVideoFile) : MediaItem := {|
  mi_media_id := vf_media_id item;
  mi_album_id := vf_album_id item;
  mi_path := vf_path item;
  mi_size := vf_file_size item;
  mi_created_at := vf_created_timestamp item;
  mi_modified_at := vf_modified_timestamp item;
  mi_width := vf_width item;
  mi_height := vf_height item;
  mi_orientation := vf_orientation item;
  mi_mime_type := vf_mime_type item;
  mi_title := None;
  mi_album_name := None;
  mi_duration := vf_duration item;
  mi_artist := None
|}.

Definition audio_item (item : SspAudioFile) : MediaItem := {|
  mi_media_id := af_media_id item;
  mi_album_id := af_album_id item;
  mi_path := af_path item;
  mi_size := af_file_size item;
  mi_created_at := af_created_timestamp item;
  mi_modified_at := af_modified_timestamp item;
  mi_width := None;
  mi_height := None;
  mi_orientation := None;
  mi_mime_type := af_mime_type item;
  mi_title := af_title item;
  mi_album_name := None;
  mi_duration := f64_div_1000 <$> af_duration item;
  mi_artist := af_artist item
|}.

Definition audio_album (album : SspAudioAlbum) : MediaAlbum := {|
  ma_album_id := ab_album_id album;
  ma_path := ab_album_path album;
  ma_name := ab_album_name album;
  ma_artist := ab_artist album
|}.

Definition device_info (response : SspGetDeviceInfoResponse) (serial : string) : DeviceInfo := {|
  di_serial := serial;
  di_phone_id := dir_phone_id response;
  di_name := dir_phone_name response;
  di_model := dir_phone_model response;
  di_brand := dir_product_brand response;
  di_manufacturer := dir_product_manufacturer response;
  di_smartisan_version := dir_smartisan_version response;
  di_apk_version := dir_apk_version response;
  di_apk_version_name := None;
  di_root_path := default "/sdcard"%string (dir_root_path response);
  di_external_storage_path := dir_external_storage_path response;
  di_disk_size := dir_disk_size response;
  di_used_disk_size := dir_used_disk_size response;
  di_battery_percentage := dir_battery_percentage response;
  di_phone_locked := dir_phone_locked response
|}.

Definition photo_change (change : SspPhotoLibraryChange) : MediaLibraryChange := {|
  mc_kind := Photo;
  mc_added := photo_item <$> plc_added_image change;
  mc_deleted := photo_item <$> plc_deleted_image change;
  mc_updated := [];
  mc_albums := []
|}.

Definition video_change (change : SspVideoLibraryChange) : MediaLibraryChange := {|
  mc_kind := Video;
  mc_added := video_item <$> vlc_added_video change;
  mc_deleted := video_item <$> vlc_deleted_video change;
  mc_updated := video_item <$> vlc_updated_video change;
  mc_albums := []
|}.

Definition audio_change (change : SspAudioLibraryChange) : MediaLibraryChange := {|
  mc_kind := Audio;
  mc_added := audio_item <$> alc_added_audio change;
  mc_deleted := [];
  mc_updated := [];
  mc_albums := audio_album <$> alc_added_album change
|}.

Definition directory_change (change : SspMonitorFolderResponse) : list FileEvent :=
  (fun event => {|
     fe_file := remote_file <$> fev_file event;
     fe_kind := from_option file_event_kind FeUnknown (fev_event event ≫= file_event_type_try_from)
   |}) <$> mfr_event change.

Definition file_change (change : SspFileChange) : list FileChange :=
  (fun item => {|
     fc_file := remote_file <$> fci_file item;
     fc_status := from_option file_change_status FcUnknown (fci_status item ≫= file_change_status_try_from)
   |}) <$> fch_file_change_items change.

Definition photo_sync_change (change : SspPhotoSyncResponse) : PhotoSyncChange := {|
  psc_is_first := psr_is_first change;
  psc_files := remote_file <$> psr_files change;
  psc_is_success := psr_is_success change
|}.

Definition sync_monitor_change (change : SspSyncMonitorResponse) : SyncMonitorChange :=
  {| smc_is_success := smr_is_success change |}.

Section Decode.
Context `{ProtoCodec}.

Definition clipboard_change (change : SspClipboardChange) : option (list ClipboardEntry) :=
  mapM (fun clipboard =>
    text ← gunzip_to_string (default [] (cb_content clipboard));
    mret {| ce_text := text; ce_timestamp_ms := default 0 (cb_mstimestamp clipboard) |})
    (cbc_clipboard change).

Definition nonempty {A} (l : list A) : bool := match l with [] => false | _ => true end.
Definition is_some {A} (o : option A) : bool := match o with Some _ => true | None => false end.

(** The candidates, in the order the code pushes them. *)
Definition infer_candidates (body : list byte) (serial : string) : list ClientEvent :=
  match decode_SspGetDeviceInfoResponse body with
  | Some response =>
      if is_some (dir_phone_id response) || is_some (dir_phone_name response)
         || is_some (dir_phone_model response) || is_some (dir_root_path response)
      then [DeviceInfoChanged (device_info response serial)] else []
  | None => []
  end ++
  match decode_SspClipboardChange body with
  | Some change =>
      if nonempty (cbc_clipboard change)
      then match clipboard_change change with
           | Some entries => [ClipboardChanged entries]
           | None => []
           end
      else []
  | None => []
  end ++
  match decode_SspPhotoLibraryChange body with
  | Some change =>
      if nonempty (plc_added_image change) || nonempty (plc_deleted_image change)
      then [MediaLibraryChanged (photo_change change)] else []
  | None => []
  end ++
  match decode_SspVideoLibraryChange body with
  | Some change =>
      if nonempty (vlc_added_video change) || nonempty (vlc_deleted_video change)
         || nonempty (vlc_updated_video change)
      then [MediaLibraryChanged (video_change change)] else []
  | None => []
  end ++
  match decode_SspAudioLibraryChange body with
  | Some change =>
      if nonempty (alc_added_audio change) || nonempty (alc_deleted_audio change)
         || nonempty (alc_added_album change)
      then [MediaLibraryChanged (audio_change change)] else []
  | None => []
  end ++
  match decode_SspMonitorFolderResponse body with
  | Some change => if nonempty (mfr_event change) then [DirectoryChanged (directory_change change)] else []
  | None => []
  end ++
  match decode_SspFileChange body with
  | Some change => if nonempty (fch_file_change_items change) then [FileChanged (file_change change)] else []
  | None => []
  end ++
  match decode_SspPhotoSyncResponse body with
  | Some change =>
      if is_some (psr_is_first change) || is_some (psr_is_success change) || nonempty (psr_files change)
      then [PhotoSyncChanged (photo_sync_change change)] else []
  | None => []
  end ++
  match decode_SspSyncMonitorResponse body with
  | Some change =>
      if is_some (smr_is_success change) then [SyncMonitorChanged (sync_monitor_change change)] else []
  | None => []
  end.

Definition infer_event (body : list byte) (serial : string) : option ClientEvent :=
  match infer_candidates body serial with
  | [event] => Some event
  | _ => None
  end.

Definition decode_event (sid : Z) (body : list byte) (serial : string) : ClientEvent :=
  let request_type := decode_SspRequest body ≫= rq_type in
  let event :=
    match request_type ≫= request_type_try_from with
    | Some RtGetDeviceInfoRequest =>
        (fun r => DeviceInfoChanged (device_info r serial)) <$> decode_SspGetDeviceInfoResponse body
    | Some RtPhotoLibChange => (fun c => MediaLibraryChanged (photo_change c)) <$> decode_SspPhotoLibraryChange body
    | Some RtVideoLibChange => (fun c => MediaLibraryChanged (video_change c)) <$> decode_SspVideoLibraryChange body
    | Some RtAudioLibChange => (fun c => MediaLibraryChanged (audio_change c)) <$> decode_SspAudioLibraryChange body
    | Some RtMonitorFolderResponse => (fun c => DirectoryChanged (directory_change c)) <$> decode_SspMonitorFolderResponse body
    | Some RtClipboardChange =>
        c ← decode_SspClipboardChange body; ClipboardChanged <$> clipboard_change c
    | Some RtPhotoSyncRequest => (fun c => PhotoSyncChanged (photo_sync_change c)) <$> decode_SspPhotoSyncResponse body
    | Some RtFileChange => (fun c => FileChanged (file_change c)) <$> decode_SspFileChange body
    | Some RtSyncMonitorRequest => (fun c => SyncMonitorChanged (sync_monitor_change c)) <$> decode_SspSyncMonitorResponse body
    | Some RtCancelRequest => None
    | _ => infer_event body serial
    end in
  default (UnknownEv {|
    ue_sid := sid;
    ue_request_type := request_type;
    ue_payload_len := zlen body;
    ue_reason := match request_type with
                 | Some value => if is_some (request_type_try_from value) then DecodeFailed else UnknownRequestType
                 | None => MissingTypeAmbiguous
                 end
  |}) event.

Definition decode_cancel (body : list byte) : option SspCancelRequest :=
  match decode_SspCancelRequest body with
  | Some request =>
      if is_some (cq_session_id request)
         && bool_decide (cq_type request = Some (request_type_value RtCancelRequest))
      then Some request else None
  | None => None
  end.

End Decode.
