(* ===== verification/Session.v ===== *)
(** * The session

    crates/handshaker-core/src/session.rs: request/response multiplexing over one
    byte stream.  The reader task routes every chunk either to the pending request
    of its session id or to a bounded store of unmatched messages; requests put
    their response together again, and downloads stream raw bytes. *)

From stdpp Require Import gmap.
From S2P Require Import Prelude Errors Domain Frame Reassembly Handshake Proto EventDecode.

Definition PHASE_NORMAL : Z := 0.
Definition PHASE_DOWNLOAD_RAW : Z := 1.
Definition REQUEST_CHANNEL_CAPACITY : Z := 64.
Definition MAX_UNMATCHED_SIDS : Z := 64.
Definition MAX_UNMATCHED_BYTES : Z := 16 * 1024 * 1024.
(** [UNMATCHED_TTL], in milliseconds. *)
Definition UNMATCHED_TTL : Z := 30 * 1000.
Definition UNMATCHED_ENTRY_BYTES : Z := MAX_UNMATCHED_BYTES / MAX_UNMATCHED_SIDS.
Definition MAX_PUSH_MESSAGE : Z := 4 * 1024 * 1024.
Definition NORMAL_RESPONSE_LIMIT : Z := 64 * 1024 * 1024.

Inductive Incoming :=
  | IData (chunk : list byte)
  | IRemoteCancelled (info : CancellationInfo).

(** ** NormalAccumulator *)

Record NormalAccumulator := mkNormalAccumulator {
  na_bytes : list byte;
  na_total : option Z;
  na_last_seen : Z
}.

Definition accumulator_push (acc : NormalAccumulator) (chunk : list byte)
  : Res (option (list byte)) * NormalAccumulator :=
  let bytes := na_bytes acc ++ chunk in
  let acc := mkNormalAccumulator bytes (na_total acc) (na_last_seen acc) in
  if zlen bytes >? MAX_PUSH_MESSAGE + 8
  then (Err (EProtocol (Msg "session.event_length_too_large" [])), acc)
  else
    let announced : Res (option Z) :=
      match na_total acc with
      | Some total => Ok (Some total)
      | None =>
          if zlen bytes >=? 8 then
            let total := be_val (take 8 bytes) in
            if total >? MAX_PUSH_MESSAGE
            then Err (EProtocol (Msg "session.event_length_too_large" []))
            else match usize_try_from total with
                 | None => Err (EProtocol (Msg "session.event_length_too_large" []))
                 | Some total => Ok (Some total)
                 end
          else Ok None
      end in
    match announced with
    | Err e => (Err e, acc)
    | Ok total =>
        let acc := mkNormalAccumulator bytes total (na_last_seen acc) in
        match total with
        | None => (Ok None, acc)
        | Some total =>
            match checked_add_usize total 8 with
            | None => (Err (EProtocol (Msg "session.event_length_overflow" [])), acc)
            | Some expected =>
                if zlen bytes =? expected
                then (Ok (Some (drop 8 bytes)),
                      mkNormalAccumulator (take 8 bytes) (Some total) (na_last_seen acc))
                else if zlen bytes >? expected
                then (Err (EProtocol (Msg "session.event_too_long" [])), acc)
                else (Ok None, acc)
            end
        end
    end.

(** ** The response of a request *)

Record response_state := ResponseState { rs_assembled : list byte; rs_total : option Z }.
Definition response_init : response_state := ResponseState [] None.

(** The body of the loop of [receive_normal] once a chunk arrived. *)
Definition response_push (st : response_state) (chunk : list byte)
  : Res (option (list byte)) * response_state :=
  let assembled := rs_assembled st ++ chunk in
  let st := ResponseState assembled (rs_total st) in
  if (match rs_total st with None => true | Some _ => false end)
     && (zlen assembled >? 8 + MAX_DOWNSTREAM_CHUNK)
  then (Err (EProtocol (Msg "session.response_too_long" [])), st)
  else
    let total := match rs_total st with
                 | None => if zlen assembled >=? 8 then Some (be_val (take 8 assembled)) else None
                 | Some t => Some t
                 end in
    let st := ResponseState assembled total in
    match total with
    | None => (Ok None, st)
    | Some total =>
        match usize_try_from total with
        | None => (Err (EProtocol (Msg "session.response_length_too_large" [])), st)
        | Some total =>
            if total >? NORMAL_RESPONSE_LIMIT
            then (Err (EProtocol (Msg "session.response_cap_exceeded" [pretty (total / 1024 / 1024)])), st)
            else match checked_add_usize total 8 with
                 | None => (Err (EProtocol (Msg "session.response_length_overflow" [])), st)
                 | Some expected =>
                     if zlen assembled =? expected then (Ok (Some (drop 8 assembled)), st)
                     else if zlen assembled >? expected
                     then (Err (EProtocol (Msg "session.response_too_long" [])), st)
                     else (Ok None, st)
                 end
        end
    end.

(** ** DownloadDiscriminator *)

Record DownloadDiscriminator := mkDiscriminator { dd_candidate : list byte; dd_expected : option Z }.
Definition discriminator_default : DownloadDiscriminator := mkDiscriminator [] None.

Definition discriminator_push (d : DownloadDiscriminator) (chunk : list byte) (remaining : Z)
  : Res (option (list byte)) * DownloadDiscriminator :=
  let candidate := dd_candidate d ++ chunk in
  let take_candidate := (Ok (Some candidate), mkDiscriminator [] None) in
  let judge (expected : option Z) :=
    let d := mkDiscriminator candidate expected in
    match expected with
    | None => (Ok None, d)
    | Some expected =>
        if zlen candidate <? expected then (Ok None, d)
        else if zlen candidate >? expected then take_candidate
        else (Err (EProtocol (Msg "session.download_ambiguous" [])), d)
    end in
  match dd_expected d with
  | Some expected => judge (Some expected)
  | None =>
      if (zlen candidate <? 8) && (zlen candidate >=? remaining) then take_candidate
      else if zlen candidate >=? 8 then
        let declared := be_val (take 8 candidate) in
        match usize_try_from declared ≫= fun length => checked_add_usize length 8 with
        | Some expected =>
            if (expected <=? remaining) && ((8 <=? expected) && (expected <=? MAX_PUSH_MESSAGE + 8))
            then judge (Some expected)
            else take_candidate
        | None => take_candidate
        end
      else judge None
  end.

(** ** Session state

    [si_pending] is the set of session ids with a live request (the map of request
    channels), [si_delivered] what the reader sent into those channels, [si_events]
    the events published while the event bus is open ([None] once it is taken), and
    [si_sent] the frames the writer task put on the wire. *)
Record SessionInner := mkSession {
  si_pending : gset Z;
  si_next_sid : Z;
  si_closed : bool;
  si_events : option (list ClientEvent);
  si_sent : list (Z * Z * list byte);
  si_delivered : list (Z * Incoming)
}.

Definition session_init : SessionInner := mkSession ∅ 0x80001000 false (Some []) [] [].

Definition set_pending (p : gset Z) (s : SessionInner) : SessionInner :=
  mkSession p (si_next_sid s) (si_closed s) (si_events s) (si_sent s) (si_delivered s).
Definition set_next_sid (n : Z) (s : SessionInner) : SessionInner :=
  mkSession (si_pending s) n (si_closed s) (si_events s) (si_sent s) (si_delivered s).
Definition set_closed (b : bool) (s : SessionInner) : SessionInner :=
  mkSession (si_pending s) (si_next_sid s) b (si_events s) (si_sent s) (si_delivered s).
Definition push_sent (f : Z * Z * list byte) (s : SessionInner) : SessionInner :=
  mkSession (si_pending s) (si_next_sid s) (si_closed s) (si_events s) (si_sent s ++ [f]) (si_delivered s).
Definition push_delivered (d : Z * Incoming) (s : SessionInner) : SessionInner :=
  mkSession (si_pending s) (si_next_sid s) (si_closed s) (si_events s) (si_sent s) (si_delivered s ++ [d]).

Definition fail_connection (s : SessionInner) : SessionInner :=
  mkSession ∅ (si_next_sid s) true None (si_sent s) (si_delivered s).

Definition publish_event (e : ClientEvent) (s : SessionInner) : SessionInner :=
  mkSession (si_pending s) (si_next_sid s) (si_closed s) ((fun es => es ++ [e]) <$> si_events s)
    (si_sent s) (si_delivered s).

Definition next_sid (s : SessionInner) : Z * SessionInner :=
  let sid := wrap32 (si_next_sid s + 1) in (sid, set_next_sid sid s).

(** The awaits of a call: the other tasks of the session run while it waits for the
    lock of the pending requests or for the writer task. *)
Inductive await_point :=
  | AtSidLock (tries : nat)
  | AtInsertLock
  | AtRemoveLock
  | AtWriter.

(** What happens to a frame handed to the writer task. *)
Inductive send_outcome :=
  | Sent
  | WriterClosed
  | WriterNoResult
  | WriteFailed (e : Error)
  | SendTimeout.

(** What a call meets: how its frame fares, and what the other tasks do to the session
    at each of its awaits. *)
Record send_answer := mkSendAnswer {
  sa_outcome : send_outcome;
  sa_meanwhile : await_point -> SessionInner -> SessionInner
}.

(** Nobody interferes. *)
Definition promptly (o : send_outcome) : send_answer := mkSendAnswer o (fun _ s => s).
Coercion promptly : send_outcome >-> send_answer.

(** [allocate_sid]: an id is drawn, then the lock is awaited, then the id looked up. *)
Fixpoint allocate_sid_loop (answer : send_answer) (tries : nat) (s : SessionInner) : Res Z * SessionInner :=
  match tries with
  | O => (Err (EProtocol (Msg "session.sid_exhausted" [])), s)
  | S tries =>
      let (sid, s) := next_sid s in
      let s := sa_meanwhile answer (AtSidLock tries) s in
      if bool_decide (sid ∈ si_pending s) then allocate_sid_loop answer tries s else (Ok sid, s)
  end.

Definition allocate_sid (answer : send_answer) (s : SessionInner) : Res Z * SessionInner :=
  allocate_sid_loop answer 1024 s.

Definition send (answer : send_answer) (sid flag : Z) (payload : list byte) (s : SessionInner)
  : Res unit * SessionInner :=
  let s := sa_meanwhile answer AtWriter s in
  match sa_outcome answer with
  | WriterClosed => (Err (ETransport (Msg "session.writer_closed" [])), fail_connection s)
  | WriterNoResult => (Err (ETransport (Msg "session.writer_no_result" [])), fail_connection s)
  | SendTimeout =>
      (Err (ETimeout (Msg "session.send_frame" [hex_u32 sid; pretty flag])), fail_connection s)
  | WriteFailed e => (Err e, fail_connection s)
  | Sent =>
      match encode_upstream sid flag payload with
      | Err e => (Err e, fail_connection s)
      | Ok _ => (Ok (), push_sent (sid, flag, payload) s)
      end
  end.

Definition cancel (answer : send_answer) (target_sid : Z) (s : SessionInner) : Res unit * SessionInner :=
  if si_closed s then (Ok (), s)
  else match allocate_sid answer s with
       | (Err e, s) => (Err e, s)
       | (Ok cancel_sid, s) => send answer cancel_sid 2 (be_bytes 4 target_sid) s
       end.

(** A request handle: its phase and whether its drop still has to cancel. *)
Record OpenRequest := mkOpenRequest { or_sid : Z; or_phase : Z; or_completed : bool }.

(** The reader's messages of session ids nobody waits for. *)
Abbreviation unmatched_map := (gmap Z NormalAccumulator).

Section Requests.
Context `{Crypto} `{ProtoCodec} (keys : SessionKeys).

(** [open_signed]; [cancelled] is the state of the caller's token.  The session may be
    closed by others at any of the awaits; the check at the start is the only one. *)
Definition open_signed (answer : send_answer) (payload : list byte) (cancelled : bool) (s : SessionInner)
  : Res OpenRequest * SessionInner :=
  if si_closed s then (Err (ETransport (Msg "client.connection_closed" [])), s)
  else match allocate_sid answer s with
       | (Err e, s) => (Err e, s)
       | (Ok sid, s) =>
           let s := sa_meanwhile answer AtInsertLock s in
           let s := set_pending ({[sid]} ∪ si_pending s) s in
           match keys_sign keys payload with
           | Err e => (Err e, s)
           | Ok signature =>
               let body := signature ++ payload in
               if cancelled then
                 let s := sa_meanwhile answer AtRemoveLock s in
                 (Err (ECancelled (mkCancellationInfo sid (Local false) false)),
                  set_pending (si_pending s ∖ {[sid]}) s)
               else match send answer sid 1 body s with
                    | (Err e, s) =>
                        let s := sa_meanwhile answer AtRemoveLock s in
                        (Err e, set_pending (si_pending s ∖ {[sid]}) s)
                    | (Ok _, s) => (Ok (mkOpenRequest sid PHASE_NORMAL false), s)
                    end
           end
       end.

(** What one wait on the request channel ends with. *)
Inductive rx_event :=
  | RxItem (i : Incoming)
  | RxError (e : Error)
  | RxClosed
  | RxCancelled (answer : send_answer)
  | RxTimeout.

Definition receive_incoming (ev : rx_event) (sid : Z) (close_connection_on_cancel : bool) (s : SessionInner)
  : Res Incoming * SessionInner :=
  match ev with
  | RxItem i => (Ok i, s)
  | RxError e => (Err e, s)
  | RxClosed => (Err (ETransport (Msg "session.response_closed" [])), s)
  | RxTimeout => (Err (ETimeout (Msg "session.wait_response" [])), s)
  | RxCancelled answer =>
      let s := set_pending (si_pending s ∖ {[sid]}) s in
      let s := if close_connection_on_cancel then fail_connection s else s in
      let (flag_sent, s) :=
        if close_connection_on_cancel then (false, s)
        else let (r, s) := cancel answer sid s in (is_ok r, s) in
      (Err (ECancelled (mkCancellationInfo sid (Local flag_sent) close_connection_on_cancel)), s)
  end.

Definition remote_cancel_info (sid : Z) (cancel : SspCancelRequest) : CancellationInfo :=
  mkCancellationInfo (default sid (cq_session_id cancel ≫= u32_try_from))
    (Remote (cq_error_code cancel)) false.

(** [receive_normal] over the channel events that arrive; running out of events is
    the outer [timeout] firing. *)
Fixpoint receive_normal (evs : list rx_event) (st : response_state) (sid : Z) (s : SessionInner)
  : Res (list byte) * SessionInner :=
  match evs with
  | [] => (Err (ETimeout (Msg "session.wait_response" [])), s)
  | ev :: evs =>
      match receive_incoming ev sid false s with
      | (Err e, s) => (Err e, s)
      | (Ok (IRemoteCancelled info), s) => (Err (ECancelled info), s)
      | (Ok (IData chunk), s) =>
          match response_push st chunk with
          | (Err e, _) => (Err e, s)
          | (Ok None, st) => receive_normal evs st sid s
          | (Ok (Some body), _) =>
              match decode_cancel body with
              | Some c => (Err (ECancelled (remote_cancel_info sid c)), s)
              | None => (Ok body, s)
              end
          end
      end
  end.

(** Every error that is not a cancellation keeping the connection fails it. *)
Definition fails_connection {A} (r : Res A) : bool :=
  match r with
  | Ok _ => false
  | Err (ECancelled info) => ci_connection_closed info
  | Err _ => true
  end.
Definition is_cancelled_error {A} (r : Res A) : bool :=
  match r with Err (ECancelled _) => true | _ => false end.

(** [OpenRequest::receive_normal] *)
Definition request_receive_normal (evs : list rx_event) (req : OpenRequest) (s : SessionInner)
  : Res (list byte) * OpenRequest * SessionInner :=
  if or_phase req =? PHASE_DOWNLOAD_RAW
  then (Err (EProtocol (Msg "session.raw_after_download" [])), req, s)
  else
    let (result, s) := receive_normal evs response_init (or_sid req) s in
    let req := if is_cancelled_error result then mkOpenRequest (or_sid req) (or_phase req) true else req in
    let s := if fails_connection result then fail_connection s else s in
    (result, req, s).

(** The local file of a download: what reached it, what the digest was updated with (the
    MD5 library's state: after updates with [a] and [b] it answers the sum of [a ++ b]),
    and the progress told. *)
Record sink := Sink { sink_bytes : list byte; sink_digest : list byte; sink_progress : list Z }.

Section RawDownload.
Context (write_answer : list byte -> list byte -> option (nat * string)) (flush_answer : list byte -> option string).

(** The loop of [receive_raw_to].  A write that fails may have written some of its chunk;
    the digest is updated after the write. *)
Fixpoint receive_raw_loop (evs : list rx_event) (sid total received : Z) (d : DownloadDiscriminator)
  (k : sink) (s : SessionInner) : Res (list byte) * sink * SessionInner :=
  if received >=? total then
    match flush_answer (sink_bytes k) with
    | Some e => (Err (ELocalIo (Msg "session.flush_download_failed" [e])), k, s)
    | None => (Ok (md5 (sink_digest k)), k, s)
    end
  else match evs with
  | [] => (Err (ETimeout (Msg "session.receive_file_chunk" [])), k, s)
  | ev :: evs =>
      match receive_incoming ev sid true s with
      | (Err (ETimeout _), s) => (Err (ETimeout (Msg "session.receive_file_chunk" [])), k, s)
      | (Err e, s) => (Err e, k, s)
      | (Ok (IRemoteCancelled info), s) => (Err (ECancelled info), k, s)
      | (Ok (IData chunk), s) =>
          let remaining := total - received in
          match discriminator_push d chunk remaining with
          | (Err e, _) => (Err e, k, s)
          | (Ok None, d) => receive_raw_loop evs sid total received d k s
          | (Ok (Some chunk), d) =>
              match checked_add_usize received (zlen chunk) with
              | None => (Err (EProtocol (Msg "session.download_count_overflow" [])), k, s)
              | Some next_received =>
                  if next_received >? total
                  then (Err (EProtocol (Msg "session.download_too_long"
                               [pretty received; pretty (zlen chunk); pretty total])), k, s)
                  else match write_answer (sink_bytes k) chunk with
                       | Some (n, e) =>
                           (Err (ELocalIo (Msg "session.write_download_failed" [e])),
                            Sink (sink_bytes k ++ take n chunk) (sink_digest k) (sink_progress k), s)
                       | None =>
                           let k := Sink (sink_bytes k ++ chunk) (sink_digest k ++ chunk)
                                      (sink_progress k ++ [next_received]) in
                           receive_raw_loop evs sid total next_received d k s
                       end
              end
          end
      end
  end.

(** [OpenRequest::receive_raw_to] *)
Definition receive_raw_to (evs : list rx_event) (total : Z) (req : OpenRequest) (s : SessionInner)
  : Res (list byte) * sink * OpenRequest * SessionInner :=
  let req := mkOpenRequest (or_sid req) PHASE_DOWNLOAD_RAW (or_completed req) in
  let '(result, k, s) :=
    match usize_try_from total with
    | None => (Err (EProtocol (Msg "session.file_too_large" [])), Sink [] [] [], s)
    | Some total => receive_raw_loop evs (or_sid req) total 0 discriminator_default (Sink [] [] []) s
    end in
  let req := if is_cancelled_error result then mkOpenRequest (or_sid req) (or_phase req) true else req in
  let s := if fails_connection result then fail_connection s else s in
  (result, k, req, s).

End RawDownload.

(** [OpenRequest::cancel_local] *)
Definition cancel_local (answer : send_answer) (req : OpenRequest) (close_connection : bool) (s : SessionInner)
  : Res unit * SessionInner :=
  let s := set_pending (si_pending s ∖ {[or_sid req]}) s in
  let s := if close_connection then fail_connection s else s in
  let (flag_sent, s) :=
    if close_connection then (false, s)
    else let (r, s) := cancel answer (or_sid req) s in (is_ok r, s) in
  (Err (ECancelled (mkCancellationInfo (or_sid req) (Local flag_sent) close_connection)), s).

Definition ensure_not_cancelled (answer : send_answer) (cancelled : bool) (req : OpenRequest)
  (close_connection : bool) (s : SessionInner) : Res unit * SessionInner :=
  if cancelled then cancel_local answer req close_connection s else (Ok (), s).

(** [OpenRequest::send] *)
Definition request_send (cancel_answer answer : send_answer) (cancelled : bool) (flag : Z) (payload : list byte)
  (req : OpenRequest) (s : SessionInner) : Res unit * OpenRequest * SessionInner :=
  let (result, s) :=
    match ensure_not_cancelled cancel_answer cancelled req false s with
    | (Ok _, s) => send answer (or_sid req) flag payload s
    | (Err e, s) => (Err e, s)
    end in
  let req := if is_cancelled_error result then mkOpenRequest (or_sid req) (or_phase req) true else req in
  (result, req, s).

(** [OpenRequest::finish], and [Drop] of a request that was not completed. *)
Definition request_finish (req : OpenRequest) (s : SessionInner) : SessionInner :=
  set_pending (si_pending s ∖ {[or_sid req]}) s.

Definition request_drop (answer : send_answer) (req : OpenRequest) (s : SessionInner) : SessionInner :=
  if or_completed req then s
  else
    let s := set_pending (si_pending s ∖ {[or_sid req]}) s in
    (cancel answer (or_sid req) s).2.

(** One beat of the heartbeat task after its tick; [true] means the task goes on. *)
Definition heartbeat_beat (open_answer : send_answer) (evs : list rx_event) (now : Z) (s : SessionInner)
  : bool * SessionInner :=
  if si_closed s then (false, s)
  else
    let payload := encode_SspHeartBeatRequest
                     (mkSspHeartBeatRequest (Some (request_type_value RtHeartBeatRequest)) (Some now)) in
    match open_signed open_answer payload false s with
    | (Err _, s) => (false, set_closed true s)
    | (Ok req, s) =>
        match request_receive_normal evs req s with
        | (Err _, req, s) => (false, set_closed true (request_finish req s))
        | (Ok _, req, s) => (true, request_finish req s)
        end
    end.

(** [Session::close] *)
Definition session_close (answer : send_answer) (s : SessionInner) : Res unit * SessionInner :=
  if si_closed s then (Ok (), s)
  else
    let s := set_closed true s in
    let payload := encode_SspQuitRequest (mkSspQuitRequest (Some (request_type_value RtQuitRequest))) in
    match keys_sign keys payload with
    | Err e => (Err e, s)
    | Ok signature =>
        let (sid, s) := next_sid s in
        send answer sid 1 (signature ++ payload) s
    end.

(** [Drop for Session]: the tasks are aborted without a word to the phone. *)
Definition session_drop (s : SessionInner) : SessionInner := set_closed true s.

(** ** The reader task *)

Definition unmatched_bytes (u : unmatched_map) : Z :=
  map_fold (fun _ entry total => zlen (na_bytes entry) + total) 0 u.

(** How a bounded send into a request channel ends. *)
Inductive delivery := Delivered | ReceiverDropped | DeliveryTimedOut.

Inductive reader_input :=
  | ReadError (e : Error)
  | ReadFrame (sid : Z) (chunk : list byte) (now : Z) (outcome : delivery).

(** A complete message of a session id nobody waits for. *)
Definition dispatch_unmatched (serial : string) (sid : Z) (body : list byte) (outcome : delivery)
  (s : SessionInner) : SessionInner :=
  match decode_cancel body with
  | Some c =>
      let info := remote_cancel_info sid c in
      let target_sid := ci_sid info in
      if bool_decide (target_sid ∈ si_pending s) then
        let s := set_pending (si_pending s ∖ {[target_sid]}) s in
        match outcome with
        | Delivered => push_delivered (target_sid, IRemoteCancelled info) s
        | _ => s
        end
      else publish_event (RequestCancelled info) s
  | None => publish_event (decode_event sid body serial) s
  end.

(** The chunk of a session id that is not pending. *)
Definition reader_unmatched (serial : string) (u : unmatched_map) (sid : Z) (chunk : list byte) (now : Z)
  (outcome : delivery) (s : SessionInner) : unmatched_map * SessionInner :=
  let fresh := bool_decide (u !! sid = None) in
  let u := if fresh
           then filter (fun kv => saturating_sub now (na_last_seen kv.2) < UNMATCHED_TTL) u
           else u in
  if fresh && ((Z.of_nat (size u) >=? MAX_UNMATCHED_SIDS)
               || (unmatched_bytes u + zlen chunk >? MAX_UNMATCHED_BYTES))
  then (u, s)
  else
    let entry := default (mkNormalAccumulator [] None now) (u !! sid) in
    let accumulator := mkNormalAccumulator (na_bytes entry) (na_total entry) now in
    if zlen (na_bytes accumulator) + zlen chunk >? UNMATCHED_ENTRY_BYTES
    then (delete sid u, s)
    else match accumulator_push accumulator chunk with
         | (Ok (Some body), _) => (delete sid u, dispatch_unmatched serial sid body outcome s)
         | (Ok None, accumulator) => (<[sid := accumulator]> u, s)
         | (Err _, _) => (delete sid u, s)
         end.

(** One iteration of the reader loop; [false] ends the task. *)
Definition reader_step (serial : string) (input : reader_input) (u : unmatched_map) (s : SessionInner)
  : bool * unmatched_map * SessionInner :=
  match input with
  | ReadError _ => (false, u, fail_connection s)
  | ReadFrame sid chunk now outcome =>
      if bool_decide (sid ∈ si_pending s) then
        match outcome with
        | Delivered => (true, u, push_delivered (sid, IData chunk) s)
        | ReceiverDropped => (true, u, set_pending (si_pending s ∖ {[sid]}) s)
        | DeliveryTimedOut => (true, u, s)
        end
      else
        let '(u, s) := reader_unmatched serial u sid chunk now outcome s in
        (true, u, s)
  end.

Fixpoint reader_run (serial : string) (inputs : list reader_input) (u : unmatched_map) (s : SessionInner)
  : unmatched_map * SessionInner :=
  match inputs with
  | [] => (u, s)
  | i :: inputs =>
      match reader_step serial i u s with
      | (true, u, s) => reader_run serial inputs u s
      | (false, u, s) => (u, s)
      end
  end.

End Requests.

(** ** The calls in flight

    Between two awaits a call runs alone, and at each await any other task may run.  A
    call is therefore a point of its method, and the session with its tasks a list of
    such points beside the shared state and the writer's queue. *)

(** Whose frame it is; a failed send of [open_signed] still has to forget its id. *)
Inductive sender := ByOpen (sid : Z) | ByCancel | ByUpload | ByClose.

Inductive session_call :=
  | OpenCheck (payload : list byte)
  | OpenLook (payload : list byte) (tries : nat) (sid : Z)
  | OpenInsert (payload : list byte) (sid : Z)
  | CancelCheck (target_sid : Z)
  | CancelLook (target_sid : Z) (tries : nat) (sid : Z)
  | CloseSwap
  | Forget (sid : Z)
  | Handing (by_ : sender) (sid flag : Z) (body : list byte)
  | Waiting (by_ : sender)
  | FailClear (forget : option Z).

Definition frame : Type := Z * Z * list byte.

(** The session, its writer task and the calls in flight. *)
Record SessionTasks := mkTasks {
  st_session : SessionInner;
  st_queue : list frame;
  st_writing : bool;
  st_calls : list session_call
}.

Section InFlight.
Context `{Crypto} `{ProtoCodec} (keys : SessionKeys).

(** Draw an id and wait for the lock, or run out of tries. *)
Definition draw_sid (look : nat -> Z -> session_call) (tries : nat) (s : SessionInner) : option session_call * SessionInner :=
  match tries with
  | O => (None, s)
  | S tries => let (sid, s) := next_sid s in (Some (look tries sid), s)
  end.

(** [fail_connection] up to its await. *)
Definition start_failing (by_ : sender) (s : SessionInner) : option session_call * SessionInner :=
  (Some (FailClear (match by_ with ByOpen sid => Some sid | _ => None end)), set_closed true s).

(** A call goes on to its next await, or ends: [cancelled] is the caller's token,
    [outcome] what the writer's channel or its answer says.  The list is what it hands to
    the writer. *)
Definition resume_call (cancelled : bool) (outcome : send_outcome) (c : session_call) (s : SessionInner)
  : option session_call * SessionInner * list frame :=
  let still (r : option session_call * SessionInner) : option session_call * SessionInner * list frame := (r, []) in
  match c with
  | OpenCheck payload => if si_closed s then (None, s, []) else still (draw_sid (OpenLook payload) 1024 s)
  | OpenLook payload tries sid =>
      if bool_decide (sid ∈ si_pending s) then still (draw_sid (OpenLook payload) tries s)
      else (Some (OpenInsert payload sid), s, [])
  | OpenInsert payload sid =>
      let s := set_pending ({[sid]} ∪ si_pending s) s in
      match keys_sign keys payload with
      | Err _ => (None, s, [])
      | Ok signature =>
          (Some (if cancelled then Forget sid else Handing (ByOpen sid) sid 1 (signature ++ payload)), s, [])
      end
  | CancelCheck target => if si_closed s then (None, s, []) else still (draw_sid (CancelLook target) 1024 s)
  | CancelLook target tries sid =>
      if bool_decide (sid ∈ si_pending s) then still (draw_sid (CancelLook target) tries s)
      else (Some (Handing ByCancel sid 2 (be_bytes 4 target)), s, [])
  | CloseSwap =>
      if si_closed s then (None, s, [])
      else
        let s := set_closed true s in
        let payload := encode_SspQuitRequest (mkSspQuitRequest (Some (request_type_value RtQuitRequest))) in
        match keys_sign keys payload with
        | Err _ => (None, s, [])
        | Ok signature => let (sid, s) := next_sid s in (Some (Handing ByClose sid 1 (signature ++ payload)), s, [])
        end
  | Forget sid => (None, set_pending (si_pending s ∖ {[sid]}) s, [])
  | Handing by_ sid flag body =>
      match outcome with
      | Sent => (Some (Waiting by_), s, [(sid, flag, body)])
      | _ => still (start_failing by_ s)
      end
  | Waiting by_ => match outcome with Sent => (None, s, []) | _ => still (start_failing by_ s) end
  | FailClear forget => (Forget <$> forget, fail_connection s, [])
  end.

(** What may be called at any time: the methods of the session and of its requests. *)
Definition may_start (c : session_call) : bool :=
  match c with
  | OpenCheck _ | CancelCheck _ | CloseSwap | Forget _ | Handing ByUpload _ _ _ => true
  | _ => false
  end.
Definition is_upload (c : session_call) : bool := match c with Handing ByUpload _ _ _ => true | _ => false end.

Definition with_session (s : SessionInner) (t : SessionTasks) : SessionTasks :=
  mkTasks s (st_queue t) (st_writing t) (st_calls t).

(** One step of the session's tasks; the label is the call that starts, if one does. *)
Inductive tasks_step (serial : string) : option session_call -> SessionTasks -> SessionTasks -> Prop :=
  | ts_start c t :
      may_start c = true ->
      tasks_step serial (Some c) t (mkTasks (st_session t) (st_queue t) (st_writing t) (st_calls t ++ [c]))
  | ts_resume before c after cancelled outcome next s handed t :
      st_calls t = before ++ c :: after ->
      (outcome = Sent -> st_writing t = true \/ (forall b sid flag body, c <> Handing b sid flag body)) ->
      resume_call cancelled outcome c (st_session t) = (next, s, handed) ->
      tasks_step serial None t (mkTasks s (st_queue t ++ handed) (st_writing t) (before ++ option_list next ++ after))
  | ts_receive_fails t :
      tasks_step serial None t
        (mkTasks (set_closed true (st_session t)) (st_queue t) (st_writing t) (st_calls t ++ [FailClear None]))
  | ts_writes sid flag body bytes queue t :
      st_writing t = true -> st_queue t = (sid, flag, body) :: queue -> encode_upstream sid flag body = Ok bytes ->
      tasks_step serial None t (mkTasks (push_sent (sid, flag, body) (st_session t)) queue true (st_calls t))
  | ts_write_fails t :
      st_writing t = true -> tasks_step serial None t (mkTasks (set_closed true (st_session t)) [] false (st_calls t))
  | ts_dropped t : tasks_step serial None t (mkTasks (session_drop (st_session t)) [] false (st_calls t))
  | ts_heartbeat_stops t : tasks_step serial None t (with_session (set_closed true (st_session t)) t)
  | ts_reader i u t : tasks_step serial None t (with_session (reader_step serial i u (st_session t)).2 t).

Inductive tasks_path (serial : string) : list (option session_call) -> SessionTasks -> SessionTasks -> Prop :=
  | tp_done t : tasks_path serial [] t t
  | tp_step l ls t t' t'' :
      tasks_step serial l t t' -> tasks_path serial ls t' t'' -> tasks_path serial (l :: ls) t t''.

End InFlight.
