(* ===== verification/SessionProps.v ===== *)
(** * What the session guarantees

    Theorems about Session.v: reassembly of responses and pushes, the memory bound
    of the unmatched store, session id allocation, delivery and isolation by the
    reader, exactness of raw downloads, and finality of a failed connection. *)

From S2P Require Import Prelude Errors Domain Frame Reassembly Handshake Proto EventDecode Session.

(** ** The two reassemblers of the session *)

Lemma max_limits :
  MAX_PUSH_MESSAGE = 4194304 /\ NORMAL_RESPONSE_LIMIT = 67108864 /\ MAX_UNMATCHED_BYTES = 16777216 /\
  UNMATCHED_ENTRY_BYTES = 262144 /\ MAX_DOWNSTREAM_CHUNK = 32761.
Proof. repeat split; reflexivity. Qed.

#[export] Program Instance accumulator_reassembler : Reassembler NormalAccumulator := {|
  ra_limit := MAX_PUSH_MESSAGE;
  ra_chunk_ok := fun _ => True;
  ra_inv := fun a => na_total a = announced (na_bytes a) /\
                     reasm_spec MAX_PUSH_MESSAGE (na_bytes a) = More;
  ra_bytes := na_bytes;
  ra_init := mkNormalAccumulator [] None 0;
  ra_push := accumulator_push
|}.
Next Obligation. done. Qed.
Next Obligation. done. Qed.
Next Obligation. by intros a [_ H]. Qed.
Next Obligation.
  intros a c [Ht Hm] _. unfold accumulator_push. rewrite Ht. cbn [na_bytes na_last_seen na_total].
  pose proof (announced_app (na_bytes a) c) as Ha.
  pose proof (reasm_spec_announced MAX_PUSH_MESSAGE (na_bytes a ++ c)) as Hs.
  pose proof (reasm_spec_announced MAX_PUSH_MESSAGE (na_bytes a)) as Hs0. rewrite Hm in Hs0.
  assert (announced (na_bytes a ++ c) = if zlen (na_bytes a ++ c) >=? 8
            then Some (be_val (take 8 (na_bytes a ++ c))) else None) as Hdef by done.
  destruct max_limits as (HM & _).
  destruct (zlen (na_bytes a ++ c) >? MAX_PUSH_MESSAGE + 8) eqn:Hcap.
  { rewrite Hs. destruct (announced (na_bytes a ++ c)) as [t|] eqn:E.
    - destruct (t >? MAX_PUSH_MESSAGE) eqn:?; [done|].
      replace (_ =? t + 8) with false by lia. by replace (_ >? t + 8) with true by lia.
    - case_test; [done|lia]. }
  destruct (announced (na_bytes a)) as [t|] eqn:E0.
  - rewrite <- Ha in Hs. destruct (t >? MAX_PUSH_MESSAGE) eqn:Hlim; [done|].
    unfold checked_add_usize, USIZE_MAX. replace (t + 8 <=? _) with true by lia.
    repeat (case_test; [done|]). simpl. by rewrite <- Ha.
  - destruct (zlen (na_bytes a ++ c) >=? 8) eqn:H8; [|by simpl; rewrite Hdef, Hs, Hdef].
    rewrite Hdef in Hs. apply announced_range in Hdef as Hr. cbv zeta.
    set (t := be_val (take 8 (na_bytes a ++ c))) in *. clearbody t.
    destruct (t >? MAX_PUSH_MESSAGE) eqn:Hlim; [done|].
    unfold usize_try_from, checked_add_usize, USIZE_MAX.
    replace (t <=? _) with true by lia. replace (t + 8 <=? _) with true by lia.
    repeat (case_test; [done|]). simpl. by rewrite Hdef.
Qed.

#[export] Program Instance response_reassembler : Reassembler response_state := {|
  ra_limit := NORMAL_RESPONSE_LIMIT;
  ra_chunk_ok := fun c => zlen c <= MAX_DOWNSTREAM_CHUNK;
  ra_inv := fun a => rs_total a = announced (rs_assembled a) /\
                     reasm_spec NORMAL_RESPONSE_LIMIT (rs_assembled a) = More;
  ra_bytes := rs_assembled;
  ra_init := response_init;
  ra_push := response_push
|}.
Next Obligation. done. Qed.
Next Obligation. done. Qed.
Next Obligation. by intros a [_ H]. Qed.
Next Obligation.
  intros a c [Ht Hm] Hc. unfold response_push. rewrite Ht. cbn [rs_total rs_assembled].
  pose proof (announced_app (rs_assembled a) c) as Ha.
  pose proof (reasm_spec_announced NORMAL_RESPONSE_LIMIT (rs_assembled a ++ c)) as Hs.
  destruct max_limits as (_ & HM & _ & _ & HC).
  replace (match announced (rs_assembled a) with None => true | Some _ => false end
           && (zlen (rs_assembled a ++ c) >? 8 + MAX_DOWNSTREAM_CHUNK)) with false.
  2: { unfold announced. destruct (zlen (rs_assembled a) >=? 8) eqn:?; [done|]. simpl. rewrite length_app. lia. }
  fold (announced (rs_assembled a ++ c)). rewrite Ha.
  destruct (announced (rs_assembled a ++ c)) as [t|] eqn:E; [|by simpl; rewrite E].
  apply announced_range in E as Hr.
  unfold usize_try_from, checked_add_usize, USIZE_MAX in *.
  replace (t <=? _) with true by lia.
  destruct (t >? NORMAL_RESPONSE_LIMIT) eqn:Hlim; [done|].
  replace (t + 8 <=? _) with true by lia.
  repeat (case_test; [done|]). simpl. by rewrite E.
Qed.

(** ** Responses *)

Definition rx_chunk_ok (ev : rx_event) : Prop :=
  match ev with RxItem (IData c) => zlen c <= MAX_DOWNSTREAM_CHUNK | _ => True end.

Definition rx_data (cs : list (list byte)) : list rx_event := (RxItem ∘ IData) <$> cs.

(** What a reassembled body means to the request. *)
Definition judge_body `{ProtoCodec} (sid : Z) (body : list byte) : Res (list byte) :=
  match decode_cancel body with
  | Some c => Err (ECancelled (remote_cancel_info sid c))
  | None => Ok body
  end.

Section Responses.
Context `{ProtoCodec}.

Lemma receive_normal_data (cs left : list (list byte)) (evs : list rx_event) (st : response_state)
    (sid : Z) (s : SessionInner) (body : list byte) :
  ra_feed st cs = (Done body, left) ->
  receive_normal (rx_data cs ++ evs) st sid s = (judge_body sid body, s).
Proof.
  revert st. induction cs as [|c cs IH]; intros st; [done|].
  simpl. destruct (response_push st c) as [[[b|]|e] st']; [|apply IH|done].
  intros [= -> ->]. unfold judge_body. by destruct (decode_cancel body).
Qed.

Lemma receive_normal_Ok (evs : list rx_event) (st : response_state) (sid : Z) (s s' : SessionInner)
    (body : list byte) :
  receive_normal evs st sid s = (Ok body, s') ->
  s' = s /\ decode_cancel body = None /\
  exists cs rest, evs = rx_data cs ++ rest /\ ra_feed st cs = (Done body, []).
Proof.
  revert st. induction evs as [|ev evs IH]; intros st; simpl; [done|].
  destruct ev as [[c|i]|e| |ans|]; try done; simpl.
  - destruct (response_push st c) as [[[b|]|e] st'] eqn:Ep; [| |done].
    + destruct (decode_cancel b) eqn:Ec; [done|]. intros [= -> ->].
      split_and!; [done..|]. exists [c], evs. simpl. by rewrite Ep.
    + intros (-> & Hc & cs & rest & -> & Hf)%IH. split_and!; [done..|].
      exists (c :: cs), rest. simpl. by rewrite Ep.
  - destruct (cancel ans sid _). done.
Qed.

Lemma rx_chunks (cs : list (list byte)) (rest : list rx_event) :
  Forall rx_chunk_ok (rx_data cs ++ rest) -> Forall (ra_chunk_ok (St := response_state)) cs.
Proof. intros [Hd _]%Forall_app. exact (proj1 (Forall_fmap _ _ _) Hd). Qed.

End Responses.

(** C4: a request gets a response body exactly when the chunks routed to it start
    with a cut, at any places, of the body behind its 8-byte length, the body is
    within the 64 MiB cap and is not a cancel message; receiving it leaves the
    session state unchanged.  A cancel message delivered the same way always
    turns into the cancellation error naming its target. *)
Theorem receive_normal_correct `{ProtoCodec} (evs : list rx_event) (sid : Z) (s : SessionInner) :
  Forall rx_chunk_ok evs ->
  (forall body s', receive_normal evs response_init sid s = (Ok body, s') <->
     s' = s /\ decode_cancel body = None /\
     exists cs rest, evs = rx_data cs ++ rest /\ concat cs = prefixed body /\
                     zlen body <= NORMAL_RESPONSE_LIMIT) /\
  (forall cs rest body c, evs = rx_data cs ++ rest -> concat cs = prefixed body ->
     zlen body <= NORMAL_RESPONSE_LIMIT -> decode_cancel body = Some c ->
     receive_normal evs response_init sid s = (Err (ECancelled (remote_cancel_info sid c)), s)).
Proof.
  intros Hok.
  assert (forall cs rest body, evs = rx_data cs ++ rest -> concat cs = prefixed body ->
     zlen body <= NORMAL_RESPONSE_LIMIT ->
     receive_normal evs response_init sid s = (judge_body sid body, s)) as Hdone.
  { intros cs rest body -> Hc Hl.
    destruct (ra_feed_complete (St := response_state) cs body) as (left & Hf & _);
      [by apply (rx_chunks cs rest)|done..|]. by eapply receive_normal_data. }
  unfold judge_body in Hdone. split.
  - intros body s'. split.
    + intros (-> & Hn & cs & rest & -> & Hf)%receive_normal_Ok. split_and!; [done..|].
      destruct (ra_feed_sound (St := response_state) cs [] body) as (used & Hcs & Hc & Hl);
        [by apply (rx_chunks cs rest)|done|].
      rewrite app_nil_r in Hcs. subst used. eauto.
    + intros (-> & Hn & cs & rest & Hevs & Hc & Hl). rewrite (Hdone cs rest body) by done. by rewrite Hn.
  - intros cs rest body c Hevs Hc Hl Hn. rewrite (Hdone cs rest body) by done. by rewrite Hn.
Qed.

Lemma receive_normal_correct_witness :
  @receive_normal toy_codec
    (rx_data [be_bytes 4 0; be_bytes 4 2 ++ [x6f]; [x6b]] ++ [RxClosed]) response_init 9 session_init
    = (Ok [x6f; x6b], session_init) /\
  @receive_normal toy_codec (rx_data [prefixed [x24; x09]] ++ []) response_init 9 session_init
    = (Err (ECancelled (mkCancellationInfo 9 (Remote None) false)), session_init).
Proof.
  assert (Forall rx_chunk_ok (rx_data [be_bytes 4 0; be_bytes 4 2 ++ [x6f]; [x6b]] ++ [RxClosed])) as H1
    by (repeat constructor; vm_compute; discriminate).
  assert (Forall rx_chunk_ok (rx_data [prefixed [x24; x09]] ++ [])) as H2
    by (repeat constructor; vm_compute; discriminate).
  split.
  - apply (@receive_normal_correct toy_codec _ 9 session_init H1).
    split_and!; [done..|]. exists [be_bytes 4 0; be_bytes 4 2 ++ [x6f]; [x6b]], [RxClosed].
    split_and!; [reflexivity..|vm_compute; discriminate].
  - apply (proj2 (@receive_normal_correct toy_codec _ 9 session_init H2)
             [prefixed [x24; x09]] [] [x24; x09] (mkSspCancelRequest (Some 36) (Some 9) None));
      [reflexivity..|vm_compute; discriminate|reflexivity].
Defined.

(** ** Session ids *)

(** Whatever the other tasks do meanwhile, the id handed out was free when it was looked
    up, and is a 32-bit id. *)
Lemma allocate_sid_loop_free (answer : send_answer) (tries : nat) (s s' : SessionInner) (sid : Z) :
  allocate_sid_loop answer tries s = (Ok sid, s') -> (sid ∉ si_pending s') /\ 0 <= sid < 2 ^ 32.
Proof.
  revert s. induction tries as [|tries IH]; intros s; simpl; [done|].
  case_bool_decide; [apply IH|]. intros [= <- <-]. split; [done|]. apply Z.mod_pos_bound. lia.
Qed.

Lemma allocate_sid_loop_run (o : send_outcome) (tries : nat) (s : SessionInner) :
  match allocate_sid_loop o tries s with
  | (Ok sid, s') => s' = set_next_sid sid s
  | (Err e, s') =>
      si_pending s' = si_pending s /\ si_closed s' = si_closed s /\
      forall i, 1 <= i <= Z.of_nat tries -> wrap32 (si_next_sid s + i) ∈ si_pending s
  end.
Proof.
  revert s. induction tries as [|tries IH]; intros s; simpl.
  { split_and!; [done..|lia]. }
  case_bool_decide as Hin; [|done].
  specialize (IH (set_next_sid (wrap32 (si_next_sid s + 1)) s)).
  destruct (allocate_sid_loop o tries _) as [[sid|e] s']; simpl in *; [done|].
  destruct IH as (Hp & Hc & IH). split_and!; [done..|]. intros i Hi.
  destruct (decide (i = 1)) as [->|]; [done|].
  specialize (IH (i - 1) ltac:(lia)). unfold wrap32 in *.
  rewrite Zplus_mod_idemp_l in IH. by replace (si_next_sid s + 1 + (i - 1)) with (si_next_sid s + i) in IH by lia.
Qed.

Lemma wrap32_window (n i j : Z) : 0 <= j - i < 2 ^ 32 -> wrap32 (n + i) = wrap32 (n + j) -> i = j.
Proof.
  unfold wrap32. intros Hij Heq.
  assert ((n + j - (n + i)) mod 2 ^ 32 = 0) as Hm by (rewrite Zminus_mod, Heq, Z.sub_diag; done).
  replace (n + j - (n + i)) with (j - i) in Hm by lia. rewrite Z.mod_small in Hm; lia.
Qed.

(** A window of [n] consecutive session ids, [n] below 2^32, has [n] elements. *)
Lemma sid_window_size (n : nat) (start : Z) (p : gset Z) :
  Z.of_nat n < 2 ^ 32 -> (forall i, 1 <= i <= Z.of_nat n -> wrap32 (start + i) ∈ p) -> (n <= size p)%nat.
Proof.
  intros Hn Hall.
  set (l := (fun i : nat => wrap32 (start + Z.of_nat i)) <$> seq 1 n).
  assert (NoDup l) as Hnd.
  { apply NoDup_fmap_2_strong; [|apply NoDup_seq]. intros i j Hi Hj Heq.
    apply elem_of_seq in Hi, Hj.
    destruct (Z.le_ge_cases (Z.of_nat i) (Z.of_nat j)).
    - apply wrap32_window in Heq; lia.
    - symmetry in Heq. apply wrap32_window in Heq; lia. }
  assert (list_to_set l ⊆ p) as Hsub.
  { intros x Hx. apply elem_of_list_to_set in Hx. unfold l in Hx.
    apply list_elem_of_fmap in Hx as (i & -> & Hi%elem_of_seq). apply Hall. lia. }
  apply subseteq_size in Hsub. rewrite size_list_to_set in Hsub by done.
  unfold l in Hsub. by rewrite length_fmap, length_seq in Hsub.
Qed.

(** When nobody interferes, a session id is handed out whenever fewer than 1024 requests
    are live, and the only change to the session is the counter; when allocation fails the
    live requests are untouched. *)
Theorem allocate_sid_correct (o : send_outcome) (s : SessionInner) :
  match allocate_sid o s with
  | (Ok sid, s') => (sid ∉ si_pending s) /\ 0 <= sid < 2 ^ 32 /\ s' = set_next_sid sid s
  | (Err _, s') => (1024 <= size (si_pending s))%nat /\ si_pending s' = si_pending s /\ si_closed s' = si_closed s
  end.
Proof.
  unfold allocate_sid. pose proof (allocate_sid_loop_run o 1024 s) as Hr.
  pose proof (allocate_sid_loop_free o 1024 s) as Hf.
  destruct (allocate_sid_loop o 1024 s) as [[sid|e] s'].
  - destruct (Hf s' sid eq_refl) as [Hn Hb]. by rewrite Hr in Hn.
  - destruct Hr as (Hp & Hc & Hw). split_and!; [|done..]. by eapply sid_window_size.
Qed.

(** ** The unmatched store is bounded *)

(** What the reader's store of unmatched messages satisfies at all times. *)
Definition unmatched_ok (u : unmatched_map) : Prop :=
  Z.of_nat (size u) <= MAX_UNMATCHED_SIDS /\
  forall sid a, u !! sid = Some a -> zlen (na_bytes a) <= UNMATCHED_ENTRY_BYTES.

Lemma unmatched_bytes_insert (u : unmatched_map) (sid : Z) (a : NormalAccumulator) :
  u !! sid = None -> unmatched_bytes (<[sid := a]> u) = zlen (na_bytes a) + unmatched_bytes u.
Proof.
  intros Hn. unfold unmatched_bytes. rewrite map_fold_insert_L; [done| |done].
  intros. lia.
Qed.

Lemma unmatched_bytes_le (u : unmatched_map) (cap : Z) :
  (forall sid a, u !! sid = Some a -> zlen (na_bytes a) <= cap) ->
  unmatched_bytes u <= cap * Z.of_nat (size u).
Proof.
  induction u as [|sid a u Hn IH] using map_ind; intros Hall.
  - unfold unmatched_bytes. rewrite map_fold_empty, map_size_empty. lia.
  - rewrite unmatched_bytes_insert, map_size_insert_None by done.
    pose proof (Hall sid a (lookup_insert_eq u sid a)).
    assert (forall sid' a', u !! sid' = Some a' -> zlen (na_bytes a') <= cap) as Hu.
    { intros sid' a' Hl. apply (Hall sid'). rewrite lookup_insert_ne; [done|congruence]. }
    specialize (IH Hu). lia.
Qed.

Lemma unmatched_ok_bytes (u : unmatched_map) : unmatched_ok u -> unmatched_bytes u <= MAX_UNMATCHED_BYTES.
Proof.
  intros [Hs Hb]. pose proof (unmatched_bytes_le u _ Hb).
  pose proof max_limits as (_ & _ & HM & HE & _). unfold MAX_UNMATCHED_SIDS in Hs. lia.
Qed.

Lemma unmatched_ok_empty : unmatched_ok ∅.
Proof. split; [done|]. intros sid a H. by rewrite lookup_empty in H. Qed.

Lemma unmatched_ok_sub (u v : unmatched_map) : v ⊆ u -> unmatched_ok u -> unmatched_ok v.
Proof.
  intros Hsub [Hs Hb]. split.
  - apply map_subseteq_size in Hsub. lia.
  - intros sid a Hl. eapply Hb, lookup_weaken; done.
Qed.

Lemma unmatched_ok_insert (u : unmatched_map) (sid : Z) (a : NormalAccumulator) :
  unmatched_ok u -> zlen (na_bytes a) <= UNMATCHED_ENTRY_BYTES ->
  (u !! sid = None -> Z.of_nat (size u) < MAX_UNMATCHED_SIDS) -> unmatched_ok (<[sid := a]> u).
Proof.
  intros [Hs Hb] Ha Hf. split.
  - rewrite map_size_insert. destruct (u !! sid) eqn:E; simpl; [done|]. specialize (Hf eq_refl). lia.
  - intros sid' a'. destruct (decide (sid = sid')) as [->|].
    + rewrite lookup_insert_eq. by intros [= <-].
    + rewrite lookup_insert_ne by done. apply Hb.
Qed.

Lemma accumulator_push_bytes (a a' : NormalAccumulator) (c : list byte) :
  accumulator_push a c = (Ok None, a') -> na_bytes a' = na_bytes a ++ c.
Proof.
  unfold accumulator_push. simpl. repeat (case_match; try done); intros; simplify_eq; done.
Qed.

Lemma accumulator_push_seen (a a' : NormalAccumulator) (c : list byte) (r : Res (option (list byte))) :
  accumulator_push a c = (r, a') -> na_last_seen a' = na_last_seen a.
Proof.
  unfold accumulator_push. simpl. repeat (case_match; try done); intros; simplify_eq; done.
Qed.

Section Reader.
Context `{ProtoCodec} (serial : string).

Lemma reader_unmatched_ok (u : unmatched_map) (sid : Z) (chunk : list byte) (now : Z) (out : delivery)
    (s : SessionInner) :
  unmatched_ok u -> unmatched_ok (reader_unmatched serial u sid chunk now out s).1.
Proof.
  intros Hu. unfold reader_unmatched.
  set (u1 := if bool_decide _ then _ else u).
  assert (unmatched_ok u1) as Hu1.
  { unfold u1. case_bool_decide; [|done]. eapply unmatched_ok_sub; [apply map_filter_subseteq|done]. }
  assert (u !! sid <> None -> u1 = u) as Hsame by (unfold u1; by case_bool_decide).
  clearbody u1. case_match eqn:Hcap; [done|].
  set (a := mkNormalAccumulator _ _ now).
  destruct (zlen (na_bytes a) + zlen chunk >? UNMATCHED_ENTRY_BYTES) eqn:Hentry.
  { eapply unmatched_ok_sub; [apply delete_subseteq|done]. }
  destruct (accumulator_push a chunk) as [[[b|]|e] a'] eqn:Ep; simpl.
  - eapply unmatched_ok_sub; [apply delete_subseteq|done].
  - apply unmatched_ok_insert; [done|..].
    + apply accumulator_push_bytes in Ep as ->. rewrite length_app. lia.
    + intros Hn. case_bool_decide as Hf.
      * simpl in Hcap. bools. lia.
      * rewrite Hsame in Hn; done.
  - eapply unmatched_ok_sub; [apply delete_subseteq|done].
Qed.

Lemma reader_step_ok (i : reader_input) (u : unmatched_map) (s : SessionInner) :
  unmatched_ok u -> unmatched_ok (reader_step serial i u s).1.2.
Proof.
  intros Hu. destruct i as [e|sid c now out]; simpl; [done|].
  case_bool_decide; [by destruct out|].
  pose proof (reader_unmatched_ok u sid c now out s Hu).
  by destruct (reader_unmatched serial u sid c now out s).
Qed.

Lemma reader_run_ok (ins : list reader_input) (u : unmatched_map) (s : SessionInner) :
  unmatched_ok u -> unmatched_ok (reader_run serial ins u s).1.
Proof.
  revert u s. induction ins as [|i ins IH]; intros u s Hu; simpl; [done|].
  pose proof (reader_step_ok i u s Hu) as Hok.
  destruct (reader_step serial i u s) as [[[] u'] s']; [by apply IH|done].
Qed.

End Reader.

(** C6: whatever a phone sends, for any number of frames, any session ids, sizes,
    arrival times and channel outcomes, the reader keeps at most 64 unmatched
    messages of at most 256 KiB each, hence never more than 16 MiB. *)
Theorem unmatched_store_bounded `{ProtoCodec} (serial : string) (inputs : list reader_input) (s : SessionInner) :
  let u := (reader_run serial inputs ∅ s).1 in
  Z.of_nat (size u) <= MAX_UNMATCHED_SIDS /\ unmatched_bytes u <= MAX_UNMATCHED_BYTES /\
  map_Forall (fun _ a => zlen (na_bytes a) <= UNMATCHED_ENTRY_BYTES) u.
Proof.
  intros u. assert (unmatched_ok u) as Hu by apply reader_run_ok, unmatched_ok_empty.
  split_and!; [apply Hu|by apply unmatched_ok_bytes|]. intros sid a. apply Hu.
Qed.

(** ** Raw downloads *)

(** While the discriminator holds bytes back, they are fewer than the file still
    lacks, and an announced length is the one their first eight bytes spell. *)
Definition disc_inv (d : DownloadDiscriminator) (remaining : Z) : Prop :=
  (dd_candidate d = [] \/ zlen (dd_candidate d) < remaining) /\
  match dd_expected d with
  | None => zlen (dd_candidate d) < 8
  | Some e => 8 <= zlen (dd_candidate d) < e /\ e <= remaining /\ e <= MAX_PUSH_MESSAGE + 8 /\
              e = be_val (take 8 (dd_candidate d)) + 8
  end.

(** The bytes look like one whole phone message. *)
Definition looks_like_message (bs : list byte) : Prop :=
  exists body, bs = prefixed body /\ zlen body <= MAX_PUSH_MESSAGE.

Lemma looks_like_message_intro (bs : list byte) :
  8 <= zlen bs -> zlen bs = be_val (take 8 bs) + 8 -> zlen bs <= MAX_PUSH_MESSAGE + 8 ->
  looks_like_message bs.
Proof.
  intros H8 Heq Hle. exists (drop 8 bs). split; [|len].
  unfold prefixed. rewrite <- (take_drop 8 bs) at 1. f_equal.
  replace (zlen (drop 8 bs)) with (be_val (take 8 bs)) by len.
  symmetry. apply be_bytes_val_eq. len.
Qed.

Lemma discriminator_push_spec (d : DownloadDiscriminator) (c : list byte) (remaining : Z) :
  disc_inv d remaining -> remaining <= USIZE_MAX ->
  match discriminator_push d c remaining with
  | (Ok None, d') => disc_inv d' remaining /\ dd_candidate d' = dd_candidate d ++ c /\
                     zlen (dd_candidate d ++ c) < remaining
  | (Ok (Some out), d') => out = dd_candidate d ++ c /\ d' = discriminator_default
  | (Err e, _) => e = EProtocol (Msg "session.download_ambiguous" []) /\
                  looks_like_message (dd_candidate d ++ c) /\ zlen (dd_candidate d ++ c) <= remaining
  end.
Proof.
  intros [Hshort Hexp] Hrem. unfold discriminator_push.
  destruct (dd_expected d) as [e|] eqn:E.
  - destruct Hexp as (Hlen & Her & Hem & Hev).
    assert (be_val (take 8 (dd_candidate d ++ c)) + 8 = e) as Hev'.
    { rewrite take_app_le by lia. lia. }
    assert (8 <= zlen (dd_candidate d ++ c)) by len.
    repeat case_test; bools; [| done | ].
    + split_and!; [|done|lia]. split; simpl; [right; lia|lia].
    + split_and!; [done| |lia]. apply looks_like_message_intro; lia.
  - set (bs := dd_candidate d ++ c) in *. clearbody bs.
    destruct ((zlen bs <? 8) && (zlen bs >=? remaining)) eqn:E1; [done|].
    destruct (zlen bs >=? 8) eqn:E2.
    2: { split_and!; [|done|lia]. split; simpl; [right; lia|lia]. }
    pose proof (be_val_range (take 8 bs)) as Hr.
    destruct (usize_try_from _ ≫= _) as [e|] eqn:Ee; [|done].
    apply bind_Some in Ee as (n & Hn & He). unfold usize_try_from, checked_add_usize in *.
    repeat case_match; try discriminate; simplify_eq; try done; bools.
    + split_and!; [|done|lia]. split; simpl; [right; lia|]. lia.
    + split_and!; [done| |lia]. apply looks_like_message_intro; lia.
Qed.

(** The bytes in hand are one whole phone message, of the sizes the discriminator counts. *)
Definition spells_message (remaining : Z) (bs : list byte) : bool :=
  (8 <=? zlen bs) && (zlen bs =? be_val (take 8 bs) + 8) && (zlen bs <=? Z.min remaining (MAX_PUSH_MESSAGE + 8)).

(** They may still become one: the length is not all there, or not reached. *)
Definition may_become_message (remaining : Z) (bs : list byte) : bool :=
  (zlen bs <? remaining) &&
  ((zlen bs <? 8) || ((zlen bs <? be_val (take 8 bs) + 8) &&
                      (be_val (take 8 bs) + 8 <=? Z.min remaining (MAX_PUSH_MESSAGE + 8)))).

(** A stretch of whole frames of the file, from a point where nothing was in doubt, spells
    a message. *)
Fixpoint taken_for_message (remaining : Z) (held : list byte) (cs : list (list byte)) : bool :=
  match cs with
  | [] => false
  | c :: cs =>
      if spells_message remaining (held ++ c) then true
      else if may_become_message remaining (held ++ c) then taken_for_message remaining (held ++ c) cs
      else taken_for_message (remaining - zlen (held ++ c)) [] cs
  end.

Lemma taken_for_message_spells (cs : list (list byte)) (remaining : Z) (held : list byte) :
  taken_for_message remaining held cs = true ->
  exists a m b, held ++ concat cs = a ++ m ++ b /\ looks_like_message m.
Proof.
  revert remaining held. induction cs as [|c cs IH]; intros remaining held; simpl; [done|].
  destruct (spells_message remaining (held ++ c)) eqn:Es.
  { intros _. exists [], (held ++ c), (concat cs). split; [by rewrite <- app_assoc|].
    unfold spells_message in Es. bools. apply looks_like_message_intro; lia. }
  destruct (may_become_message _ _).
  - intros (a & m & b & Heq & Hm)%IH. exists a, m, b. by rewrite <- Heq, <- app_assoc.
  - intros (a & m & b & Heq & Hm)%IH. exists (held ++ c ++ a), m, b. split; [|done].
    simpl in Heq. by rewrite Heq, <- !app_assoc.
Qed.

(** What the discriminator decides is what the bytes spell. *)
Lemma discriminator_push_decides (d : DownloadDiscriminator) (c : list byte) (remaining : Z) :
  disc_inv d remaining -> remaining <= USIZE_MAX ->
  (spells_message remaining (dd_candidate d ++ c), may_become_message remaining (dd_candidate d ++ c)) =
  match (discriminator_push d c remaining).1 with
  | Ok None => (false, true)
  | Ok (Some _) => (false, false)
  | Err _ => (true, false)
  end.
Proof.
  intros [Hshort Hexp] Hrem. unfold discriminator_push, spells_message, may_become_message.
  destruct (dd_expected d) as [e|] eqn:E.
  - destruct Hexp as (Hlen & Her & Hem & Hev).
    assert (be_val (take 8 (dd_candidate d ++ c)) + 8 = e) as -> by (rewrite take_app_le by lia; lia).
    assert (8 <= zlen (dd_candidate d ++ c)) by len. set (bs := dd_candidate d ++ c) in *. clearbody bs.
    repeat case_test; simpl; f_equal; lia.
  - set (bs := dd_candidate d ++ c) in *. clearbody bs. pose proof (be_val_range (take 8 bs)) as Hr.
    destruct ((zlen bs <? 8) && (zlen bs >=? remaining)) eqn:E1; [simpl; f_equal; lia|].
    destruct (zlen bs >=? 8) eqn:E2; [|simpl; f_equal; lia].
    destruct (usize_try_from _ ≫= _) as [e|] eqn:Ee.
    + apply bind_Some in Ee as (n & Hn & He). unfold usize_try_from, checked_add_usize in *.
      repeat case_match; simplify_eq; simpl; bools; f_equal; lia.
    + assert (MAX_PUSH_MESSAGE + 8 < be_val (take 8 bs) + 8).
      { unfold usize_try_from, checked_add_usize, USIZE_MAX in Ee. destruct max_limits as (HM & _).
        destruct (be_val (take 8 bs) <=? _) eqn:?; simpl in Ee; [case_match; [done|]; lia|lia]. }
      simpl. f_equal; lia.
Qed.

Section Raw.
Context `{Crypto}.
Context (write_answer : list byte -> list byte -> option (nat * string)) (flush_answer : list byte -> option string).

Abbreviation raw_loop := (receive_raw_loop write_answer flush_answer).

Lemma receive_incoming_data (ev : rx_event) (sid : Z) (close : bool) (s s' : SessionInner) (c : list byte) :
  receive_incoming ev sid close s = (Ok (IData c), s') -> ev = RxItem (IData c) /\ s' = s.
Proof.
  destruct ev; simpl; try done; [by intros [= -> ->]|]. by repeat case_match.
Qed.

(** What a run from file [k] with [held] bytes in hand leaves in file [k'].  The digest
    has seen what the file holds, unless a write failed. *)
Definition raw_post (total : Z) (k : sink) (held : list byte) (evs : list rx_event) (k' : sink)
    (res : Res (list byte)) : Prop :=
  zlen (sink_bytes k') <= total /\
  exists cs rest held', evs = rx_data cs ++ rest /\
    sink_bytes k ++ held ++ concat cs = sink_bytes k' ++ held' /\
    (forall digest, res = Ok digest ->
       zlen (sink_bytes k') = total /\ digest = md5 (sink_bytes k') /\ held' = []).

Lemma raw_post_err (total : Z) (k : sink) (held : list byte) (evs : list rx_event) (e : Error) :
  zlen (sink_bytes k) <= total -> raw_post total k held evs k (Err e).
Proof. intros H1. split; [done|]. exists [], evs, held. simpl. by rewrite app_nil_r. Qed.

Lemma raw_post_step (total : Z) (k k1 k' : sink) (held held1 c : list byte) (evs : list rx_event)
    (res : Res (list byte)) :
  sink_bytes k1 ++ held1 = sink_bytes k ++ held ++ c ->
  raw_post total k1 held1 evs k' res -> raw_post total k held (RxItem (IData c) :: evs) k' res.
Proof.
  intros Hk (Hle & cs & rest & held' & -> & Heq & Hok). split; [done|].
  exists (c :: cs), rest, held'. split_and!; [done| |done].
  rewrite <- Heq, (app_assoc (sink_bytes k1)), Hk. simpl. by rewrite <- !app_assoc.
Qed.

Lemma disc_inv_end (d : DownloadDiscriminator) : disc_inv d 0 -> dd_candidate d = [].
Proof. intros [[|Hlt] _]; [done|]. destruct (dd_candidate d); simpl in *; [done|lia]. Qed.

Lemma receive_raw_loop_end (evs : list rx_event) (sid total received : Z) (d : DownloadDiscriminator)
    (k : sink) (s : SessionInner) :
  total <= received ->
  raw_loop evs sid total received d k s =
    (match flush_answer (sink_bytes k) with
     | Some e => Err (ELocalIo (Msg "session.flush_download_failed" [e]))
     | None => Ok (md5 (sink_digest k))
     end, k, s).
Proof. intros Hge. destruct evs; simpl; replace (received >=? total) with true by lia; by case_match. Qed.

Lemma receive_raw_loop_sound (evs : list rx_event) (sid total received : Z) (d : DownloadDiscriminator)
    (k k' : sink) (s s' : SessionInner) (res : Res (list byte)) :
  raw_loop evs sid total received d k s = (res, k', s') -> sink_digest k = sink_bytes k ->
  received = zlen (sink_bytes k) -> received <= total <= USIZE_MAX -> disc_inv d (total - received) ->
  raw_post total k (dd_candidate d) evs k' res.
Proof.
  revert received d k s. induction evs as [|ev evs IH]; intros received d k s Hrun Hdig Hrec Htot Hinv;
    (destruct (Z.le_gt_cases total received) as [Hge|Hlt];
     [replace (total - received) with 0 in Hinv by lia; apply disc_inv_end in Hinv as Hnil;
      rewrite receive_raw_loop_end, Hdig in Hrun by done;
      destruct (flush_answer _); simplify_eq; [apply raw_post_err; lia|];
      split; [lia|]; eexists [], _, []; simpl; rewrite Hnil; split_and!; [done..|];
      intros ? [= <-]; split_and!; [lia|done..]
     |simpl in Hrun; replace (received >=? total) with false in Hrun by lia]).
  { simplify_eq. apply raw_post_err; lia. }
  assert (forall (e : Error) s1, (Err e, k, s1) = (res, k', s') ->
    raw_post total k (dd_candidate d) (ev :: evs) k' res) as Herr.
  { intros e s1 [= <- <- _]. apply raw_post_err; lia. }
  destruct (receive_incoming ev sid true s) as [[[c|i]|e] s1] eqn:Ei; [|by eapply Herr|by destruct e; eapply Herr].
  apply receive_incoming_data in Ei as [-> ->].
  pose proof (discriminator_push_spec d c (total - received) Hinv ltac:(lia)) as Hp.
  destruct (discriminator_push d c (total - received)) as [[[out|]|e] d']; [| |by eapply Herr].
  - destruct Hp as [-> ->]. unfold checked_add_usize in Hrun.
    destruct (received + zlen (dd_candidate d ++ c) <=? USIZE_MAX); [|by eapply Herr].
    destruct (received + zlen (dd_candidate d ++ c) >? total) eqn:Hover; [by eapply Herr|].
    destruct (write_answer _ _) as [[n e]|].
    { simplify_eq. eapply (raw_post_step _ _ (Sink (sink_bytes k ++ take n (dd_candidate d ++ c)) (sink_digest k) (sink_progress k))
                       _ _ (drop n (dd_candidate d ++ c)));
        [|apply raw_post_err]; simpl; [by rewrite <- app_assoc, take_drop|].
      rewrite length_app, length_take. lia. }
    eapply raw_post_step, IH; [|exact Hrun|by rewrite Hdig|simpl; rewrite (length_app (sink_bytes k)); lia|lia|split; [by left|done]].
    simpl. by rewrite app_nil_r.
  - destruct Hp as (Hinv' & Hc & _).
    eapply raw_post_step, IH; [|exact Hrun|done|done|lia|done]. by rewrite Hc.
Qed.

Lemma raw_end_nil {A} (a b : list A) : zlen (a ++ b) <= zlen a -> a = a ++ b.
Proof. rewrite length_app. intros H1. destruct b; [by rewrite app_nil_r|simpl in H1; lia]. Qed.

(** When the bytes of the whole file arrive, the loop ends without waiting for more: the
    file is complete, unless it was taken for a message. *)
Lemma receive_raw_loop_complete (cs : list (list byte)) (rest : list rx_event) (sid total received : Z)
    (d : DownloadDiscriminator) (k : sink) (s : SessionInner) :
  (forall a b, write_answer a b = None) -> (forall a, flush_answer a = None) -> sink_digest k = sink_bytes k ->
  received = zlen (sink_bytes k) -> received <= total <= USIZE_MAX -> disc_inv d (total - received) ->
  zlen (sink_bytes k ++ dd_candidate d ++ concat cs) = total ->
  exists k', raw_loop (rx_data cs ++ rest) sid total received d k s =
    (if taken_for_message (total - received) (dd_candidate d) cs
     then Err (EProtocol (Msg "session.download_ambiguous" [])) else Ok (md5 (sink_bytes k')), k', s) /\
    (taken_for_message (total - received) (dd_candidate d) cs = false ->
     sink_bytes k' = sink_bytes k ++ dd_candidate d ++ concat cs).
Proof.
  intros Hw Hf. revert received d k. induction cs as [|c cs IH]; intros received d k Hdig Hrec Htot Hinv Hlen.
  all: destruct (Z.le_gt_cases total received) as [Hge|Hlt].
  - exists k. rewrite receive_raw_loop_end, Hf, Hdig by done. split; [done|]. intros _. apply raw_end_nil; lia.
  - destruct Hinv as [[Hn|Hl] _]; rewrite ?Hn in *; simpl in Hlen; rewrite ?app_nil_r, ?length_app in Hlen; lia.
  - exists k. rewrite receive_raw_loop_end, Hf, Hdig by done.
    assert (dd_candidate d ++ concat (c :: cs) = []) as Hnil by (apply nil_length_inv; rewrite length_app in Hlen; lia).
    apply app_eq_nil in Hnil as [Hd Hc]. rewrite Hd, Hc, app_nil_r.
    assert (taken_for_message (total - received) [] (c :: cs) = false) as ->; [|done].
    destruct (taken_for_message _ _ _) eqn:Et; [|done].
    apply taken_for_message_spells in Et as (a & m & b & Heq & body & -> & _). rewrite Hc in Heq.
    apply (f_equal length) in Heq. unfold prefixed in Heq. rewrite !length_app, be_bytes_length in Heq. simpl in Heq. lia.
  - simpl. replace (received >=? total) with false by lia.
    pose proof (discriminator_push_spec d c (total - received) Hinv ltac:(lia)) as Hp.
    pose proof (discriminator_push_decides d c (total - received) Hinv ltac:(lia)) as Hdec.
    simpl in Hlen. rewrite (app_assoc (dd_candidate d)) in Hlen |- *.
    destruct (discriminator_push d c (total - received)) as [[[out|]|e] d'];
      simpl in Hdec; injection Hdec as Hsp Hmb; rewrite ?Hsp, ?Hmb; clear Hsp Hmb.
    + destruct Hp as [-> ->]. rewrite (length_app (sink_bytes k)), (length_app (dd_candidate d ++ c)) in Hlen. unfold checked_add_usize.
      replace (_ <=? USIZE_MAX) with true by lia. replace (_ >? total) with false by lia.
      rewrite Hw. set (bs := dd_candidate d ++ c) in *.
      destruct (IH (received + zlen bs) discriminator_default
                  (Sink (sink_bytes k ++ bs) (sink_digest k ++ bs) (sink_progress k ++ [received + zlen bs])))
        as (k' & Hk & Heq); simpl; [by rewrite Hdig|rewrite length_app; lia|lia|split; [by left|done]|rewrite !length_app; lia|].
      simpl in Hk, Heq. rewrite Z.sub_add_distr in Hk, Heq. exists k'. split; [done|]. intros Ht. rewrite Heq by done. by rewrite <- !app_assoc.
    + destruct Hp as (Hinv' & Hc & _). rewrite <- Hc in *.
      by destruct (IH received d' k) as (k' & Hk & Heq); [done..|exists k'].
    + destruct Hp as (-> & _). by exists k.
Qed.

End Raw.

(** C7: a raw download never writes more than the announced size, what it wrote is
    a prefix of the bytes routed to it (nothing lost, repeated or reordered), and
    it succeeds only with exactly the announced size, answering the MD5 of the file.
    When the whole file arrives and local writes succeed, the download ends there, and
    whether it succeeds is decided by how the file's bytes fall into frames: if some
    stretch of whole frames, from a point where nothing was in doubt, spells a phone
    message (its first eight bytes are its own length, as in a frame of eight zero bytes),
    the download fails as ambiguous and takes the connection down; otherwise, in
    particular if no stretch of the file spells a message, it succeeds with exactly those
    bytes. *)
Theorem receive_raw_to_exact `{Crypto} (write_answer : list byte -> list byte -> option (nat * string))
    (flush_answer : list byte -> option string) (evs : list rx_event) (total : Z) (req : OpenRequest)
    (s : SessionInner) :
  0 <= total < 2 ^ 64 ->
  let '(res, k, req', s') := receive_raw_to write_answer flush_answer evs total req s in
  zlen (sink_bytes k) <= total /\ or_phase req' = PHASE_DOWNLOAD_RAW /\
  (exists cs rest held, evs = rx_data cs ++ rest /\ concat cs = sink_bytes k ++ held) /\
  (forall digest, res = Ok digest -> zlen (sink_bytes k) = total /\ digest = md5 (sink_bytes k)) /\
  (forall cs rest, evs = rx_data cs ++ rest -> zlen (concat cs) = total ->
     (forall a b, write_answer a b = None) -> (forall a, flush_answer a = None) ->
     if taken_for_message total [] cs
     then res = Err (EProtocol (Msg "session.download_ambiguous" [])) /\ s' = fail_connection s /\
          exists a m b, concat cs = a ++ m ++ b /\ looks_like_message m
     else res = Ok (md5 (concat cs)) /\ sink_bytes k = concat cs /\ s' = s).
Proof.
  intros Htot. unfold receive_raw_to, usize_try_from. replace (total <=? USIZE_MAX) with true by (unfold USIZE_MAX; lia).
  set (sid := or_sid _).
  assert (disc_inv discriminator_default (total - 0)) as Hd by (split; [by left|done]).
  destruct (receive_raw_loop _ _ _ _ _ _ _ _ _) as [[res k'] s'] eqn:Hrun.
  apply receive_raw_loop_sound in Hrun as Hs; [|done|done|unfold USIZE_MAX; lia|done].
  destruct Hs as (Hle & cs & rest & held & Hevs & Heq & Hok). simpl in Heq.
  split_and!; [done|by case_match|by exists cs, rest, held| |].
  - intros digest Hr. by destruct (Hok digest Hr) as (? & ? & _).
  - clear cs rest held Hevs Heq Hok. intros cs rest -> Hlen Hw Hf.
    destruct (receive_raw_loop_complete write_answer flush_answer cs rest sid total 0 discriminator_default
                (Sink [] [] []) s) as (k1 & Hk & Hb); simpl; [done|done|done|done|unfold USIZE_MAX; lia|done|done|].
    rewrite Z.sub_0_r in Hk, Hb. rewrite Hrun in Hk. simpl in Hk, Hb. injection Hk as -> -> ->.
    pose proof (taken_for_message_spells cs total []) as Hspell.
    destruct (taken_for_message total [] cs); [by split_and!; [| |apply Hspell]|].
    specialize (Hb eq_refl). by rewrite Hb.
Qed.

Lemma receive_raw_to_exact_witness :
  (let '(res, k, _, s') :=
    @receive_raw_to toy_crypto (fun _ _ => None) (fun _ => None) (rx_data [[x01; x02]; [x03]]) 3
      (mkOpenRequest 5 PHASE_NORMAL false) session_init in
   res = Ok (be_bytes 16 66051) /\ sink_bytes k = [x01; x02; x03] /\ s' = session_init) /\
  (@receive_raw_to toy_crypto (fun _ _ => None) (fun _ => None) (rx_data [be_bytes 8 0]) 8
      (mkOpenRequest 5 PHASE_NORMAL false) session_init).1.1.1
    = Err (EProtocol (Msg "session.download_ambiguous" [])).
Proof.
  split.
  - pose proof (@receive_raw_to_exact toy_crypto (fun _ _ => None) (fun _ => None)
      (rx_data [[x01; x02]; [x03]]) 3 (mkOpenRequest 5 PHASE_NORMAL false) session_init ltac:(lia)) as Hp.
    destruct (@receive_raw_to toy_crypto _ _ _ _ _ _) as [[[res k] req'] s'].
    destruct Hp as (_ & _ & _ & _ & Hp).
    by apply (Hp [[x01; x02]; [x03]] []).
  - pose proof (@receive_raw_to_exact toy_crypto (fun _ _ => None) (fun _ => None)
      (rx_data [be_bytes 8 0]) 8 (mkOpenRequest 5 PHASE_NORMAL false) session_init ltac:(lia)) as Hp.
    destruct (@receive_raw_to toy_crypto _ _ _ _ _ _) as [[[res k] req'] s'].
    destruct Hp as (_ & _ & _ & _ & Hp).
    by apply (Hp [be_bytes 8 0] []).
Defined.

(** ** Routing by the reader *)

(** What the store holds for a session id. *)
Definition held (u : unmatched_map) (sid : Z) : list byte := default [] (na_bytes <$> u !! sid).


Definition frame_of (i : reader_input) : option (Z * list byte) :=
  match i with ReadFrame sid c _ _ => Some (sid, c) | ReadError _ => None end.

Definition chunk_for (sid : Z) (i : reader_input) : option (list byte) :=
  match frame_of i with
  | Some (sid', c) => if sid' =? sid then Some c else None
  | None => None
  end.
Definition chunks_for (sid : Z) (ins : list reader_input) : list (list byte) := omap (chunk_for sid) ins.

Definition data_for (sid : Z) (ds : list (Z * Incoming)) : list (list byte) :=
  omap (fun d => match d with
                 | (sid', IData c) => if sid' =? sid then Some c else None
                 | _ => None
                 end) ds.

(** The reader only appends to what it delivered and published, and only takes
    session ids out of the pending set. *)
Definition reader_grows (s s' : SessionInner) : Prop :=
  (exists ds, si_delivered s' = si_delivered s ++ ds /\ forall sid, data_for sid ds = []) /\
  (forall es, si_events s = Some es -> exists es', si_events s' = Some (es ++ es')) /\
  si_pending s' ⊆ si_pending s.

Section Routing.
Context `{ProtoCodec} (serial : string).

Lemma reader_grows_refl (s : SessionInner) : reader_grows s s.
Proof.
  split_and!; [exists []; by rewrite app_nil_r| |done]. intros es ->. exists []. by rewrite app_nil_r.
Qed.

Lemma publish_event_grows (e : ClientEvent) (s : SessionInner) : reader_grows s (publish_event e s).
Proof.
  split_and!; simpl; [exists []; by rewrite app_nil_r| |done]. intros es ->. simpl. eauto.
Qed.

Lemma dispatch_unmatched_grows (sid : Z) (body : list byte) (out : delivery) (s : SessionInner) :
  reader_grows s (dispatch_unmatched serial sid body out s).
Proof.
  unfold dispatch_unmatched. destruct (decode_cancel body); [|apply publish_event_grows].
  case_bool_decide; [|apply publish_event_grows].
  destruct out; (split_and!; simpl;
    [|intros es ->; exists []; by rewrite app_nil_r|set_solver]);
    [eexists; split; [done|done]|exists []; by rewrite app_nil_r..].
Qed.

Lemma reader_unmatched_grows (u : unmatched_map) (sid : Z) (c : list byte) (now : Z) (out : delivery)
    (s : SessionInner) :
  reader_grows s (reader_unmatched serial u sid c now out s).2.
Proof.
  unfold reader_unmatched. set (u1 := if bool_decide _ then _ else u). clearbody u1.
  destruct (_ && _); [apply reader_grows_refl|]. set (a := mkNormalAccumulator _ _ now). clearbody a.
  destruct (_ >? UNMATCHED_ENTRY_BYTES); [apply reader_grows_refl|].
  destruct (accumulator_push a c) as [[[b|]|] ?];
    [apply dispatch_unmatched_grows|apply reader_grows_refl..].
Qed.

Lemma reader_step_pending (i : reader_input) (u : unmatched_map) (s : SessionInner) :
  si_pending (reader_step serial i u s).2 ⊆ si_pending s.
Proof.
  destruct i as [e|sid c now out]; simpl; [set_solver|].
  case_bool_decide; [destruct out; simpl; set_solver|].
  pose proof (reader_unmatched_grows u sid c now out s) as (_ & _ & Hp).
  by destruct (reader_unmatched serial u sid c now out s).
Qed.

Lemma reader_run_pending (ins : list reader_input) (u : unmatched_map) (s : SessionInner) :
  si_pending (reader_run serial ins u s).2 ⊆ si_pending s.
Proof.
  revert u s. induction ins as [|i ins IH]; intros u s; simpl; [done|].
  pose proof (reader_step_pending i u s) as Hp.
  destruct (reader_step serial i u s) as [[[] u1] s1]; [|done]. by etrans; [apply IH|].
Qed.

Lemma data_for_app (sid : Z) (a b : list (Z * Incoming)) : data_for sid (a ++ b) = data_for sid a ++ data_for sid b.
Proof. apply omap_app. Qed.

(** The chunks of [sid] whose bounded send into the request's channel succeeded: one that
    timed out is dropped, and a receiver that is gone, or a read error, ends it. *)
Fixpoint accepted_for (sid : Z) (ins : list reader_input) : list (list byte) :=
  match ins with
  | [] | ReadError _ :: _ => []
  | ReadFrame o c _ out :: ins =>
      if o =? sid then
        match out with
        | Delivered => c :: accepted_for sid ins
        | DeliveryTimedOut => accepted_for sid ins
        | ReceiverDropped => []
        end
      else accepted_for sid ins
  end.

(** This input takes the request [sid] out of the pending ones: the connection fails, its
    receiver is gone, or it completes a cancel message that names [sid]. *)
Definition takes_out (sid : Z) (u : unmatched_map) (i : reader_input) : Prop :=
  match i with
  | ReadError _ => True
  | ReadFrame o c _ out =>
      (o = sid /\ out = ReceiverDropped) \/
      exists cq, decode_cancel (drop 8 (held u o ++ c)) = Some cq /\ ci_sid (remote_cancel_info o cq) = sid
  end.

Lemma accepted_for_prefix (sid : Z) (i : reader_input) (ins : list reader_input) :
  accepted_for sid [i] `prefix_of` accepted_for sid (i :: ins).
Proof.
  destruct i as [e|o c now out]; simpl; [apply prefix_nil|].
  destruct (o =? sid); [|apply prefix_nil]. destruct out; [apply prefix_cons|..]; apply prefix_nil.
Qed.

Lemma accumulator_push_body (a : NormalAccumulator) (c body : list byte) (a' : NormalAccumulator) :
  accumulator_push a c = (Ok (Some body), a') -> body = drop 8 (na_bytes a ++ c).
Proof. unfold accumulator_push. simpl. repeat (case_match; try done); intros; by simplify_eq. Qed.

Lemma reader_unmatched_takes_out (u : unmatched_map) (o sid : Z) (c : list byte) (now : Z) (out : delivery)
    (s : SessionInner) :
  sid ∈ si_pending s -> sid ∉ si_pending (reader_unmatched serial u o c now out s).2 ->
  takes_out sid u (ReadFrame o c now out).
Proof.
  intros Hin Hout. right. unfold reader_unmatched in Hout.
  set (u1 := if bool_decide _ then _ else u) in *.
  assert (na_bytes (default (mkNormalAccumulator [] None now) (u1 !! o)) = held u o) as Hheld.
  { unfold u1, held. case_bool_decide as Hf; [|by destruct (u !! o)]. rewrite Hf.
    by rewrite map_lookup_filter_None_2 by (by left). }
  clearbody u1. destruct (_ && _); [done|].
  set (a0 := default _ _) in *. destruct (_ >? UNMATCHED_ENTRY_BYTES); [done|].
  destruct (accumulator_push _ c) as [[[b|]|] a'] eqn:Ep; [|done..].
  apply accumulator_push_body in Ep. cbn [na_bytes] in Ep. rewrite Hheld in Ep. subst b.
  cbn [snd] in Hout. unfold dispatch_unmatched in Hout.
  destruct (decode_cancel (drop 8 (held u o ++ c))) as [cq|] eqn:Ec; [|done].
  exists cq. split; [done|]. case_bool_decide; [|done].
  destruct (decide (ci_sid (remote_cancel_info o cq) = sid)) as [|Hne]; [done|].
  exfalso. apply Hout. destruct out; simpl; set_solver.
Qed.

Lemma reader_step_routes (sid : Z) (i : reader_input) (u : unmatched_map) (s : SessionInner) :
  let '(go, u', s') := reader_step serial i u s in
  si_pending s' ⊆ si_pending s /\
  (exists ds, si_delivered s' = si_delivered s ++ ds /\
     data_for sid ds = if bool_decide (sid ∈ si_pending s) then accepted_for sid [i] else []) /\
  (sid ∈ si_pending s -> sid ∉ si_pending s' -> takes_out sid u i) /\
  (sid ∈ si_pending s' -> go = true /\ forall ins, accepted_for sid (i :: ins) = accepted_for sid [i] ++ accepted_for sid ins).
Proof.
  destruct i as [e|o c now out]; cbn [reader_step].
  { split_and!; [set_solver| |done|set_solver]. exists []. rewrite app_nil_r. split; [done|]. by case_bool_decide. }
  destruct (decide (o ∈ si_pending s)) as [Hin|Hni].
  - rewrite bool_decide_eq_true_2 by done.
    destruct out; (split; [simpl; set_solver|]; split; [|split; [intros H1 H2|intros Hs; split; [done|intros ins]]]).
    + eexists. split; [done|]. simpl. destruct (Z.eqb_spec o sid) as [->|].
      * by rewrite bool_decide_eq_true_2.
      * by case_bool_decide.
    + by destruct H2.
    + simpl. by destruct (o =? sid).
    + exists []. rewrite app_nil_r. split; [done|]. simpl. destruct (o =? sid); by case_bool_decide.
    + left. split; [|done]. destruct (decide (o = sid)) as [|Hne]; [done|]. destruct H2. simpl. set_solver.
    + simpl in Hs |- *. destruct (Z.eqb_spec o sid) as [->|]; [set_solver|done].
    + exists []. rewrite app_nil_r. split; [done|]. simpl. destruct (o =? sid); by case_bool_decide.
    + by destruct H2.
    + simpl. by destruct (o =? sid).
  - rewrite bool_decide_eq_false_2 by done.
    pose proof (reader_unmatched_grows u o c now out s) as ((ds & Hd & Hn) & _ & Hp).
    pose proof (reader_unmatched_takes_out u o sid c now out s) as Hto.
    destruct (reader_unmatched serial u o c now out s) as [u' s']. simpl in Hd, Hp, Hto.
    split_and!; [done| |done|].
    + exists ds. split; [done|]. rewrite Hn. case_bool_decide; [|done]. simpl. case_test; [|done]. bools. set_solver.
    + intros Hs. split; [done|]. intros ins. simpl. case_test; [|done]. bools. set_solver.
Qed.

End Routing.

(** C8: the reader routes chunks exactly, whatever it reads and however its bounded sends
    into the requests' channels end.  What a request gets is, in order, a prefix of the
    chunks of its session id whose send succeeded: a chunk whose receiver does not make
    room within the delivery time is dropped and the reader goes on.  It is all of them
    if the request is still pending at the end, and nothing if it was not pending at the
    start; no chunk ever reaches another request.  A pending request leaves only by a
    read error, by its receiver being gone, or by a cancel message that names it. *)
Theorem reader_routes_exactly `{ProtoCodec} (serial : string) (inputs : list reader_input)
    (u : unmatched_map) (s : SessionInner) (sid : Z) :
  let s' := (reader_run serial inputs u s).2 in
  exists ds, si_delivered s' = si_delivered s ++ ds /\
    data_for sid ds `prefix_of` accepted_for sid inputs /\
    (sid ∉ si_pending s -> data_for sid ds = []) /\
    (sid ∈ si_pending s' -> data_for sid ds = accepted_for sid inputs) /\
    (sid ∈ si_pending s -> sid ∉ si_pending s' ->
     exists before i after, inputs = before ++ i :: after /\ takes_out sid (reader_run serial before u s).1 i).
Proof.
  intros s'. subst s'. revert u s. induction inputs as [|i inputs IH]; intros u s.
  { exists []. rewrite app_nil_r. split_and!; [done|apply prefix_nil|done..]. }
  cbn [reader_run]. pose proof (reader_step_routes serial sid i u s) as Hstep.
  pose proof (accepted_for_prefix sid i inputs) as Hpre.
  destruct (reader_step serial i u s) as [[go u1] s1] eqn:Es.
  destruct Hstep as (Hp & (ds & Hd & Hx) & Hto & Hin).
  assert (sid ∈ si_pending s -> sid ∉ si_pending s1 ->
    exists before j after, i :: inputs = before ++ j :: after /\ takes_out sid (reader_run serial before u s).1 j) as Hhere.
  { intros H1 H2. exists [], i, inputs. split; [done|]. by apply Hto. }
  destruct go; cbv beta iota; cbn [snd].
  2: { exists ds. rewrite Hx. split_and!; [done|case_bool_decide; [done|apply prefix_nil]|by intros; case_bool_decide| |done].
       intros Hs. by destruct (Hin Hs). }
  destruct (IH u1 s1) as (ds1 & Hd1 & Hpre1 & Hnone & Hall & Hleft).
  exists (ds ++ ds1). rewrite Hd1, Hd, app_assoc, data_for_app, Hx. split; [done|].
  pose proof (reader_run_pending serial inputs u1 s1) as Hrest. split_and!.
  - destruct (decide (sid ∈ si_pending s1)) as [Hs|Hs].
    + destruct (Hin Hs) as [_ Hacc]. rewrite (Hacc inputs), bool_decide_eq_true_2 by set_solver. by apply prefix_app.
    + rewrite Hnone, app_nil_r by done. case_bool_decide; [done|apply prefix_nil].
  - intros Hs. rewrite bool_decide_eq_false_2 by done. apply Hnone. set_solver.
  - intros Hs. destruct (Hin ltac:(set_solver)) as [_ Hacc]. rewrite (Hacc inputs), bool_decide_eq_true_2 by set_solver. f_equal. auto.
  - intros Hs Hn. destruct (decide (sid ∈ si_pending s1)) as [Hs1|Hs1]; [|auto].
    destruct (Hleft Hs1 Hn) as (before & j & after & -> & Ht). exists (i :: before), j, after. split; [done|].
    simpl. by rewrite Es.
Qed.

(** ** Pushes interleaved with other traffic *)

(** The session's traffic in a time window shorter than the TTL, with few enough
    session ids for the store. *)
Record window_ok (t0 : Z) (u : unmatched_map) (ins : list reader_input) : Prop := {
  wo_store : unmatched_ok u;
  wo_frames : Forall (fun i => match i with
     | ReadFrame _ c now _ => zlen c <= MAX_DOWNSTREAM_CHUNK /\ t0 <= now < t0 + UNMATCHED_TTL
     | ReadError _ => False
     end) ins;
  wo_sids : Z.of_nat (size (dom u ∪ list_to_set (fst <$> omap frame_of ins))) <= MAX_UNMATCHED_SIDS
}.

(** The entry of one session id is a partial message seen within the window. *)
Definition entry_ok (t0 : Z) (u : unmatched_map) (sid : Z) : Prop :=
  match u !! sid with
  | Some a => ra_inv a /\ t0 <= na_last_seen a
  | None => True
  end.

Section Push.
Context `{ProtoCodec} (serial : string) (t0 : Z).

Lemma dom_reader_step (sid : Z) (c : list byte) (now : Z) (out : delivery) (u : unmatched_map) (s : SessionInner) :
  dom (reader_step serial (ReadFrame sid c now out) u s).1.2 ⊆ dom u ∪ {[sid]}.
Proof.
  simpl. case_bool_decide; [destruct out; set_solver|].
  destruct (reader_unmatched serial u sid c now out s) as [u' s'] eqn:E. simpl.
  unfold reader_unmatched in E. set (u1 := if bool_decide _ then _ else u) in *.
  assert (dom u1 ⊆ dom u) as Hd.
  { unfold u1. case_bool_decide; [|done]. apply subseteq_dom, map_filter_subseteq. }
  clearbody u1. destruct (_ && _); [set_solver|]. set (a := mkNormalAccumulator _ _ now) in *. clearbody a.
  destruct (_ >? UNMATCHED_ENTRY_BYTES); [simplify_eq; set_solver|].
  destruct (accumulator_push a c) as [[[b|]|] ?]; simplify_eq; set_solver.
Qed.

Lemma window_ok_step (i : reader_input) (ins : list reader_input) (u : unmatched_map) (s : SessionInner) :
  window_ok t0 u (i :: ins) ->
  (reader_step serial i u s).1.1 = true /\ window_ok t0 (reader_step serial i u s).1.2 ins.
Proof.
  intros [Hst Hfr Hs]. apply Forall_cons in Hfr as [Hi Hfr]. destruct i as [e|sid c now out]; [done|].
  split.
  - simpl. case_bool_decide; [by destruct out|]. by destruct (reader_unmatched serial u sid c now out s).
  - split; [by apply reader_step_ok|done|]. etrans; [|exact Hs].
    apply Nat2Z.inj_le, subseteq_size. pose proof (dom_reader_step sid c now out u s).
    simpl. set_solver.
Qed.

(** Another session's frame leaves the entry alone. *)
Lemma reader_step_other (o sid : Z) (c : list byte) (now : Z) (out : delivery) (u : unmatched_map)
    (s : SessionInner) :
  o <> sid -> now < t0 + UNMATCHED_TTL -> entry_ok t0 u sid ->
  (reader_step serial (ReadFrame o c now out) u s).1.2 !! sid = u !! sid.
Proof.
  intros Hne Hnow He. simpl. case_bool_decide; [by destruct out|].
  destruct (reader_unmatched serial u o c now out s) as [u' s'] eqn:E. simpl.
  unfold reader_unmatched in E. set (u1 := if bool_decide _ then _ else u) in *.
  assert (u1 !! sid = u !! sid) as Hl.
  { unfold u1. case_bool_decide; [|done]. unfold entry_ok in He.
    destruct (u !! sid) as [a|] eqn:Ea.
    - apply map_lookup_filter_Some_2; [done|]. simpl. unfold saturating_sub. destruct He as [_ He].
      assert (0 < UNMATCHED_TTL) by done. lia.
    - apply map_lookup_filter_None_2. by left. }
  clearbody u1. destruct (_ && _); [by simplify_eq|].
  set (a := mkNormalAccumulator _ _ now) in *. clearbody a. rewrite <- Hl.
  destruct (_ >? UNMATCHED_ENTRY_BYTES); [simplify_eq; by apply lookup_delete_ne|].
  destruct (accumulator_push a c) as [[[b|]|] ?]; simplify_eq;
    [by apply lookup_delete_ne|by apply lookup_insert_ne|by apply lookup_delete_ne].
Qed.

(** The session id's own frame: the store always finds room and pushes the chunk. *)
Lemma reader_step_own (sid : Z) (c : list byte) (now : Z) (out : delivery) (ins : list reader_input)
    (u : unmatched_map) (s : SessionInner) :
  window_ok t0 u (ReadFrame sid c now out :: ins) -> entry_ok t0 u sid -> sid ∉ si_pending s ->
  zlen (held u sid ++ c) <= UNMATCHED_ENTRY_BYTES ->
  exists a, ra_inv a /\ ra_bytes a = held u sid /\ na_last_seen a = now /\
    let '(_, u', s') := reader_step serial (ReadFrame sid c now out) u s in
    match accumulator_push a c with
    | (Ok (Some body), _) => s' = dispatch_unmatched serial sid body out s
    | (Ok None, a') => s' = s /\ u' !! sid = Some a'
    | (Err _, _) => True
    end.
Proof.
  intros [[Hsz Hbd] Hfr Hs] He Hnp Hlen. apply Forall_cons in Hfr as [[Hc Hnow] _].
  simpl. rewrite bool_decide_eq_false_2 by done.
  unfold entry_ok, held in *. destruct (u !! sid) as [a0|] eqn:Ea; simpl in *.
  - exists (mkNormalAccumulator (na_bytes a0) (na_total a0) now). split; [apply He|]. split; [done|]. split; [done|].
    unfold reader_unmatched. rewrite Ea. rewrite bool_decide_eq_false_2 by done.
    cbn [andb]. rewrite Ea. cbn [default from_option id na_bytes na_total].
    rewrite <- Nat2Z.inj_add, <- length_app. replace (_ >? _) with false by lia.
    destruct (accumulator_push _ c) as [[[b|]|] a']; [done| |done]. split; [done|]. apply lookup_insert_eq.
  - exists (mkNormalAccumulator [] None now). split; [done|]. split; [done|]. split; [done|].
    unfold reader_unmatched. rewrite Ea. rewrite bool_decide_eq_true_2 by done.
    set (u1 := filter _ u).
    assert (u1 ⊆ u) as Hsub by apply map_filter_subseteq.
    assert (Z.of_nat (size u1) < MAX_UNMATCHED_SIDS) as Hroom.
    { assert (sid ∉ dom u) as Hnd by by apply not_elem_of_dom.
      assert (size (dom u ∪ {[sid]}) <= size (dom u ∪ list_to_set (fst <$> omap frame_of (ReadFrame sid c now out :: ins))))%nat as Hle
        by (apply subseteq_size; simpl; set_solver).
      rewrite size_union, size_singleton in Hle by set_solver.
      apply map_subseteq_size in Hsub. rewrite size_dom in Hle. simpl in *. lia. }
    assert (unmatched_bytes u1 <= UNMATCHED_ENTRY_BYTES * Z.of_nat (size u1)) as Hby.
    { apply unmatched_bytes_le. intros x a Hx. eapply Hbd, lookup_weaken; done. }
    destruct max_limits as (_ & _ & HM & HE & HC). unfold MAX_UNMATCHED_SIDS in *.
    replace ((Z.of_nat (size u1) >=? 64) || _) with false by (rewrite HM, HE, HC in *; lia).
    simpl andb. cbv iota.
    assert (u1 !! sid = None) as ->.
    { apply map_lookup_filter_None_2. by left. }
    cbn [default na_bytes na_total length]. simpl in Hlen.
    replace (_ >? UNMATCHED_ENTRY_BYTES) with false by (simpl; lia).
    destruct (accumulator_push _ c) as [[[b|]|] a']; [done| |done]. split; [done|]. apply lookup_insert_eq.
Qed.

Lemma reader_run_events (ins : list reader_input) (u : unmatched_map) (s : SessionInner) (es : list ClientEvent) :
  Forall (fun i => is_Some (frame_of i)) ins -> si_events s = Some es ->
  exists es', si_events (reader_run serial ins u s).2 = Some (es ++ es').
Proof.
  revert u s es. induction ins as [|i ins IH]; intros u s es Hf He; simpl.
  { exists []. by rewrite app_nil_r. }
  apply Forall_cons in Hf as [Hi Hf]. destruct i as [e|sid c now out]; [by destruct Hi|].
  assert (exists es', si_events (reader_step serial (ReadFrame sid c now out) u s).2 = Some (es ++ es')) as [es1 H1].
  { simpl. case_bool_decide; [destruct out; exists []; simpl; by rewrite app_nil_r|].
    pose proof (reader_unmatched_grows serial u sid c now out s) as (_ & Hg & _).
    destruct (reader_unmatched serial u sid c now out s). by apply Hg. }
  destruct (reader_step serial (ReadFrame sid c now out) u s) as [[[] u1] s1]; [|eauto].
  destruct (IH u1 s1 _ Hf H1) as [es2 H2]. exists (es1 ++ es2). by rewrite app_assoc.
Qed.

Lemma window_frames (u : unmatched_map) (ins : list reader_input) :
  window_ok t0 u ins -> Forall (fun i => is_Some (frame_of i)) ins.
Proof. intros [_ Hf _]. eapply Forall_impl; [exact Hf|]. by intros []. Qed.

Lemma push_run (sid : Z) (body : list byte) (ins : list reader_input) (u : unmatched_map) (s : SessionInner)
    (es : list ClientEvent) :
  window_ok t0 u ins -> entry_ok t0 u sid -> sid ∉ si_pending s -> si_events s = Some es ->
  decode_cancel body = None -> zlen (prefixed body) <= UNMATCHED_ENTRY_BYTES ->
  held u sid ++ concat (chunks_for sid ins) = prefixed body ->
  exists es', si_events (reader_run serial ins u s).2 = Some es' /\ decode_event sid body serial ∈ es'.
Proof.
  intros Hw He Hnp Hes Hnc Hlen.
  assert (zlen body <= ra_limit (Reassembler := accumulator_reassembler)) as Hlim.
  { destruct max_limits as (HM & _ & _ & HE & _). simpl. unfold prefixed in Hlen. len. }
  revert u s es Hw He Hnp Hes. induction ins as [|i ins IH]; intros u s es Hw He Hnp Hes Heq; simpl.
  - simpl in Heq. rewrite app_nil_r in Heq. unfold entry_ok, held in *. destruct (u !! sid) as [a|].
    + destruct He as [Ha%ra_inv_more _]. change (ra_bytes a) with (na_bytes a) in Ha. simpl in Heq.
      rewrite Heq in Ha. by rewrite (proj2 (ra_done_iff _ body)) in Ha.
    + apply (f_equal length) in Heq. unfold prefixed in Heq. rewrite length_app, be_bytes_length in Heq.
      simpl in Heq. lia.
  - destruct (window_ok_step i ins u s Hw) as [Hgo Hw1].
    assert (Forall (fun i => is_Some (frame_of i)) (i :: ins)) as Hfr by by apply (window_frames u).
    destruct i as [|o c now out]; [by apply Forall_cons in Hfr as [[] _]|].
    assert (sid ∉ si_pending (reader_step serial (ReadFrame o c now out) u s).2) as Hnp1.
    { pose proof (reader_step_pending serial (ReadFrame o c now out) u s). set_solver. }
    destruct (reader_run_events [ReadFrame o c now out] u s es) as [es1 Hes1]; [|done|].
    { apply Forall_cons in Hfr as [? _]. by repeat constructor. }
    simpl in Hes1. change (if bool_decide (o ∈ si_pending s) then _ else _)
      with (reader_step serial (ReadFrame o c now out) u s) in Hes1 |- *.
    unfold chunks_for, chunk_for in Heq. cbn [omap list_omap frame_of] in Heq.
    destruct (Z.eqb_spec o sid) as [->|Hne].
    + cbn [concat] in Heq. symmetry in Heq.
      destruct (reader_step_own sid c now out ins u s) as (a & Ha & Hb & Hn & Hstep); [done..| |].
      { rewrite Heq, !length_app in Hlen. rewrite length_app. lia. }
      rewrite <- Hb in Heq. pose proof (ra_push_prefix a c _ body Ha I Hlim Heq) as Hp.
      cbn [ra_push accumulator_reassembler] in Hp.
      destruct (reader_step serial (ReadFrame sid c now out) u s) as [[b u1] s1]. simpl in Hgo, Hnp1, Hes1, Hw1. subst b.
      destruct (accumulator_push a c) as [[[b|]|] a'] eqn:Ep; [| |done].
      * destruct Hp as [-> _]. subst s1. unfold dispatch_unmatched in *. rewrite Hnc in *. simpl in Hes1.
        destruct (reader_run_events ins u1 (publish_event (decode_event sid body serial) s)
                    (es ++ [decode_event sid body serial])) as [es2 Hes2];
          [by apply (window_frames u1)|simpl; by rewrite Hes|].
        exists ((es ++ [decode_event sid body serial]) ++ es2). split; [exact Hes2|]. set_solver.
      * destruct Hstep as [-> Hl]. destruct Hp as [Ha' Hb']. eapply IH; [done| |done|exact Hes|].
        -- unfold entry_ok. rewrite Hl. split; [done|]. erewrite accumulator_push_seen by exact Ep.
           destruct Hw as [_ Hfw _]. apply Forall_cons in Hfw as [[_ Hnow] _]. lia.
        -- unfold held. rewrite Hl. simpl. change (na_bytes a') with (ra_bytes a'). rewrite Hb', <- app_assoc.
           by rewrite Heq.
    + pose proof (reader_step_other o sid c now out u s Hne) as Hl.
      destruct (reader_step serial (ReadFrame o c now out) u s) as [[b u1] s1]. simpl in *. subst b.
      destruct Hw as [_ Hfw _]. apply Forall_cons in Hfw as [[_ Hnow] _].
      specialize (Hl ltac:(lia) He). eapply IH; [done| | done | exact Hes1|].
      * unfold entry_ok in *. by rewrite Hl.
      * unfold held in *. by rewrite Hl.
Qed.

End Push.

(** C9: a push the phone sends on a session id no request uses is published as its
    decoded event, however it is cut into frames and however those are interleaved
    with frames of other session ids (live requests, other pushes, cancels),
    provided the message fits its share of the store, its frames arrive within the
    idle time limit, and no more than 64 session ids are in flight. *)
Theorem push_is_published `{ProtoCodec} (serial : string) (t0 sid : Z) (body : list byte)
    (inputs : list reader_input) (u : unmatched_map) (s : SessionInner) :
  window_ok t0 u inputs -> u !! sid = None -> (sid ∉ si_pending s) -> is_Some (si_events s) ->
  decode_cancel body = None -> zlen body + 8 <= UNMATCHED_ENTRY_BYTES ->
  concat (chunks_for sid inputs) = prefixed body ->
  exists es, si_events (reader_run serial inputs u s).2 = Some es /\ decode_event sid body serial ∈ es.
Proof.
  intros Hw Hu Hnp [es Hes] Hnc Hlen Heq. apply (push_run serial t0 sid body inputs u s es); try done.
  - unfold entry_ok. by rewrite Hu.
  - unfold prefixed. len.
  - unfold held. by rewrite Hu.
Qed.

Definition sample_frames : list reader_input :=
  [ReadFrame 7 (be_bytes 8 2 ++ [x18]) 1000 Delivered; ReadFrame 8 [x00] 1001 Delivered;
   ReadFrame 7 [x01] 1002 Delivered].

Lemma push_is_published_witness :
  exists es, si_events (@reader_run toy_codec "SN" sample_frames ∅ session_init).2 = Some es /\
             @decode_event toy_codec 7 [x18; x01] "SN" ∈ es.
Proof.
  apply (@push_is_published toy_codec "SN" 1000 7 [x18; x01] sample_frames ∅ session_init);
    try reflexivity.
  - split; [apply unmatched_ok_empty| |vm_compute; discriminate].
    repeat constructor; vm_compute; congruence.
  - apply not_elem_of_empty.
  - by exists [].
  - vm_compute; discriminate.
Defined.

(** ** A closed session stays closed *)

(** The call is past its check of the flag and may still put an id among the pending ones. *)
Definition inserting (c : session_call) : nat := match c with OpenLook _ _ _ | OpenInsert _ _ => 1%nat | _ => 0%nat end.

(** The call may still hand a frame to the writer. *)
Definition sending (c : session_call) : nat :=
  match c with OpenLook _ _ _ | OpenInsert _ _ | CancelLook _ _ _ | Handing _ _ _ _ => 1%nat | _ => 0%nat end.

(** How often the call can go on before it ends. *)
Definition remaining (c : session_call) : nat :=
  match c with
  | Forget _ => 1
  | FailClear _ => 2
  | Waiting _ => 3
  | Handing _ _ _ _ => 4
  | OpenInsert _ _ | CloseSwap => 5
  | OpenLook _ tries _ | CancelLook _ tries _ => 6 + tries
  | OpenCheck _ | CancelCheck _ => 6 + 1024
  end%nat.

Definition uploads (ls : list (option session_call)) : nat :=
  sum_list_with (fun l => if default false (is_upload <$> l) then 1%nat else 0%nat) ls.

(** From [s] to [s'] a closed session stays closed, and only its pending ids and what the
    reader delivers change. *)
Definition keeps_closed (s s' : SessionInner) : Prop :=
  si_closed s' = true /\ (si_events s = None -> si_events s' = None) /\ si_sent s' = si_sent s.

Lemma reader_step_keeps_closed `{ProtoCodec} (serial : string) (i : reader_input) (u : unmatched_map) (s : SessionInner) :
  si_closed s = true -> keeps_closed s (reader_step serial i u s).2.
Proof.
  intros Hc. assert (keeps_closed s s) as Hid by done. destruct i as [e|sid c now out]; [done|]. cbn [reader_step].
  case_bool_decide; [by destruct out|].
  destruct (reader_unmatched serial u sid c now out s) as [u' s'] eqn:E. simpl.
  assert (s' = s \/ exists b, s' = dispatch_unmatched serial sid b out s) as [->|[b ->]]; [|done|].
  { unfold reader_unmatched in E. repeat case_match; simplify_eq; eauto. }
  unfold dispatch_unmatched.
  assert (forall e, keeps_closed s (publish_event e s)) as Hp by (intros e; split_and!; [done|by simpl; intros ->|done]).
  destruct (decode_cancel b); [|apply Hp]. case_bool_decide; [by destruct out|apply Hp].
Qed.

Section Closing.
Context `{Crypto} `{ProtoCodec} (keys : SessionKeys).

Lemma draw_sid_keeps (look : nat -> Z -> session_call) (tries : nat) (s s' : SessionInner) (next : option session_call) :
  draw_sid look tries s = (next, s') ->
  (exists n, s' = set_next_sid n s) /\ (forall c, next = Some c -> exists t sid, c = look t sid /\ (t < tries)%nat) \/ next = None /\ s' = s.
Proof.
  destruct tries as [|tries]; simpl; [intros [= <- <-]; by right|]. intros [= <- <-]. left.
  split; [eauto|]. intros c [= <-]. eauto with lia.
Qed.

(** A call going on in a closed session: it adds at most the id, and hands over at most
    the frame, that it was on its way to. *)
Lemma resume_closed (cancelled : bool) (outcome : send_outcome) (c : session_call) (s s' : SessionInner)
    (next : option session_call) (handed : list frame) (p : gset Z) :
  si_closed s = true -> resume_call keys cancelled outcome c s = (next, s', handed) ->
  keeps_closed s s' /\
  (size (si_pending s' ∖ p) + default 0 (inserting <$> next) <= size (si_pending s ∖ p) + inserting c)%nat /\
  (length handed + default 0 (sending <$> next) <= sending c)%nat.
Proof.
  intros Hc. assert (forall q : gset Z, size (∅ ∖ q : gset Z) = 0%nat) as Hnil
    by (intros q; replace (∅ ∖ q : gset Z) with (∅ : gset Z) by set_solver; apply size_empty).
  assert (forall sid, size ((si_pending s ∖ {[sid]}) ∖ p) <= size (si_pending s ∖ p))%nat as Hless
    by (intros sid; apply subseteq_size; set_solver).
  assert (forall sid, size (({[sid]} ∪ si_pending s) ∖ p) <= 1 + size (si_pending s ∖ p))%nat as Hmore.
  { intros sid. transitivity (size ({[sid]} ∪ (si_pending s ∖ p))); [apply subseteq_size; set_solver|].
    rewrite size_union_alt, size_singleton. apply le_n_S, subseteq_size. set_solver. }
  destruct c as [pl|pl tries sid|pl sid|target|target tries sid| |sid|b sid flag body|b|forget]; cbn [resume_call].
  - rewrite Hc. intros [= <- <- <-]. split_and!; simpl; [done..|lia|lia].
  - case_bool_decide; [|intros [= <- <- <-]; split_and!; simpl; [done..|lia|lia]].
    destruct (draw_sid _ _ _) as [n1 s1] eqn:Ed. intros [= -> -> <-].
    apply draw_sid_keeps in Ed as [[[n ->] Hn]|[-> ->]]; [|split_and!; simpl; [done..|lia|lia]].
    destruct next as [c'|]; [destruct (Hn _ eq_refl) as (? & ? & -> & _)|]; split_and!; simpl; try done; lia.
  - specialize (Hmore sid). destruct (keys_sign keys pl); [|intros [= <- <- <-]; split_and!; simpl; [done..|lia|lia]].
    intros [= <- <- <-]. split_and!; simpl; [done..| |]; destruct cancelled; simpl; lia.
  - rewrite Hc. intros [= <- <- <-]. split_and!; simpl; [done..|lia|lia].
  - case_bool_decide; [|intros [= <- <- <-]; split_and!; simpl; [done..|lia|lia]].
    destruct (draw_sid _ _ _) as [n1 s1] eqn:Ed. intros [= -> -> <-].
    apply draw_sid_keeps in Ed as [[[n ->] Hn]|[-> ->]]; [|split_and!; simpl; [done..|lia|lia]].
    destruct next as [c'|]; [destruct (Hn _ eq_refl) as (? & ? & -> & _)|]; split_and!; simpl; try done; lia.
  - rewrite Hc. intros [= <- <- <-]. split_and!; simpl; [done..|lia|lia].
  - intros [= <- <- <-]. specialize (Hless sid). split_and!; simpl; [done..|lia|lia].
  - destruct outcome; intros [= <- <- <-]; split_and!; simpl; try done; lia.
  - destruct outcome; intros [= <- <- <-]; split_and!; simpl; try done; lia.
  - intros [= <- <- <-]. rewrite Hnil. split_and!; simpl; try done; destruct forget; simpl; lia.
Qed.

(** Every call ends: going on brings it closer to its end. *)
Lemma resume_remaining (cancelled : bool) (outcome : send_outcome) (c c' : session_call) (s s' : SessionInner) (handed : list frame) :
  resume_call keys cancelled outcome c s = (Some c', s', handed) -> (remaining c' < remaining c)%nat.
Proof.
  destruct c as [pl|pl tries sid|pl sid|target|target tries sid| |sid|b sid flag body|b|forget]; cbn [resume_call];
    try (destruct (si_closed s)); try case_bool_decide; try done.
  all: try (destruct (draw_sid _ _ _) as [n1 s1] eqn:Ed; intros [= -> -> <-];
    apply draw_sid_keeps in Ed as [[_ Hn]|[? _]]; [destruct (Hn _ eq_refl) as (? & ? & -> & ?); cbn [remaining]; lia|done]).
  all: try (destruct (keys_sign _ _)); try (destruct outcome); try done.
  all: try (destruct forget); intros [=]; subst; try (destruct cancelled); simpl; lia.
Qed.

Lemma tasks_step_closed (serial : string) (l : option session_call) (t t' : SessionTasks) (p : gset Z) :
  tasks_step keys serial l t t' -> si_closed (st_session t) = true ->
  si_closed (st_session t') = true /\ (si_events (st_session t) = None -> si_events (st_session t') = None) /\
  si_sent (st_session t) `prefix_of` si_sent (st_session t') /\
  (size (si_pending (st_session t') ∖ p) + sum_list_with inserting (st_calls t') <=
   size (si_pending (st_session t) ∖ p) + sum_list_with inserting (st_calls t))%nat /\
  (length (si_sent (st_session t')) + length (st_queue t') + sum_list_with sending (st_calls t') <=
   length (si_sent (st_session t)) + length (st_queue t) + sum_list_with sending (st_calls t) + uploads [l])%nat.
Proof.
  intros Hst Hc. destruct Hst as [c t Hs|before c after cancelled outcome next s handed t Hcs _ Hr|t|
    sid flag body bytes queue t Hw Hq _|t Hw|t|t|i u t]; cbn [st_session st_queue st_calls with_session].
  - split_and!; [done..| |]; rewrite sum_list_with_app; destruct c as [| | | | | | |[]| |]; simpl in *; try done; lia.
  - destruct (resume_closed cancelled outcome c _ _ _ _ p Hc Hr) as ((H1 & H2 & H3) & H4 & H5).
    rewrite H3, Hcs, !sum_list_with_app, length_app. simpl. split_and!; [done..| |].
    + destruct next; simpl in *; lia.
    + destruct next; simpl in *; lia.
  - rewrite !sum_list_with_app. simpl. split_and!; [done..|lia|lia].
  - rewrite Hq. simpl. split_and!; [done|done|by apply prefix_app_r|lia|]. rewrite length_app. simpl. lia.
  - simpl. split_and!; [done..|lia|lia].
  - simpl. split_and!; [done..|lia|lia].
  - simpl. split_and!; [done..|lia|lia].
  - destruct (reader_step_keeps_closed serial i u _ Hc) as (H1 & H2 & H3). rewrite H3.
    assert (size (si_pending (reader_step serial i u (st_session t)).2 ∖ p) <= size (si_pending (st_session t) ∖ p))%nat.
    { apply subseteq_size. pose proof (reader_step_pending serial i u (st_session t)). set_solver. }
    split_and!; [done..|lia|simpl; lia].
Qed.

Lemma tasks_path_closed (serial : string) (ls : list (option session_call)) (t t' : SessionTasks) (p : gset Z) :
  tasks_path keys serial ls t t' -> si_closed (st_session t) = true ->
  si_closed (st_session t') = true /\ (si_events (st_session t) = None -> si_events (st_session t') = None) /\
  si_sent (st_session t) `prefix_of` si_sent (st_session t') /\
  (size (si_pending (st_session t') ∖ p) + sum_list_with inserting (st_calls t') <=
   size (si_pending (st_session t) ∖ p) + sum_list_with inserting (st_calls t))%nat /\
  (length (si_sent (st_session t')) + length (st_queue t') + sum_list_with sending (st_calls t') <=
   length (si_sent (st_session t)) + length (st_queue t) + sum_list_with sending (st_calls t) + uploads ls)%nat.
Proof.
  induction 1 as [t|l ls t t1 t2 Hst _ IH]; intros Hc; [split_and!; [done..|lia|simpl; lia]|].
  destruct (tasks_step_closed serial l t t1 p Hst Hc) as (H1 & H2 & H3 & H4 & H5).
  destruct (IH H1) as (H1' & H2' & H3' & H4' & H5'). unfold uploads in *. simpl in *.
  split_and!; [done|auto|by etrans|lia|lia].
Qed.

End Closing.

(** ** The two descriptions of a call agree

    [open_signed], when nobody interferes, is the run of its points one after the other,
    with the writer task writing the frame as soon as it is handed over. *)
Section Alone.
Context `{Crypto} `{ProtoCodec} (keys : SessionKeys) (serial : string).

Definition leads_to (t t' : SessionTasks) : Prop := exists ls, tasks_path keys serial ls t t'.
Definition alone (s : SessionInner) (w : bool) (c : option session_call) : SessionTasks := mkTasks s [] w (option_list c).

#[local] Instance leads_to_preorder : PreOrder leads_to.
Proof.
  split; [intros t; exists []; constructor|]. intros t1 t2 t3 [ls1 H1] [ls2 H2]. exists (ls1 ++ ls2).
  induction H1; [done|]. econstructor; eauto.
Qed.

Lemma alone_resume (cancelled : bool) (outcome : send_outcome) (c : session_call) (s s' : SessionInner) (w : bool)
    (next : option session_call) (handed : list frame) :
  resume_call keys cancelled outcome c s = (next, s', handed) -> (outcome = Sent -> w = true) ->
  leads_to (alone s w (Some c)) (mkTasks s' handed w (option_list next)).
Proof.
  intros Hr Hw. exists [None]. eapply tp_step; [|apply tp_done].
  pose proof (ts_resume keys serial [] c [] cancelled outcome next s' handed (alone s w (Some c)) eq_refl) as Hs.
  simpl in Hs. rewrite app_nil_r in Hs. apply Hs; [|done]. intros Ho. left. by apply Hw.
Qed.

Lemma alone_allocate (o : send_outcome) (payload : list byte) (tries : nat) (s : SessionInner) :
  let (r, s') := allocate_sid_loop o tries s in
  leads_to (alone (draw_sid (OpenLook payload) tries s).2 true (draw_sid (OpenLook payload) tries s).1)
    (alone s' true (match r with Ok sid => Some (OpenInsert payload sid) | Err _ => None end)).
Proof.
  revert s. induction tries as [|tries IH]; intros s; simpl; [reflexivity|]. unfold next_sid.
  set (sid := wrap32 _). set (s1 := set_next_sid sid s).
  change (si_pending s) with (si_pending s1).
  destruct (bool_decide (sid ∈ si_pending s1)) eqn:Hin.
  - specialize (IH s1). destruct (allocate_sid_loop o tries s1) as [r s2]. etransitivity; [|exact IH].
    destruct (draw_sid (OpenLook payload) tries s1) as [n s3] eqn:Ed. cbn [fst snd].
    apply (alone_resume false Sent _ s1 s3 true n []); [|done]. cbn [resume_call]. by rewrite Hin, Ed.
  - apply (alone_resume false Sent (OpenLook payload tries sid) s1 s1 true (Some (OpenInsert payload sid)) []); [|done].
    cbn [resume_call]. by rewrite Hin.
Qed.

(** A send that failed: the flag, then the pending requests and the events, then the id. *)
Lemma alone_fails (sid : Z) (s s1 : SessionInner) (w : bool) :
  fail_connection s1 = fail_connection s ->
  leads_to (alone s1 w (Some (FailClear (Some sid))))
    (alone (set_pending (si_pending (fail_connection s) ∖ {[sid]}) (fail_connection s)) w None).
Proof.
  intros Hs. transitivity (alone (fail_connection s) w (Some (Forget sid))).
  - apply (alone_resume false SendTimeout (FailClear (Some sid)) s1 (fail_connection s) w (Some (Forget sid)) []); [|done].
    cbn [resume_call]. by rewrite Hs.
  - by apply (alone_resume false SendTimeout (Forget sid) _ _ w None []).
Qed.

Lemma alone_send (o : send_outcome) (sid : Z) (body : list byte) (s : SessionInner) :
  exists w, leads_to (alone s true (Some (Handing (ByOpen sid) sid 1 body)))
    (alone (match send o sid 1 body s with
            | (Err _, s) => set_pending (si_pending s ∖ {[sid]}) s
            | (Ok _, s) => s
            end) w None).
Proof.
  assert (forall o', o' <> Sent -> leads_to (alone s true (Some (Handing (ByOpen sid) sid 1 body)))
    (alone (set_pending (si_pending (fail_connection s) ∖ {[sid]}) (fail_connection s)) true None)) as Hfail.
  { intros o' Ho. etransitivity; [|apply (alone_fails sid s (set_closed true s) true); reflexivity].
    apply (alone_resume false o' _ s (set_closed true s) true (Some (FailClear (Some sid))) []); [|done].
    by destruct o'. }
  unfold send. cbn [promptly sa_meanwhile sa_outcome].
  destruct o; [|exists true; by apply (Hfail SendTimeout)..].
  destruct (encode_upstream sid 1 body) as [bytes|e] eqn:He.
  - exists true. transitivity (mkTasks s [(sid, 1, body)] true [Waiting (ByOpen sid)]).
    { by apply (alone_resume false Sent _ s s true (Some (Waiting (ByOpen sid))) [(sid, 1, body)]). }
    transitivity (alone (push_sent (sid, 1, body) s) true (Some (Waiting (ByOpen sid)))).
    { exists [None]. eapply tp_step; [|apply tp_done]. by apply (ts_writes keys serial sid 1 body bytes [] (mkTasks s [(sid, 1, body)] true [Waiting (ByOpen sid)])). }
    by apply (alone_resume false Sent (Waiting (ByOpen sid)) _ _ true None []).
  - exists false. transitivity (mkTasks s [(sid, 1, body)] true [Waiting (ByOpen sid)]).
    { by apply (alone_resume false Sent _ s s true (Some (Waiting (ByOpen sid))) [(sid, 1, body)]). }
    transitivity (alone (set_closed true s) false (Some (Waiting (ByOpen sid)))).
    { exists [None]. eapply tp_step; [|apply tp_done]. by apply (ts_write_fails keys serial (mkTasks s [(sid, 1, body)] true [Waiting (ByOpen sid)])). }
    etransitivity; [|apply (alone_fails sid s (set_closed true s) false); reflexivity].
    apply (alone_resume false (WriteFailed e) (Waiting (ByOpen sid)) _ (set_closed true s) false (Some (FailClear (Some sid))) []); [|done].
    done.
Qed.

Lemma open_signed_is_a_run (o : send_outcome) (payload : list byte) (cancelled : bool) (s : SessionInner) :
  exists w, leads_to (alone s true (Some (OpenCheck payload)))
    (alone (open_signed keys o payload cancelled s).2 w None).
Proof.
  unfold open_signed. destruct (si_closed s) eqn:Hc.
  { exists true. apply (alone_resume false Sent (OpenCheck payload) s s true None []); [|done]. cbn [resume_call]. by rewrite Hc. }
  pose proof (alone_allocate o payload 1024 s) as Ha. unfold allocate_sid.
  assert (leads_to (alone s true (Some (OpenCheck payload)))
    (alone (draw_sid (OpenLook payload) 1024 s).2 true (draw_sid (OpenLook payload) 1024 s).1)) as Hstart.
  { destruct (draw_sid (OpenLook payload) 1024 s) as [n s1] eqn:Ed.
    apply (alone_resume false Sent (OpenCheck payload) s s1 true n []); [|done]. cbn [resume_call]. by rewrite Hc, Ed. }
  destruct (allocate_sid_loop o 1024 s) as [[sid|e] s1]; [|exists true; by etransitivity].
  cbn [promptly sa_meanwhile]. set (s2 := set_pending _ s1).
  destruct (keys_sign keys payload) as [signature|e] eqn:Ek.
  2: { exists true. etransitivity; [exact Hstart|]. etransitivity; [exact Ha|].
       apply (alone_resume false Sent (OpenInsert payload sid) s1 s2 true None []); [|done]. cbn [resume_call]. by rewrite Ek. }
  assert (leads_to (alone s true (Some (OpenCheck payload)))
    (alone s2 true (Some (if cancelled then Forget sid else Handing (ByOpen sid) sid 1 (signature ++ payload))))) as Hmid.
  { etransitivity; [exact Hstart|]. etransitivity; [exact Ha|].
    apply (alone_resume cancelled Sent (OpenInsert payload sid) s1 s2 true
      (Some (if cancelled then Forget sid else Handing (ByOpen sid) sid 1 (signature ++ payload))) []); [|done]. cbn [resume_call]. by rewrite Ek. }
  destruct cancelled.
  - exists true. etransitivity; [exact Hmid|]. by apply (alone_resume false Sent (Forget sid) s2 _ true None []).
  - destruct (alone_send o sid (signature ++ payload) s2) as [w Hs]. exists w. etransitivity; [exact Hmid|].
    by destruct (send o sid 1 (signature ++ payload) s2) as [[?|?] ?].
Qed.

End Alone.

(** C10: closing is final, with every await of the calls a point where any other task may
    run: whatever starts, goes on, is read, written or fails afterwards, in any order, the
    session stays closed and a torn-down event bus stays torn down.  No call that starts
    afterwards gets past its check: it ends there, hands nothing to the writer and adds no
    id.  Only calls already past their check when the session closed can still act: they
    add at most one pending id each, and together with what was queued and with the
    frames of uploads on open requests, which are not checked, they put at most one frame
    each on the wire; their number only goes down, and each ends after boundedly many
    turns. *)
Theorem closed_is_final `{Crypto} `{ProtoCodec} (keys : SessionKeys) (serial : string)
    (ls : list (option session_call)) (t t' : SessionTasks) :
  si_closed (st_session t) = true -> tasks_path keys serial ls t t' ->
  let s := st_session t in let s' := st_session t' in
  si_closed s' = true /\ (si_events s = None -> si_events s' = None) /\
  (forall c cancelled outcome, may_start c = true -> is_upload c = false ->
     exists s'', resume_call keys cancelled outcome c s' = (None, s'', []) /\ si_pending s'' ⊆ si_pending s' /\ si_sent s'' = si_sent s') /\
  (size (si_pending s' ∖ si_pending s) + sum_list_with inserting (st_calls t') <= sum_list_with inserting (st_calls t))%nat /\
  si_sent s `prefix_of` si_sent s' /\
  (length (si_sent s') + length (st_queue t') + sum_list_with sending (st_calls t') <=
   length (si_sent s) + length (st_queue t) + sum_list_with sending (st_calls t) + uploads ls)%nat /\
  (forall cancelled outcome c c' s1 s2 handed,
     resume_call keys cancelled outcome c s1 = (Some c', s2, handed) -> (remaining c' < remaining c)%nat).
Proof.
  intros Hc Hp s s'. destruct (tasks_path_closed keys serial ls t t' (si_pending s) Hp Hc) as (H1 & H2 & H3 & H4 & H5).
  assert (size (si_pending s ∖ si_pending s) = 0)%nat as Hz by (rewrite difference_diag_L; apply size_empty).
  split_and!; [done..| |unfold s, s' in *; lia|done|done|intros *; apply resume_remaining].
  intros c cancelled outcome Hs Hu. exists (resume_call keys cancelled outcome c s').1.2.
  destruct c as [| | | | | |sid|[]| |]; try done; cbn [resume_call] in *; fold s' in H1; rewrite ?H1; split_and!; try done.
  simpl. set_solver.
Qed.

(** A call of [open_signed] that was on its way when the connection failed. *)
Definition late_open : SessionTasks := mkTasks (fail_connection session_init) [] true [OpenInsert [x0a] 7].

(** It does put its id among the pending ones and its frame on the wire. *)
Lemma late_open_goes_out :
  exists t', @tasks_path toy_crypto toy_codec (@mkSessionKeys toy_crypto [x01] [x02]) "SN" [None; None; None] late_open t' /\
    si_pending (st_session t') = {[7]} /\ length (si_sent (st_session t')) = 1%nat.
Proof.
  eexists. split.
  - eapply tp_step; [by eapply (ts_resume _ "SN" [] _ [] false Sent); [reflexivity|by right|reflexivity]|].
    eapply tp_step; [by eapply (ts_resume _ "SN" [] _ [] false Sent); [reflexivity|by left|reflexivity]|].
    eapply tp_step; [by eapply ts_writes|]. apply tp_done.
  - split; reflexivity.
Qed.

Lemma closed_is_final_witness :
  exists t', @tasks_path toy_crypto toy_codec (@mkSessionKeys toy_crypto [x01] [x02]) "SN" [Some (OpenCheck [x0b]); None] late_open t' /\
    si_closed (st_session t') = true /\ si_events (st_session t') = None /\
    (length (si_sent (st_session t')) <= 1)%nat.
Proof.
  eexists. split.
  - eapply tp_step; [by apply ts_start|].
    eapply tp_step; [by eapply (ts_resume _ "SN" [_] _ [] false Sent); [reflexivity|by right|reflexivity]|]. apply tp_done.
  - match goal with |- si_closed (st_session ?t') = _ /\ _ =>
      destruct (@closed_is_final toy_crypto toy_codec (@mkSessionKeys toy_crypto [x01] [x02]) "SN" [Some (OpenCheck [x0b]); None] late_open t')
        as (H1 & H2 & _ & _ & _ & H3 & _); [reflexivity| |]
    end.
    + eapply tp_step; [by apply ts_start|].
      eapply tp_step; [by eapply (ts_resume _ "SN" [_] _ [] false Sent); [reflexivity|by right|reflexivity]|]. apply tp_done.
    + split_and!; [exact H1|by apply H2|]. vm_compute in H3 |- *. lia.
Defined.
