(* ===== verification/Text.v ===== *)
(** * Rust string operations

    The [str] methods the program uses, on strings as their UTF-8 bytes. *)

From Stdlib Require Import Strings.String Strings.Ascii.
From S2P Require Import Prelude.

#[local] Open Scope string_scope.
#[local] Open Scope list_scope.
#[local] Open Scope Z_scope.

Definition code (c : ascii) : Z := Z.of_N (N_of_ascii c).

(** The white space characters of Unicode, by the length of their encoding. *)
Definition ws1 (a : ascii) : bool := (9 <=? code a) && (code a <=? 13) || (code a =? 32).
Definition ws2 (a b : ascii) : bool := (code a =? 0xC2) && ((code b =? 0x85) || (code b =? 0xA0)).
Definition ws3 (a b c : ascii) : bool :=
  (code a =? 0xE1) && (code b =? 0x9A) && (code c =? 0x80)
  || (code a =? 0xE2) && (code b =? 0x80) &&
     ((0x80 <=? code c) && (code c <=? 0x8A) || (code c =? 0xA8) || (code c =? 0xA9) || (code c =? 0xAF))
  || (code a =? 0xE2) && (code b =? 0x81) && (code c =? 0x9F)
  || (code a =? 0xE3) && (code b =? 0x80) && (code c =? 0x80).

(** [str::trim_start]; [rev] looks at the encodings backwards. *)
Fixpoint trim_front (rev : bool) (s : string) : string :=
  match s with
  | EmptyString => s
  | String a s1 =>
      if ws1 a then trim_front rev s1
      else match s1 with
           | EmptyString => s
           | String b s2 =>
               if (if rev then ws2 b a else ws2 a b) then trim_front rev s2
               else match s2 with
                    | EmptyString => s
                    | String c s3 =>
                        if (if rev then ws3 c b a else ws3 a b c) then trim_front rev s3 else s
                    end
           end
  end.

Fixpoint string_rev_app (s acc : string) : string :=
  match s with
  | EmptyString => acc
  | String c s => string_rev_app s (String c acc)
  end.
Definition string_rev (s : string) : string := string_rev_app s "".

(** [str::trim] *)
Definition trim (s : string) : string := string_rev (trim_front true (string_rev (trim_front false s))).

Fixpoint drop_char (c : ascii) (s : string) : string :=
  match s with
  | String d s' => if bool_decide (d = c) then drop_char c s' else s
  | EmptyString => s
  end.

(** [str::trim_end_matches] of a character. *)
Definition trim_end_matches (c : ascii) (s : string) : string := string_rev (drop_char c (string_rev s)).

(** [str::strip_prefix] *)
Fixpoint str_strip_prefix (pre s : string) : option string :=
  match pre, s with
  | EmptyString, _ => Some s
  | String a pre, String b s => if bool_decide (a = b) then str_strip_prefix pre s else None
  | String _ _, EmptyString => None
  end.

Definition starts_with (pre s : string) : bool :=
  match str_strip_prefix pre s with Some _ => true | None => false end.

Definition str_len (s : string) : Z := Z.of_nat (String.length s).

Fixpoint string_filter (f : ascii -> bool) (s : string) : string :=
  match s with
  | EmptyString => ""
  | String c s => if f c then String c (string_filter f s) else string_filter f s
  end.

Definition is_ascii_digit (c : ascii) : bool := (48 <=? code c) && (code c <=? 57).
Definition is_ascii_alphanumeric (c : ascii) : bool :=
  is_ascii_digit c || ((65 <=? code c) && (code c <=? 90)) || ((97 <=? code c) && (code c <=? 122)).

(** ** Lemmas *)

Lemma app_nil_r_str (s : string) : s +:+ "" = s.
Proof. unfold String.app. induction s as [|c s IH]; [done|]. simpl. f_equal. exact IH. Qed.

Lemma app_assoc_str (a b c : string) : (a +:+ b) +:+ c = a +:+ (b +:+ c).
Proof. unfold String.app. induction a as [|x a IH]; [done|]. simpl. f_equal. exact IH. Qed.

Lemma string_rev_app_spec (s acc : string) : string_rev_app s acc = string_rev s +:+ acc.
Proof.
  unfold string_rev. revert acc. induction s as [|c s IH]; intros acc; simpl; [done|].
  rewrite IH, (IH (String c "")), app_assoc_str. done.
Qed.

Lemma string_rev_cons (c : ascii) (s : string) : string_rev (String c s) = string_rev s +:+ String c "".
Proof. unfold string_rev at 1. simpl. by rewrite string_rev_app_spec. Qed.

Lemma string_rev_app_distr (a b : string) : string_rev (a +:+ b) = string_rev b +:+ string_rev a.
Proof.
  unfold String.app. induction a as [|x a IH]; [symmetry; apply app_nil_r_str|].
  change (append (String x a) b) with (String x (append a b)).
  rewrite !string_rev_cons. unfold String.app in *. rewrite IH. apply app_assoc_str.
Qed.

Lemma string_rev_involutive (s : string) : string_rev (string_rev s) = s.
Proof.
  induction s as [|c s IH]; [done|]. rewrite string_rev_cons, string_rev_app_distr, IH. done.
Qed.

Lemma str_strip_prefix_spec (pre s r : string) : str_strip_prefix pre s = Some r <-> s = pre +:+ r.
Proof.
  unfold String.app. revert s. induction pre as [|a pre IH]; intros s; simpl.
  - split; [by intros [= ->]|by intros ->].
  - destruct s as [|b s]; [done|]. case_bool_decide as Hab.
    + subst b. rewrite IH. split; [by intros ->|by intros [= ->]].
    + split; [done|]. intros [= -> _]. done.
Qed.

Lemma starts_with_spec (pre s : string) : starts_with pre s = true <-> exists r, s = pre +:+ r.
Proof.
  unfold starts_with. destruct (str_strip_prefix pre s) as [r|] eqn:E.
  - apply str_strip_prefix_spec in E. naive_solver.
  - split; [done|]. intros [r Hr]. apply str_strip_prefix_spec in Hr. congruence.
Qed.
