(* ===== verification/Paths.v ===== *)
(** * Unix paths

    [std::path::Path] as the sync engine uses it: a path is its string, and
    [components] is the normalising iterator through which paths are compared and
    stripped.  Files are identified by their components (Fs.v). *)

From Stdlib Require Import Strings.String Strings.Ascii.
From S2P Require Import Prelude.

#[local] Open Scope string_scope.
#[local] Open Scope list_scope.
#[local] Open Scope Z_scope.

Abbreviation path := string.

Inductive Component :=
  | RootDir
  | CurDir
  | ParentDir
  | Normal (name : string).

#[export] Instance Component_eq_dec : EqDecision Component.
Proof. solve_decision. Defined.

#[export] Instance Component_countable : Countable Component.
Proof.
  refine (inj_countable'
    (fun c => match c with
              | RootDir => inl (inl ()) | CurDir => inl (inr ())
              | ParentDir => inr (inl ()) | Normal s => inr (inr s) end)
    (fun x => match x with
              | inl (inl _) => RootDir | inl (inr _) => CurDir
              | inr (inl _) => ParentDir | inr (inr s) => Normal s end) _).
  by intros [].
Defined.

(** ** Splitting at slashes *)

Definition slash : ascii := "/"%char.

(** [str::split('/')] *)
Fixpoint split_slash (s : string) : list string :=
  match s with
  | EmptyString => [""]
  | String c s =>
      if bool_decide (c = slash) then "" :: split_slash s
      else match split_slash s with
           | seg :: rest => String c seg :: rest
           | [] => [String c ""]
           end
  end.

(** [[&str]::join("/")] *)
Fixpoint join_slash (segs : list string) : string :=
  match segs with
  | [] => ""
  | [s] => s
  | s :: segs => s +:+ String slash (join_slash segs)
  end.

Fixpoint no_slash (s : string) : bool :=
  match s with
  | EmptyString => true
  | String c s => negb (bool_decide (c = slash)) && no_slash s
  end.

Definition starts_with_slash (s : string) : bool :=
  match s with String c _ => bool_decide (c = slash) | EmptyString => false end.

Fixpoint ends_with_slash (s : string) : bool :=
  match s with
  | EmptyString => false
  | String c EmptyString => bool_decide (c = slash)
  | String _ s => ends_with_slash s
  end.

(** ** Components *)

(** Segments the iterator passes over. *)
Definition trivial_seg (s : string) : bool := bool_decide (s = "" \/ s = ".").

Definition seg_component (s : string) : option Component :=
  if trivial_seg s then None
  else if bool_decide (s = "..") then Some ParentDir else Some (Normal s).

Definition body (segs : list string) : list Component := omap seg_component segs.
#[global] Arguments body : simpl never.

(** [Path::is_absolute] (Unix) *)
Definition is_absolute (p : path) : bool := starts_with_slash p.

(** The component a path starts with other than by a plain segment, and the
    segments after it. *)
Definition path_head (p : path) : list Component * list string :=
  match split_slash p with
  | seg :: segs =>
      if is_absolute p then ([RootDir], segs)
      else if bool_decide (seg = ".") then ([CurDir], segs)
      else ([], seg :: segs)
  | [] => ([], [])
  end.

(** [Path::components] *)
Definition components (p : path) : list Component := (path_head p).1 ++ body (path_head p).2.

(** Drop segments until [n] components are gone, and the trivial ones after them. *)
Fixpoint drop_components (n : nat) (segs : list string) : list string :=
  match segs with
  | [] => []
  | s :: rest =>
      if trivial_seg s then drop_components n rest
      else match n with
           | O => segs
           | S n => drop_components n rest
           end
  end.

Definition trim_trivial_end (segs : list string) : list string :=
  reverse (drop_components 0 (reverse segs)).

(** [Path::strip_prefix] *)
Definition strip_prefix (p base : path) : option path :=
  let cs := components p in
  let bs := components base in
  if decide (bs `prefix_of` cs) then
    let (head, segs) := path_head p in
    match bs with
    | [] => Some (if decide (head = []) then join_slash (trim_trivial_end segs) else p)
    | _ => Some (join_slash (trim_trivial_end (drop_components (length bs - length head)%nat segs)))
    end
  else None.

(** [Path::join] *)
Definition path_join (p rel : path) : path :=
  if is_absolute rel then rel
  else if negb (bool_decide (p = "")) && negb (ends_with_slash p) then p +:+ String slash rel
  else p +:+ rel.

(** The components of [Path::parent]. *)
Definition parent_key (k : list Component) : option (list Component) :=
  match reverse k with
  | RootDir :: _ | [] => None
  | _ :: r => Some (reverse r)
  end.

Definition is_normal (c : Component) : bool :=
  match c with Normal _ => true | _ => false end.

(** ** Lemmas on splitting *)

Lemma split_slash_ne (s : string) : split_slash s <> [].
Proof. destruct s as [|c s]; simpl; [done|]. case_bool_decide; [done|]. by destruct (split_slash s). Qed.

Lemma split_slash_app (a b : string) :
  split_slash (a +:+ String slash b) = split_slash a ++ split_slash b.
Proof.
  induction a as [|c a IH]; simpl; [done|].
  case_bool_decide; [by rewrite IH|]. rewrite IH.
  destruct (split_slash a) eqn:E; [by destruct (split_slash_ne a)|done].
Qed.

Lemma split_slash_single (s : string) : no_slash s = true -> split_slash s = [s].
Proof.
  induction s as [|c s IH]; simpl; [done|]. case_bool_decide; simpl; [done|].
  intros H1. by rewrite IH.
Qed.

Lemma split_slash_no_slash (s : string) : Forall (fun x => no_slash x = true) (split_slash s).
Proof.
  induction s as [|c s IH]; simpl; [by repeat constructor|].
  case_bool_decide as Hc; [by constructor|].
  destruct (split_slash s) as [|x l]; [repeat constructor; simpl; by rewrite bool_decide_eq_false_2|].
  apply Forall_cons in IH as [Hx Hl]. constructor; [|done]. simpl. by rewrite bool_decide_eq_false_2.
Qed.

Lemma split_join_slash (l : list string) :
  l <> [] -> Forall (fun x => no_slash x = true) l -> split_slash (join_slash l) = l.
Proof.
  intros Hne Hl. induction l as [|x l IH]; [done|]. apply Forall_cons in Hl as [Hx Hl].
  destruct l as [|y l]; [by apply split_slash_single|].
  change (join_slash (x :: y :: l)) with (x +:+ String slash (join_slash (y :: l))).
  rewrite split_slash_app, IH, split_slash_single by done. done.
Qed.

Lemma join_split_slash (s : string) : join_slash (split_slash s) = s.
Proof.
  induction s as [|c s IH]; simpl; [done|].
  destruct (split_slash s) as [|x l] eqn:E; [by destruct (split_slash_ne s)|].
  case_bool_decide as Hc.
  - subst c. change (join_slash ("" :: x :: l)) with (String slash (join_slash (x :: l))). by rewrite IH.
  - destruct l; simpl in *; by rewrite <- IH.
Qed.

Lemma body_app (a b : list string) : body (a ++ b) = body a ++ body b.
Proof. apply omap_app. Qed.

Lemma seg_component_None (s : string) : seg_component s = None <-> trivial_seg s = true.
Proof. unfold seg_component. by repeat case_match. Qed.

Lemma body_drop_components (n : nat) (segs : list string) :
  body (drop_components n segs) = drop n (body segs).
Proof.
  revert n. induction segs as [|s segs IH]; intros n; cbn [drop_components]; [by destruct n|].
  unfold body at 2. cbn [omap list_omap]. unfold seg_component at 1.
  destruct (trivial_seg s) eqn:E; [apply IH|].
  assert (forall c, seg_component s = Some c ->
    body (match n with O => s :: segs | S n => drop_components n segs end) = drop n (c :: body segs)) as Hc.
  { intros c Hs. destruct n; simpl; [|apply IH]. unfold body. simpl. by rewrite Hs. }
  unfold seg_component in Hc. rewrite E in Hc. case_bool_decide; by apply Hc.
Qed.

Lemma body_reverse (segs : list string) : body (reverse segs) = reverse (body segs).
Proof.
  induction segs as [|s segs IH]; [done|].
  rewrite reverse_cons, body_app, IH. unfold body at 2 3. simpl.
  destruct (seg_component s); simpl; [by rewrite reverse_cons|by rewrite app_nil_r].
Qed.

Lemma body_trim_trivial_end (segs : list string) : body (trim_trivial_end segs) = body segs.
Proof.
  unfold trim_trivial_end. by rewrite body_reverse, body_drop_components, body_reverse, drop_0, reverse_involutive.
Qed.

(** ** Components of joined and stripped paths *)

Lemma components_slash (q x : string) :
  components (q +:+ String slash x) = components (q +:+ String slash "") ++ body (split_slash x).
Proof.
  unfold components, path_head. rewrite !split_slash_app.
  destruct (split_slash q) as [|seg segs] eqn:E; [by destruct (split_slash_ne q)|]. simpl.
  assert (is_absolute (q +:+ String slash x) = is_absolute (q +:+ String slash "")) as -> by by destruct q.
  assert (body [""] = []) as Hb by done.
  destruct (is_absolute _); [|case_bool_decide]; simpl; rewrite ?body_app, ?Hb, ?app_nil_r; try done;
    change (seg :: segs ++ split_slash x) with ((seg :: segs) ++ split_slash x);
    change (seg :: segs ++ [""]) with ((seg :: segs) ++ [""]); by rewrite !body_app, Hb, app_nil_r.
Qed.

Lemma components_trailing_slash (q : string) : q <> "" -> components (q +:+ String slash "") = components q.
Proof.
  intros Hq. unfold components, path_head. rewrite split_slash_app.
  destruct (split_slash q) as [|seg segs] eqn:E; [by destruct (split_slash_ne q)|]. simpl.
  assert (is_absolute (q +:+ String slash "") = is_absolute q) as -> by by destruct q.
  assert (body [""] = []) as Hb by done.
  destruct (is_absolute _); [|case_bool_decide]; simpl; rewrite ?body_app, ?Hb, ?app_nil_r; try done;
    change (seg :: segs ++ [""]) with ((seg :: segs) ++ [""]); by rewrite body_app, Hb, app_nil_r.
Qed.

Lemma ends_with_slash_split (p : string) :
  ends_with_slash p = true -> exists q, p = q +:+ String slash "".
Proof.
  induction p as [|c p IH]; [done|]. destruct p as [|c' p].
  - simpl. intros ->%bool_decide_eq_true. by exists "".
  - intros (q & Hq)%IH. exists (String c q). simpl. by rewrite Hq.
Qed.

Lemma app_slash (q x : string) : (q +:+ String slash "") +:+ x = q +:+ String slash x.
Proof. unfold String.app. induction q as [|c q IH]; [done|]. simpl. f_equal. exact IH. Qed.

(** A path of plain segments only, as [strip_prefix] leaves it. *)
Definition plain (p : path) : Prop := path_head p = ([], split_slash p).

Lemma components_join (p rel : path) :
  plain rel -> p <> "" -> components (path_join p rel) = components p ++ components rel.
Proof.
  intros Hr Hp. unfold path_join.
  assert (is_absolute rel = false) as ->.
  { unfold plain, path_head in Hr. destruct (split_slash rel) eqn:E; [by destruct (split_slash_ne rel)|].
    by destruct (is_absolute rel). }
  assert (components rel = body (split_slash rel)) as ->.
  { unfold components. by rewrite Hr. }
  rewrite bool_decide_eq_false_2 by done. simpl.
  destruct (ends_with_slash p) eqn:He; simpl.
  - apply ends_with_slash_split in He as [q ->]. rewrite app_slash. apply components_slash.
  - by rewrite components_slash, components_trailing_slash.
Qed.

Lemma drop_components_suffix (n : nat) (segs : list string) : drop_components n segs `suffix_of` segs.
Proof.
  revert n. induction segs as [|s segs IH]; intros n; simpl; [done|].
  destruct (trivial_seg s); [by apply suffix_cons_r|]. destruct n; [done|]. by apply suffix_cons_r.
Qed.

Lemma drop_components_head (n : nat) (segs : list string) :
  match drop_components n segs with [] => True | x :: _ => trivial_seg x = false end.
Proof.
  revert n. induction segs as [|s segs IH]; intros n; simpl; [done|].
  destruct (trivial_seg s) eqn:E; [apply IH|]. destruct n; [done|apply IH].
Qed.

Lemma drop_components_last (segs : list string) (x : string) :
  trivial_seg x = false -> exists l, drop_components 0 (segs ++ [x]) = l ++ [x].
Proof.
  intros Hx. induction segs as [|s segs IH]; simpl; [rewrite Hx; by exists []|].
  destruct (trivial_seg s); [done|]. by exists (s :: segs).
Qed.

Lemma trim_trivial_end_cons (x : string) (segs : list string) :
  trivial_seg x = false -> exists l, trim_trivial_end (x :: segs) = x :: l.
Proof.
  intros Hx. unfold trim_trivial_end. rewrite reverse_cons.
  destruct (drop_components_last (reverse segs) x Hx) as [l ->].
  exists (reverse l). by rewrite reverse_snoc.
Qed.

Lemma trim_trivial_end_no_slash (segs : list string) :
  Forall (fun x => no_slash x = true) segs -> Forall (fun x => no_slash x = true) (trim_trivial_end segs).
Proof.
  intros Hl. unfold trim_trivial_end. apply Forall_reverse.
  destruct (drop_components_suffix 0 (reverse segs)) as [k Hk].
  apply Forall_reverse in Hl. rewrite Hk in Hl. by apply Forall_app in Hl as [_ Hl].
Qed.

Lemma join_plain (x : string) (l : list string) :
  trivial_seg x = false -> Forall (fun x => no_slash x = true) (x :: l) ->
  path_head (join_slash (x :: l)) = ([], x :: l).
Proof.
  intros Hx Hl. unfold path_head. rewrite split_join_slash by done.
  assert (is_absolute (join_slash (x :: l)) = false) as ->.
  { apply Forall_cons in Hl as [Hn _]. unfold trivial_seg in Hx. apply bool_decide_eq_false in Hx.
    destruct x as [|c x]; [naive_solver|]. simpl in Hn. destruct (bool_decide (c = slash)) eqn:E; [done|].
    destruct l; simpl; by rewrite E. }
  unfold trivial_seg in Hx. apply bool_decide_eq_false in Hx. rewrite bool_decide_eq_false_2; naive_solver.
Qed.

(** The tail of a path left of trivial segments is plain. *)
Lemma stripped_plain (segs : list string) :
  Forall (fun x => no_slash x = true) segs ->
  match segs with [] => True | x :: _ => trivial_seg x = false end ->
  plain (join_slash (trim_trivial_end segs)) /\
  components (join_slash (trim_trivial_end segs)) = body segs.
Proof.
  intros Hn Hh. destruct segs as [|x l]; [done|].
  destruct (trim_trivial_end_cons x l Hh) as [l' Hl].
  apply trim_trivial_end_no_slash in Hn. rewrite Hl in Hn |- *.
  pose proof (join_plain x l' Hh Hn) as Hp. split.
  - unfold plain. rewrite Hp, split_join_slash by done. done.
  - unfold components. rewrite Hp. simpl. by rewrite <- (body_trim_trivial_end (x :: l)), Hl.
Qed.

Lemma path_head_cases (p : path) :
  (exists segs, path_head p = ([RootDir], segs) /\ is_absolute p = true) \/
  (exists segs, path_head p = ([CurDir], segs) /\ is_absolute p = false) \/
  (plain p /\ is_absolute p = false).
Proof.
  unfold plain, path_head. destruct (split_slash p) as [|s l] eqn:E; [by destruct (split_slash_ne p)|].
  destruct (is_absolute p); [eauto|]. case_bool_decide; eauto 10.
Qed.

Lemma path_head_no_slash (p : path) : Forall (fun x => no_slash x = true) (path_head p).2.
Proof.
  pose proof (split_slash_no_slash p) as Hn. unfold path_head.
  destruct (split_slash p) as [|s l]; [done|].
  apply Forall_cons in Hn as [Hs Hl]. repeat case_match; simpl; auto.
Qed.

(** [strip_prefix] is exact: the rest of the path, component by component. *)
Lemma strip_prefix_components (p base r : path) :
  strip_prefix p base = Some r -> components p = components base ++ components r /\
    (plain r \/ components base = []).
Proof.
  unfold strip_prefix. case_decide as Hpre; [|done]. destruct Hpre as [k Hk].
  destruct (path_head p) as [head segs] eqn:Hh. pose proof (path_head_no_slash p) as Hn. rewrite Hh in Hn. simpl in Hn.
  assert (components p = head ++ body segs) as Hc by (unfold components; by rewrite Hh).
  destruct (components base) as [|b bs] eqn:Hb.
  - intros [= <-]. split; [|by right]. simpl. case_decide as Hhead; [|done]. subst head.
    destruct (path_head_cases p) as [(x1 & He & _)|[(x1 & He & _)|[Hpl Ha]]]; [congruence..|].
    unfold plain in Hpl. rewrite Hh in Hpl. injection Hpl as ->.
    destruct (decide (p = "")) as [->|Hne]; [done|].
    rewrite Hc. symmetry. apply stripped_plain; [done|].
    unfold path_head in Hh. rewrite Ha in Hh. destruct (split_slash p) as [|s l] eqn:E; [done|].
    case_bool_decide as Hs; [done|]. unfold trivial_seg. apply bool_decide_eq_false. intros [-> | ->]; [|done].
    pose proof (join_split_slash p) as Hj. rewrite E in Hj. destruct l as [|y l]; [done|].
    rewrite <- Hj in Ha. done.
  - intros [= <-].
    set (T := drop_components _ segs).
    assert (Forall (fun x => no_slash x = true) T) as HnT.
    { destruct (drop_components_suffix (length (b :: bs) - length head) segs) as [k' Hk'].
      rewrite Hk' in Hn. by apply Forall_app in Hn as [_ Hn]. }
    destruct (stripped_plain T HnT) as [Hpl Hcomp]; [apply drop_components_head|].
    split; [|by left]. rewrite Hcomp. unfold T. rewrite body_drop_components.
    change (S (length bs)) with (length (b :: bs)).
    assert (drop (length (b :: bs) - length head) (body segs) = drop (length (b :: bs)) (components p)) as ->.
    { rewrite Hc. destruct (path_head_cases p) as [(x1 & He & _)|[(x1 & He & _)|[He _]]]; unfold plain in *;
        rewrite Hh in He; injection He as -> ->; simpl; by rewrite ?Nat.sub_0_r. }
    rewrite Hk, drop_app_length. done.
Qed.

Lemma strip_prefix_is_Some (p base : path) :
  is_Some (strip_prefix p base) <-> components base `prefix_of` components p.
Proof.
  unfold strip_prefix. case_decide; [|split; [by intros []|done]].
  split; [done|]. intros _. destruct (path_head p). destruct (components base); eauto.
Qed.
