(* ===== verification/Fs.v ===== *)
(** * The local file system and its faults

    The sync engine's effects on the disk, as a state monad over a file system, a
    stream of faults and a stream of random numbers.  Each call to the operating
    system takes the next fault: it may go through, fail (after writing some bytes,
    for a write), or the process may die there.  A program ends by returning or
    dead; [io] programs are therefore run against every way the system can fail. *)

From Stdlib Require Import Strings.String.
From stdpp Require Import gmap.
From S2P Require Import Prelude Errors Paths.

(** ** Files *)

Abbreviation key := (list Component).

Inductive node :=
  | File (content : list byte)
  | Dir.

#[export] Instance node_eq_dec : EqDecision node.
Proof. solve_decision. Defined.

Abbreviation fs := (gmap key node).

(** [std::io::Error]: the kinds the code tells apart, with the system's text. *)
Inductive io_kind := KNotFound | KAlreadyExists | KOther.
Record io_error := mkIoError { io_kind_of : io_kind; io_text : string }.

Definition err_not_found : io_error := mkIoError KNotFound "No such file or directory (os error 2)".
Definition err_exists : io_error := mkIoError KAlreadyExists "File exists (os error 17)".
Definition err_is_dir : io_error := mkIoError KOther "Is a directory (os error 21)".
Definition err_not_dir : io_error := mkIoError KOther "Not a directory (os error 20)".

(** ** The monad *)

Inductive fault :=
  | Pass
  | Fails (written : nat) (text : string)
  | Crash (written : nat).

Record world := mkWorld { w_fs : fs; w_faults : list fault; w_rand : list Z }.

Inductive outcome (A : Type) :=
  | Ret (a : A)
  | Dead.
Arguments Ret {A} a.
Arguments Dead {A}.

Definition io (A : Type) : Type := world -> outcome A * world.

#[export] Instance io_ret : MRet io := fun A a w => (Ret a, w).
#[export] Instance io_bind : MBind io := fun A B k m w =>
  match m w with
  | (Ret a, w) => k a w
  | (Dead, w) => (Dead, w)
  end.

(** Sequencing, and sequencing that returns early on an error (the [?] operator). *)
Notation "'let*' x ':=' m 'in' k" := (mbind (M := io) (fun x => k) m)
  (at level 10, x name, m at level 150, k at level 200) : hs_scope.
Notation "'let*?' x ':=' m 'in' k" :=
  (mbind (M := io) (fun r => match r with Ok x => k | Err e => mret (M := io) (Err e) end) m)
  (at level 10, x name, m at level 150, k at level 200) : hs_scope.

Definition io_ok {A} (a : A) : io (Res A) := mret (Ok a).
Definition io_err {A} (e : Error) : io (Res A) := mret (Err e).

(** [Result::map_err] with an effectful handler. *)
Definition io_map_err {A} (h : io_error -> io Error) (m : io (result io_error A)) : io (Res A) :=
  let* r := m in
  match r with
  | Ok a => io_ok a
  | Err e => let* e := h e in io_err e
  end.

(** One call to the system: [op] is its effect, [partial] what it leaves when it
    fails or the process dies in it. *)
Definition syscall {A} (op : fs -> result io_error A * fs) (partial : nat -> fs -> fs)
  : io (result io_error A) := fun w =>
  match w_faults w with
  | Fails n text :: fl => (Ret (Err (mkIoError KOther text)), mkWorld (partial n (w_fs w)) fl (w_rand w))
  | Crash n :: fl => (Dead, mkWorld (partial n (w_fs w)) fl (w_rand w))
  | [] => let (r, f) := op (w_fs w) in (Ret r, mkWorld f [] (w_rand w))
  | Pass :: fl => let (r, f) := op (w_fs w) in (Ret r, mkWorld f fl (w_rand w))
  end.

(** [rand::random::<u64>()] *)
Definition random_u64 : io Z := fun w =>
  match w_rand w with
  | r :: rs => (Ret r, mkWorld (w_fs w) (w_faults w) rs)
  | [] => (Ret 0, w)
  end.

(** ** Operations of [std::fs] *)

Definition untouched (n : nat) (f : fs) : fs := f.

(** [Path::exists]: an error counts as "no". *)
Definition path_exists (p : path) : io bool :=
  let* r := syscall (fun f => (Ok (bool_decide (is_Some (f !! components p))), f)) untouched in
  mret (match r with Ok b => b | Err _ => false end).

Definition is_dir (p : path) : io bool :=
  let* r := syscall (fun f => (Ok (bool_decide (f !! components p = Some Dir)), f)) untouched in
  mret (match r with Ok b => b | Err _ => false end).

(** The directories from the root (or start) down to a key. *)
Fixpoint prefixes_of (k : key) : list key :=
  match k with
  | [] => []
  | c :: k => [c] :: (cons c <$> prefixes_of k)
  end.

Definition make_dirs (ks : list key) (f : fs) : fs :=
  foldl (fun f k => match f !! k with None => <[k := Dir]> f | Some _ => f end) f ks.

Definition create_dir_all (k : key) : io (result io_error unit) :=
  syscall (fun f =>
      if existsb (fun k => match f !! k with Some (File _) => true | _ => false end) (prefixes_of k)
      then (Err err_not_dir, f) else (Ok (), make_dirs (prefixes_of k) f))
    (fun n f => make_dirs (take n (prefixes_of k)) f).

(** [File::create]: create or truncate. *)
Definition file_create (p : path) : io (result io_error unit) :=
  syscall (fun f => match f !! components p with
                    | Some Dir => (Err err_is_dir, f)
                    | _ => (Ok (), <[components p := File []]> f)
                    end) untouched.

(** [OpenOptions::create_new] *)
Definition file_create_new (p : path) : io (result io_error unit) :=
  syscall (fun f => match f !! components p with
                    | Some _ => (Err err_exists, f)
                    | None => (Ok (), <[components p := File []]> f)
                    end) untouched.

Definition append_bytes (p : path) (bytes : list byte) (f : fs) : fs :=
  match f !! components p with
  | Some (File c) => <[components p := File (c ++ bytes)]> f
  | _ => f
  end.

Definition write_all (p : path) (bytes : list byte) : io (result io_error unit) :=
  syscall (fun f => (Ok (), append_bytes p bytes f)) (fun n f => append_bytes p (take n bytes) f).

Definition sync_all (p : path) : io (result io_error unit) := syscall (fun f => (Ok (), f)) untouched.

Definition set_permissions (p : path) : io (result io_error unit) :=
  syscall (fun f => (match f !! components p with Some _ => Ok () | None => Err err_not_found end, f)) untouched.

(** [fs::rename] of a regular file, replacing a file at the destination. *)
Definition rename_file (p q : path) : io (result io_error unit) :=
  syscall (fun f =>
    match f !! components p, f !! components q with
    | None, _ => (Err err_not_found, f)
    | Some Dir, _ | _, Some Dir => (Err err_is_dir, f)
    | Some (File c), _ => (Ok (), <[components q := File c]> (delete (components p) f))
    end) untouched.

Definition remove_file (p : path) : io (result io_error unit) :=
  syscall (fun f =>
    match f !! components p with
    | None => (Err err_not_found, f)
    | Some Dir => (Err err_is_dir, f)
    | Some (File _) => (Ok (), delete (components p) f)
    end) untouched.

Definition read_file (p : path) : io (result io_error (list byte)) :=
  syscall (fun f => (match f !! components p with
                     | Some (File c) => Ok c
                     | Some Dir => Err err_is_dir
                     | None => Err err_not_found
                     end, f)) untouched.

(** [let _ = fs::remove_file(..)] *)
Definition remove_quietly (p : path) : io () := let* _ := remove_file p in mret ().

(** ** Serialisation

    [serde_json] is a third-party crate: what it writes and reads back. *)
Class Json (A : Type) := {
  to_json : A -> result string (list byte);
  from_json : list byte -> result string A
}.

(** What it documents of the types stored: reading back what was written. *)
Class JsonRoundTrip (A : Type) `{Json A} :=
  json_round_trip : forall (a : A) (bs : list byte), to_json a = Ok bs -> from_json bs = Ok a.
