(* ===== verification/FsLogic.v ===== *)
(** * Reasoning about programs that can fail anywhere

    [triple P m Q D]: from a file system satisfying [P], under any faults and any
    random numbers, [m] either returns [a] with [Q a] of the file system, or dies
    with [D] of it. *)

From stdpp Require Import gmap.
From S2P Require Import Prelude Errors Paths Fs.

Definition triple {A : Type} (P : fs -> Prop) (m : io A) (Q : A -> fs -> Prop) (D : fs -> Prop) : Prop :=
  forall w, P (w_fs w) ->
    match m w with
    | (Ret a, w') => Q a (w_fs w')
    | (Dead, w') => D (w_fs w')
    end.

Section Rules.
Context {A B : Type}.
Implicit Types (P D : fs -> Prop).

Lemma triple_conseq P P' (m : io A) (Q Q' : A -> fs -> Prop) D D' :
  triple P' m Q' D' -> (forall f, P f -> P' f) -> (forall a f, Q' a f -> Q a f) ->
  (forall f, D' f -> D f) -> triple P m Q D.
Proof.
  intros Ht HP HQ HD w Hw. specialize (Ht w (HP _ Hw)). destruct (m w) as [[a|] w']; auto.
Qed.

Lemma triple_ret P (a : A) (Q : A -> fs -> Prop) D :
  (forall f, P f -> Q a f) -> triple P (mret a) Q D.
Proof. intros HP w Hw. simpl. auto. Qed.

Lemma triple_bind P (m : io A) (k : A -> io B) (R : A -> fs -> Prop) (Q : B -> fs -> Prop) D :
  triple P m R D -> (forall a, triple (R a) (k a) Q D) -> triple P (m ≫= k) Q D.
Proof.
  intros Hm Hk w Hw. specialize (Hm w Hw). unfold mbind, io_bind.
  destruct (m w) as [[a|] w']; [|done]. by apply Hk.
Qed.

(** The facts a state keeps at all times can be carried along. *)
Lemma triple_pre P (m : io A) (Q : A -> fs -> Prop) D : (forall f, P f -> triple (fun g => g = f) m Q D) -> triple P m Q D.
Proof. intros Ht w Hw. by apply (Ht _ Hw). Qed.

Lemma triple_pure (X : Prop) P (m : io A) (Q : A -> fs -> Prop) D :
  (forall f, P f -> X) -> (X -> triple P m Q D) -> triple P m Q D.
Proof. intros Hx Ht w Hw. apply (Ht (Hx _ Hw) w Hw). Qed.

End Rules.

Lemma triple_syscall {A : Type} (P : fs -> Prop) (op : fs -> result io_error A * fs) (partial : nat -> fs -> fs)
    (Q : result io_error A -> fs -> Prop) (D : fs -> Prop) :
  (forall f, P f -> Q (op f).1 (op f).2) ->
  (forall f n text, P f -> Q (Err (mkIoError KOther text)) (partial n f)) ->
  (forall f n, P f -> D (partial n f)) ->
  triple P (syscall op partial) Q D.
Proof.
  intros Hop Hf Hd w Hw. unfold syscall. specialize (Hop _ Hw).
  destruct (w_faults w) as [|[|n t|n] fl]; simpl.
  - by destruct (op (w_fs w)).
  - by destruct (op (w_fs w)).
  - by apply Hf.
  - by apply Hd.
Qed.

Lemma triple_random (P : fs -> Prop) (Q : Z -> fs -> Prop) (D : fs -> Prop) : (forall n f, P f -> Q n f) -> triple P random_u64 Q D.
Proof. intros HQ w Hw. unfold random_u64. destruct (w_rand w); simpl; by apply HQ. Qed.

Lemma triple_map_err {A : Type} (P D : fs -> Prop) (h : io_error -> io Error) (m : io (result io_error A))
    (R : result io_error A -> fs -> Prop) (Q : Res A -> fs -> Prop) :
  triple P m R D -> (forall a f, R (Ok a) f -> Q (Ok a) f) ->
  (forall e, triple (R (Err e)) (h e) (fun e f => Q (Err e) f) D) ->
  triple P (io_map_err h m) Q D.
Proof.
  intros Hm HO HE. unfold io_map_err. eapply triple_bind; [exact Hm|]. intros [a|e].
  - apply triple_ret, HO.
  - eapply triple_bind; [apply HE|]. intros e'. by apply triple_ret.
Qed.


(** Two file systems that differ at most on the keys of [K]. *)
Definition only_on (K : key -> Prop) (f g : fs) : Prop := forall k, ~ K k -> g !! k = f !! k.

Section OnlyOn.
Context (K : key -> Prop).

#[export] Instance only_on_preorder : PreOrder (only_on K).
Proof. split; [done|]. intros a b c Hab Hbc k Hk. by rewrite Hbc, Hab. Qed.

Lemma only_on_insert (f : fs) (k : key) (n : node) : K k -> only_on K f (<[k := n]> f).
Proof. intros Hk k' Hk'. apply lookup_insert_ne. congruence. Qed.

Lemma only_on_delete (f : fs) (k : key) : K k -> only_on K f (delete k f).
Proof. intros Hk k' Hk'. apply lookup_delete_ne. congruence. Qed.

Lemma only_on_append (p : path) (bytes : list byte) (f : fs) : K (components p) -> only_on K f (append_bytes p bytes f).
Proof. intros Hk. unfold append_bytes. repeat case_match; [by apply only_on_insert|done..]. Qed.

End OnlyOn.

Lemma only_on_weaken (K K' : key -> Prop) (f g : fs) :
  (forall k, K k -> K' k) -> only_on K f g -> only_on K' f g.
Proof. intros HK Hfg k Hk. apply Hfg. auto. Qed.

(** ** Single operations *)

Section Ops.
Implicit Types (D : fs -> Prop).

(** A call that only looks. *)
Lemma triple_exists (P : fs -> Prop) (p : path) (Q : bool -> fs -> Prop) D :
  (forall f, P f -> Q true f \/ f !! components p = None) -> (forall f, P f -> Q false f) -> (forall f, P f -> D f) ->
  triple P (path_exists p) Q D.
Proof.
  intros HT HF HD. unfold path_exists.
  apply triple_bind with (R := fun r f => Q (match r with Ok b => b | Err _ => false end) f).
  - apply triple_syscall; [|naive_solver..]. intros f Hf. simpl. case_bool_decide as Hs; [|auto].
    destruct (HT f Hf) as [|Hn]; [done|]. rewrite Hn in Hs. by destruct Hs.
  - intros r. by apply triple_ret.
Qed.

Lemma make_dirs_spec (ks : list key) (f : fs) (k : key) :
  make_dirs ks f !! k = match f !! k with None => if bool_decide (k ∈ ks) then Some Dir else None | s => s end.
Proof.
  unfold make_dirs. revert f. induction ks as [|x ks IH]; intros f; cbn [foldl].
  { rewrite bool_decide_eq_false_2 by set_solver. by destruct (f !! k). }
  rewrite IH. destruct (f !! x) as [n|] eqn:Ex.
  - destruct (f !! k) eqn:Ek; [done|]. destruct (decide (k = x)) as [->|]; [congruence|].
    case_bool_decide as H1; case_bool_decide as H2; set_solver.
  - destruct (decide (k = x)) as [->|Hne].
    + rewrite lookup_insert_eq, Ex. rewrite bool_decide_eq_true_2 by set_solver. done.
    + rewrite lookup_insert_ne by done. destruct (f !! k); [done|].
      case_bool_decide as H1; case_bool_decide as H2; set_solver.
Qed.

(** Directories that exist already are left alone. *)
Lemma make_dirs_noop (ks : list key) (f : fs) : Forall (fun k => is_Some (f !! k)) ks -> make_dirs ks f = f.
Proof.
  intros Hall. apply map_eq. intros k. rewrite make_dirs_spec. destruct (f !! k) eqn:E; [done|].
  case_bool_decide as Hk; [|done]. rewrite Forall_forall in Hall. destruct (Hall k Hk). congruence.
Qed.

Lemma make_dirs_only (K : key -> Prop) (ks : list key) (f : fs) :
  (forall k, k ∈ ks -> K k) -> only_on K f (make_dirs ks f).
Proof.
  intros HK k Hk. rewrite make_dirs_spec. destruct (f !! k); [done|].
  rewrite bool_decide_eq_false_2; [done|]. auto.
Qed.

Lemma triple_dirs_exist (P : fs -> Prop) (k : key) (Q : result io_error unit -> fs -> Prop) D :
  (forall f, P f -> Forall (fun k => is_Some (f !! k)) (prefixes_of k)) ->
  (forall r f, P f -> Q r f) -> (forall f, P f -> D f) -> triple P (create_dir_all k) Q D.
Proof.
  intros Hall HQ HD. apply triple_syscall.
  - intros f Hf. case_match; simpl; [by apply HQ|]. rewrite make_dirs_noop by auto. by apply HQ.
  - intros f n t Hf. rewrite make_dirs_noop by (apply Forall_take; auto). by apply HQ.
  - intros f n Hf. rewrite make_dirs_noop by (apply Forall_take; auto). by apply HD.
Qed.

End Ops.

(** ** The results an action can end with, whatever the disk does *)

Definition yields {A} (m : io A) (Q : A -> Prop) : Prop := forall w a w', m w = (Ret a, w') -> Q a.

Lemma yields_any {A} (m : io A) (Q : A -> Prop) : (forall a, Q a) -> yields m Q.
Proof. by intros HQ w a w' _. Qed.

Lemma yields_ret {A} (a : A) (Q : A -> Prop) : Q a -> yields (mret a) Q.
Proof. by intros HQ w b w' [= <- _]. Qed.

Lemma yields_bind {A B} (m : io A) (k : A -> io B) (R : A -> Prop) (Q : B -> Prop) :
  yields m R -> (forall a, R a -> yields (k a) Q) -> yields (mbind k m) Q.
Proof.
  intros Hm Hk w b w'. unfold mbind, io_bind. destruct (m w) as [[a|] w1] eqn:E; [|done].
  apply Hk. by eapply Hm.
Qed.

Lemma yields_then {A B} (m : io A) (k : A -> io B) (Q : B -> Prop) :
  (forall a, yields (k a) Q) -> yields (mbind k m) Q.
Proof. intros Hk. eapply (yields_bind _ _ (fun _ => True)); [by apply yields_any|auto]. Qed.

Lemma yields_conseq {A} (m : io A) (Q R : A -> Prop) : yields m Q -> (forall a, Q a -> R a) -> yields m R.
Proof. intros Hm HQ w a w' E. apply HQ. by eapply Hm. Qed.
