(* ===== verification/SyncStore.v ===== *)
(** * The sync ledger store

    crates/handshaker-core/src/sync_store.rs: the identity of a sync scope, the
    name of its ledger file, and the atomic load and save of the ledger. *)

From Stdlib Require Import Strings.String Strings.Ascii.
From stdpp Require Import gmap.
From S2P Require Import Prelude Errors Domain Handshake Text Paths Fs.

#[local] Open Scope string_scope.
#[local] Open Scope list_scope.
#[local] Open Scope Z_scope.

Record SyncLedgerIdentity := mkIdentity {
  li_device_uuid : string;
  li_remote_root : string;
  li_local_root : string
}.

#[export] Instance SyncLedgerIdentity_eq_dec : EqDecision SyncLedgerIdentity.
Proof. solve_decision. Defined.

Definition normalize_root (root : string) : string :=
  let trimmed := trim root in
  if str_len trimmed <=? 1 then "/"
  else
    let trimmed := trim_end_matches slash trimmed in
    if bool_decide (trimmed = "") then "/" else trimmed.

Definition normalized (i : SyncLedgerIdentity) : SyncLedgerIdentity :=
  mkIdentity (li_device_uuid i) (normalize_root (li_remote_root i)) (normalize_root (li_local_root i)).

Record SyncLedgerFileV3 := mkLedgerFile {
  lf_schema_version : Z;
  lf_identity : SyncLedgerIdentity;
  lf_snapshot : SyncSnapshot
}.

(** [PathBuf::with_extension] of a path that ends in a file name. *)
Fixpoint last_dot (s : string) (i : nat) (found : option nat) : option nat :=
  match s with
  | EmptyString => found
  | String c s => last_dot s (S i) (if bool_decide (c = "."%char) then Some i else found)
  end.

Definition with_extension (p : path) (ext : string) : path :=
  match reverse (split_slash p) with
  | name :: dirs =>
      let stem := match last_dot name 0 None with
                  | Some (S i) => String.substring 0 (S i) name
                  | _ => name
                  end in
      join_slash (reverse ((stem +:+ String "."%char ext) :: dirs))
  | [] => p
  end.

Section Store.
Context `{Crypto}.

Definition sha256_hex (bytes : list byte) : string := hex_of_bytes (sha256 bytes).

Definition canonical_scope (i : SyncLedgerIdentity) : string :=
  li_device_uuid i +:+ String zero (li_remote_root i +:+ String zero (li_local_root i)).

Definition ledger_scope_key (identity : SyncLedgerIdentity) : string :=
  sha256_hex (bytes_of_string (canonical_scope (normalized identity))).

Record SyncStore := mkSyncStore { st_path : path; st_identity : SyncLedgerIdentity }.

Definition discover (config_dir : path) (identity : SyncLedgerIdentity) : SyncStore :=
  let identity := normalized identity in
  mkSyncStore (path_join (path_join config_dir "sync") (ledger_scope_key identity +:+ ".json")) identity.

(** Keep only safe filename characters. *)
Definition sanitize_device_uuid (device_uuid : string) : string :=
  string_filter (fun c => is_ascii_alphanumeric c || bool_decide (c = "-"%char) || bool_decide (c = "_"%char))
    device_uuid.

Definition legacy_v2_path (sync_dir : path) (device_uuid : string) : path :=
  path_join sync_dir (sha256_hex (bytes_of_string device_uuid) +:+ ".json").
Definition legacy_v1_path (sync_dir : path) (device_uuid : string) : path :=
  path_join sync_dir (sanitize_device_uuid device_uuid +:+ ".json").

(** [Path::parent], as a path. *)
Definition path_parent (p : path) : option path :=
  match parent_key (components p) with
  | None => None
  | Some _ =>
      let segs := drop_components 0 (reverse (split_slash p)) in
      let dirs := reverse (drop_components 0 (tail segs)) in
      Some (if is_absolute p && bool_decide (body dirs = []) then "/" else join_slash dirs)
  end.

Definition configuration (k : string) (args : list string) : Error := EConfiguration (Msg k args).

(** [map_err] to a configuration error about a path. *)
Definition fails_with {A} (k : string) (p : path) (m : io (result io_error A)) : io (Res A) :=
  io_map_err (fun e => mret (configuration k [p; io_text e])) m.

Definition sync_parent_missing : Error := configuration "sync.parent_missing" [].

Definition set_directory_permissions (p : path) : io (Res unit) :=
  fails_with "sync.permission_failed" p (set_permissions p).
Definition set_path_permissions (p : path) : io (Res unit) :=
  fails_with "sync.permission_failed" p (set_permissions p).

(** Best-effort fsync of a directory. *)
Definition sync_parent (p : path) : io () := let* _ := sync_all p in mret ().

Context `{Json SyncLedgerFileV3}.

Definition load_v3 (store : SyncStore) : io (Res SyncSnapshot) :=
  let*? _ := set_path_permissions (st_path store) in
  let*? bytes := fails_with "sync.read_failed" (st_path store) (read_file (st_path store)) in
  match from_json bytes with
  | Err e => io_err (configuration "sync.parse_failed" [st_path store; e])
  | Ok ledger =>
      if negb (lf_schema_version ledger =? 3)
      then io_err (configuration "sync.version_unsupported" [pretty (lf_schema_version ledger)])
      else if negb (bool_decide (normalized (lf_identity ledger) = st_identity store))
      then io_err (configuration "sync.identity_mismatch" [st_path store])
      else io_ok (lf_snapshot ledger)
  end.

Definition load (store : SyncStore) : io (Res (option SyncSnapshot)) :=
  let* here := path_exists (st_path store) in
  if here : bool then let*? s := load_v3 store in io_ok (Some s)
  else match path_parent (st_path store) with
       | None => io_err sync_parent_missing
       | Some parent =>
           let legacy_v2 := legacy_v2_path parent (li_device_uuid (st_identity store)) in
           let legacy_v1 := legacy_v1_path parent (li_device_uuid (st_identity store)) in
           let* v2 := path_exists legacy_v2 in
           let* legacy := (if v2 : bool then mret true else path_exists legacy_v1) in
           if legacy : bool then io_err (configuration "sync.legacy_scope_unproven" [legacy_v2; legacy_v1])
           else io_ok None
       end.

Definition ledger_tmp (p : path) (n : Z) : path := with_extension p ("json.tmp-" +:+ pretty n).

(** The loop that opens a new temporary file: it draws another name while the name
    is taken.  [None] of the fuel never returns, like a loop that never finds one. *)
Fixpoint open_tmp (fuel : nat) (p : path) : io (Res path) :=
  match fuel with
  | O => fun w => (Dead, w)
  | S fuel =>
      let* n := random_u64 in
      let tmp := ledger_tmp p n in
      let* r := file_create_new tmp in
      match r with
      | Ok _ => io_ok tmp
      | Err e =>
          match io_kind_of e with
          | KAlreadyExists => open_tmp fuel p
          | _ => io_err (configuration "sync.write_failed" [tmp; io_text e])
          end
      end
  end.

(** Names tried before giving up on the temporary file. *)
Definition TMP_TRIES : nat := 64.

Definition save (store : SyncStore) (snapshot : SyncSnapshot) : io (Res unit) :=
  match path_parent (st_path store) with
  | None => io_err sync_parent_missing
  | Some parent =>
      let*? _ := fails_with "sync.create_failed" parent (create_dir_all (components parent)) in
      let*? _ := set_directory_permissions parent in
      let ledger := mkLedgerFile 3 (st_identity store) snapshot in
      match to_json ledger with
      | Err e => io_err (configuration "sync.serialize_failed" [e])
      | Ok bytes =>
          let*? tmp := open_tmp TMP_TRIES (st_path store) in
          let*? _ := fails_with "sync.write_failed" tmp (write_all tmp bytes) in
          let*? _ := fails_with "sync.write_failed" tmp (sync_all tmp) in
          let*? _ := io_map_err (fun e =>
                       let* _ := remove_quietly tmp in
                       mret (configuration "sync.write_failed" [st_path store; io_text e]))
                       (rename_file tmp (st_path store)) in
          let*? _ := set_path_permissions (st_path store) in
          let* _ := sync_parent parent in
          io_ok ()
      end
  end.

End Store.

Definition pc_id_from_host_uuid (host_uuid : string) : string := host_uuid.

Definition sync_config (device_uuid phone_root local_root host_uuid : string) : SyncConfig :=
  {| sc_device_uuid := device_uuid; sc_phone_root := phone_root; sc_local_root := local_root;
     sc_pc_id := pc_id_from_host_uuid host_uuid |}.
