(* ===== verification/SyncJournal.v ===== *)
(** * The sync journal

    crates/handshaker-core/src/sync_journal.rs: a single-entry write-ahead log that
    makes "change a local file, then the ledger" recoverable after a crash. *)

From Stdlib Require Import Strings.String Strings.Ascii.
From stdpp Require Import gmap.
From S2P Require Import Prelude Errors Domain Handshake Text Paths Fs SyncStore.

#[local] Open Scope string_scope.
#[local] Open Scope list_scope.
#[local] Open Scope Z_scope.

Inductive PendingSyncAction :=
  | PDownload (remote_path : string) (final_path staged_path : path) (new_record : SyncFileRecord)
  | PDelete (remote_path : string) (original_path trash_path : path).

#[export] Instance PendingSyncAction_eq_dec : EqDecision PendingSyncAction.
Proof. solve_decision. Defined.

Record SyncJournal := mkSyncJournal { jr_path : path }.

(** [Path::with_file_name] of the ledger's name with ".journal" after it. *)
Definition for_ledger (ledger_path : path) : SyncJournal :=
  match reverse (split_slash ledger_path) with
  | name :: dirs => mkSyncJournal (join_slash (reverse ((name +:+ ".journal") :: dirs)))
  | [] => mkSyncJournal ledger_path
  end.

(** A strict descendant of the trusted root, by plain components only. *)
Definition path_is_safe (p trusted_root : path) : bool :=
  if negb (is_absolute p) || negb (is_absolute trusted_root) then false
  else match strip_prefix p trusted_root with
       | None => false
       | Some relative =>
           match components relative with
           | c :: cs => is_normal c && forallb is_normal cs
           | [] => false
           end
       end.

Definition action_path_safe (trusted_root : option path) (p : path) : bool :=
  match trusted_root with
  | Some root => path_is_safe p root
  | None => is_absolute p && negb (existsb (fun c => bool_decide (c = ParentDir)) (components p))
  end.

Definition action_safe (trusted_root : option path) (action : PendingSyncAction) : bool :=
  match action with
  | PDownload _ final staged _ => action_path_safe trusted_root final && action_path_safe trusted_root staged
  | PDelete _ original trash => action_path_safe trusted_root original && action_path_safe trusted_root trash
  end.

Definition snapshot_insert (r : string) (rec : SyncFileRecord) (s : SyncSnapshot) : SyncSnapshot :=
  mkSyncSnapshot (<[r := rec]> (ss_files s)).
Definition snapshot_remove (r : string) (s : SyncSnapshot) : SyncSnapshot :=
  mkSyncSnapshot (delete r (ss_files s)).

Definition local_io (k : string) (args : list string) : Error := ELocalIo (Msg k args).

(** [map_err] to a local I/O error about a path. *)
Definition fails_local {A} (k : string) (p : path) (m : io (result io_error A)) : io (Res A) :=
  io_map_err (fun e => mret (local_io k [p; io_text e])) m.

Section Journal.
Context `{Json PendingSyncAction}.

Definition journal_tmp (j : SyncJournal) (n : Z) : path := with_extension (jr_path j) ("tmp-" +:+ pretty n).

(** [map_err] of [write]: the temporary file goes away with the failure. *)
Definition fails_removing {A} (tmp about : path) (m : io (result io_error A)) : io (Res A) :=
  io_map_err (fun e =>
    let* _ := remove_quietly tmp in mret (configuration "sync.write_failed" [about; io_text e])) m.

Definition journal_write (j : SyncJournal) (action : PendingSyncAction) : io (Res unit) :=
  match path_parent (jr_path j) with
  | None => io_err sync_parent_missing
  | Some parent =>
      let*? _ := fails_with "sync.create_failed" parent (create_dir_all (components parent)) in
      match to_json action with
      | Err e => io_err (configuration "sync.serialize_failed" [e])
      | Ok bytes =>
          let* n := random_u64 in
          let tmp := journal_tmp j n in
          let*? _ := fails_with "sync.write_failed" tmp (file_create tmp) in
          let*? _ := fails_removing tmp tmp (write_all tmp bytes) in
          let*? _ := fails_removing tmp tmp (sync_all tmp) in
          let*? _ := fails_removing tmp tmp (set_permissions tmp) in
          let*? _ := fails_removing tmp (jr_path j) (rename_file tmp (jr_path j)) in
          let* _ := sync_parent parent in
          io_ok ()
      end
  end.

Definition journal_read (j : SyncJournal) : io (Res (option PendingSyncAction)) :=
  let* here := path_exists (jr_path j) in
  if negb here then io_ok None
  else
    let*? bytes := fails_with "sync.read_failed" (jr_path j) (read_file (jr_path j)) in
    match from_json bytes with
    | Err e => io_err (configuration "sync.parse_failed" [jr_path j; e])
    | Ok action => io_ok (Some action)
    end.

Definition journal_clear (j : SyncJournal) : io (Res unit) :=
  let* r := remove_file (jr_path j) in
  match r with
  | Ok _ => io_ok ()
  | Err e => match io_kind_of e with
             | KNotFound => io_ok ()
             | _ => io_err (configuration "sync.write_failed" [jr_path j; io_text e])
             end
  end.

(** [recover_impl], with the caller's [save]. *)
Definition recover_impl (j : SyncJournal) (trusted_root : option path) (snapshot : SyncSnapshot)
    (save : SyncSnapshot -> io (Res unit)) : io (Res SyncSnapshot) :=
  let*? pending := journal_read j in
  match pending with
  | None => io_ok snapshot
  | Some action =>
      if negb (action_safe trusted_root action)
      then io_err (configuration "sync.journal_unsafe" [])
      else match action with
      | PDownload remote_path final_path staged_path new_record =>
          let* landed := path_exists final_path in
          let* finish := (if landed : bool then mret false else path_exists staged_path) in
          let*? _ := (if finish : bool then
                        let*? _ := match parent_key (components final_path) with
                                   | Some parent =>
                                       fails_local "sync.local_dir_failed" (default "" (path_parent final_path))
                                         (create_dir_all parent)
                                   | None => io_ok ()
                                   end in
                        fails_local "sync.rename_failed" final_path (rename_file staged_path final_path)
                      else io_ok ()) in
          let* landed := path_exists final_path in
          if landed : bool then
            let updated := snapshot_insert remote_path new_record snapshot in
            let*? _ := save updated in
            let*? _ := journal_clear j in
            io_ok updated
          else
            let*? _ := journal_clear j in
            io_ok snapshot
      | PDelete remote_path original_path trash_path =>
          let updated := snapshot_remove remote_path snapshot in
          let* still := path_exists original_path in
          if still : bool then
            let* orphan := path_exists trash_path in
            let*? _ := (if orphan : bool
                        then fails_local "sync.delete_failed" trash_path (remove_file trash_path)
                        else io_ok ()) in
            let*? _ := journal_clear j in
            io_ok snapshot
          else
            let* trashed := path_exists trash_path in
            let*? _ := (if trashed : bool
                        then fails_local "sync.delete_failed" trash_path (remove_file trash_path)
                        else io_ok ()) in
            let*? _ := save updated in
            let*? _ := journal_clear j in
            io_ok updated
      end
  end.

Definition recover (j : SyncJournal) (snapshot : SyncSnapshot) (save : SyncSnapshot -> io (Res unit)) :=
  recover_impl j None snapshot save.

Definition recover_in_root (j : SyncJournal) (snapshot : SyncSnapshot) (trusted_root : path)
    (save : SyncSnapshot -> io (Res unit)) :=
  recover_impl j (Some trusted_root) snapshot save.

End Journal.
