(* ===== verification/Sync.v ===== *)
(** * The photo-sync engine

    crates/handshaker-core/src/sync.rs: the plan (a pure diff of the phone's files
    against the ledger), its conflicts with local edits, and its execution, where
    every download and delete is journaled, applied and checkpointed. *)

From Stdlib Require Import Strings.String Strings.Ascii.
From stdpp Require Import gmap.
From S2P Require Import Prelude Errors Domain Handshake Text Paths Fs SyncStore SyncJournal.

#[local] Open Scope string_scope.
#[local] Open Scope list_scope.
#[local] Open Scope Z_scope.

Record SyncRunResult := mkSyncRunResult {
  run_downloaded : list string;
  run_deleted : list string;
  run_failures : list string;
  run_conflicts : list string
}.

Definition SyncRunResult_default : SyncRunResult := mkSyncRunResult [] [] [] [].

Definition add_failure (p : string) (r : SyncRunResult) : SyncRunResult :=
  mkSyncRunResult (run_downloaded r) (run_deleted r) (run_failures r ++ [p]) (run_conflicts r).
Definition add_downloaded (p : string) (r : SyncRunResult) : SyncRunResult :=
  mkSyncRunResult (run_downloaded r ++ [p]) (run_deleted r) (run_failures r) (run_conflicts r).
Definition add_deleted (p : string) (r : SyncRunResult) : SyncRunResult :=
  mkSyncRunResult (run_downloaded r) (run_deleted r ++ [p]) (run_failures r) (run_conflicts r).

(** ** The plan *)

Inductive file_class := ClassAdded | ClassInfo | ClassSame.

(** One step of the first loop of [plan_diff]. *)
Definition classify (snapshot : SyncSnapshot) (file : RemoteFile) : file_class :=
  match ss_files snapshot !! rf_path file with
  | None => ClassAdded
  | Some record =>
      let checksum_changed := negb (bool_decide (sr_checksum record = rf_checksum file)) in
      let metadata_changed := negb (bool_decide (sr_ext_data record = rf_ext_data file))
                              || negb (bool_decide (sr_modified_at record = rf_modified_at file)) in
      if checksum_changed then ClassAdded
      else if metadata_changed then ClassInfo
      else ClassSame
  end.

Fixpoint plan_files (snapshot : SyncSnapshot) (files : list RemoteFile) (added info : list string)
  : list string * list string :=
  match files with
  | [] => (added, info)
  | file :: files =>
      if rf_is_directory file then plan_files snapshot files added info
      else match classify snapshot file with
           | ClassAdded => plan_files snapshot files (added ++ [rf_path file]) info
           | ClassInfo => plan_files snapshot files added (info ++ [rf_path file])
           | ClassSame => plan_files snapshot files added info
           end
  end.

Definition on_phone (phone_files : list RemoteFile) (p : string) : bool :=
  existsb (fun file => bool_decide (rf_path file = p)) phone_files.

Definition plan_diff (phone_files : list RemoteFile) (snapshot : SyncSnapshot) : SyncDiff :=
  let (added, info) := plan_files snapshot phone_files [] [] in
  let deleted := filter (fun p => negb (on_phone phone_files p)) (btree_keys (ss_files snapshot)) in
  mkSyncDiff added info deleted [].

(** ** Local destinations *)

Definition PHONE_ROOT_MISSING : string := "sync.path_outside_root".

Definition local_destination (config : SyncConfig) (phone_path : string) : Res path :=
  match strip_prefix phone_path (sc_phone_root config) with
  | None => Err (EProtocol (Msg PHONE_ROOT_MISSING []))
  | Some relative =>
      if forallb is_normal (components relative)
      then Ok (path_join (sc_local_root config) relative)
      else Err (EProtocol (Msg PHONE_ROOT_MISSING []))
  end.

(** The client's download of one phone file into a local path, over whatever is there. *)
Class Downloader := download_to : string -> path -> io (Res unit).

Section Engine.
Context `{Crypto}.

(** [File::open] succeeds on anything that exists; the contents come with the read. *)
Definition sha256_file (p : path) : io (Res string) :=
  let*? _ := fails_local "sync.local_read_failed" p
               (syscall (fun f => (match f !! components p with
                                   | Some _ => Ok ()
                                   | None => Err err_not_found
                                   end, f)) untouched) in
  let*? content := fails_local "sync.local_read_failed" p (read_file p) in
  io_ok (sha256_hex content).

(** ** Conflicts *)

Definition conflicts_with (record : SyncFileRecord) : io bool :=
  match sr_local_sha256 record with
  | None => mret false
  | Some expected =>
      let* here := path_exists (sr_local_path record) in
      if negb here then mret false
      else
        let* hash := sha256_file (sr_local_path record) in
        mret (match hash with
              | Ok actual => negb (bool_decide (actual = expected))
              | Err _ => true
              end)
  end.

Fixpoint check_paths (snapshot : SyncSnapshot) (paths conflicts : list string) : io (list string) :=
  match paths with
  | [] => mret conflicts
  | p :: paths =>
      match ss_files snapshot !! p with
      | None => check_paths snapshot paths conflicts
      | Some record =>
          let* conflict := conflicts_with record in
          check_paths snapshot paths
            (if (conflict : bool) && negb (bool_decide (p ∈ conflicts)) then conflicts ++ [p] else conflicts)
      end
  end.

Definition check_conflicts (diff : SyncDiff) (snapshot : SyncSnapshot) : io (list string) :=
  check_paths snapshot (sd_added diff ++ sd_deleted diff) [].

(** ** Execution *)

Context `{Downloader} `{Json PendingSyncAction} `{Json SyncLedgerFileV3}.

Definition part_name (destination : path) (n : Z) : path := destination +:+ ".hs-part." +:+ pretty n.
Definition trash_name (local : path) (n : Z) : path := local +:+ ".hs-trash." +:+ pretty n.

Definition download_to_staged (phone_path : string) (destination : path) : io (Res (path * string)) :=
  let*? _ := match parent_key (components destination) with
             | Some parent => fails_local "sync.local_dir_failed" (default "" (path_parent destination))
                                (create_dir_all parent)
             | None => io_ok ()
             end in
  let* n := random_u64 in
  let part := part_name destination n in
  let* outcome := (let*? _ := download_to phone_path part in sha256_file part) in
  match outcome with
  | Ok hash => io_ok (part, hash)
  | Err e => let* _ := remove_quietly part in io_err e
  end.

(** The ledger in memory and the report, which a step updates in place: they keep
    what was done even when the step ends in an error. *)
Abbreviation progress := (SyncSnapshot * SyncRunResult)%type.

Definition stop (e : Error) (st : progress) : io (Res unit * progress) := mret (Err e, st).
Definition go_on (st : progress) : io (Res unit * progress) := mret (Ok (), st).

(** [m?] with the state as it is. *)
Definition checked (m : io (Res unit)) (st : progress) (k : io (Res unit * progress)) : io (Res unit * progress) :=
  let* r := m in
  match r with
  | Err e => stop e st
  | Ok _ => k
  end.

Definition journaled_download (remote_path : string) (file : RemoteFile) (destination : path)
    (journal : SyncJournal) (store : SyncStore) (st : progress) : io (Res unit * progress) :=
  let (snapshot, result) := st in
  let* staged := download_to_staged remote_path destination in
  match staged with
  | Err _ => go_on (snapshot, add_failure remote_path result)
  | Ok (part, hash) =>
      let new_record := {| sr_size := rf_size file; sr_checksum := rf_checksum file;
                           sr_ext_data := rf_ext_data file; sr_modified_at := rf_modified_at file;
                           sr_local_path := destination; sr_local_sha256 := Some hash |} in
      let* written := journal_write journal (PDownload remote_path destination part new_record) in
      match written with
      | Err e =>
          let* _ := remove_quietly part in
          stop e (snapshot, add_failure remote_path result)
      | Ok _ =>
          let* renamed := rename_file part destination in
          match renamed with
          | Err _ => go_on (snapshot, add_failure remote_path result)
          | Ok _ =>
              let st := (snapshot_insert remote_path new_record snapshot, add_downloaded remote_path result) in
              checked (save store st.1) st (checked (journal_clear journal) st (go_on st))
          end
      end
  end.

Definition journaled_delete (remote_path : string) (local : path)
    (journal : SyncJournal) (store : SyncStore) (st : progress) : io (Res unit * progress) :=
  let (snapshot, result) := st in
  let* here := path_exists local in
  if negb here then
    let st := (snapshot_remove remote_path snapshot, result) in
    checked (save store st.1) st (go_on st)
  else
    let* dir := is_dir local in
    if dir : bool then go_on (snapshot, add_failure remote_path result)
    else
      let* n := random_u64 in
      let trash := trash_name local n in
      let* written := journal_write journal (PDelete remote_path local trash) in
      match written with
      | Err e => stop e (snapshot, add_failure remote_path result)
      | Ok _ =>
          let* renamed := rename_file local trash in
          match renamed with
          | Err _ => go_on (snapshot, add_failure remote_path result)
          | Ok _ =>
              let st := (snapshot_remove remote_path snapshot, add_deleted remote_path result) in
              checked (save store st.1) st
                (checked (fails_local "sync.delete_failed" trash (remove_file trash)) st
                  (checked (journal_clear journal) st (go_on st)))
          end
      end.

Definition find_file (phone_files : list RemoteFile) (p : string) : option RemoteFile :=
  List.find (fun file => bool_decide (rf_path file = p)) phone_files.

Fixpoint run_added (config : SyncConfig) (phone_files : list RemoteFile) (conflicts added : list string)
    (journal : SyncJournal) (store : SyncStore) (st : progress) : io (Res unit * progress) :=
  match added with
  | [] => go_on st
  | p :: added =>
      if bool_decide (p ∈ conflicts) then run_added config phone_files conflicts added journal store st
      else match find_file phone_files p with
           | None => run_added config phone_files conflicts added journal store st
           | Some file =>
               match local_destination config p with
               | Err e => stop e st
               | Ok destination =>
                   let* r := journaled_download p file destination journal store st in
                   match r with
                   | (Err e, st) => stop e st
                   | (Ok _, st) => run_added config phone_files conflicts added journal store st
                   end
               end
           end
  end.

(** [snapshot] is the ledger the plan was made from. *)
Fixpoint run_deleted_paths (snapshot : SyncSnapshot) (conflicts deleted : list string)
    (journal : SyncJournal) (store : SyncStore) (st : progress) : io (Res unit * progress) :=
  match deleted with
  | [] => go_on st
  | p :: deleted =>
      if bool_decide (p ∈ conflicts) then run_deleted_paths snapshot conflicts deleted journal store st
      else match ss_files snapshot !! p with
           | None => run_deleted_paths snapshot conflicts deleted journal store st
           | Some record =>
               let* r := journaled_delete p (sr_local_path record) journal store st in
               match r with
               | (Err e, st) => stop e st
               | (Ok _, st) => run_deleted_paths snapshot conflicts deleted journal store st
               end
           end
  end.

Definition refresh_record (file : RemoteFile) (record : SyncFileRecord) : SyncFileRecord :=
  {| sr_size := rf_size file; sr_checksum := rf_checksum file; sr_ext_data := rf_ext_data file;
     sr_modified_at := rf_modified_at file; sr_local_path := sr_local_path record;
     sr_local_sha256 := sr_local_sha256 record |}.

Definition refresh_info (p : string) (file : RemoteFile) (s : SyncSnapshot) : SyncSnapshot :=
  mkSyncSnapshot (alter (refresh_record file) p (ss_files s)).

Fixpoint run_info (phone_files : list RemoteFile) (info : list string) (s : SyncSnapshot) : SyncSnapshot :=
  match info with
  | [] => s
  | p :: info =>
      run_info phone_files info
        (match find_file phone_files p with None => s | Some file => refresh_info p file s end)
  end.

Definition execute_plan_with_checkpoint (config : SyncConfig) (phone_files : list RemoteFile)
    (diff : SyncDiff) (snapshot : SyncSnapshot) (conflicts : list string)
    (journal : SyncJournal) (store : SyncStore) : io (Res (SyncRunResult * SyncSnapshot)) :=
  let result := mkSyncRunResult [] [] [] conflicts in
  let* r := run_added config phone_files conflicts (sd_added diff) journal store (snapshot, result) in
  match r with
  | (Err e, _) => io_err e
  | (Ok _, st) =>
      let* r := run_deleted_paths snapshot conflicts (sd_deleted diff) journal store st in
      match r with
      | (Err e, _) => io_err e
      | (Ok _, st) =>
          let updated := run_info phone_files (sd_info_modified diff) st.1 in
          let*? _ := save store updated in
          io_ok (st.2, updated)
      end
  end.

(** One FILE_CHANGE event; the ledger the caller passed is updated in place. *)
Definition apply_file_change_with_checkpoint (config : SyncConfig) (change : FileChange)
    (snapshot : SyncSnapshot) (journal : SyncJournal) (store : SyncStore) : io (Res unit * progress) :=
  let result := SyncRunResult_default in
  match fc_file change with
  | None => go_on (snapshot, result)
  | Some file =>
      if rf_is_directory file then go_on (snapshot, result)
      else
        let p := rf_path file in
        match fc_status change with
        | FcAdded | FcModified | FcFileAndInfoModified =>
            match local_destination config p with
            | Err e => stop e (snapshot, result)
            | Ok destination => journaled_download p file destination journal store (snapshot, result)
            end
        | FcDeleted =>
            match ss_files snapshot !! p with
            | Some record => journaled_delete p (sr_local_path record) journal store (snapshot, result)
            | None => go_on (snapshot, result)
            end
        | FcInfoModified | FcNone | FcUnknown => go_on (refresh_info p file snapshot, result)
        end
  end.

End Engine.
