(* ===== verification/SyncRun.v ===== *)
(** * Runs of the sync engine in the application

    crates/handshaker-application/src/runtime.rs ([run_sync_once], [run_sync_job],
    [apply_watch_batch]) and sync.rs: loading the ledger, recovering the journal,
    planning, executing, and committing; and the plan the user is shown. *)

From Stdlib Require Import Strings.String Strings.Ascii.
From stdpp Require Import gmap.
From S2P Require Import Prelude Errors Domain AppErrors Handshake Text Paths Fs SyncStore SyncJournal Sync.

#[local] Open Scope string_scope.
#[local] Open Scope list_scope.
#[local] Open Scope Z_scope.

Definition app {A} (operation : string) (m : io (Res A)) : io (AppResult A) :=
  let* r := m in mret (map_err (fun e => from_core_error e operation) r).

(** [?] in the application. *)
Notation "'app?' x ':=' m 'in' k" :=
  (mbind (M := io) (fun r => match r with Ok x => k | Err e => mret (M := io) (Err e) end) m)
  (at level 10, x name, m at level 150, k at level 200) : hs_scope.

(** The phone's files of a profile: those under its remote root. *)
Definition profile_files (remote_root : string) (files : list RemoteFile) : list RemoteFile :=
  filter (fun file => is_Some (strip_prefix (rf_path file) remote_root)) files.

Definition snapshot_to_remote_files (snapshot : SyncSnapshot) : list RemoteFile :=
  omap (fun p => (fun record =>
    {| rf_path := p; rf_size := sr_size record; rf_created_at := None; rf_modified_at := sr_modified_at record;
       rf_is_directory := false; rf_checksum := sr_checksum record; rf_is_trash := None; rf_id := None;
       rf_ext_data := sr_ext_data record |}) <$> ss_files snapshot !! p)
    (btree_keys (ss_files snapshot)).

Definition one_entry_diff (change : FileChange) : SyncDiff :=
  match fc_file change with
  | None => SyncDiff_default
  | Some file =>
      if rf_is_directory file then SyncDiff_default
      else match fc_status change with
           | FcAdded | FcModified | FcFileAndInfoModified => mkSyncDiff [rf_path file] [] [] []
           | FcDeleted => mkSyncDiff [] [] [rf_path file] []
           | _ => SyncDiff_default
           end
  end.

(** ** The plan shown to the user *)

Record SyncActionDto := mkSyncAction { act_remote_path : string; act_local_path : string; act_size : Z }.
Record SyncConflictDto := mkSyncConflict { con_remote_path : string; con_local_path : string; con_reason : string }.

Record SyncPlanDto := mkSyncPlan {
  plan_profile_id : string;
  plan_downloads : list SyncActionDto;
  plan_metadata_updates : list SyncActionDto;
  plan_deletions : list SyncActionDto;
  plan_conflicts : list SyncConflictDto;
  plan_total_bytes : Z;
  plan_executable : bool
}.

(** [BTreeMap::collect] of the phone's files: the last of equal paths wins. *)
Definition phone_by_path (phone_files : list RemoteFile) : gmap string RemoteFile :=
  foldl (fun m file => <[rf_path file := file]> m) ∅ phone_files.

Fixpoint plan_actions (config : SyncConfig) (phone : gmap string RemoteFile) (paths : list string)
  : AppResult (list SyncActionDto) :=
  match paths with
  | [] => Ok []
  | p :: paths =>
      match phone !! p with
      | None => plan_actions config phone paths
      | Some file =>
          let? local := map_err (fun e => from_core_error e "sync.plan") (local_destination config p) in
          let? rest := plan_actions config phone paths in
          Ok (mkSyncAction p local (rf_size file) :: rest)
      end
  end.

Definition deletion_action (snapshot : SyncSnapshot) (p : string) : SyncActionDto :=
  let record := ss_files snapshot !! p in
  mkSyncAction p (default "" (sr_local_path <$> record)) (default 0 (sr_size <$> record)).

Definition sync_plan_to_dto (profile_id : string) (config : SyncConfig) (diff : SyncDiff) (conflicts : list string)
    (phone_files : list RemoteFile) (snapshot : SyncSnapshot) : AppResult SyncPlanDto :=
  let phone := phone_by_path phone_files in
  let? downloads := plan_actions config phone (sd_added diff) in
  let? metadata_updates := plan_actions config phone (sd_info_modified diff) in
  Ok {| plan_profile_id := profile_id;
        plan_downloads := downloads;
        plan_metadata_updates := metadata_updates;
        plan_deletions := deletion_action snapshot <$> sd_deleted diff;
        plan_conflicts := (fun p => mkSyncConflict p (default "" (sr_local_path <$> ss_files snapshot !! p))
                                      "local_modified") <$> conflicts;
        plan_total_bytes := foldl (fun total a => (total + act_size a) mod 2 ^ 64) 0 downloads;
        plan_executable := bool_decide (conflicts = []) |}.

(** ** Profiles *)

Record SyncProfileDto := mkSyncProfile {
  sp_id : string;
  sp_session_id : Z;
  sp_device_uuid : string;
  sp_remote_root : string;
  sp_local_root : string;
  sp_enabled : bool
}.

(** [char::is_control] of UTF-8 text: U+0000 to U+001F, U+007F to U+009F. *)
Fixpoint has_control (s : string) : bool :=
  match s with
  | EmptyString => false
  | String c rest =>
      (code c <? 32) || (code c =? 127)
      || ((code c =? 0xC2) && match rest with
                              | String d _ => (0x80 <=? code d) && (code d <=? 0x9F)
                              | EmptyString => false
                              end)
      || has_control rest
  end.

Definition invalid_profile (field why : string) : PublicError :=
  operation "sync.profile" (public_new InvalidArgument (field +:+ " " +:+ why)).

Definition MAX_ID_LEN : Z := 128.

Definition check_id (field value : string) : AppResult unit :=
  if bool_decide (value = "") || (MAX_ID_LEN <? str_len value) then Err (invalid_profile field "must be 1..=128 chars")
  else if has_control value then Err (invalid_profile field "must not contain control characters")
  else Ok ().

Definition uuid_char (c : ascii) : bool :=
  is_ascii_alphanumeric c || bool_decide (c = "-"%char) || bool_decide (c = "_"%char).

Definition validate_sync_profile_format (profile : SyncProfileDto) : AppResult unit :=
  let? _ := check_id "id" (sp_id profile) in
  let? _ := check_id "device_uuid" (sp_device_uuid profile) in
  if negb (bool_decide (string_filter uuid_char (sp_device_uuid profile) = sp_device_uuid profile))
  then Err (invalid_profile "device_uuid" "must match [A-Za-z0-9_-]")
  else if negb (is_absolute (sp_local_root profile))
  then Err (invalid_profile "local_root" "must be an absolute path")
  else if negb (starts_with "/" (sp_remote_root profile))
  then Err (invalid_profile "remote_root" "must be an absolute phone path")
  else if has_control (sp_remote_root profile)
  then Err (invalid_profile "remote_root" "must not contain control characters")
  else Ok ().

Definition unprefixed (s : string) : string := default s (str_strip_prefix "phone:" s).

Definition device_uuid_matches_phone (device_uuid phone_id : string) : bool :=
  bool_decide (unprefixed device_uuid = unprefixed phone_id).

(** The scope of a profile, from the real path of its local root if it has one. *)
Definition sync_identity_for (canonical : option path) (profile : SyncProfileDto) : SyncLedgerIdentity :=
  mkIdentity (sp_device_uuid profile) (normalize_root (sp_remote_root profile))
    (default (sp_local_root profile) canonical).

(** ** Asking the phone *)

Record PhotoSyncResult := mkPhotoSyncResult {
  ps_is_first : option bool;
  ps_files : list RemoteFile;
  ps_is_success : option bool
}.

Definition PHOTO_SYNC_REJECT_RETRIES : nat := 3.

(** The retry loop: before each attempt the run may have been cancelled, and then the
    phone answers. *)
Fixpoint photo_sync_attempts (retries attempt : nat) (answers : nat -> bool * Res PhotoSyncResult)
  : AppResult PhotoSyncResult :=
  if (answers attempt).1 then Err (operation "sync.plan" (public_new TransferCancelled "sync cancelled"))
  else
    let? phone := map_err (fun e => from_core_error e "sync.plan") (answers attempt).2 in
    if negb (bool_decide (ps_is_success phone = Some false)) then Ok phone
    else match retries with
         | O => Err (operation "sync.plan" (public_new SyncError "phone rejected photo sync request"))
         | S retries => photo_sync_attempts retries (S attempt) answers
         end.

(** The identity check of [sync_pipeline]. *)
Definition check_phone (profile : SyncProfileDto) (phone_id : option string) : AppResult unit :=
  match phone_id with
  | Some phone =>
      if device_uuid_matches_phone (sp_device_uuid profile) phone then Ok ()
      else Err (operation "sync.profile"
                  (public_new InvalidArgument "device_uuid does not match the session's phone identity"))
  | None => Err (operation "sync.profile"
                   (public_new InvalidState "phone identity unavailable; reconnect the device first"))
  end.

(** ** The status of a job *)

Record SyncStatusDto := mkSyncStatus {
  st_profile_id : string;
  st_running : bool;
  st_monitoring : bool;
  st_last_run_at_ms : option Z;
  st_last_error : option PublicError;
  st_reconciliation_required : bool;
  st_last_sequence_gap : option Z
}.

Record SyncJob := mkSyncJob { job_status : SyncStatusDto; job_last_result : option SyncRunResult }.

Definition sync_job_new (profile_id : string) : SyncJob :=
  mkSyncJob (mkSyncStatus profile_id false false None None false None) None.

Definition set_stopped (last_error : option PublicError) (job : SyncJob) : SyncJob :=
  let st := job_status job in
  mkSyncJob (mkSyncStatus (st_profile_id st) false (st_monitoring st) (st_last_run_at_ms st) last_error
               (st_reconciliation_required st) (st_last_sequence_gap st)) (job_last_result job).

Definition set_succeeded (now : Z) (result : SyncRunResult) (job : SyncJob) : SyncJob :=
  let st := job_status job in
  mkSyncJob (mkSyncStatus (st_profile_id st) false (st_monitoring st) (Some now) None false None) (Some result).

(** ** Runs *)

Section Runs.
Context `{Crypto} `{Downloader} `{Json PendingSyncAction} `{Json SyncLedgerFileV3}.

Definition sync_diff_and_conflicts (phone_files : list RemoteFile) (snapshot : SyncSnapshot)
  : io (SyncDiff * list string) :=
  let diff := plan_diff phone_files snapshot in
  let* conflicts := check_conflicts diff snapshot in
  mret (diff, conflicts).

(** Loading the ledger and recovering what an earlier run left pending. *)
Definition load_and_recover (operation : string) (store : SyncStore) (local_root : path)
  : io (AppResult SyncSnapshot) :=
  let journal := for_ledger (st_path store) in
  app? loaded := app operation (load store) in
  app "sync.recover" (recover_in_root journal (default SyncSnapshot_default loaded) local_root (save store)).

Record SyncPipeline := mkSyncPipeline {
  pl_config : SyncConfig;
  pl_snapshot : SyncSnapshot;
  pl_phone_files : list RemoteFile;
  pl_diff : SyncDiff;
  pl_conflicts : list string
}.

(** [answers] is what the phone says to the ledger's snapshot. *)
Definition sync_pipeline (profile : SyncProfileDto) (phone_id : option string) (store : SyncStore) (config : SyncConfig)
    (answers : list RemoteFile -> nat -> bool * Res PhotoSyncResult) : io (AppResult SyncPipeline) :=
  app? _ := mret (check_phone profile phone_id) in
  app? loaded := app "sync.plan" (load store) in
  let snapshot := default SyncSnapshot_default loaded in
  app? phone := mret (photo_sync_attempts PHOTO_SYNC_REJECT_RETRIES 0 (answers (snapshot_to_remote_files snapshot))) in
  let phone_files := profile_files (sp_remote_root profile) (ps_files phone) in
  let* plan := sync_diff_and_conflicts phone_files snapshot in
  mret (Ok (mkSyncPipeline config snapshot phone_files plan.1 plan.2)).

Definition plan_sync (profile : SyncProfileDto) (phone_id : option string) (store : SyncStore) (config : SyncConfig)
    (answers : list RemoteFile -> nat -> bool * Res PhotoSyncResult) : io (AppResult SyncPlanDto) :=
  app? _ := mret (validate_sync_profile_format profile) in
  if negb (sp_enabled profile) then mret (Err (operation "sync.plan" (public_new InvalidState "sync profile is disabled")))
  else
    app? pipeline := sync_pipeline profile phone_id store config answers in
    mret (sync_plan_to_dto (sp_id profile) (pl_config pipeline) (pl_diff pipeline) (pl_conflicts pipeline)
            (pl_phone_files pipeline) (pl_snapshot pipeline)).

(** [None] of a run that was cancelled before it started or after it had its plan. *)
Definition run_sync_once (cancelled_before cancelled_after : bool) (profile : SyncProfileDto) (phone_id : option string)
    (store : SyncStore) (config : SyncConfig) (answers : list RemoteFile -> nat -> bool * Res PhotoSyncResult)
  : io (AppResult (option (SyncRunResult * SyncSnapshot))) :=
  if cancelled_before then mret (Ok None)
  else
    app? pipeline := sync_pipeline profile phone_id store config answers in
    if cancelled_after then mret (Ok None)
    else
      let journal := for_ledger (st_path store) in
      app? snapshot := app "sync.recover"
                         (recover_in_root journal (pl_snapshot pipeline) (sc_local_root (pl_config pipeline)) (save store)) in
      let* plan := sync_diff_and_conflicts (pl_phone_files pipeline) snapshot in
      app? done := app "sync.run" (execute_plan_with_checkpoint (pl_config pipeline) (pl_phone_files pipeline)
                                     plan.1 snapshot plan.2 journal store) in
      mret (Ok (Some done)).

(** [run_sync_job]: the run, its commit, and what the job shows of it. *)
Definition run_sync_job (once : io (AppResult (option (SyncRunResult * SyncSnapshot)))) (store : SyncStore) (now : Z)
    (job : SyncJob) : io SyncJob :=
  let* outcome := once in
  match outcome with
  | Ok (Some (result, updated)) =>
      let* commit := app "sync.run.commit" (save store updated) in
      mret (match commit with
            | Ok _ => set_succeeded now result job
            | Err e => set_stopped (Some e) job
            end)
  | Ok None => mret (set_stopped None job)
  | Err e => mret (set_stopped (Some e) job)
  end.

Definition merge_result (a b : SyncRunResult) : SyncRunResult :=
  mkSyncRunResult (run_downloaded a ++ run_downloaded b) (run_deleted a ++ run_deleted b)
    (run_failures a ++ run_failures b) (run_conflicts a).

Definition add_conflict (p : string) (r : SyncRunResult) : SyncRunResult :=
  mkSyncRunResult (run_downloaded r) (run_deleted r) (run_failures r) (run_conflicts r ++ [p]).

Definition touches_files (diff : SyncDiff) : bool :=
  negb (bool_decide (sd_added diff = [])) || negb (bool_decide (sd_deleted diff = [])).

(** The loop of [apply_watch_batch]. *)
Fixpoint watch_changes (config : SyncConfig) (journal : SyncJournal) (store : SyncStore)
    (changes : list FileChange) (snapshot : SyncSnapshot) (run : SyncRunResult) (touched : bool)
  : io (AppResult (SyncSnapshot * SyncRunResult * bool)) :=
  match changes with
  | [] => mret (Ok (snapshot, run, touched))
  | change :: changes =>
      match fc_file change with
      | None => watch_changes config journal store changes snapshot run touched
      | Some file =>
          if rf_is_directory file then watch_changes config journal store changes snapshot run touched
          else
            let guard := one_entry_diff change in
            let* conflicts := (if touches_files guard then check_conflicts guard snapshot else mret []) in
            if negb (bool_decide (conflicts = []))
            then watch_changes config journal store changes snapshot (add_conflict (rf_path file) run) touched
            else
              let* r := apply_file_change_with_checkpoint config change snapshot journal store in
              match r with
              | (Err e, _) => mret (Err (from_core_error e "sync.watch"))
              | (Ok _, (snapshot, result)) =>
                  watch_changes config journal store changes snapshot (merge_result run result) true
              end
      end
  end.

Definition apply_watch_batch (config : SyncConfig) (store : SyncStore) (changes : list FileChange)
  : io (AppResult SyncRunResult) :=
  let journal := for_ledger (st_path store) in
  app? snapshot := load_and_recover "sync.watch" store (sc_local_root config) in
  app? done := watch_changes config journal store changes snapshot SyncRunResult_default false in
  if done.2 : bool then
    app? saved := app "sync.watch" (save store done.1.1) in
    mret (Ok done.1.2)
  else mret (Ok done.1.2).

End Runs.
