(* ===== verification/SyncCrash.v ===== *)
(** * Crash safety of the sync engine

    What the ledger store and the journal guarantee under every fault, and that a
    download or delete interrupted anywhere is brought back to a consistent state
    by the recovery of the next run. *)

From Stdlib Require Import Strings.String.
From stdpp Require Import gmap.
From S2P Require Import Prelude Errors Domain Handshake Text Paths Fs FsLogic SyncStore SyncJournal Sync SyncRun.

(** ** Rules for the error-mapping combinators *)

Section Steps.
Context {A B : Type}.

Lemma triple_fails_with (P D : fs -> Prop) (s : string) (p : path) (m : io (result io_error A))
    (k : A -> io (Res B)) (R : result io_error A -> fs -> Prop) (Q : Res B -> fs -> Prop) :
  triple P m R D -> (forall a, triple (R (Ok a)) (k a) Q D) ->
  (forall e err f, R (Err e) f -> Q (Err err) f) ->
  triple P (let*? x := fails_with s p m in k x) Q D.
Proof.
  intros Hm Hk He. unfold fails_with.
  apply triple_bind with (R := fun r f => match r with Ok a => R (Ok a) f | Err err => Q (Err err) f end).
  - apply triple_map_err with (R := R); [done|done|]. intros e. apply triple_ret. eauto.
  - intros [a|e]; [apply Hk|]. by apply triple_ret.
Qed.

Lemma triple_fails_local (P D : fs -> Prop) (s : string) (p : path) (m : io (result io_error A))
    (k : A -> io (Res B)) (R : result io_error A -> fs -> Prop) (Q : Res B -> fs -> Prop) :
  triple P m R D -> (forall a, triple (R (Ok a)) (k a) Q D) ->
  (forall e err f, R (Err e) f -> Q (Err err) f) ->
  triple P (let*? x := fails_local s p m in k x) Q D.
Proof.
  intros Hm Hk He. unfold fails_local.
  apply triple_bind with (R := fun r f => match r with Ok a => R (Ok a) f | Err err => Q (Err err) f end).
  - apply triple_map_err with (R := R); [done|done|]. intros e. apply triple_ret. eauto.
  - intros [a|e]; [apply Hk|]. by apply triple_ret.
Qed.

(** A step whose failure is followed by the removal of a temporary file. *)
Lemma triple_removing (P D : fs -> Prop) (tmp : path) (g : io_error -> Error) (m : io (result io_error A))
    (k : A -> io (Res B)) (R : result io_error A -> fs -> Prop) (Q : Res B -> fs -> Prop) :
  triple P m R D -> (forall a, triple (R (Ok a)) (k a) Q D) ->
  (forall e err f, R (Err e) f -> Q (Err err) f /\ Q (Err err) (delete (components tmp) f)) ->
  (forall e f, R (Err e) f -> D f) ->
  triple P (let*? x := io_map_err (fun e => let* _ := remove_quietly tmp in mret (g e)) m in k x) Q D.
Proof.
  intros Hm Hk He Hd.
  apply triple_bind with (R := fun r f => match r with Ok a => R (Ok a) f | Err err => Q (Err err) f end).
  - apply triple_map_err with (R := R); [done|done|]. intros e.
    apply triple_bind with (R := fun _ f => Q (Err (g e)) f); [|intros []; by apply triple_ret].
    unfold remove_quietly. apply triple_bind with (R := fun _ f => Q (Err (g e)) f); [|intros r; by apply triple_ret].
    apply triple_syscall; [|naive_solver..].
    intros f Hf. repeat case_match; simpl; naive_solver.
  - intros [a|e]; [apply Hk|]. by apply triple_ret.
Qed.

End Steps.

(** ** Where the store and the journal keep their files *)

Definition lkey (store : SyncStore) : key := components (st_path store).
Definition jkey (j : SyncJournal) : key := components (jr_path j).

(** The temporary files of the store and the journal. *)
Definition sync_tmp (store : SyncStore) (j : SyncJournal) (k : key) : Prop :=
  exists n, k = components (ledger_tmp (st_path store) n) \/ k = components (journal_tmp j n).

Record sync_layout (store : SyncStore) (j : SyncJournal) (dir : path) : Prop := {
  sl_store_parent : path_parent (st_path store) = Some dir;
  sl_journal_parent : path_parent (jr_path j) = Some dir;
  sl_distinct : lkey store <> jkey j;
  sl_ledger : ~ sync_tmp store j (lkey store);
  sl_journal : ~ sync_tmp store j (jkey j);
  sl_dirs : forall k, sync_tmp store j k \/ k = lkey store \/ k = jkey j ->
            k ∉ components dir :: prefixes_of (components dir)
}.

(** The directory of the ledger exists. *)
Definition dir_ready (dir : path) (f : fs) : Prop :=
  Forall (fun k => f !! k = Some Dir) (components dir :: prefixes_of (components dir)).

Lemma dir_ready_prefixes (dir : path) (f : fs) :
  dir_ready dir f -> Forall (fun k => is_Some (f !! k)) (prefixes_of (components dir)).
Proof. intros [_ Hf]%Forall_cons. eapply Forall_impl; [exact Hf|]. intros k ->. eauto. Qed.

Lemma dir_ready_only (dir : path) (K : key -> Prop) (f g : fs) :
  (forall k, K k -> k ∉ components dir :: prefixes_of (components dir)) -> only_on K f g ->
  dir_ready dir f -> dir_ready dir g.
Proof.
  intros HK Hfg Hf. unfold dir_ready in *. rewrite Forall_forall in *. intros k Hk.
  rewrite Hfg; [by apply Hf|]. intros HKk. by apply (HK k).
Qed.

Section Slots.
Context `{Crypto} `{Json PendingSyncAction} `{Json SyncLedgerFileV3}.
Context (store : SyncStore) (j : SyncJournal) (dir : path) (HL : sync_layout store j dir).

Definition ledger_file (s : SyncSnapshot) : SyncLedgerFileV3 := mkLedgerFile 3 (st_identity store) s.

(** The ledger on disk is [s]. *)
Definition ledger_is (s : SyncSnapshot) (f : fs) : Prop :=
  exists bs, to_json (ledger_file s) = Ok bs /\ f !! lkey store = Some (File bs).

(** The journal on disk is [a]. *)
Definition journal_is (a : PendingSyncAction) (f : fs) : Prop :=
  exists bs, to_json a = Ok bs /\ f !! jkey j = Some (File bs).

Definition tmp_only : fs -> fs -> Prop := only_on (sync_tmp store j).

(** One slot replaced or not, temporary files aside. *)
Definition slot_post (slot : key) (written : fs -> Prop) (f0 f : fs) : Prop :=
  only_on (fun k => sync_tmp store j k \/ k = slot) f0 f /\ (f !! slot = f0 !! slot \/ written f).

Lemma slot_post_tmp (slot : key) (written : fs -> Prop) (f0 f : fs) :
  ~ sync_tmp store j slot -> tmp_only f0 f -> slot_post slot written f0 f.
Proof.
  intros Hs Hf. split; [|left; by apply Hf].
  eapply only_on_weaken; [|exact Hf]. naive_solver.
Qed.

(** Renaming a temporary file with the right contents over the slot. *)
Lemma triple_install (tmp slot : path) (bytes : list byte) (f0 : fs) (written : fs -> Prop) :
  sync_tmp store j (components tmp) -> ~ sync_tmp store j (components slot) ->
  (forall f, f !! components slot = Some (File bytes) -> written f) ->
  triple (fun f => tmp_only f0 f /\ f !! components tmp = Some (File bytes)) (rename_file tmp slot)
    (fun r f => match r with
                | Ok _ => slot_post (components slot) written f0 f /\ f !! components slot = Some (File bytes)
                | Err _ => tmp_only f0 f
                end)
    (slot_post (components slot) written f0).
Proof.
  intros Ht Hs Hw. apply triple_syscall; simpl.
  - intros f [Hf Hc]. rewrite Hc. destruct (f !! components slot) as [[c|]|] eqn:E; simpl; [|done|].
    all: rewrite lookup_insert_eq; split; [|done]; split; [|right; apply Hw, lookup_insert_eq].
    all: etrans; [eapply only_on_weaken; [|exact Hf]; naive_solver|].
    all: etrans; [|apply only_on_insert; auto]; apply only_on_delete; auto.
  - by intros f n text [Hf _].
  - intros f n [Hf _]. by apply slot_post_tmp.
Qed.

Lemma append_bytes_lookup (p : path) (bytes c : list byte) (f : fs) :
  f !! components p = Some (File c) -> append_bytes p bytes f !! components p = Some (File (c ++ bytes)).
Proof. intros Hc. unfold append_bytes. rewrite Hc. apply lookup_insert_eq. Qed.

Lemma tmp_append (p : path) (bytes : list byte) (f0 f : fs) :
  sync_tmp store j (components p) -> tmp_only f0 f -> tmp_only f0 (append_bytes p bytes f).
Proof. intros Hp Hf. etrans; [exact Hf|]. by apply only_on_append. Qed.

Lemma tmp_delete (p : path) (f0 f : fs) :
  sync_tmp store j (components p) -> tmp_only f0 f -> tmp_only f0 (delete (components p) f).
Proof. intros Hp Hf. etrans; [exact Hf|]. by apply only_on_delete. Qed.

Lemma tmp_insert (k : key) (n : node) (f0 f : fs) :
  sync_tmp store j k -> tmp_only f0 f -> tmp_only f0 (<[k := n]> f).
Proof. intros Hp Hf. etrans; [exact Hf|]. by apply only_on_insert. Qed.

(** A call that leaves the files alone. *)
Lemma triple_look {A : Type} (P : fs -> Prop) (op : fs -> result io_error A * fs) :
  (forall f, (op f).2 = f) -> triple P (syscall op untouched) (fun _ f => P f) P.
Proof. intros Hop. apply triple_syscall; [|done..]. intros f Hf. by rewrite Hop. Qed.

Lemma triple_sync_parent (p : path) (P D : fs -> Prop) :
  (forall f, P f -> D f) -> triple P (sync_parent p) (fun _ => P) D.
Proof.
  intros HD. apply triple_bind with (R := fun _ => P); [|intros r; by apply triple_ret].
  eapply triple_conseq; [by apply triple_look with (P := P)|done|done|done].
Qed.

(** ** The store *)

Lemma triple_open_tmp (fuel : nat) (f0 : fs) :
  triple (tmp_only f0) (open_tmp fuel (st_path store))
    (fun r f => match r with
                | Ok tmp => sync_tmp store j (components tmp) /\ tmp_only f0 f /\ f !! components tmp = Some (File [])
                | Err _ => tmp_only f0 f
                end)
    (tmp_only f0).
Proof.
  induction fuel as [|fuel IH]; [by intros w Hw|]. cbn [open_tmp].
  apply triple_bind with (R := fun _ => tmp_only f0); [by apply triple_random|]. intros n.
  set (tmp := ledger_tmp (st_path store) n).
  assert (sync_tmp store j (components tmp)) as Ht by (exists n; by left).
  apply triple_bind with (R := fun r f => match r with
    | Ok _ => tmp_only f0 f /\ f !! components tmp = Some (File [])
    | Err _ => tmp_only f0 f end).
  - apply triple_syscall; [|done..]. intros f Hf. simpl. destruct (f !! components tmp); simpl; [done|].
    split; [by apply tmp_insert|apply lookup_insert_eq].
  - intros [u|e]; [by apply triple_ret; intros f []|].
    destruct (io_kind_of e); [by apply triple_ret|exact IH|by apply triple_ret].
Qed.

(** [save] replaces the ledger whole or leaves it; success means it was replaced. *)
Lemma triple_save (s : SyncSnapshot) (f0 : fs) :
  dir_ready dir f0 ->
  triple (fun f => f = f0) (save store s)
    (fun r f => slot_post (lkey store) (ledger_is s) f0 f /\ (r = Ok () -> ledger_is s f))
    (slot_post (lkey store) (ledger_is s) f0).
Proof.
  intros Hd. pose proof (sl_ledger _ _ _ HL) as Hn. unfold save. rewrite (sl_store_parent _ _ _ HL).
  assert (forall f, tmp_only f0 f -> slot_post (lkey store) (ledger_is s) f0 f /\
            (forall e : Error, @Err Error unit e = Ok () -> ledger_is s f)) as Herr.
  { intros f Hf. split; [by apply slot_post_tmp|done]. }
  assert (forall f e, tmp_only f0 f -> slot_post (lkey store) (ledger_is s) f0 f /\
            (@Err Error unit e = Ok () -> ledger_is s f)) as Herr' by (intros; split; [by apply Herr|done]).
  eapply triple_fails_with with (R := fun _ => tmp_only f0);
    [apply triple_dirs_exist; intros; subst; [by apply dir_ready_prefixes|done|by apply Herr]| |by eauto].
  intros _. unfold set_directory_permissions.
  eapply triple_fails_with with (R := fun _ => tmp_only f0); [| |by eauto].
  { eapply triple_conseq; [by apply triple_look with (P := tmp_only f0)|done|done|apply Herr]. }
  intros _. fold (ledger_file s). destruct (to_json (ledger_file s)) as [bytes|e] eqn:Ej;
    [|apply triple_ret; eauto].
  apply triple_bind with (R := fun r f => match r with
    | Ok tmp => sync_tmp store j (components tmp) /\ tmp_only f0 f /\ f !! components tmp = Some (File [])
    | Err _ => tmp_only f0 f end).
  { eapply triple_conseq; [apply triple_open_tmp|done|done|apply Herr]. }
  intros [tmp|e]; [|apply triple_ret; eauto].
  apply (triple_pure (sync_tmp store j (components tmp))); [by intros f []|]. intros Ht.
  eapply triple_fails_with with (R := fun r f => match r with
    | Ok _ => tmp_only f0 f /\ f !! components tmp = Some (File bytes) | Err _ => tmp_only f0 f end); [| |by eauto].
  { apply triple_syscall.
    - intros f (_ & Hf & Hc). simpl. split; [by apply tmp_append|]. by rewrite (append_bytes_lookup tmp bytes []).
    - intros f n text (_ & Hf & _). by apply tmp_append.
    - intros f n (_ & Hf & _). by apply Herr, tmp_append. }
  intros _. eapply triple_fails_with with (R := fun _ f => tmp_only f0 f /\ f !! components tmp = Some (File bytes));
    [| |by intros e err f [Hf _]; eauto].
  { eapply triple_conseq; [by apply triple_look with (P := fun f => tmp_only f0 f /\ f !! components tmp = Some (File bytes))
                          |done|done|by intros f [Hf _]; apply Herr]. }
  intros _. apply triple_removing with (R := fun r f => match r with
    | Ok _ => slot_post (lkey store) (ledger_is s) f0 f /\ ledger_is s f
    | Err _ => tmp_only f0 f end).
  - eapply triple_conseq; [apply (triple_install tmp (st_path store) bytes f0 (ledger_is s)); [done..|]|done| |done].
    + intros f Hf. by exists bytes.
    + intros [u|e] f Hf; [|done]. destruct Hf as [Hf Hc]. split; [done|]. by exists bytes.
  - intros _. unfold set_path_permissions.
    eapply triple_fails_with with (R := fun _ f => slot_post (lkey store) (ledger_is s) f0 f /\ ledger_is s f).
    + eapply triple_conseq; [by apply triple_look with (P := fun f => slot_post (lkey store) (ledger_is s) f0 f /\ ledger_is s f)
                            |done|done|by intros f []].
    + intros _. eapply triple_bind with (R := fun _ f => slot_post (lkey store) (ledger_is s) f0 f /\ ledger_is s f).
      * apply triple_sync_parent. by intros f [].
      * intros []. apply triple_ret. by intros f [].
    + by intros e err f [Hf _].
  - intros e err f Hf. split; [by eauto|]. apply Herr'. by apply tmp_delete.
  - intros e f Hf. by apply Herr.
Qed.

(** ** The journal *)

Lemma triple_journal_write (a : PendingSyncAction) (f0 : fs) :
  dir_ready dir f0 ->
  triple (fun f => f = f0) (journal_write j a)
    (fun r f => slot_post (jkey j) (journal_is a) f0 f /\ (r = Ok () -> journal_is a f) /\
                (r <> Ok () -> tmp_only f0 f))
    (slot_post (jkey j) (journal_is a) f0).
Proof.
  intros Hd. pose proof (sl_journal _ _ _ HL) as Hn. unfold journal_write. rewrite (sl_journal_parent _ _ _ HL).
  set (Q := fun (r : Res unit) f => _).
  assert (forall f (e : Error), tmp_only f0 f -> Q (Err e) f) as Herr.
  { intros f e Hf. split; [by apply slot_post_tmp|done]. }
  assert (forall f, tmp_only f0 f -> slot_post (jkey j) (journal_is a) f0 f) as Hslot
    by (intros f Hf; by apply slot_post_tmp).
  eapply triple_fails_with with (R := fun _ => tmp_only f0);
    [apply triple_dirs_exist; intros; subst; [by apply dir_ready_prefixes|done|by apply Hslot]| |by eauto].
  intros _. destruct (to_json a) as [bytes|e] eqn:Ej; [|apply triple_ret; eauto].
  apply triple_bind with (R := fun _ => tmp_only f0); [apply triple_random; done|].
  intros n. set (tmp := journal_tmp j n).
  assert (sync_tmp store j (components tmp)) as Ht by (exists n; by right).
  eapply triple_fails_with with (R := fun r f => match r with
    | Ok _ => tmp_only f0 f /\ f !! components tmp = Some (File []) | Err _ => tmp_only f0 f end); [| |by eauto].
  { apply triple_syscall; [|done|by intros f n' Hf; apply Hslot].
    intros f Hf. simpl. destruct (f !! components tmp) as [[c|]|]; simpl; [|done|];
      (split; [by apply tmp_insert|apply lookup_insert_eq]). }
  assert (forall e (err : Error) f, (fun r f => match r with
    | Ok _ => tmp_only f0 f /\ f !! components tmp = Some (File bytes) | Err _ => tmp_only f0 f end)
      (@Err io_error unit e) f -> Q (Err err) f /\ Q (Err err) (delete (components tmp) f)) as Hdel.
  { intros e err f Hf. split; [by eauto|]. apply Herr. by apply tmp_delete. }
  intros _. unfold fails_removing.
  eapply triple_removing with (R := fun r f => match r with
    | Ok _ => tmp_only f0 f /\ f !! components tmp = Some (File bytes) | Err _ => tmp_only f0 f end);
    [| |exact Hdel|by intros e f Hf; apply Hslot].
  { apply triple_syscall.
    - intros f (Hf & Hc). simpl. split; [by apply tmp_append|]. by rewrite (append_bytes_lookup tmp bytes []).
    - intros f n' text (Hf & _). by apply tmp_append.
    - intros f n' (Hf & _). by apply Hslot, tmp_append. }
  assert (forall A (op : fs -> result io_error A * fs), (forall f, (op f).2 = f) ->
    triple (fun f => tmp_only f0 f /\ f !! components tmp = Some (File bytes)) (syscall op untouched)
      (fun r f => match r with
         | Ok _ => tmp_only f0 f /\ f !! components tmp = Some (File bytes) | Err _ => tmp_only f0 f end)
      (slot_post (jkey j) (journal_is a) f0)) as Hlook.
  { intros A op Hop. eapply triple_conseq; [by apply triple_look with (P := fun f => tmp_only f0 f /\ f !! components tmp = Some (File bytes))
      |done|intros [u|e] f Hf; [done|by destruct Hf]|by intros f [Hf _]; apply Hslot]. }
  intros u1. eapply triple_removing; [by apply Hlook| |exact Hdel|by intros e f Hf; apply Hslot].
  intros u2. eapply triple_removing; [by apply Hlook| |exact Hdel|by intros e f Hf; apply Hslot].
  intros u3. apply triple_removing with (R := fun r f => match r with
    | Ok _ => slot_post (jkey j) (journal_is a) f0 f /\ journal_is a f
    | Err _ => tmp_only f0 f end); [| |exact Hdel|by intros e f Hf; apply Hslot].
  - eapply triple_conseq; [apply (triple_install tmp (jr_path j) bytes f0 (journal_is a)); [done..|]|done| |done].
    + intros f Hf. by exists bytes.
    + intros [u|e] f Hf; [|done]. destruct Hf as [Hf Hc]. split; [done|]. by exists bytes.
  - intros _. eapply triple_bind with (R := fun _ f => slot_post (jkey j) (journal_is a) f0 f /\ journal_is a f).
    + apply triple_sync_parent. by intros f [].
    + intros []. apply triple_ret. intros f []. by unfold Q.
Qed.

(** ** Runs without faults *)

Lemma clean_bind {A B : Type} (m : io A) (k : A -> io B) (a : A) (w w1 : world) :
  m w = (Ret a, w1) -> (m ≫= k) w = k a w1.
Proof. intros Hm. unfold mbind, io_bind. by rewrite Hm. Qed.

Lemma clean_fails_with {A B : Type} (s : string) (p : path) (m : io (result io_error A)) (k : A -> io (Res B))
    (a : A) (w w1 : world) :
  m w = (Ret (Ok a), w1) -> (let*? x := fails_with s p m in k x) w = k a w1.
Proof. intros Hm. unfold fails_with, io_map_err, mbind, io_bind. by rewrite Hm. Qed.

Lemma clean_fails_local {A B : Type} (s : string) (p : path) (m : io (result io_error A)) (k : A -> io (Res B))
    (a : A) (w w1 : world) :
  m w = (Ret (Ok a), w1) -> (let*? x := fails_local s p m in k x) w = k a w1.
Proof. intros Hm. unfold fails_local, io_map_err, mbind, io_bind. by rewrite Hm. Qed.

Lemma clean_map_err {A B : Type} (h : io_error -> io Error) (m : io (result io_error A)) (k : A -> io (Res B))
    (a : A) (w w1 : world) :
  m w = (Ret (Ok a), w1) -> (let*? x := io_map_err h m in k x) w = k a w1.
Proof. intros Hm. unfold io_map_err, mbind, io_bind. by rewrite Hm. Qed.

Lemma clean_exists (p : path) (f : fs) (rs : list Z) :
  path_exists p (mkWorld f [] rs) = (Ret (bool_decide (is_Some (f !! components p))), mkWorld f [] rs).
Proof. done. Qed.

Lemma clean_mkdirs (d : path) (f : fs) (rs : list Z) :
  dir_ready d f -> create_dir_all (components d) (mkWorld f [] rs) = (Ret (Ok ()), mkWorld f [] rs).
Proof.
  intros Hd. unfold create_dir_all, syscall. simpl.
  assert (existsb (fun k => match f !! k with Some (File _) => true | _ => false end) (prefixes_of (components d)) = false) as ->.
  { apply not_true_is_false. intros (k & Hk & Hf)%existsb_exists.
    apply Forall_cons in Hd as [_ Hd]. rewrite Forall_forall in Hd. rewrite Hd in Hf; [done|].
    by apply list_elem_of_In. }
  simpl. by rewrite make_dirs_noop by by apply dir_ready_prefixes.
Qed.

Lemma clean_open_tmp (fuel : nat) (f : fs) (n : Z) (rs : list Z) :
  f !! components (ledger_tmp (st_path store) n) = None ->
  open_tmp (S fuel) (st_path store) (mkWorld f [] (n :: rs)) =
    (Ret (Ok (ledger_tmp (st_path store) n)),
     mkWorld (<[components (ledger_tmp (st_path store) n) := File []]> f) [] rs).
Proof.
  intros Hn. cbn [open_tmp]. unfold random_u64, mbind, io_bind, file_create_new, syscall.
  cbn [w_fs w_faults w_rand]. by rewrite Hn.
Qed.

Lemma clean_save (s : SyncSnapshot) (f : fs) (n : Z) (rs : list Z) (bytes : list byte) :
  dir_ready dir f -> to_json (ledger_file s) = Ok bytes -> f !! lkey store <> Some Dir ->
  f !! components (ledger_tmp (st_path store) n) = None ->
  save store s (mkWorld f [] (n :: rs)) = (Ret (Ok ()), mkWorld (<[lkey store := File bytes]> f) [] rs).
Proof.
  intros Hd Hj Hl Hn. unfold save, set_directory_permissions, set_path_permissions. rewrite (sl_store_parent _ _ _ HL).
  assert (f !! components dir = Some Dir) as Hdir by by apply Forall_cons in Hd as [Hd _].
  set (tmp := ledger_tmp (st_path store) n) in *.
  assert (components tmp <> lkey store) as Hne.
  { intros He. apply (sl_ledger _ _ _ HL). exists n. by left. }
  erewrite clean_fails_with by by apply clean_mkdirs.
  erewrite clean_fails_with by (unfold set_permissions, syscall; simpl; by rewrite Hdir).
  fold (ledger_file s). rewrite Hj.
  rewrite (clean_bind _ _ _ _ _ (clean_open_tmp 63 f n rs Hn)). fold tmp. cbv beta iota.
  erewrite clean_fails_with by reflexivity. erewrite clean_fails_with by reflexivity. cbn [w_fs w_faults w_rand].
  unfold append_bytes. rewrite lookup_insert_eq. simpl app. rewrite insert_insert_eq.
  erewrite clean_map_err.
  2: { unfold rename_file, syscall. cbn [w_fs w_faults w_rand]. rewrite lookup_insert_eq, lookup_insert_ne by done.
       change (components (st_path store)) with (lkey store). destruct (f !! lkey store) as [[c|]|]; done. }
  rewrite delete_insert_eq, delete_id by done.
  erewrite clean_fails_with by (unfold set_permissions, syscall; cbn; by rewrite lookup_insert_eq).
  done.
Qed.

Lemma clean_load (s : SyncSnapshot) (f : fs) (rs : list Z) `{!JsonRoundTrip SyncLedgerFileV3} :
  normalized (st_identity store) = st_identity store -> ledger_is s f ->
  load store (mkWorld f [] rs) = (Ret (Ok (Some s)), mkWorld f [] rs).
Proof.
  intros Hid (bs & Hj & Hl). unfold load. unfold lkey in Hl.
  erewrite clean_bind by apply clean_exists. rewrite bool_decide_eq_true_2 by (rewrite Hl; eauto).
  rewrite (clean_bind _ _ (Ok s) _ (mkWorld f [] rs)); [done|]. unfold load_v3, set_path_permissions.
  erewrite clean_fails_with by (unfold set_permissions, syscall; simpl; by rewrite Hl).
  erewrite clean_fails_with by (unfold read_file, syscall; simpl; by rewrite Hl).
  rewrite (json_round_trip _ _ Hj). simpl. rewrite Hid. by rewrite bool_decide_eq_true_2.
Qed.

Section Recovery.
Context `{!JsonRoundTrip PendingSyncAction}.

Lemma clean_read_none (f : fs) (rs : list Z) :
  f !! jkey j = None -> journal_read j (mkWorld f [] rs) = (Ret (Ok None), mkWorld f [] rs).
Proof.
  intros Hj. unfold journal_read. erewrite clean_bind by apply clean_exists.
  unfold jkey in Hj. rewrite Hj. done.
Qed.

Lemma clean_read_some (a : PendingSyncAction) (f : fs) (rs : list Z) :
  journal_is a f -> journal_read j (mkWorld f [] rs) = (Ret (Ok (Some a)), mkWorld f [] rs).
Proof.
  intros (bs & Hb & Hj). unfold journal_read. erewrite clean_bind by apply clean_exists.
  unfold jkey in Hj. rewrite bool_decide_eq_true_2 by (rewrite Hj; eauto). cbn [negb].
  erewrite clean_fails_with by (unfold read_file, syscall; simpl; by rewrite Hj).
  by rewrite (json_round_trip _ _ Hb).
Qed.

Lemma clean_clear (c : list byte) (f : fs) (rs : list Z) :
  f !! jkey j = Some (File c) -> journal_clear j (mkWorld f [] rs) = (Ret (Ok ()), mkWorld (delete (jkey j) f) [] rs).
Proof.
  intros Hj. unfold journal_clear, remove_file, syscall, mbind, io_bind. cbn [w_fs w_faults w_rand].
  unfold jkey in *. by rewrite Hj.
Qed.

(** The common tail of a recovery that updates the ledger. *)
Lemma clean_commit (s : SyncSnapshot) (f : fs) (n : Z) (rs : list Z) (bytes jb : list byte) :
  dir_ready dir f -> to_json (ledger_file s) = Ok bytes -> f !! lkey store <> Some Dir ->
  f !! components (ledger_tmp (st_path store) n) = None -> f !! jkey j = Some (File jb) ->
  (let*? _ := save store s in let*? _ := journal_clear j in io_ok s) (mkWorld f [] (n :: rs)) =
    (Ret (Ok s), mkWorld (delete (jkey j) (<[lkey store := File bytes]> f)) [] rs).
Proof.
  intros Hd Hb Hl Hn Hj. erewrite clean_bind by by apply clean_save. cbv beta iota.
  erewrite clean_bind; [|apply clean_clear with jb; rewrite lookup_insert_ne; [done|apply (sl_distinct _ _ _ HL)]].
  reflexivity.
Qed.

Lemma clean_recover_none (root : option path) (s : SyncSnapshot) (sv : SyncSnapshot -> io (Res unit)) (f : fs)
    (rs : list Z) :
  f !! jkey j = None -> recover_impl j root s sv (mkWorld f [] rs) = (Ret (Ok s), mkWorld f [] rs).
Proof. intros Hj. unfold recover_impl. by erewrite clean_bind by by apply clean_read_none. Qed.

Lemma clean_recover_landed (root : option path) (s : SyncSnapshot) (f : fs) (n : Z) (rs : list Z)
    (remote : string) (dest part : path) (rec : SyncFileRecord) (bytes : list byte) :
  journal_is (PDownload remote dest part rec) f -> action_safe root (PDownload remote dest part rec) = true ->
  is_Some (f !! components dest) ->
  dir_ready dir f -> to_json (ledger_file (snapshot_insert remote rec s)) = Ok bytes -> f !! lkey store <> Some Dir ->
  f !! components (ledger_tmp (st_path store) n) = None ->
  recover_impl j root s (save store) (mkWorld f [] (n :: rs)) =
    (Ret (Ok (snapshot_insert remote rec s)), mkWorld (delete (jkey j) (<[lkey store := File bytes]> f)) [] rs).
Proof.
  intros Hj Hsafe Hd Hdr Hb Hl Hn. unfold recover_impl.
  erewrite clean_bind by by apply clean_read_some. cbv beta iota. rewrite Hsafe. cbn [negb].
  erewrite clean_bind by apply clean_exists. rewrite bool_decide_eq_true_2 by done.
  erewrite clean_bind by reflexivity. erewrite clean_bind by reflexivity. cbv beta iota.
  erewrite clean_bind by apply clean_exists. rewrite bool_decide_eq_true_2 by done.
  destruct Hj as (jb & _ & Hj). by eapply clean_commit.
Qed.

Lemma clean_recover_staged (root : option path) (s : SyncSnapshot) (f : fs) (n : Z) (rs : list Z)
    (remote : string) (dest part : path) (parent : key) (rec : SyncFileRecord) (bytes c : list byte) :
  journal_is (PDownload remote dest part rec) f -> action_safe root (PDownload remote dest part rec) = true ->
  f !! components dest = None -> f !! components part = Some (File c) ->
  parent_key (components dest) = Some parent -> Forall (fun k => f !! k = Some Dir) (prefixes_of parent) ->
  let f' := <[components dest := File c]> (delete (components part) f) in
  dir_ready dir f' -> to_json (ledger_file (snapshot_insert remote rec s)) = Ok bytes -> f' !! lkey store <> Some Dir ->
  f' !! components (ledger_tmp (st_path store) n) = None -> f' !! jkey j = f !! jkey j ->
  recover_impl j root s (save store) (mkWorld f [] (n :: rs)) =
    (Ret (Ok (snapshot_insert remote rec s)), mkWorld (delete (jkey j) (<[lkey store := File bytes]> f')) [] rs).
Proof.
  intros Hj Hsafe Hd Hp Hpar Hdirs f' Hdr Hb Hl Hn Hjj. unfold recover_impl.
  erewrite clean_bind by by apply clean_read_some. cbv beta iota. rewrite Hsafe. cbn [negb].
  erewrite clean_bind by apply clean_exists. rewrite bool_decide_eq_false_2 by (rewrite Hd; by intros []).
  erewrite clean_bind by apply clean_exists. rewrite bool_decide_eq_true_2 by (rewrite Hp; eauto).
  rewrite Hpar.
  erewrite clean_bind.
  2: { erewrite clean_fails_local.
       2: { unfold create_dir_all, syscall. cbn [w_fs w_faults w_rand].
            destruct (existsb _ _) eqn:E.
            - apply existsb_exists in E as (k & Hk & Hf). rewrite Forall_forall in Hdirs.
              rewrite Hdirs in Hf; [done|]. by apply list_elem_of_In.
            - rewrite make_dirs_noop; [reflexivity|]. eapply Forall_impl; [exact Hdirs|]. intros k ->. eauto. }
       unfold fails_local, io_map_err, mbind, io_bind, rename_file, syscall. cbn [w_fs w_faults w_rand].
       rewrite Hp, Hd. cbn. reflexivity. }
  cbv beta iota. erewrite clean_bind by apply clean_exists.
  rewrite bool_decide_eq_true_2 by (rewrite lookup_insert_eq; eauto).
  destruct Hj as (jb & _ & Hj). eapply clean_commit; [done..|]. by rewrite Hjj.
Qed.

End Recovery.

Lemma ledger_is_unique (s1 s2 : SyncSnapshot) (f : fs) `{!JsonRoundTrip SyncLedgerFileV3} :
  ledger_is s1 f -> ledger_is s2 f -> s1 = s2.
Proof.
  intros (b1 & Hj1 & Hl1) (b2 & Hj2 & Hl2). assert (b1 = b2) as -> by congruence.
  apply json_round_trip in Hj1, Hj2. unfold ledger_file in *. congruence.
Qed.

End Slots.

(** ** An interrupted download *)

(** What the engine relies on of the client's download (client.rs writes a temporary
    file next to its target and renames it): it only touches its scratch files, the
    target among them, and on success the target is a file. *)
Class DownloaderLaw `{Downloader} (scratch : path -> key -> Prop) := {
  dl_target : forall part, scratch part (components part);
  dl_spec : forall remote part f0,
    triple (fun f => f = f0) (download_to remote part)
      (fun r f => only_on (scratch part) f0 f /\
                  (r = Ok () -> exists c, f !! components part = Some (File c)))
      (only_on (scratch part) f0)
}.

(** The record a finished download leaves in the ledger. *)
Definition synced_record (file : RemoteFile) (destination : path) (hash : string) : SyncFileRecord :=
  {| sr_size := rf_size file; sr_checksum := rf_checksum file; sr_ext_data := rf_ext_data file;
     sr_modified_at := rf_modified_at file; sr_local_path := destination; sr_local_sha256 := Some hash |}.

Section DownloadCrash.
Context `{Crypto} `{Json PendingSyncAction} `{Json SyncLedgerFileV3}.
Context `{DL : Downloader} (scratch : path -> key -> Prop) `{!DownloaderLaw scratch}.
Context (store : SyncStore) (j : SyncJournal) (dir : path) (HL : sync_layout store j dir).
Context (remote : string) (file : RemoteFile) (dest : path) (parent : key).

Definition part_scratch (k : key) : Prop := exists n, scratch (part_name dest n) k.
Definition is_part (part : path) : Prop := exists n, part = part_name dest n.

Lemma is_part_scratch (part : path) : is_part part -> part_scratch (components part).
Proof. intros [n ->]. exists n. apply dl_target. Qed.

(** The destination, the download's scratch files and the directories above it are
    no part of the store. *)
Record download_layout : Prop := {
  dn_parent : parent_key (components dest) = Some parent;
  dn_dest : ~ sync_tmp store j (components dest) /\ components dest <> lkey store /\
            components dest <> jkey j /\ ~ part_scratch (components dest);
  dn_scratch : forall k, part_scratch k -> ~ sync_tmp store j k /\ k <> lkey store /\ k <> jkey j;
  dn_above : forall k, k ∈ prefixes_of parent ->
             ~ sync_tmp store j k /\ k <> lkey store /\ k <> jkey j /\ k <> components dest /\ ~ part_scratch k;
  dn_dirs : forall k, part_scratch k \/ k = components dest -> k ∉ components dir :: prefixes_of (components dir)
}.

Context (HD : download_layout) (s : SyncSnapshot) (f0 : fs).

Definition download_keys (k : key) : Prop :=
  sync_tmp store j k \/ k = lkey store \/ k = jkey j \/ k = components dest \/ part_scratch k \/ k ∈ prefixes_of parent.

(** The states a download passes through. *)
Inductive download_phase (f : fs) : Prop :=
  | dp_before : f !! jkey j = None -> f !! components dest = None -> ledger_is store s f -> download_phase f
  | dp_staged part c :
      journal_is j (PDownload remote dest part (synced_record file dest (sha256_hex c))) f ->
      f !! components dest = None -> f !! components part = Some (File c) -> is_part part ->
      Forall (fun k => f !! k = Some Dir) (prefixes_of parent) -> ledger_is store s f -> download_phase f
  | dp_moved part c :
      is_part part -> journal_is j (PDownload remote dest part (synced_record file dest (sha256_hex c))) f ->
      f !! components dest = Some (File c) ->
      (ledger_is store s f \/ ledger_is store (snapshot_insert remote (synced_record file dest (sha256_hex c)) s) f) ->
      download_phase f
  | dp_done c :
      f !! jkey j = None -> f !! components dest = Some (File c) ->
      ledger_is store (snapshot_insert remote (synced_record file dest (sha256_hex c)) s) f -> download_phase f.

Definition download_inv (f : fs) : Prop := only_on download_keys f0 f /\ dir_ready dir f /\ download_phase f.

Lemma ledger_is_keep (K : key -> Prop) (s' : SyncSnapshot) (f g : fs) :
  ~ K (lkey store) -> only_on K f g -> ledger_is store s' f -> ledger_is store s' g.
Proof. intros HK Hfg (bs & Hj & Hl). exists bs. by rewrite Hfg. Qed.

Lemma journal_is_keep (K : key -> Prop) (a : PendingSyncAction) (f g : fs) :
  ~ K (jkey j) -> only_on K f g -> journal_is j a f -> journal_is j a g.
Proof. intros HK Hfg (bs & Hj & Hl). exists bs. by rewrite Hfg. Qed.

Lemma download_keys_only (K : key -> Prop) (f g : fs) :
  (forall k, K k -> download_keys k) -> only_on download_keys f0 f -> only_on K f g -> only_on download_keys f0 g.
Proof. intros HK Hf Hg. etrans; [exact Hf|]. by eapply only_on_weaken. Qed.

(** Only scratch files were touched, and directories made above the destination. *)
Definition early (f : fs) : Prop :=
  exists i, only_on part_scratch (make_dirs (take i (prefixes_of parent)) f0) f.

Hypothesis (Hj0 : f0 !! jkey j = None) (Hd0 : f0 !! components dest = None)
  (Hl0 : ledger_is store s f0) (Hdir : dir_ready dir f0).

Lemma early_keys (f : fs) : early f -> only_on (fun k => part_scratch k \/ k ∈ prefixes_of parent) f0 f.
Proof.
  intros [i Hf]. etrans.
  - apply (make_dirs_only _ (take i (prefixes_of parent))). intros k Hk. right.
    apply elem_of_take in Hk as (i1 & Hk & _). by eapply list_elem_of_lookup_2.
  - eapply only_on_weaken; [|exact Hf]. auto.
Qed.

Lemma early_dir_ready (f : fs) : early f -> dir_ready dir f.
Proof.
  intros [i Hf]. eapply dir_ready_only; [|exact Hf|].
  - intros k Hk. apply (dn_dirs HD). by left.
  - eapply Forall_impl; [exact Hdir|]. intros k Hk. simpl in *. by rewrite make_dirs_spec, Hk.
Qed.

Lemma early_before (f : fs) : early f -> download_inv f.
Proof.
  intros He. pose proof (early_dir_ready f He) as Hdr. apply early_keys in He as Hf.
  destruct HD as [_ (Hd1 & Hd2 & Hd3 & Hd4) Hs Ha _]. split; [|split; [done|]].
  - eapply download_keys_only; [|reflexivity|exact Hf]. unfold download_keys. intros k [|]; auto 10.
  - apply dp_before.
    + rewrite Hf; [done|]. by intros [(_ & _ & Hk)%Hs | (_ & _ & Hk & _)%Ha].
    + rewrite Hf; [done|]. by intros [Hk | (_ & _ & _ & Hk & _)%Ha].
    + eapply ledger_is_keep; [|exact Hf|done]. by intros [(_ & Hk & _)%Hs | (_ & Hk & _)%Ha].
Qed.

Lemma early_scratch (f g : fs) : early f -> only_on part_scratch f g -> early g.
Proof. intros [i Hf] Hg. exists i. by etrans. Qed.

Lemma part_key_scratch (n : Z) : part_scratch (components (part_name dest n)).
Proof. exists n. apply dl_target. Qed.

(** What the download into the staged file leaves. *)
Definition staged_post (r : Res (path * string)) (f : fs) : Prop :=
  early f /\ forall part hash, r = Ok (part, hash) ->
    exists c, f !! components part = Some (File c) /\ hash = sha256_hex c /\ is_part part /\
              Forall (fun k => f !! k = Some Dir) (prefixes_of parent).

Lemma triple_sha256_file (p : path) (P D : fs -> Prop) :
  (forall f, P f -> D f) ->
  triple P (sha256_file p)
    (fun r f => P f /\ forall hash, r = Ok hash -> exists c, f !! components p = Some (File c) /\ hash = sha256_hex c) D.
Proof.
  intros HPD. unfold sha256_file.
  apply triple_fails_local with (R := fun _ => P).
  - eapply triple_conseq; [apply (triple_look P); by intros f; destruct (f !! components p)|done|done|done].
  - intros _. apply triple_fails_local with (R := fun r f => P f /\ forall c, r = Ok c -> f !! components p = Some (File c)).
    + apply triple_syscall; [|by intros f n t Hf; split|by intros f n Hf; apply HPD]. intros f Hf. simpl. split; [done|].
      intros c. repeat case_match; naive_solver.
    + intros c. apply triple_ret. intros f [Hf Hc]. split; [done|]. intros hash [= <-]. exists c. auto.
    + by intros e err f [Hf _].
  - done.
Qed.

Lemma triple_download_to_staged :
  triple (fun f => f = f0) (download_to_staged remote dest) staged_post early.
Proof.
  assert (forall e f, early f -> staged_post (Err e) f) as Herr by done.
  unfold download_to_staged. rewrite (dn_parent HD).
  set (Q1 := fun f => early f /\ Forall (fun k => f !! k = Some Dir) (prefixes_of parent)).
  apply triple_fails_local with (R := fun r f => match r with Ok _ => Q1 f | Err _ => early f end); [| |by eauto].
  - apply triple_syscall.
    + intros f ->. destruct (existsb _ _) eqn:E; simpl; [by exists 0%nat|]. split.
      * exists (length (prefixes_of parent)). by rewrite firstn_all.
      * rewrite Forall_forall. intros k Hk. rewrite make_dirs_spec. rewrite bool_decide_eq_true_2 by done.
        destruct (f0 !! k) as [[c|]|] eqn:Ek; [|done|done].
        apply not_true_iff_false in E. destruct E. apply existsb_exists. exists k.
        split; [by apply list_elem_of_In|]. by rewrite Ek.
    + intros f n t ->. by exists n.
    + intros f n ->. by exists n.
  - intros _. apply triple_bind with (R := fun _ => Q1); [by apply triple_random|]. intros n.
    set (part := part_name dest n).
    assert (forall f g, Q1 f -> only_on (scratch part) f g -> Q1 g) as Hkeep.
    { intros f g [Hf Hp] Hg. assert (only_on part_scratch f g) as Hg'.
      { eapply only_on_weaken; [|exact Hg]. intros k Hk. by exists n. }
      split; [by eapply early_scratch|]. rewrite Forall_forall in *. intros k Hk.
      rewrite Hg'; [by apply Hp|]. apply (dn_above HD k Hk). }
    apply triple_bind with (R := fun r f => Q1 f /\
      forall hash, r = Ok hash -> exists c, f !! components part = Some (File c) /\ hash = sha256_hex c).
    + apply triple_bind with (R := fun r f => Q1 f).
      * apply triple_pre. intros f Hf. eapply triple_conseq; [apply (dl_spec remote part f)|done| |].
        -- intros r g [Hg _]. by eapply Hkeep.
        -- intros g Hg. by apply (Hkeep f).
      * intros [u|e]; [apply triple_sha256_file; by intros f []|]. apply triple_ret. by split.
    + intros [hash|e].
      * apply triple_ret. intros f [[Hf Hp] Hc]. split; [done|]. intros p h [= <- <-].
        destruct (Hc hash eq_refl) as (c & ? & ?). exists c. split_and!; [done..|by exists n|done].
      * apply triple_bind with (R := fun _ => early); [|intros []; apply triple_ret; eauto].
        apply triple_bind with (R := fun _ => early); [|intros r; by apply triple_ret].
        apply triple_syscall; [|by intros f ? ? [[Hf _] _]|by intros f ? [[Hf _] _]].
        intros f [[Hf _] _]. repeat case_match; simpl; [|done..].
        eapply early_scratch; [done|]. apply only_on_delete, part_key_scratch.
Qed.

Abbreviation pending part c := (PDownload remote dest part (synced_record file dest (sha256_hex c))).
Abbreviation after c := (snapshot_insert remote (synced_record file dest (sha256_hex c)) s).

(** The downloaded file waits in its staged place. *)
Definition staged (part : path) (c : list byte) (f : fs) : Prop :=
  early f /\ f !! components part = Some (File c) /\ is_part part /\
  Forall (fun k => f !! k = Some Dir) (prefixes_of parent).

(** Journaled, with the staged file and the destination still as they were. *)
Definition journaled (part : path) (c : list byte) (g : fs) : Prop :=
  exists f, staged part c f /\ only_on (fun k => sync_tmp store j k \/ k = jkey j) f g /\ journal_is j (pending part c) g.

Lemma staged_keep (part : path) (c : list byte) (f g : fs) :
  staged part c f -> only_on (fun k => sync_tmp store j k \/ k = jkey j) f g ->
  only_on download_keys f0 g /\ dir_ready dir g /\ g !! components dest = None /\
  g !! components part = Some (File c) /\ Forall (fun k => g !! k = Some Dir) (prefixes_of parent) /\ ledger_is store s g.
Proof.
  intros (He & Hc & Hp & Hf) Hg. destruct HD as [_ (Hd1 & Hd2 & Hd3 & Hd4) Hs Ha _].
  destruct (early_before f He) as (Hk & _ & Hph). split_and!.
  - eapply download_keys_only; [|exact Hk|exact Hg]. unfold download_keys. intros k [|]; auto.
  - eapply dir_ready_only; [|exact Hg|by apply early_dir_ready]. intros k Hk'. apply (sl_dirs _ _ _ HL). naive_solver.
  - rewrite Hg by naive_solver. apply early_keys in He. rewrite He; [done|].
    by intros [Hk' | (_ & _ & _ & Hk' & _)%Ha].
  - rewrite Hg; [done|]. apply is_part_scratch, Hs in Hp. naive_solver.
  - rewrite Forall_forall in *. intros k Hk'. rewrite Hg; [by apply Hf|]. apply Ha in Hk'. naive_solver.
  - apply early_keys in He. eapply ledger_is_keep; [|exact Hg|].
    { pose proof (sl_ledger _ _ _ HL). pose proof (sl_distinct _ _ _ HL). naive_solver. }
    eapply ledger_is_keep; [|exact He|done]. by intros [(_ & Hk' & _)%Hs | (_ & Hk' & _)%Ha].
Qed.

Lemma journaled_inv (part : path) (c : list byte) (g : fs) : journaled part c g -> download_inv g.
Proof.
  intros (f & Hf & Hg & Hj). destruct (staged_keep part c f g Hf Hg) as (? & ? & ? & ? & ? & ?).
  split; [done|]. split; [done|]. eapply dp_staged; try done. apply Hf.
Qed.

Lemma staged_journaled (part : path) (c : list byte) (f g : fs) :
  staged part c f -> slot_post store j (jkey j) (journal_is j (pending part c)) f g -> download_inv g.
Proof.
  intros Hf [Hg [Hj|Hj]].
  - destruct (staged_keep part c f g Hf Hg) as (? & ? & ? & ? & ? & ?). split; [done|]. split; [done|].
    apply dp_before; [|done..]. rewrite Hj. destruct Hf as (He%early_keys & _). rewrite He; [done|].
    destruct HD as [_ _ Hs Ha _]. by intros [(_ & _ & Hk)%Hs | (_ & _ & Hk & _)%Ha].
  - apply (journaled_inv part c). by exists f.
Qed.

(** The file is in place. *)
Definition moved (part : path) (c : list byte) (g : fs) : Prop :=
  is_part part /\ only_on download_keys f0 g /\ dir_ready dir g /\ journal_is j (pending part c) g /\
  g !! components dest = Some (File c).

Lemma moved_inv (part : path) (c : list byte) (g : fs) :
  moved part c g -> ledger_is store s g \/ ledger_is store (after c) g -> download_inv g.
Proof. intros (? & ? & ? & ? & ?) Hl. split; [done|]. split; [done|]. by eapply dp_moved. Qed.

Lemma triple_rename_staged (part : path) (c : list byte) :
  triple (journaled part c) (rename_file part dest)
    (fun r f => match r with Ok _ => moved part c f /\ ledger_is store s f | Err _ => download_inv f end)
    download_inv.
Proof.
  apply triple_syscall; [|by intros; eapply journaled_inv..].
  intros g Hg0. pose proof Hg0 as (f & Hf & Hg & Hj).
  destruct (staged_keep part c f g Hf Hg) as (Hk & Hdr & Hd & Hc & Hp & Hl). simpl. rewrite Hc, Hd. simpl.
  destruct HD as [_ (Hd1 & Hd2 & Hd3 & Hd4) Hs Ha Hdd]. destruct Hf as (_ & _ & Hpart & _).
  destruct (Hs _ (is_part_scratch _ Hpart)) as (Hs1 & Hs2 & Hs3).
  set (K := fun k => k = components dest \/ k = components part).
  assert (only_on K g (<[components dest := File c]> (delete (components part) g))) as Hgg.
  { etrans; [apply (only_on_delete K _ (components part)); by right|]. apply only_on_insert. by left. }
  split; [|eapply ledger_is_keep; [|exact Hgg|done]; unfold K; naive_solver].
  split_and!; [done|..].
  - eapply download_keys_only; [|exact Hk|exact Hgg]. apply is_part_scratch in Hpart.
    unfold download_keys. intros k [-> | ->]; auto 10.
  - eapply dir_ready_only; [|exact Hgg|done]. apply is_part_scratch in Hpart. intros k [-> | ->]; apply Hdd; auto.
  - eapply journal_is_keep; [|exact Hgg|done]. unfold K. naive_solver.
  - apply lookup_insert_eq.
Qed.

Lemma triple_save_moved (part : path) (c : list byte) :
  triple (fun g => moved part c g /\ ledger_is store s g) (save store (after c))
    (fun r g => download_inv g /\ (r = Ok () -> moved part c g /\ ledger_is store (after c) g)) download_inv.
Proof.
  apply triple_pre. intros g [(Hip & Hk & Hdr & Hj & Hd) Hl].
  assert (forall g', slot_post store j (lkey store) (ledger_is store (after c)) g g' ->
    moved part c g' /\ (ledger_is store s g' \/ ledger_is store (after c) g')) as Hkeep.
  { intros g' [Hg Hslot]. destruct HD as [_ (Hd1 & Hd2 & Hd3 & Hd4) _ _ _].
    pose proof (sl_journal _ _ _ HL). pose proof (sl_distinct _ _ _ HL). split; [split_and!; [done|..]|].
    - eapply download_keys_only; [|exact Hk|exact Hg]. unfold download_keys. intros k [|]; auto.
    - eapply dir_ready_only; [|exact Hg|done]. intros k Hk'. apply (sl_dirs _ _ _ HL). naive_solver.
    - eapply journal_is_keep; [|exact Hg|done]. naive_solver.
    - rewrite Hg; [done|]. naive_solver.
    - destruct Hslot as [Hsl|]; [|by right]. left. destruct Hl as (bs & ? & Hb). exists bs. by rewrite Hsl. }
  eapply triple_conseq; [by apply (triple_save store j dir HL (after c) g)|done| |].
  - intros r g' [Hs Hok]. destruct (Hkeep g' Hs) as [Hm Hll]. split; [by eapply moved_inv|]. auto.
  - intros g' Hs. destruct (Hkeep g' Hs) as [Hm Hll]. by eapply moved_inv.
Qed.

Lemma triple_clear_moved (part : path) (c : list byte) :
  triple (fun g => moved part c g /\ ledger_is store (after c) g) (journal_clear j)
    (fun _ => download_inv) download_inv.
Proof.
  unfold journal_clear. apply triple_bind with (R := fun _ => download_inv).
  - apply triple_syscall; [|by intros f n t [Hm Hl]; eapply moved_inv; eauto..|intros f n [Hm Hl]; eapply moved_inv; eauto].
    intros g [Hm Hl]. pose proof Hm as (_ & Hk & Hdr & (bs & Hjb & Hj) & Hd). simpl. unfold jkey in Hj. rewrite Hj. simpl.
    assert (only_on (fun k => k = jkey j) g (delete (jkey j) g)) as Hg by by apply only_on_delete.
    destruct HD as [_ (Hd1 & Hd2 & Hd3 & Hd4) _ _ _]. split; [|split].
    + eapply download_keys_only; [|exact Hk|exact Hg]. unfold download_keys. naive_solver.
    + eapply dir_ready_only; [|exact Hg|done]. intros k ->. apply (sl_dirs _ _ _ HL). auto.
    + eapply dp_done with (c := c).
      * apply lookup_delete_eq.
      * rewrite Hg; done.
      * eapply ledger_is_keep; [|exact Hg|done]. apply (sl_distinct _ _ _ HL).
  - intros [u|e]; [by apply triple_ret|]. destruct (io_kind_of e); by apply triple_ret.
Qed.

(** Whatever happens during the download, its files and the journal end in one of
    the known states. *)
Lemma triple_journaled_download (result : SyncRunResult) :
  triple (fun f => f = f0) (journaled_download remote file dest j store (s, result))
    (fun _ => download_inv) download_inv.
Proof.
  unfold journaled_download.
  apply triple_bind with (R := staged_post).
  { eapply triple_conseq; [apply triple_download_to_staged|done|done|apply early_before]. }
  intros [[part hash]|e]; [|apply triple_ret; intros f [Hf _]; by apply early_before].
  apply triple_pre. intros f [Hf Hpart].
  destruct (Hpart part hash eq_refl) as (c & Hc & -> & Hp & Hdirs). clear Hpart.
  assert (staged part c f) as Hst by by split_and!.
  fold (synced_record file dest (sha256_hex c)).
  apply triple_bind with (R := fun r g => match r with Ok _ => journaled part c g | Err _ => tmp_only store j f g end).
  { eapply triple_conseq; [by apply (triple_journal_write store j dir HL (pending part c) f), early_dir_ready|done| |].
    - intros [[]|e] g (Hs & Hok & Herr); [|by apply Herr]. exists f. split_and!; [done|apply Hs|by apply Hok].
    - intros g Hs. by eapply staged_journaled. }
  assert (forall g, tmp_only store j f g -> download_inv g) as Htmp.
  { intros g Hg. eapply staged_journaled; [done|]. apply slot_post_tmp; [apply (sl_journal _ _ _ HL)|done]. }
  intros [u|e].
  - apply triple_bind with (R := fun r g => match r with
      | Ok _ => moved part c g /\ ledger_is store s g | Err _ => download_inv g end); [apply triple_rename_staged|].
    intros [u'|e]; [|by apply triple_ret]. unfold checked.
    apply triple_bind with (R := fun r g => download_inv g /\ (r = Ok () -> moved part c g /\ ledger_is store (after c) g));
      [apply triple_save_moved|].
    intros [[]|e]; [|by apply triple_ret; intros g []].
    apply triple_bind with (R := fun _ => download_inv).
    + eapply triple_conseq; [apply (triple_clear_moved part c)|by intros g [_ Hg]; apply Hg|done|done].
    + intros [[]|e]; by apply triple_ret.
  - apply triple_bind with (R := fun _ => download_inv); [|intros []; by apply triple_ret].
    apply triple_bind with (R := fun _ => download_inv); [|intros r; by apply triple_ret].
    apply triple_syscall; [|by intros g n t Hg; apply Htmp|by intros g n Hg; apply Htmp].
    intros g Hg. simpl. destruct (g !! components part) as [[c'|]|]; simpl; [|by apply Htmp..].
    (* the staged file is removed: back to the beginning *)
    destruct (staged_keep part c f g Hst) as (Hk & Hdr & Hd & _ & _ & Hl);
      [eapply only_on_weaken; [|exact Hg]; intros k Hk'; by left|].
    destruct HD as [_ (Hd1 & Hd2 & Hd3 & Hd4) Hs Ha Hdd]. apply is_part_scratch in Hp. destruct (Hs _ Hp) as (Hs1 & Hs2 & Hs3).
    assert (only_on (fun k => k = components part) g (delete (components part) g)) as Hgg by by apply only_on_delete.
    split; [|split].
    + eapply download_keys_only; [|exact Hk|exact Hgg]. unfold download_keys. intros k ->. auto 10.
    + eapply dir_ready_only; [|exact Hgg|done]. intros k ->. auto.
    + apply dp_before.
      * rewrite Hgg by done. rewrite Hg by apply (sl_journal _ _ _ HL). apply early_keys in Hf. rewrite Hf; [done|].
        by intros [(_ & _ & Hk')%Hs | (_ & _ & Hk' & _)%Ha].
      * rewrite Hgg; [done|]. intros He. apply Hd4. by rewrite He.
      * eapply ledger_is_keep; [|exact Hgg|done]. congruence.
Qed.

(** ** Recovery of an interrupted download *)

Context `{!JsonRoundTrip PendingSyncAction} `{!JsonRoundTrip SyncLedgerFileV3}.

(** Either nothing happened or the whole download did: the file is in place, its
    ledger row has its hash, and the journal is empty. *)
Definition download_settled (f : fs) (s' : SyncSnapshot) : Prop :=
  only_on download_keys f0 f /\ f !! jkey j = None /\ ledger_is store s' f /\
  (s' = s /\ f !! components dest = None \/
   exists c, s' = after c /\ f !! components dest = Some (File c)).

Lemma recover_download (root : path) (f : fs) (n : Z) (rs : list Z) (s1 : SyncSnapshot) :
  (forall a : SyncLedgerFileV3, exists bs, to_json a = Ok bs) ->
  path_is_safe dest root = true -> (forall m, path_is_safe (part_name dest m) root = true) ->
  f !! components (ledger_tmp (st_path store) n) = None -> download_inv f -> ledger_is store s1 f ->
  exists s2 f2 rs2, recover_in_root j s1 root (save store) (mkWorld f [] (n :: rs)) = (Ret (Ok s2), mkWorld f2 [] rs2) /\
    download_settled f2 s2.
Proof.
  intros Htotal Hsafe Hsafe' Hn (Hk & Hdr & Hph) Hl1. unfold recover_in_root.
  assert (forall part c, is_part part -> action_safe (Some root) (pending part c) = true) as Has.
  { intros part c [m ->]. simpl. by rewrite Hsafe, Hsafe'. }
  destruct HD as [Hpar (Hd1 & Hd2 & Hd3 & Hd4) Hs Ha Hdd].
  pose proof (sl_distinct _ _ _ HL) as Hlj. pose proof (sl_ledger _ _ _ HL) as Hlt.
  assert (forall f' c bytes, only_on download_keys f0 f' -> f' !! components dest = Some (File c) ->
    to_json (ledger_file store (after c)) = Ok bytes ->
    download_settled (delete (jkey j) (<[lkey store := File bytes]> f')) (after c)) as Hset.
  { intros f' c bytes Hk' Hd Hb. split_and!.
    - etrans; [exact Hk'|]. etrans; [apply (only_on_insert _ _ (lkey store))|apply only_on_delete]; unfold download_keys; auto.
    - apply lookup_delete_eq.
    - exists bytes. split; [done|]. rewrite lookup_delete_ne by done. apply lookup_insert_eq.
    - right. exists c. split; [done|]. rewrite lookup_delete_ne, lookup_insert_ne by done. done. }
  destruct Hph as [Hj Hd Hl|part c Hj Hd Hp Hip Hdirs Hl|part c Hip Hj Hd Hl|c Hj Hd Hl].
  - rewrite (ledger_is_unique store s1 s f) by done.
    exists s, f, (n :: rs). split; [by apply clean_recover_none|]. split_and!; auto.
  - rewrite (ledger_is_unique store s1 s f) by done.
    destruct (Htotal (ledger_file store (after c))) as [bytes Hb].
    pose proof (is_part_scratch part Hip) as Hps. destruct (Hs _ Hps) as (Hs1 & Hs2 & Hs3).
    set (K := fun k => k = components dest \/ k = components part).
    set (f' := <[components dest := File c]> (delete (components part) f)).
    assert (only_on K f f') as Hff.
    { etrans; [apply (only_on_delete K _ (components part)); by right|]. apply only_on_insert. by left. }
    eexists _, _, _. split.
    + apply (clean_recover_staged store j dir HL (Some root) s f n rs remote dest part parent
              (synced_record file dest (sha256_hex c)) bytes c); [done|by apply Has|done..| |done| | |].
      * eapply dir_ready_only; [|exact Hff|done]. intros k [-> | ->]; auto.
      * rewrite Hff by (unfold K; naive_solver). destruct Hl as (? & _ & ->). done.
      * rewrite Hff; [done|]. intros [He|He]; [apply Hd1|apply Hs1]; rewrite <- He; exists n; by left.
      * apply Hff. unfold K. naive_solver.
    + apply Hset; [|apply lookup_insert_eq|done].
      etrans; [exact Hk|]. eapply only_on_weaken; [|exact Hff]. unfold K, download_keys. intros k [-> | ->]; auto 10.
  - destruct (Htotal (ledger_file store (after c))) as [bytes Hb].
    assert (snapshot_insert remote (synced_record file dest (sha256_hex c)) s1 = after c) as Heq.
    { destruct Hl as [Hl|Hl]; rewrite (ledger_is_unique store s1 _ f Hl1 Hl); [done|].
      unfold snapshot_insert. simpl. by rewrite insert_insert_eq. }
    eexists _, _, _. split.
    + apply (clean_recover_landed store j dir HL (Some root) s1 f n rs remote dest part
              (synced_record file dest (sha256_hex c)) bytes); [done|by apply Has|by eexists|done|by rewrite Heq| |done].
      destruct Hl1 as (? & _ & ->). done.
    + rewrite Heq. by apply Hset.
  - rewrite (ledger_is_unique store s1 (after c) f) by done.
    eexists _, f, (n :: rs). split; [by apply clean_recover_none|]. split_and!; [done..|]. right. by exists c.
Qed.

End DownloadCrash.
