(* ===== verification/SyncDelete.v ===== *)
(** * An interrupted delete

    The states a journaled delete passes through under every fault, and its
    recovery. *)

From Stdlib Require Import Strings.String.
From stdpp Require Import gmap.
From S2P Require Import Prelude Errors Domain Handshake Text Paths Fs FsLogic SyncStore SyncJournal Sync SyncRun SyncCrash.

Section DeleteCrash.
Context `{Crypto} `{Json PendingSyncAction} `{Json SyncLedgerFileV3}.
Context (store : SyncStore) (j : SyncJournal) (dir : path) (HL : sync_layout store j dir).
Context (remote : string) (local : path).

Definition trash_key (k : key) : Prop := exists n, k = components (trash_name local n).

Record delete_layout : Prop := {
  xn_local : ~ sync_tmp store j (components local) /\ components local <> lkey store /\
             components local <> jkey j /\ ~ trash_key (components local);
  xn_trash : forall k, trash_key k -> ~ sync_tmp store j k /\ k <> lkey store /\ k <> jkey j;
  xn_dirs : forall k, trash_key k \/ k = components local -> k ∉ components dir :: prefixes_of (components dir)
}.

Context (HX : delete_layout) (s : SyncSnapshot) (f0 : fs) (c : list byte).

Definition delete_keys (k : key) : Prop :=
  sync_tmp store j k \/ k = lkey store \/ k = jkey j \/ k = components local \/ trash_key k.

Abbreviation removed := (snapshot_remove remote s).

Definition no_trash (f : fs) : Prop := forall k, trash_key k -> f !! k = None.

(** The trash file of this delete is the only one there can be. *)
Definition trash_at (trash : path) (f : fs) : Prop :=
  f !! components trash = Some (File c) /\ forall k, trash_key k -> k <> components trash -> f !! k = None.

Inductive delete_phase (f : fs) : Prop :=
  | xp_before : f !! jkey j = None -> f !! components local = Some (File c) -> no_trash f ->
      ledger_is store s f -> delete_phase f
  | xp_journaled trash : trash_key (components trash) -> (exists n, trash = trash_name local n) ->
      journal_is j (PDelete remote local trash) f ->
      f !! components local = Some (File c) -> no_trash f -> ledger_is store s f -> delete_phase f
  | xp_trashed trash : (exists n, trash = trash_name local n) -> journal_is j (PDelete remote local trash) f ->
      f !! components local = None -> (trash_at trash f \/ no_trash f) ->
      (ledger_is store s f \/ ledger_is store removed f) -> delete_phase f
  | xp_done : f !! jkey j = None -> f !! components local = None -> no_trash f ->
      ledger_is store removed f -> delete_phase f.

Definition delete_inv (f : fs) : Prop := only_on delete_keys f0 f /\ dir_ready dir f /\ delete_phase f.

(** The facts kept while only sync files change. *)
Definition kept (f : fs) : Prop := only_on delete_keys f0 f /\ dir_ready dir f.

Lemma kept_only (K : key -> Prop) (f g : fs) :
  (forall k, K k -> delete_keys k) -> only_on K f g -> kept f -> kept g.
Proof.
  intros HK Hfg [Hk Hd]. split.
  - etrans; [exact Hk|]. by eapply only_on_weaken.
  - eapply dir_ready_only; [|exact Hfg|done]. intros k Hkk. apply HK in Hkk.
    destruct Hkk as [|[|[|[|]]]]; [apply (sl_dirs _ _ _ HL)..|apply (xn_dirs HX)|apply (xn_dirs HX)]; auto.
Qed.

Lemma no_trash_only (K : key -> Prop) (f g : fs) :
  (forall k, K k -> ~ trash_key k) -> only_on K f g -> no_trash f -> no_trash g.
Proof. intros HK Hfg Hf k Hk. rewrite Hfg; [by apply Hf|]. intros HKk. by apply (HK k). Qed.

Lemma trash_at_only (K : key -> Prop) (trash : path) (f g : fs) :
  (forall k, K k -> ~ trash_key k) -> trash_key (components trash) -> only_on K f g -> trash_at trash f -> trash_at trash g.
Proof.
  intros HK Ht Hfg [Hf Hr]. split.
  - rewrite Hfg; [done|]. intros HKk. by apply (HK _ HKk).
  - intros k Hk Hne. rewrite Hfg; [by apply Hr|]. intros HKk. by apply (HK k).
Qed.

Lemma sync_not_trash (k : key) : sync_tmp store j k \/ k = lkey store \/ k = jkey j -> ~ trash_key k.
Proof. intros Hk Ht. apply (xn_trash HX) in Ht. naive_solver. Qed.

(** The file is there, journaled or not. *)
Definition present (f : fs) : Prop :=
  kept f /\ f !! components local = Some (File c) /\ no_trash f /\ ledger_is store s f.

Lemma present_only (f g : fs) :
  present f -> only_on (fun k => sync_tmp store j k \/ k = jkey j) f g -> present g.
Proof.
  intros (Hk & Hl & Ht & Hs) Hg. destruct (xn_local HX) as (N1 & N2 & N3 & N4).
  pose proof (sl_ledger _ _ _ HL). pose proof (sl_distinct _ _ _ HL). split_and!.
  - eapply kept_only; [|exact Hg|done]. unfold delete_keys. intros k [|]; auto.
  - rewrite Hg; [done|]. by intros [|].
  - eapply no_trash_only; [|exact Hg|done]. intros k Hkk. apply sync_not_trash. destruct Hkk; auto.
  - eapply ledger_is_keep; [|exact Hg|done]. by intros [|].
Qed.

Lemma present_inv (f : fs) : present f -> f !! jkey j = None -> delete_inv f.
Proof. intros ((Hk & Hd) & Hl & Ht & Hs) Hj. split; [done|]. split; [done|]. by apply xp_before. Qed.

Definition delete_journaled (trash : path) (f : fs) : Prop := present f /\ journal_is j (PDelete remote local trash) f.

Lemma delete_journaled_inv (n : Z) (f : fs) : delete_journaled (trash_name local n) f -> delete_inv f.
Proof.
  intros [((Hk & Hd) & Hl & Ht & Hs) Hj]. split; [done|]. split; [done|].
  eapply xp_journaled; try done; by exists n.
Qed.

(** The file is in the trash. *)
Definition trashed (trash : path) (f : fs) : Prop :=
  kept f /\ journal_is j (PDelete remote local trash) f /\ f !! components local = None /\
  (trash_at trash f \/ no_trash f).

Lemma trashed_inv (n : Z) (f : fs) :
  trashed (trash_name local n) f -> ledger_is store s f \/ ledger_is store removed f -> delete_inv f.
Proof.
  intros ((Hk & Hd) & Hj & Hl & Ht) Hs. split; [done|]. split; [done|]. eapply xp_trashed; try done. by exists n.
Qed.

Lemma triple_rename_trash (n : Z) :
  triple (delete_journaled (trash_name local n)) (rename_file local (trash_name local n))
    (fun r f => match r with
                | Ok _ => trashed (trash_name local n) f /\ ledger_is store s f
                | Err _ => delete_inv f
                end) delete_inv.
Proof.
  set (trash := trash_name local n).
  assert (trash_key (components trash)) as Htk by by exists n.
  apply triple_syscall; [|by intros; eapply (delete_journaled_inv n)..].
  intros f [(Hk & Hl & Ht & Hs) Hj]. simpl. rewrite Hl, (Ht _ Htk). simpl.
  destruct (xn_local HX) as (N1 & N2 & N3 & N4). destruct (xn_trash HX _ Htk) as (N5 & N6 & N7).
  set (K := fun k => k = components trash \/ k = components local).
  set (g := <[components trash := File c]> (delete (components local) f)).
  assert (only_on K f g) as Hg.
  { etrans; [apply (only_on_delete K _ (components local)); by right|]. apply only_on_insert. by left. }
  assert (components local <> components trash) as Hne by (intros He; rewrite He in N4; by apply N4).
  split; [split_and!|].
  - eapply kept_only; [|exact Hg|done]. unfold delete_keys. intros k [-> | ->]; auto.
  - eapply journal_is_keep; [|exact Hg|done]. unfold K. naive_solver.
  - unfold g. rewrite lookup_insert_ne by done. apply lookup_delete_eq.
  - left. split; [apply lookup_insert_eq|]. intros k Hkk Hk'. unfold g.
    rewrite lookup_insert_ne by done. rewrite lookup_delete_ne by (intros He; by rewrite He in N4). by apply Ht.
  - eapply ledger_is_keep; [|exact Hg|done]. unfold K. naive_solver.
Qed.

Lemma trashed_slot (n : Z) (f g : fs) :
  trashed (trash_name local n) f -> ledger_is store s f \/ ledger_is store removed f ->
  slot_post store j (lkey store) (ledger_is store removed) f g ->
  trashed (trash_name local n) g /\ (ledger_is store s g \/ ledger_is store removed g).
Proof.
  intros (Hk & Hj & Hl & Ht) Hs [Hg Hslot]. destruct (xn_local HX) as (N1 & N2 & N3 & N4).
  pose proof (sl_journal _ _ _ HL). pose proof (sl_distinct _ _ _ HL).
  assert (forall k, sync_tmp store j k \/ k = lkey store -> ~ trash_key k) as Hnt
    by (intros k [|]; apply sync_not_trash; auto).
  split; [split_and!|].
  - eapply kept_only; [|exact Hg|done]. unfold delete_keys. intros k [|]; auto.
  - eapply journal_is_keep; [|exact Hg|done]. intros [|]; congruence.
  - rewrite Hg; [done|]. by intros [|].
  - destruct Ht as [Ht|Ht]; [left|right].
    + eapply trash_at_only; [exact Hnt| |exact Hg|done]. by exists n.
    + eapply no_trash_only; [exact Hnt|exact Hg|done].
  - destruct Hslot as [Hsl|]; [|by right].
    destruct Hs as [(bs & ? & Hb)|(bs & ? & Hb)]; [left|right]; exists bs; by rewrite Hsl.
Qed.

Lemma triple_save_trashed (n : Z) :
  triple (fun f => trashed (trash_name local n) f /\ ledger_is store s f) (save store removed)
    (fun r f => delete_inv f /\ (r = Ok () -> trashed (trash_name local n) f /\ ledger_is store removed f)) delete_inv.
Proof.
  apply triple_pre. intros f [Ht Hs]. destruct Ht as ((Hk & Hd) & Hrest).
  assert (trashed (trash_name local n) f) as Ht by by split.
  eapply triple_conseq; [by apply (triple_save store j dir HL removed f)|done| |].
  - intros r g [Hg Hok]. destruct (trashed_slot n f g Ht (or_introl Hs) Hg) as [Htg Hsg].
    split; [by eapply trashed_inv|]. auto.
  - intros g Hg. destruct (trashed_slot n f g Ht (or_introl Hs) Hg) as [Htg Hsg]. by eapply trashed_inv.
Qed.

Lemma triple_remove_trash (n : Z) :
  triple (fun f => trashed (trash_name local n) f /\ ledger_is store removed f) (remove_file (trash_name local n))
    (fun r f => match r with
                | Ok _ => kept f /\ journal_is j (PDelete remote local (trash_name local n)) f /\
                          f !! components local = None /\ no_trash f /\ ledger_is store removed f
                | Err _ => delete_inv f
                end) delete_inv.
Proof.
  set (trash := trash_name local n).
  assert (trash_key (components trash)) as Htk by by exists n.
  apply triple_syscall; [|by intros f m t [? ?]; eapply (trashed_inv n); auto|by intros f m [? ?]; eapply (trashed_inv n); auto].
  intros f [Ht Hs]. pose proof Ht as (Hk & Hj & Hl & Htr). simpl.
  destruct (f !! components trash) as [[c'|]|] eqn:Et; simpl; [|by eapply (trashed_inv n); auto..].
  destruct Htr as [[_ Hr]|Hr]; [|by rewrite Hr in Et].
  destruct (xn_trash HX _ Htk) as (N5 & N6 & N7). destruct (xn_local HX) as (N1 & N2 & N3 & N4).
  assert (only_on (fun k => k = components trash) f (delete (components trash) f)) as Hg by by apply only_on_delete.
  split_and!.
  - eapply kept_only; [|exact Hg|done]. unfold delete_keys. intros k ->. auto 10.
  - eapply journal_is_keep; [|exact Hg|done]. congruence.
  - rewrite Hg; [done|]. intros He. rewrite He in N4. by apply N4.
  - intros k Hkk. destruct (decide (k = components trash)) as [->|]; [apply lookup_delete_eq|].
    rewrite lookup_delete_ne by done. by apply Hr.
  - eapply ledger_is_keep; [|exact Hg|done]. congruence.
Qed.

Lemma triple_clear_removed (n : Z) :
  triple (fun f => kept f /\ journal_is j (PDelete remote local (trash_name local n)) f /\
                   f !! components local = None /\ no_trash f /\ ledger_is store removed f)
    (journal_clear j) (fun _ => delete_inv) delete_inv.
Proof.
  assert (forall f, kept f /\ journal_is j (PDelete remote local (trash_name local n)) f /\
                   f !! components local = None /\ no_trash f /\ ledger_is store removed f -> delete_inv f) as Hinv.
  { intros f (Hk & Hj & Hl & Ht & Hs). eapply (trashed_inv n); [split_and!; auto; apply Hk|auto]. }
  unfold journal_clear. apply triple_bind with (R := fun _ => delete_inv).
  - apply triple_syscall; [|by intros f m t Hf; apply Hinv|by intros f m Hf; apply Hinv].
    intros f (Hk & Hjj & Hl & Ht & Hs). pose proof Hjj as (bs & Hjb & Hj). simpl. unfold jkey in Hj. rewrite Hj. simpl.
    assert (only_on (fun k => k = jkey j) f (delete (jkey j) f)) as Hg by by apply only_on_delete.
    destruct (xn_local HX) as (N1 & N2 & N3 & N4).
    assert (kept (delete (jkey j) f)) as [Hk1 Hk2].
    { eapply kept_only; [|exact Hg|done]. unfold delete_keys. intros k ->. auto. }
    split; [done|]. split; [done|]. apply xp_done.
    + apply lookup_delete_eq.
    + rewrite Hg; done.
    + eapply no_trash_only; [|exact Hg|done]. intros k ->. apply sync_not_trash. auto.
    + eapply ledger_is_keep; [|exact Hg|done]. apply (sl_distinct _ _ _ HL).
  - intros [u|e]; [by apply triple_ret|]. destruct (io_kind_of e); by apply triple_ret.
Qed.

(** The delete from the point where the file is known to exist. *)
Definition delete_present (journal : SyncJournal) (st : SyncSnapshot * SyncRunResult) : io (Res unit * (SyncSnapshot * SyncRunResult)) :=
  let (snapshot, result) := st in
  let* d := is_dir local in
  if d : bool then go_on (snapshot, add_failure remote result)
  else
    let* n := random_u64 in
    let trash := trash_name local n in
    let* written := journal_write journal (PDelete remote local trash) in
    match written with
    | Err e => stop e (snapshot, add_failure remote result)
    | Ok _ =>
        let* renamed := rename_file local trash in
        match renamed with
        | Err _ => go_on (snapshot, add_failure remote result)
        | Ok _ =>
            let st := (snapshot_remove remote snapshot, add_deleted remote result) in
            checked (save store st.1) st
              (checked (fails_local "sync.delete_failed" trash (remove_file trash)) st
                (checked (journal_clear journal) st (go_on st)))
        end
    end.

Lemma journaled_delete_present (w w1 : world) (st : SyncSnapshot * SyncRunResult) :
  path_exists local w = (Ret true, w1) -> journaled_delete remote local j store st w = delete_present j st w1.
Proof. intros Hw. unfold journaled_delete. destruct st as [sn r]. by rewrite (clean_bind _ _ _ _ _ Hw). Qed.

Hypothesis (Hj0 : f0 !! jkey j = None) (Hf0 : f0 !! components local = Some (File c)) (Ht0 : no_trash f0)
  (Hl0 : ledger_is store s f0) (Hdir : dir_ready dir f0).

Lemma triple_delete_present (result : SyncRunResult) :
  triple (fun f => f = f0) (delete_present j (s, result)) (fun _ => delete_inv) delete_inv.
Proof.
  assert (present f0) as Hp by (split_and!; done).
  assert (delete_inv f0) as Hinv by by apply present_inv.
  unfold delete_present. apply triple_bind with (R := fun _ f => f = f0).
  { unfold is_dir. apply triple_bind with (R := fun _ f => f = f0); [|intros r; by apply triple_ret].
    eapply triple_conseq; [by apply (triple_look (fun f => f = f0))|done|done|by intros f ->]. }
  intros [|]; [apply triple_ret; by intros f ->|].
  apply triple_bind with (R := fun _ f => f = f0); [by apply triple_random|]. intros n.
  set (trash := trash_name local n).
  assert (forall g, slot_post store j (jkey j) (journal_is j (PDelete remote local trash)) f0 g -> delete_inv g) as Hslot.
  { intros g [Hg [Hj|Hj]]; pose proof (present_only f0 g Hp Hg) as Hpg.
    - apply present_inv; [done|]. by rewrite Hj.
    - by apply (delete_journaled_inv n). }
  apply triple_bind with (R := fun r g => match r with Ok _ => delete_journaled trash g | Err _ => delete_inv g end).
  { eapply triple_conseq; [by apply (triple_journal_write store j dir HL (PDelete remote local trash) f0)|done| |done].
    intros [[]|e] g (Hg & Hok & Herr); [|by apply Hslot].
    split; [eapply present_only; [done|apply Hg]|by apply Hok]. }
  intros [u|e]; [|by apply triple_ret].
  apply triple_bind with (R := fun r f => match r with
    | Ok _ => trashed trash f /\ ledger_is store s f | Err _ => delete_inv f end); [apply triple_rename_trash|].
  intros [u'|e]; [|by apply triple_ret]. unfold checked.
  apply triple_bind with (R := fun r f => delete_inv f /\ (r = Ok () -> trashed trash f /\ ledger_is store removed f));
    [apply triple_save_trashed|].
  intros [[]|e]; [|by apply triple_ret; intros f []].
  apply triple_bind with (R := fun r f => match r with
    | Ok _ => kept f /\ journal_is j (PDelete remote local trash) f /\
              f !! components local = None /\ no_trash f /\ ledger_is store removed f
    | Err _ => delete_inv f end).
  { apply triple_map_err with (R := fun r f => match r with
      | Ok _ => kept f /\ journal_is j (PDelete remote local trash) f /\
                f !! components local = None /\ no_trash f /\ ledger_is store removed f
      | Err _ => delete_inv f end); [|done|intros e; by apply triple_ret].
    eapply triple_conseq; [apply (triple_remove_trash n)|by intros f [_ Hf]; apply Hf|done|done]. }
  intros [u''|e]; [|by apply triple_ret].
  apply triple_bind with (R := fun _ => delete_inv); [apply triple_clear_removed|].
  intros [[]|e]; by apply triple_ret.
Qed.

(** ** When the first look fails

    [Path::exists] answers false when the metadata cannot be read, and the row is dropped. *)
Definition looked_away (f : fs) : Prop :=
  kept f /\ f !! jkey j = None /\ f !! components local = Some (File c) /\ no_trash f /\
  (ledger_is store s f \/ ledger_is store removed f).

Lemma triple_looked_away (st : SyncSnapshot * SyncRunResult) :
  triple (fun f => f = f0) (checked (save store removed) st (go_on st)) (fun _ => looked_away) looked_away.
Proof.
  assert (forall g, slot_post store j (lkey store) (ledger_is store removed) f0 g -> looked_away g) as Hslot.
  { intros g [Hg Hs]. destruct (xn_local HX) as (N1 & N2 & N3 & N4).
    pose proof (sl_journal _ _ _ HL) as Hsj. pose proof (sl_distinct _ _ _ HL) as Hlj.
    assert (forall k, sync_tmp store j k \/ k = lkey store -> ~ trash_key k) as Hnt
      by (intros k [|]; apply sync_not_trash; auto).
    split_and!.
    - eapply kept_only; [|exact Hg|by split]. unfold delete_keys. intros k [|]; auto.
    - rewrite Hg; [done|]. intros [|]; congruence.
    - rewrite Hg; [done|]. by intros [|].
    - eapply no_trash_only; [exact Hnt|exact Hg|done].
    - destruct Hs as [Hs|]; [|by right]. left. destruct Hl0 as (b & ? & Hb). exists b. by rewrite Hs. }
  unfold checked. apply triple_bind with (R := fun _ => looked_away); [|intros [[]|e]; by apply triple_ret].
  eapply triple_conseq; [by apply (triple_save store j dir HL removed f0)|done| |done]. intros r g [Hg _]. by apply Hslot.
Qed.

Lemma journaled_delete_absent (w w1 : world) (st : SyncSnapshot * SyncRunResult) :
  path_exists local w = (Ret false, w1) ->
  journaled_delete remote local j store st w =
  checked (save store (snapshot_remove remote st.1)) (snapshot_remove remote st.1, st.2) (go_on (snapshot_remove remote st.1, st.2)) w1.
Proof. intros Hw. unfold journaled_delete. destruct st as [sn r]. by rewrite (clean_bind _ _ _ _ _ Hw). Qed.

(** ** Recovery *)

Context `{!JsonRoundTrip PendingSyncAction} `{!JsonRoundTrip SyncLedgerFileV3}.

(** Either nothing happened or the whole delete did. *)
Definition delete_settled (f : fs) (s' : SyncSnapshot) : Prop :=
  only_on delete_keys f0 f /\ f !! jkey j = None /\ ledger_is store s' f /\ no_trash f /\
  (s' = s /\ f !! components local = Some (File c) \/ s' = removed /\ f !! components local = None).

(** The row was dropped although the file is still there. *)
Definition row_dropped (f : fs) (s' : SyncSnapshot) : Prop :=
  only_on delete_keys f0 f /\ f !! jkey j = None /\ ledger_is store s' f /\ no_trash f /\
  s' = removed /\ f !! components local = Some (File c).

Lemma recover_looked_away (root : path) (f : fs) (rs : list Z) (s1 : SyncSnapshot) :
  looked_away f -> ledger_is store s1 f ->
  exists s2 f2 rs2, recover_in_root j s1 root (save store) (mkWorld f [] rs) = (Ret (Ok s2), mkWorld f2 [] rs2) /\
    (delete_settled f2 s2 \/ row_dropped f2 s2).
Proof.
  intros ((Hk & _) & Hj & Hf & Ht & Hs) Hl1. exists s1, f, rs. split; [by apply clean_recover_none|].
  destruct Hs as [Hs|Hs].
  - left. assert (s1 = s) as -> by by apply (ledger_is_unique store s1 s f). split_and!; auto.
  - right. assert (s1 = removed) as -> by by apply (ledger_is_unique store s1 removed f). split_and!; auto.
Qed.

Lemma clean_remove (p : path) (c' : list byte) (f : fs) (rs : list Z) :
  f !! components p = Some (File c') ->
  remove_file p (mkWorld f [] rs) = (Ret (Ok ()), mkWorld (delete (components p) f) [] rs).
Proof. intros Hp. unfold remove_file, syscall. cbn [w_fs w_faults w_rand]. by rewrite Hp. Qed.

Lemma recover_delete (root : path) (f : fs) (n : Z) (rs : list Z) (s1 : SyncSnapshot) :
  (forall a : SyncLedgerFileV3, exists bs, to_json a = Ok bs) ->
  path_is_safe local root = true -> (forall m, path_is_safe (trash_name local m) root = true) ->
  f !! components (ledger_tmp (st_path store) n) = None -> delete_inv f -> ledger_is store s1 f ->
  exists s2 f2 rs2, recover_in_root j s1 root (save store) (mkWorld f [] (n :: rs)) = (Ret (Ok s2), mkWorld f2 [] rs2) /\
    delete_settled f2 s2.
Proof.
  intros Htotal Hsafe Hsafe' Hn (Hk & Hdr & Hph) Hl1. unfold recover_in_root.
  assert (forall m, action_safe (Some root) (PDelete remote local (trash_name local m)) = true) as Has.
  { intros m. simpl. by rewrite Hsafe, Hsafe'. }
  destruct (xn_local HX) as (N1 & N2 & N3 & N4).
  pose proof (sl_distinct _ _ _ HL) as Hlj. pose proof (sl_ledger _ _ _ HL) as Hlt.
  destruct Hph as [Hj Hf Ht Hs|trash Htk [m ->] Hj Hf Ht Hs|trash [m ->] Hj Hf Ht Hs|Hj Hf Ht Hs].
  - rewrite (ledger_is_unique store s1 s f) by done.
    exists s, f, (n :: rs). split; [by apply clean_recover_none|]. split_and!; auto.
  - rewrite (ledger_is_unique store s1 s f) by done. destruct Hj as (jb & Hjb & Hj).
    exists s, (delete (jkey j) f), (n :: rs). split.
    + unfold recover_impl. erewrite clean_bind by (apply (clean_read_some j (PDelete remote local (trash_name local m))); by exists jb). cbv beta iota. rewrite Has.
      cbn [negb]. erewrite clean_bind by apply clean_exists. rewrite bool_decide_eq_true_2 by (rewrite Hf; eauto).
      erewrite clean_bind by apply clean_exists. rewrite bool_decide_eq_false_2 by (rewrite (Ht _ Htk); by intros []).
      erewrite clean_bind by reflexivity. cbv beta iota.
      erewrite clean_bind by (eapply clean_clear; exact Hj). reflexivity.
    + split_and!.
      * etrans; [exact Hk|]. apply only_on_delete. unfold delete_keys. auto.
      * apply lookup_delete_eq.
      * destruct Hs as (b & ? & Hb). exists b. by rewrite lookup_delete_ne.
      * intros k Hkk. rewrite lookup_delete_ne; [by apply Ht|]. intros <-. apply (xn_trash HX) in Hkk. naive_solver.
      * left. by rewrite lookup_delete_ne.
  - destruct (Htotal (ledger_file store (snapshot_remove remote s1))) as [bytes Hb]. destruct Hj as (jb & Hjb & Hj).
    assert (snapshot_remove remote s1 = removed) as Heq.
    { destruct Hs as [Hs|Hs]; rewrite (ledger_is_unique store s1 _ f Hl1 Hs); [done|].
      unfold snapshot_remove. simpl. by rewrite delete_delete_eq. }
    set (tk := components (trash_name local m)). assert (trash_key tk) as Htk by by exists m.
    destruct (xn_trash HX _ Htk) as (N5 & N6 & N7).
    set (g := delete tk f).
    assert (only_on (fun k => k = tk) f g) as Hg by by apply only_on_delete.
    assert (dir_ready dir g) as Hdg.
    { eapply dir_ready_only; [|exact Hg|done]. intros k ->. apply (xn_dirs HX). auto. }
    assert (g !! lkey store = f !! lkey store) as Hgl by (apply Hg; congruence).
    assert (g !! jkey j = f !! jkey j) as Hgj by (apply Hg; congruence).
    assert (g !! lkey store <> Some Dir) as Hnd by (rewrite Hgl; by destruct Hl1 as (? & _ & ->)).
    exists (snapshot_remove remote s1), (delete (jkey j) (<[lkey store := File bytes]> g)), rs. split.
    + unfold recover_impl. erewrite clean_bind by (apply (clean_read_some j (PDelete remote local (trash_name local m))); by exists jb). cbv beta iota. rewrite Has.
      cbn [negb]. erewrite clean_bind by apply clean_exists. rewrite bool_decide_eq_false_2 by (rewrite Hf; by intros []).
      erewrite clean_bind by apply clean_exists.
      assert (f !! components (ledger_tmp (st_path store) n) = g !! components (ledger_tmp (st_path store) n)) as Hgn.
      { symmetry. apply Hg. intros He. apply N5. rewrite <- He. exists n. by left. }
      fold tk. destruct Ht as [[Ht _]|Ht].
      * rewrite bool_decide_eq_true_2 by (fold tk in Ht; rewrite Ht; eauto).
        erewrite clean_bind.
        2: { unfold fails_local, io_map_err. erewrite clean_bind by by eapply clean_remove. reflexivity. }
        cbv beta iota. apply (clean_commit store j dir HL _ g n rs bytes jb); [done|done|done|congruence|congruence].
      * rewrite bool_decide_eq_false_2 by (rewrite (Ht _ Htk); by intros []).
        erewrite clean_bind by reflexivity. cbv beta iota.
        assert (g = f) as -> by (apply delete_id; by apply Ht).
        by eapply clean_commit.
    + rewrite Heq in *. split_and!.
      * etrans; [exact Hk|]. etrans; [eapply only_on_weaken; [|exact Hg]; unfold delete_keys; intros k ->; auto 10|].
        etrans; [apply (only_on_insert _ _ (lkey store))|apply only_on_delete]; unfold delete_keys; auto.
      * apply lookup_delete_eq.
      * exists bytes. split; [done|]. rewrite lookup_delete_ne by done. apply lookup_insert_eq.
      * intros k Hkk. destruct (xn_trash HX _ Hkk) as (? & ? & ?).
        rewrite lookup_delete_ne, lookup_insert_ne by done. unfold g.
        destruct (decide (k = tk)) as [->|]; [apply lookup_delete_eq|]. rewrite lookup_delete_ne by done.
        destruct Ht as [[_ Hr]|Hr]; auto.
      * right. split; [done|]. rewrite lookup_delete_ne, lookup_insert_ne by done. unfold g.
        rewrite lookup_delete_ne; [done|]. intros He. rewrite <- He in N4. by apply N4.
  - rewrite (ledger_is_unique store s1 removed f) by done.
    eexists _, f, (n :: rs). split; [by apply clean_recover_none|]. split_and!; auto.
Qed.

End DeleteCrash.
