(* ===== verification/SyncLayout.v ===== *)
(** * Ordinary locations of the sync files

    The layout the crash theorems assume holds of every ledger file
    [/dir/.../key.json] whose key has no dot, and of every destination under another
    top-level directory. *)

From Stdlib Require Import Strings.String Strings.Ascii.
From stdpp Require Import gmap.
From S2P Require Import Prelude Errors Domain Handshake Text Paths Fs SyncStore SyncJournal Sync SyncCrash SyncDelete.

#[local] Open Scope string_scope.
#[local] Open Scope list_scope.
#[local] Open Scope Z_scope.

Fixpoint no_char (c : ascii) (s : string) : bool :=
  match s with
  | EmptyString => true
  | String d s => negb (bool_decide (d = c)) && no_char c s
  end.

(** A plain file name. *)
Definition ordinary (s : string) : Prop := no_slash s = true /\ trivial_seg s = false /\ s <> "..".

Lemma no_slash_app (a b : string) : no_slash (a +:+ b) = no_slash a && no_slash b.
Proof.
  unfold String.app. induction a as [|c a IH]; [done|]. simpl. rewrite IH. by rewrite andb_assoc.
Qed.

Lemma no_slash_pretty (n : Z) : no_slash (pretty n) = true.
Proof.
  assert (forall x s, no_slash (pretty_N_go x s) = no_slash s) as Hgo.
  { intros x. induction (N.lt_wf_0 x) as [x _ IH]; intros s.
    destruct (decide (x = 0%N)) as [->|Hx]; [done|].
    rewrite pretty_N_go_step by lia. rewrite IH by (apply N.div_lt; lia).
    simpl. unfold pretty_N_char. by repeat case_match. }
  assert (forall x : N, no_slash (pretty x) = true) as HN.
  { intros x. unfold pretty, pretty_N. case_decide; [done|]. by rewrite Hgo. }
  destruct n as [|p|p]; [done|apply HN|]. exact (HN (N.pos p)).
Qed.

Lemma last_dot_spec (a b : string) (i : nat) (found : option nat) :
  no_char "."%char b = true ->
  last_dot (a +:+ String "."%char b) i found = Some (i + String.length a)%nat.
Proof.
  intros Hb. assert (forall s i f, no_char "."%char s = true -> last_dot s i f = f) as Hno.
  { induction s as [|c s IH]; intros i' f; simpl; [done|]. case_bool_decide; simpl; [done|]. apply IH. }
  unfold String.app. revert i found. induction a as [|c a IH]; intros i found; simpl.
  - rewrite Hno by done. f_equal. lia.
  - rewrite IH. f_equal. lia.
Qed.

Lemma substring_app (a b : string) : String.substring 0 (String.length a) (a +:+ b) = a.
Proof.
  unfold String.app. induction a as [|c a IH]; simpl; [by destruct b|]. by rewrite IH.
Qed.

Lemma with_extension_spec (dirs : list string) (stem old ext : string) :
  Forall (fun x => no_slash x = true) (dirs ++ [stem +:+ String "."%char old]) ->
  stem <> "" -> no_char "."%char old = true ->
  with_extension (join_slash (dirs ++ [stem +:+ String "."%char old])) ext =
    join_slash (dirs ++ [stem +:+ String "."%char ext]).
Proof.
  intros Hns Hstem Hold. unfold with_extension.
  rewrite split_join_slash by first [done | by destruct dirs].
  rewrite reverse_snoc, last_dot_spec by done. simpl Nat.add.
  destruct (String.length stem) as [|m] eqn:E; [by destruct stem|]. rewrite <- E, substring_app.
  by rewrite reverse_cons, reverse_involutive.
Qed.

Lemma components_absolute (l : list string) :
  l <> [] -> Forall (fun x => no_slash x = true) l -> components (join_slash ("" :: l)) = RootDir :: body l.
Proof.
  intros Hne Hl. unfold components, path_head. rewrite split_join_slash by by repeat constructor.
  by destruct l.
Qed.

Lemma body_ordinary (l : list string) : Forall ordinary l -> body l = Normal <$> l.
Proof.
  induction 1 as [|x l (Hs & Ht & Hp) Hl IH]; [done|].
  change (body (x :: l)) with (match seg_component x with Some y => y :: body l | None => body l end).
  unfold seg_component. rewrite Ht, bool_decide_eq_false_2 by done. by rewrite IH.
Qed.

Lemma ordinary_no_slash (l : list string) : Forall ordinary l -> Forall (fun x => no_slash x = true) l.
Proof. intros Hl. eapply Forall_impl; [exact Hl|]. by intros x []. Qed.

Lemma components_ordinary (l : list string) :
  l <> [] -> Forall ordinary l -> components (join_slash ("" :: l)) = RootDir :: (Normal <$> l).
Proof. intros Hne Hl. rewrite components_absolute by auto using ordinary_no_slash. by rewrite body_ordinary. Qed.

Lemma join_slash_snoc_app (l : list string) (x s : string) : join_slash (l ++ [x]) +:+ s = join_slash (l ++ [x +:+ s]).
Proof.
  induction l as [|y l IH]; [done|].
  assert (forall t, join_slash ((y :: l) ++ [t]) = y +:+ String slash (join_slash (l ++ [t]))) as Hj
    by (intros t; by destruct l).
  rewrite !Hj, app_assoc_str, <- IH. done.
Qed.

(** A name with a suffix after an ordinary start stays ordinary. *)
Lemma ordinary_suffix (c : ascii) (a s : string) :
  c <> "."%char -> no_slash (String c a) = true -> no_slash s = true -> ordinary (String c a +:+ s).
Proof.
  intros Hc Ha Hs. split_and!.
  - by rewrite no_slash_app, Ha.
  - unfold trivial_seg. apply bool_decide_eq_false. intros [Heq|Heq]; [done|]. injection Heq as ->. done.
  - intros Heq. injection Heq as ->. done.
Qed.

Lemma in_prefixes (x : key) (q : key) : x ∈ prefixes_of q -> x `prefix_of` q /\ x <> [].
Proof.
  revert x. induction q as [|a q IH]; intros x; simpl; [set_solver|].
  rewrite elem_of_cons, list_elem_of_fmap. intros [->|(y & -> & [Hy _]%IH)].
  - split; [|done]. by exists q.
  - split; [|done]. by apply prefix_cons.
Qed.

Lemma app_inj_str (a x y : string) : a +:+ x = a +:+ y -> x = y.
Proof. unfold String.app. induction a as [|b a IH]; simpl; [done|]. intros [= H]. auto. Qed.

(** ** The store's files *)

Section Layout.
Context (d : string) (dirs : list string) (c : ascii) (k : string).
Context (Hdirs : Forall ordinary (d :: dirs)) (Hc : c <> "."%char) (Hk : no_slash (String c k) = true).

Abbreviation name := (String c k).
Definition sync_dir : path := join_slash ("" :: d :: dirs).
Definition ledger_path : path := join_slash ("" :: (d :: dirs) ++ [name +:+ ".json"]).

(** The key of a file in the directory of the store. *)
Definition in_dir (file_name : string) : key := RootDir :: (Normal <$> (d :: dirs)) ++ [Normal file_name].

Lemma in_dir_inj (a b : string) : in_dir a = in_dir b -> a = b.
Proof.
  unfold in_dir. intros Heq. injection Heq as Heq. change (Normal d :: ?x) with (([Normal d] ++ x)) in Heq.
  apply (f_equal reverse) in Heq. rewrite !reverse_snoc in Heq. by injection Heq.
Qed.

Lemma all_no_slash (s : string) :
  no_slash s = true -> Forall (fun x => no_slash x = true) ("" :: (d :: dirs) ++ [name +:+ s]).
Proof.
  intros Hs. constructor; [done|]. apply Forall_app. split; [by apply ordinary_no_slash|].
  constructor; [|done]. by rewrite no_slash_app, Hk.
Qed.

Lemma components_in_dir (s : string) :
  no_slash s = true -> components (join_slash ("" :: (d :: dirs) ++ [name +:+ s])) = in_dir (name +:+ s).
Proof.
  intros Hs. rewrite components_ordinary; [|by destruct dirs|].
  - unfold in_dir. by rewrite fmap_app.
  - apply Forall_app. split; [done|]. constructor; [|done]. by apply ordinary_suffix.
Qed.

Lemma parent_key_in_dir (s : string) : parent_key (in_dir s) = Some (RootDir :: (Normal <$> (d :: dirs))).
Proof.
  unfold in_dir, parent_key. change (RootDir :: ?x ++ ?y) with ((RootDir :: x) ++ y).
  rewrite reverse_snoc. by rewrite reverse_involutive.
Qed.

Lemma parent_in_dir (s : string) :
  no_slash s = true -> path_parent (join_slash ("" :: (d :: dirs) ++ [name +:+ s])) = Some sync_dir.
Proof.
  intros Hs. unfold path_parent. rewrite components_in_dir, parent_key_in_dir by done.
  rewrite split_join_slash by first [done | by apply all_no_slash].
  assert (drop_components 0 (reverse ("" :: d :: dirs)) = reverse ("" :: d :: dirs)) as Hr.
  { rewrite reverse_cons. destruct (reverse (d :: dirs)) as [|x l] eqn:E.
    { apply (f_equal reverse) in E. by rewrite reverse_involutive in E. }
    apply Forall_reverse in Hdirs. rewrite E in Hdirs. apply Forall_cons in Hdirs as [(_ & Hx & _) _].
    simpl. by rewrite Hx. }
  change ("" :: (d :: dirs) ++ [name +:+ s]) with (("" :: d :: dirs) ++ [name +:+ s]).
  rewrite reverse_snoc. destruct (ordinary_suffix c k s Hc Hk Hs) as (_ & Ht & _).
  assert (drop_components 0 ((name +:+ s) :: reverse ("" :: d :: dirs)) = (name +:+ s) :: reverse ("" :: d :: dirs)) as ->.
  { cbn [drop_components]. by rewrite Ht. }
  cbn [tail]. rewrite Hr, reverse_involutive.
  change (body ("" :: d :: dirs)) with (body (d :: dirs)). rewrite body_ordinary by done.
  rewrite bool_decide_eq_false_2 by done. by rewrite andb_false_r.
Qed.

Definition sample_store (identity : SyncLedgerIdentity) : SyncStore := mkSyncStore ledger_path identity.
Abbreviation sample_journal := (for_ledger ledger_path).

Lemma journal_path_in_dir : jr_path sample_journal = join_slash ("" :: (d :: dirs) ++ [name +:+ ".json.journal"]).
Proof.
  unfold for_ledger, ledger_path. rewrite split_join_slash by first [done | by apply all_no_slash].
  change ("" :: (d :: dirs) ++ [name +:+ ".json"]) with (("" :: d :: dirs) ++ [name +:+ ".json"]).
  rewrite reverse_snoc. cbn [jr_path]. rewrite reverse_cons, reverse_involutive, app_assoc_str. done.
Qed.

Lemma ledger_tmp_in_dir (n : Z) : components (ledger_tmp ledger_path n) = in_dir (name +:+ (".json.tmp-" +:+ pretty n)).
Proof.
  rewrite <- components_in_dir by by rewrite no_slash_app, no_slash_pretty.
  unfold ledger_tmp, ledger_path.
  change ("" :: (d :: dirs) ++ [?x]) with (("" :: d :: dirs) ++ [x]).
  change (name +:+ ".json") with (name +:+ String "."%char "json").
  rewrite with_extension_spec; [done|by apply all_no_slash|done|done].
Qed.

Lemma journal_tmp_in_dir (n : Z) :
  components (journal_tmp sample_journal n) = in_dir (name +:+ (".json.tmp-" +:+ pretty n)).
Proof.
  rewrite <- components_in_dir by by rewrite no_slash_app, no_slash_pretty.
  unfold journal_tmp. rewrite journal_path_in_dir.
  change ("" :: (d :: dirs) ++ [?x]) with (("" :: d :: dirs) ++ [x]).
  change (name +:+ ".json.journal") with (name +:+ (".json" +:+ String "."%char "journal")).
  rewrite <- app_assoc_str. rewrite with_extension_spec; [|rewrite app_assoc_str; by apply all_no_slash|done|done].
  by rewrite app_assoc_str.
Qed.

Lemma components_sync_dir : components sync_dir = RootDir :: (Normal <$> (d :: dirs)).
Proof. by apply components_ordinary. Qed.

(** Every ledger file of this shape satisfies the layout. *)
Lemma sync_layout_ordinary (identity : SyncLedgerIdentity) :
  sync_layout (sample_store identity) sample_journal sync_dir.
Proof.
  assert (lkey (sample_store identity) = in_dir (name +:+ ".json")) as HL by by apply components_in_dir.
  assert (jkey sample_journal = in_dir (name +:+ ".json.journal")) as HJ.
  { unfold jkey. rewrite journal_path_in_dir. by apply components_in_dir. }
  assert (forall x, sync_tmp (sample_store identity) sample_journal x ->
            exists n : Z, x = in_dir (name +:+ (".json.tmp-" +:+ pretty n))) as HT.
  { intros x (n & [-> | ->]); exists n; [apply ledger_tmp_in_dir|apply journal_tmp_in_dir]. }
  split.
  - by apply parent_in_dir.
  - rewrite journal_path_in_dir. by apply parent_in_dir.
  - rewrite HL, HJ. intros Heq%in_dir_inj%app_inj_str. done.
  - intros (n & Heq)%HT. rewrite HL in Heq. apply in_dir_inj, app_inj_str in Heq. done.
  - intros (n & Heq)%HT. rewrite HJ in Heq. apply in_dir_inj, app_inj_str in Heq. done.
  - intros x Hx. assert (exists y, x = in_dir y) as [y ->].
    { destruct Hx as [(n & ->)%HT | [-> | ->]]; eauto. }
    rewrite components_sync_dir. intros [Heq | [[z Hz] _]%in_prefixes]%elem_of_cons.
    + apply (f_equal length) in Heq. unfold in_dir in Heq. simpl in Heq. rewrite length_app, !length_fmap in Heq. simpl in Heq. lia.
    + apply (f_equal length) in Hz. unfold in_dir in Hz. simpl in Hz. rewrite !length_app, !length_fmap in Hz. simpl in Hz. lia.
Qed.

End Layout.

(** ** Destinations *)

Section Destination.
Context (d : string) (dirs : list string) (c : ascii) (k : string).
Context (Hdirs : Forall ordinary (d :: dirs)) (Hc : c <> "."%char) (Hk : no_slash (String c k) = true).
Context (e : string) (edirs : list string) (a : ascii) (file_name : string).
Context (Hedirs : Forall ordinary (e :: edirs)) (Ha : a <> "."%char) (Hf : no_slash (String a file_name) = true).
Context (Hne : e <> d) (identity : SyncLedgerIdentity).

Definition destination : path := join_slash ("" :: (e :: edirs) ++ [String a file_name]).

(** A download that writes its target only. *)
Definition target_only (part : path) (x : key) : Prop := x = components part.

Abbreviation here := (in_dir e edirs).
Abbreviation store := (sample_store d dirs c k identity).
Abbreviation journal := (for_ledger (ledger_path d dirs c k)).

Lemma destination_key : components destination = here (String a file_name).
Proof.
  pose proof (components_in_dir e edirs a file_name Hedirs Ha Hf "" eq_refl) as Hc'.
  by rewrite app_nil_r_str in Hc'.
Qed.

Lemma suffixed_key (s : string) : no_slash s = true -> components (destination +:+ s) = here (String a file_name +:+ s).
Proof.
  intros Hs. unfold destination.
  change ("" :: (e :: edirs) ++ [?x]) with (("" :: e :: edirs) ++ [x]). rewrite join_slash_snoc_app.
  by apply components_in_dir.
Qed.

Lemma part_key (n : Z) : components (part_name destination n) = here (String a file_name +:+ (".hs-part." +:+ pretty n)).
Proof. unfold part_name. rewrite suffixed_key; [done|]. by rewrite no_slash_app, no_slash_pretty. Qed.

Lemma sync_keys (x : key) :
  sync_tmp store journal x \/ x = lkey store \/ x = jkey journal -> exists y, x = in_dir d dirs y.
Proof.
  intros [(n & [-> | ->]) | [-> | ->]].
  - eexists. by apply ledger_tmp_in_dir.
  - eexists. by apply journal_tmp_in_dir.
  - eexists. by apply components_in_dir.
  - eexists. unfold jkey. rewrite journal_path_in_dir by done. by apply components_in_dir.
Qed.

Lemma here_elsewhere (x y : string) : here x <> in_dir d dirs y.
Proof. unfold in_dir. intros [=]. done. Qed.

Lemma above_cases (x : key) :
  x ∈ prefixes_of (RootDir :: (Normal <$> (e :: edirs))) -> (length x <= S (S (length edirs)))%nat /\
  forall y z, x <> in_dir d dirs y /\ x <> here z.
Proof.
  intros [Hp Hx]%in_prefixes. split.
  - apply prefix_length in Hp. simpl in Hp. by rewrite length_fmap in Hp.
  - intros y z. split; intros ->; destruct Hp as [w Hw]; unfold in_dir in Hw.
    + simpl in Hw. by injection Hw.
    + apply (f_equal length) in Hw. simpl in Hw. rewrite !length_app, !length_fmap in Hw. simpl in Hw. lia.
Qed.

Lemma here_no_sync (y : string) : ~ (sync_tmp store journal (here y) \/ here y = lkey store \/ here y = jkey journal).
Proof. intros [z Hz]%sync_keys. by apply here_elsewhere in Hz. Qed.

Lemma here_no_dir (y : string) : here y ∉ components (sync_dir d dirs) :: prefixes_of (components (sync_dir d dirs)).
Proof.
  rewrite components_sync_dir by done.
  intros [Heq | [[w Hw] _]%in_prefixes]%elem_of_cons; [unfold in_dir in Heq; by injection Heq|].
  unfold in_dir in Hw. simpl in Hw. by injection Hw.
Qed.

Lemma download_layout_ordinary :
  download_layout target_only store journal (sync_dir d dirs) destination (RootDir :: (Normal <$> (e :: edirs))).
Proof.
  assert (forall x, part_scratch target_only destination x ->
            exists n : Z, x = here (String a file_name +:+ (".hs-part." +:+ pretty n))) as HP.
  { intros x [n ->]. exists n. apply part_key. }
  pose proof here_no_sync as HE. split.
  - rewrite destination_key. apply parent_key_in_dir.
  - rewrite destination_key. split_and!; [intros H1; eapply HE; eauto..|].
    intros [n Hn]%HP. apply in_dir_inj in Hn. rewrite <- (app_nil_r_str (String a file_name)) in Hn at 1.
    by apply app_inj_str in Hn.
  - intros x [n ->]%HP. split_and!; intros H1; eapply HE; eauto.
  - intros x [_ Hx]%above_cases. rewrite destination_key.
    assert (forall y, x <> in_dir d dirs y) as H1 by (intros y; apply (Hx y "")).
    assert (~ (sync_tmp store journal x \/ x = lkey store \/ x = jkey journal)) as H2 by (intros [y Hy]%sync_keys; by apply (H1 y)).
    split_and!; [by intros H3; apply H2; auto..|apply (Hx "")|].
    intros [n Hn]%HP. by apply (Hx "" _) in Hn.
  - intros x [[n ->]%HP | ->]; [apply here_no_dir|]. rewrite destination_key. apply here_no_dir.
Qed.

Lemma trash_name_key (n : Z) : components (trash_name destination n) = here (String a file_name +:+ (".hs-trash." +:+ pretty n)).
Proof. unfold trash_name. rewrite suffixed_key; [done|]. by rewrite no_slash_app, no_slash_pretty. Qed.

Lemma delete_layout_ordinary : delete_layout store journal (sync_dir d dirs) destination.
Proof.
  assert (forall x, trash_key destination x ->
            exists n : Z, x = here (String a file_name +:+ (".hs-trash." +:+ pretty n))) as HP.
  { intros x [n ->]. exists n. apply trash_name_key. }
  split.
  - rewrite destination_key. split_and!; [intros Hx; eapply here_no_sync; eauto..|].
    intros [n Hn]%HP. apply in_dir_inj in Hn. rewrite <- (app_nil_r_str (String a file_name)) in Hn at 1.
    by apply app_inj_str in Hn.
  - intros x [n ->]%HP. split_and!; intros Hx; eapply here_no_sync; eauto.
  - intros x [[n ->]%HP | ->]; [apply here_no_dir|]. rewrite destination_key. apply here_no_dir.
Qed.

End Destination.
