(* ===== verification/SyncPlan.v ===== *)
(** * What the plan and its execution do

    The exactness of the plan, of the conflict check and of local destinations; what
    a run leaves to do; and the files a run may touch. *)

From Stdlib Require Import Strings.String.
From stdpp Require Import gmap.
From S2P Require Import Prelude Errors Domain Handshake Text Paths Fs FsLogic SyncStore SyncJournal Sync.

#[local] Open Scope string_scope.
#[local] Open Scope list_scope.
#[local] Open Scope Z_scope.

(** ** The plan *)

#[export] Instance file_class_eq_dec : EqDecision file_class.
Proof. solve_decision. Defined.

(** The files of a class, in the order the phone lists them. *)
Definition of_class (phone : list RemoteFile) (s : SyncSnapshot) (cl : file_class) : list string :=
  rf_path <$> filter (fun f => rf_is_directory f = false /\ classify s f = cl) phone.

Lemma of_class_cons (s : SyncSnapshot) (f : RemoteFile) (phone : list RemoteFile) (cl : file_class) :
  of_class (f :: phone) s cl =
  (if bool_decide (rf_is_directory f = false /\ classify s f = cl) then [rf_path f] else []) ++ of_class phone s cl.
Proof. unfold of_class. rewrite filter_cons. by case_decide; case_bool_decide. Qed.

Lemma plan_files_spec (s : SyncSnapshot) (phone : list RemoteFile) (added info : list string) :
  plan_files s phone added info = (added ++ of_class phone s ClassAdded, info ++ of_class phone s ClassInfo).
Proof.
  revert added info. induction phone as [|f phone IH]; intros added info; simpl.
  { by rewrite !app_nil_r. }
  rewrite !of_class_cons. destruct (rf_is_directory f) eqn:E; [rewrite IH; repeat case_bool_decide; naive_solver|].
  destruct (classify s f) eqn:Ec; rewrite IH; repeat case_bool_decide; simpl; rewrite <- ?app_assoc; naive_solver.
Qed.

Lemma elem_of_class (phone : list RemoteFile) (s : SyncSnapshot) (cl : file_class) (p : string) :
  p ∈ of_class phone s cl <->
  exists f, f ∈ phone /\ rf_path f = p /\ rf_is_directory f = false /\ classify s f = cl.
Proof.
  unfold of_class. rewrite list_elem_of_fmap. split.
  - intros (f & -> & Hf). apply list_elem_of_filter in Hf as [[H1 H2] H3]. by exists f.
  - intros (f & H3 & <- & H1 & H2). exists f. split; [done|]. by apply list_elem_of_filter.
Qed.

Lemma on_phone_true (phone : list RemoteFile) (p : string) :
  on_phone phone p = true <-> exists f, f ∈ phone /\ rf_path f = p.
Proof.
  unfold on_phone. rewrite existsb_exists. split; intros (f & H1 & H2); exists f.
  - apply bool_decide_eq_true in H2. by rewrite list_elem_of_In.
  - rewrite bool_decide_eq_true. by rewrite <- list_elem_of_In.
Qed.

Lemma plan_diff_unfold (phone : list RemoteFile) (s : SyncSnapshot) :
  plan_diff phone s = mkSyncDiff (of_class phone s ClassAdded) (of_class phone s ClassInfo)
    (filter (fun p => negb (on_phone phone p)) (btree_keys (ss_files s))) [].
Proof. unfold plan_diff. by rewrite plan_files_spec. Qed.


(** ** One download, one delete *)

Section Steps.
Context `{Crypto} `{Downloader} `{Json PendingSyncAction} `{Json SyncLedgerFileV3}.

Abbreviation progress := (SyncSnapshot * SyncRunResult)%type.

Lemma yields_checked (m : io (Res unit)) (st : progress) k (Q : Res unit * progress -> Prop) :
  (forall e, Q (Err e, st)) -> yields k Q -> yields (checked m st k) Q.
Proof. intros He Hk. apply yields_then. intros [u|e]; [done|]. by apply yields_ret. Qed.

(** The row a completed download of a file records. *)
Definition is_record_of (file : RemoteFile) (dest : path) (r : SyncFileRecord) : Prop :=
  sr_size r = rf_size file /\ sr_checksum r = rf_checksum file /\ sr_ext_data r = rf_ext_data file /\
  sr_modified_at r = rf_modified_at file /\ sr_local_path r = dest /\ is_Some (sr_local_sha256 r).

Lemma yields_download (p : string) (file : RemoteFile) (dest : path) j store (s : SyncSnapshot) (r : SyncRunResult) :
  yields (journaled_download p file dest j store (s, r)) (fun o =>
    o.2 = (s, add_failure p r) \/
    exists rec, is_record_of file dest rec /\ o.2 = (snapshot_insert p rec s, add_downloaded p r)).
Proof.
  unfold journaled_download. apply yields_then. intros [[part hash]|e]; [|apply yields_ret; by left].
  apply yields_then. intros [u|e]; [|apply yields_then; intros _; apply yields_ret; by left].
  apply yields_then. intros [u'|e]; [|apply yields_ret; by left].
  repeat (apply yields_checked; [intros e; right; eexists; split; [|done]; by repeat split|]).
  apply yields_ret. right. eexists. split; [|done]. by repeat split.
Qed.

Lemma yields_delete (p : string) (local : path) j store (s : SyncSnapshot) (r : SyncRunResult) :
  yields (journaled_delete p local j store (s, r)) (fun o =>
    o.2 = (s, add_failure p r) \/
    exists r', (r' = r \/ r' = add_deleted p r) /\ o.2 = (snapshot_remove p s, r')).
Proof.
  unfold journaled_delete. apply yields_then. intros [|]; simpl.
  - apply yields_then. intros [|]; [apply yields_ret; by left|].
    apply yields_then. intros n. apply yields_then. intros [u|e]; [|apply yields_ret; by left].
    apply yields_then. intros [u'|e]; [|apply yields_ret; by left].
    repeat (apply yields_checked; [intros e; right; eauto|]). apply yields_ret. right; eauto.
  - apply yields_checked; [intros e; right; eauto|]. apply yields_ret. right; eauto.
Qed.

(** ** A whole run *)

Context (config : SyncConfig) (phone : list RemoteFile) (conflicts : list string) (j : SyncJournal) (store : SyncStore).

Definition keeps_failures (a b : progress) : Prop := forall p, p ∈ run_failures a.2 -> p ∈ run_failures b.2.

Definition fetched (p : string) (s : SyncSnapshot) : Prop :=
  exists file dest rec, find_file phone p = Some file /\ local_destination config p = Ok dest /\
    ss_files s !! p = Some rec /\ is_record_of file dest rec.

(** What the downloads of [todo] leave of the progress [a]. *)
Definition downloads_post (todo : list string) (a b : progress) : Prop :=
  keeps_failures a b /\
  (forall p, p ∉ todo -> ss_files b.1 !! p = ss_files a.1 !! p) /\
  (forall p, p ∈ todo -> p ∉ conflicts -> is_Some (find_file phone p) -> p ∈ run_failures b.2 \/ fetched p b.1).

Definition deletes_post (s : SyncSnapshot) (todo : list string) (a b : progress) : Prop :=
  keeps_failures a b /\
  (forall p, p ∉ todo -> ss_files b.1 !! p = ss_files a.1 !! p) /\
  (forall p, p ∈ todo -> p ∉ conflicts -> is_Some (ss_files s !! p) ->
     p ∈ run_failures b.2 \/ ss_files b.1 !! p = None).

Lemma keeps_failure (p : string) (s : SyncSnapshot) (r : SyncRunResult) :
  keeps_failures (s, r) (s, add_failure p r) /\ p ∈ run_failures (add_failure p r).
Proof.
  split; [intros q Hq|]; simpl; rewrite elem_of_app; [by left|right]. by apply list_elem_of_singleton.
Qed.

Lemma downloads_skip (p : string) (todo : list string) (a b : progress) :
  (p ∈ conflicts \/ find_file phone p = None) -> downloads_post todo a b -> downloads_post (p :: todo) a b.
Proof.
  intros Hp (Hk & Hn & Hy). split; [done|]. split.
  - intros q Hq. apply Hn. rewrite elem_of_cons in Hq. tauto.
  - intros q [-> |Hq]%elem_of_cons Hc [f Hf]; [destruct Hp; congruence|]. apply Hy; [done..|by exists f].
Qed.

Lemma downloads_step (p : string) (file : RemoteFile) (dest : path) (todo : list string) (a m b : progress) :
  find_file phone p = Some file -> local_destination config p = Ok dest ->
  (m = (a.1, add_failure p a.2) \/
   exists rec, is_record_of file dest rec /\ m = (snapshot_insert p rec a.1, add_downloaded p a.2)) ->
  downloads_post todo m b -> downloads_post (p :: todo) a b.
Proof.
  intros Hf Hd Hm (Hk & Hn & Hy). destruct a as [s r]; simpl in Hm.
  assert (forall q, q <> p -> ss_files m.1 !! q = ss_files s !! q) as Hne.
  { intros q Hq. destruct Hm as [-> | (rec & _ & ->)]; [done|]. by apply lookup_insert_ne. }
  split; [|split].
  - intros q Hq. apply Hk. destruct Hm as [-> | (rec & _ & ->)]; [by apply (keeps_failure p s r)|done].
  - intros q [Hqp Hq]%not_elem_of_cons. rewrite Hn by done. by apply Hne.
  - intros q Hq Hc Hs. destruct (decide (q ∈ todo)) as [Ht|Ht]; [by apply Hy|].
    apply elem_of_cons in Hq as [-> |Hq]; [|done].
    destruct Hm as [-> | (rec & Hrec & ->)]; [left; by apply Hk, (keeps_failure p s r)|right].
    exists file, dest, rec. split_and!; [done..| |done]. rewrite Hn by done. apply lookup_insert_eq.
Qed.

Lemma yields_stop (e : Error) (st : progress) (R : Res unit * progress -> Prop) :
  yields (stop e st) (fun o => o.1 = Ok () -> R o).
Proof. by apply yields_ret. Qed.

Lemma yields_run_added (todo : list string) (a : progress) :
  yields (run_added config phone conflicts todo j store a) (fun o => o.1 = Ok () -> downloads_post todo a o.2).
Proof.
  revert a. induction todo as [|p todo IH]; intros a; simpl.
  { apply yields_ret. intros _. split; [by intros q|split; [by intros q|]]. by intros q ?%elem_of_nil. }
  case_bool_decide as Hc; [eapply yields_conseq; [apply IH|]; intros o Ho Hok; apply downloads_skip; auto|].
  destruct (find_file phone p) as [file|] eqn:Hf;
    [|eapply yields_conseq; [apply IH|]; intros o Ho Hok; apply downloads_skip; auto].
  destruct (local_destination config p) as [dest|e] eqn:Hd; [|apply yields_stop].
  destruct a as [s r]. eapply yields_bind; [by apply yields_download|]. intros [[u|e] m] Hm; [|apply yields_stop].
  eapply yields_conseq; [apply IH|]. intros o Ho Hok. by eapply (downloads_step p file dest todo (s, r) m); auto.
Qed.

Lemma deletes_step (s : SyncSnapshot) (p : string) (todo : list string) (a m b : progress) :
  (m = (a.1, add_failure p a.2) \/
   exists r', (r' = a.2 \/ r' = add_deleted p a.2) /\ m = (snapshot_remove p a.1, r')) ->
  deletes_post s todo m b -> deletes_post s (p :: todo) a b.
Proof.
  intros Hm (Hk & Hn & Hy). destruct a as [s0 r]; simpl in Hm.
  split; [|split].
  - intros q Hq. apply Hk. destruct Hm as [-> | (r' & [-> | ->] & ->)]; [by apply (keeps_failure p s0 r)|done..].
  - intros q [Hqp Hq]%not_elem_of_cons. rewrite Hn by done.
    destruct Hm as [-> | (r' & _ & ->)]; [done|]. by apply lookup_delete_ne.
  - intros q Hq Hc Hs. destruct (decide (q ∈ todo)) as [Ht|Ht]; [by apply Hy|].
    apply elem_of_cons in Hq as [-> |Hq]; [|done].
    destruct Hm as [-> | (r' & _ & ->)]; [left; by apply Hk, (keeps_failure p s0 r)|right].
    rewrite Hn by done. apply lookup_delete_eq.
Qed.

Lemma deletes_skip (s : SyncSnapshot) (p : string) (todo : list string) (a b : progress) :
  (p ∈ conflicts \/ ss_files s !! p = None) -> deletes_post s todo a b -> deletes_post s (p :: todo) a b.
Proof.
  intros Hp (Hk & Hn & Hy). split; [done|]. split.
  - intros q Hq. apply Hn. rewrite elem_of_cons in Hq. tauto.
  - intros q [-> |Hq]%elem_of_cons Hc [f Hf]; [destruct Hp; congruence|]. apply Hy; [done..|by exists f].
Qed.

Lemma yields_run_deleted (s : SyncSnapshot) (todo : list string) (a : progress) :
  yields (run_deleted_paths s conflicts todo j store a) (fun o => o.1 = Ok () -> deletes_post s todo a o.2).
Proof.
  revert a. induction todo as [|p todo IH]; intros a; simpl.
  { apply yields_ret. intros _. split; [by intros q|split; [by intros q|]]. by intros q ?%elem_of_nil. }
  case_bool_decide as Hc; [eapply yields_conseq; [apply IH|]; intros o Ho Hok; apply deletes_skip; auto|].
  destruct (ss_files s !! p) as [rec|] eqn:Hr;
    [|eapply yields_conseq; [apply IH|]; intros o Ho Hok; apply deletes_skip; auto].
  destruct a as [s0 r]. eapply yields_bind; [by apply yields_delete|]. intros [[u|e] m] Hm; [|apply yields_stop].
  eapply yields_conseq; [apply IH|]. intros o Ho Hok. by eapply (deletes_step s p todo (s0, r) m); auto.
Qed.

Lemma refresh_idemp (file : RemoteFile) (r : SyncFileRecord) :
  refresh_record file (refresh_record file r) = refresh_record file r.
Proof. done. Qed.

Lemma run_info_lookup (info : list string) (s : SyncSnapshot) (p : string) :
  ss_files (run_info phone info s) !! p =
  match find_file phone p with
  | Some file => if bool_decide (p ∈ info) then refresh_record file <$> ss_files s !! p else ss_files s !! p
  | None => ss_files s !! p
  end.
Proof.
  revert s. induction info as [|q info IH]; intros s; simpl.
  { by destruct (find_file phone p). }
  rewrite IH. destruct (decide (q = p)) as [-> |Hq].
  - destruct (find_file phone p) as [file|] eqn:Hf; [|done].
    rewrite (bool_decide_eq_true_2 (p ∈ p :: info)) by (apply elem_of_cons; by left).
    unfold refresh_info. simpl. rewrite lookup_alter_eq. case_bool_decide; [|done].
    by destruct (ss_files s !! p).
  - assert (ss_files match find_file phone q with Some file => refresh_info q file s | None => s end !! p
            = ss_files s !! p) as ->.
    { destruct (find_file phone q); [|done]. simpl. by apply lookup_alter_ne. }
    destruct (find_file phone p); [|done].
    assert (bool_decide (p ∈ q :: info) = bool_decide (p ∈ info)) as ->; [|done].
    apply bool_decide_ext. rewrite elem_of_cons. naive_solver.
Qed.

Lemma yields_execute (diff : SyncDiff) (s : SyncSnapshot) :
  yields (execute_plan_with_checkpoint config phone diff s conflicts j store) (fun o => forall r u, o = Ok (r, u) ->
    exists mid last, downloads_post (sd_added diff) (s, mkSyncRunResult [] [] [] conflicts) mid /\
      deletes_post s (sd_deleted diff) mid last /\ u = run_info phone (sd_info_modified diff) last.1 /\ r = last.2).
Proof.
  unfold execute_plan_with_checkpoint. eapply yields_bind; [apply yields_run_added|].
  intros [[[]|e] mid] Hmid; [|by apply yields_ret]. eapply yields_bind; [apply yields_run_deleted|].
  intros [[[]|e] last] Hlast; [|by apply yields_ret]. apply yields_then. intros [u|e]; [|by apply yields_ret].
  apply yields_ret. intros r u' [= <- <-]. exists mid, last. split; [by apply Hmid|]. split; [by apply Hlast|done].
Qed.

Lemma find_file_Some (p : string) (file : RemoteFile) :
  find_file phone p = Some file -> file ∈ phone /\ rf_path file = p.
Proof. intros [Hin Hp]%List.find_some. apply bool_decide_eq_true in Hp. by rewrite list_elem_of_In. Qed.

End Steps.

Lemma find_file_NoDup (phone : list RemoteFile) (file : RemoteFile) :
  NoDup (rf_path <$> phone) -> file ∈ phone -> find_file phone (rf_path file) = Some file.
Proof.
  induction phone as [|f phone IH]; [by intros _ ?%elem_of_nil|].
  intros [Hn Hd]%NoDup_cons Hf. unfold find_file. simpl. case_bool_decide as Hp.
  - apply elem_of_cons in Hf as [-> |Hf]; [done|]. exfalso. apply Hn. rewrite Hp. by apply list_elem_of_fmap_2.
  - apply elem_of_cons in Hf as [-> |Hf]; [done|]. by apply IH.
Qed.

(** A row that agrees with the file leaves nothing to do. *)
Lemma classify_same (s : SyncSnapshot) (file : RemoteFile) (rec : SyncFileRecord) :
  ss_files s !! rf_path file = Some rec -> sr_checksum rec = rf_checksum file ->
  sr_ext_data rec = rf_ext_data file -> sr_modified_at rec = rf_modified_at file -> classify s file = ClassSame.
Proof. intros Hr H1 H2 H3. unfold classify. rewrite Hr. by rewrite !bool_decide_eq_true_2 by done. Qed.

Lemma classify_lookup (s t : SyncSnapshot) (file : RemoteFile) :
  ss_files s !! rf_path file = ss_files t !! rf_path file -> classify s file = classify t file.
Proof. unfold classify. by intros ->. Qed.

Lemma classify_info (s : SyncSnapshot) (file : RemoteFile) :
  classify s file = ClassInfo -> exists rec, ss_files s !! rf_path file = Some rec /\ sr_checksum rec = rf_checksum file.
Proof.
  unfold classify. destruct (ss_files s !! rf_path file) as [rec|]; [|done].
  case_bool_decide; [|done]. intros _. by exists rec.
Qed.

Lemma of_class_inv (phone : list RemoteFile) (s : SyncSnapshot) (cl : file_class) (file : RemoteFile) :
  NoDup (rf_path <$> phone) -> file ∈ phone -> rf_path file ∈ of_class phone s cl ->
  rf_is_directory file = false /\ classify s file = cl.
Proof.
  intros Hd Hf (f & Hin & Hp & H1 & H2)%elem_of_class.
  pose proof (find_file_NoDup phone file Hd Hf). pose proof (find_file_NoDup phone f Hd Hin). naive_solver congruence.
Qed.

Section Converges.
Context `{Crypto} (config : SyncConfig) (phone : list RemoteFile) (Hd : NoDup (rf_path <$> phone))
  (conflicts : list string) (s : SyncSnapshot) (mid last : SyncSnapshot * SyncRunResult).

Abbreviation diff := (plan_diff phone s).
Abbreviation updated := (run_info phone (sd_info_modified diff) last.1).

Context (Hmid : downloads_post config phone conflicts (sd_added diff) (s, mkSyncRunResult [] [] [] conflicts) mid)
  (Hlast : deletes_post conflicts s (sd_deleted diff) mid last).

Lemma not_deleted (file : RemoteFile) : file ∈ phone -> rf_path file ∉ sd_deleted diff.
Proof.
  rewrite plan_diff_unfold. intros Hf [Hn _]%list_elem_of_filter.
  by rewrite (proj2 (on_phone_true phone (rf_path file))) in Hn by eauto.
Qed.

Lemma updated_lookup (file : RemoteFile) : file ∈ phone ->
  ss_files updated !! rf_path file =
  if bool_decide (rf_path file ∈ sd_info_modified diff)
  then refresh_record file <$> ss_files mid.1 !! rf_path file else ss_files mid.1 !! rf_path file.
Proof.
  intros Hf. rewrite run_info_lookup, (find_file_NoDup phone file) by done.
  destruct Hlast as (_ & -> & _); [done|]. by apply not_deleted.
Qed.

Lemma settled_file (file : RemoteFile) :
  file ∈ phone -> rf_is_directory file = false ->
  classify updated file = ClassSame \/ rf_path file ∈ run_failures last.2 \/ rf_path file ∈ conflicts.
Proof.
  intros Hf Hdir. pose proof (updated_lookup file Hf) as Hu. pose proof (not_deleted file Hf) as Hnd.
  rewrite plan_diff_unfold in *. simpl in *.
  destruct Hmid as (Hk & Hn & Hy), Hlast as (Hk' & _ & _). simpl in Hn.
  pose proof (fun cl => of_class_inv phone s cl file Hd Hf) as Hinv.
  assert (rf_path file ∉ of_class phone s ClassAdded -> ss_files mid.1 !! rf_path file = ss_files s !! rf_path file) as Hsame.
  { apply Hn. }
  destruct (classify s file) eqn:Hc.
  - destruct (decide (rf_path file ∈ conflicts)) as [|Hnc]; [tauto|].
    destruct (Hy (rf_path file)) as [Hfl|(f & dest & rec & Hff & _ & Hrec & Hr)]; [|done| | |].
    + apply elem_of_class. eauto.
    + rewrite find_file_NoDup by done. by eexists.
    + right; left. by apply Hk'.
    + rewrite find_file_NoDup in Hff by done. injection Hff as <-. destruct Hr as (_ & H1 & H2 & H3 & _).
      left. rewrite Hrec in Hu. case_bool_decide; by eapply classify_same.
  - destruct (classify_info s file Hc) as (rec & Hrec & H1).
    rewrite bool_decide_eq_true_2 in Hu by (apply elem_of_class; eauto).
    rewrite Hsame, Hrec in Hu by (intros [_ Hx]%Hinv; congruence). left. by eapply classify_same.
  - rewrite bool_decide_eq_false_2, Hsame in Hu by (intros [_ Hx]%Hinv; congruence).
    left. by rewrite (classify_lookup _ s) by done.
Qed.

Lemma settled_row (p : string) :
  is_Some (ss_files updated !! p) -> on_phone phone p = false -> p ∈ run_failures last.2 \/ p ∈ conflicts.
Proof.
  intros Hp Hn. rewrite run_info_lookup in Hp.
  destruct (find_file phone p) as [f|] eqn:Hf.
  { apply find_file_Some in Hf. assert (on_phone phone p = true); [apply on_phone_true; naive_solver|congruence]. }
  destruct Hmid as (_ & Hm & _), Hlast as (_ & Hl & Hy). simpl in Hm.
  destruct (decide (p ∈ conflicts)) as [|Hc]; [by right|]. left.
  assert (p ∉ sd_added diff) as Hna.
  { rewrite plan_diff_unfold. simpl. intros (f & H1 & H2 & _)%elem_of_class.
    assert (on_phone phone p = true); [apply on_phone_true; eauto|congruence]. }
  destruct (decide (p ∈ sd_deleted diff)) as [Hdel|Hdel].
  - destruct (Hy p) as [|He]; [done..| |done|rewrite He in Hp; by destruct Hp].
    rewrite plan_diff_unfold in Hdel. apply list_elem_of_filter in Hdel as [_ Hk]. by apply elem_of_btree_keys.
  - rewrite Hl, Hm in Hp by done. exfalso. apply Hdel. rewrite plan_diff_unfold. simpl.
    apply list_elem_of_filter. rewrite Hn. split; [done|]. by apply elem_of_btree_keys.
Qed.

End Converges.

(** ** Paths under a root *)

Lemma normal_plain (r : path) : forallb is_normal (components r) = true -> plain r.
Proof.
  intros Hr. destruct (path_head_cases r) as [(x & He & _)|[(x & He & _)|[Hp _]]]; [..|done];
    unfold components in Hr; by rewrite He in Hr.
Qed.

Lemma is_absolute_components (p : path) : is_absolute p = true <-> exists k, components p = RootDir :: k.
Proof.
  unfold components. destruct (path_head_cases p) as [(x & He & Ha)|[(x & He & Ha)|[Hp Ha]]]; rewrite Ha.
  - rewrite He. split; [by eexists|done].
  - rewrite He. split; [done|by intros [k Hk]].
  - unfold plain in Hp. rewrite Hp. split; [done|]. simpl. intros [k Hk].
    assert (RootDir ∈ body (split_slash p)) as Hin by (rewrite Hk; apply elem_of_cons; by left).
    unfold body in Hin. apply list_elem_of_omap in Hin as (x & _ & Hx). unfold seg_component in Hx.
    repeat case_match; naive_solver.
Qed.

(** The rest of a path below a root, when it is made of normal components only. *)
Lemma stripped_normal (p root : path) (rel : key) :
  components p = components root ++ rel -> exists r, strip_prefix p root = Some r /\ components r = rel.
Proof.
  intros Hp. destruct (proj2 (strip_prefix_is_Some p root)) as [r Hr]; [by exists rel|].
  exists r. split; [done|]. apply strip_prefix_components in Hr as [Hr _].
  rewrite Hp in Hr. by apply app_inv_head in Hr.
Qed.

(** ** The conflict check on a disk that works *)

(** The row knows the hash of its local file, and something else is there now. *)
Definition locally_modified `{Crypto} (f : fs) (rec : SyncFileRecord) : Prop :=
  exists expected node, sr_local_sha256 rec = Some expected /\ f !! components (sr_local_path rec) = Some node /\
    forall c, node = File c -> sha256_hex c <> expected.

Section Conflicts.
Context `{Crypto} (f : fs) (rs : list Z).

Abbreviation still := (mkWorld f [] rs).

Lemma clean_conflicts_with (rec : SyncFileRecord) :
  exists b, conflicts_with rec still = (Ret b, still) /\ (b = true <-> locally_modified f rec).
Proof.
  unfold conflicts_with, locally_modified. destruct (sr_local_sha256 rec) as [expected|] eqn:He.
  2: { exists false. split; [done|]. naive_solver. }
  unfold path_exists, sha256_file, read_file, fails_local, io_map_err, syscall, mbind, io_bind. cbn.
  destruct (f !! components (sr_local_path rec)) as [[c|]|] eqn:Hf; cbn; do 3 (rewrite ?Hf; cbn).
  - eexists. split; [done|]. case_bool_decide as Hh; simpl.
    + split; [done|]. intros (x & n & [= <-] & [= <-] & Hn). by destruct (Hn c).
    + split; [|done]. intros _. exists expected, (File c). split_and!; [done..|]. by intros c' [= <-].
  - exists true. split; [done|]. split; [|done]. intros _. exists expected, Dir. naive_solver.
  - exists false. split; [done|]. naive_solver.
Qed.

Lemma clean_check_paths (s : SyncSnapshot) (paths conflicts : list string) : NoDup conflicts ->
  exists l, check_paths s paths conflicts still = (Ret l, still) /\ NoDup l /\
    forall p, p ∈ l <-> p ∈ conflicts \/ (p ∈ paths /\ exists rec, ss_files s !! p = Some rec /\ locally_modified f rec).
Proof.
  revert conflicts. induction paths as [|p paths IH]; intros conflicts Hnd; cbn [check_paths].
  { exists conflicts. split_and!; [done..|]. intros p. rewrite elem_of_nil. tauto. }
  destruct (ss_files s !! p) as [rec|] eqn:Hr.
  - destruct (clean_conflicts_with rec) as (b & Hb & Hm). unfold mbind, io_bind. rewrite Hb.
    destruct (b && negb (bool_decide (p ∈ conflicts))) eqn:E.
    + apply andb_prop in E as [-> Hn%negb_true_iff%bool_decide_eq_false].
      destruct (IH (conflicts ++ [p])) as (l & Hl & Hd & Hin).
      { apply NoDup_app. split_and!; [done| |by apply NoDup_singleton]. intros q Hq ->%list_elem_of_singleton. done. }
      exists l. split_and!; [done..|]. intros q. rewrite Hin, elem_of_app, !elem_of_cons, elem_of_nil. naive_solver.
    + destruct (IH conflicts Hnd) as (l & Hl & Hd & Hin). exists l. split_and!; [done..|].
      intros q. rewrite Hin, elem_of_cons. apply andb_false_iff in E as [-> |Hn%negb_false_iff%bool_decide_eq_true].
      * split; [naive_solver|]. intros [?|[[-> |?] (r & ? & ?)]]; [auto|naive_solver|eauto].
      * naive_solver.
  - destruct (IH conflicts Hnd) as (l & Hl & Hd & Hin). exists l. split_and!; [done..|].
    intros q. rewrite Hin, elem_of_cons. naive_solver.
Qed.

End Conflicts.
