(* ===== verification/SyncFrame.v ===== *)
(** * The files a run may touch

    Every action of the store, the journal and the engine leaves all regular files
    alone but its own, in whatever way it ends. *)

From Stdlib Require Import Strings.String.
From stdpp Require Import gmap.
From S2P Require Import Prelude Errors Domain Handshake Text Paths Fs FsLogic SyncStore SyncJournal Sync SyncCrash.

#[local] Open Scope string_scope.
#[local] Open Scope list_scope.
#[local] Open Scope Z_scope.

(** The regular files of two disks agree off [K]; directories may appear. *)
Definition files_on (K : key -> Prop) (f g : fs) : Prop :=
  forall k c, ~ K k -> g !! k = Some (File c) <-> f !! k = Some (File c).

#[export] Instance files_on_preorder (K : key -> Prop) : PreOrder (files_on K).
Proof. split; [done|]. intros a b c Hab Hbc k x Hk. by rewrite (Hbc k x Hk), (Hab k x Hk). Qed.

Definition frames {A} (K : key -> Prop) (m : io A) : Prop := forall w, files_on K (w_fs w) (w_fs (m w).2).

Create HintDb frames.

Section Frames.
Context (K : key -> Prop).

Lemma only_on_files (f g : fs) : only_on K f g -> files_on K f g.
Proof. intros Hfg k c Hk. by rewrite (Hfg k Hk). Qed.

Lemma frames_ret {A} (a : A) : frames K (mret a).
Proof. intros w. reflexivity. Qed.

Lemma frames_ok {A} (a : A) : frames K (io_ok a).
Proof. apply frames_ret. Qed.

Lemma frames_err {A} (e : Error) : frames K (io_err (A := A) e).
Proof. apply frames_ret. Qed.

Lemma frames_bind {A B} (m : io A) (k : A -> io B) : frames K m -> (forall a, frames K (k a)) -> frames K (mbind k m).
Proof.
  intros Hm Hk w. unfold mbind, io_bind. specialize (Hm w). destruct (m w) as [[a|] w1]; [|done].
  etrans; [exact Hm|apply Hk].
Qed.

Lemma frames_random : frames K random_u64.
Proof. intros [f fl [|]]; done. Qed.

Lemma frames_syscall {A} (op : fs -> result io_error A * fs) partial :
  (forall f, files_on K f (op f).2) -> (forall n f, files_on K f (partial n f)) -> frames K (syscall op partial).
Proof.
  intros Hop Hp [f fl rs]. unfold syscall; simpl.
  destruct fl as [|[|n t|n] fl]; simpl; try apply Hp; specialize (Hop f); by destruct (op f).
Qed.

(** A call that changes nothing. *)
Lemma frames_look {A} (op : fs -> result io_error A) : frames K (syscall (fun f => (op f, f)) untouched).
Proof. by apply frames_syscall. Qed.

Lemma frames_map_err {A} (h : io_error -> io Error) (m : io (result io_error A)) :
  frames K m -> (forall e, frames K (h e)) -> frames K (io_map_err h m).
Proof.
  intros Hm Hh. apply frames_bind; [done|]. intros [a|e]; [apply frames_ret|].
  apply frames_bind; [apply Hh|]. intros e'. apply frames_ret.
Qed.

Lemma frames_fails_with {A} (k : string) (p : path) (m : io (result io_error A)) :
  frames K m -> frames K (fails_with k p m).
Proof. intros Hm. apply frames_map_err; [done|]. intros e. apply frames_ret. Qed.

Lemma frames_fails_local {A} (k : string) (p : path) (m : io (result io_error A)) :
  frames K m -> frames K (fails_local k p m).
Proof. intros Hm. apply frames_map_err; [done|]. intros e. apply frames_ret. Qed.

Lemma frames_exists (p : path) : frames K (path_exists p).
Proof. apply frames_bind; [by apply frames_syscall|]. intros r. apply frames_ret. Qed.

Lemma frames_is_dir (p : path) : frames K (is_dir p).
Proof. apply frames_bind; [by apply frames_syscall|]. intros r. apply frames_ret. Qed.

Lemma frames_read (p : path) : frames K (read_file p).
Proof. by apply frames_syscall. Qed.

Lemma frames_sync_all (p : path) : frames K (sync_all p).
Proof. by apply frames_syscall. Qed.

Lemma frames_set_permissions (p : path) : frames K (set_permissions p).
Proof. by apply frames_syscall. Qed.

Lemma make_dirs_files (ks : list key) (f : fs) : files_on K f (make_dirs ks f).
Proof. intros k c _. rewrite make_dirs_spec. destruct (f !! k); [done|]. by case_bool_decide. Qed.

Lemma frames_create_dir_all (k : key) : frames K (create_dir_all k).
Proof. apply frames_syscall; [|intros n f; apply make_dirs_files]. intros f. case_match; simpl; [done|apply make_dirs_files]. Qed.

Lemma frames_file_create (p : path) : K (components p) -> frames K (file_create p).
Proof.
  intros Hp. apply frames_syscall; [|done]. intros f. apply only_on_files.
  destruct (f !! components p) as [[]|]; simpl; try done; by apply only_on_insert.
Qed.

Lemma frames_file_create_new (p : path) : K (components p) -> frames K (file_create_new p).
Proof.
  intros Hp. apply frames_syscall; [|done]. intros f. apply only_on_files.
  destruct (f !! components p); simpl; try done; by apply only_on_insert.
Qed.

Lemma frames_write_all (p : path) (bytes : list byte) : K (components p) -> frames K (write_all p bytes).
Proof. intros Hp. apply frames_syscall; intros; by apply only_on_files, only_on_append. Qed.

Lemma frames_remove_file (p : path) : K (components p) -> frames K (remove_file p).
Proof.
  intros Hp. apply frames_syscall; [|done]. intros f. apply only_on_files.
  destruct (f !! components p) as [[]|]; simpl; try done; by apply only_on_delete.
Qed.

Lemma frames_rename (p q : path) : K (components p) -> K (components q) -> frames K (rename_file p q).
Proof.
  intros Hp Hq. apply frames_syscall; [|done]. intros f. apply only_on_files.
  destruct (f !! components p) as [n|], (f !! components q) as [m|]; [destruct n, m|destruct n|..]; simpl; try done.
  all: transitivity (delete (components p) f); [by apply only_on_delete|by apply only_on_insert].
Qed.

Lemma frames_remove_quietly (p : path) : K (components p) -> frames K (remove_quietly p).
Proof. intros Hp. apply frames_bind; [by apply frames_remove_file|]. intros r. apply frames_ret. Qed.

End Frames.

#[export] Hint Resolve frames_ret frames_ok frames_err frames_random frames_exists frames_is_dir frames_read frames_sync_all
  frames_set_permissions frames_create_dir_all frames_file_create frames_file_create_new frames_write_all
  frames_remove_file frames_rename frames_remove_quietly frames_fails_with frames_fails_local frames_look : frames.

Lemma frames_bind_yields {A B} (K : key -> Prop) (m : io A) (k : A -> io B) (R : A -> Prop) :
  frames K m -> yields m R -> (forall a, R a -> frames K (k a)) -> frames K (mbind k m).
Proof.
  intros Hm Hy Hk w. specialize (Hm w). unfold mbind, io_bind. destruct (m w) as [[a|] w1] eqn:E; [|done].
  etrans; [exact Hm|]. apply Hk. by eapply Hy.
Qed.

(** One step of the walk through an action. *)
Ltac frame_step :=
  first
    [ solve [auto 3 with frames]
    | apply frames_bind; [|intros ?]
    | apply frames_map_err; [|intros ?]
    | match goal with |- frames _ (match ?x with _ => _ end) => destruct x end
    | match goal with |- frames _ (let '_ := ?x in _) => destruct x end ].
Ltac frame := repeat frame_step.

Section Actions.
Context `{Crypto} `{!Json PendingSyncAction} `{!Json SyncLedgerFileV3}.
Context `{!Downloader} (scratch : path -> key -> Prop) `{!DownloaderLaw scratch}.
Context (K : key -> Prop) (store : SyncStore) (j : SyncJournal).

(** The store's own files are in [K]. *)
Context (Kt : forall k, sync_tmp store j k -> K k) (Kl : K (lkey store)) (Kj : K (jkey j)).

Lemma K_ledger_tmp (n : Z) : K (components (ledger_tmp (st_path store) n)).
Proof. apply Kt. exists n. by left. Qed.
Lemma K_journal_tmp (n : Z) : K (components (journal_tmp j n)).
Proof. apply Kt. exists n. by right. Qed.
#[local] Hint Resolve K_ledger_tmp K_journal_tmp Kl Kj : frames.

Lemma yields_open_tmp (fuel : nat) (p : path) :
  yields (open_tmp fuel p) (fun r => forall tmp, r = Ok tmp -> exists n, tmp = ledger_tmp p n).
Proof.
  induction fuel as [|fuel IH]; simpl; [by intros w a w'|].
  apply yields_then. intros n. apply yields_then. intros [u|e].
  - apply yields_ret. intros tmp [= <-]. by exists n.
  - destruct (io_kind_of e); try apply IH; by apply yields_ret.
Qed.

Lemma frames_open_tmp (fuel : nat) : frames K (open_tmp fuel (st_path store)).
Proof. induction fuel as [|fuel IH]; simpl; [by intros w|]. frame.
Qed.

Lemma frames_save (s : SyncSnapshot) : frames K (save store s).
Proof.
  unfold save, set_directory_permissions, set_path_permissions, sync_parent.
  destruct (path_parent (st_path store)) as [parent|]; [|frame].
  do 2 (apply frames_bind; [by auto 3 with frames|intros [?|?]; [|frame]]).
  destruct (to_json _) as [bytes|e]; [|frame].
  eapply frames_bind_yields; [apply frames_open_tmp|apply yields_open_tmp|]. intros [tmp|e] Htmp; [|frame].
  destruct (Htmp tmp eq_refl) as [n ->]. frame.
Qed.

Lemma frames_journal_write (a : PendingSyncAction) : frames K (journal_write j a).
Proof. unfold journal_write, fails_removing. frame. Qed.

Lemma frames_journal_clear : frames K (journal_clear j).
Proof. unfold journal_clear. frame. Qed.

Lemma frames_sha256_file (p : path) : frames K (sha256_file p).
Proof. unfold sha256_file. frame. Qed.

Lemma frames_download_to (remote : string) (part : path) :
  (forall k, scratch part k -> K k) -> frames K (download_to remote part).
Proof.
  intros Hp w. pose proof (dl_spec remote part (w_fs w) w eq_refl) as Hs.
  apply only_on_files, (only_on_weaken (scratch part)); [done|].
  destruct (download_to remote part w) as [[r|] w']; [apply Hs|exact Hs].
Qed.
#[local] Hint Resolve frames_save frames_journal_write frames_journal_clear frames_sha256_file : frames.

Lemma frames_checked (m : io (Res unit)) st k : frames K m -> frames K k -> frames K (checked m st k).
Proof. intros Hm Hk. unfold checked, stop. frame. Qed.

Lemma frames_go_on st : frames K (go_on st).
Proof. apply frames_ret. Qed.
Lemma frames_stop e st : frames K (stop e st).
Proof. apply frames_ret. Qed.
#[local] Hint Resolve frames_checked frames_go_on frames_stop : frames.

Lemma yields_staged (remote : string) (dest : path) :
  yields (download_to_staged remote dest) (fun r => forall part hash, r = Ok (part, hash) -> exists n, part = part_name dest n).
Proof.
  unfold download_to_staged. apply yields_then. intros [u|e]; [|by apply yields_ret].
  apply yields_then. intros n. apply yields_then. intros [h|e].
  - apply yields_ret. intros part hash [= <- _]. by exists n.
  - apply yields_then. intros []. by apply yields_ret.
Qed.

Lemma frames_download (p : string) (file : RemoteFile) (dest : path) st :
  K (components dest) -> (forall n k, scratch (part_name dest n) k -> K k) ->
  frames K (journaled_download p file dest j store st).
Proof.
  intros Hd Hs. destruct st as [s r]. unfold journaled_download.
  assert (forall n, K (components (part_name dest n))) as Hp by (intros n; eapply Hs, dl_target).
  eapply frames_bind_yields; [|apply yields_staged|].
  - unfold download_to_staged. frame_step; [destruct (parent_key _); frame|]. destruct a as [u|e]; [|frame].
    apply frames_bind; [frame|]. intros n. apply frames_bind; [|intros [?|?]; frame].
    apply frames_bind; [by apply frames_download_to, Hs|]. intros [?|?]; frame.
  - intros [[part hash]|e] Hpart; [|frame]. destruct (Hpart _ _ eq_refl) as [n ->]. frame.
Qed.

Lemma frames_delete (p : string) (local : path) st :
  K (components local) -> (forall n, K (components (trash_name local n))) ->
  frames K (journaled_delete p local j store st).
Proof. intros Hl Ht. destruct st as [s r]. unfold journaled_delete. frame. Qed.

End Actions.

(** ** A run *)

Section Run.
Context `{Crypto} `{!Json PendingSyncAction} `{!Json SyncLedgerFileV3}.
Context `{!Downloader} (scratch : path -> key -> Prop) `{!DownloaderLaw scratch}.
Context (config : SyncConfig) (phone : list RemoteFile) (diff : SyncDiff) (s : SyncSnapshot) (conflicts : list string)
  (j : SyncJournal) (store : SyncStore).

(** The files a run may write: the store's own, the destinations of its downloads
    with their scratch files, and the files its deletes move to the trash. *)
Inductive run_key (k : key) : Prop :=
  | rk_tmp : sync_tmp store j k -> run_key k
  | rk_ledger : k = lkey store -> run_key k
  | rk_journal : k = jkey j -> run_key k
  | rk_dest p dest : p ∈ sd_added diff -> p ∉ conflicts -> is_Some (find_file phone p) ->
      local_destination config p = Ok dest -> k = components dest -> run_key k
  | rk_part p dest n : p ∈ sd_added diff -> p ∉ conflicts -> is_Some (find_file phone p) ->
      local_destination config p = Ok dest -> scratch (part_name dest n) k -> run_key k
  | rk_local p rec : p ∈ sd_deleted diff -> p ∉ conflicts -> ss_files s !! p = Some rec ->
      k = components (sr_local_path rec) -> run_key k
  | rk_trash p rec n : p ∈ sd_deleted diff -> p ∉ conflicts -> ss_files s !! p = Some rec ->
      k = components (trash_name (sr_local_path rec) n) -> run_key k.

Lemma frames_run_added (todo : list string) st : (forall p, p ∈ todo -> p ∈ sd_added diff) ->
  frames run_key (run_added config phone conflicts todo j store st).
Proof.
  revert st. induction todo as [|p todo IH]; intros st Hin; simpl; [apply frames_ret|].
  assert (forall st, frames run_key (run_added config phone conflicts todo j store st)) as IH'.
  { intros st'. apply IH. intros q Hq. apply Hin, elem_of_cons. by right. }
  assert (p ∈ sd_added diff) as Hp by (apply Hin, elem_of_cons; by left).
  case_bool_decide as Hc; [done|]. destruct (find_file phone p) as [file|] eqn:Hf; [|done].
  destruct (local_destination config p) as [dest|e] eqn:Hd; [|apply frames_ret].
  apply frames_bind; [|intros [[u|e] st']; [done|apply frames_ret]].
  apply (frames_download scratch); eauto using run_key.
Qed.

Lemma frames_run_deleted (todo : list string) st : (forall p, p ∈ todo -> p ∈ sd_deleted diff) ->
  frames run_key (run_deleted_paths s conflicts todo j store st).
Proof.
  revert st. induction todo as [|p todo IH]; intros st Hin; simpl; [apply frames_ret|].
  assert (forall st, frames run_key (run_deleted_paths s conflicts todo j store st)) as IH'.
  { intros st'. apply IH. intros q Hq. apply Hin, elem_of_cons. by right. }
  assert (p ∈ sd_deleted diff) as Hp by (apply Hin, elem_of_cons; by left).
  case_bool_decide as Hc; [done|]. destruct (ss_files s !! p) as [rec|] eqn:Hr; [|done].
  apply frames_bind; [|intros [[u|e] st']; [done|apply frames_ret]].
  apply frames_delete; eauto using run_key.
Qed.

Lemma frames_execute :
  frames run_key (execute_plan_with_checkpoint config phone diff s conflicts j store).
Proof.
  unfold execute_plan_with_checkpoint. apply frames_bind; [by apply frames_run_added|].
  intros [[u|e] mid]; [|apply frames_ret]. apply frames_bind; [by apply frames_run_deleted|].
  intros [[u'|e] last]; [|apply frames_ret].
  apply frames_bind; [apply (frames_save _ _ j); eauto using run_key|intros [?|?]; apply frames_ret].
Qed.

End Run.
