(* ===== verification/SyncProps.v ===== *)
(** * What the sync engine guarantees

    The properties of the ledger store, the journal and the engine: atomic saves,
    recovery of interrupted downloads and deletes, confinement of paths, and the
    exactness of the plan and of the conflict check. *)

From Stdlib Require Import Strings.String Strings.Ascii.
From stdpp Require Import gmap.
From S2P Require Import Prelude Errors Domain Handshake Proto Text Paths Fs FsLogic SyncStore SyncJournal Sync SyncRun SyncCrash SyncDelete SyncLayout.

#[local] Open Scope string_scope.
#[local] Open Scope list_scope.
#[local] Open Scope Z_scope.

(** ** Concrete parameters

    A serialisation of every countable type, a download that writes one byte, and
    a store at /c/sync/k.json. *)

Fixpoint bits_of (p : positive) : list byte :=
  match p with
  | xH => []
  | xO p => x00 :: bits_of p
  | xI p => x01 :: bits_of p
  end.

Fixpoint of_bits (bs : list byte) : positive :=
  match bs with
  | [] => xH
  | x00 :: bs => xO (of_bits bs)
  | _ :: bs => xI (of_bits bs)
  end.

Lemma of_bits_of (p : positive) : of_bits (bits_of p) = p.
Proof. induction p as [p IH|p IH|]; simpl; by rewrite ?IH. Qed.

Definition toy_json {A : Type} `{Countable A} : Json A := {|
  to_json := fun a => Ok (bits_of (encode a));
  from_json := fun bs => match decode (of_bits bs) with Some a => Ok a | None => Err "bad" end
|}.

Lemma toy_json_round_trip {A : Type} `{Countable A} : @JsonRoundTrip A toy_json.
Proof. intros a bs [= <-]. simpl. by rewrite of_bits_of, decode_encode. Qed.

Lemma toy_json_total {A : Type} `{Countable A} (a : A) : exists bs, @to_json A toy_json a = Ok bs.
Proof. by eexists. Qed.

#[export] Instance SyncFileRecord_countable : Countable SyncFileRecord.
Proof.
  refine (inj_countable' (fun r => (sr_size r, sr_checksum r, sr_ext_data r, sr_modified_at r, sr_local_path r, sr_local_sha256 r))
    (fun '(a, b, c, d, e, f) => mkSyncFileRecord a b c d e f) _). by intros [].
Defined.
#[export] Instance SyncSnapshot_countable : Countable SyncSnapshot.
Proof. refine (inj_countable' ss_files mkSyncSnapshot _). by intros []. Defined.
#[export] Instance SyncLedgerIdentity_countable : Countable SyncLedgerIdentity.
Proof.
  refine (inj_countable' (fun i => (li_device_uuid i, li_remote_root i, li_local_root i))
    (fun '(a, b, c) => mkIdentity a b c) _). by intros [].
Defined.
#[export] Instance SyncLedgerFileV3_eq_dec : EqDecision SyncLedgerFileV3.
Proof. solve_decision. Defined.
#[export] Instance SyncLedgerFileV3_countable : Countable SyncLedgerFileV3.
Proof.
  refine (inj_countable' (fun l => (lf_schema_version l, lf_identity l, lf_snapshot l))
    (fun '(a, b, c) => mkLedgerFile a b c) _). by intros [].
Defined.
#[export] Instance PendingSyncAction_countable : Countable PendingSyncAction.
Proof.
  refine (inj_countable'
    (fun a => match a with PDownload r f s n => inl (r, f, s, n) | PDelete r o t => inr (r, o, t) end)
    (fun x => match x with inl (r, f, s, n) => PDownload r f s n | inr (r, o, t) => PDelete r o t end) _).
  by intros [].
Defined.

Definition toy_download : Downloader := fun _ part =>
  io_map_err (fun e => mret (ELocalIo (Msg "toy" [io_text e])))
    (syscall (fun f => (Ok (), <[components part := File [x01]]> f)) untouched).

Lemma toy_download_law : @DownloaderLaw toy_download target_only.
Proof.
  split; [done|]. intros remote part f0.
  apply triple_map_err with (R := fun r f => only_on (target_only part) f0 f /\
      (r = Ok () -> exists c, f !! components part = Some (File c))); [|by intros [] f [Hf Hc]; split; [|intros _; apply Hc]|].
  - apply triple_syscall; [|by intros f n t ->; split|by intros f n ->].
    intros f ->. simpl. split; [by apply only_on_insert|]. intros _. exists [x01]. apply lookup_insert_eq.
  - intros e. apply triple_ret. by intros f [Hf _]; split.
Qed.

Definition sample_identity : SyncLedgerIdentity := mkIdentity "U" "/DCIM" "/photos".
Definition sample_st : SyncStore := mkSyncStore "/c/sync/k.json" sample_identity.

(** ** The ledger file is replaced atomically *)

(** C11: saving the ledger is atomic under every fault: afterwards the ledger file
    is the old one or exactly the new one, no other file than the temporary ones
    changed, and when [save] reports success the next [load] returns what was
    saved. *)
Theorem save_atomic `{Crypto} `{!Json SyncLedgerFileV3} `{!JsonRoundTrip SyncLedgerFileV3}
    (store : SyncStore) (dir : path) (s : SyncSnapshot) (w : world) :
  sync_layout store (for_ledger (st_path store)) dir -> normalized (st_identity store) = st_identity store ->
  dir_ready dir (w_fs w) ->
  let '(o, w') := save store s w in
  (w_fs w' !! lkey store = w_fs w !! lkey store \/ ledger_is store s (w_fs w')) /\
  (forall k, ~ sync_tmp store (for_ledger (st_path store)) k -> k <> lkey store -> w_fs w' !! k = w_fs w !! k) /\
  (o = Ret (Ok ()) -> forall rs, load store (mkWorld (w_fs w') [] rs) = (Ret (Ok (Some s)), mkWorld (w_fs w') [] rs)).
Proof.
  intros HL Hid Hd. pose proof (triple_save store _ dir HL s (w_fs w) Hd w eq_refl) as Ht.
  destruct (save store s w) as [[r|] w'].
  - destruct Ht as [[Hk Hl] Hok]. split_and!; [done| |].
    + intros k H1 H2. apply Hk. by intros [|].
    + intros [= ->] rs. apply clean_load; [done..|]. by apply Hok.
  - destruct Ht as [Hk Hl]. split_and!; [done| |done].
    intros k H1 H2. apply Hk. by intros [|].
Qed.

Definition sample_dirs : fs :=
  list_to_map [(components "/", Dir); (components "/c", Dir); (components "/c/sync", Dir); (components "/photos", Dir)].

Lemma sample_layout : sync_layout sample_st (for_ledger (st_path sample_st)) "/c/sync".
Proof.
  apply (sync_layout_ordinary "c" ["sync"] "k"%char ""); [|done|done].
  repeat constructor; vm_compute; congruence.
Qed.

Lemma sample_tmp_key (k : key) :
  sync_tmp sample_st (for_ledger (st_path sample_st)) k -> exists y, k = in_dir "c" ["sync"] y.
Proof.
  assert (Forall ordinary ["c"; "sync"]) as Hd by (repeat constructor; vm_compute; congruence).
  intros (n & [-> | ->]); eexists.
  - by apply (ledger_tmp_in_dir "c" ["sync"] "k"%char "" Hd).
  - by apply (journal_tmp_in_dir "c" ["sync"] "k"%char "" Hd).
Qed.

Lemma sample_dir_ready : dir_ready "/c/sync" sample_dirs.
Proof. repeat constructor. Qed.

Lemma save_atomic_witness :
  let '(_, w') := @save toy_json sample_st SyncSnapshot_default (mkWorld sample_dirs [Pass; Crash 0] [5]) in
  w_fs w' !! components "/photos" = Some Dir.
Proof.
  pose proof (@save_atomic toy_crypto toy_json toy_json_round_trip sample_st "/c/sync" SyncSnapshot_default
    (mkWorld sample_dirs [Pass; Crash 0] [5]) sample_layout eq_refl sample_dir_ready) as Hp.
  destruct (@save toy_json sample_st SyncSnapshot_default _) as [o w'].
  destruct Hp as (_ & Hk & _). rewrite Hk; [reflexivity| |discriminate].
  by intros [y Hy]%sample_tmp_key.
Defined.

(** ** Interrupted downloads and deletes *)

Lemma load_and_recover_clean `{Crypto} `{!Json PendingSyncAction} `{!Json SyncLedgerFileV3} `{!JsonRoundTrip SyncLedgerFileV3}
    (operation : string) (store : SyncStore) (root : path) (s1 s2 : SyncSnapshot) (f f2 : fs) (rs rs2 : list Z) :
  normalized (st_identity store) = st_identity store -> ledger_is store s1 f ->
  recover_in_root (for_ledger (st_path store)) s1 root (save store) (mkWorld f [] rs) = (Ret (Ok s2), mkWorld f2 [] rs2) ->
  load_and_recover operation store root (mkWorld f [] rs) = (Ret (Ok s2), mkWorld f2 [] rs2).
Proof.
  intros Hid Hl Hr. unfold load_and_recover, app, mbind, io_bind.
  rewrite (clean_load store s1 f rs Hid Hl). cbn [mret io_ret map_err from_option id]. by rewrite Hr.
Qed.

(** C12: a download to a new file is crash-safe.  Let it run into any faults and let
    the process die at any system call, or let it end in any way; when the next run
    loads the ledger and recovers the journal, recovery succeeds and leaves either
    the state before the download, or the file in place with a ledger row that holds
    the phone's fields and the hash of exactly the file's contents.  The journal is
    empty and no other file changed, apart from scratch files and new directories
    above the destination. *)
Theorem download_crash_safe `{Crypto} `{!Json PendingSyncAction} `{!Json SyncLedgerFileV3}
    `{!JsonRoundTrip PendingSyncAction} `{!JsonRoundTrip SyncLedgerFileV3} `{!Downloader}
    (scratch : path -> key -> Prop) `{!DownloaderLaw scratch}
    (store : SyncStore) (dir root : path) (remote : string) (file : RemoteFile) (dest : path) (parent : key)
    (s : SyncSnapshot) (result : SyncRunResult) (w : world) :
  let j := for_ledger (st_path store) in
  sync_layout store j dir -> download_layout scratch store j dir dest parent ->
  normalized (st_identity store) = st_identity store ->
  (forall a : SyncLedgerFileV3, exists bs, to_json a = Ok bs) ->
  path_is_safe dest root = true -> (forall m, path_is_safe (part_name dest m) root = true) ->
  w_fs w !! jkey j = None -> w_fs w !! components dest = None -> ledger_is store s (w_fs w) -> dir_ready dir (w_fs w) ->
  let w' := (journaled_download remote file dest j store (s, result) w).2 in
  forall n rs, w_fs w' !! components (ledger_tmp (st_path store) n) = None ->
  exists s2 f2 rs2,
    load_and_recover "sync.watch" store root (mkWorld (w_fs w') [] (n :: rs)) = (Ret (Ok s2), mkWorld f2 [] rs2) /\
    download_settled scratch store j remote file dest parent s (w_fs w) f2 s2.
Proof.
  intros j HL HD Hid Htot Hs1 Hs2 Hj Hd Hl Hdr w' n rs Hn.
  assert (download_inv scratch store j dir remote file dest parent s (w_fs w) (w_fs w')) as Hinv.
  { pose proof (triple_journaled_download scratch store j dir HL remote file dest parent HD s (w_fs w)
                  Hj Hd Hl Hdr result w eq_refl) as Ht.
    unfold w'. by destruct (journaled_download remote file dest j store (s, result) w) as [[r|] w1]. }
  assert (exists s1, ledger_is store s1 (w_fs w')) as [s1 Hl1].
  { destruct Hinv as (_ & _ & Hph). destruct Hph as [Ha1 Ha2 Ha3|p1 c1 Ha1 Ha2 Ha3 Ha4 Ha5 Ha6|p1 c1 Ha1 Ha2 Ha3 [Ha4|Ha4]|c1 Ha1 Ha2 Ha3]; eauto. }
  destruct (recover_download scratch store j dir HL remote file dest parent HD s (w_fs w) root (w_fs w') n rs s1)
    as (s2 & f2 & rs2 & Hr & Hset); [done..|].
  exists s2, f2, rs2. split; [|done]. by apply (load_and_recover_clean _ store root s1).
Qed.

(** The sample destination, and a disk with an empty ledger. *)
Definition sample_dest : path := "/photos/a.jpg".

Definition sample_disk : fs :=
  <[lkey sample_st := File (bits_of (encode (ledger_file sample_st SyncSnapshot_default)))]> sample_dirs.

Lemma sample_disk_ledger : @ledger_is toy_json sample_st SyncSnapshot_default sample_disk.
Proof. eexists. split; [reflexivity|]. apply lookup_insert_eq. Qed.

Lemma sample_disk_ready : dir_ready "/c/sync" sample_disk.
Proof. repeat constructor. Qed.

Lemma sample_ordinary : Forall ordinary ["c"; "sync"] /\ Forall ordinary ["photos"].
Proof. split; repeat constructor; vm_compute; congruence. Qed.

Lemma sample_download_layout :
  download_layout target_only sample_st (for_ledger (st_path sample_st)) "/c/sync" sample_dest [RootDir; Normal "photos"].
Proof.
  destruct sample_ordinary as [Hd He].
  by apply (download_layout_ordinary "c" ["sync"] "k"%char "" Hd ltac:(done) eq_refl "photos" [] "a"%char ".jpg" He).
Qed.

Lemma sample_part_key (n : Z) :
  components (part_name sample_dest n) = in_dir "photos" [] ("a.jpg" +:+ (".hs-part." +:+ pretty n)).
Proof.
  destruct sample_ordinary as [Hd He]. by apply (part_key "photos" [] "a"%char ".jpg" He).
Qed.

(** A path under the root by its components. *)
Lemma path_is_safe_intro (p root : path) (c : Component) (cs : list Component) :
  is_absolute p = true -> is_absolute root = true -> components p = components root ++ c :: cs ->
  is_normal c = true -> forallb is_normal cs = true -> path_is_safe p root = true.
Proof.
  intros Hp Hr Hc H1 H2. unfold path_is_safe. rewrite Hp, Hr. simpl.
  destruct (strip_prefix p root) as [r|] eqn:E.
  - apply strip_prefix_components in E as [E _]. rewrite Hc in E. apply app_inv_head in E. rewrite <- E. by rewrite H1.
  - destruct (proj2 (strip_prefix_is_Some p root)) as [r Hr']; [|congruence]. rewrite Hc. by eexists.
Qed.

Lemma sample_part_safe (n : Z) : path_is_safe (part_name sample_dest n) "/photos" = true.
Proof. by eapply path_is_safe_intro; [..|rewrite sample_part_key; reflexivity| |]. Qed.

Lemma download_crash_safe_witness :
  let w' := (@journaled_download toy_crypto toy_download toy_json toy_json "/DCIM/a.jpg"
               (mkRemoteFile "/DCIM/a.jpg" 1 None None false None None None None) sample_dest
               (for_ledger "/c/sync/k.json") sample_st (SyncSnapshot_default, SyncRunResult_default)
               (mkWorld sample_disk (replicate 12 Pass ++ [Crash 0]) [1; 2; 3])).2 in
  exists s2 f2 rs2,
    @load_and_recover toy_crypto toy_json toy_json "sync.watch" sample_st "/photos" (mkWorld (w_fs w') [] [9])
      = (Ret (Ok s2), mkWorld f2 [] rs2) /\ f2 !! jkey (for_ledger "/c/sync/k.json") = None.
Proof.
  intros w'.
  destruct (@download_crash_safe toy_crypto toy_json toy_json toy_json_round_trip toy_json_round_trip toy_download
    target_only toy_download_law sample_st "/c/sync" "/photos" "/DCIM/a.jpg"
    (mkRemoteFile "/DCIM/a.jpg" 1 None None false None None None None) sample_dest [RootDir; Normal "photos"]
    SyncSnapshot_default SyncRunResult_default (mkWorld sample_disk (replicate 12 Pass ++ [Crash 0]) [1; 2; 3])
    sample_layout sample_download_layout eq_refl toy_json_total eq_refl sample_part_safe eq_refl eq_refl
    sample_disk_ledger sample_disk_ready 9 []) as (s2 & f2 & rs2 & Hr & _ & Hj & _).
  - vm_compute. reflexivity.
  - exists s2, f2, rs2. split; [exact Hr|exact Hj].
Defined.

(** C13: a delete is crash-safe.  Let it run into any faults and let the process die
    at any system call, or let it end in any way: when the next run loads the ledger and
    recovers the journal, recovery succeeds and leaves either the file with its ledger
    row, or neither of them and nothing in the trash; the journal is empty and no other
    file changed.  The one exception is a first look at the file ([Path::exists]) that
    fails: the code takes the file for gone, and then the file may be there without its
    row, still with an empty journal and nothing else changed. *)
Theorem delete_crash_safe `{Crypto} `{!Json PendingSyncAction} `{!Json SyncLedgerFileV3}
    `{!JsonRoundTrip PendingSyncAction} `{!JsonRoundTrip SyncLedgerFileV3}
    (store : SyncStore) (dir root : path) (remote : string) (local : path) (c : list byte)
    (s : SyncSnapshot) (result : SyncRunResult) (w : world) :
  let j := for_ledger (st_path store) in
  sync_layout store j dir -> delete_layout store j dir local ->
  normalized (st_identity store) = st_identity store ->
  (forall a : SyncLedgerFileV3, exists bs, to_json a = Ok bs) ->
  path_is_safe local root = true -> (forall m, path_is_safe (trash_name local m) root = true) ->
  w_fs w !! jkey j = None -> w_fs w !! components local = Some (File c) -> no_trash local (w_fs w) ->
  ledger_is store s (w_fs w) -> dir_ready dir (w_fs w) ->
  let w' := (journaled_delete remote local j store (s, result) w).2 in
  forall n rs, w_fs w' !! components (ledger_tmp (st_path store) n) = None ->
  exists s2 f2 rs2,
    load_and_recover "sync.watch" store root (mkWorld (w_fs w') [] (n :: rs)) = (Ret (Ok s2), mkWorld f2 [] rs2) /\
    (delete_settled store j remote local s (w_fs w) c f2 s2 \/
     (exists m text, head (w_faults w) = Some (Fails m text)) /\ row_dropped store j remote local s (w_fs w) c f2 s2).
Proof.
  intros j HL HX Hid Htot Hs1 Hs2 Hj Hf Ht Hl Hdr w' n rs Hn.
  assert (delete_inv store j dir remote local s (w_fs w) c (w_fs w') \/
          (exists m text, head (w_faults w) = Some (Fails m text)) /\ looked_away store j dir remote local s (w_fs w) c (w_fs w')) as Hor.
  { pose proof (triple_delete_present store j dir HL remote local HX s (w_fs w) c Hj Hf Ht Hl Hdr result) as Htr.
    assert (delete_inv store j dir remote local s (w_fs w) c (w_fs w)) as H0 by (split; [done|]; split; [done|]; by apply xp_before).
    destruct w as [f fl rands].
    assert (forall fl', path_exists local (mkWorld f fl rands) = (Ret true, mkWorld f fl' rands) ->
      delete_inv store j dir remote local s f c (w_fs w')) as Hgo.
    { intros fl' He. unfold w'. rewrite (journaled_delete_present store j remote local _ _ (s, result) He).
      specialize (Htr (mkWorld f fl' rands) eq_refl).
      by destruct (delete_present _ _ _ _ _ _) as [[r|] w1]. }
    destruct fl as [|[|m t|m] fl].
    - left. apply (Hgo []). unfold path_exists, syscall, mbind, io_bind; simpl in *; by rewrite Hf.
    - left. apply (Hgo fl). unfold path_exists, syscall, mbind, io_bind; simpl in *; by rewrite Hf.
    - right. split; [by exists m, t|]. unfold w'.
      rewrite (journaled_delete_absent store j remote local _ (mkWorld f fl rands) (s, result)) by done.
      pose proof (triple_looked_away store j dir HL remote local HX s f c Hj Hf Ht Hl Hdr
        (snapshot_remove remote s, result) (mkWorld f fl rands) eq_refl) as Haway.
      by destruct (checked _ _ _ _) as [[r|] w1].
    - by left. }
  destruct Hor as [Hinv|[Hfault Haway]].
  2: { assert (exists s1, ledger_is store s1 (w_fs w')) as [s1 Hl1] by (destruct Haway as (_ & _ & _ & _ & [|]); eauto).
       destruct (recover_looked_away store j dir remote local s (w_fs w) c root (w_fs w') (n :: rs) s1 Haway Hl1)
         as (s2 & f2 & rs2 & Hr & Hset).
       exists s2, f2, rs2. split; [by apply (load_and_recover_clean _ store root s1)|]. naive_solver. }
  assert (exists s1, ledger_is store s1 (w_fs w')) as [s1 Hl1].
  { destruct Hinv as (_ & _ & Hph). destruct Hph as [? ? ? Ha|? ? ? ? ? ? Ha|? ? ? ? ? [Ha|Ha]|? ? ? Ha]; eauto. }
  destruct (recover_delete store j dir HL remote local HX s (w_fs w) c root (w_fs w') n rs s1)
    as (s2 & f2 & rs2 & Hr & Hset); [done..|].
  exists s2, f2, rs2. split; [|by left]. by apply (load_and_recover_clean _ store root s1).
Qed.

Lemma sample_delete_layout : delete_layout sample_st (for_ledger (st_path sample_st)) "/c/sync" sample_dest.
Proof.
  destruct sample_ordinary as [Hd He].
  by apply (delete_layout_ordinary "c" ["sync"] "k"%char "" Hd ltac:(done) eq_refl "photos" [] "a"%char ".jpg" He).
Qed.

Lemma sample_trash_key (n : Z) :
  components (trash_name sample_dest n) = in_dir "photos" [] ("a.jpg" +:+ (".hs-trash." +:+ pretty n)).
Proof.
  destruct sample_ordinary as [Hd He]. by apply (trash_name_key "photos" [] "a"%char ".jpg" He).
Qed.

Lemma sample_trash_safe (n : Z) : path_is_safe (trash_name sample_dest n) "/photos" = true.
Proof. by eapply path_is_safe_intro; [..|rewrite sample_trash_key; reflexivity| |]. Qed.

Definition sample_full_disk : fs := <[components sample_dest := File [x07]]> sample_disk.

Lemma sample_no_trash : no_trash sample_dest sample_full_disk.
Proof.
  intros k [n ->]. rewrite sample_trash_key. unfold sample_full_disk, sample_disk, in_dir. simpl.
  assert (components sample_dest = [RootDir; Normal "photos"; Normal "a.jpg"]) as -> by reflexivity.
  assert (lkey sample_st = [RootDir; Normal "c"; Normal "sync"; Normal "k.json"]) as -> by reflexivity.
  rewrite !lookup_insert_ne by discriminate. apply not_elem_of_list_to_map_1. simpl.
  rewrite !elem_of_cons, elem_of_nil. naive_solver.
Qed.

Lemma sample_full_ledger : @ledger_is toy_json sample_st SyncSnapshot_default sample_full_disk.
Proof. eexists. split; reflexivity. Qed.

Lemma delete_crash_safe_witness :
  let w' := (@journaled_delete toy_json toy_json "/DCIM/a.jpg" sample_dest (for_ledger "/c/sync/k.json") sample_st
               (SyncSnapshot_default, SyncRunResult_default)
               (mkWorld sample_full_disk (replicate 10 Pass ++ [Crash 0]) [1; 2; 3])).2 in
  exists s2 f2 rs2,
    @load_and_recover toy_crypto toy_json toy_json "sync.watch" sample_st "/photos" (mkWorld (w_fs w') [] [9])
      = (Ret (Ok s2), mkWorld f2 [] rs2) /\ f2 !! jkey (for_ledger "/c/sync/k.json") = None.
Proof.
  intros w'.
  destruct (@delete_crash_safe toy_crypto toy_json toy_json toy_json_round_trip toy_json_round_trip
    sample_st "/c/sync" "/photos" "/DCIM/a.jpg" sample_dest [x07] SyncSnapshot_default SyncRunResult_default
    (mkWorld sample_full_disk (replicate 10 Pass ++ [Crash 0]) [1; 2; 3])
    sample_layout sample_delete_layout eq_refl toy_json_total eq_refl sample_trash_safe eq_refl eq_refl sample_no_trash
    sample_full_ledger ltac:(repeat constructor) 9 []) as (s2 & f2 & rs2 & Hr & [(_ & Hj & _)|[(m & t & He) _]]).
  - vm_compute. reflexivity.
  - exists s2, f2, rs2. split; [exact Hr|exact Hj].
  - discriminate He.
Defined.
