(* ===== verification/SyncRunProps.v ===== *)
(** * What a sync run guarantees

    The exactness of the plan, of the conflict check and of local paths; that a run
    leaves only failures and conflicts to do; that it touches its own files only; and
    what recovery does with a download over an existing file. *)

From Stdlib Require Import Strings.String Strings.Ascii.
From stdpp Require Import gmap.
From S2P Require Import Prelude Errors Domain Handshake Proto Text Paths Fs FsLogic SyncStore SyncJournal Sync SyncRun SyncCrash SyncDelete SyncLayout SyncPlan SyncFrame SyncProps.

#[local] Open Scope string_scope.
#[local] Open Scope list_scope.
#[local] Open Scope Z_scope.

(** ** The plan *)

(** C14: the plan is exact.  A path is to be downloaded iff the phone lists a regular
    file there which has no ledger row or another checksum; its metadata is to be
    refreshed iff only extension data or modification time differ; its local copy is to
    be deleted iff the ledger has a row and the phone lists nothing there.  Deletions
    come once each, in order. *)
Theorem plan_diff_exact (phone : list RemoteFile) (s : SyncSnapshot) :
  let d := plan_diff phone s in
  (forall p, p ∈ sd_added d <-> exists f, f ∈ phone /\ rf_path f = p /\ rf_is_directory f = false /\
     forall rec, ss_files s !! p = Some rec -> sr_checksum rec <> rf_checksum f) /\
  (forall p, p ∈ sd_info_modified d <-> exists f rec, f ∈ phone /\ rf_path f = p /\ rf_is_directory f = false /\
     ss_files s !! p = Some rec /\ sr_checksum rec = rf_checksum f /\
     ~ (sr_ext_data rec = rf_ext_data f /\ sr_modified_at rec = rf_modified_at f)) /\
  (forall p, p ∈ sd_deleted d <-> is_Some (ss_files s !! p) /\ forall f, f ∈ phone -> rf_path f <> p) /\
  NoDup (sd_deleted d) /\ Sorted string_le (sd_deleted d).
Proof.
  rewrite plan_diff_unfold. simpl. split_and!.
  - intros p. rewrite elem_of_class. apply exist_proper. intros f. unfold classify. split.
    + intros (H1 & <- & H3 & H4). split_and!; [done..|]. intros rec Hrec. rewrite Hrec in H4.
      by repeat case_bool_decide.
    + intros (H1 & <- & H3 & H4). split_and!; [done..|].
      destruct (ss_files s !! rf_path f) as [rec|]; [|done]. specialize (H4 rec eq_refl). by rewrite bool_decide_eq_false_2.
  - intros p. rewrite elem_of_class. apply exist_proper. intros f. unfold classify. split.
    + intros (H1 & <- & H3 & H4). destruct (ss_files s !! rf_path f) as [rec|]; [|done].
      exists rec. repeat case_bool_decide; naive_solver.
    + intros (rec & H1 & <- & H3 & -> & H5 & H6). split_and!; [done..|]. repeat case_bool_decide; naive_solver.
  - intros p. rewrite list_elem_of_filter, elem_of_btree_keys.
    pose proof (on_phone_true phone p) as Hp. destruct (on_phone phone p); simpl; naive_solver.
  - apply NoDup_filter, NoDup_btree_keys.
  - apply StronglySorted_Sorted, StronglySorted_filter.
    apply Sorted_StronglySorted; [apply _|apply Sorted_btree_keys].
Qed.

(** ** What a run leaves to do *)

(** C15: a run that reports success leaves nothing to do but what it reports, whatever
    went wrong on the way: in the plan made from the ledger it returns, every
    download, refresh and deletion is of a path it reported as failed or in conflict. *)
Theorem execute_plan_converges `{Crypto} `{!Downloader} `{!Json PendingSyncAction} `{!Json SyncLedgerFileV3}
    (config : SyncConfig) (phone : list RemoteFile) (s updated : SyncSnapshot) (conflicts : list string)
    (j : SyncJournal) (store : SyncStore) (result : SyncRunResult) (w w' : world) :
  NoDup (rf_path <$> phone) ->
  execute_plan_with_checkpoint config phone (plan_diff phone s) s conflicts j store w = (Ret (Ok (result, updated)), w') ->
  let d := plan_diff phone updated in
  forall p, p ∈ sd_added d \/ p ∈ sd_info_modified d \/ p ∈ sd_deleted d ->
  p ∈ run_failures result \/ p ∈ conflicts.
Proof.
  intros Hnd Hrun d p Hp.
  destruct (yields_execute config phone conflicts j store (plan_diff phone s) s w _ w' Hrun _ _ eq_refl)
    as (mid & last & Hmid & Hlast & -> & ->).
  pose proof (settled_file config phone Hnd conflicts s mid last Hmid Hlast) as Hfile.
  pose proof (settled_row config phone conflicts s mid last Hmid Hlast) as Hrow.
  unfold d in Hp. rewrite plan_diff_unfold in Hp. simpl in Hp. rewrite !elem_of_class, list_elem_of_filter in Hp.
  destruct Hp as [(f & H1 & <- & H3 & H4)|[(f & H1 & <- & H3 & H4)|[H1 H2%elem_of_btree_keys]]].
  - destruct (Hfile f H1 H3) as [|]; [congruence|done].
  - destruct (Hfile f H1 H3) as [|]; [congruence|done].
  - apply Hrow; [done|]. by destruct (on_phone phone p).
Qed.

Definition sample_config : SyncConfig := sync_config "U" "/DCIM" "/photos" "host".
Definition sample_file (p : string) : RemoteFile := mkRemoteFile p 1 None None false (Some "c") None None None.
Definition sample_phone : list RemoteFile := [sample_file "/DCIM/a.jpg"; sample_file "/DCIM/b.jpg"].

(** The run of a new phone, with the system call of the first download failing. *)
Definition sample_run : outcome (Res (SyncRunResult * SyncSnapshot)) * world :=
  @execute_plan_with_checkpoint toy_crypto toy_download toy_json toy_json sample_config sample_phone
    (plan_diff sample_phone SyncSnapshot_default) SyncSnapshot_default [] (for_ledger "/c/sync/k.json") sample_st
    (mkWorld sample_disk [Pass; Fails 0 "disk"] (Z.of_nat <$> seq 1 20)).

Lemma execute_plan_converges_witness :
  exists result updated,
    sample_run.1 = Ret (Ok (result, updated)) /\ run_downloaded result = ["/DCIM/b.jpg"] /\
    forall p, p ∈ sd_added (plan_diff sample_phone updated) -> p ∈ run_failures result \/ p ∈ [].
Proof.
  destruct sample_run as [o w'] eqn:Hr. pose proof (f_equal fst Hr) as Ho. vm_compute in Ho.
  simpl. destruct o as [[[result updated]|e]|]; [|discriminate..]. exists result, updated.
  split; [reflexivity|]. split; [by injection Ho as <- _|].
  intros p Hp. refine (@execute_plan_converges toy_crypto toy_download toy_json toy_json sample_config sample_phone
    SyncSnapshot_default updated [] (for_ledger "/c/sync/k.json") sample_st result _ w' _ Hr p _); [|by left].
  apply (bool_decide_unpack _). vm_compute. exact I.
Defined.

(** ** Local edits *)

(** On a disk that works, the conflict check returns, changes nothing, and names
    each path once: exactly those of the plan's downloads and deletions whose row knows
    the hash of the local file, where something else is on the disk now. *)
Theorem conflict_check_exact `{Crypto} (diff : SyncDiff) (s : SyncSnapshot) (f : fs) (rs : list Z) :
  exists l, check_conflicts diff s (mkWorld f [] rs) = (Ret l, mkWorld f [] rs) /\ NoDup l /\
    forall p, p ∈ l <-> (p ∈ sd_added diff \/ p ∈ sd_deleted diff) /\
                        exists rec, ss_files s !! p = Some rec /\ locally_modified f rec.
Proof.
  destruct (clean_check_paths f rs s (sd_added diff ++ sd_deleted diff) []) as (l & Hl & Hd & Hin); [constructor|].
  exists l. split_and!; [done..|]. intros p. rewrite Hin, elem_of_nil, elem_of_app. tauto.
Qed.

(** C17: an edited local file survives the run.  When a row knows the hash of its local
    file, the file holds something else, and no other path of the plan leads to the
    same file, then a run with the conflicts that the check finds leaves the file as it
    is, under every fault of the run and wherever it dies. *)
Theorem local_edit_kept `{Crypto} `{!Json PendingSyncAction} `{!Json SyncLedgerFileV3} `{!Downloader}
    (scratch : path -> key -> Prop) `{!DownloaderLaw scratch}
    (config : SyncConfig) (phone : list RemoteFile) (s : SyncSnapshot) (j : SyncJournal) (store : SyncStore)
    (p : string) (rec : SyncFileRecord) (expected : string) (c : list byte) (f : fs) (rs : list Z)
    (faults : list fault) (rands : list Z) :
  ss_files s !! p = Some rec -> sr_local_sha256 rec = Some expected ->
  f !! components (sr_local_path rec) = Some (File c) -> sha256_hex c <> expected ->
  ~ run_key scratch config phone (plan_diff phone s) s [p] j store (components (sr_local_path rec)) ->
  exists conflicts,
    sync_diff_and_conflicts phone s (mkWorld f [] rs) = (Ret (plan_diff phone s, conflicts), mkWorld f [] rs) /\
    w_fs (execute_plan_with_checkpoint config phone (plan_diff phone s) s conflicts j store (mkWorld f faults rands)).2
      !! components (sr_local_path rec) = Some (File c).
Proof.
  intros Hrec Hexp Hf Hne Hkey. set (diff := plan_diff phone s) in *.
  destruct (clean_check_paths f rs s (sd_added diff ++ sd_deleted diff) []) as (l & Hl & _ & Hin); [constructor|].
  assert (forall q, q ∈ sd_added diff \/ q ∈ sd_deleted diff -> q ∉ l -> q ∉ [p]) as Hq.
  { intros q Hq Hn ->%list_elem_of_singleton. apply Hn, Hin. right. rewrite elem_of_app. split; [done|].
    exists rec. split; [done|]. exists expected, (File c). split_and!; [done..|]. by intros c' [= <-]. }
  exists l. split.
  { unfold sync_diff_and_conflicts, check_conflicts, mbind, io_bind. fold diff. by rewrite Hl. }
  pose proof (frames_execute scratch config phone diff s l j store (mkWorld f faults rands)) as Hfr.
  apply (Hfr _ c); [|done]. intros Hk. apply Hkey. destruct Hk; eauto using run_key.
Qed.

Definition edited_row : SyncFileRecord := mkSyncFileRecord 1 (Some "old") None None sample_dest (Some "no").
Definition edited_snapshot : SyncSnapshot := mkSyncSnapshot {["/DCIM/a.jpg" := edited_row]}.

(** The edited file is no file of the sample run but the conflict's. *)
Lemma edited_key :
  ~ run_key target_only sample_config sample_phone (plan_diff sample_phone edited_snapshot) edited_snapshot
      ["/DCIM/a.jpg"] (for_ledger (st_path sample_st)) sample_st (components sample_dest).
Proof.
  assert (forall q dest, q ∈ sd_added (plan_diff sample_phone edited_snapshot) -> q ∉ ["/DCIM/a.jpg"] ->
            local_destination sample_config q = Ok dest -> dest = "/photos/b.jpg") as Hb.
  { intros q dest Hq Hn. assert (q ∈ ["/DCIM/a.jpg"; "/DCIM/b.jpg"]) as Hq' by exact Hq.
    apply elem_of_cons in Hq' as [-> | ->%list_elem_of_singleton].
    - by destruct Hn; apply elem_of_cons; left.
    - vm_compute. by intros [= <-]. }
  assert (forall q, q ∉ sd_deleted (plan_diff sample_phone edited_snapshot)) as Hdel.
  { intros q. assert (sd_deleted (plan_diff sample_phone edited_snapshot) = []) as -> by reflexivity. apply not_elem_of_nil. }
  intros [[y Hy]%sample_tmp_key|Hk|Hk|q dest Hq Hn _ Hd Hk|q dest n Hq Hn _ Hd Hk|q rec Hq|q rec n Hq];
    try by vm_compute in Hk.
  - vm_compute in Hy. discriminate.
  - rewrite (Hb q dest Hq Hn Hd) in Hk. vm_compute in Hk. discriminate.
  - rewrite (Hb q dest Hq Hn Hd) in Hk. unfold target_only in Hk. destruct sample_ordinary as [_ He].
    change "/photos/b.jpg" with (destination "photos" [] "b"%char ".jpg") in Hk. rewrite part_key in Hk by done.
    vm_compute in Hk. discriminate.
  - by apply Hdel in Hq.
  - by apply Hdel in Hq.
Qed.

Lemma local_edit_kept_witness :
  exists conflicts,
    @sync_diff_and_conflicts toy_crypto sample_phone edited_snapshot (mkWorld sample_full_disk [] [])
      = (Ret (plan_diff sample_phone edited_snapshot, conflicts), mkWorld sample_full_disk [] []) /\
    w_fs (@execute_plan_with_checkpoint toy_crypto toy_download toy_json toy_json sample_config sample_phone
            (plan_diff sample_phone edited_snapshot) edited_snapshot conflicts (for_ledger (st_path sample_st)) sample_st
            (mkWorld sample_full_disk (replicate 12 Pass ++ [Crash 0]) [1; 2; 3])).2
      !! components sample_dest = Some (File [x07]).
Proof.
  refine (@local_edit_kept toy_crypto toy_json toy_json toy_download target_only toy_download_law sample_config
    sample_phone edited_snapshot (for_ledger (st_path sample_st)) sample_st "/DCIM/a.jpg" edited_row "no" [x07]
    sample_full_disk [] (replicate 12 Pass ++ [Crash 0]) [1; 2; 3] _ eq_refl _ _ edited_key); [reflexivity..|].
  vm_compute. discriminate.
Defined.

(** ** Local paths *)

(** A destination mirrors the path below the phone's root.  It exists iff the path
    lies under the root and the rest has normal components only; it is then the local
    root followed by exactly that rest, and the journal trusts it when it is not the root
    itself. *)
Theorem local_destination_exact (config : SyncConfig) (p : string) :
  is_absolute (sc_local_root config) = true ->
  match local_destination config p with
  | Ok d => exists rel, components p = components (sc_phone_root config) ++ rel /\ forallb is_normal rel = true /\
      components d = components (sc_local_root config) ++ rel /\
      (rel <> [] -> path_is_safe d (sc_local_root config) = true)
  | Err e => e = EProtocol (Msg PHONE_ROOT_MISSING []) /\
      ~ exists rel, components p = components (sc_phone_root config) ++ rel /\ forallb is_normal rel = true
  end.
Proof.
  intros Ha. unfold local_destination. destruct (strip_prefix p (sc_phone_root config)) as [r|] eqn:Hr.
  - destruct (forallb is_normal (components r)) eqn:Hn.
    + apply strip_prefix_components in Hr as [Hr _]. exists (components r).
      assert (components (path_join (sc_local_root config) r) = components (sc_local_root config) ++ components r) as Hj.
      { apply components_join; [by apply normal_plain|]. by intros He; rewrite He in Ha. }
      split_and!; [done..|]. intros Hne. destruct (components r) as [|x cs]; [done|].
      simpl in Hn. apply andb_prop in Hn as [Hx Hcs]. eapply path_is_safe_intro; [|done..].
      apply is_absolute_components in Ha as [k Hk]. apply is_absolute_components. rewrite Hj, Hk. by eexists.
    + split; [done|]. intros (rel & Hp & Hn'). destruct (stripped_normal _ _ _ Hp) as (r' & Hr' & <-). congruence.
  - split; [done|]. intros (rel & Hp & _). destruct (stripped_normal _ _ _ Hp) as (r' & Hr' & _). congruence.
Qed.

Lemma local_destination_exact_witness :
  is_absolute "/photos" = true /\ local_destination sample_config "/DCIM/../x" = Err (EProtocol (Msg PHONE_ROOT_MISSING [])).
Proof.
  split; [reflexivity|]. pose proof (local_destination_exact sample_config "/DCIM/../x" eq_refl) as Hp.
  destruct (local_destination sample_config "/DCIM/../x") as [d|e] eqn:E; [vm_compute in E; discriminate|].
  destruct Hp as [-> _]. reflexivity.
Defined.

(** The journal trusts a path iff it is a strict descendant of the absolute root
    by normal components: no [..], no [.], no root inside. *)
Theorem path_is_safe_exact (p root : path) :
  path_is_safe p root = true <->
  is_absolute root = true /\
  exists c cs, components p = components root ++ c :: cs /\ forallb is_normal (c :: cs) = true.
Proof.
  split.
  - unfold path_is_safe. destruct (is_absolute p), (is_absolute root) eqn:Ha; try done. simpl.
    destruct (strip_prefix p root) as [r|] eqn:Hr; [|done]. apply strip_prefix_components in Hr as [Hr _].
    destruct (components r) as [|x cs]; [done|]. intros Hn. by eauto.
  - intros [Ha (x & cs & Hc & [Hx Hcs]%andb_prop)]. eapply path_is_safe_intro; [|done..].
    apply is_absolute_components in Ha as [k Hk]. apply is_absolute_components. rewrite Hc, Hk. by eexists.
Qed.

(** ** Recovery over an existing file *)

(** Recovery takes any file at the destination for the finished download.  When the
    journal holds a download and its destination exists, the next run records the
    journaled row, hash included, and clears the journal, but neither looks at what the
    file holds nor moves or removes the staged download.  So when a download over an
    older file dies before its rename, the ledger then claims contents the file does not
    have. *)
Theorem recovery_trusts_existing `{Crypto} `{!Json PendingSyncAction} `{!Json SyncLedgerFileV3}
    `{!JsonRoundTrip PendingSyncAction} `{!JsonRoundTrip SyncLedgerFileV3}
    (store : SyncStore) (dir root : path) (remote : string) (dest part : path) (rec : SyncFileRecord)
    (s : SyncSnapshot) (f : fs) (old : list byte) (n : Z) (rs : list Z) (bytes : list byte) :
  let j := for_ledger (st_path store) in
  sync_layout store j dir -> normalized (st_identity store) = st_identity store ->
  path_is_safe dest root = true -> path_is_safe part root = true ->
  (components dest <> lkey store /\ components dest <> jkey j) ->
  (components part <> lkey store /\ components part <> jkey j) ->
  to_json (ledger_file store (snapshot_insert remote rec s)) = Ok bytes ->
  journal_is j (PDownload remote dest part rec) f -> ledger_is store s f -> dir_ready dir f ->
  f !! components dest = Some (File old) -> f !! components (ledger_tmp (st_path store) n) = None ->
  exists f2,
    load_and_recover "sync.watch" store root (mkWorld f [] (n :: rs))
      = (Ret (Ok (snapshot_insert remote rec s)), mkWorld f2 [] rs) /\
    ledger_is store (snapshot_insert remote rec s) f2 /\ f2 !! jkey j = None /\
    f2 !! components dest = Some (File old) /\ f2 !! components part = f !! components part.
Proof.
  intros j HL Hid Hs1 Hs2 [Hd1 Hd2] [Hp1 Hp2] Hb Hj Hl Hdr Hf Hn.
  pose proof (sl_distinct _ _ _ HL) as Hlj.
  exists (delete (jkey j) (<[lkey store := File bytes]> f)). split_and!.
  - apply (load_and_recover_clean _ store root s); [done..|].
    apply (clean_recover_landed store j dir HL (Some root) s f n rs remote dest part rec bytes);
      [done| |by rewrite Hf|done..| |done].
    + simpl. by rewrite Hs1, Hs2.
    + destruct Hl as (lb & _ & ->). done.
  - exists bytes. split; [done|]. rewrite lookup_delete_ne by done. apply lookup_insert_eq.
  - apply lookup_delete_eq.
  - by rewrite lookup_delete_ne, lookup_insert_ne by done.
  - by rewrite lookup_delete_ne, lookup_insert_ne by done.
Qed.

Definition new_row : SyncFileRecord := mkSyncFileRecord 1 (Some "new") None None sample_dest (Some "new-hash").

(** An interrupted download over a file that holds [x07]. *)
Definition interrupted_disk : fs :=
  <[jkey (for_ledger (st_path sample_st)) :=
      File (bits_of (encode (PDownload "/DCIM/a.jpg" sample_dest (part_name sample_dest 1) new_row)))]> sample_full_disk.

Lemma recovery_trusts_existing_witness :
  exists f2,
    @load_and_recover toy_crypto toy_json toy_json "sync.watch" sample_st "/photos" (mkWorld interrupted_disk [] [9])
      = (Ret (Ok (snapshot_insert "/DCIM/a.jpg" new_row SyncSnapshot_default)), mkWorld f2 [] []) /\
    f2 !! components sample_dest = Some (File [x07]).
Proof.
  assert (@ledger_is toy_json sample_st SyncSnapshot_default interrupted_disk) as Hl by (eexists; split; reflexivity).
  destruct (@recovery_trusts_existing toy_crypto toy_json toy_json toy_json_round_trip toy_json_round_trip
    sample_st "/c/sync" "/photos" "/DCIM/a.jpg" sample_dest (part_name sample_dest 1) new_row SyncSnapshot_default
    interrupted_disk [x07] 9 [] _ sample_layout eq_refl eq_refl eq_refl ltac:(split; discriminate) ltac:(split; discriminate)
    eq_refl) as (f2 & Hr & _ & _ & Hf & _).
  - eexists. split; reflexivity.
  - exact Hl.
  - repeat constructor.
  - reflexivity.
  - vm_compute. reflexivity.
  - exists f2. split; [exact Hr|exact Hf].
Defined.
