(* ===== verification/SyncScope.v ===== *)
(** * Ledger scopes

    Which profiles share a ledger file, and what the stored identity accepts. *)

From Stdlib Require Import Strings.String Strings.Ascii.
From stdpp Require Import gmap.
From S2P Require Import Prelude Errors AppErrors Domain Handshake Proto Text Paths Fs SyncStore SyncJournal Sync SyncRun SyncCrash SyncLayout SyncProps.

#[local] Open Scope string_scope.
#[local] Open Scope list_scope.
#[local] Open Scope Z_scope.

(** ** Strings without a character *)

Fixpoint free_of (c : ascii) (s : string) : Prop :=
  match s with
  | EmptyString => True
  | String d s => d <> c /\ free_of c s
  end.

Lemma free_of_app (c : ascii) (a b : string) : free_of c (a +:+ b) <-> free_of c a /\ free_of c b.
Proof. unfold String.app. induction a as [|d a IH]; simpl; [tauto|]. rewrite IH. tauto. Qed.

Lemma free_of_rev (c : ascii) (s : string) : free_of c (string_rev s) <-> free_of c s.
Proof.
  induction s as [|d s IH]; [done|]. rewrite string_rev_cons, free_of_app, IH. simpl. tauto.
Qed.

Lemma free_of_trim_front (c : ascii) (rev : bool) (s : string) : free_of c s -> free_of c (trim_front rev s).
Proof.
  assert (forall n s, (String.length s <= n)%nat -> free_of c s -> free_of c (trim_front rev s)) as Hn.
  { clear s. induction n as [|n IH]; intros [|a s] Hl; cbn [String.length] in Hl; try done; [lia|].
    intros [Ha Hs]. cbn [trim_front]. destruct (ws1 a); [apply IH; [lia|done]|].
    destruct s as [|b s]; [done|]. destruct Hs as [Hb Hs]. cbn [String.length] in Hl.
    destruct (if rev then _ else _); [apply IH; [lia|done]|].
    destruct s as [|d s]; [done|]. destruct Hs as [Hd Hs]. cbn [String.length] in Hl.
    destruct (if rev then _ else _); [apply IH; [lia|done]|done]. }
  intros Hf. by eapply Hn.
Qed.

Lemma free_of_trim (c : ascii) (s : string) : free_of c s -> free_of c (trim s).
Proof. intros Hf. unfold trim. by apply free_of_rev, free_of_trim_front, free_of_rev, free_of_trim_front. Qed.

Lemma free_of_drop_char (c d : ascii) (s : string) : free_of c s -> free_of c (drop_char d s).
Proof. induction s as [|x s IH]; simpl; [done|]. intros [H1 H2]. case_bool_decide; [auto|]. by split. Qed.

Lemma free_of_normalize_root (c : ascii) (s : string) : c <> slash -> free_of c s -> free_of c (normalize_root s).
Proof.
  intros Hc Hf. unfold normalize_root. assert (free_of c "/") as Hs by (simpl; unfold slash in Hc; split; [congruence|done]).
  case_match; [done|]. case_bool_decide; [done|].
  unfold trim_end_matches. by apply free_of_rev, free_of_drop_char, free_of_rev, free_of_trim.
Qed.

(** The first separator of a string is found where it is. *)
Lemma split_free (c : ascii) (a b x y : string) :
  free_of c a -> free_of c b -> a +:+ String c x = b +:+ String c y -> a = b /\ x = y.
Proof.
  unfold String.app. revert b. induction a as [|d a IH]; intros [|e b]; simpl.
  - by intros _ _ [= ->].
  - by intros _ [Hne _] [= <- _].
  - by intros [Hne _] _ [= <- _].
  - intros [_ Ha] [_ Hb] [= -> Heq]. by destruct (IH b Ha Hb Heq) as [-> ->].
Qed.

Lemma has_control_free (s : string) : has_control s = false -> free_of zero s.
Proof.
  induction s as [|c s IH]; simpl; [done|]. intros Hc. apply orb_false_iff in Hc as [Hc Hs].
  split; [|by apply IH]. intros ->. by vm_compute in Hc.
Qed.

(** ** The name of the ledger file *)

Lemma hex_digit_inj (m n : Z) : 0 <= m < 16 -> 0 <= n < 16 -> hex_digit m = hex_digit n -> m = n.
Proof.
  intros Hm Hn Heq.
  assert (forallb (fun m => forallb (fun n => negb (bool_decide (hex_digit m = hex_digit n)) || (m =? n)) (seqZ 0 16))
            (seqZ 0 16) = true) as Hall by by vm_compute.
  rewrite forallb_forall in Hall.
  assert (m ∈ seqZ 0 16) as Im%list_elem_of_In by (apply elem_of_seqZ; lia).
  assert (n ∈ seqZ 0 16) as In'%list_elem_of_In by (apply elem_of_seqZ; lia).
  specialize (Hall m Im). rewrite forallb_forall in Hall. specialize (Hall n In').
  rewrite bool_decide_eq_true_2 in Hall by done. simpl in Hall. lia.
Qed.

Lemma hex_of_bytes_inj (a b : list byte) : hex_of_bytes a = hex_of_bytes b -> a = b.
Proof.
  revert b. induction a as [|x a IH]; intros [|y b]; simpl; try done. intros [= H1 H2 H3].
  pose proof (byte_to_Z_range x). pose proof (byte_to_Z_range y).
  apply hex_digit_inj in H1; [|Z.to_euclidean_division_equations; lia..].
  apply hex_digit_inj in H2; [|Z.to_euclidean_division_equations; lia..].
  f_equal; [|by apply IH]. apply byte_to_Z_inj. Z.to_euclidean_division_equations; lia.
Qed.

Lemma hex_no_slash (bs : list byte) : is_absolute (hex_of_bytes bs +:+ ".json") = false.
Proof.
  destruct bs as [|b bs]; [done|]. unfold is_absolute. simpl. unfold starts_with_slash. apply bool_decide_eq_false.
  pose proof (byte_to_Z_range b). intros Heq.
  assert (forallb (fun n => negb (bool_decide (hex_digit n = "/"%char))) (seqZ 0 16) = true) as Hall by by vm_compute.
  rewrite forallb_forall in Hall.
  assert (byte_to_Z b / 16 ∈ seqZ 0 16) as Hin%list_elem_of_In
    by (apply elem_of_seqZ; Z.to_euclidean_division_equations; lia).
  specialize (Hall _ Hin). by rewrite bool_decide_eq_true_2 in Hall.
Qed.

Lemma bytes_of_string_inj (a b : string) : bytes_of_string a = bytes_of_string b -> a = b.
Proof.
  intros Heq. rewrite <- (string_of_list_byte_of_string a), <- (string_of_list_byte_of_string b).
  by apply (f_equal string_of_list_byte) in Heq.
Qed.

Lemma app_inj_str_l (a b x : string) : a +:+ x = b +:+ x -> a = b.
Proof.
  intros Heq. apply (f_equal string_rev) in Heq. rewrite !string_rev_app_distr in Heq. apply app_inj_str in Heq.
  rewrite <- (string_rev_involutive a), <- (string_rev_involutive b). by f_equal.
Qed.

Lemma path_join_inj (p a b : path) :
  is_absolute a = false -> is_absolute b = false -> path_join p a = path_join p b -> a = b.
Proof.
  unfold path_join. intros -> ->. destruct (negb _ && negb _); intros Heq%app_inj_str; [by injection Heq|done].
Qed.

(** A validated profile has no separator in the parts before the last. *)
Lemma valid_identity_free (p : SyncProfileDto) (canonical : option path) :
  validate_sync_profile_format p = Ok () ->
  free_of zero (li_device_uuid (sync_identity_for canonical p)) /\
  free_of zero (li_remote_root (sync_identity_for canonical p)).
Proof.
  unfold validate_sync_profile_format, check_id. intros Hv.
  destruct (bool_decide (sp_id p = "") || _); [done|]. destruct (has_control (sp_id p)); [done|]. simpl in Hv.
  destruct (bool_decide (sp_device_uuid p = "") || _); [done|].
  destruct (has_control (sp_device_uuid p)) eqn:Hu; [done|]. simpl in Hv.
  destruct (negb (bool_decide (string_filter _ _ = _))); [done|].
  destruct (negb (is_absolute _)); [done|]. destruct (negb (starts_with _ _)); [done|].
  destruct (has_control (sp_remote_root p)) eqn:Hr; [done|].
  split; [by apply has_control_free|]. apply free_of_normalize_root; [done|]. by apply has_control_free.
Qed.

Lemma canonical_scope_inj (i k : SyncLedgerIdentity) :
  free_of zero (li_device_uuid i) -> free_of zero (li_remote_root i) ->
  free_of zero (li_device_uuid k) -> free_of zero (li_remote_root k) ->
  canonical_scope i = canonical_scope k -> i = k.
Proof.
  destruct i as [u r l], k as [u' r' l']. unfold canonical_scope. simpl. intros H1 H2 H3 H4 Heq.
  apply split_free in Heq as [-> Heq]; [|done..]. by apply split_free in Heq as [-> ->].
Qed.

(** Profiles that pass validation share a ledger file only when they are the same
    scope: if SHA-256 does not collide on the two scope strings and the ledger paths
    agree, so do device, remote root and local root, up to one more normalisation of the
    roots. *)
Theorem scopes_separate `{Crypto} (config_dir : path) (p q : SyncProfileDto) (cp cq : option path) :
  let a := discover config_dir (sync_identity_for cp p) in
  let b := discover config_dir (sync_identity_for cq q) in
  validate_sync_profile_format p = Ok () -> validate_sync_profile_format q = Ok () ->
  (let x := bytes_of_string (canonical_scope (normalized (st_identity a))) in
   let y := bytes_of_string (canonical_scope (normalized (st_identity b))) in sha256 x = sha256 y -> x = y) ->
  st_path a = st_path b -> normalized (st_identity a) = normalized (st_identity b).
Proof.
  intros a b Hp Hq Hsha Hpath. unfold a, b, discover in Hpath. simpl in Hpath.
  apply path_join_inj in Hpath; [|apply hex_no_slash..].
  apply app_inj_str_l, hex_of_bytes_inj, Hsha, bytes_of_string_inj in Hpath.
  apply (valid_identity_free p cp) in Hp as [Hp1 Hp2]. apply (valid_identity_free q cq) in Hq as [Hq1 Hq2].
  apply canonical_scope_inj in Hpath; [done| | | |]; simpl in *;
    repeat first [done | apply free_of_normalize_root].
Qed.

Definition sample_profile : SyncProfileDto := mkSyncProfile "p" 1 "U" "/DCIM/" "/photos" true.

Lemma scopes_separate_witness :
  let a := @discover toy_crypto "/c" (sync_identity_for None sample_profile) in
  normalized (st_identity a) = normalized (st_identity (@discover toy_crypto "/c" (sync_identity_for (Some "/photos/") sample_profile))).
Proof.
  refine (@scopes_separate toy_crypto "/c" sample_profile sample_profile None (Some "/photos/") _ _ _ _).
  - vm_compute. reflexivity.
  - vm_compute. reflexivity.
  - intros x y _. vm_compute. reflexivity.
  - vm_compute. reflexivity.
Defined.

(** A scope whose roots change under a second normalisation can never load its own
    ledger: the check of the stored identity normalises once more, so a disk that holds
    exactly what [save] wrote is refused as another scope's. *)
Theorem own_ledger_refused `{Crypto} `{!Json SyncLedgerFileV3} `{!JsonRoundTrip SyncLedgerFileV3}
    (config_dir : path) (identity : SyncLedgerIdentity) (s : SyncSnapshot) (f : fs) (rs : list Z) :
  let store := discover config_dir identity in
  normalized (normalized identity) <> normalized identity -> ledger_is store s f ->
  load store (mkWorld f [] rs) =
    (Ret (Err (configuration "sync.identity_mismatch" [st_path store])), mkWorld f [] rs).
Proof.
  intros store Hid (bs & Hj & Hl). assert (st_identity store = normalized identity) as Hst by done. clearbody store. unfold load. unfold lkey in Hl.
  erewrite clean_bind by apply clean_exists. rewrite bool_decide_eq_true_2 by (rewrite Hl; eauto).
  rewrite (clean_bind _ _ (Err (configuration "sync.identity_mismatch" [st_path store])) _ (mkWorld f [] rs)); [done|].
  unfold load_v3, set_path_permissions.
  erewrite clean_fails_with by (unfold set_permissions, syscall; simpl; by rewrite Hl).
  erewrite clean_fails_with by (unfold read_file, syscall; simpl; by rewrite Hl).
  rewrite (json_round_trip _ _ Hj). simpl. by rewrite Hst, bool_decide_eq_false_2 by done.
Qed.

(** A local root that ends in a blank and a slash. *)
Definition blank_identity : SyncLedgerIdentity := mkIdentity "U" "/DCIM" "/a /".

Definition blank_disk : fs :=
  <[lkey (@discover toy_crypto "/c" blank_identity) :=
      File (bits_of (encode (ledger_file (@discover toy_crypto "/c" blank_identity) SyncSnapshot_default)))]> ∅.

Lemma own_ledger_refused_witness :
  exists e, @load toy_crypto toy_json (@discover toy_crypto "/c" blank_identity) (mkWorld blank_disk [] []) =
    (Ret (Err e), mkWorld blank_disk [] []).
Proof.
  eexists. refine (@own_ledger_refused toy_crypto toy_json toy_json_round_trip "/c" blank_identity SyncSnapshot_default
    blank_disk [] _ _).
  - vm_compute. discriminate.
  - eexists. split; [reflexivity|]. apply lookup_insert_eq.
Defined.
