(* ===== verification/EventHub.v ===== *)
(** * The backend event hub

    crates/handshaker-application/src/event.rs: numbered events broadcast to
    subscribers until the hub is closed.  A publisher first takes a number and then,
    under the lock of the sender, hands the envelope over; between the two any other
    publisher may run. *)

From S2P Require Import Prelude.

#[local] Open Scope Z_scope.

Section Hub.
Context {E : Type}.

Record EventEnvelope := mkEnvelope { ev_sequence : Z; ev_timestamp_ms : Z; ev_event : E }.

(** [hub_sent] is what went through the broadcast sender, oldest first. *)
Record EventHub := mkEventHub {
  hub_open : bool;
  hub_next_sequence : Z;
  hub_sent : list EventEnvelope
}.

Definition hub_new : EventHub := mkEventHub true 1 [].

(** [fetch_add] on the 64-bit counter, and the envelope. *)
Definition publish_number (event : E) (now : Z) (h : EventHub) : EventEnvelope * EventHub :=
  (mkEnvelope (hub_next_sequence h) now event,
   mkEventHub (hub_open h) ((hub_next_sequence h + 1) mod 2 ^ 64) (hub_sent h)).

(** The part under the lock. *)
Definition publish_send (envelope : EventEnvelope) (h : EventHub) : EventHub :=
  if hub_open h then mkEventHub true (hub_next_sequence h) (hub_sent h ++ [envelope]) else h.

Definition publish (event : E) (now : Z) (h : EventHub) : EventHub :=
  let (envelope, h) := publish_number event now h in publish_send envelope h.

Definition hub_close (h : EventHub) : EventHub := mkEventHub false (hub_next_sequence h) (hub_sent h).

(** A subscriber sees what is sent from its subscription on, and nothing of a closed hub. *)
Definition subscribe (h : EventHub) : nat := length (hub_sent h).
Definition received (from : nat) (h : EventHub) : list EventEnvelope := drop from (hub_sent h).

(** ** Publishers at once *)

(** The hub with the envelopes that have a number but are not sent yet. *)
Record hub_state := mkHubState { hs_hub : EventHub; hs_numbered : list EventEnvelope }.

Inductive hub_step : hub_state -> hub_state -> Prop :=
  | hub_step_number event now st : hub_step st
      (mkHubState (publish_number event now (hs_hub st)).2
                  (hs_numbered st ++ [(publish_number event now (hs_hub st)).1]))
  | hub_step_send h before envelope after : hub_step (mkHubState h (before ++ envelope :: after))
      (mkHubState (publish_send envelope h) (before ++ after))
  | hub_step_close st : hub_step st (mkHubState (hub_close (hs_hub st)) (hs_numbered st)).

End Hub.
Arguments EventEnvelope E : clear implicits.
Arguments EventHub E : clear implicits.
Arguments hub_state E : clear implicits.

(** The numbers in use. *)
Definition hub_numbers {E} (st : hub_state E) : list Z :=
  (ev_sequence <$> hub_sent (hs_hub st)) ++ (ev_sequence <$> hs_numbered st).

(** Up to the first wrap of the counter, [n] numbers after the start. *)
Definition hub_ok {E} (n : Z) (st : hub_state E) : Prop :=
  hub_next_sequence (hs_hub st) = (1 + n) mod 2 ^ 64 /\ 0 <= n < 2 ^ 64 - 1 /\
  NoDup (hub_numbers st) /\ Forall (fun k => 1 <= k <= n) (hub_numbers st).

Lemma hub_step_ok {E} (a b : hub_state E) (n : Z) :
  hub_step a b -> hub_ok n a -> n + 1 < 2 ^ 64 - 1 -> exists m, n <= m <= n + 1 /\ hub_ok m b.
Proof.
  intros Hs (Hn & Hr & Hd & Hf) Hlt. destruct Hs as [event now st|h before envelope after|st]; unfold hub_ok, hub_numbers in *; simpl in *.
  - rewrite Z.mod_small in Hn by lia. exists (n + 1). rewrite Hn. split_and!; [lia|lia|f_equal; lia|lia|lia| |].
    + rewrite fmap_app, app_assoc. apply NoDup_app. split_and!; [done| |by apply NoDup_singleton].
      intros k Hk ->%list_elem_of_singleton. rewrite Forall_forall in Hf. specialize (Hf _ Hk). simpl in Hf. lia.
    + rewrite fmap_app, app_assoc. apply Forall_app. split; [|by constructor; [simpl; lia|]].
      eapply Forall_impl; [exact Hf|]. simpl. lia.
  - exists n. unfold publish_send. destruct (hub_open h); simpl in *.
    + assert ((ev_sequence <$> (hub_sent h ++ [envelope])) ++ (ev_sequence <$> (before ++ after)) ≡ₚ
              (ev_sequence <$> hub_sent h) ++ (ev_sequence <$> (before ++ envelope :: after))) as Hp.
      { rewrite !fmap_app. simpl. rewrite <- app_assoc. apply Permutation_app_head. simpl.
        by rewrite Permutation_middle. }
      split_and!; [lia|lia|done|lia|lia| |]; by rewrite Hp.
    + assert ((ev_sequence <$> hub_sent h) ++ (ev_sequence <$> (before ++ envelope :: after)) ≡ₚ
              ev_sequence envelope :: (ev_sequence <$> hub_sent h) ++ (ev_sequence <$> (before ++ after))) as Hp.
      { rewrite !fmap_app. simpl. rewrite <- Permutation_middle. by rewrite <- Permutation_middle. }
      rewrite Hp in Hd, Hf. apply NoDup_cons in Hd as [_ Hd]. apply Forall_cons in Hf as [_ Hf].
      by split_and!; [lia|lia|done|lia|lia|..].
  - exists n. by split_and!; [lia|lia|done|lia|lia|..].
Qed.
