(* ===== verification/Transfer.v ===== *)
(** * The transfer registry

    crates/handshaker-application/src/transfer.rs: the snapshots of background
    transfers, their one-way state machine, cancellation, throttled progress events
    and the bounded history.  Each function is one critical section of the registry
    lock; the clock is an argument. *)

From S2P Require Import Prelude Errors AppErrors EventHub.

#[local] Open Scope string_scope.
#[local] Open Scope list_scope.
#[local] Open Scope Z_scope.

Inductive TransferState := Queued | Running | Completed | Failed | TransferIsCancelled.
Inductive TransferDirectionDto := Download | Upload.

#[export] Instance TransferState_eq_dec : EqDecision TransferState.
Proof. solve_decision. Defined.
#[export] Instance TransferDirectionDto_eq_dec : EqDecision TransferDirectionDto.
Proof. solve_decision. Defined.

Record BatchTransferItemDto := mkBatchItem { bi_source : string; bi_target : string }.
Record TransferFailureDto := mkTransferFailure { tf_source : string; tf_target : string; tf_message : string }.
Record BatchTransferResultDto := mkBatchResult { br_ok : list BatchTransferItemDto; br_failures : list TransferFailureDto }.

Record TransferSnapshot := mkTransferSnapshot {
  ts_id : Z;
  ts_session_id : Z;
  ts_direction : TransferDirectionDto;
  ts_source : string;
  ts_destination : string;
  ts_state : TransferState;
  ts_transferred_bytes : Z;
  ts_total_bytes : option Z;
  ts_started_at_ms : option Z;
  ts_finished_at_ms : option Z;
  ts_error : option PublicError;
  ts_item_count : Z;
  ts_completed_items : Z;
  ts_failed_items : Z;
  ts_current_item : option string;
  ts_batch_result : option BatchTransferResultDto
}.

(** The slot of a background task, by its number. *)
Inductive TaskPublication := Reserved | Published (task : Z) | Finished | Taken.

#[export] Instance TaskPublication_eq_dec : EqDecision TaskPublication.
Proof. solve_decision. Defined.

Record ProgressThrottle := mkThrottle { pt_last_emit_ms : Z; pt_last_emit_bytes : Z }.

Record ActiveTransfer := mkActiveTransfer {
  at_snapshot : TransferSnapshot;
  at_cancelled : bool;
  at_join : TaskPublication;
  at_throttle : ProgressThrottle
}.

Definition PROGRESS_MIN_INTERVAL_MS : Z := 100.
Definition PROGRESS_MIN_BYTES : Z := 256 * 1024.

(** [rg_done] are the background tasks that have ended. *)
Record TransferRegistry := mkRegistry {
  rg_transfers : gmap Z ActiveTransfer;
  rg_next_id : Z;
  rg_hub : EventHub TransferSnapshot;
  rg_history_capacity : Z;
  rg_history_ttl : option Z;
  rg_done : gset Z
}.

Definition registry_new (history_capacity : Z) (history_ttl : option Z) : TransferRegistry :=
  mkRegistry ∅ 1 hub_new (Z.max history_capacity 1) history_ttl ∅.

Definition terminal (s : TransferState) : bool :=
  match s with Completed | Failed | TransferIsCancelled => true | Queued | Running => false end.

(** ** Field updates *)

Definition with_transfers (f : gmap Z ActiveTransfer -> gmap Z ActiveTransfer) (r : TransferRegistry) : TransferRegistry :=
  mkRegistry (f (rg_transfers r)) (rg_next_id r) (rg_hub r) (rg_history_capacity r) (rg_history_ttl r) (rg_done r).

Definition publish_update (snapshot : TransferSnapshot) (now : Z) (r : TransferRegistry) : TransferRegistry :=
  mkRegistry (rg_transfers r) (rg_next_id r) (publish snapshot now (rg_hub r)) (rg_history_capacity r)
    (rg_history_ttl r) (rg_done r).

Definition with_snapshot (f : TransferSnapshot -> TransferSnapshot) (e : ActiveTransfer) : ActiveTransfer :=
  mkActiveTransfer (f (at_snapshot e)) (at_cancelled e) (at_join e) (at_throttle e).

Definition with_join (j : TaskPublication) (e : ActiveTransfer) : ActiveTransfer :=
  mkActiveTransfer (at_snapshot e) (at_cancelled e) j (at_throttle e).

Definition with_throttle (t : ProgressThrottle) (e : ActiveTransfer) : ActiveTransfer :=
  mkActiveTransfer (at_snapshot e) (at_cancelled e) (at_join e) t.

Definition token_cancelled (e : ActiveTransfer) : ActiveTransfer :=
  mkActiveTransfer (at_snapshot e) true (at_join e) (at_throttle e).

Definition set_state (next : TransferState) (finished : option Z) (s : TransferSnapshot) : TransferSnapshot :=
  mkTransferSnapshot (ts_id s) (ts_session_id s) (ts_direction s) (ts_source s) (ts_destination s) next
    (ts_transferred_bytes s) (ts_total_bytes s) (ts_started_at_ms s) finished (ts_error s) (ts_item_count s)
    (ts_completed_items s) (ts_failed_items s) (ts_current_item s) (ts_batch_result s).

Definition set_bytes (transferred : Z) (total : option Z) (s : TransferSnapshot) : TransferSnapshot :=
  mkTransferSnapshot (ts_id s) (ts_session_id s) (ts_direction s) (ts_source s) (ts_destination s) (ts_state s)
    transferred total (ts_started_at_ms s) (ts_finished_at_ms s) (ts_error s) (ts_item_count s)
    (ts_completed_items s) (ts_failed_items s) (ts_current_item s) (ts_batch_result s).

Definition set_items (completed failed : Z) (current : option string) (s : TransferSnapshot) : TransferSnapshot :=
  mkTransferSnapshot (ts_id s) (ts_session_id s) (ts_direction s) (ts_source s) (ts_destination s) (ts_state s)
    (ts_transferred_bytes s) (ts_total_bytes s) (ts_started_at_ms s) (ts_finished_at_ms s) (ts_error s)
    (ts_item_count s) completed failed current (ts_batch_result s).

Definition with_result (result : BatchTransferResultDto) (s : TransferSnapshot) : TransferSnapshot :=
  mkTransferSnapshot (ts_id s) (ts_session_id s) (ts_direction s) (ts_source s) (ts_destination s) (ts_state s)
    (ts_transferred_bytes s) (ts_total_bytes s) (ts_started_at_ms s) (ts_finished_at_ms s) (ts_error s)
    (ts_item_count s) (ts_completed_items s) (ts_failed_items s) (ts_current_item s) (Some result).

Definition with_error (error : PublicError) (s : TransferSnapshot) : TransferSnapshot :=
  mkTransferSnapshot (ts_id s) (ts_session_id s) (ts_direction s) (ts_source s) (ts_destination s) (ts_state s)
    (ts_transferred_bytes s) (ts_total_bytes s) (ts_started_at_ms s) (ts_finished_at_ms s) (Some error)
    (ts_item_count s) (ts_completed_items s) (ts_failed_items s) (ts_current_item s) (ts_batch_result s).

(** ** The history *)

(** The order a [HashMap] iterates in: some order of its entries. *)
Class HashOrder := {
  hash_iter : gmap Z ActiveTransfer -> list (Z * ActiveTransfer);
  hash_iter_perm : forall m, hash_iter m ≡ₚ map_to_list m
}.

(** The slot allows an eviction: its task is over, or its handle was taken for a join and
    is no longer the registry's, which says nothing of the task. *)
Definition is_finished (done : gset Z) (j : TaskPublication) : bool :=
  match j with
  | Reserved => false
  | Finished | Taken => true
  | Published task => bool_decide (task ∈ done)
  end.

Definition can_evict (done : gset Z) (e : ActiveTransfer) : bool :=
  match ts_finished_at_ms (at_snapshot e) with
  | None => false
  | Some _ => is_finished done (at_join e)
  end.

(** The [retain] of the time limit. *)
Definition keeps (done : gset Z) (now ttl_ms : Z) (e : ActiveTransfer) : bool :=
  if negb (can_evict done e) then true
  else match ts_finished_at_ms (at_snapshot e) with
       | Some finished => saturating_sub now finished <? ttl_ms
       | None => true
       end.

(** [Iterator::min_by_key]: the first of the least. *)
Fixpoint min_by_key {A} (key : A -> Z) (l : list A) (best : option A) : option A :=
  match l with
  | [] => best
  | a :: l =>
      min_by_key key l (match best with
                        | Some b => if key a <? key b then Some a else Some b
                        | None => Some a
                        end)
  end.

Section Registry.
Context `{HashOrder}.

Definition oldest_finished (done : gset Z) (m : gmap Z ActiveTransfer) : option (Z * Z) :=
  min_by_key snd
    (omap (fun '(id, e) => if can_evict done e then (pair id) <$> ts_finished_at_ms (at_snapshot e) else None)
       (hash_iter m)) None.

(** The eviction loop; as many rounds as entries are enough. *)
Fixpoint evict_over (fuel : nat) (capacity : Z) (done : gset Z) (m : gmap Z ActiveTransfer) : gmap Z ActiveTransfer :=
  match fuel with
  | O => m
  | S fuel =>
      if capacity <? Z.of_nat (size m) then
        match oldest_finished done m with
        | Some (id, _) => evict_over fuel capacity done (delete id m)
        | None => m
        end
      else m
  end.

Definition reap_transfers (now : Z) (r : TransferRegistry) (m : gmap Z ActiveTransfer) : gmap Z ActiveTransfer :=
  let m := match rg_history_ttl r with
           | Some ttl_ms => filter (fun kv => keeps (rg_done r) now ttl_ms kv.2 = true) m
           | None => m
           end in
  evict_over (size m) (rg_history_capacity r) (rg_done r) m.

Definition reap_locked (now : Z) (r : TransferRegistry) : TransferRegistry := with_transfers (reap_transfers now r) r.

(** ** Operations *)

Definition register (snapshot : TransferSnapshot) (now : Z) (r : TransferRegistry) : TransferRegistry :=
  reap_locked now
    (with_transfers (insert (ts_id snapshot) (mkActiveTransfer snapshot false Reserved (mkThrottle 0 0))) r).

Definition transfer_not_found : PublicError := public_new TransferNotFound "transfer not found".

Definition get (id : Z) (r : TransferRegistry) : AppResult TransferSnapshot :=
  match rg_transfers r !! id with
  | Some e => Ok (at_snapshot e)
  | None => Err transfer_not_found
  end.

Definition list_transfers (r : TransferRegistry) : list TransferSnapshot :=
  (fun kv => at_snapshot kv.2) <$> hash_iter (rg_transfers r).

(** The new snapshot of [transition]. *)
Definition next_snapshot (next : TransferState) (now : Z) (s : TransferSnapshot) : TransferSnapshot :=
  if terminal (ts_state s) then s
  else set_state next (if terminal next then Some now else ts_finished_at_ms s) s.

Definition transition (id : Z) (next : TransferState) (now : Z) (r : TransferRegistry)
  : option TransferSnapshot * TransferRegistry :=
  match rg_transfers r !! id with
  | None => (None, r)
  | Some e =>
      let e := with_snapshot (next_snapshot next now) e in
      (Some (at_snapshot e), with_transfers (insert id e) r)
  end.

(** A transition and its event. *)
Definition transition_publish (id : Z) (next : TransferState) (now : Z) (r : TransferRegistry) : TransferRegistry :=
  match transition id next now r with
  | (Some snapshot, r) => publish_update snapshot now r
  | (None, r) => r
  end.

Definition cancel_token (id : Z) (r : TransferRegistry) : TransferRegistry := with_transfers (alter token_cancelled id) r.

Definition cancel_transfer (id : Z) (now : Z) (r : TransferRegistry) : AppResult unit * TransferRegistry :=
  match rg_transfers r !! id with
  | None => (Err transfer_not_found, r)
  | Some _ => (Ok (), transition_publish id TransferIsCancelled now (cancel_token id r))
  end.

(** The entries of a session, with their terminal flags as of the call. *)
Definition session_entries (session_id : Z) (r : TransferRegistry) : list (Z * bool) :=
  omap (fun kv => let s := at_snapshot kv.2 in
                  if ts_session_id s =? session_id then Some (ts_id s, terminal (ts_state s)) else None)
    (hash_iter (rg_transfers r)).

(** Taking the handle out of a slot; whatever was there, the slot is [Taken] now. *)
Definition take_join (id : Z) (r : TransferRegistry) : option Z * TransferRegistry :=
  match rg_transfers r !! id with
  | None => (None, r)
  | Some e => (match at_join e with Published task => Some task | _ => None end,
               with_transfers (insert id (with_join Taken e)) r)
  end.

Fixpoint cancel_entries (entries : list (Z * bool)) (now : Z) (joins : list Z) (r : TransferRegistry)
  : list Z * TransferRegistry :=
  match entries with
  | [] => (joins, r)
  | (id, was_terminal) :: entries =>
      let r := cancel_token id r in
      let r := if was_terminal : bool then r else transition_publish id TransferIsCancelled now r in
      let (join, r) := take_join id r in
      cancel_entries entries now (joins ++ option_list join) r
  end.

Definition cancel_for_session (session_id : Z) (now : Z) (r : TransferRegistry) : list Z * TransferRegistry :=
  cancel_entries (session_entries session_id r) now [] r.

Definition reaped_slot (done : gset Z) (e : ActiveTransfer) : ActiveTransfer :=
  match at_join e with
  | Published task => if bool_decide (task ∈ done) then with_join Finished e else e
  | _ => e
  end.

Definition reap (r : TransferRegistry) : TransferRegistry := with_transfers (fmap (reaped_slot (rg_done r))) r.

Definition snapshot_for (session_id : Z) (direction : TransferDirectionDto) (source destination : string) (now : Z)
  (r : TransferRegistry) : TransferSnapshot * TransferRegistry :=
  (mkTransferSnapshot (rg_next_id r) session_id direction source destination Queued 0 None (Some now) None None
     0 0 0 None None,
   mkRegistry (rg_transfers r) ((rg_next_id r + 1) mod 2 ^ 64) (rg_hub r) (rg_history_capacity r) (rg_history_ttl r)
     (rg_done r)).

(** ** Progress *)

Definition throttle_allows (now : Z) (bytes : option Z) (t : ProgressThrottle) : bool * ProgressThrottle :=
  let enough_time := PROGRESS_MIN_INTERVAL_MS <=? saturating_sub now (pt_last_emit_ms t) in
  let enough_bytes := match bytes with
                      | Some b => PROGRESS_MIN_BYTES <=? saturating_sub b (pt_last_emit_bytes t)
                      | None => false
                      end in
  if enough_time || enough_bytes
  then (true, mkThrottle now (default (pt_last_emit_bytes t) bytes))
  else (false, t).

Definition resume (s : TransferSnapshot) : TransferSnapshot :=
  if terminal (ts_state s) then s else set_state Running (ts_finished_at_ms s) s.

(** One progress report: the update of the entry, then its event if it may emit. *)
Definition report (id : Z) (now : Z) (bytes : option Z) (f : TransferSnapshot -> TransferSnapshot)
  (r : TransferRegistry) : TransferRegistry :=
  match rg_transfers r !! id with
  | None => r
  | Some e =>
      let (emit, throttle) := throttle_allows now bytes (at_throttle e) in
      let e := with_throttle throttle (with_snapshot (fun s => resume (f s)) e) in
      let r := with_transfers (insert id e) r in
      if emit : bool then match get id r with
                          | Ok snapshot => publish_update snapshot now r
                          | Err _ => r
                          end
      else r
  end.

Definition set_progress (id transferred total : Z) (now : Z) (r : TransferRegistry) : TransferRegistry :=
  report id now (Some transferred) (set_bytes transferred (Some total)) r.

Definition set_batch_items (id completed failed : Z) (current : option string) (now : Z) (r : TransferRegistry)
  : TransferRegistry := report id now None (set_items completed failed current) r.

Definition set_batch_result (id : Z) (result : BatchTransferResultDto) (r : TransferRegistry) : TransferRegistry :=
  with_transfers (alter (with_snapshot (fun s => if terminal (ts_state s) then s else with_result result s)) id) r.

Definition set_error (id : Z) (error : PublicError) (r : TransferRegistry) : TransferRegistry :=
  with_transfers (alter (with_snapshot (with_error error)) id) r.

(** ** The background task of a download or an upload *)

Definition start_transfer (session_id : Z) (direction : TransferDirectionDto) (source destination : string) (now : Z)
  (r : TransferRegistry) : Z * TransferRegistry :=
  let (snapshot, r) := snapshot_for session_id direction source destination now r in
  (ts_id snapshot, register snapshot now r).

(** The state a failed or cancelled task leaves. *)
Definition settle_failure (id : Z) (e : Error) (op : string) (now : Z) (r : TransferRegistry) : TransferRegistry :=
  match error_code e with
  | Cancelled | Interrupted => (transition id TransferIsCancelled now r).2
  | _ => (transition id Failed now (set_error id (from_core_error e op) r)).2
  end.

(** The end of the task, with what the client answered. *)
Definition finish_transfer (id : Z) (outcome : Res Z) (op : string) (now : Z) (r : TransferRegistry) : TransferRegistry :=
  match outcome with
  | Ok bytes => transition_publish id Completed now (set_progress id bytes bytes now r)
  | Err e =>
      let r := settle_failure id e op now r in
      match get id r with
      | Ok snapshot => publish_update snapshot now r
      | Err _ => r
      end
  end.

Definition transfer_closed_the_session (e : Error) : bool :=
  match e with
  | ECancelled info => ci_connection_closed info
  | other => bool_decide (error_code other = Transport)
  end.

(** ** Histories of calls *)

Inductive registry_call :=
  | CallStart (session_id : Z) (direction : TransferDirectionDto) (source destination : string)
  | CallTransition (id : Z) (next : TransferState)
  | CallCancel (id : Z)
  | CallCancelSession (session_id : Z)
  | CallReap
  | CallProgress (id transferred total : Z)
  | CallBatchItems (id completed failed : Z) (current : option string)
  | CallBatchResult (id : Z) (result : BatchTransferResultDto)
  | CallError (id : Z) (error : PublicError)
  | CallFinish (id : Z) (outcome : Res Z) (op : string)
  | CallPublished (id task : Z)
  | TaskEnds (task : Z).

(** The calls of running tasks and of users, all but a registration. *)
Definition running_call (c : registry_call) : Prop :=
  match c with CallStart _ _ _ _ => False | CallTransition _ next => next <> Queued | _ => True end.

Definition call (c : registry_call) (now : Z) (r : TransferRegistry) : TransferRegistry :=
  match c with
  | CallStart session_id direction source destination => (start_transfer session_id direction source destination now r).2
  | CallTransition id next => (transition id next now r).2
  | CallCancel id => (cancel_transfer id now r).2
  | CallCancelSession session_id => (cancel_for_session session_id now r).2
  | CallReap => reap r
  | CallProgress id transferred total => set_progress id transferred total now r
  | CallBatchItems id completed failed current => set_batch_items id completed failed current now r
  | CallBatchResult id result => set_batch_result id result r
  | CallError id error => set_error id error r
  | CallFinish id outcome op => finish_transfer id outcome op now r
  | CallPublished id task => with_transfers (alter (with_join (Published task)) id) r
  | TaskEnds task => mkRegistry (rg_transfers r) (rg_next_id r) (rg_hub r) (rg_history_capacity r) (rg_history_ttl r)
                       ({[task]} ∪ rg_done r)
  end.

Fixpoint calls (cs : list (registry_call * Z)) (r : TransferRegistry) : TransferRegistry :=
  match cs with
  | [] => r
  | (c, now) :: cs => calls cs (call c now r)
  end.

End Registry.
