(* ===== verification/TransferProps.v ===== *)
(** * What the transfer registry guarantees

    One-way states, a bounded history that never drops a running task, bounded
    progress events, and complete cancellation of a session. *)

From S2P Require Import Prelude Errors AppErrors EventHub Transfer.

#[local] Open Scope string_scope.
#[local] Open Scope list_scope.
#[local] Open Scope Z_scope.

(** ** How entries evolve *)

Abbreviation finished_at e := (ts_finished_at_ms (at_snapshot e)).

Definition rank (s : TransferState) : Z :=
  match s with Queued => 0 | Running => 1 | Completed | Failed | TransferIsCancelled => 2 end.

(** [b] is a later version of the entry [a]. *)
Definition evolves (a b : ActiveTransfer) : Prop :=
  let s := at_snapshot a in let t := at_snapshot b in
  ts_id t = ts_id s /\ ts_session_id t = ts_session_id s /\ ts_source t = ts_source s /\
  ts_destination t = ts_destination s /\ rank (ts_state s) <= rank (ts_state t) /\
  (at_cancelled a = true -> at_cancelled b = true) /\
  (terminal (ts_state s) = true ->
     ts_state t = ts_state s /\ ts_finished_at_ms t = ts_finished_at_ms s /\ ts_batch_result t = ts_batch_result s).

#[export] Instance evolves_preorder : PreOrder evolves.
Proof.
  split; [intros a; unfold evolves; split_and!; auto; lia|]. intros a b c (A1 & A2 & A3 & A4 & A5 & A6 & A7) (B1 & B2 & B3 & B4 & B5 & B6 & B7).
  split_and!; [congruence..|lia|auto|]. intros Ht. destruct (A7 Ht) as (E1 & E2 & E3).
  rewrite E1 in B7. destruct (B7 Ht) as (F1 & F2 & F3). split_and!; congruence.
Qed.

(** The time of the end is known exactly in terminal states. *)
Definition entry_ok (id : Z) (e : ActiveTransfer) : Prop :=
  ts_id (at_snapshot e) = id /\
  (is_Some (ts_finished_at_ms (at_snapshot e)) <-> terminal (ts_state (at_snapshot e)) = true).

(** A map whose entries come from another's, or are new above [n]. *)
Definition grows (n : Z) (m m' : gmap Z ActiveTransfer) : Prop :=
  forall id e', m' !! id = Some e' -> entry_ok id e' /\ match m !! id with
                                                      | Some e => evolves e e'
                                                      | None => n < id
                                                      end.

Definition registry_ok (n : Z) (r : TransferRegistry) : Prop :=
  rg_next_id r = 1 + n /\ 0 <= n /\ forall id e, rg_transfers r !! id = Some e -> 1 <= id <= n /\ entry_ok id e.

Lemma grows_refl (n : Z) (r : TransferRegistry) : registry_ok n r -> grows n (rg_transfers r) (rg_transfers r).
Proof. intros (_ & _ & Hok) id e He. rewrite He. split; [by apply Hok|reflexivity]. Qed.

Lemma evolves_next (next : TransferState) (now : Z) (id : Z) (e : ActiveTransfer) :
  next <> Queued -> entry_ok id e ->
  entry_ok id (with_snapshot (next_snapshot next now) e) /\ evolves e (with_snapshot (next_snapshot next now) e).
Proof.
  intros Hn [Hid Hf]. unfold evolves, entry_ok, next_snapshot. destruct e as [s c j t]; simpl in *.
  destruct (terminal (ts_state s)) eqn:Ht; simpl.
  { rewrite Ht. split_and!; try done; lia. }
  split_and!; try done.
  - destruct (terminal next) eqn:Hx; split; try done. intros Hs%Hf. congruence.
  - destruct (ts_state s), next; simpl in *; try done; lia.
Qed.

Lemma evolves_map (f : TransferSnapshot -> TransferSnapshot) (id : Z) (e : ActiveTransfer) :
  (forall s, ts_id (f s) = ts_id s /\ ts_session_id (f s) = ts_session_id s /\ ts_source (f s) = ts_source s /\
     ts_destination (f s) = ts_destination s /\ ts_state (f s) = ts_state s /\
     ts_finished_at_ms (f s) = ts_finished_at_ms s /\
     (terminal (ts_state s) = true -> ts_batch_result (f s) = ts_batch_result s)) ->
  entry_ok id e -> entry_ok id (with_snapshot f e) /\ evolves e (with_snapshot f e).
Proof.
  intros Hf [Hid Hfin]. destruct (Hf (at_snapshot e)) as (F1 & F2 & F3 & F4 & F5 & F6 & F7).
  unfold evolves, entry_ok. simpl. rewrite F1, F2, F3, F4, F5, F6. split_and!; try done; auto; lia.
Qed.

Lemma evolves_report (f : TransferSnapshot -> TransferSnapshot) (id : Z) (e : ActiveTransfer) (t : ProgressThrottle) :
  (forall s, ts_id (f s) = ts_id s /\ ts_session_id (f s) = ts_session_id s /\ ts_source (f s) = ts_source s /\
     ts_destination (f s) = ts_destination s /\ ts_state (f s) = ts_state s /\
     ts_finished_at_ms (f s) = ts_finished_at_ms s /\ ts_batch_result (f s) = ts_batch_result s) ->
  entry_ok id e ->
  entry_ok id (with_throttle t (with_snapshot (fun s => resume (f s)) e)) /\
  evolves e (with_throttle t (with_snapshot (fun s => resume (f s)) e)).
Proof.
  intros Hf [Hid Hfin]. destruct (Hf (at_snapshot e)) as (F1 & F2 & F3 & F4 & F5 & F6 & F7).
  unfold evolves, entry_ok, resume. simpl. rewrite F5.
  destruct (terminal (ts_state (at_snapshot e))) eqn:Ht; simpl; rewrite ?F1, ?F2, ?F3, ?F4, ?F5, ?F6, ?F7, ?Ht.
  - split_and!; done.
  - split_and!; try done. destruct (ts_state (at_snapshot e)); simpl in *; try done; lia.
Qed.

Lemma sub_grows (n : Z) (r : TransferRegistry) (m : gmap Z ActiveTransfer) :
  registry_ok n r -> m ⊆ rg_transfers r -> grows n (rg_transfers r) m.
Proof.
  intros (_ & _ & Hok) Hm id e He. pose proof (lookup_weaken _ _ _ _ He Hm) as Hr. rewrite Hr.
  split; [by apply Hok|reflexivity].
Qed.

Lemma alter_grows (n id : Z) (f : ActiveTransfer -> ActiveTransfer) (r : TransferRegistry) :
  registry_ok n r -> (forall e, entry_ok id e -> entry_ok id (f e) /\ evolves e (f e)) ->
  grows n (rg_transfers r) (alter f id (rg_transfers r)).
Proof.
  intros (_ & _ & Hok) Hf id' e' He'. destruct (decide (id' = id)) as [-> |Hne].
  - rewrite lookup_alter_eq in He'. destruct (rg_transfers r !! id) as [e|] eqn:He; [|done].
    injection He' as <-. apply Hf. by apply Hok.
  - rewrite lookup_alter_ne in He' by done. rewrite He'. split; [by apply Hok|reflexivity].
Qed.

(** A registry after another: entries evolve, and the new ones have new numbers. *)
Definition later (n k : Z) (a b : TransferRegistry) : Prop :=
  registry_ok n a /\ registry_ok k b /\ n <= k /\ grows n (rg_transfers a) (rg_transfers b).

Lemma later_refl (n : Z) (r : TransferRegistry) : registry_ok n r -> later n n r r.
Proof. intros Hr. split_and!; [done|done|lia|by apply grows_refl]. Qed.

Lemma later_trans (n k l : Z) (a b c : TransferRegistry) : later n k a b -> later k l b c -> later n l a c.
Proof.
  intros (Ha & Hb & Hnk & Hab) (_ & Hc & Hkl & Hbc). split_and!; [done|done|lia|].
  intros id e He. destruct (Hbc id e He) as [Hok Hev]. split; [done|].
  destruct (rg_transfers b !! id) as [eb|] eqn:Eb.
  - destruct (Hab id eb Eb) as [_ Hev']. destruct (rg_transfers a !! id); [by etrans|done].
  - destruct (rg_transfers a !! id) as [ea|] eqn:Ea; [|lia].
    destruct Ha as (_ & _ & Ha). destruct (Ha id ea Ea) as [? _]. lia.
Qed.

Lemma later_same (n : Z) (a b : TransferRegistry) :
  registry_ok n a -> rg_next_id b = rg_next_id a -> grows n (rg_transfers a) (rg_transfers b) ->
  (forall id, is_Some (rg_transfers b !! id) -> is_Some (rg_transfers a !! id)) -> later n n a b.
Proof.
  intros Ha Hn Hg Hd. split_and!; [done| |lia|done]. destruct Ha as (H1 & H2 & H3). split_and!; [congruence|done|].
  intros id e He. destruct (Hg id e He) as [Hok _]. destruct (Hd id) as [e0 He0]; [by eexists|].
  split; [by apply (H3 id e0)|done].
Qed.

Lemma later_alter (n id : Z) (f : ActiveTransfer -> ActiveTransfer) (a b : TransferRegistry) :
  registry_ok n a -> rg_next_id b = rg_next_id a -> rg_transfers b = alter f id (rg_transfers a) ->
  (forall e, entry_ok id e -> entry_ok id (f e) /\ evolves e (f e)) -> later n n a b.
Proof.
  intros Ha Hn Hb Hf. apply later_same; [done..| |]; rewrite Hb; [by apply alter_grows|].
  intros id'. by rewrite lookup_alter_is_Some.
Qed.

Lemma later_sub (n : Z) (a b : TransferRegistry) :
  registry_ok n a -> rg_next_id b = rg_next_id a -> rg_transfers b ⊆ rg_transfers a -> later n n a b.
Proof.
  intros Ha Hn Hb. apply later_same; [done..|by apply sub_grows|].
  intros id [e He]. exists e. by eapply lookup_weaken.
Qed.

(** Events are no part of an entry. *)
Lemma later_publish (n k : Z) (a b : TransferRegistry) (s : TransferSnapshot) (now : Z) :
  later n k a b -> later n k a (publish_update s now b).
Proof. done. Qed.

Lemma insert_alter (f : ActiveTransfer -> ActiveTransfer) (id : Z) (e : ActiveTransfer) (m : gmap Z ActiveTransfer) :
  m !! id = Some e -> <[id := f e]> m = alter f id m.
Proof.
  intros He. apply map_eq. intros k. destruct (decide (k = id)) as [-> |Hne].
  - by rewrite lookup_insert_eq, lookup_alter_eq, He.
  - by rewrite lookup_insert_ne, lookup_alter_ne.
Qed.

(** ** Every call *)

Section Calls.
Context `{HashOrder}.

Lemma later_transition (n id : Z) (next : TransferState) (now : Z) (r : TransferRegistry) :
  next <> Queued -> registry_ok n r -> later n n r (transition id next now r).2.
Proof.
  intros Hn Hr. unfold transition. destruct (rg_transfers r !! id) as [e|] eqn:He; [|by apply later_refl].
  eapply (later_alter n id (with_snapshot (next_snapshot next now))); [done|done|by apply (insert_alter _ _ e)|].
  intros e' He'. by apply evolves_next.
Qed.

Lemma later_transition_publish (n id : Z) (next : TransferState) (now : Z) (r : TransferRegistry) :
  next <> Queued -> registry_ok n r -> later n n r (transition_publish id next now r).
Proof.
  intros Hn Hr. pose proof (later_transition n id next now r Hn Hr) as Hl. unfold transition_publish.
  by destruct (transition id next now r) as [[s|] r'].
Qed.

Lemma later_cancel_token (n id : Z) (r : TransferRegistry) : registry_ok n r -> later n n r (cancel_token id r).
Proof.
  intros Hr. eapply later_alter; [done|done|done|]. intros e He. split; [done|]. unfold evolves; simpl.
  split_and!; try done; lia.
Qed.

Lemma later_with_join (n id : Z) (j : TaskPublication) (r : TransferRegistry) :
  registry_ok n r -> later n n r (with_transfers (alter (with_join j) id) r).
Proof.
  intros Hr. eapply later_alter; [done|done|done|]. intros e He. split; [done|]. unfold evolves; simpl.
  split_and!; try done; lia.
Qed.

Lemma later_take_join (n id : Z) (r : TransferRegistry) : registry_ok n r -> later n n r (take_join id r).2.
Proof.
  intros Hr. unfold take_join. destruct (rg_transfers r !! id) as [e|] eqn:He; [|by apply later_refl]. simpl.
  pose proof (later_with_join n id Taken r Hr) as Hl. unfold with_transfers in *. by rewrite (insert_alter (with_join Taken)).
Qed.

Lemma registry_ok_later (n k : Z) (a b : TransferRegistry) : later n k a b -> registry_ok k b.
Proof. by intros (_ & Hb & _). Qed.

Lemma later_cancel_entries (entries : list (Z * bool)) (n now : Z) (joins : list Z) (r : TransferRegistry) :
  registry_ok n r -> later n n r (cancel_entries entries now joins r).2.
Proof.
  revert joins r. induction entries as [|[id t] entries IH]; intros joins r Hr; simpl; [by apply later_refl|].
  pose proof (later_cancel_token n id r Hr) as L1. pose proof (registry_ok_later _ _ _ _ L1) as R1.
  set (r2 := if t then cancel_token id r else transition_publish id TransferIsCancelled now (cancel_token id r)).
  assert (later n n (cancel_token id r) r2) as L2.
  { unfold r2. destruct t; [by apply later_refl|by apply later_transition_publish]. }
  pose proof (registry_ok_later _ _ _ _ L2) as R2. pose proof (later_take_join n id r2 R2) as L3.
  destruct (take_join id r2) as [join r3]. pose proof (registry_ok_later _ _ _ _ L3) as R3.
  eapply later_trans; [exact L1|]. eapply later_trans; [exact L2|]. eapply later_trans; [exact L3|]. by apply IH.
Qed.

Lemma later_report (n id now : Z) (bytes : option Z) (f : TransferSnapshot -> TransferSnapshot) (r : TransferRegistry) :
  (forall s, ts_id (f s) = ts_id s /\ ts_session_id (f s) = ts_session_id s /\ ts_source (f s) = ts_source s /\
     ts_destination (f s) = ts_destination s /\ ts_state (f s) = ts_state s /\
     ts_finished_at_ms (f s) = ts_finished_at_ms s /\ ts_batch_result (f s) = ts_batch_result s) ->
  registry_ok n r -> later n n r (report id now bytes f r).
Proof.
  intros Hf Hr. unfold report. destruct (rg_transfers r !! id) as [e|] eqn:He; [|by apply later_refl].
  destruct (throttle_allows now bytes (at_throttle e)) as [emit throttle].
  set (upd := fun e => with_throttle throttle (with_snapshot (fun s => resume (f s)) e)).
  assert (later n n r (with_transfers (insert id (upd e)) r)) as Hl.
  { eapply (later_alter n id upd); [done|done|by apply (insert_alter upd)|]. intros e' He'. by apply evolves_report. }
  change (with_throttle throttle (with_snapshot (fun s => resume (f s)) e)) with (upd e).
  destruct emit; [|done]. by destruct (get id _).
Qed.

(** ** The history *)

Lemma min_by_key_Some {A} (key : A -> Z) (l : list A) (best : option A) (a : A) :
  min_by_key key l best = Some a ->
  (a ∈ l \/ best = Some a) /\ (forall b, b ∈ l \/ best = Some b -> key a <= key b).
Proof.
  revert best. induction l as [|x l IH]; intros best; simpl.
  - intros ->. split; [by right|]. intros b [?%elem_of_nil | [= ->]]; [done|lia].
  - intros Hm. destruct (IH _ Hm) as [Hin Hle].
    assert (best = Some a \/ a ∈ x :: l) as Hin'.
    { destruct best as [b|]; [destruct (key x <? key b)|]; rewrite elem_of_cons; naive_solver. }
    split; [tauto|]. intros b Hb. destruct best as [c|].
    + destruct (Z.ltb_spec (key x) (key c)) as [Hlt|Hge].
      * assert (key a <= key x) as Hx by (apply Hle; by right).
        destruct Hb as [[-> |Hb]%elem_of_cons | [= ->]]; [done| |lia]. apply Hle. by left.
      * assert (key a <= key c) as Hx by (apply Hle; by right).
        destruct Hb as [[-> |Hb]%elem_of_cons | [= ->]]; [lia| |done]. apply Hle. by left.
    + assert (key a <= key x) as Hx by (apply Hle; by right).
      destruct Hb as [[-> |Hb]%elem_of_cons | Hb]; [done| |done]. apply Hle. by left.
Qed.

Lemma min_by_key_None {A} (key : A -> Z) (l : list A) (best : option A) :
  min_by_key key l best = None -> l = [] /\ best = None.
Proof.
  revert best. induction l as [|x l IH]; intros best; simpl; [done|]. intros [-> Hb]%IH.
  destruct best; [destruct (key x <? key a)|]; done.
Qed.

Lemma elem_of_evictable (done : gset Z) (m : gmap Z ActiveTransfer) (id t : Z) :
  (id, t) ∈ omap (fun '(id, e) => if can_evict done e then (pair id) <$> finished_at e else None) (hash_iter m) <->
  exists e, m !! id = Some e /\ can_evict done e = true /\ finished_at e = Some t.
Proof.
  rewrite list_elem_of_omap. split.
  - intros ([id' e] & Hin & He). rewrite hash_iter_perm in Hin. apply elem_of_map_to_list in Hin.
    destruct (can_evict done e) eqn:Hc; [|done]. destruct (finished_at e) eqn:Hf; [|done]. injection He as <- <-. eauto.
  - intros (e & He & Hc & Hf). exists (id, e). rewrite hash_iter_perm, elem_of_map_to_list. by rewrite Hc, Hf.
Qed.

Lemma oldest_finished_Some (done : gset Z) (m : gmap Z ActiveTransfer) (id t : Z) :
  oldest_finished done m = Some (id, t) ->
  (exists e, m !! id = Some e /\ can_evict done e = true /\ finished_at e = Some t) /\
  forall id' e' t', m !! id' = Some e' -> can_evict done e' = true -> finished_at e' = Some t' -> t <= t'.
Proof.
  intros [[Hin|Hin] Hle]%min_by_key_Some; [|done]. split; [by apply elem_of_evictable|].
  intros id' e' t' H1 H2 H3. apply (Hle (id', t')). left. apply elem_of_evictable. eauto.
Qed.

Lemma oldest_finished_None (done : gset Z) (m : gmap Z ActiveTransfer) (id : Z) (e : ActiveTransfer) :
  oldest_finished done m = None -> m !! id = Some e -> can_evict done e = false.
Proof.
  intros [Hn _]%min_by_key_None He. destruct (can_evict done e) eqn:Hc; [|done]. unfold can_evict in Hc.
  destruct (finished_at e) as [t|] eqn:Hf; [|done].
  assert ((id, t) ∈ @nil (Z * Z)) as Hx; [|by apply elem_of_nil in Hx]. rewrite <- Hn. apply elem_of_evictable.
  exists e. unfold can_evict. by rewrite Hf.
Qed.

(** What the eviction loop leaves. *)
Definition evicted_ok (capacity : Z) (done : gset Z) (m m' : gmap Z ActiveTransfer) : Prop :=
  m' ⊆ m /\
  (forall id e, m !! id = Some e -> m' !! id = None ->
     can_evict done e = true /\ capacity <= Z.of_nat (size m') /\
     forall id' e' t t', m' !! id' = Some e' -> can_evict done e' = true ->
       finished_at e = Some t -> finished_at e' = Some t' -> t <= t') /\
  (Z.of_nat (size m') <= capacity \/ forall id e, m' !! id = Some e -> can_evict done e = false).

Lemma size_delete_entry (id : Z) (e : ActiveTransfer) (m : gmap Z ActiveTransfer) :
  m !! id = Some e -> S (size (delete id m)) = size m.
Proof.
  intros He. rewrite <- (insert_delete_id m id e He) at 2. by rewrite map_size_insert_None by apply lookup_delete_eq.
Qed.

Lemma evict_over_size (fuel : nat) (capacity : Z) (done : gset Z) (m : gmap Z ActiveTransfer) :
  capacity <= Z.of_nat (size m) -> capacity <= Z.of_nat (size (evict_over fuel capacity done m)).
Proof.
  revert m. induction fuel as [|fuel IH]; intros m Hm; simpl; [done|].
  destruct (Z.ltb_spec capacity (Z.of_nat (size m))); [|done].
  destruct (oldest_finished done m) as [[id t]|] eqn:Ho; [|done].
  apply oldest_finished_Some in Ho as [(e & He & _) _]. apply IH. apply size_delete_entry in He. lia.
Qed.

Lemma evict_over_ok (fuel : nat) (capacity : Z) (done : gset Z) (m : gmap Z ActiveTransfer) :
  0 <= capacity -> (size m <= fuel)%nat -> evicted_ok capacity done m (evict_over fuel capacity done m).
Proof.
  intros Hcap. revert m. induction fuel as [|fuel IH]; intros m Hf; simpl.
  { split_and!; [done|by intros id e ->|]. left. lia. }
  destruct (Z.ltb_spec capacity (Z.of_nat (size m))) as [Hlt|Hge].
  2: { split_and!; [done|by intros id e ->|by left]. }
  destruct (oldest_finished done m) as [[id t]|] eqn:Ho.
  2: { split_and!; [done|by intros id e ->|]. right. intros id e He. by eapply oldest_finished_None. }
  apply oldest_finished_Some in Ho as [(e & He & Hc & Ht) Hle].
  pose proof (size_delete_entry id e m He) as Hsize.
  destruct (IH (delete id m)) as (H1 & H2 & H3); [lia|].
  split_and!; [by etrans; [exact H1|apply delete_subseteq]|intros id' e' He' Hn|done].
  destruct (decide (id' = id)) as [-> |Hne].
  - assert (e' = e) as -> by congruence. split_and!; [done|apply evict_over_size; lia|].
    intros id' e' t0 t' He'' Hc' Ht0 Ht'. assert (t0 = t) as -> by congruence.
    eapply Hle; [|done..]. eapply lookup_weaken; [exact He''|]. etrans; [exact H1|apply delete_subseteq].
  - apply (H2 id' e'); [|done]. by rewrite lookup_delete_ne.
Qed.

(** The entries the time limit leaves. *)
Definition fresh_entries (now : Z) (r : TransferRegistry) (m : gmap Z ActiveTransfer) : gmap Z ActiveTransfer :=
  match rg_history_ttl r with
  | Some ttl_ms => filter (fun kv => keeps (rg_done r) now ttl_ms kv.2 = true) m
  | None => m
  end.

Lemma reap_transfers_ok (now : Z) (r : TransferRegistry) (m : gmap Z ActiveTransfer) :
  0 <= rg_history_capacity r ->
  evicted_ok (rg_history_capacity r) (rg_done r) (fresh_entries now r m) (reap_transfers now r m).
Proof. intros Hc. by apply evict_over_ok. Qed.

Lemma fresh_entries_sub (now : Z) (r : TransferRegistry) (m : gmap Z ActiveTransfer) : fresh_entries now r m ⊆ m.
Proof. unfold fresh_entries. destruct (rg_history_ttl r); [apply map_filter_subseteq|done]. Qed.

Lemma reap_transfers_sub (now : Z) (r : TransferRegistry) (m : gmap Z ActiveTransfer) :
  0 <= rg_history_capacity r -> reap_transfers now r m ⊆ m.
Proof. intros Hc. destruct (reap_transfers_ok now r m Hc) as (Hs & _). etrans; [exact Hs|apply fresh_entries_sub]. Qed.

Lemma later_register (n now session_id : Z) direction source destination (r : TransferRegistry) :
  registry_ok n r -> 0 <= rg_history_capacity r -> n + 1 < 2 ^ 64 - 1 ->
  later n (n + 1) r (start_transfer session_id direction source destination now r).2.
Proof.
  intros Hr Hc Hn. pose proof Hr as (H1 & H2 & H3).
  unfold start_transfer, snapshot_for, register. cbn [ts_id fst snd].
  set (r1 := mkRegistry (rg_transfers r) _ _ _ _ _).
  set (sn := mkTransferSnapshot (rg_next_id r) _ _ _ _ _ _ _ _ _ _ _ _ _ _ _).
  set (r2 := with_transfers _ r1).
  assert (rg_transfers r !! (1 + n) = None) as Hnew.
  { destruct (rg_transfers r !! (1 + n)) as [e|] eqn:He; [|done]. apply H3 in He as [? _]. lia. }
  assert (later n (n + 1) r r2) as Hl.
  { split_and!; [done| |lia|].
    - unfold registry_ok, r2; simpl. rewrite H1, Z.mod_small by lia. split_and!; [lia..|].
      intros id e. rewrite lookup_insert_Some. intros [[<- <-] | [Hne He]].
      + split; [lia|]. split; [done|]. by split; [intros []|].
      + destruct (H3 id e He) as [? ?]. split; [lia|done].
    - intros id e. unfold r2; simpl. rewrite lookup_insert_Some. intros [[<- <-] | [Hne He]].
      + assert (entry_ok (rg_next_id r) (mkActiveTransfer sn false Reserved (mkThrottle 0 0))) as Hok by (split; [done|by split; [intros []|]]).
        split; [exact Hok|]. rewrite H1, Hnew. lia.
      + rewrite He. split; [by apply (H3 id e)|reflexivity]. }
  eapply later_trans; [exact Hl|]. apply later_sub; [by eapply registry_ok_later|done|]. by apply reap_transfers_sub.
Qed.

(** ** All calls together *)

(** What never changes. *)
Definition settings (r : TransferRegistry) : Z * option Z := (rg_history_capacity r, rg_history_ttl r).

Lemma settings_transition id next now r : settings (transition id next now r).2 = settings r.
Proof. unfold transition. by destruct (rg_transfers r !! id). Qed.

Lemma settings_transition_publish id next now r : settings (transition_publish id next now r) = settings r.
Proof.
  pose proof (settings_transition id next now r) as Hs. unfold transition_publish.
  by destruct (transition id next now r) as [[s|] r'].
Qed.

Lemma settings_report id now bytes f r : settings (report id now bytes f r) = settings r.
Proof.
  unfold report. destruct (rg_transfers r !! id); [|done]. destruct (throttle_allows _ _ _) as [[] t]; [|done].
  by destruct (get id _).
Qed.

Lemma settings_cancel_entries entries now joins r : settings (cancel_entries entries now joins r).2 = settings r.
Proof.
  revert joins r. induction entries as [|[id t] entries IH]; intros joins r; simpl; [done|].
  set (r2 := if t then _ else _).
  assert (settings r2 = settings r) as Hs by (unfold r2; destruct t; [done|by rewrite settings_transition_publish]).
  assert (settings (take_join id r2).2 = settings r2) as Hj by (unfold take_join; by destruct (rg_transfers r2 !! id)).
  destruct (take_join id r2) as [join r3]. rewrite IH. simpl in Hj. congruence.
Qed.

Lemma settings_finish id outcome op now r : settings (finish_transfer id outcome op now r) = settings r.
Proof.
  unfold finish_transfer. destruct outcome as [bytes|e].
  - rewrite settings_transition_publish. apply settings_report.
  - assert (settings (settle_failure id e op now r) = settings r) as Hs.
    { unfold settle_failure. destruct (error_code e); by rewrite settings_transition. }
    cbv zeta. by destruct (get id (settle_failure id e op now r)).
Qed.

Lemma settings_call c now r : settings (call c now r) = settings r.
Proof.
  destruct c; simpl; try done; try apply settings_transition; try apply settings_report; try apply settings_cancel_entries;
    try apply settings_finish.
  unfold cancel_transfer. destruct (rg_transfers r !! id); [simpl; by rewrite settings_transition_publish|done].
Qed.

Definition allowed_call (c : registry_call) : Prop :=
  match c with CallTransition _ next => next <> Queued | _ => True end.

Lemma later_finish (n id : Z) (outcome : Res Z) (op : string) (now : Z) (r : TransferRegistry) :
  registry_ok n r -> later n n r (finish_transfer id outcome op now r).
Proof.
  intros Hr. unfold finish_transfer. destruct outcome as [bytes|e].
  - assert (later n n r (set_progress id bytes bytes now r)) as Hl by by apply later_report.
    eapply later_trans; [exact Hl|]. apply later_transition_publish; [done|]. by eapply registry_ok_later.
  - set (r' := settle_failure id e op now r).
    assert (later n n r (set_error id (from_core_error e op) r)) as He.
    { eapply later_alter; [done|done|done|]. intros e0 H0. by apply evolves_map. }
    assert (later n n r r') as Hl.
    { unfold r', settle_failure. destruct (error_code e); try (by apply later_transition);
        (eapply later_trans; [exact He|]; apply later_transition; [done|by eapply registry_ok_later]). }
    cbv zeta. by destruct (get id r').
Qed.

(** Every call but a registration keeps the numbers. *)
Lemma later_running_call (n now : Z) (c : registry_call) (r : TransferRegistry) :
  registry_ok n r -> running_call c -> later n n r (call c now r).
Proof.
  intros Hr Ha. destruct c; simpl; [done|..].
  - by apply later_transition.
  - unfold cancel_transfer. destruct (rg_transfers r !! id); [|by apply later_refl].
    pose proof (later_cancel_token n id r Hr) as Hl. eapply later_trans; [exact Hl|].
    apply later_transition_publish; [done|by eapply registry_ok_later].
  - by apply later_cancel_entries.
  - apply later_same; [done|done| |].
    + intros id e. unfold reap; simpl. rewrite lookup_fmap, fmap_Some. intros (e0 & He & ->). rewrite He.
      destruct Hr as (_ & _ & H3). destruct (H3 id e0 He) as [_ Hok]. unfold reaped_slot.
      assert (evolves e0 (with_join Finished e0)) by (unfold evolves; simpl; split_and!; try done; lia).
      destruct (at_join e0); try case_bool_decide; split; done.
    + intros id. unfold reap; simpl. by rewrite lookup_fmap, fmap_is_Some.
  - by apply later_report.
  - by apply later_report.
  - eapply later_alter; [done|done|done|]. intros e He. apply evolves_map; [|done].
    intros s. destruct (terminal (ts_state s)) eqn:Ht; by rewrite ?Ht.
  - eapply later_alter; [done|done|done|]. intros e He. by apply evolves_map.
  - by apply later_finish.
  - by apply later_with_join.
  - apply later_sub; done.
Qed.

Lemma later_call (n now : Z) (c : registry_call) (r : TransferRegistry) :
  registry_ok n r -> 0 <= rg_history_capacity r -> n + 1 < 2 ^ 64 - 1 -> allowed_call c ->
  exists k, n <= k <= n + 1 /\ later n k r (call c now r).
Proof.
  intros Hr Hc Hn Ha. destruct c; [exists (n + 1); split; [lia|by apply later_register]|..];
    (exists n; split; [lia|by apply later_running_call]).
Qed.

Lemma later_calls (cs : list (registry_call * Z)) (n : Z) (r : TransferRegistry) :
  registry_ok n r -> 0 <= rg_history_capacity r -> n + Z.of_nat (length cs) < 2 ^ 64 - 1 ->
  Forall (fun c => allowed_call c.1) cs -> exists k, later n k r (calls cs r).
Proof.
  revert n r. induction cs as [|[c now] cs IH]; intros n r Hr Hc Hn Ha; simpl.
  { exists n. by apply later_refl. }
  apply Forall_cons in Ha as [Ha Has]. cbn [length] in Hn.
  destruct (later_call n now c r) as (k & Hk & Hl); [done..|lia|done|].
  destruct (IH k (call c now r)) as (l & Hl'); [by eapply registry_ok_later| |lia|done|].
  { pose proof (settings_call c now r) as Hs. injection Hs as Hs _. lia. }
  exists l. by eapply later_trans.
Qed.

End Calls.

(** C23: transfer states are one-way.  Whatever calls follow, in whatever order and
    however they interleave, a transfer that is still listed never goes back, and once it
    is completed, failed or cancelled its state, its end time and its batch result stay as
    they are; its end time is set exactly in these states, and no other transfer takes its
    number. *)
Theorem terminal_is_final `{HashOrder} (cs : list (registry_call * Z)) (n id : Z) (r : TransferRegistry)
    (a b : ActiveTransfer) :
  registry_ok n r -> 0 <= rg_history_capacity r -> n + Z.of_nat (length cs) < 2 ^ 64 - 1 ->
  Forall (fun c => allowed_call c.1) cs ->
  rg_transfers r !! id = Some a -> rg_transfers (calls cs r) !! id = Some b -> evolves a b /\ entry_ok id b.
Proof.
  intros Hr Hc Hn Hcs Ha Hb. destruct (later_calls cs n r Hr Hc Hn Hcs) as (k & _ & _ & _ & Hg).
  destruct (Hg id b Hb) as [Hok Hev]. by rewrite Ha in Hev.
Qed.

#[export] Instance sample_order : HashOrder := {| hash_iter := map_to_list; hash_iter_perm m := reflexivity _ |}.

Definition sample_registry : TransferRegistry := (start_transfer 7 Download "/a" "/b" 5 (registry_new 1 (Some 1000))).2.

Lemma sample_registry_ok : registry_ok 1 sample_registry.
Proof. apply (registry_ok_later 0 1 (registry_new 1 (Some 1000))). apply (later_register 0); [|done..]. by split_and!. Qed.

Lemma terminal_is_final_witness :
  let r := (cancel_transfer 1 6 sample_registry).2 in
  let r' := calls [(CallProgress 1 5000 9000, 200); (CallFinish 1 (Ok 9000) "download", 300)] r in
  (ts_state <$> (at_snapshot <$> rg_transfers r' !! 1)) = Some TransferIsCancelled.
Proof.
  intros r r'. destruct (rg_transfers r' !! 1) as [b|] eqn:Hb; [|vm_compute in Hb; discriminate].
  destruct (rg_transfers r !! 1) as [a|] eqn:Ha; [|vm_compute in Ha; discriminate].
  assert (registry_ok 1 r) as Hr.
  { destruct (later_call 1 6 (CallCancel 1) sample_registry sample_registry_ok) as (k & Hk & Hl); [vm_compute; discriminate|done|done|].
    pose proof (registry_ok_later _ _ _ _ Hl) as Hok. assert (k = 1) as ->; [|exact Hok].
    destruct Hok as (Hok & _).
    assert (rg_next_id (call (CallCancel 1) 6 sample_registry) = 2) as Hid by by vm_compute. lia. }
  destruct (terminal_is_final [(CallProgress 1 5000 9000, 200); (CallFinish 1 (Ok 9000) "download", 300)] 1 1 r a b Hr)
    as [Hev _]; [vm_compute; discriminate|reflexivity|repeat constructor|exact Ha|exact Hb|].
  destruct Hev as (_ & _ & _ & _ & _ & _ & Hev). vm_compute in Ha. injection Ha as <-. destruct Hev as [Hs _]; [reflexivity|].
  cbn. by rewrite Hs.
Defined.

(** ** The history is bounded *)











(** A close takes the handle of task 3, which is still unwinding, and the next transfer
    evicts its entry: the handle is with the close, and no longer in the registry. *)
Lemma taken_task_evicted :
  let r := call (CallPublished 1 3) 7 sample_registry in
  let '(joins, r) := cancel_for_session 7 8 r in
  let r' := (start_transfer 9 Upload "/c" "/d" 20 r).2 in
  joins = [3] /\ (3 ∉ rg_done r) /\ is_Some (rg_transfers r !! 1) /\ rg_transfers r' !! 1 = None.
Proof. vm_compute. split_and!; [done| |by eexists|done]. intros Hin. discriminate Hin. Qed.

(** ** Progress events are bounded *)

(** [k] progress reports of one transfer. *)
Fixpoint reports (id : Z) (l : list (Z * Z * Z)) (r : TransferRegistry) : TransferRegistry :=
  match l with
  | [] => r
  | (now, transferred, total) :: l => reports id l (set_progress id transferred total now r)
  end.

Definition events (r : TransferRegistry) : Z := Z.of_nat (length (hub_sent (rg_hub r))).

(** Clock and byte counter only advance. *)
Fixpoint advancing (now bytes : Z) (l : list (Z * Z * Z)) : Prop :=
  match l with
  | [] => True
  | (now', bytes', _) :: l => now <= now' /\ bytes <= bytes' /\ advancing now' bytes' l
  end.

Fixpoint last_report (now bytes : Z) (l : list (Z * Z * Z)) : Z * Z :=
  match l with
  | [] => (now, bytes)
  | (now', bytes', _) :: l => last_report now' bytes' l
  end.

Lemma publish_events (s : TransferSnapshot) (now : Z) (r : TransferRegistry) :
  events r <= events (publish_update s now r) <= events r + 1.
Proof.
  unfold events, publish_update, publish, publish_send. simpl. destruct (hub_open (rg_hub r)); simpl; [|lia].
  rewrite length_app. simpl. lia.
Qed.

(** One report, by what the throttle says. *)
Lemma set_progress_throttle (id now bytes total : Z) (r : TransferRegistry) (e : ActiveTransfer) :
  rg_transfers r !! id = Some e ->
  let '(emit, t) := throttle_allows now (Some bytes) (at_throttle e) in
  (exists e', rg_transfers (set_progress id bytes total now r) !! id = Some e' /\ at_throttle e' = t) /\
  events (set_progress id bytes total now r) <= events r + (if emit : bool then 1 else 0).
Proof.
  intros He. unfold set_progress, report. rewrite He.
  destruct (throttle_allows now (Some bytes) (at_throttle e)) as [emit t].
  set (e' := with_throttle t _). set (r' := with_transfers (insert id e') r).
  assert (rg_transfers r' !! id = Some e') as He' by apply lookup_insert_eq.
  assert (events r' = events r) as Hev by done.
  destruct emit; [|split; [by exists e'|lia]]. unfold get. rewrite He'.
  split; [by exists e'|]. pose proof (publish_events (at_snapshot e') now r'). lia.
Qed.

(** Each event costs the interval or the bytes. *)
Lemma reports_events (id : Z) (l : list (Z * Z * Z)) (r : TransferRegistry) (e : ActiveTransfer) (now bytes : Z) :
  rg_transfers r !! id = Some e -> pt_last_emit_ms (at_throttle e) <= now -> pt_last_emit_bytes (at_throttle e) <= bytes ->
  advancing now bytes l ->
  let '(now', bytes') := last_report now bytes l in
  exists a b, 0 <= a /\ 0 <= b /\ events (reports id l r) <= events r + a + b /\
    100 * a <= now' - pt_last_emit_ms (at_throttle e) /\ 262144 * b <= bytes' - pt_last_emit_bytes (at_throttle e) /\
    now <= now' /\ bytes <= bytes'.
Proof.
  revert r e now bytes. induction l as [|[[t b] tot] l IH]; intros r e now bytes He Hn Hb Ha.
  { exists 0, 0. simpl. lia. }
  destruct Ha as (Ht & Hbb & Ha). simpl.
  pose proof (set_progress_throttle id t b tot r e He) as Hs.
  destruct (throttle_allows t (Some b) (at_throttle e)) as [emit th] eqn:Hth.
  destruct Hs as ((e' & He' & <-) & Hev).
  unfold throttle_allows, saturating_sub, PROGRESS_MIN_INTERVAL_MS, PROGRESS_MIN_BYTES in Hth.
  destruct (at_throttle e) as [m0 b0]. simpl in *.
  destruct ((100 <=? Z.max 0 (t - m0)) || (256 * 1024 <=? Z.max 0 (b - b0))) eqn:Ho; injection Hth as <- Hth.
  - specialize (IH (set_progress id b tot t r) e' t b He'). rewrite <- Hth in IH. simpl in IH.
    destruct (last_report t b l) as [n' b']. destruct IH as (x & y & Hx & Hy & H1 & H2 & H3 & H4 & H5); [lia|lia|done|].
    apply orb_true_iff in Ho as [Ho|Ho]; [exists (x + 1), y|exists x, (y + 1)]; split_and!; lia.
  - specialize (IH (set_progress id b tot t r) e' t b He'). rewrite <- Hth in IH. simpl in IH.
    destruct (last_report t b l) as [n' b']. destruct IH as (x & y & Hx & Hy & H1 & H2 & H3 & H4 & H5); [lia|lia|done|].
    exists x, y. split_and!; lia.
Qed.

(** Progress reports emit a bounded number of events.  While the clock and the byte
    counter of a transfer only advance, its reports publish at most one event more than
    one per 100 ms of the time they span and one per 256 KiB they report. *)
Theorem progress_events_bounded (id now bytes total : Z) (l : list (Z * Z * Z)) (r : TransferRegistry)
    (e : ActiveTransfer) :
  rg_transfers r !! id = Some e -> pt_last_emit_ms (at_throttle e) <= now ->
  pt_last_emit_bytes (at_throttle e) <= bytes -> advancing now bytes l ->
  let '(now', bytes') := last_report now bytes l in
  events (reports id ((now, bytes, total) :: l) r) <=
    events r + 1 + (now' - now) / PROGRESS_MIN_INTERVAL_MS
                 + (bytes' - pt_last_emit_bytes (at_throttle e)) / PROGRESS_MIN_BYTES.
Proof.
  intros He Hn Hb Ha. simpl. pose proof (set_progress_throttle id now bytes total r e He) as Hs.
  destruct (throttle_allows now (Some bytes) (at_throttle e)) as [emit th] eqn:Hth.
  destruct Hs as ((e' & He' & <-) & Hev).
  unfold throttle_allows, saturating_sub, PROGRESS_MIN_INTERVAL_MS, PROGRESS_MIN_BYTES in *.
  destruct (at_throttle e) as [m0 b0]. simpl in *.
  pose proof (fun p q => reports_events id l (set_progress id bytes total now r) e' now bytes He' p q Ha) as Hr.
  destruct (last_report now bytes l) as [n' b'].
  destruct ((100 <=? Z.max 0 (now - m0)) || (256 * 1024 <=? Z.max 0 (bytes - b0))) eqn:Ho; injection Hth as <- Hth;
    rewrite <- Hth in Hr; simpl in Hr; destruct Hr as (x & y & Hx & Hy & H1 & H2 & H3 & H4 & H5); try lia.
  - assert (x <= (n' - now) / 100) by (apply Z.div_le_lower_bound; lia).
    assert (y <= (b' - b0) / (256 * 1024)) by (apply Z.div_le_lower_bound; lia). lia.
  - apply orb_false_iff in Ho as [Ho _].
    assert (x <= 1 + (n' - now) / 100) by (rewrite <- (Z.div_add_l 1 100) by lia; apply Z.div_le_lower_bound; lia).
    assert (y <= (b' - b0) / (256 * 1024)) by (apply Z.div_le_lower_bound; lia). lia.
Qed.

Lemma progress_events_bounded_witness :
  events (reports 1 [(200, 1000, 9000); (250, 2000, 9000); (310, 3000, 9000); (330, 400000, 900000)] sample_registry)
    <= 0 + 1 + 1 + 1.
Proof.
  destruct (rg_transfers sample_registry !! 1) as [e|] eqn:He; [|vm_compute in He; discriminate].
  assert (at_throttle e = mkThrottle 0 0) as Ht by (vm_compute in He; injection He as <-; reflexivity).
  pose proof (progress_events_bounded 1 200 1000 9000 [(250, 2000, 9000); (310, 3000, 9000); (330, 400000, 900000)]
    sample_registry e He) as Hp. rewrite Ht in Hp. apply Hp; simpl; lia.
Defined.

(** ** Cancelling a session *)

(** What cancellation makes of an entry. *)
Definition cancelled_entry (now : Z) (e : ActiveTransfer) : ActiveTransfer :=
  with_join Taken (with_snapshot (next_snapshot TransferIsCancelled now) (token_cancelled e)).

Definition published_task (e : ActiveTransfer) : option Z :=
  match at_join e with Published task => Some task | _ => None end.

Lemma next_snapshot_terminal (next : TransferState) (now : Z) (s : TransferSnapshot) :
  terminal (ts_state s) = true -> next_snapshot next now s = s.
Proof. unfold next_snapshot. by intros ->. Qed.

Lemma omap_cons {A B} (f : A -> option B) (x : A) (l : list A) : omap f (x :: l) = option_list (f x) ++ omap f l.
Proof. simpl. by destruct (f x). Qed.

Lemma cancel_entries_spec (entries : list (Z * bool)) (now : Z) (joins : list Z) (r : TransferRegistry) :
  NoDup entries.*1 ->
  (forall id t, (id, t) ∈ entries -> exists e, rg_transfers r !! id = Some e /\ t = terminal (ts_state (at_snapshot e))) ->
  let '(joins', r') := cancel_entries entries now joins r in
  joins' = joins ++ omap (fun id => rg_transfers r !! id ≫= published_task) entries.*1 /\
  forall id, rg_transfers r' !! id =
    if bool_decide (id ∈ entries.*1) then cancelled_entry now <$> rg_transfers r !! id else rg_transfers r !! id.
Proof.
  revert joins r. induction entries as [|[id t] entries IH]; intros joins r Hd Hin; cbn [cancel_entries].
  { rewrite fmap_nil. split; [by rewrite app_nil_r|]. intros id. rewrite bool_decide_eq_false_2; [done|]. apply not_elem_of_nil. }
  rewrite fmap_cons in *. cbn [fst] in *. set (ids := entries.*1) in *.
  apply NoDup_cons in Hd as [Hn Hd]. destruct (Hin id t) as (e & He & Ht); [apply elem_of_cons; by left|].
  set (r2 := if t then _ else _).
  assert (rg_transfers r2 = <[id := with_snapshot (next_snapshot TransferIsCancelled now) (token_cancelled e)]> (rg_transfers r)) as Hr2.
  { pose proof (insert_alter token_cancelled id e _ He) as Hal. unfold r2, transition_publish, transition. destruct t.
    - simpl. rewrite <- Hal. f_equal. unfold with_snapshot; simpl. rewrite next_snapshot_terminal by done. by destruct e.
    - simpl. rewrite lookup_alter_eq, He. simpl. by rewrite <- Hal, insert_insert_eq. }
  assert (take_join id r2 = (published_task e, with_transfers (insert id (cancelled_entry now e)) r2)) as ->.
  { unfold take_join. by rewrite Hr2, lookup_insert_eq. }
  set (r3 := with_transfers _ r2).
  assert (forall k, rg_transfers r3 !! k = if bool_decide (k = id) then Some (cancelled_entry now e) else rg_transfers r !! k) as Hr3.
  { intros k. unfold r3; simpl. rewrite Hr2, insert_insert_eq. case_bool_decide as Hk; [subst; apply lookup_insert_eq|].
    by apply lookup_insert_ne. }
  specialize (IH (joins ++ option_list (published_task e)) r3 Hd). destruct (cancel_entries entries now _ r3) as [joins' r'].
  destruct IH as [-> IH].
  { intros k t' Hk. destruct (Hin k t') as (e' & He' & Ht'); [apply elem_of_cons; by right|].
    exists e'. split; [|done]. rewrite Hr3, bool_decide_eq_false_2; [done|]. intros ->. apply Hn.
    apply list_elem_of_fmap. by exists (id, t'). }
  split.
  - assert (omap (fun k => rg_transfers r3 !! k ≫= published_task) ids =
            omap (fun k => rg_transfers r !! k ≫= published_task) ids) as ->.
    { clear Hd IH. induction ids as [|k ids IHi]; [done|]. apply not_elem_of_cons in Hn as [Hk Hn].
      by rewrite !omap_cons, Hr3, bool_decide_eq_false_2, IHi by done. }
    rewrite <- app_assoc. f_equal. by rewrite omap_cons, He.
  - intros k. rewrite IH, Hr3. rewrite (bool_decide_ext (k ∈ id :: ids) (k = id \/ k ∈ ids)) by apply elem_of_cons.
    destruct (decide (k = id)) as [-> |Hk].
    + rewrite (bool_decide_eq_false_2 (id ∈ ids)), !bool_decide_eq_true_2 by tauto. by rewrite He.
    + rewrite (bool_decide_eq_false_2 (k = id)) by done.
      by rewrite (bool_decide_ext (k = id \/ k ∈ ids) (k ∈ ids)) by tauto.
Qed.

Section CancelSession.
Context `{HashOrder} (session_id n : Z) (r : TransferRegistry) (Hr : registry_ok n r).

Abbreviation of_session e := (ts_session_id (at_snapshot e) =? session_id).

(** An iteration that visits entries of the registry, once each. *)
Definition visits (l : list (Z * ActiveTransfer)) : Prop :=
  NoDup l.*1 /\ forall id e, (id, e) ∈ l -> rg_transfers r !! id = Some e.

Abbreviation picked l := (omap (fun kv : Z * ActiveTransfer =>
  let s := at_snapshot kv.2 in
  if ts_session_id s =? session_id then Some (ts_id s, terminal (ts_state s)) else None) l).

Lemma visits_all : visits (hash_iter (rg_transfers r)).
Proof.
  split.
  - rewrite hash_iter_perm. apply NoDup_fst_map_to_list.
  - intros id e. rewrite hash_iter_perm. apply elem_of_map_to_list.
Qed.

Lemma visits_cons (id : Z) (e : ActiveTransfer) (l : list (Z * ActiveTransfer)) :
  visits ((id, e) :: l) -> ~ (id ∈ l.*1) /\ rg_transfers r !! id = Some e /\ ts_id (at_snapshot e) = id /\ visits l.
Proof.
  intros [[Hn Hd]%NoDup_cons Hin]. assert (rg_transfers r !! id = Some e) as He by (apply Hin; apply elem_of_cons; by left).
  destruct Hr as (_ & _ & Hok). destruct (Hok id e He) as [_ [Hid _]].
  split_and!; [done..|]. split; [done|]. intros id' e' Hi. apply Hin, elem_of_cons. by right.
Qed.

Lemma picked_spec (l : list (Z * ActiveTransfer)) : visits l ->
  NoDup (picked l).*1 /\
  (forall id t, (id, t) ∈ picked l <-> exists e, (id, e) ∈ l /\ of_session e = true /\ t = terminal (ts_state (at_snapshot e))) /\
  omap (fun id => rg_transfers r !! id ≫= published_task) (picked l).*1 =
    omap (fun kv => if of_session kv.2 then published_task kv.2 else None) l.
Proof.
  induction l as [|[id e] l IH]; intros Hv.
  { split_and!; [constructor| |done]. intros id t. rewrite elem_of_nil. split; [done|]. by intros (e & ?%elem_of_nil & _). }
  apply visits_cons in Hv as (Hn & He & Hid & Hv). destruct (IH Hv) as (Hd & Hin & Hj).
  rewrite !omap_cons. cbn [snd]. cbv zeta. destruct (of_session e) eqn:Hs; unfold option_list; cbn [option_rect app].
  - rewrite fmap_cons. cbn [fst]. split_and!.
    + apply NoDup_cons. split; [|done]. rewrite list_elem_of_fmap. intros ([k t] & Hk & Hkt). cbn [fst] in Hk. subst k.
      apply Hin in Hkt as (e' & Hin' & _). apply Hn. rewrite Hid in Hin'. apply list_elem_of_fmap. by exists (id, e').
    + intros k t. rewrite elem_of_cons, Hin. setoid_rewrite elem_of_cons. split.
      * intros [[= -> ->] | (e' & H1 & H2)]; [|eauto]. exists e. rewrite Hid. eauto.
      * intros (e' & [[= -> ->] |H1] & H2 & ->); [left; by rewrite Hid|eauto].
    + rewrite omap_cons. rewrite Hid, He. cbn [mbind option_bind]. by rewrite <- Hj.
  - split_and!; [done| |done]. intros k t. rewrite Hin. setoid_rewrite elem_of_cons. split.
    + intros (e' & H1 & H2). eauto.
    + intros (e' & [[= -> ->] |H1] & H2 & ->); [congruence|eauto].
Qed.

Lemma of_session_ids (id : Z) :
  id ∈ (session_entries session_id r).*1 <-> exists e, rg_transfers r !! id = Some e /\ of_session e = true.
Proof.
  destruct (picked_spec _ visits_all) as (_ & Hin & _). rewrite list_elem_of_fmap. split.
  - intros ([k t] & -> & Hk). apply Hin in Hk as (e & He & Hs & _). exists e. split; [|done]. by apply visits_all.
  - intros (e & He & Hs). exists (id, terminal (ts_state (at_snapshot e))). split; [done|]. apply Hin. exists e.
    split; [|done]. by rewrite hash_iter_perm, elem_of_map_to_list.
Qed.

End CancelSession.

(** Cancelling a session is complete.  Every transfer of the session has its token
    cancelled and its slot emptied, is in a terminal state, cancelled if it was not
    terminal before, and its running task is handed back exactly once; the transfers of
    other sessions are as they were, and a second call has no task left to hand back. *)
Theorem cancel_for_session_complete `{HashOrder} (session_id n now : Z) (r : TransferRegistry) :
  registry_ok n r ->
  let '(joins, r') := cancel_for_session session_id now r in
  (forall id e, rg_transfers r !! id = Some e -> ts_session_id (at_snapshot e) = session_id ->
     exists e', rg_transfers r' !! id = Some e' /\ at_cancelled e' = true /\ at_join e' = Taken /\
       ts_state (at_snapshot e') = (if terminal (ts_state (at_snapshot e)) then ts_state (at_snapshot e)
                                    else TransferIsCancelled)) /\
  (forall id e, rg_transfers r !! id = Some e -> ts_session_id (at_snapshot e) <> session_id ->
     rg_transfers r' !! id = Some e) /\
  (forall id, rg_transfers r !! id = None -> rg_transfers r' !! id = None) /\
  joins ≡ₚ omap (fun kv => if ts_session_id (at_snapshot kv.2) =? session_id then published_task kv.2 else None)
             (map_to_list (rg_transfers r)) /\
  (cancel_for_session session_id now r').1 = [].
Proof.
  intros Hr. destruct (picked_spec session_id n r Hr _ (visits_all r)) as (Hd & Hin & Hj).
  pose proof (cancel_entries_spec (session_entries session_id r) now [] r Hd) as Hc.
  pose proof (later_cancel_entries (session_entries session_id r) n now [] r Hr) as Hl.
  unfold cancel_for_session at 1. destruct (cancel_entries _ now [] r) as [joins r'].
  apply registry_ok_later in Hl as Hr'. destruct Hc as [-> Hc].
  { intros id t Hi. apply Hin in Hi as (e & He & _ & ->). exists e. split; [|done]. by apply visits_all. }
  pose proof (of_session_ids session_id n r Hr) as Hids.
  assert (forall id e, rg_transfers r !! id = Some e -> ts_session_id (at_snapshot e) = session_id ->
            rg_transfers r' !! id = Some (cancelled_entry now e)) as Hset.
  { intros id e He Hs. rewrite Hc, bool_decide_eq_true_2, He; [done|]. apply Hids. exists e. split; [done|]. lia. }
  assert (forall id, (forall e, rg_transfers r !! id = Some e -> ts_session_id (at_snapshot e) <> session_id) ->
            rg_transfers r' !! id = rg_transfers r !! id) as Hkeep.
  { intros id Hs. rewrite Hc, bool_decide_eq_false_2; [done|]. intros (e & He & Hse)%Hids. apply (Hs e He). lia. }
  split_and!.
  - intros id e He Hs. eexists. split; [by apply Hset|]. split_and!; [done..|].
    unfold cancelled_entry, next_snapshot; simpl. by destruct (terminal (ts_state (at_snapshot e))) eqn:?.
  - intros id e He Hs. rewrite Hkeep; [done|]. intros e' He'. by assert (e' = e) as -> by congruence.
  - intros id Hi. rewrite Hkeep; [done|]. by intros e; rewrite Hi.
  - rewrite <- hash_iter_perm. apply reflexive_eq. exact Hj.
  - destruct (picked_spec session_id n r' Hr' _ (visits_all r')) as (Hd' & Hin' & Hj').
    pose proof (cancel_entries_spec (session_entries session_id r') now [] r' Hd') as Hc'.
    unfold cancel_for_session. destruct (cancel_entries _ now [] r') as [joins' r'']. destruct Hc' as [-> _].
    { intros id t Hi. apply Hin' in Hi as (e & He & _ & ->). exists e. split; [|done]. by apply visits_all. }
    etrans; [exact Hj'|]. apply elem_of_nil_inv. intros task.
    rewrite list_elem_of_omap. intros ([id e] & Hi & He). apply visits_all in Hi. cbn [snd] in He.
    destruct (ts_session_id (at_snapshot e) =? session_id) eqn:Hs; [|done].
    destruct (rg_transfers r !! id) as [e0|] eqn:He0.
    + destruct (decide (ts_session_id (at_snapshot e0) = session_id)) as [Hs0|Hs0].
      * rewrite (Hset id e0 He0 Hs0) in Hi. injection Hi as <-. done.
      * rewrite Hkeep in Hi; [|by intros e'; rewrite He0; intros [= <-]]. rewrite He0 in Hi. injection Hi as <-. lia.
    + rewrite Hkeep in Hi; [congruence|by intros e'; rewrite He0].
Qed.

Lemma cancel_for_session_complete_witness :
  let r := call (CallPublished 1 3) 6 sample_registry in
  let '(joins, r') := cancel_for_session 7 9 r in
  joins = [3] /\ (ts_state <$> (at_snapshot <$> rg_transfers r' !! 1)) = Some TransferIsCancelled.
Proof.
  intros r. assert (registry_ok 1 r) as Hr by (eapply registry_ok_later, later_with_join, sample_registry_ok).
  pose proof (cancel_for_session_complete 7 1 9 r Hr) as Hc. destruct (cancel_for_session 7 9 r) as [joins r'] eqn:E.
  destruct Hc as (Hall & _ & _ & Hj & _). split.
  - apply (f_equal fst) in E. vm_compute in E. by symmetry.
  - destruct (rg_transfers r !! 1) as [e|] eqn:He; [|vm_compute in He; discriminate].
    destruct (Hall 1 e He) as (e' & -> & _ & _ & Hs); [by vm_compute in He; injection He as <-|].
    vm_compute in He. injection He as <-. simpl in *. by rewrite Hs.
Defined.

(** ** Numbers of events *)

Definition hub_start {E} : hub_state E := mkHubState hub_new [].

Lemma hub_steps_ok {E} (k : nat) (a b : hub_state E) (n : Z) :
  nsteps hub_step k a b -> hub_ok n a -> n + Z.of_nat k < 2 ^ 64 - 1 -> exists m, hub_ok m b.
Proof.
  intros Hs. revert n. induction Hs as [a|k a c b Hac Hcb IH]; intros n Ha Hk; [by exists n|].
  destruct (hub_step_ok a c n Hac Ha) as (m & Hm & Hc); [lia|]. apply (IH m Hc). lia.
Qed.

Lemma closed_step {E} (a b : hub_state E) :
  hub_step a b -> hub_open (hs_hub a) = false ->
  hub_open (hs_hub b) = false /\ hub_sent (hs_hub b) = hub_sent (hs_hub a).
Proof. intros [event now st|h before envelope after|st] Ho; simpl in *; [done| |done]. unfold publish_send. by rewrite Ho. Qed.

Lemma closed_steps {E} (a b : hub_state E) :
  rtc hub_step a b -> hub_open (hs_hub a) = false -> hub_sent (hs_hub b) = hub_sent (hs_hub a).
Proof.
  induction 1 as [a|a c b Hac Hcb IH]; [done|]. intros Ho. destruct (closed_step a c Hac Ho) as [Hc <-]. by apply IH.
Qed.

(** No two events carry the same number, however publishers interleave and
    whenever the hub is closed, as long as the 64-bit counter does not wrap; a closed hub
    sends nothing more. *)
Theorem event_numbers_unique {E} (k : nat) (st : hub_state E) :
  nsteps hub_step k hub_start st -> Z.of_nat k < 2 ^ 64 - 1 ->
  NoDup (ev_sequence <$> hub_sent (hs_hub st)) /\
  (hub_open (hs_hub st) = false -> forall st', rtc hub_step st st' -> hub_sent (hs_hub st') = hub_sent (hs_hub st)).
Proof.
  intros Hs Hk. split; [|intros Ho st' Hr; by apply closed_steps].
  destruct (hub_steps_ok k hub_start st 0 Hs) as (m & _ & _ & Hd & _); [|lia|].
  { split_and!; [done|lia|lia|constructor|constructor]. }
  by apply NoDup_app in Hd as [Hd _].
Qed.

(** Two publishers that overtake each other: the numbers arrive out of order. *)
Lemma overtaking {E} (a b : E) (now : Z) :
  exists st : hub_state E, nsteps hub_step 4 hub_start st /\ ev_sequence <$> hub_sent (hs_hub st) = [2; 1].
Proof.
  eexists. split.
  - eapply nsteps_l; [apply (hub_step_number a now)|]. eapply nsteps_l; [apply (hub_step_number b now)|]. simpl.
    eapply nsteps_l; [apply (hub_step_send _ [_] _ [])|]. eapply nsteps_l; [apply (hub_step_send _ [] _ [])|]. constructor.
  - reflexivity.
Qed.

Lemma event_numbers_unique_witness :
  exists st : hub_state nat, nsteps hub_step 4 hub_start st /\ NoDup (ev_sequence <$> hub_sent (hs_hub st)).
Proof.
  destruct (overtaking 0%nat 1%nat 5) as (st & Hs & _). exists st. split; [exact Hs|].
  destruct (event_numbers_unique 4 st Hs ltac:(lia)) as [Hd _]. exact Hd.
Defined.
