(* ===== verification/MediaMerge.v ===== *)
(** * Merging media changes into a library

    crates/handshaker-core/src/media_merge.rs: a change event is applied to the
    snapshot of a library; entries are matched by media id, or by path when the event
    has no id.  The three libraries share one scheme, stated as a class; the class is
    also the interface against which the merge is proved to implement a keyed map. *)

From stdpp Require Import gmap.
From S2P Require Import Prelude Errors Domain.

#[local] Open Scope string_scope.
#[local] Open Scope list_scope.
#[local] Open Scope Z_scope.

Inductive MediaKey :=
  | KeyId (id : Z)
  | KeyPath (p : string).

#[export] Instance MediaKey_eq_dec : EqDecision MediaKey.
Proof. solve_decision. Defined.

Definition item_key (item : MediaItem) : option MediaKey :=
  match mi_media_id item with
  | Some id => Some (KeyId id)
  | None => KeyPath <$> mi_path item
  end.

(** An entry of a library: its key fields, the fields it takes over from an event, and
    the entry made of an event alone. *)
Class MediaEntry (A : Type) := {
  entry_id : A -> option Z;
  entry_path : A -> option string;
  apply_overlap : A -> MediaItem -> A;
  from_item : MediaItem -> A
}.

Definition matches `{MediaEntry A} (a : A) (key : MediaKey) : bool :=
  match key with
  | KeyId id => bool_decide (entry_id a = Some id)
  | KeyPath p => bool_decide (entry_path a = Some p)
  end.

(** [iter_mut().find(..)] and the update in place; [None] when nothing matches. *)
Fixpoint update_first {A} (p : A -> bool) (f : A -> A) (l : list A) : option (list A) :=
  match l with
  | [] => None
  | a :: l => if p a then Some (f a :: l) else cons a <$> update_first p f l
  end.

Section Merge.
Context `{MediaEntry A}.

Definition upsert (entries : list A) (item : MediaItem) : list A :=
  match item_key item ≫= fun key => update_first (fun a => matches a key) (fun a => apply_overlap a item) entries with
  | Some entries => entries
  | None => entries ++ [from_item item]
  end.

Definition remove_entry (entries : list A) (item : MediaItem) : list A :=
  match item_key item with
  | None => entries
  | Some key => filter (fun a => matches a key = false) entries
  end.

(** Added, updated and deleted items, in this order. *)
Definition merge (entries : list A) (change : MediaLibraryChange) : list A :=
  foldl remove_entry (foldl upsert (foldl upsert entries (mc_added change)) (mc_updated change)) (mc_deleted change).

End Merge.

Definition or_old {A} (new old : option A) : option A := match new with Some _ => new | None => old end.

Definition kind_name (k : MediaKind) : string :=
  match k with Photo => "Photo" | Video => "Video" | Audio => "Audio" end.

Definition ensure_kind (library_kind change_kind : MediaKind) : Res unit :=
  if bool_decide (library_kind = change_kind) then Ok ()
  else Err (EProtocol (Msg "media.change_kind_mismatch" [kind_name change_kind; kind_name library_kind])).

(** ** Photos *)

Definition apply_image_overlap (image : ImageFile) (item : MediaItem) : ImageFile :=
  mkImageFile (or_old (mi_path item) (img_path image)) (or_old (mi_size item) (img_size image))
    (or_old (mi_created_at item) (img_created_at image)) (or_old (mi_modified_at item) (img_modified_at image))
    (or_old (mi_width item) (img_width image)) (or_old (mi_height item) (img_height image))
    (or_old (mi_orientation item) (img_orientation image)) (or_old (mi_media_id item) (img_media_id image))
    (or_old (mi_album_id item) (img_album_id image)) (or_old (mi_mime_type item) (img_mime_type image))
    (img_thumbnail image) (or_old (mi_album_name item) (img_album_name image)) (img_date_taken image)
    (img_latitude image) (img_longitude image) (img_mini_thumb_magic image) (or_old (mi_title item) (img_title image))
    (img_thumbnail_error image) (img_starred image).

Definition image_from_item (item : MediaItem) : ImageFile :=
  mkImageFile (mi_path item) (mi_size item) (mi_created_at item) (mi_modified_at item) (mi_width item) (mi_height item)
    (mi_orientation item) (mi_media_id item) (mi_album_id item) (mi_mime_type item) None (mi_album_name item) None None
    None None (mi_title item) false false.

#[export] Instance image_entry : MediaEntry ImageFile := {|
  entry_id := img_media_id; entry_path := img_path;
  apply_overlap := apply_image_overlap; from_item := image_from_item
|}.

Definition apply_photo (library : PhotoLibrary) (change : MediaLibraryChange) : Res unit * PhotoLibrary :=
  match ensure_kind Photo (mc_kind change) with
  | Err e => (Err e, library)
  | Ok _ => (Ok (), mkPhotoLibrary (merge (pl_images library) change) (pl_albums library) (pl_camera_album_id library))
  end.

(** ** Videos *)

Definition apply_video_overlap (video : VideoFile) (item : MediaItem) : VideoFile :=
  mkVideoFile (or_old (mi_path item) (vid_path video)) (or_old (mi_size item) (vid_size video))
    (or_old (mi_created_at item) (vid_created_at video)) (or_old (mi_modified_at item) (vid_modified_at video))
    (or_old (mi_width item) (vid_width video)) (or_old (mi_height item) (vid_height video))
    (or_old (mi_orientation item) (vid_orientation video)) (or_old (mi_media_id item) (vid_media_id video))
    (or_old (mi_album_id item) (vid_album_id video)) (or_old (mi_mime_type item) (vid_mime_type video))
    (vid_thumbnail video) (vid_thumbnail_error video) (or_old (mi_duration item) (vid_duration video)).

Definition video_from_item (item : MediaItem) : VideoFile :=
  mkVideoFile (mi_path item) (mi_size item) (mi_created_at item) (mi_modified_at item) (mi_width item) (mi_height item)
    (mi_orientation item) (mi_media_id item) (mi_album_id item) (mi_mime_type item) None false (mi_duration item).

#[export] Instance video_entry : MediaEntry VideoFile := {|
  entry_id := vid_media_id; entry_path := vid_path;
  apply_overlap := apply_video_overlap; from_item := video_from_item
|}.

Definition apply_video (library : VideoLibrary) (change : MediaLibraryChange) : Res unit * VideoLibrary :=
  match ensure_kind Video (mc_kind change) with
  | Err e => (Err e, library)
  | Ok _ => (Ok (), mkVideoLibrary (merge (vl_videos library) change) (vl_albums library))
  end.

(** ** Music *)

Definition apply_audio_overlap (audio : AudioFile) (item : MediaItem) : AudioFile :=
  mkAudioFile (or_old (mi_path item) (aud_path audio)) (or_old (mi_size item) (aud_size audio))
    (or_old (mi_created_at item) (aud_created_at audio)) (or_old (mi_modified_at item) (aud_modified_at audio))
    (or_old (mi_media_id item) (aud_media_id audio)) (or_old (mi_album_id item) (aud_album_id audio))
    (or_old (mi_title item) (aud_title audio)) (or_old (mi_mime_type item) (aud_mime_type audio)) (aud_artist_id audio)
    (or_old (mi_artist item) (aud_artist audio)) (aud_composer audio) (aud_genre audio) (aud_comment audio)
    (aud_copyright audio) (aud_audio_codec audio) (aud_track audio) (or_old (mi_duration item) (aud_duration audio)).

Definition audio_from_item (item : MediaItem) : AudioFile :=
  mkAudioFile (mi_path item) (mi_size item) (mi_created_at item) (mi_modified_at item) (mi_media_id item)
    (mi_album_id item) (mi_title item) (mi_mime_type item) None (mi_artist item) None None None None None None
    (mi_duration item).

#[export] Instance audio_entry : MediaEntry AudioFile := {|
  entry_id := aud_media_id; entry_path := aud_path;
  apply_overlap := apply_audio_overlap; from_item := audio_from_item
|}.

Definition apply_audio (library : AudioLibrary) (change : MediaLibraryChange) : Res unit * AudioLibrary :=
  match ensure_kind Audio (mc_kind change) with
  | Err e => (Err e, library)
  | Ok _ => (Ok (), mkAudioLibrary (merge (al_tracks library) change) (al_albums library))
  end.
