(* ===== verification/MediaProps.v ===== *)
(** * What merging guarantees

    The merge of a change into a library of distinct entries implements the update of a
    map keyed by media id, and never touches what only a full query knows. *)

From stdpp Require Import gmap.
From S2P Require Import Prelude Errors Domain MediaMerge.

#[local] Open Scope string_scope.
#[local] Open Scope list_scope.
#[local] Open Scope Z_scope.

(** What the merge relies on: the key fields follow the event. *)
Class MediaEntryLaws (A : Type) `{MediaEntry A} := {
  overlap_id : forall (a : A) item, entry_id (apply_overlap a item) = or_old (mi_media_id item) (entry_id a);
  from_item_id : forall item, entry_id (from_item (A := A) item) = mi_media_id item
}.

#[export] Instance image_laws : MediaEntryLaws ImageFile.
Proof. by split. Qed.
#[export] Instance video_laws : MediaEntryLaws VideoFile.
Proof. by split. Qed.
#[export] Instance audio_laws : MediaEntryLaws AudioFile.
Proof. by split. Qed.

Section Refinement.
Context `{MediaEntryLaws A}.

(** ** The specification: a map by media id *)

Definition spec_upsert (m : gmap Z A) (item : MediaItem) : gmap Z A :=
  match mi_media_id item with
  | Some id => <[id := match m !! id with Some a => apply_overlap a item | None => from_item item end]> m
  | None => m
  end.

Definition spec_remove (m : gmap Z A) (item : MediaItem) : gmap Z A :=
  match mi_media_id item with Some id => delete id m | None => m end.

Definition spec_merge (m : gmap Z A) (change : MediaLibraryChange) : gmap Z A :=
  foldl spec_remove (foldl spec_upsert (foldl spec_upsert m (mc_added change)) (mc_updated change)) (mc_deleted change).

(** ** The abstraction *)

Definition has_id (id : Z) (a : A) : bool := bool_decide (entry_id a = Some id).

Definition by_id (l : list A) : gmap Z A :=
  foldr (fun a m => match entry_id a with Some id => <[id := a]> m | None => m end) ∅ l.

(** Every entry has an id, and no two the same. *)
Definition well_keyed (l : list A) : Prop := NoDup (entry_id <$> l) /\ Forall (fun a => is_Some (entry_id a)) l.

Lemma by_id_lookup (l : list A) (id : Z) : by_id l !! id = List.find (has_id id) l.
Proof.
  induction l as [|a l IH]; simpl; [apply lookup_empty|]. unfold has_id at 1. destruct (entry_id a) as [k|] eqn:Hk.
  - case_bool_decide as Heq; [injection Heq as ->; apply lookup_insert_eq|].
    by rewrite lookup_insert_ne by congruence.
  - by rewrite bool_decide_eq_false_2.
Qed.

Lemma update_first_spec (p : A -> bool) (f : A -> A) (l : list A) :
  match update_first p f l with
  | Some l' => exists l1 a l2, l = l1 ++ a :: l2 /\ l' = l1 ++ f a :: l2 /\ p a = true /\ List.find p l = Some a
  | None => List.find p l = None
  end.
Proof.
  induction l as [|a l IH]; simpl; [done|]. destruct (p a) eqn:Hp; [by exists [], a, l|].
  destruct (update_first p f l) as [l'|]; simpl; [|done]. destruct IH as (l1 & b & l2 & -> & -> & Hb & Hf).
  by exists (a :: l1), b, l2.
Qed.

Lemma find_app_id (id : Z) (l1 l2 : list A) :
  List.find (has_id id) (l1 ++ l2) =
  match List.find (has_id id) l1 with Some a => Some a | None => List.find (has_id id) l2 end.
Proof. induction l1 as [|a l1 IH]; simpl; [done|]. by destruct (has_id id a). Qed.

Lemma find_None_id (id : Z) (l : list A) : List.find (has_id id) l = None <-> Some id ∉ (entry_id <$> l).
Proof.
  induction l as [|a l IH]; simpl; [split; [intros _; apply not_elem_of_nil|done]|].
  rewrite not_elem_of_cons. unfold has_id at 1. case_bool_decide; naive_solver.
Qed.

Lemma upsert_refines (l : list A) (item : MediaItem) :
  well_keyed l -> is_Some (mi_media_id item) ->
  well_keyed (upsert l item) /\ by_id (upsert l item) = spec_upsert (by_id l) item.
Proof.
  intros [Hd Hs] [id Hid]. unfold upsert, spec_upsert, item_key. rewrite Hid. cbn [mbind option_bind].
  rewrite by_id_lookup. pose proof (update_first_spec (fun a => matches a (KeyId id)) (fun a => apply_overlap a item) l) as Hu.
  change (fun a => matches a (KeyId id)) with (has_id id) in *.
  destruct (update_first (has_id id) _ l) as [l'|].
  - destruct Hu as (l1 & a & l2 & -> & -> & Ha & Hf). rewrite Hf. apply bool_decide_eq_true in Ha.
    assert (entry_id (apply_overlap a item) = Some id) as Ho by by rewrite overlap_id, Hid.
    split; [split|].
    + rewrite fmap_app, fmap_cons in *. by rewrite Ho, <- Ha.
    + rewrite Forall_app, Forall_cons in *. destruct Hs as (? & ? & ?). split_and!; [done| |done]. rewrite Ho. eauto.
    + apply map_eq. intros k. rewrite by_id_lookup, find_app_id. cbn [List.find].
      assert (List.find (has_id id) l1 = None) as H1.
      { apply find_None_id. intros Hin. rewrite fmap_app, fmap_cons in Hd. apply NoDup_app in Hd as (_ & Hx & _).
        apply (Hx (Some id) Hin). rewrite Ha. apply elem_of_cons. by left. }
      unfold has_id at 2. rewrite Ho. destruct (decide (k = id)) as [-> |Hk].
      * by rewrite H1, bool_decide_eq_true_2, lookup_insert_eq.
      * rewrite bool_decide_eq_false_2 by congruence. rewrite lookup_insert_ne by done.
        rewrite by_id_lookup, find_app_id. cbn [List.find]. unfold has_id at 4. rewrite Ha.
        by rewrite bool_decide_eq_false_2 by congruence.
  - rewrite Hu. apply find_None_id in Hu as Hn. split; [split|].
    + rewrite fmap_app. apply NoDup_app. split_and!; [done| |apply NoDup_singleton].
      intros x Hx ->%list_elem_of_singleton. by rewrite from_item_id, Hid in Hx.
    + apply Forall_app. split; [done|]. constructor; [|done]. rewrite from_item_id. eauto.
    + apply map_eq. intros k. rewrite by_id_lookup, find_app_id. cbn [List.find]. unfold has_id at 2.
      rewrite from_item_id, Hid. destruct (decide (k = id)) as [-> |Hk].
      * by rewrite Hu, bool_decide_eq_true_2, lookup_insert_eq.
      * rewrite bool_decide_eq_false_2 by congruence. rewrite lookup_insert_ne, by_id_lookup by done.
        by destruct (List.find (has_id k) l).
Qed.

Lemma remove_refines (l : list A) (item : MediaItem) :
  well_keyed l -> is_Some (mi_media_id item) ->
  well_keyed (remove_entry l item) /\ by_id (remove_entry l item) = spec_remove (by_id l) item.
Proof.
  intros [Hd Hs] [id Hid]. unfold remove_entry, spec_remove, item_key. rewrite Hid. split; [split|].
  - induction l as [|a l IH]; [constructor|]. rewrite fmap_cons in Hd. apply NoDup_cons in Hd as [Hn Hd].
    apply Forall_cons in Hs as [_ Hs]. rewrite filter_cons. case_decide; [|by apply IH].
    rewrite fmap_cons. apply NoDup_cons. split; [|by apply IH]. intros (b & Hb & [_ Hin]%list_elem_of_filter)%list_elem_of_fmap.
    apply Hn. rewrite Hb. by apply list_elem_of_fmap_2.
  - apply Forall_forall. intros a [_ Ha]%list_elem_of_filter. rewrite Forall_forall in Hs. by apply Hs.
  - apply map_eq. intros k. rewrite by_id_lookup. clear Hd Hs. induction l as [|a l IH].
    { simpl. by rewrite delete_empty. }
    rewrite filter_cons. change (matches a (KeyId id)) with (has_id id a). destruct (decide (k = id)) as [-> |Hk].
    + rewrite lookup_delete_eq in *. case_decide as Ha; [|done]. cbn [List.find]. by rewrite Ha.
    + rewrite lookup_delete_ne, by_id_lookup in * by done. cbn [List.find]. case_decide as Ha.
      * cbn [List.find]. by rewrite IH.
      * apply not_false_is_true, bool_decide_eq_true in Ha. unfold has_id at 2. rewrite Ha.
        by rewrite bool_decide_eq_false_2 by congruence.
Qed.

Lemma foldl_refines (step : list A -> MediaItem -> list A) (spec : gmap Z A -> MediaItem -> gmap Z A)
    (items : list MediaItem) (l : list A) :
  (forall l item, well_keyed l -> is_Some (mi_media_id item) ->
     well_keyed (step l item) /\ by_id (step l item) = spec (by_id l) item) ->
  Forall (fun item => is_Some (mi_media_id item)) items -> well_keyed l ->
  well_keyed (foldl step l items) /\ by_id (foldl step l items) = foldl spec (by_id l) items.
Proof.
  intros Hstep Hi. revert l. induction Hi as [|item items Hid Hi IH]; intros l Hl; [done|]. simpl.
  destruct (Hstep l item Hl Hid) as [Hw <-]. by apply IH.
Qed.

End Refinement.
Arguments spec_merge {A _} m change.

(** C28: merging implements a keyed map.  On a library whose entries have distinct media
    ids, a change whose items all have an id keeps the ids distinct, and the library it
    leaves, read as a map from ids to entries, is the map with the added and updated items
    written over or into it and the deleted ones removed. *)
Theorem merge_refines_map `{MediaEntryLaws A} (l : list A) (change : MediaLibraryChange) :
  well_keyed l ->
  Forall (fun item => is_Some (mi_media_id item)) (mc_added change ++ mc_updated change ++ mc_deleted change) ->
  well_keyed (merge l change) /\ by_id (merge l change) = spec_merge (by_id l) change.
Proof.
  intros Hl Hi. rewrite !Forall_app in Hi. destruct Hi as (Ha & Hu & Hr). unfold merge, spec_merge.
  destruct (foldl_refines upsert spec_upsert (mc_added change) l upsert_refines Ha Hl) as [W1 <-].
  destruct (foldl_refines upsert spec_upsert (mc_updated change) _ upsert_refines Hu W1) as [W2 <-].
  by apply (foldl_refines remove_entry spec_remove _ _ remove_refines Hr).
Qed.

Definition sample_item (id : Z) (p : option string) : MediaItem :=
  mkMediaItem (Some id) None p None None None None None None None None None None None.

Definition sample_images : list ImageFile := [image_from_item (sample_item 1 (Some "/a")); image_from_item (sample_item 2 None)].

Lemma merge_refines_map_witness :
  let change := mkMediaLibraryChange Photo [sample_item 3 None] [sample_item 1 None] [sample_item 2 (Some "/b")] [] in
  (img_path <$> by_id (apply_photo (mkPhotoLibrary sample_images [] None) change).2.(pl_images)) !! 2 = Some (Some "/b").
Proof.
  intros change. change ((apply_photo (mkPhotoLibrary sample_images [] None) change).2.(pl_images)) with (merge sample_images change).
  destruct (merge_refines_map sample_images change) as [_ ->]; [|repeat constructor; by eexists|reflexivity].
  split; [apply (bool_decide_unpack _); vm_compute; exact I|]. repeat constructor; by eexists.
Defined.

(** What only a full query fills in. *)
Definition query_fields (image : ImageFile) :=
  (img_thumbnail image, img_date_taken image, img_latitude image, img_longitude image, img_mini_thumb_magic image,
   img_thumbnail_error image, img_starred image).

Lemma upsert_from `{MediaEntry A} {B} (f : A -> B) (l : list A) (item : MediaItem) (b : A) :
  (forall a, f (apply_overlap a item) = f a) -> b ∈ upsert l item ->
  (exists a, a ∈ l /\ f b = f a) \/ b = from_item item.
Proof.
  intros Hf. unfold upsert. destruct (item_key item) as [key|]; cbn [mbind option_bind].
  2: { rewrite elem_of_app, list_elem_of_singleton. intros [Hb|Hb]; [left; eauto|by right]. }
  pose proof (update_first_spec (fun a => matches a key) (fun a => apply_overlap a item) l) as Hu.
  destruct (update_first _ _ l) as [l'|].
  - destruct Hu as (l1 & a & l2 & -> & -> & _). rewrite elem_of_app, elem_of_cons.
    intros Hb. left. destruct Hb as [Hb|[-> |Hb]].
    + exists b. split; [|done]. rewrite elem_of_app. by left.
    + exists a. split; [rewrite elem_of_app, elem_of_cons; auto|apply Hf].
    + exists b. split; [rewrite elem_of_app, elem_of_cons; auto|done].
  - rewrite elem_of_app, list_elem_of_singleton. intros [Hb|Hb]; [left; eauto|by right].
Qed.

Lemma upserts_from `{MediaEntry A} {B} (f : A -> B) (items : list MediaItem) (l : list A) (b : A) :
  Forall (fun item => forall a, f (apply_overlap a item) = f a) items -> b ∈ foldl upsert l items ->
  (exists a, a ∈ l /\ f b = f a) \/ exists item, item ∈ items /\ f b = f (from_item item).
Proof.
  intros Hf. revert l. induction Hf as [|item items Hf1 Hf IH]; intros l; simpl; [left; eauto|].
  intros [(a & Ha & Hfa)|(i & Hi & Hfi)]%IH; [|right; exists i; split; [by right|done]].
  apply (upsert_from f) in Ha as [(c & Hc & Hfc)| ->]; [|right; exists item; split; [by left|done]|done].
  left. exists c. split; [done|congruence].
Qed.

(** An entry of a merged library is one that was there or one made of an event, as far as what
    no event of the change touches goes. *)
Lemma merge_from `{MediaEntry A} {B} (f : A -> B) (l : list A) (change : MediaLibraryChange) (b : A) :
  Forall (fun item => forall a, f (apply_overlap a item) = f a) (mc_added change ++ mc_updated change) ->
  b ∈ merge l change ->
  (exists a, a ∈ l /\ f b = f a) \/
  exists item, item ∈ mc_added change ++ mc_updated change /\ f b = f (from_item item).
Proof.
  intros [Ha Hu]%Forall_app Hb.
  assert (b ∈ foldl upsert (foldl upsert l (mc_added change)) (mc_updated change)) as Hin.
  { revert Hb. unfold merge. generalize (foldl upsert (foldl upsert l (mc_added change)) (mc_updated change)).
    induction (mc_deleted change) as [|item items IH]; intros l'; simpl; [done|]. intros Hi%IH.
    unfold remove_entry in Hi. destruct (item_key item); [by apply list_elem_of_filter in Hi as [_ Hi]|done]. }
  apply (upserts_from f) in Hin as [(a & Hin & Hf)|(item & Hi & Hf)]; [| |done].
  - apply (upserts_from f) in Hin as [(c & Hc & Hfc)|(item & Hi & Hfi)]; [left; exists c; split; [done|congruence]| |done].
    right. exists item. rewrite elem_of_app. split; [by left|congruence].
  - right. exists item. rewrite elem_of_app. split; [by right|done].
Qed.

(** A change event never invents or loses what only a full query knows.  Whatever
    the change, every photo of the resulting library has the thumbnail, the date taken,
    the position and the star of a photo that was there, or none of them; an event for
    another kind of library is refused and changes nothing. *)
Theorem merge_keeps_query_fields (library : PhotoLibrary) (change : MediaLibraryChange) :
  let '(r, library') := apply_photo library change in
  (r = Ok () <-> mc_kind change = Photo) /\ (r <> Ok () -> library' = library) /\
  pl_albums library' = pl_albums library /\ pl_camera_album_id library' = pl_camera_album_id library /\
  forall image, image ∈ pl_images library' ->
    (exists old, old ∈ pl_images library /\ query_fields image = query_fields old) \/
    query_fields image = query_fields ImageFile_default.
Proof.
  unfold apply_photo, ensure_kind. case_bool_decide as Hk.
  - split_and!; [done..|]. simpl. intros image Hi.
    apply (merge_from query_fields) in Hi as [(a & Ha & Hf)|(item & _ & Hf)]; [left; eauto|by right|].
    by apply Forall_forall.
  - split_and!; [by split; [|intros Hm; destruct Hk]|done..|]. intros image Hi. left. eauto.
Qed.
