(* ===== verification/TrustStore.v ===== *)
(** * The trust store

    crates/handshaker-core/src/state.rs: the host's identifier and the records of the
    phones that trust it, kept in one JSON file, and the listing and removal of records
    in client.rs and in the application's trust.rs and runtime.rs.  Permission bits are
    not part of the file system of Fs.v: the mode a file has is an answer of the
    environment. *)

From Stdlib Require Import Strings.String.
From stdpp Require Import gmap.
From S2P Require Import Prelude Errors AppErrors Domain Handshake Text Paths Fs SyncStore.

#[local] Open Scope string_scope.
#[local] Open Scope list_scope.
#[local] Open Scope Z_scope.

Record TrustRecord := mkTrustRecord {
  tr_device_name : option string;
  tr_derived_key : string;
  tr_updated_at : Z
}.

#[export] Instance TrustRecord_eq_dec : EqDecision TrustRecord.
Proof. solve_decision. Defined.

(** The identifier is kept as its text. *)
Record State := mkState {
  sta_schema_version : Z;
  sta_host_uuid : string;
  sta_trust : gmap string TrustRecord
}.

#[export] Instance State_eq_dec : EqDecision State.
Proof. solve_decision. Defined.

Record StateStore := mkStateStore { ss_path : path }.

Definition from_dir (config_dir : path) : StateStore := mkStateStore (path_join config_dir "state.json").

(** [fs::metadata(..)?.permissions().mode() & 0o777] *)
Definition file_mode (p : path) : io (result io_error Z) :=
  let* r := syscall (fun f => (match f !! components p with Some _ => Ok () | None => Err err_not_found end, f)) untouched in
  match r with
  | Ok _ => let* mode := random_u64 in mret (Ok (Z.land mode 511))
  | Err e => mret (Err e)
  end.

Definition ensure_permissions (p : path) (mode : Z) : io (Res unit) :=
  let*? current := fails_with "state.permission_failed" p (file_mode p) in
  if current =? mode then io_ok ()
  else fails_with "state.permission_failed" p (set_permissions p).

Section Store.
Context `{Crypto} `{Json State}.

Definition state_save (store : StateStore) (state : State) : io (Res unit) :=
  match path_parent (ss_path store) with
  | None => io_err (configuration "state.parent_missing" [])
  | Some parent =>
      let*? _ := fails_with "state.create_failed" parent (create_dir_all (components parent)) in
      let*? _ := ensure_permissions parent 448 in
      match to_json state with
      | Err e => io_err (configuration "state.serialize_failed" [e])
      | Ok bytes =>
          let*? _ := fails_with "state.write_failed" (ss_path store) (file_create (ss_path store)) in
          let*? _ := fails_with "state.write_failed" (ss_path store) (write_all (ss_path store) bytes) in
          let*? _ := fails_with "state.sync_failed" (ss_path store) (sync_all (ss_path store)) in
          ensure_permissions (ss_path store) 384
      end
  end.

(** [new_uuid] is what [Uuid::new_v4] answers. *)
Definition load_or_create (store : StateStore) (new_uuid : string) : io (Res State) :=
  let* exists_ := path_exists (ss_path store) in
  if exists_ : bool then
    let*? _ := ensure_permissions (ss_path store) 384 in
    let*? bytes := fails_with "state.read_failed" (ss_path store) (read_file (ss_path store)) in
    match from_json bytes with
    | Err e => io_err (configuration "state.parse_failed" [ss_path store; e])
    | Ok state =>
        if negb (sta_schema_version state =? 1)
        then io_err (configuration "state.version_unsupported" [pretty (sta_schema_version state)])
        else io_ok state
    end
  else
    let state := mkState 1 new_uuid ∅ in
    let*? _ := state_save store state in
    io_ok state.

(** [new_record device_name derived_key now] *)
Definition new_record (device_name : option string) (derived_key : list byte) (now : Z) : TrustRecord :=
  mkTrustRecord device_name (string_of_list_byte (b64_encode derived_key)) now.

Definition upsert_trust (store : StateStore) (device_uuid : string) (device_name : option string)
  (derived_key : list byte) (now : Z) (new_uuid : string) : io (Res unit) :=
  let*? state := load_or_create store new_uuid in
  state_save store (mkState (sta_schema_version state) (sta_host_uuid state)
                      (<[device_uuid := new_record device_name derived_key now]> (sta_trust state))).

Definition remove_trust (store : StateStore) (device_uuid : string) (new_uuid : string) : io (Res bool) :=
  let*? state := load_or_create store new_uuid in
  match sta_trust state !! device_uuid with
  | None => io_ok false
  | Some _ =>
      let*? _ := state_save store (mkState (sta_schema_version state) (sta_host_uuid state)
                                     (delete device_uuid (sta_trust state))) in
      io_ok true
  end.

(** ** The callers *)

(** A [BTreeMap] is listed in the order of its keys. *)
Definition trust_infos (trust : gmap string TrustRecord) : list TrustRecordInfo :=
  omap (fun id => (fun record => mkTrustRecordInfo id (tr_device_name record) (tr_updated_at record)) <$> trust !! id)
    (btree_keys trust).

Definition list_trusted_devices (store : StateStore) (new_uuid : string) : io (Res (list TrustRecordInfo)) :=
  let*? state := load_or_create store new_uuid in
  io_ok (trust_infos (sta_trust state)).

Record TrustRecordDto := mkTrustRecordDto { td_device_id : string; td_device_name : option string; td_updated_at_ms : Z }.

Definition trust_dto (info : TrustRecordInfo) : TrustRecordDto :=
  mkTrustRecordDto ("phone:" +:+ tri_device_uuid info) (tri_device_name info) (Z.min (tri_updated_at info * 1000) (2 ^ 64 - 1)).

Definition app_error {A} (op : string) (r : Res A) : AppResult A := map_err (fun e => from_core_error e op) r.

Definition list_trust_records (store : StateStore) (new_uuid : string) : io (AppResult (list TrustRecordDto)) :=
  let* infos := list_trusted_devices store new_uuid in
  mret (app_error "trust.list" (let? infos := infos in Ok (trust_dto <$> infos))).

(** The part of a device id after [phone:]. *)
Definition parse_phone_device_id (device_id : string) : AppResult string :=
  match str_strip_prefix "phone:" device_id with
  | Some uuid =>
      if negb (bool_decide (trim uuid = "")) then Ok uuid
      else Err (operation "trust" (public_new InvalidArgument "expected a phone device id in the form phone:<uuid>"))
  | None => Err (operation "trust" (public_new InvalidArgument "expected a phone device id in the form phone:<uuid>"))
  end.

Definition remove_trust_record (store : StateStore) (device_id : string) (new_uuid : string) : io (AppResult bool) :=
  match parse_phone_device_id device_id with
  | Err e => mret (Err e)
  | Ok uuid => let* removed := remove_trust store uuid new_uuid in mret (app_error "trust.remove" removed)
  end.

End Store.
