(* ===== verification/TrustProps.v ===== *)
(** * What the trust store promises

    The outcomes of an update under every fault and crash, what a kill in the middle of
    a save leads to, and that on a working disk the store is a map of records. *)

From Stdlib Require Import Strings.String.
From stdpp Require Import gmap.
From S2P Require Import Prelude Errors AppErrors Domain Handshake Proto Text Paths Fs FsLogic SyncStore SyncCrash SyncProps TrustStore.

#[local] Open Scope string_scope.
#[local] Open Scope list_scope.
#[local] Open Scope Z_scope.

(** ** Under faults *)

Lemma triple_ensure_permissions (P D : fs -> Prop) (p : path) (mode : Z) :
  (forall f, P f -> D f) -> triple P (ensure_permissions p mode) (fun _ => P) D.
Proof.
  intros HD. apply triple_conseq with (P' := P) (Q' := fun _ => P) (D' := P); [|done|done|exact HD]. unfold ensure_permissions.
  eapply triple_fails_with with (R := fun _ => P); [| |done].
  - unfold file_mode. apply triple_bind with (R := fun _ => P); [by apply triple_look|].
    intros [u|e]; [|by apply triple_ret]. apply triple_bind with (R := fun _ => P); [by apply triple_random|].
    intros m. by apply triple_ret.
  - intros m. case_match; [by apply triple_ret|]. unfold fails_with.
    apply triple_map_err with (R := fun _ => P); [by apply triple_look|done|]. intros e. by apply triple_ret.
Qed.

Section Store.
Context `{Crypto} `{Json State}.
Context (store : StateStore) (dir : path).

(** The state file lies in the directory [dir]. *)
Definition state_layout : Prop :=
  path_parent (ss_path store) = Some dir /\
  components (ss_path store) ∉ components dir :: prefixes_of (components dir).

Definition skey : key := components (ss_path store).

(** The state file is as in [f0], or a prefix of the text of a state in [S]. *)
Definition half_saved (S : State -> Prop) (f0 f : fs) : Prop :=
  only_on (eq skey) f0 f /\
  (f !! skey = f0 !! skey \/
   exists s bytes n, S s /\ to_json s = Ok bytes /\ f !! skey = Some (File (take n bytes))).

(** The file holds the whole text of a state in [S]. *)
Definition saved (S : State -> Prop) (f : fs) : Prop :=
  exists s bytes, S s /\ to_json s = Ok bytes /\ f !! skey = Some (File bytes).

Lemma half_saved_refl (S : State -> Prop) (f : fs) : half_saved S f f.
Proof. split; [done|by left]. Qed.

Lemma half_saved_write (S : State -> Prop) (s : State) (bytes : list byte) (n : nat) (f0 f : fs) (g : fs) :
  S s -> to_json s = Ok bytes -> only_on (eq skey) f0 f -> g = <[skey := File (take n bytes)]> f -> half_saved S f0 g.
Proof.
  intros Hs Hb Hf ->. split; [etrans; [exact Hf|by apply only_on_insert]|].
  right. exists s, bytes, n. by rewrite lookup_insert_eq.
Qed.

Lemma half_saved_weaken (S S' : State -> Prop) (f0 f : fs) :
  (forall s, S s -> S' s) -> half_saved S f0 f -> half_saved S' f0 f.
Proof. intros HS [Hf [Hk|(s & bs & n & Hs & Hb & Hk)]]; split; eauto 10. Qed.

Lemma half_saved_trans (S : State -> Prop) (f0 f1 f2 : fs) :
  half_saved S f0 f1 -> half_saved S f1 f2 -> half_saved S f0 f2.
Proof.
  intros [H1 Hk1] [H2 Hk2]. split; [by etrans|]. destruct Hk2 as [Hk2|]; [|by right]. by rewrite Hk2.
Qed.

Lemma triple_state_save (S : State -> Prop) (s : State) (f0 : fs) :
  state_layout -> S s -> dir_ready dir f0 ->
  triple (fun f => f = f0) (state_save store s)
    (fun r f => half_saved S f0 f /\ (r = Ok () -> saved (eq s) f)) (half_saved S f0).
Proof.
  intros [Hp Hn] Hs Hd. unfold state_save. rewrite Hp.
  eapply triple_fails_with with (R := fun _ f => f = f0);
    [apply triple_dirs_exist; intros; subst; [by apply dir_ready_prefixes|done|apply half_saved_refl]| |].
  2: { intros e err f ->. split; [apply half_saved_refl|done]. }
  intros _. apply triple_bind with (R := fun _ f => f = f0).
  { apply triple_ensure_permissions. intros f ->. apply half_saved_refl. }
  intros [u|e]; [|apply triple_ret; intros f ->; split; [apply half_saved_refl|done]].
  destruct (to_json s) as [bytes|e] eqn:Eb; [|apply triple_ret; intros f ->; split; [apply half_saved_refl|done]].
  set (at_most := fun n f => only_on (eq skey) f0 f /\ f !! skey = Some (File (take n bytes))).
  assert (forall n f, at_most n f -> half_saved S f0 f) as Hat.
  { intros n f [Hf Hk]. split; [done|]. right. by exists s, bytes, n. }
  assert (forall n f, at_most 0%nat f -> at_most n (append_bytes (ss_path store) (take n bytes) f)) as Happ.
  { intros n f [Hf Hk]. split; [etrans; [exact Hf|by apply only_on_append]|].
    by rewrite (append_bytes_lookup (ss_path store) (take n bytes) []). }
  eapply triple_fails_with with (R := fun r f => match r with Ok _ => at_most 0%nat f | Err _ => f = f0 end).
  { apply triple_syscall; [|done|intros f n ->; apply half_saved_refl].
    assert (forall f, f = f0 -> at_most 0%nat (<[skey := File []]> f)) as Hcreate.
    { intros f ->. split; [by apply only_on_insert|apply lookup_insert_eq]. }
    intros f Hf. destruct (f !! components (ss_path store)) as [[c|]|]; [by apply Hcreate|done|by apply Hcreate]. }
  2: { intros e err f ->. split; [apply half_saved_refl|done]. }
  intros _. eapply triple_fails_with with (R := fun r f => match r with Ok _ => at_most (length bytes) f | Err _ => half_saved S f0 f end).
  { apply triple_syscall.
    - intros f Hf. simpl. specialize (Happ (length bytes) f Hf). by rewrite firstn_all in Happ.
    - intros f n t Hf. by eapply Hat, Happ.
    - intros f n Hf. by eapply Hat, Happ. }
  2: by intros e err f Hf.
  intros _. eapply triple_fails_with with (R := fun _ => at_most (length bytes)).
  { eapply triple_conseq; [by apply triple_look with (P := at_most (length bytes))|done|done|apply Hat]. }
  2: { intros e err f Hf. split; [by eapply Hat|done]. }
  intros _. eapply triple_conseq; [by apply triple_ensure_permissions with (P := at_most (length bytes))|done| |apply Hat].
  intros r f [Hf Hk]. split; [by apply (Hat (length bytes))|]. intros _. exists s, bytes. by rewrite firstn_all in Hk.
Qed.

(** The file holds the text of a state of this version. *)
Definition stored (f : fs) (s : State) : Prop :=
  exists bytes, f !! skey = Some (File bytes) /\ from_json bytes = Ok s /\ sta_schema_version s = 1.

Definition fresh_state (new_uuid : string) : State := mkState 1 new_uuid ∅.

Lemma triple_load_or_create (new_uuid : string) (f0 : fs) :
  state_layout -> dir_ready dir f0 ->
  triple (fun f => f = f0) (load_or_create store new_uuid)
    (fun r f => half_saved (eq (fresh_state new_uuid)) f0 f /\
       forall s, r = Ok s -> (stored f0 s /\ f = f0) \/ s = fresh_state new_uuid)
    (half_saved (eq (fresh_state new_uuid)) f0).
Proof.
  intros HL Hd. unfold load_or_create. set (Q := fun (r : Res State) f => _).
  assert (forall e f, f = f0 -> Q (Err e) f) as Herr by (intros e f ->; split; [apply half_saved_refl|done]).
  apply triple_bind with (R := fun _ f => f = f0).
  { apply triple_exists; [|done|intros f ->; apply half_saved_refl]. intros f Hf. by left. }
  intros [|].
  - apply triple_bind with (R := fun _ f => f = f0).
    { apply triple_ensure_permissions. intros f ->. apply half_saved_refl. }
    intros [u|e]; [|by apply triple_ret, Herr].
    eapply triple_fails_with with (R := fun r f => f = f0 /\ forall bs, r = Ok bs -> f0 !! skey = Some (File bs)).
    { apply triple_syscall; [|done|intros f n ->; apply half_saved_refl].
      intros f ->. simpl. split; [done|]. intros bs. unfold skey. by destruct (f0 !! _) as [[c|]|]; intros [= ->]. }
    2: { intros e err f [Hf _]. by apply Herr. }
    intros bs. destruct (from_json bs) as [s|e] eqn:Ej; [|apply triple_ret; intros f [Hf _]; by apply Herr].
    destruct (Z.eqb_spec (sta_schema_version s) 1) as [Hv|]; simpl; [|apply triple_ret; intros f [Hf _]; by apply Herr].
    apply triple_ret. intros f [-> Hbs]. split; [apply half_saved_refl|]. intros s' [= <-]. left. split; [|done].
    exists bs. split_and!; [by apply Hbs|done|done].
  - apply triple_bind with (R := fun r f => half_saved (eq (fresh_state new_uuid)) f0 f).
    { eapply triple_conseq; [by apply triple_state_save with (S := eq (fresh_state new_uuid))|done|by intros r f []|done]. }
    intros [u|e]; apply triple_ret; [|done]. intros f Hf. split; [done|]. intros s [= <-]. by right.
Qed.

(** ** Updates *)

Definition with_record (device_uuid : string) (record : TrustRecord) (s : State) : State :=
  mkState (sta_schema_version s) (sta_host_uuid s) (<[device_uuid := record]> (sta_trust s)).
Definition without_record (device_uuid : string) (s : State) : State :=
  mkState (sta_schema_version s) (sta_host_uuid s) (delete device_uuid (sta_trust s)).

(** An update starts from what is stored, or from a new state. *)
Definition base (f0 : fs) (new_uuid : string) (s : State) : Prop := stored f0 s \/ s = fresh_state new_uuid.
Definition updated (f0 : fs) (new_uuid : string) (g : State -> State) (s : State) : Prop :=
  exists s0, base f0 new_uuid s0 /\ s = g s0.
Definition written (f0 : fs) (new_uuid : string) (g : State -> State) (s : State) : Prop :=
  s = fresh_state new_uuid \/ updated f0 new_uuid g s.

Lemma triple_save_updated (new_uuid : string) (g : State -> State) (s : State) (f0 : fs) :
  state_layout -> dir_ready dir f0 -> base f0 new_uuid s ->
  triple (half_saved (eq (fresh_state new_uuid)) f0) (state_save store (g s))
    (fun r f => half_saved (written f0 new_uuid g) f0 f /\ (r = Ok () -> saved (updated f0 new_uuid g) f))
    (half_saved (written f0 new_uuid g) f0).
Proof.
  intros HL Hd Hs. apply triple_pre. intros f Hf.
  assert (forall h, half_saved (eq (g s)) f h -> half_saved (written f0 new_uuid g) f0 h) as Hh.
  { intros h Hh. eapply half_saved_trans.
    - eapply half_saved_weaken; [|exact Hf]. intros s' <-. by left.
    - eapply half_saved_weaken; [|exact Hh]. intros s' <-. right. by exists s. }
  eapply triple_conseq; [apply triple_state_save with (S := eq (g s)) (f0 := f); [done|done|]|done| |exact Hh].
  - eapply dir_ready_only; [|exact (proj1 Hf)|done]. intros k <-. apply HL.
  - intros r h [H1 H2]. split; [by apply Hh|]. intros Hr. destruct (H2 Hr) as (s' & bs & <- & ?).
    exists (g s), bs. split; [by exists s|done].
Qed.

Lemma triple_upsert_trust (new_uuid device_uuid : string) (device_name : option string) (derived_key : list byte) (now : Z) (f0 : fs) :
  state_layout -> dir_ready dir f0 ->
  let g := with_record device_uuid (new_record device_name derived_key now) in
  triple (fun f => f = f0) (upsert_trust store device_uuid device_name derived_key now new_uuid)
    (fun r f => half_saved (written f0 new_uuid g) f0 f /\ (r = Ok () -> saved (updated f0 new_uuid g) f))
    (half_saved (written f0 new_uuid g) f0).
Proof.
  intros HL Hd g. assert (forall f, half_saved (eq (fresh_state new_uuid)) f0 f -> half_saved (written f0 new_uuid g) f0 f) as Hw.
  { intros f. apply half_saved_weaken. intros s <-. by left. }
  unfold upsert_trust. eapply triple_bind with (R := fun r f => half_saved (eq (fresh_state new_uuid)) f0 f /\
    forall s, r = Ok s -> base f0 new_uuid s).
  { eapply triple_conseq; [by apply triple_load_or_create|done| |done].
    intros r f [H1 H2]. split; [done|]. intros s Hs. destruct (H2 s Hs) as [[]|]; [by left|by right]. }
  intros [s|e]; [|apply triple_ret; intros f [Hf _]; split; [by apply Hw|done]].
  apply (triple_pure (base f0 new_uuid s)); [intros f [_ Hs]; by apply Hs|]. intros Hs.
  eapply triple_conseq; [by apply (triple_save_updated new_uuid g s f0)|by intros f []|done|done].
Qed.

Lemma triple_remove_trust (new_uuid device_uuid : string) (f0 : fs) :
  state_layout -> dir_ready dir f0 ->
  let g := without_record device_uuid in
  triple (fun f => f = f0) (remove_trust store device_uuid new_uuid)
    (fun r f => half_saved (written f0 new_uuid g) f0 f /\ (r = Ok true -> saved (updated f0 new_uuid g) f))
    (half_saved (written f0 new_uuid g) f0).
Proof.
  intros HL Hd g. assert (forall f, half_saved (eq (fresh_state new_uuid)) f0 f -> half_saved (written f0 new_uuid g) f0 f) as Hw.
  { intros f. apply half_saved_weaken. intros s <-. by left. }
  unfold remove_trust. eapply triple_bind with (R := fun r f => half_saved (eq (fresh_state new_uuid)) f0 f /\
    forall s, r = Ok s -> base f0 new_uuid s).
  { eapply triple_conseq; [by apply triple_load_or_create|done| |done].
    intros r f [H1 H2]. split; [done|]. intros s Hs. destruct (H2 s Hs) as [[]|]; [by left|by right]. }
  intros [s|e]; [|apply triple_ret; intros f [Hf _]; split; [by apply Hw|done]].
  destruct (sta_trust s !! device_uuid); [|apply triple_ret; intros f [Hf _]; split; [by apply Hw|done]].
  apply (triple_pure (base f0 new_uuid s)); [intros f [_ Hs]; by apply Hs|]. intros Hs.
  apply triple_bind with (R := fun r f => half_saved (written f0 new_uuid g) f0 f /\ (r = Ok () -> saved (updated f0 new_uuid g) f)).
  { eapply triple_conseq; [by apply (triple_save_updated new_uuid g s f0)|by intros f []|done|by intros f Hf]. }
  intros [[]|e]; apply triple_ret; intros f [H1 H2]; (split; [done|]); [auto|done].
Qed.

(** ** Without faults *)

(** Run without faults from [f] the action answers [a] and leaves [g]. *)
Definition runs {A} (m : io A) (f : fs) (a : A) (g : fs) : Prop :=
  forall rs, exists rs', m (mkWorld f [] rs) = (Ret a, mkWorld g [] rs').

Lemma runs_ret {A} (a : A) (f : fs) : runs (mret a) f a f.
Proof. intros rs. by exists rs. Qed.

Lemma runs_bind {A B} (m : io A) (k : A -> io B) (a : A) (b : B) (f g h : fs) :
  runs m f a g -> runs (k a) g b h -> runs (mbind k m) f b h.
Proof.
  intros Hm Hk rs. destruct (Hm rs) as [rs1 E1]. destruct (Hk rs1) as [rs2 E2]. exists rs2.
  by rewrite (clean_bind _ _ _ _ _ E1).
Qed.

Lemma runs_syscall {A} (op : fs -> result io_error A * fs) (partial : nat -> fs -> fs) (a : result io_error A) (f g : fs) :
  op f = (a, g) -> runs (syscall op partial) f a g.
Proof. intros Ho rs. exists rs. unfold syscall. simpl. by rewrite Ho. Qed.

Lemma runs_fails_with {A} (s : string) (p : path) (m : io (result io_error A)) (a : A) (f g : fs) :
  runs m f (Ok a) g -> runs (fails_with s p m) f (Ok a) g.
Proof. intros Hm rs. destruct (Hm rs) as [rs' E]. exists rs'. unfold fails_with, io_map_err, mbind, io_bind. by rewrite E. Qed.

Lemma runs_ensure_permissions (p : path) (mode : Z) (f : fs) :
  is_Some (f !! components p) -> runs (ensure_permissions p mode) f (Ok ()) f.
Proof.
  intros [n Hn] rs. unfold ensure_permissions, file_mode, fails_with, io_map_err, mbind, io_bind, syscall; cbn.
  rewrite Hn. destruct rs as [|r rs]; cbn; (case_match; [by eexists|cbn; rewrite Hn; by eexists]).
Qed.

Lemma runs_state_save (s : State) (f : fs) (bytes : list byte) :
  state_layout -> dir_ready dir f -> to_json s = Ok bytes -> f !! skey <> Some Dir ->
  runs (state_save store s) f (Ok ()) (<[skey := File bytes]> f).
Proof.
  intros [Hp Hn] Hd Hb Hk. unfold state_save. rewrite Hp.
  assert (f !! components dir = Some Dir) as Hdir by by apply Forall_cons in Hd as [Hd _].
  eapply runs_bind with (g := f).
  { apply runs_fails_with. intros rs. exists rs. by apply clean_mkdirs. }
  cbv beta iota. eapply runs_bind with (g := f); [apply runs_ensure_permissions; eauto|]. cbv beta iota. rewrite Hb.
  eapply runs_bind with (g := <[skey := File []]> f).
  { apply runs_fails_with, runs_syscall. unfold skey in *. by destruct (f !! _) as [[c|]|]. }
  cbv beta iota. eapply runs_bind with (g := <[skey := File bytes]> f).
  { apply runs_fails_with, runs_syscall. unfold append_bytes, skey. by rewrite lookup_insert_eq, insert_insert_eq. }
  cbv beta iota. eapply runs_bind with (g := <[skey := File bytes]> f).
  { by apply runs_fails_with, runs_syscall. }
  apply runs_ensure_permissions. fold skey. rewrite lookup_insert_eq. eauto.
Qed.

(** What reading a state file with these bytes answers. *)
Definition parsed (bytes : list byte) : Res State :=
  match from_json bytes with
  | Err e => Err (configuration "state.parse_failed" [ss_path store; e])
  | Ok s => if sta_schema_version s =? 1 then Ok s
            else Err (configuration "state.version_unsupported" [pretty (sta_schema_version s)])
  end.

Lemma runs_load (new_uuid : string) (f : fs) (bytes : list byte) :
  f !! skey = Some (File bytes) -> runs (load_or_create store new_uuid) f (parsed bytes) f.
Proof.
  intros Hf. unfold load_or_create.
  eapply runs_bind with (a := true) (g := f).
  { intros rs. exists rs. rewrite clean_exists. fold skey. rewrite Hf. by rewrite bool_decide_eq_true_2 by eauto. }
  cbv beta iota. eapply runs_bind with (g := f); [apply runs_ensure_permissions; fold skey; rewrite Hf; eauto|]. cbv beta iota.
  eapply runs_bind with (g := f); [apply runs_fails_with, runs_syscall; fold skey; by rewrite Hf|]. cbv beta iota.
  unfold parsed. destruct (from_json bytes) as [s|e]; [|apply runs_ret].
  destruct (sta_schema_version s =? 1); apply runs_ret.
Qed.

Lemma runs_create (new_uuid : string) (f : fs) (bytes : list byte) :
  state_layout -> dir_ready dir f -> f !! skey = None -> to_json (fresh_state new_uuid) = Ok bytes ->
  runs (load_or_create store new_uuid) f (Ok (fresh_state new_uuid)) (<[skey := File bytes]> f).
Proof.
  intros HL Hd Hf Hb. unfold load_or_create. eapply runs_bind with (a := false) (g := f).
  { intros rs. exists rs. rewrite clean_exists. fold skey. rewrite Hf. by rewrite bool_decide_eq_false_2 by (by intros []). }
  cbv beta iota zeta. eapply runs_bind; [apply runs_state_save; [done|done|exact Hb|by rewrite Hf]|]. apply runs_ret.
Qed.

End Store.

(** ** Properties *)

(** C30: however an update of the trust store ends (in success, an error or a kill, at any
    point), no other file has changed, and the state file is as before or holds a prefix
    of the text of one state: the stored state with this one record replaced (or removed),
    or a new state without records, or that new state with the record.  An update that
    reports success has written the whole text of the updated state. *)
Theorem trust_update_outcomes `{Crypto} `{Json State} (store : StateStore) (dir : path) (w : world)
    (device_uuid new_uuid : string) (device_name : option string) (derived_key : list byte) (now : Z) :
  state_layout store dir -> dir_ready dir (w_fs w) ->
  (let g := with_record device_uuid (new_record device_name derived_key now) in
   let '(o, w') := upsert_trust store device_uuid device_name derived_key now new_uuid w in
   half_saved store (written store (w_fs w) new_uuid g) (w_fs w) (w_fs w') /\
   (o = Ret (Ok ()) -> saved store (updated store (w_fs w) new_uuid g) (w_fs w'))) /\
  (let g := without_record device_uuid in
   let '(o, w') := remove_trust store device_uuid new_uuid w in
   half_saved store (written store (w_fs w) new_uuid g) (w_fs w) (w_fs w') /\
   (o = Ret (Ok true) -> saved store (updated store (w_fs w) new_uuid g) (w_fs w'))).
Proof.
  intros HL Hd. split.
  - pose proof (triple_upsert_trust store dir new_uuid device_uuid device_name derived_key now (w_fs w) HL Hd w eq_refl) as Ht.
    intros g. destruct (upsert_trust _ _ _ _ _ _ w) as [[r|] w']; [|by split].
    destruct Ht as [H1 H2]. split; [done|]. intros [= ->]. by apply H2.
  - pose proof (triple_remove_trust store dir new_uuid device_uuid (w_fs w) HL Hd w eq_refl) as Ht.
    intros g. destruct (remove_trust _ _ _ w) as [[r|] w']; [|by split].
    destruct Ht as [H1 H2]. split; [done|]. intros [= ->]. by apply H2.
Qed.

#[export] Instance TrustRecord_countable : Countable TrustRecord.
Proof.
  refine (inj_countable' (fun r => (tr_device_name r, tr_derived_key r, tr_updated_at r))
    (fun '(a, b, c) => mkTrustRecord a b c) _). by intros [].
Defined.
#[export] Instance State_countable : Countable State.
Proof.
  refine (inj_countable' (fun s => (sta_schema_version s, sta_host_uuid s, sta_trust s)) (fun '(a, b, c) => mkState a b c) _).
  by intros [].
Defined.

Definition sample_trust_store : StateStore := from_dir "/c/sync".
Definition sample_state : State := mkState 1 "host" {["phone" := mkTrustRecord None "k" 3]}.
Definition sample_trust_disk : fs :=
  <[components (ss_path sample_trust_store) := File (bits_of (encode sample_state))]> sample_dirs.

Lemma sample_trust_layout : state_layout sample_trust_store "/c/sync".
Proof. split; [reflexivity|]. vm_compute. intros Hin. repeat (apply elem_of_cons in Hin as [|Hin]; [congruence|]). by apply elem_of_nil in Hin. Qed.

Lemma sample_trust_ready : dir_ready "/c/sync" sample_trust_disk.
Proof. repeat constructor. Qed.

Lemma trust_update_outcomes_witness :
  let '(o, w') := @upsert_trust toy_crypto toy_json sample_trust_store "phone" None [x07] 9 "new"
                    (mkWorld sample_trust_disk [Pass; Pass; Pass; Pass; Pass; Pass; Pass; Pass] [384; 448; 384]) in
  o = Ret (Ok ()) /\
  @saved toy_json sample_trust_store
    (@updated toy_json sample_trust_store sample_trust_disk "new" (with_record "phone" (@new_record toy_crypto None [x07] 9))) (w_fs w').
Proof.
  destruct (@trust_update_outcomes toy_crypto toy_json sample_trust_store "/c/sync"
    (mkWorld sample_trust_disk [Pass; Pass; Pass; Pass; Pass; Pass; Pass; Pass] [384; 448; 384])
    "phone" "new" None [x07] 9 sample_trust_layout sample_trust_ready) as [Hp _].
  assert (exists w', @upsert_trust toy_crypto toy_json sample_trust_store "phone" None [x07] 9 "new"
    (mkWorld sample_trust_disk [Pass; Pass; Pass; Pass; Pass; Pass; Pass; Pass] [384; 448; 384]) = (Ret (Ok ()), w')) as [w' E].
  { vm_compute. by eexists. }
  rewrite E in *. destruct Hp as [_ Hp]. split; [reflexivity|]. by apply Hp.
Defined.

(** A file that has its mode already. *)
Lemma passes_ensure_permissions (p : path) (mode : Z) (f : fs) (fl : list fault) (rs : list Z) :
  is_Some (f !! components p) -> Z.land mode 511 = mode ->
  ensure_permissions p mode (mkWorld f (Pass :: fl) (mode :: rs)) = (Ret (Ok ()), mkWorld f fl rs).
Proof.
  intros [n Hn] Hm. unfold ensure_permissions, file_mode, fails_with, io_map_err, mbind, io_bind, syscall; cbn.
  rewrite Hn; cbn. by rewrite Hm, Z.eqb_refl.
Qed.

(** C31: a kill between the truncation of the state file and the write locks the host out.
    From every stored state some kill of an update leaves an empty state file; whenever
    the empty text does not parse, from then on (on a working disk) loading, updating,
    removing and listing all fail with the parse error and change nothing, so neither the
    records nor the host's identifier come back. *)
Theorem killed_update_locks_out `{Crypto} `{Json State} (store : StateStore) (dir : path) (f : fs) (s : State)
    (device_uuid new_uuid : string) (device_name : option string) (derived_key bytes : list byte) (now : Z) (e : string) :
  state_layout store dir -> dir_ready dir f -> stored store f s ->
  to_json (with_record device_uuid (new_record device_name derived_key now) s) = Ok bytes ->
  from_json (A := State) [] = Err e ->
  exists faults rs w',
    upsert_trust store device_uuid device_name derived_key now new_uuid (mkWorld f faults rs) = (Dead, w') /\
    let g := w_fs w' in
    let failed := configuration "state.parse_failed" [ss_path store; e] in
    forall id name k t u,
      runs (load_or_create store u) g (Err failed) g /\ runs (upsert_trust store id name k t u) g (Err failed) g /\
      runs (remove_trust store id u) g (Err failed) g /\ runs (list_trusted_devices store u) g (Err failed) g.
Proof.
  intros HL Hd (old & Hold & Hjson & Hv) Hb He. destruct HL as [Hp Hn].
  set (g := <[skey store := File []]> f).
  assert (f !! components dir = Some Dir) as Hdir by by apply Forall_cons in Hd as [Hd _].
  exists [Pass; Pass; Pass; Pass; Pass; Pass; Crash 0], [384; 448], (mkWorld g [] []). split.
  - unfold upsert_trust, load_or_create. fold (skey store) in *.
    rewrite (clean_bind _ _ (Ok s) _ (mkWorld f [Pass; Pass; Pass; Crash 0] [448])).
    + unfold state_save. rewrite Hp.
      rewrite (clean_bind _ _ (Ok ()) _ (mkWorld f [Pass; Pass; Crash 0] [448])).
      * rewrite (clean_bind _ _ _ _ _ (passes_ensure_permissions dir 448 f _ _ (mk_is_Some _ _ Hdir) eq_refl)).
        unfold with_record in Hb. rewrite Hb. unfold fails_with, io_map_err, mbind, io_bind, syscall, file_create; cbn.
        unfold skey in *. rewrite Hold. cbn. unfold append_bytes. rewrite lookup_insert_eq. cbn.
        by rewrite insert_insert_eq.
      * pose proof (clean_mkdirs dir f [448] Hd) as Hm. unfold fails_with, io_map_err, mbind, io_bind.
        unfold create_dir_all, syscall in *. cbn in *. destruct (existsb _ _); [by injection Hm|]. cbn in *.
        injection Hm as Hm. by rewrite Hm.
    + rewrite (clean_bind _ _ true _ (mkWorld f [Pass; Pass; Pass; Pass; Pass; Crash 0] [384; 448])).
      * rewrite (clean_bind _ _ _ _ _ (passes_ensure_permissions (ss_path store) 384 f _ _ (mk_is_Some _ _ Hold) eq_refl)).
        unfold fails_with, io_map_err, mbind, io_bind, syscall, read_file; cbn. unfold skey in *. rewrite Hold. cbn.
        rewrite Hjson. cbn. by rewrite Hv.
      * unfold path_exists, mbind, io_bind, syscall; cbn. unfold skey in *. rewrite Hold.
        by rewrite bool_decide_eq_true_2 by eauto.
  - intros g' failed id name k t u. change g' with g.
    assert (runs (load_or_create store u) g (Err failed) g) as Hload.
    { pose proof (runs_load store u g []) as Hr. unfold parsed in Hr. rewrite He in Hr. apply Hr, lookup_insert_eq. }
    split_and!; [done|..].
    all: eapply runs_bind; [exact Hload|]; apply runs_ret.
Qed.

Lemma killed_update_locks_out_witness :
  exists faults rs w',
    @upsert_trust toy_crypto toy_json sample_trust_store "phone" None [x07] 9 "new" (mkWorld sample_trust_disk faults rs) = (Dead, w') /\
    runs (@load_or_create toy_json sample_trust_store "newer") (w_fs w')
      (Err (configuration "state.parse_failed" [ss_path sample_trust_store; "bad"])) (w_fs w').
Proof.
  destruct (@killed_update_locks_out toy_crypto toy_json sample_trust_store "/c/sync" sample_trust_disk sample_state
    "phone" "new" None [x07] (bits_of (encode (with_record "phone" (@new_record toy_crypto None [x07] 9) sample_state))) 9 "bad"
    sample_trust_layout sample_trust_ready) as (fl & rs & w' & Hdead & Hl).
  - eexists. split_and!; [reflexivity| |reflexivity]. exact (toy_json_round_trip sample_state _ eq_refl).
  - reflexivity.
  - vm_compute. reflexivity.
  - exists fl, rs, w'. split; [exact Hdead|]. by destruct (Hl "a" None [] 0 "newer") as [Hload _].
Defined.

(** ** The store as a map *)

Inductive trust_call :=
  | TrustList
  | TrustUpsert (device_uuid : string) (device_name : option string) (derived_key : list byte) (now : Z)
  | TrustForget (device_uuid : string).

Inductive trust_answer := AnsList (infos : list TrustRecordInfo) | AnsStored | AnsRemoved (existed : bool).

Section Map.
Context `{Crypto} `{Json State}.

(** A call, with the identifier [Uuid::new_v4] would draw. *)
Definition trust_run (store : StateStore) (c : trust_call) (new_uuid : string) : io (Res trust_answer) :=
  match c with
  | TrustList => let*? l := list_trusted_devices store new_uuid in io_ok (AnsList l)
  | TrustUpsert id name k now => let*? _ := upsert_trust store id name k now new_uuid in io_ok AnsStored
  | TrustForget id => let*? b := remove_trust store id new_uuid in io_ok (AnsRemoved b)
  end.

Fixpoint trust_runs (store : StateStore) (cs : list (trust_call * string)) : io (list (Res trust_answer)) :=
  match cs with
  | [] => mret []
  | (c, u) :: cs => let* a := trust_run store c u in let* l := trust_runs store cs in mret (a :: l)
  end.

(** The specification: no file yet, or an identifier and a map of records. *)
Definition trust_map : Type := option (string * gmap string TrustRecord).

Definition spec_call (c : trust_call) (new_uuid : string) (m : trust_map) : trust_answer * trust_map :=
  let '(host, records) := default (new_uuid, ∅) m in
  match c with
  | TrustList => (AnsList (trust_infos records), Some (host, records))
  | TrustUpsert id name k now => (AnsStored, Some (host, <[id := new_record name k now]> records))
  | TrustForget id => (AnsRemoved (bool_decide (is_Some (records !! id))), Some (host, delete id records))
  end.

Fixpoint spec_calls (cs : list (trust_call * string)) (m : trust_map) : list trust_answer * trust_map :=
  match cs with
  | [] => ([], m)
  | (c, u) :: cs => let (a, m) := spec_call c u m in let (l, m) := spec_calls cs m in (a :: l, m)
  end.

Definition holds_map (store : StateStore) (f : fs) (m : trust_map) : Prop :=
  match m with
  | None => f !! skey store = None
  | Some (host, records) => exists bytes, f !! skey store = Some (File bytes) /\ to_json (mkState 1 host records) = Ok bytes
  end.

Context (store : StateStore) (dir : path) `{!JsonRoundTrip State}.
Context (HL : state_layout store dir) (Htotal : forall s : State, exists bytes, to_json s = Ok bytes).

Lemma load_refines (f : fs) (m : trust_map) (u : string) :
  dir_ready dir f -> holds_map store f m ->
  let '(host, records) := default (u, ∅) m in
  exists g, runs (load_or_create store u) f (Ok (mkState 1 host records)) g /\ holds_map store g (Some (host, records)) /\
            only_on (eq (skey store)) f g.
Proof.
  intros Hd Hm. destruct m as [[host records]|]; simpl in *.
  - destruct Hm as (bytes & Hf & Hb). exists f. split_and!; [|by exists bytes|done].
    pose proof (runs_load store u f bytes Hf) as Hr. unfold parsed in Hr. by rewrite (json_round_trip _ _ Hb) in Hr.
  - destruct (Htotal (mkState 1 u ∅)) as [bytes Hb]. exists (<[skey store := File bytes]> f).
    split_and!; [by eapply runs_create|exists bytes; split; [apply lookup_insert_eq|done]|by apply only_on_insert].
Qed.

Lemma save_refines (f : fs) (host : string) (records records' : gmap string TrustRecord) :
  dir_ready dir f -> holds_map store f (Some (host, records)) ->
  exists g, runs (state_save store (mkState 1 host records')) f (Ok ()) g /\ holds_map store g (Some (host, records')) /\
            only_on (eq (skey store)) f g.
Proof.
  intros Hd (old & Hf & _). destruct (Htotal (mkState 1 host records')) as [bytes Hb].
  exists (<[skey store := File bytes]> f). split_and!; [|exists bytes; split; [apply lookup_insert_eq|done]|by apply only_on_insert].
  eapply runs_state_save; [done|done|done|]. by rewrite Hf.
Qed.

Lemma ready_only (f g : fs) : dir_ready dir f -> only_on (eq (skey store)) f g -> dir_ready dir g.
Proof. intros Hd Hg. eapply dir_ready_only; [|exact Hg|done]. intros k <-. apply HL. Qed.

Lemma call_refines (c : trust_call) (u : string) (f : fs) (m : trust_map) :
  dir_ready dir f -> holds_map store f m ->
  exists g, runs (trust_run store c u) f (Ok (spec_call c u m).1) g /\ holds_map store g (spec_call c u m).2 /\
            only_on (eq (skey store)) f g.
Proof.
  intros Hd Hm. pose proof (load_refines f m u Hd Hm) as Hload. unfold spec_call.
  destruct (default (u, ∅) m) as [host records]. destruct Hload as (g & Hr & Hg & Ho).
  assert (dir_ready dir g) as Hdg by by eapply ready_only.
  destruct c as [|id name k now|id]; cbn [fst snd trust_run].
  - exists g. split_and!; [|done|done]. unfold list_trusted_devices.
    eapply runs_bind; [eapply runs_bind; [exact Hr|apply runs_ret]|apply runs_ret].
  - destruct (save_refines g host records (<[id := new_record name k now]> records)) as (h & Hs & Hh & Hoh); [done|done|].
    exists h. split_and!; [|done|by etrans].
    eapply runs_bind; [unfold upsert_trust; eapply runs_bind; [exact Hr|exact Hs]|apply runs_ret].
  - destruct (records !! id) as [r|] eqn:El.
    + destruct (save_refines g host records (delete id records)) as (h & Hs & Hh & Hoh); [done|done|].
      exists h. split_and!; [|done|by etrans]. rewrite bool_decide_eq_true_2 by eauto.
      eapply runs_bind with (a := Ok true); [|apply runs_ret]. unfold remove_trust. eapply runs_bind; [exact Hr|].
      cbv beta iota. cbn [sta_trust]. rewrite El. eapply runs_bind; [exact Hs|apply runs_ret].
    + exists g. rewrite delete_id by done. rewrite bool_decide_eq_false_2 by (by intros []). split_and!; [|done|done].
      eapply runs_bind with (a := Ok false); [|apply runs_ret]. unfold remove_trust. eapply runs_bind; [exact Hr|].
      cbv beta iota. cbn [sta_trust]. rewrite El. apply runs_ret.
Qed.

Lemma calls_refine (cs : list (trust_call * string)) (f : fs) (m : trust_map) :
  dir_ready dir f -> holds_map store f m ->
  exists g, runs (trust_runs store cs) f (Ok <$> (spec_calls cs m).1) g /\ holds_map store g (spec_calls cs m).2 /\
            only_on (eq (skey store)) f g.
Proof.
  revert f m. induction cs as [|[c u] cs IH]; intros f m Hd Hm; cbn [trust_runs spec_calls].
  { exists f. split_and!; [apply runs_ret|done|done]. }
  destruct (call_refines c u f m Hd Hm) as (g & Hr & Hg & Ho). destruct (spec_call c u m) as [a m1]; cbn [fst snd] in *.
  destruct (IH g m1) as (h & Hrs & Hh & Hoh); [by eapply ready_only|done|].
  destruct (spec_calls cs m1) as [l m2]; cbn [fst snd] in *. exists h. split_and!; [|done|by etrans].
  eapply runs_bind; [exact Hr|]. eapply runs_bind; [exact Hrs|apply runs_ret].
Qed.

End Map.

(** C32: on a working disk the trust store is a map of records: any sequence of listings,
    updates and removals answers what a map with the host's identifier answers, the file
    holds that map afterwards, the identifier drawn with the first call is kept from then
    on, and no other file changes. *)
Theorem trust_store_refines_map `{Crypto} `{Json State} `{!JsonRoundTrip State} (store : StateStore) (dir : path)
    (cs : list (trust_call * string)) (f : fs) (m : trust_map) :
  state_layout store dir -> (forall s : State, exists bytes, to_json s = Ok bytes) ->
  dir_ready dir f -> holds_map store f m ->
  (exists g, runs (trust_runs store cs) f (Ok <$> (spec_calls cs m).1) g /\ holds_map store g (spec_calls cs m).2 /\
             only_on (eq (skey store)) f g) /\
  (forall c u rest, cs = (c, u) :: rest -> fst <$> (spec_calls cs m).2 = Some (default u (fst <$> m))).
Proof.
  intros HL Ht Hd Hm. split; [by eapply calls_refine|]. intros c u rest ->.
  assert (forall l host records, fst <$> (spec_calls l (Some (host, records))).2 = Some host) as Hkeep.
  { intros l. induction l as [|[c' u'] l IH]; intros host records; [done|]. cbn [spec_calls].
    destruct c'; cbn; specialize (IH host); (match goal with |- context [spec_calls l (Some (host, ?r))] => specialize (IH r) end);
      by destruct (spec_calls l _) as [? ?]. }
  cbn [spec_calls]. unfold spec_call.
  destruct m as [[host records]|]; cbn; destruct c;
    match goal with |- context [spec_calls rest (Some (?h, ?r))] => pose proof (Hkeep rest h r) as Hk end;
    by destruct (spec_calls rest _) as [? ?].
Qed.

Lemma trust_store_refines_map_witness :
  exists g, runs (@trust_runs toy_crypto toy_json sample_trust_store
                    [(TrustUpsert "phone" None [x07] 9, "new"); (TrustForget "other", "u"); (TrustForget "phone", "v")])
    sample_dirs [Ok AnsStored; Ok (AnsRemoved false); Ok (AnsRemoved true)] g /\
    @holds_map toy_json sample_trust_store g (Some ("new", ∅)).
Proof.
  destruct (@trust_store_refines_map toy_crypto toy_json toy_json_round_trip sample_trust_store "/c/sync"
    [(TrustUpsert "phone" None [x07] 9, "new"); (TrustForget "other", "u"); (TrustForget "phone", "v")]
    sample_dirs None sample_trust_layout toy_json_total) as [(g & Hr & Hg & _) _]; [repeat constructor|reflexivity|].
  exists g. split; [exact Hr|exact Hg].
Defined.
