(* ===== verification/WifiHandshake.v ===== *)
(** * The Wi-Fi handshake

    crates/handshaker-core/src/protocol/wifi_handshake.rs: two rounds of messages and the
    wait for the trust dialog of the phone; and the two callers in client.rs, which keep
    the key the phone hands out and reset the trust of a phone.  The clock, the instants at
    which the bytes of the phone come, and the key generator are inputs. *)

From Stdlib Require Import Strings.String Strings.Ascii.
From stdpp Require Import gmap.
From S2P Require Import Prelude Errors AppErrors Domain Frame Reassembly Handshake Proto Text Paths Fs SyncStore TrustStore.

#[local] Open Scope string_scope.
#[local] Open Scope list_scope.
#[local] Open Scope Z_scope.

(** Milliseconds. *)
Definition TRUST_WAIT_TIMEOUT : Z := 120 * 1000.

Definition HOST_APP_VERSION : string := "2.5.6".
Definition HOST_PROTOCOL_VERSION : string := "1".
Definition HOST_MIN_CLIENT_VERSION : string := "1.0.0".
Definition HOST_MODEL : string := "HandShaker-Rust".
Definition HOST_HEARTBEAT_TIMEOUT_SECONDS : Z := 30.
Definition WIFI_SID : Z := 0x80000001.
Definition MAX_DERIVED_KEY : Z := 256.

Record WifiHandshakeInfo := mkWifiInfo {
  wi_device_uuid : string;
  wi_device_name : option string;
  wi_usb_serial : option string;
  wi_apk_version : option string;
  wi_apk_version_name : option string;
  wi_derived_key : option (list byte);
  wi_trust_type : option SspHandShakeTrustType;
  wi_trust_waiting : bool
}.

(** ** The host's name *)

Definition not_empty (s : string) : option string := if bool_decide (s = "") then None else Some s.

(** [trim_end_matches(".local")], on the reversed name. *)
Fixpoint drop_local (fuel : nat) (s : string) : string :=
  match fuel with
  | O => s
  | S fuel => match str_strip_prefix "lacol." s with
              | Some s => drop_local fuel s
              | None => s
              end
  end.

(** [HOSTNAME], what [gethostname] answers, and [USER]. *)
Definition host_name (hostname gethostname user : option string) : string :=
  match hostname ≫= not_empty with
  | Some name => name
  | None =>
      match gethostname ≫= (fun raw => not_empty (string_rev (drop_local (String.length raw) (string_rev raw)))) with
      | Some name => name
      | None => default "handshaker-rust" (user ≫= not_empty)
      end
  end.

Record WifiTrustHandshake := mkWifiTrustHandshake {
  wt_host_uuid : string;
  wt_host_name : option string;
  wt_trust : gmap string TrustRecord;
  wt_trust_remove : bool;
  wt_trust_store : option StateStore
}.

Definition wifi_new (host_uuid : string) (trust : gmap string TrustRecord) : WifiTrustHandshake :=
  mkWifiTrustHandshake host_uuid None trust false None.
Definition new_with_trust_remove (host_uuid : string) : WifiTrustHandshake :=
  mkWifiTrustHandshake host_uuid None ∅ true None.
Definition with_trust_store (store : StateStore) (h : WifiTrustHandshake) : WifiTrustHandshake :=
  mkWifiTrustHandshake (wt_host_uuid h) (wt_host_name h) (wt_trust h) (wt_trust_remove h) (Some store).
Definition with_host_name (name : option string) (h : WifiTrustHandshake) : WifiTrustHandshake :=
  mkWifiTrustHandshake (wt_host_uuid h) name (wt_trust h) (wt_trust_remove h) (wt_trust_store h).

Section Wifi.
Context `{Crypto} `{ProtoCodec} `{Json State}.

(** What the operating system answers during one handshake: the generated key, the name
    of the host, the time in seconds; the instant the first response is waited for, the one
    the dialog starts, and the ones its rounds start (milliseconds, however far apart); when
    the bytes of the phone come; and the identifier [Uuid::new_v4] would draw. *)
Record WifiEnv := mkWifiEnv {
  we_generated : result string rsa_private;
  we_default_name : string;
  we_seconds : Z;
  we_asked : Z;
  we_started : Z;
  we_now : nat -> Z;
  we_arrivals : Arrivals;
  we_new_uuid : string
}.

Definition request01 (h : WifiTrustHandshake) (env : WifiEnv) (keys : SessionKeys) : SspHandShakeRequest01 :=
  let enckey := build_enckey (sk_public_der keys) in
  mkSspHandShakeRequest01 (Some (request_type_value RtHandshakeRequest01)) (Some (wt_host_uuid h))
    (Some (default (we_default_name env) (wt_host_name h))) (Some (we_seconds env)) (Some HOST_PROTOCOL_VERSION)
    (Some HOST_APP_VERSION) (Some HOST_MIN_CLIENT_VERSION) (Some (take 16 enckey)) (Some (drop 16 enckey))
    (Some HOST_MODEL) (Some HOST_HEARTBEAT_TIMEOUT_SECONDS).

(** The key of the stored record, unless it does not decode. *)
Definition stored_key (h : WifiTrustHandshake) (device_uuid : string) : option (list byte) :=
  match wt_trust h !! device_uuid with
  | None => None
  | Some record => match b64_decode (bytes_of_string (tr_derived_key record)) with
                   | Ok k => Some k
                   | Err _ => None
                   end
  end.

Definition trust_type_value (t : SspHandShakeTrustType) : Z :=
  match t with
  | TrustWaiting => 1 | TrustUnknow => 2 | TrustNo => 3 | TrustOnce => 4 | TrustAlways => 5 | TrustRemove => 6
  end.

Definition request02 (h : WifiTrustHandshake) (device_uuid : string) : SspHandShakeRequest02 :=
  mkSspHandShakeRequest02 (Some (request_type_value RtHandshakeRequest02)) (Some (wt_host_uuid h))
    (stored_key h device_uuid) (if wt_trust_remove h then Some (trust_type_value TrustRemove) else None).

Definition info_of (device_uuid : string) (r : SspHandShakeResponse01) : WifiHandshakeInfo :=
  mkWifiInfo device_uuid (h1r_device_name r) (h1r_usb_serial r) (h1r_apk_version r) (h1r_apk_version_name r) None None false.

(** ** One response of the trust dialog *)

Inductive round_verdict :=
  | Waits (info : WifiHandshakeInfo)
  | Settles (r : Res WifiHandshakeInfo)
  | Revoked (r : Res WifiHandshakeInfo).

Definition trust_failed : Error := EHandshake (Msg "handshake.trust_failed" []).

(** The named refusals and the encrypted "ok". *)
Definition check_result (keys : SessionKeys) (info : WifiHandshakeInfo) (result : string) : Res WifiHandshakeInfo :=
  if bool_decide (result = "failed") then Err trust_failed
  else if bool_decide (result = "locked") then Err (EHandshake (Msg "handshake.phone_locked" []))
  else if bool_decide (result = "needauth") then Err (EHandshake (Msg "handshake.authorization_required" []))
  else
    let? clear := decrypt_handshake_result keys (bytes_of_string result) in
    if bool_decide (clear = bytes_of_string "ok") then Ok info
    else Err (EHandshake (Msg "handshake.result_invalid" [string_of_list_byte clear])).

(** What every response adds to the info. *)
Definition update_info (response : SspHandShakeResponse02) (info : WifiHandshakeInfo) : Res WifiHandshakeInfo :=
  let trust_type := h2r_trust_type response ≫= trust_type_try_from in
  let name := match h2r_device_name response with Some n => Some n | None => wi_device_name info end in
  let with_key k := mkWifiInfo (wi_device_uuid info) name (wi_usb_serial info) (wi_apk_version info)
                      (wi_apk_version_name info) k trust_type (wi_trust_waiting info) in
  match h2r_derived_key response with
  | None => Ok (with_key (wi_derived_key info))
  | Some k =>
      if zlen k >? MAX_DERIVED_KEY then Err (EProtocol (Msg "handshake.derived_key_too_large" []))
      else Ok (with_key (Some k))
  end.

Definition set_waiting (info : WifiHandshakeInfo) : WifiHandshakeInfo :=
  mkWifiInfo (wi_device_uuid info) (wi_device_name info) (wi_usb_serial info) (wi_apk_version info)
    (wi_apk_version_name info) (wi_derived_key info) (wi_trust_type info) true.

Definition check_response (h : WifiTrustHandshake) (keys : SessionKeys) (info : WifiHandshakeInfo)
  (response : SspHandShakeResponse02) : round_verdict :=
  match update_info response info with
  | Err e => Settles (Err e)
  | Ok info =>
      if wt_trust_remove h then
        match h2r_result response with
        | None =>
            if bool_decide (h2r_trust_type response ≫= trust_type_try_from = Some TrustWaiting)
            then Settles (Ok info) else Waits info
        | Some result => Settles (check_result keys info result)
        end
      else
        match h2r_result response with
        | None => Waits (set_waiting info)
        | Some result =>
            if bool_decide (result = "failed") then Revoked (Err trust_failed)
            else Settles (check_result keys info result)
        end
  end.

(** [let _ = store.remove_trust(..)] *)
Definition forget_trust (h : WifiTrustHandshake) (env : WifiEnv) (device_uuid : string) : io () :=
  match wt_trust_store h with
  | None => mret ()
  | Some store => let* _ := remove_trust store device_uuid (we_new_uuid env) in mret ()
  end.

Abbreviation wifi_outcome := (Res WifiHandshakeInfo * reader * wire_trace)%type.

(** The loop.  [None] means that it never comes back: it waits for a phone that stays silent, with
    nothing to end the wait, or the fuel ran out, which [S (length bytes)] rounds never do, since
    every answered round takes a frame off the stream.  After a timeout the stream is dropped. *)
Fixpoint trust_loop (h : WifiTrustHandshake) (env : WifiEnv) (keys : SessionKeys) (fuel : nat) (round : nat)
  (info : WifiHandshakeInfo) (r : reader) (log : wire_trace) : io (option wifi_outcome) :=
  match fuel with
  | O => mret None
  | S fuel =>
      let remaining := saturating_sub (we_started env + TRUST_WAIT_TIMEOUT) (we_now env round) in
      let timed_out := Err (ETimeout (Msg "handshake.trust_timeout" [])) in
      if remaining =? 0 then mret (Some (timed_out, r, log))
      else
        match read_normal_direct WIFI_SID r log with
        | None => mret None
        | Some (body, r, log) =>
            match await_until (Some (we_now env round + remaining)) (answered_at (we_arrivals env) body r) body with
            | Hangs => mret None
            | TooLate => mret (Some (timed_out, r, log))
            | InTime (Err e) => mret (Some (Err e, r, log))
            | InTime (Ok body) =>
                match decode_SspHandShakeResponse02 body with
                | Err e => mret (Some (Err (EProtocol (Msg "handshake.response02_decode" [e])), r, log))
                | Ok response =>
                    match check_response h keys info response with
                    | Waits info => trust_loop h env keys fuel (S round) info r log
                    | Settles res => mret (Some (res, r, log))
                    | Revoked res =>
                        let* _ := forget_trust h env (wi_device_uuid info) in
                        mret (Some (res, r, log))
                    end
                end
            end
        end
  end.

(** ** The handshake *)

Definition send_unsigned (w : writer) (payload : list byte) (note : string) (log : wire_trace)
  : Res unit * writer * wire_trace :=
  match write_upstream w WIFI_SID 0 payload with
  | (Err e, w) => (Err e, w, log)
  | (Ok frame, w) => (Ok (), w, log ++ [(Out, note, frame)])
  end.

Definition HandshakeOutcome : Type := SessionKeys * WifiHandshakeInfo.

(** The requests fit the buffers of the socket, so they are written at once. *)
Definition wifi_establish (h : WifiTrustHandshake) (request_timeout : Z) (env : WifiEnv) (w : writer) (r : reader) (log : wire_trace)
  : io (option (Res HandshakeOutcome * writer * reader * wire_trace)) :=
  let stop w r log e := mret (Some (Err e, w, r, log)) in
  match SessionKeys_generate (we_generated env) with
  | Err e => stop w r log e
  | Ok keys =>
      match send_unsigned w (encode_SspHandShakeRequest01 (request01 h env keys)) "wire.handshake_request_01" log with
      | (Err e, w, log) => stop w r log e
      | (Ok _, w, log) =>
          match read_normal_direct WIFI_SID r log with
          | None => mret None
          | Some (body, r, log) =>
              match await_until (Some (we_asked env + request_timeout)) (answered_at (we_arrivals env) body r) body with
              | Hangs => mret None
              | TooLate => stop w r log (ETimeout (Msg "handshake.wifi_response01_timeout" []))
              | InTime (Err e) => stop w r log e
              | InTime (Ok body) =>
                  match decode_SspHandShakeResponse01 body with
                  | Err e => stop w r log (EProtocol (Msg "handshake.response01_decode" [e]))
                  | Ok response01 =>
                      match h1r_device_uuid response01 with
                      | None => stop w r log (EProtocol (Msg "handshake.response01_missing_uuid" []))
                      | Some device_uuid =>
                          match send_unsigned w (encode_SspHandShakeRequest02 (request02 h device_uuid))
                                  "wire.handshake_request_02" log with
                          | (Err e, w, log) => stop w r log e
                          | (Ok _, w, log) =>
                              let* outcome := trust_loop h env keys (S (length (rd_bytes r))) 0
                                                (info_of device_uuid response01) r log in
                              mret (match outcome with
                                    | None => None
                                    | Some (res, r, log) => Some ((let? info := res in Ok (keys, info)), w, r, log)
                                    end)
                          end
                      end
                  end
              end
          end
      end
  end.

(** ** The callers *)

(** The Wi-Fi part of [connect_with_state], up to the record that keeps the key. *)
Definition connect_wifi (store : StateStore) (name : option string) (request_timeout : Z) (env : WifiEnv) (now : Z)
  (w : writer) (r : reader) (log : wire_trace) : io (option (Res HandshakeOutcome * writer)) :=
  let* state := load_or_create store (we_new_uuid env) in
  match state with
  | Err e => mret (Some (Err e, w))
  | Ok state =>
      let handshake := with_trust_store store (with_host_name name (wifi_new (sta_host_uuid state) (sta_trust state))) in
      let* session := wifi_establish handshake request_timeout env w r log in
      match session with
      | None => mret None
      | Some (Err e, w, _, _) => mret (Some (Err e, w))
      | Some (Ok (keys, info), w, _, _) =>
          match wi_derived_key info with
          | None => mret (Some (Ok (keys, info), w))
          | Some derived_key =>
              let* kept := upsert_trust store (wi_device_uuid info) (wi_device_name info) derived_key now (we_new_uuid env) in
              mret (Some ((let? _ := kept in Ok (keys, info)), w))
          end
      end
  end.

(** [reset_wifi_trust_with_state_store]; [close] is what closing the session answers. *)
Definition reset_wifi_trust_core (store : StateStore) (expected_device_uuid : string) (name : option string)
  (request_timeout : Z) (env : WifiEnv) (close : Res unit) (w : writer) (r : reader) (log : wire_trace)
  : io (option (Res unit * writer)) :=
  let* state := load_or_create store (we_new_uuid env) in
  match state with
  | Err e => mret (Some (Err e, w))
  | Ok state =>
      let handshake := with_host_name name (new_with_trust_remove (sta_host_uuid state)) in
      let* session := wifi_establish handshake request_timeout env w r log in
      match session with
      | None => mret None
      | Some (Err e, w, _, _) => mret (Some (Err e, w))
      | Some (Ok (_, info), w, _, _) =>
          let checked :=
            if bool_decide (wi_device_uuid info = expected_device_uuid) then Ok ()
            else Err (EHandshake (Msg "trust.reset_device_mismatch" [wi_device_uuid info; expected_device_uuid])) in
          mret (Some (match checked, close with
                      | Err e, _ => Err e
                      | Ok _, close => close
                      end, w))
      end
  end.

(** [Runtime::reset_wifi_trust], its endpoint already parsed. *)
Definition reset_wifi_trust (store : StateStore) (expected_device_id : string) (name : option string)
  (request_timeout : Z) (env : WifiEnv) (close : Res unit) (w : writer) (r : reader) (log : wire_trace)
  : io (option (AppResult unit * writer)) :=
  match parse_phone_device_id expected_device_id with
  | Err e => mret (Some (Err e, w))
  | Ok uuid =>
      let* result := reset_wifi_trust_core store uuid name request_timeout env close w r log in
      mret ((fun '(res, w) => (app_error "trust.reset" res, w)) <$> result)
  end.

End Wifi.
