(* ===== verification/WifiProps.v ===== *)
(** * What the Wi-Fi handshake promises

    The handshake against the conversation with the phone and its times: it comes back even
    from a silent phone, and succeeds exactly when the phone answers the two rounds and finally
    grants access in time; what it sends; the key it keeps; and what a reset does. *)

From Stdlib Require Import Strings.String.
From stdpp Require Import gmap.
From S2P Require Import Prelude Errors AppErrors Domain Frame Reassembly Handshake Proto Text Paths Fs FsLogic SyncStore SyncCrash SyncProps TrustStore TrustProps WifiHandshake.

#[local] Open Scope string_scope.
#[local] Open Scope list_scope.
#[local] Open Scope Z_scope.

(** ** Conversations *)

Lemma wifi_sid_u32 : is_u32 WIFI_SID.
Proof. unfold is_u32, WIFI_SID. lia. Qed.

Lemma frames_of_app (sid : Z) (a b : list (list byte)) : frames_of sid (a ++ b) = frames_of sid a ++ frames_of sid b.
Proof. unfold frames_of. by rewrite fmap_app, concat_app. Qed.

(** Empty frames before a message belong to it. *)
Lemma says_left (sid : Z) (left : list (list byte)) (bs body bs' : list byte) :
  concat left = [] -> says sid bs body bs' -> says sid (frames_of sid left ++ bs) body bs'.
Proof.
  intros Hl (cs & -> & Hcs & Hc & Hb). exists (left ++ cs). split_and!; [by rewrite frames_of_app, app_assoc| |by rewrite concat_app, Hl|done].
  apply Forall_app. split; [|done]. clear -Hl. induction left as [|c left IH]; [done|]. simpl in Hl.
  apply app_nil in Hl as [-> Hl]. constructor; [unfold MAX_DOWNSTREAM_CHUNK; simpl; lia|by apply IH].
Qed.

(** Nothing but empty frames, and then the end. *)
Lemma read_silence (left : list (list byte)) (fuel : nat) (sid : Z) (e : string) (log : wire_trace) :
  is_u32 sid -> concat left = [] -> (length (frames_of sid left) < fuel)%nat ->
  exists m r' log', read_normal_loop fuel direct_init sid (Reader (frames_of sid left) e) log = Some (Err (ETransport m), r', log').
Proof.
  intros Hsid. revert fuel log. induction left as [|c left IH]; intros fuel log Hl Hf; destruct fuel as [|fuel]; try lia.
  - cbn. eauto.
  - simpl in Hl. apply app_nil in Hl as [-> Hl]. rewrite frames_of_cons in *. cbn [read_normal_loop].
    rewrite read_downstream_frame by (unfold MAX_DOWNSTREAM_CHUNK; simpl; done || lia). rewrite Z.eqb_refl. simpl negb. cbv iota.
    change (direct_push direct_init []) with (Ok (@None (list byte)) : Res (option (list byte)), direct_init). cbv iota beta.
    apply IH; [done|]. unfold phone_frame in Hf. len.
Qed.

(** A message takes bytes off the stream. *)
Lemma frames_of_length (sid : Z) (cs : list (list byte)) : (length (concat cs) <= length (frames_of sid cs))%nat.
Proof.
  induction cs as [|c cs IH]; [done|]. rewrite frames_of_cons. simpl. unfold phone_frame in *. len.
Qed.

Lemma says_shrinks (sid : Z) (bs body bs' : list byte) : says sid bs body bs' -> (length bs' < length bs)%nat.
Proof.
  intros (cs & -> & _ & Hc & _). pose proof (frames_of_length sid cs) as Hl. rewrite Hc in Hl. unfold prefixed in Hl. len.
Qed.

Section Wifi.
Context `{Crypto} `{ProtoCodec} `{Json State}.
Context (h : WifiTrustHandshake) (env : WifiEnv) (keys : SessionKeys).

(** *** The time of the dialog *)

Definition dialog_deadline : Z := we_started env + TRUST_WAIT_TIMEOUT.

(** A round starts and is answered in time when it leaves [bs] on the stream. *)
Definition in_time (round : nat) (bs : list byte) : Prop :=
  we_now env round < dialog_deadline /\ ar_left (we_arrivals env) (length bs) <= dialog_deadline.

(** The rounds of a dialog, each in time, from one on. *)
Fixpoint conversation (round : nat) (bs : list byte) (bodies : list (list byte)) (bs' : list byte) : Prop :=
  match bodies with
  | [] => bs = bs'
  | body :: bodies =>
      exists bs1, says WIFI_SID bs body bs1 /\ in_time round bs1 /\ conversation (S round) bs1 bodies bs'
  end.

Lemma conversation_left (round : nat) (left : list (list byte)) (bs body : list byte) (bodies : list (list byte)) (bs' : list byte) :
  concat left = [] -> conversation round bs (body :: bodies) bs' ->
  conversation round (frames_of WIFI_SID left ++ bs) (body :: bodies) bs'.
Proof. intros Hl (bs1 & Hs & Hc). exists bs1. split; [by apply says_left|done]. Qed.

(** What is left of a round in time. *)
Lemma round_deadline (round : nat) : we_now env round < dialog_deadline ->
  (saturating_sub dialog_deadline (we_now env round) =? 0) = false /\
  we_now env round + saturating_sub dialog_deadline (we_now env round) = dialog_deadline.
Proof. unfold saturating_sub. split; lia. Qed.

Lemma round_over (round : nat) : (saturating_sub dialog_deadline (we_now env round) =? 0) = false -> we_now env round < dialog_deadline.
Proof. unfold saturating_sub. lia. Qed.

(** ** Responses *)

Definition kind_of (r : SspHandShakeResponse02) : option SspHandShakeTrustType := h2r_trust_type r ≫= trust_type_try_from.

Definition key_fits (r : SspHandShakeResponse02) : Prop := forall k, h2r_derived_key r = Some k -> zlen k <= MAX_DERIVED_KEY.

(** The phone still waits for its user. *)
Definition waiting (r : SspHandShakeResponse02) : Prop :=
  h2r_result r = None /\ (wt_trust_remove h = true -> kind_of r <> Some TrustWaiting).

(** The phone grants access, or acknowledges a reset. *)
Definition granted (r : SspHandShakeResponse02) : Prop :=
  (exists result, h2r_result r = Some result /\ result <> "failed" /\ result <> "locked" /\ result <> "needauth" /\
     decrypt_handshake_result keys (bytes_of_string result) = Ok (bytes_of_string "ok")) \/
  (wt_trust_remove h = true /\ h2r_result r = None /\ kind_of r = Some TrustWaiting).

Definition revoked (r : SspHandShakeResponse02) : Prop := wt_trust_remove h = false /\ h2r_result r = Some "failed".

(** The last of the values present. *)
Definition last_some {A B} (f : A -> option B) (l : list A) (d : option B) : option B :=
  foldl (fun acc a => match f a with Some b => Some b | None => acc end) d l.

Definition info_after (i : WifiHandshakeInfo) (rs : list SspHandShakeResponse02) (kind : option SspHandShakeTrustType)
  (waited : bool) : WifiHandshakeInfo :=
  mkWifiInfo (wi_device_uuid i) (last_some h2r_device_name rs (wi_device_name i)) (wi_usb_serial i) (wi_apk_version i)
    (wi_apk_version_name i) (last_some h2r_derived_key rs (wi_derived_key i)) kind (wi_trust_waiting i || waited).

Lemma update_info_spec (r : SspHandShakeResponse02) (i i' : WifiHandshakeInfo) :
  update_info r i = Ok i' <-> key_fits r /\ i' = info_after i [r] (kind_of r) false.
Proof.
  unfold update_info, key_fits, info_after, last_some. cbn [foldl]. rewrite orb_false_r. split.
  - destruct (h2r_derived_key r) as [k|]; [destruct (Z.gtb_spec (zlen k) MAX_DERIVED_KEY); [done|]|];
      intros [= <-]; (split; [by intros k' [= <-]|done]).
  - intros [Hk ->]. destruct (h2r_derived_key r) as [k|]; [|done].
    destruct (Z.gtb_spec (zlen k) MAX_DERIVED_KEY); [specialize (Hk k eq_refl); lia|done].
Qed.

Lemma check_result_Ok (i i' : WifiHandshakeInfo) (result : string) :
  check_result keys i result = Ok i' <->
  i' = i /\ result <> "failed" /\ result <> "locked" /\ result <> "needauth" /\
  decrypt_handshake_result keys (bytes_of_string result) = Ok (bytes_of_string "ok").
Proof.
  unfold check_result. repeat (case_bool_decide; [naive_solver|]).
  destruct (decrypt_handshake_result keys _) as [clear|e]; [|naive_solver].
  case_bool_decide; naive_solver.
Qed.

Lemma check_response_granted (i i' : WifiHandshakeInfo) (r : SspHandShakeResponse02) :
  check_response h keys i r = Settles (Ok i') <-> granted r /\ key_fits r /\ i' = info_after i [r] (kind_of r) false.
Proof.
  unfold check_response, granted. destruct (update_info r i) as [i1|e] eqn:Eu.
  2: { split; [done|]. intros (_ & Hk & ->). assert (update_info r i = Ok (info_after i [r] (kind_of r) false)) as Hx
         by by apply update_info_spec. congruence. }
  apply update_info_spec in Eu as [Hk ->]. fold (kind_of r).
  destruct (wt_trust_remove h), (h2r_result r) as [result|]; try case_bool_decide;
    try (split; [intros [= Hc]; try (apply check_result_Ok in Hc); naive_solver
                |intros (Hg & _ & ->); f_equal; rewrite ?check_result_Ok; naive_solver]);
    naive_solver.
Qed.

Lemma check_response_waits (i i' : WifiHandshakeInfo) (r : SspHandShakeResponse02) :
  check_response h keys i r = Waits i' <->
  waiting r /\ key_fits r /\ i' = info_after i [r] (kind_of r) (negb (wt_trust_remove h)).
Proof.
  unfold check_response, waiting. destruct (update_info r i) as [i1|e] eqn:Eu.
  2: { split; [done|]. intros (_ & Hk & ->). assert (update_info r i = Ok (info_after i [r] (kind_of r) false)) as Hx
         by by apply update_info_spec. congruence. }
  apply update_info_spec in Eu as [Hk ->]. fold (kind_of r).
  destruct (wt_trust_remove h), (h2r_result r) as [result|]; try case_bool_decide;
    unfold set_waiting, info_after; cbn; rewrite ?orb_false_r, ?orb_true_r; naive_solver.
Qed.

Lemma check_response_revoked (i : WifiHandshakeInfo) (r : SspHandShakeResponse02) (res : Res WifiHandshakeInfo) :
  check_response h keys i r = Revoked res -> revoked r /\ res = Err trust_failed.
Proof.
  unfold check_response, revoked. destruct (update_info r i) as [i1|e]; [|done].
  destruct (wt_trust_remove h), (h2r_result r) as [result|]; try case_bool_decide; naive_solver.
Qed.

(** ** The loop *)

(** The responses of a dialog that ends in access. *)
Definition grants (waits : list SspHandShakeResponse02) (last : SspHandShakeResponse02) : Prop :=
  Forall waiting waits /\ granted last /\ Forall key_fits (waits ++ [last]).

Definition waited (waits : list SspHandShakeResponse02) : bool := negb (wt_trust_remove h) && bool_decide (waits <> []).

Lemma info_after_cons (i : WifiHandshakeInfo) (r last : SspHandShakeResponse02) (waits : list SspHandShakeResponse02) :
  info_after (info_after i [r] (kind_of r) (negb (wt_trust_remove h))) (waits ++ [last]) (kind_of last) (waited waits) =
  info_after i (r :: waits ++ [last]) (kind_of last) (waited (r :: waits)).
Proof.
  unfold info_after, waited; cbn. rewrite <- orb_assoc. f_equal.
  by destruct (wt_trust_remove h), (bool_decide _), (wi_trust_waiting i).
Qed.

Lemma trust_loop_total (fuel round : nat) (i : WifiHandshakeInfo) (r : reader) (log : wire_trace) :
  (length (rd_bytes r) < fuel)%nat -> yields (trust_loop h env keys fuel round i r log) is_Some.
Proof.
  revert round i r log. induction fuel as [|fuel IH]; intros round i r log Hf; [lia|]. cbn [trust_loop].
  case_match; [by apply yields_ret|].
  destruct (read_normal_direct_total WIFI_SID r log) as [[[body r1] log1] E]. rewrite E.
  destruct (await_until _ _ body) as [[body'|e]| |] eqn:Ea; [|by apply yields_ret..|by apply await_deadline in Ea].
  apply await_in_time in Ea as [<- _].
  destruct (decode_SspHandShakeResponse02 body') as [resp|e]; [|by apply yields_ret].
  destruct (check_response h keys i resp) as [i1|res|res].
  - apply IH. apply read_normal_direct_sound in E as [Hs%says_shrinks _]. lia.
  - by apply yields_ret.
  - apply yields_then. intros []. by apply yields_ret.
Qed.

(** The store is touched only when the phone has revoked the trust, and then fails. *)
Lemma trust_loop_sound (fuel round : nat) (i : WifiHandshakeInfo) (r : reader) (log : wire_trace) (w w' : world) (o : outcome (option (Res WifiHandshakeInfo * reader * wire_trace))) :
  trust_loop h env keys fuel round i r log w = (o, w') ->
  (w' = w \/ ((wt_trust_remove h = false /\ is_Some (wt_trust_store h)) /\ (o = Dead \/ exists r' log', o = Ret (Some (Err trust_failed, r', log'))))) /\
  forall i' r' log', o = Ret (Some (Ok i', r', log')) ->
    exists bodies waits last, conversation round (rd_bytes r) bodies (rd_bytes r') /\
      Forall2 (fun body resp => decode_SspHandShakeResponse02 body = Ok resp) bodies (waits ++ [last]) /\
      grants waits last /\ i' = info_after i (waits ++ [last]) (kind_of last) (waited waits).
Proof.
  revert round i r log. induction fuel as [|fuel IH]; intros round i r log; cbn [trust_loop].
  { intros [= <- <-]. split; [by left|done]. }
  fold dialog_deadline. destruct (saturating_sub _ _ =? 0) eqn:Hround; [by intros [= <- <-]; split; [left|]|].
  apply round_over in Hround. rewrite (proj2 (round_deadline round Hround)).
  destruct (read_normal_direct WIFI_SID r log) as [[[body r1] log1]|] eqn:E; [|intros [= <- <-]; split; [by left|done]].
  destruct (await_until _ _ body) as [[body'|e]| |] eqn:Ea; [|by intros [= <- <-]; split; [left|]..].
  apply await_in_time in Ea as [<- (t & [= <-] & Ht)].
  destruct (decode_SspHandShakeResponse02 body') as [resp|e] eqn:Ed; [|by intros [= <- <-]; split; [left|]].
  apply read_normal_direct_sound in E as [Hs _].
  destruct (check_response h keys i resp) as [i1|res|res] eqn:Ec.
  - intros [Hw Hok]%IH. split; [exact Hw|]. intros i' r' log' Ho.
    destruct (Hok i' r' log' Ho) as (bodies & waits & last & Hcv & Hd & (Hwt & Hg & Hk) & ->).
    apply check_response_waits in Ec as (Hr & Hkr & ->). exists (body' :: bodies), (resp :: waits), last.
    split_and!; [by exists (rd_bytes r1)|by constructor| |apply info_after_cons].
    split_and!; [by constructor|done|by constructor].
  - intros [= <- <-]. split; [by left|]. intros i' r' log' [= -> -> ->].
    apply check_response_granted in Ec as (Hg & Hk & ->). exists [body'], [], resp.
    split_and!; [by exists (rd_bytes r')|by repeat constructor| |].
    + split_and!; [constructor|done|by repeat constructor].
    + unfold waited. by rewrite bool_decide_eq_false_2, andb_false_r by (by intros []).
  - apply check_response_revoked in Ec as [[Hrm _] ->]. unfold forget_trust.
    destruct (wt_trust_store h) as [store|]; [|by intros [= <- <-]; split; [left|]]. unfold mbind, io_bind.
    destruct (remove_trust store _ _ w) as [[a|] w1]; intros [= <- <-]; (split; [right; split; [by eauto|]|done]); eauto.
Qed.

(** One round in time: the message is read, and leaves empty frames at most. *)
Lemma read_in_time (round : nat) (bs body bs1 : list byte) (e : string) (log : wire_trace) :
  comes_in_order (we_arrivals env) -> says WIFI_SID bs body bs1 -> in_time round bs1 ->
  exists left log1, concat left = [] /\
    read_normal_direct WIFI_SID (Reader bs e) log = Some (Ok body, Reader (frames_of WIFI_SID left ++ bs1) e, log1) /\
    await_until (Some dialog_deadline) (answered_at (we_arrivals env) (Ok body : Res (list byte)) (Reader (frames_of WIFI_SID left ++ bs1) e))
      (Ok body : Res (list byte)) = InTime (Ok body).
Proof.
  intros Ho Hs [_ Ht]. destruct (read_normal_direct_complete WIFI_SID bs body bs1 e log wifi_sid_u32 Hs) as (left & log1 & Hl & Hrd).
  exists left, log1. split_and!; [done|done|]. apply await_in_time. split; [done|]. eexists. split; [reflexivity|].
  etrans; [|exact Ht]. apply Ho. cbn [rd_bytes]. rewrite length_app. lia.
Qed.

Lemma trust_loop_complete (waits : list SspHandShakeResponse02) (last : SspHandShakeResponse02) (bodies : list (list byte))
    (fuel round : nat) (i : WifiHandshakeInfo) (bs bs' : list byte) (e : string) (log : wire_trace) (w : world) :
  comes_in_order (we_arrivals env) -> conversation round bs bodies bs' ->
  Forall2 (fun body resp => decode_SspHandShakeResponse02 body = Ok resp) bodies (waits ++ [last]) ->
  grants waits last -> (length bs < fuel)%nat ->
  exists left log', concat left = [] /\
    trust_loop h env keys fuel round i (Reader bs e) log w =
      (Ret (Some (Ok (info_after i (waits ++ [last]) (kind_of last) (waited waits)), Reader (frames_of WIFI_SID left ++ bs') e, log')), w).
Proof.
  intros Ho. revert bodies fuel round i bs log. induction waits as [|resp waits IH]; intros bodies fuel round i bs log Hc Hd Hg Hf.
  all: destruct fuel as [|fuel]; [lia|]; cbn [trust_loop]; cbn [app] in *; fold dialog_deadline.
  all: apply Forall2_cons_inv_r in Hd as (body & bodies' & Hd & Hds & ->); destruct Hc as (bs1 & Hs & Ht & Hc).
  all: destruct (round_deadline round (proj1 Ht)) as [-> ->].
  all: destruct (read_in_time round bs body bs1 e log Ho Hs Ht) as (left & log1 & Hl & Hrd & Haw).
  all: rewrite Hrd, Haw, Hd.
  - apply Forall2_nil_inv_r in Hds as ->. simpl in Hc. subst bs1. destruct Hg as (_ & Hg & Hk).
    assert (check_response h keys i last = Settles (Ok (info_after i [last] (kind_of last) false))) as ->.
    { apply check_response_granted. split_and!; [done| |done]. by apply Forall_inv in Hk. }
    exists left, log1. split; [done|]. unfold waited. by rewrite (bool_decide_eq_false_2 ([] <> [])), andb_false_r by (by intros []).
  - destruct Hg as (Hw & Hg & Hk). apply Forall_cons in Hw as [Hw Hws]. apply Forall_cons in Hk as [Hk Hks].
    assert (check_response h keys i resp = Waits (info_after i [resp] (kind_of resp) (negb (wt_trust_remove h)))) as ->.
    { by apply check_response_waits. }
    apply says_shrinks in Hs as Hlen. rewrite <- info_after_cons.
    assert (exists body2 rest2, bodies' = body2 :: rest2) as (body2 & rest2 & ->).
    { destruct bodies'; [|by eauto]. apply Forall2_length in Hds. rewrite length_app in Hds. simpl in Hds. lia. }
    assert (length (frames_of WIFI_SID left ++ bs1) < length bs)%nat as Hlen2.
    { by apply read_normal_direct_sound in Hrd as [Hrd%says_shrinks _]. }
    apply (IH (body2 :: rest2)); [by apply conversation_left|done|by split_and!|lia].
Qed.

(** A phone that only ever waits and then says nothing more, until after the deadline or for good: the
    dialog ends as timed out. *)
Lemma trust_loop_silent (waits : list SspHandShakeResponse02) (bodies left : list (list byte)) (fuel round : nat)
    (i : WifiHandshakeInfo) (bs : list byte) (e : string) (log : wire_trace) (w : world) :
  comes_in_order (we_arrivals env) -> silent_until (we_arrivals env) dialog_deadline ->
  concat left = [] -> conversation round bs bodies [] ->
  Forall2 (fun body resp => decode_SspHandShakeResponse02 body = Ok resp) bodies waits ->
  Forall waiting waits -> Forall key_fits waits -> (length (frames_of WIFI_SID left ++ bs) < fuel)%nat ->
  exists r' log', trust_loop h env keys fuel round i (Reader (frames_of WIFI_SID left ++ bs) e) log w =
    (Ret (Some (Err (ETimeout (Msg "handshake.trust_timeout" [])), r', log')), w).
Proof.
  intros Ho Hsil. revert bodies left fuel round i bs log.
  induction waits as [|resp waits IH]; intros bodies left fuel round i bs log Hl Hc Hd Hw Hk Hf.
  all: destruct fuel as [|fuel]; [lia|]; cbn [trust_loop]; fold dialog_deadline.
  - apply Forall2_nil_inv_r in Hd as ->. simpl in Hc. subst bs. rewrite app_nil_r in *.
    destruct (saturating_sub _ _ =? 0) eqn:Hround; [by eexists _, _|]. rewrite (proj2 (round_deadline round (round_over round Hround))).
    unfold read_normal_direct. cbn [rd_bytes].
    destruct (read_silence left (S (length (frames_of WIFI_SID left))) WIFI_SID e log wifi_sid_u32 Hl) as (m & r' & log' & ->); [lia|].
    cbn [answered_at]. unfold silent_until in Hsil. unfold await_until. destruct (ar_end _) as [t|]; [|by eexists _, _].
    replace (t <=? dialog_deadline) with false by lia. by eexists _, _.
  - apply Forall2_cons_inv_r in Hd as (body & bodies' & Hd & Hds & ->).
    destruct (conversation_left round left bs body bodies' [] Hl Hc) as (bs1 & Hs & Ht & Hc').
    destruct (round_deadline round (proj1 Ht)) as [-> ->].
    destruct (read_in_time round _ body bs1 e log Ho Hs Ht) as (left' & log1 & Hl' & Hrd & Haw). rewrite Hrd, Haw, Hd.
    apply Forall_cons in Hw as [Hw Hws]. apply Forall_cons in Hk as [Hk Hks].
    assert (check_response h keys i resp = Waits (info_after i [resp] (kind_of resp) (negb (wt_trust_remove h)))) as ->
      by by apply check_response_waits.
    apply (IH bodies'); try done. apply read_normal_direct_sound in Hrd as [Hrd%says_shrinks _]. cbn [rd_bytes] in Hrd. lia.
Qed.

End Wifi.

(** ** The handshake *)

Section Establish.
Context `{Crypto} `{ProtoCodec} `{Json State}.
Context (h : WifiTrustHandshake) (request_timeout : Z) (env : WifiEnv).

(** The instant by which the first response has to be there. *)
Definition response01_deadline : Z := we_asked env + request_timeout.

(** The phone's first answer, in time. *)
Definition introduces (bs : list byte) (r01 : SspHandShakeResponse01) (device_uuid : string) (bs1 : list byte) : Prop :=
  exists body1, says WIFI_SID bs body1 bs1 /\ ar_left (we_arrivals env) (length bs1) <= response01_deadline /\
    decode_SspHandShakeResponse01 body1 = Ok r01 /\ h1r_device_uuid r01 = Some device_uuid.

(** What the phone says in a handshake that ends in access, and that it says it in time. *)
Definition admits (keys : SessionKeys) (bs : list byte) (r01 : SspHandShakeResponse01) (device_uuid : string)
  (waits : list SspHandShakeResponse02) (last : SspHandShakeResponse02) (bs' : list byte) : Prop :=
  exists bs1 bodies,
    introduces bs r01 device_uuid bs1 /\ conversation env 0 bs1 bodies bs' /\
    Forall2 (fun body resp => decode_SspHandShakeResponse02 body = Ok resp) bodies (waits ++ [last]) /\
    grants h keys waits last.

(** The two requests, as frames. *)
Definition requests (keys : SessionKeys) (device_uuid : string) (f1 f2 : list byte) : Prop :=
  encode_upstream WIFI_SID 0 (encode_SspHandShakeRequest01 (request01 h env keys)) = Ok f1 /\
  encode_upstream WIFI_SID 0 (encode_SspHandShakeRequest02 (request02 h device_uuid)) = Ok f2.

Definition admitted_info (r01 : SspHandShakeResponse01) (device_uuid : string) (waits : list SspHandShakeResponse02)
  (last : SspHandShakeResponse02) : WifiHandshakeInfo :=
  info_after (info_of device_uuid r01) (waits ++ [last]) (kind_of last) (waited h waits).

Lemma send_unsigned_Ok (w w' : writer) (payload : list byte) (note : string) (log log' : wire_trace) (u : unit) :
  send_unsigned w payload note log = (Ok u, w', log') ->
  exists frame, encode_upstream WIFI_SID 0 payload = Ok frame /\ wr_bytes w' = wr_bytes w ++ frame.
Proof.
  unfold send_unsigned, write_upstream. destruct (encode_upstream WIFI_SID 0 payload) as [f|]; [|done].
  destruct (wr_fail w); [done|]. destruct (wr_flush_fail w); [done|]. intros [= _ <- _]. by exists f.
Qed.

Lemma send_unsigned_working (w : writer) (payload frame : list byte) (note : string) (log : wire_trace) :
  encode_upstream WIFI_SID 0 payload = Ok frame -> wr_fail w = None -> wr_flush_fail w = None ->
  send_unsigned w payload note log = (Ok (), Writer (wr_bytes w ++ frame) None None, log ++ [(Out, note, frame)]).
Proof. intros He Hw Hf. unfold send_unsigned, write_upstream. by rewrite He, Hw, Hf. Qed.

Lemma wifi_establish_total (w : writer) (r : reader) (log : wire_trace) : yields (wifi_establish h request_timeout env w r log) is_Some.
Proof.
  unfold wifi_establish. destruct (SessionKeys_generate _) as [keys|e]; [|by apply yields_ret].
  destruct (send_unsigned w _ _ _) as [[[[]|e] w1] log1]; [|by apply yields_ret].
  destruct (read_normal_direct_total WIFI_SID r log1) as [[[body r1] log2] ->].
  destruct (await_until _ _ body) as [[b|e]| |] eqn:Ea; [|by apply yields_ret..|by apply await_deadline in Ea].
  destruct (decode_SspHandShakeResponse01 b) as [r01|e]; [|by apply yields_ret].
  destruct (h1r_device_uuid r01) as [uuid|]; [|by apply yields_ret].
  destruct (send_unsigned w1 _ _ _) as [[[[]|e] w2] log3]; [|by apply yields_ret].
  eapply yields_bind; [apply trust_loop_total; lia|]. intros o [[[res r2] log4] ->]. by apply yields_ret.
Qed.

Lemma wifi_establish_sound (w : writer) (r : reader) (log : wire_trace) (wd wd' : world)
    (o : outcome (option (Res HandshakeOutcome * writer * reader * wire_trace))) :
  wifi_establish h request_timeout env w r log wd = (o, wd') ->
  (wd' = wd \/ ((wt_trust_remove h = false /\ is_Some (wt_trust_store h)) /\
                (o = Dead \/ exists w' r' log', o = Ret (Some (Err trust_failed, w', r', log'))))) /\
  forall keys info w' r' log', o = Ret (Some (Ok (keys, info), w', r', log')) ->
    SessionKeys_generate (we_generated env) = Ok keys /\
    exists r01 device_uuid waits last f1 f2,
      admits keys (rd_bytes r) r01 device_uuid waits last (rd_bytes r') /\
      info = admitted_info r01 device_uuid waits last /\
      requests keys device_uuid f1 f2 /\ wr_bytes w' = wr_bytes w ++ f1 ++ f2.
Proof.
  unfold wifi_establish. destruct (SessionKeys_generate _) as [keys|e] eqn:Ek; [|by intros [= <- <-]; split; [left|]].
  destruct (send_unsigned w _ _ _) as [[[[]|e] w1] log1] eqn:E1; [|by intros [= <- <-]; split; [left|]].
  apply send_unsigned_Ok in E1 as (f1 & Hf1 & Hw1).
  destruct (read_normal_direct WIFI_SID r log1) as [[[body r1] log2]|] eqn:E; [|by intros [= <- <-]; split; [left|]].
  destruct (await_until _ _ body) as [[b|e]| |] eqn:Ea; [|by intros [= <- <-]; split; [left|]..].
  apply await_in_time in Ea as [<- (t & [= <-] & Ht)]. apply read_normal_direct_sound in E as [Hs _].
  destruct (decode_SspHandShakeResponse01 b) as [r01|e] eqn:Ed; [|by intros [= <- <-]; split; [left|]].
  destruct (h1r_device_uuid r01) as [uuid|] eqn:Eu; [|by intros [= <- <-]; split; [left|]].
  destruct (send_unsigned w1 _ _ _) as [[[[]|e] w2] log3] eqn:E2; [|by intros [= <- <-]; split; [left|]].
  apply send_unsigned_Ok in E2 as (f2 & Hf2 & Hw2).
  unfold mbind at 1, io_bind at 1. destruct (trust_loop h env keys _ 0 _ r1 log3 wd) as [o1 wd1] eqn:El.
  destruct (trust_loop_sound h env keys _ _ _ _ _ _ _ _ El) as [Hwd Hok].
  destruct o1 as [o1|]; intros [= <- <-].
  2: { split; [|done]. destruct Hwd as [|[Hx _]]; [by left|right; eauto]. }
  split.
  { destruct Hwd as [|[Hx [Hy|(r' & log' & [= ->])]]]; [by left|done|]. right. split; [done|]. right. eauto. }
  intros keys' info w' r' log' Ho. destruct o1 as [[[[i|e] r2] log4]|]; [|done..].
  injection Ho as -> -> -> -> ->. split; [done|].
  destruct (Hok _ _ _ eq_refl) as (bodies & waits & last & Hc & Hd & Hg & ->).
  exists r01, uuid, waits, last, f1, f2. split_and!; [|done|done|by rewrite Hw2, Hw1, app_assoc].
  exists (rd_bytes r1), bodies. split_and!; [by exists b|done..].
Qed.

(** The part up to the dialog, when the phone introduces itself. *)
Lemma wifi_introduced (keys : SessionKeys) (r01 : SspHandShakeResponse01) (device_uuid : string) (f1 f2 bs bs1 : list byte)
    (e : string) (w : writer) (log : wire_trace) (wd : world) :
  SessionKeys_generate (we_generated env) = Ok keys -> comes_in_order (we_arrivals env) ->
  introduces bs r01 device_uuid bs1 -> requests keys device_uuid f1 f2 -> wr_fail w = None -> wr_flush_fail w = None ->
  exists left log1, concat left = [] /\
    wifi_establish h request_timeout env w (Reader bs e) log wd =
      (let* outcome := trust_loop h env keys (S (length (frames_of WIFI_SID left ++ bs1))) 0 (info_of device_uuid r01)
                         (Reader (frames_of WIFI_SID left ++ bs1) e) log1 in
       mret (match outcome with
             | None => None
             | Some (res, r, log) =>
                 Some ((let? info := res in Ok (keys, info)), Writer (wr_bytes w ++ f1 ++ f2) None None, r, log)
             end)) wd.
Proof.
  intros Hk Ho (body1 & Hs & Ht & Hd1 & Hu) [Hf1 Hf2] Hw Hfl.
  unfold wifi_establish. rewrite Hk, (send_unsigned_working w _ f1 _ _ Hf1 Hw Hfl).
  destruct (read_normal_direct_complete WIFI_SID bs body1 bs1 e (log ++ [(Out, "wire.handshake_request_01", f1)]) wifi_sid_u32 Hs)
    as (left & log1 & Hl & ->).
  rewrite (proj2 (await_in_time _ _ _ (Ok body1))).
  2: { split; [done|]. eexists. split; [reflexivity|]. etrans; [|exact Ht]. apply Ho. cbn [rd_bytes]. rewrite length_app. lia. }
  rewrite Hd1, Hu, (send_unsigned_working _ _ f2 _ _ Hf2) by done. cbn [wr_bytes rd_bytes].
  exists left, (log1 ++ [(Out, "wire.handshake_request_02", f2)]). split; [done|]. by rewrite app_assoc.
Qed.

Lemma wifi_establish_complete (keys : SessionKeys) (r01 : SspHandShakeResponse01) (device_uuid : string)
    (waits : list SspHandShakeResponse02) (last : SspHandShakeResponse02) (f1 f2 bs bs' : list byte) (e : string)
    (w : writer) (log : wire_trace) (wd : world) :
  SessionKeys_generate (we_generated env) = Ok keys -> comes_in_order (we_arrivals env) ->
  admits keys bs r01 device_uuid waits last bs' -> requests keys device_uuid f1 f2 -> wr_fail w = None -> wr_flush_fail w = None ->
  exists left log', concat left = [] /\
    wifi_establish h request_timeout env w (Reader bs e) log wd =
      (Ret (Some (Ok (keys, admitted_info r01 device_uuid waits last), Writer (wr_bytes w ++ f1 ++ f2) None None,
                  Reader (frames_of WIFI_SID left ++ bs') e, log')), wd).
Proof.
  intros Hk Ho (bs1 & bodies & Hi & Hc & Hd & Hg) Hr Hw Hfl.
  destruct (wifi_introduced keys r01 device_uuid f1 f2 bs bs1 e w log wd Hk Ho Hi Hr Hw Hfl) as (left & log1 & Hl & ->).
  assert (exists body2 rest2, bodies = body2 :: rest2) as (body2 & rest2 & ->).
  { destruct bodies; [|by eauto]. apply Forall2_length in Hd. rewrite length_app in Hd. simpl in Hd. lia. }
  destruct (trust_loop_complete h env keys waits last (body2 :: rest2) (S (length (frames_of WIFI_SID left ++ bs1))) 0
    (info_of device_uuid r01) (frames_of WIFI_SID left ++ bs1) bs' e log1 wd)
    as (left2 & log2 & Hl2 & Hloop); [done|by apply conversation_left|done|done|lia|].
  exists left2, log2. split; [done|]. unfold mbind, io_bind. by rewrite Hloop.
Qed.

(** A phone that says nothing at all. *)
Lemma wifi_establish_unanswered (keys : SessionKeys) (f1 : list byte) (e : string) (w : writer) (log : wire_trace) (wd : world) :
  SessionKeys_generate (we_generated env) = Ok keys -> silent_until (we_arrivals env) response01_deadline ->
  encode_upstream WIFI_SID 0 (encode_SspHandShakeRequest01 (request01 h env keys)) = Ok f1 -> wr_fail w = None -> wr_flush_fail w = None ->
  exists w' r' log', wifi_establish h request_timeout env w (Reader [] e) log wd =
    (Ret (Some (Err (ETimeout (Msg "handshake.wifi_response01_timeout" [])), w', r', log')), wd).
Proof.
  intros Hk Hsil Hf1 Hw Hfl. unfold wifi_establish. rewrite Hk, (send_unsigned_working w _ f1 _ _ Hf1 Hw Hfl).
  destruct (read_silence [] 1 WIFI_SID e (log ++ [(Out, "wire.handshake_request_01", f1)]) wifi_sid_u32) as (m & r' & log' & E); [done|simpl; lia|].
  unfold read_normal_direct. cbn [rd_bytes length]. change (@nil byte) with (frames_of WIFI_SID []). rewrite E.
  cbn [answered_at]. fold response01_deadline. unfold silent_until in Hsil. unfold await_until.
  destruct (ar_end _) as [t|]; [|by eexists _, _, _]. replace (t <=? response01_deadline) with false by lia. by eexists _, _, _.
Qed.

End Establish.

(** ** Properties *)

(** C33: the handshake always ends, and it succeeds exactly when the phone grants access in time.
    It comes back whatever the phone sends and whenever, also when it keeps the stream open and says
    nothing more: a wait that nothing ends would not come back.  When it succeeds, the stream held a
    first response with a device id, there within the timeout of requests; then any number of
    responses that still wait and one that grants (an encrypted "ok", or for a reset the waiting
    acknowledgement), each there before the dialog was 120 seconds old, with no key over 256 bytes;
    the info is the device id with the last name and key the phone gave; and exactly the two requests
    were sent.  In turn, every such conversation succeeds, when the bytes come in order.  A phone
    that never answers ends in the timeout of the first response, one that waits and then falls
    silent in that of the dialog.  The trust store is touched only by a handshake that has one,
    resets nothing and fails as revoked. *)
Theorem wifi_handshake_exact `{Crypto} `{ProtoCodec} `{Json State} (h : WifiTrustHandshake) (request_timeout : Z) (env : WifiEnv)
    (w : writer) (r : reader) (log : wire_trace) (wd : world) :
  (let '(o, wd') := wifi_establish h request_timeout env w r log wd in
   o <> Ret None /\
   (wd' = wd \/ (wt_trust_remove h = false /\ is_Some (wt_trust_store h) /\
                 (o = Dead \/ exists w' r' log', o = Ret (Some (Err trust_failed, w', r', log'))))) /\
   forall keys info w' r' log', o = Ret (Some (Ok (keys, info), w', r', log')) ->
     SessionKeys_generate (we_generated env) = Ok keys /\
     exists r01 device_uuid waits last f1 f2,
       admits h request_timeout env keys (rd_bytes r) r01 device_uuid waits last (rd_bytes r') /\
       info = admitted_info h r01 device_uuid waits last /\
       requests h env keys device_uuid f1 f2 /\ wr_bytes w' = wr_bytes w ++ f1 ++ f2) /\
  (forall keys, SessionKeys_generate (we_generated env) = Ok keys -> comes_in_order (we_arrivals env) ->
   wr_fail w = None -> wr_flush_fail w = None ->
   (forall r01 device_uuid waits last f1 f2 bs',
      admits h request_timeout env keys (rd_bytes r) r01 device_uuid waits last bs' -> requests h env keys device_uuid f1 f2 ->
      exists left log', concat left = [] /\
        wifi_establish h request_timeout env w r log wd =
          (Ret (Some (Ok (keys, admitted_info h r01 device_uuid waits last), Writer (wr_bytes w ++ f1 ++ f2) None None,
                      Reader (frames_of WIFI_SID left ++ bs') (rd_end r), log')), wd)) /\
   (forall f1, encode_upstream WIFI_SID 0 (encode_SspHandShakeRequest01 (request01 h env keys)) = Ok f1 ->
      rd_bytes r = [] -> silent_until (we_arrivals env) (response01_deadline request_timeout env) ->
      exists w' r' log', wifi_establish h request_timeout env w r log wd =
        (Ret (Some (Err (ETimeout (Msg "handshake.wifi_response01_timeout" [])), w', r', log')), wd)) /\
   (forall r01 device_uuid bs1 bodies waits f1 f2,
      introduces request_timeout env (rd_bytes r) r01 device_uuid bs1 -> requests h env keys device_uuid f1 f2 ->
      conversation env 0 bs1 bodies [] -> Forall2 (fun body resp => decode_SspHandShakeResponse02 body = Ok resp) bodies waits ->
      Forall (waiting h) waits -> Forall key_fits waits -> silent_until (we_arrivals env) (dialog_deadline env) ->
      exists w' r' log', wifi_establish h request_timeout env w r log wd =
        (Ret (Some (Err (ETimeout (Msg "handshake.trust_timeout" [])), w', r', log')), wd))).
Proof.
  split.
  - destruct (wifi_establish h request_timeout env w r log wd) as [o wd'] eqn:E. split_and!.
    + intros ->. apply (wifi_establish_total h request_timeout env w r log) in E. by destruct E.
    + destruct (wifi_establish_sound h request_timeout env w r log wd wd' o E) as [[|[[? ?] ?]] _]; [by left|by right].
    + by apply (wifi_establish_sound h request_timeout env w r log wd wd' o E).
  - intros keys Hk Ho Hw Hf. destruct r as [bs e]. cbn [rd_bytes rd_end]. split_and!.
    + intros r01 uuid waits last f1 f2 bs' Ha Hr. by eapply wifi_establish_complete.
    + intros f1 Hf1 -> Hs. by eapply wifi_establish_unanswered.
    + intros r01 uuid bs1 bodies waits f1 f2 Hi Hr Hc Hd Hwt Hkf Hs.
      destruct (wifi_introduced h request_timeout env keys r01 uuid f1 f2 bs bs1 e w log wd Hk Ho Hi Hr Hw Hf) as (left & log1 & Hl & ->).
      destruct (trust_loop_silent h env keys waits bodies left (S (length (frames_of WIFI_SID left ++ bs1))) 0 (info_of uuid r01) bs1 e
        log1 wd Ho Hs Hl Hc Hd Hwt Hkf) as (r' & log' & Hloop); [lia|].
      unfold mbind, io_bind. rewrite Hloop. by eexists _, _, _.
Qed.

Definition sample_frames_of (bodies : list (list byte)) : list byte :=
  frames_of WIFI_SID (prefixed <$> bodies).

Definition sample_env : @WifiEnv toy_crypto :=
  @mkWifiEnv toy_crypto (Ok [x01]) "host" 7 0 0 (fun k => Z.of_nat k * 1000) (mkArrivals (fun left => 9000 - Z.of_nat left) None) "new".

Lemma sample_in_order : comes_in_order (@we_arrivals toy_crypto sample_env).
Proof. intros m n Hmn. cbn. lia. Qed.

(** The phone answers with its id, waits, hands out a key, and says "ok". *)
Definition sample_stream : reader := Reader (sample_frames_of [[x70]; [x01; x01]; [x00; x2a; x2b]; [x6f; x6b; x20]]) "eof".

Lemma sample_says (body bs' : list byte) : (length body < 100)%nat -> says WIFI_SID (phone_frame WIFI_SID (prefixed body) ++ bs') body bs'.
Proof.
  intros Hl. exists [prefixed body]. split_and!.
  - unfold frames_of. simpl. by rewrite app_nil_r.
  - constructor; [|done]. unfold MAX_DOWNSTREAM_CHUNK, prefixed. autorewrite with hs_len. lia.
  - simpl. by rewrite app_nil_r.
  - unfold MAX_HANDSHAKE_RESPONSE. lia.
Qed.

(** It does, and a phone that waits and then stays silent ends in the timeout of the dialog. *)
Lemma wifi_handshake_exact_witness :
  (exists w' r' log',
    @wifi_establish toy_crypto toy_codec toy_json (wifi_new "host" ∅) 30000 sample_env (Writer [] None None) sample_stream []
      (mkWorld ∅ [] []) =
    (Ret (Some (Ok (@mkSessionKeys toy_crypto [x01] [x01],
       mkWifiInfo "p" None None None None (Some [x2a; x2b]) None true), w', r', log')), mkWorld ∅ [] [])) /\
  (exists w' r' log',
    @wifi_establish toy_crypto toy_codec toy_json (wifi_new "host" ∅) 30000 sample_env (Writer [] None None)
      (Reader (sample_frames_of [[x70]; [x01; x01]]) "eof") [] (mkWorld ∅ [] []) =
    (Ret (Some (Err (ETimeout (Msg "handshake.trust_timeout" [])), w', r', log')), mkWorld ∅ [] [])).
Proof.
  set (resp := fun bs => match @decode_SspHandShakeResponse02 toy_codec bs with Ok r => r | Err _ => mkSspHandShakeResponse02 None None None None None None end).
  set (r01 := mkSspHandShakeResponse01 None None None None None None (Some "p") None None None None).
  split.
  - destruct (@wifi_handshake_exact toy_crypto toy_codec toy_json (wifi_new "host" ∅) 30000 sample_env (Writer [] None None)
      sample_stream [] (mkWorld ∅ [] [])) as [_ Hc].
    destruct (Hc (@mkSessionKeys toy_crypto [x01] [x01]) eq_refl sample_in_order eq_refl eq_refl) as (Hok & _).
    edestruct (Hok r01 "p" [resp [x01; x01]; resp [x00; x2a; x2b]] (resp [x6f; x6b; x20])) as (left & log' & _ & E);
      [|split; reflexivity|].
    + eexists _, [[x01; x01]; [x00; x2a; x2b]; [x6f; x6b; x20]]. split.
      { exists [x70]. split; [apply sample_says; vm_compute; lia|]. split; [vm_compute; discriminate|split; reflexivity]. }
      split.
      { eexists. split; [apply sample_says; vm_compute; lia|]. split; [split; vm_compute; [reflexivity|discriminate]|].
        eexists. split; [apply sample_says; vm_compute; lia|]. split; [split; vm_compute; [reflexivity|discriminate]|].
        eexists. split; [apply sample_says; vm_compute; lia|]. split; [split; vm_compute; [reflexivity|discriminate]|]. reflexivity. }
      split; [repeat constructor|]. split_and!.
      * repeat constructor; cbn; discriminate.
      * left. eexists. split; [reflexivity|]. split_and!; [done..|reflexivity].
      * repeat constructor; intros k; cbn; intros [= <-]; unfold MAX_DERIVED_KEY; simpl; lia.
    + eexists _, _, _. exact E.
  - destruct (@wifi_handshake_exact toy_crypto toy_codec toy_json (wifi_new "host" ∅) 30000 sample_env (Writer [] None None)
      (Reader (sample_frames_of [[x70]; [x01; x01]]) "eof") [] (mkWorld ∅ [] [])) as [_ Hc].
    destruct (Hc (@mkSessionKeys toy_crypto [x01] [x01]) eq_refl sample_in_order eq_refl eq_refl) as (_ & _ & Hsilent).
    eapply (Hsilent r01 "p" _ [[x01; x01]] [resp [x01; x01]]); [|split; reflexivity| |repeat constructor|..].
    + exists [x70]. split; [apply sample_says; vm_compute; lia|]. split; [vm_compute; discriminate|split; reflexivity].
    + eexists. split; [apply (sample_says [x01; x01] []); vm_compute; lia|]. split; [split; vm_compute; [reflexivity|discriminate]|]. reflexivity.
    + repeat constructor; cbn; discriminate.
    + repeat constructor; intros k; cbn; discriminate.
    + exact I.
Defined.

Section Callers.
Context `{Crypto} `{ProtoCodec} `{Json State} `{!JsonRoundTrip State}.
Context (store : StateStore) (dir : path) (HL : state_layout store dir).
Context (Htotal : forall s : State, exists bytes, to_json s = Ok bytes).



(** A reset on a working disk leaves the stored state alone. *)
Lemma reset_core_keeps (f : fs) (host : string) (records : gmap string TrustRecord) (uuid : string) (name : option string)
    (limit : Z) (env : WifiEnv) (close : Res unit) (w : writer) (r : reader) (log : wire_trace) (rs : list Z) :
  dir_ready dir f -> holds_map store f (Some (host, records)) ->
  exists rs1,
    reset_wifi_trust_core store uuid name limit env close w r log (mkWorld f [] rs) =
    (let '(o, wd') := wifi_establish (with_host_name name (new_with_trust_remove host)) limit env w r log (mkWorld f [] rs1) in
     (match o with
      | Dead => Dead
      | Ret None => Ret None
      | Ret (Some (Err e, w, _, _)) => Ret (Some (Err e, w))
      | Ret (Some (Ok (_, info), w, _, _)) =>
          Ret (Some (if bool_decide (wi_device_uuid info = uuid) then close
                     else Err (EHandshake (Msg "trust.reset_device_mismatch" [wi_device_uuid info; uuid])), w))
      end, wd')).
Proof.
  intros Hd Hm. destruct Hm as (bytes & Hf & Hb). unfold reset_wifi_trust_core.
  pose proof (runs_load store (we_new_uuid env) f bytes Hf) as Hr. unfold parsed in Hr.
  rewrite (json_round_trip _ _ Hb) in Hr. cbn in Hr.
  destruct (Hr rs) as [rs1 E1]. exists rs1. rewrite (clean_bind _ _ _ _ _ E1). cbv beta iota. cbn [sta_host_uuid].
  unfold mbind at 1, io_bind at 1. destruct (wifi_establish _ _ env w r log _) as [o wd1].
  destruct o as [[[[[[[keys1 info1]|e] w1] r1] log1]|]|]; [|done..]. case_bool_decide; [|done]. by destruct close.
Qed.

End Callers.







(** What a reset of the trust of a phone really does.  The request to forget this host
    is sent before the device id is compared: a phone with another id that acknowledges it
    has been sent the request in full, and only then the reset fails with the mismatch.
    And no reset, successful or not, removes the local record: the disk is left as it was. *)
Theorem reset_forgets_before_comparing `{Crypto} `{ProtoCodec} `{Json State} `{!JsonRoundTrip State} (store : StateStore)
    (dir : path) (f : fs) (host uuid : string) (records : gmap string TrustRecord) (name : option string) (limit : Z) (env : WifiEnv)
    (close : Res unit) (w : writer) (r : reader) (log : wire_trace) (rs : list Z) :
  state_layout store dir -> dir_ready dir f -> holds_map store f (Some (host, records)) -> trim uuid <> "" ->
  (let '(o, wd') := reset_wifi_trust store ("phone:" +:+ uuid) name limit env close w r log (mkWorld f [] rs) in
   w_fs wd' = f) /\
  (let h := with_host_name name (new_with_trust_remove host) in
   forall keys r01 device_uuid waits last f1 f2 bs',
     SessionKeys_generate (we_generated env) = Ok keys -> comes_in_order (we_arrivals env) ->
     admits h limit env keys (rd_bytes r) r01 device_uuid waits last bs' ->
     requests h env keys device_uuid f1 f2 -> wr_fail w = None -> wr_flush_fail w = None -> device_uuid <> uuid ->
     exists wd',
       h2q_trust_type (request02 h device_uuid) = Some (trust_type_value TrustRemove) /\
       reset_wifi_trust store ("phone:" +:+ uuid) name limit env close w r log (mkWorld f [] rs) =
         (Ret (Some (Err (from_core_error (EHandshake (Msg "trust.reset_device_mismatch" [device_uuid; uuid])) "trust.reset"),
                     Writer (wr_bytes w ++ f1 ++ f2) None None)), wd')).
Proof.
  intros HL Hd Hm Hu.
  assert (parse_phone_device_id ("phone:" +:+ uuid) = Ok uuid) as Hparse.
  { unfold parse_phone_device_id. assert (str_strip_prefix "phone:" ("phone:" +:+ uuid) = Some uuid) as -> by by apply str_strip_prefix_spec.
    by rewrite bool_decide_eq_false_2. }
  unfold reset_wifi_trust. rewrite Hparse.
  destruct (reset_core_keeps store dir f host records uuid name limit env close w r log rs Hd Hm) as [rs1 Hcore].
  unfold mbind, io_bind. rewrite Hcore. split.
  - destruct (wifi_establish _ _ env w r log _) as [o wd'] eqn:Ew.
    apply wifi_establish_sound in Ew as [[-> |[[Hc _] _]] _]; [|done].
    by destruct o as [[[[[[[keys1 info1]|e] w1] r1] log1]|]|].
  - set (h := with_host_name name (new_with_trust_remove host)). intros keys r01 device_uuid waits last f1 f2 bs' Hk Ho Ha Hr Hw Hf Hne. destruct r as [bs e].
    destruct (wifi_establish_complete h limit env keys r01 device_uuid waits last f1 f2 bs bs' e w log (mkWorld f [] rs1) Hk Ho Ha Hr Hw Hf)
      as (left & log' & _ & Ee). rewrite Ee. exists (mkWorld f [] rs1). split; [done|].
    cbn [wi_device_uuid admitted_info info_after info_of]. by rewrite bool_decide_eq_false_2.
Qed.

Lemma reset_forgets_before_comparing_witness :
  exists wd' w',
    @reset_wifi_trust toy_crypto toy_codec toy_json sample_trust_store "phone:q" None 30000 sample_env (Ok ())
      (Writer [] None None) (Reader (sample_frames_of [[x70]; [x01; x01]]) "eof") [] (mkWorld sample_trust_disk [] []) =
    (Ret (Some (Err (from_core_error (EHandshake (Msg "trust.reset_device_mismatch" ["p"; "q"])) "trust.reset"), w')), wd').
Proof.
  set (resp := mkSspHandShakeResponse02 (Some 1) (Some 1) None None None None).
  set (r01 := mkSspHandShakeResponse01 None None None None None None (Some "p") None None None None).
  destruct (@reset_forgets_before_comparing toy_crypto toy_codec toy_json toy_json_round_trip sample_trust_store "/c/sync"
    sample_trust_disk "host" "q" {["phone" := mkTrustRecord None "k" 3]} None 30000 sample_env (Ok ()) (Writer [] None None)
    (Reader (sample_frames_of [[x70]; [x01; x01]]) "eof") [] [] sample_trust_layout sample_trust_ready) as [_ Hc];
    [eexists; split; reflexivity|done|].
  edestruct (Hc (@mkSessionKeys toy_crypto [x01] [x01]) r01 "p" [] resp) as (wd' & _ & E);
    [reflexivity|exact sample_in_order| |split; reflexivity|reflexivity..|done|].
  - eexists _, [[x01; x01]]. split.
    { exists [x70]. split; [apply sample_says; vm_compute; lia|]. split; [vm_compute; discriminate|split; reflexivity]. }
    split.
    { eexists. split; [apply sample_says; vm_compute; lia|]. split; [split; vm_compute; [reflexivity|discriminate]|]. reflexivity. }
    split; [repeat constructor|]. split_and!; [constructor|right; by split_and!|]. repeat constructor. by intros k.
  - eexists _, _. exact E.
Defined.
