(* ===== verification/MediaPage.v ===== *)
(** * Pages of a media library

    crates/handshaker-application/src/media.rs (slice_page) and runtime.rs (the page
    limit, the snapshots of libraries kept between pages and their invalidation).  The
    three libraries are handled alike; the model is generic in the items. *)

From stdpp Require Import gmap.
From S2P Require Import Prelude AppErrors.

#[local] Open Scope string_scope.
#[local] Open Scope list_scope.
#[local] Open Scope Z_scope.

Definition MEDIA_PAGE_DEFAULT_LIMIT : Z := 500.
Definition MEDIA_PAGE_MAX_LIMIT : Z := 1000.
(** Milliseconds. *)
Definition MEDIA_SNAPSHOT_TTL : Z := 30 * 1000.

Definition validate_page_limit (limit : option Z) : AppResult Z :=
  match limit with
  | None => Ok MEDIA_PAGE_DEFAULT_LIMIT
  | Some limit =>
      if limit =? 0 then Err (operation "media.page" (public_new InvalidArgument "limit must be >= 1"))
      else if limit >? MEDIA_PAGE_MAX_LIMIT
      then Err (operation "media.page" (public_new InvalidArgument
             ("limit " +:+ pretty limit +:+ " exceeds the maximum of " +:+ pretty MEDIA_PAGE_MAX_LIMIT)))
      else Ok limit
  end.

(** [slice::sort_by_key], which is stable. *)
Section Sort.
Context {I : Type} (key : I -> Z).

Fixpoint insert_by_key (x : I) (l : list I) : list I :=
  match l with
  | [] => [x]
  | y :: l' => if key y <? key x then y :: insert_by_key x l' else x :: l
  end.

Definition sort_by_key (l : list I) : list I := foldr insert_by_key [] l.

End Sort.

Section Page.
Context {I : Type} (media_id : I -> option Z).

Definition id_or_zero (item : I) : Z := default 0 (media_id item).

(** [Iterator::position] *)
Definition position (p : I -> bool) (l : list I) : option nat := fst <$> list_find (fun i => p i = true) l.

(** [Iterator::find_map] *)
Fixpoint find_map {B} (f : I -> option B) (l : list I) : option B :=
  match l with
  | [] => None
  | a :: l => match f a with Some b => Some b | None => find_map f l end
  end.

(** [*page.last_mut() = item], or a push on an empty page. *)
Definition replace_last (page : list I) (item : I) : list I := removelast page ++ [item].

Definition slice_page (items : list I) (cursor : option Z) (limit : nat) : list I * option Z :=
  match limit with
  | O => ([], None)
  | _ =>
      let items := sort_by_key id_or_zero items in
      let start := match cursor with
                   | Some cursor => default (length items) (position (fun i => cursor <? id_or_zero i) items)
                   | None => 0%nat
                   end in
      let end_ := Nat.min (start + limit) (length items) in
      let page := take (end_ - start) (drop start items) in
      if (end_ <? length items)%nat then
        match find_map media_id (rev page) with
        | Some id => (page, Some id)
        | None =>
            match list_find (fun i => is_Some (media_id i)) (drop end_ items) with
            | Some (_, item) => (replace_last page item, media_id item)
            | None => (page, None)
            end
        end
      else (page, None)
  end.

End Page.

(** ** The snapshots kept between pages *)

Inductive SnapshotMediaKind := SnapshotPhoto | SnapshotVideo | SnapshotAudio.

#[export] Instance SnapshotMediaKind_eq_dec : EqDecision SnapshotMediaKind.
Proof. solve_decision. Defined.
#[export] Instance SnapshotMediaKind_countable : Countable SnapshotMediaKind.
Proof.
  refine (inj_countable' (fun k => match k with SnapshotPhoto => 0%nat | SnapshotVideo => 1%nat | SnapshotAudio => 2%nat end)
    (fun n => match n with O => SnapshotPhoto | S O => SnapshotVideo | _ => SnapshotAudio end) _). by intros [].
Defined.

(** A session and a kind. *)
Abbreviation MediaSnapshotKey := (Z * SnapshotMediaKind)%type.

Section Cache.
Context {L : Type}.

(** The library with the instant it was fetched. *)
Record MediaCache := mkMediaCache {
  media_snapshots : gmap MediaSnapshotKey (Z * L);
  media_epoch : Z
}.

(** The lookup of [cached_photo_library] and the like. *)
Definition cached_library (key : MediaSnapshotKey) (now : Z) (c : MediaCache) : option L :=
  match media_snapshots c !! key with
  | Some (fetched_at, library) => if saturating_sub now fetched_at <? MEDIA_SNAPSHOT_TTL then Some library else None
  | None => None
  end.

(** The insertion after a fetch that started in [epoch]. *)
Definition keep_library (key : MediaSnapshotKey) (epoch now : Z) (library : L) (c : MediaCache) : MediaCache :=
  if media_epoch c =? epoch then mkMediaCache (<[key := (now, library)]> (media_snapshots c)) (media_epoch c) else c.

(** The two steps of an invalidation: the counter, and under the lock the map. *)
Definition bump_epoch (c : MediaCache) : MediaCache :=
  mkMediaCache (media_snapshots c) ((media_epoch c + 1) mod 2 ^ 64).
Definition drop_snapshots (session_id : Z) (c : MediaCache) : MediaCache :=
  mkMediaCache (filter (fun kv => kv.1.1 <> session_id) (media_snapshots c)) (media_epoch c).

(** A page: from the snapshot, or from a library fetched for it. *)
Definition library_for_page (key : MediaSnapshotKey) (now_before now_after : Z) (fetched : AppResult L) (c : MediaCache)
  : AppResult L * MediaCache :=
  match cached_library key now_before c with
  | Some library => (Ok library, c)
  | None =>
      match fetched with
      | Err e => (Err e, c)
      | Ok library => (Ok library, keep_library key (media_epoch c) now_after library c)
      end
  end.

(** ** Fetches and invalidations at once *)

(** Fetches on the way with the epoch they saw; invalidations between their two steps
    and those done, with the epoch they raised the counter to; and for each snapshot the
    epoch of its fetch. *)
Record cache_state := mkCacheState {
  cs_cache : MediaCache;
  cs_fetches : list (MediaSnapshotKey * Z);
  cs_raised : list (Z * Z);
  cs_done : list (Z * Z);
  cs_origin : gmap MediaSnapshotKey Z
}.

Inductive cache_step : cache_state -> cache_state -> Prop :=
  | step_fetch key s : cache_step s
      (mkCacheState (cs_cache s) ((key, media_epoch (cs_cache s)) :: cs_fetches s) (cs_raised s) (cs_done s) (cs_origin s))
  | step_keep c before key epoch after raised done_ origin now library :
      cache_step (mkCacheState c (before ++ (key, epoch) :: after) raised done_ origin)
        (mkCacheState (keep_library key epoch now library c) (before ++ after) raised done_
           (if media_epoch c =? epoch then <[key := epoch]> origin else origin))
  | step_fetch_fails c before fetch after raised done_ origin :
      cache_step (mkCacheState c (before ++ fetch :: after) raised done_ origin)
        (mkCacheState c (before ++ after) raised done_ origin)
  | step_raise session_id s : cache_step s
      (mkCacheState (bump_epoch (cs_cache s)) (cs_fetches s)
         ((session_id, media_epoch (bump_epoch (cs_cache s))) :: cs_raised s) (cs_done s) (cs_origin s))
  | step_drop c fetches before session_id epoch after done_ origin :
      cache_step (mkCacheState c fetches (before ++ (session_id, epoch) :: after) done_ origin)
        (mkCacheState (drop_snapshots session_id c) fetches (before ++ after) ((session_id, epoch) :: done_) origin).

End Cache.
Arguments MediaCache L : clear implicits.
Arguments cache_state L : clear implicits.
