(* ===== verification/MediaPageProps.v ===== *)
(** * What paging promises

    The pages of a library put together, and the freshness of the snapshots they are cut
    from when fetches and invalidations overlap. *)

From stdpp Require Import gmap.
From S2P Require Import Prelude AppErrors MediaPage.

#[local] Open Scope list_scope.
#[local] Open Scope Z_scope.

(** ** Sorting *)

Section Sort.
Context {I : Type} (key : I -> Z).
Implicit Types l : list I.

Definition key_le (a b : I) : Prop := key a <= key b.

Lemma insert_by_key_perm (x : I) (l : list I) : insert_by_key key x l ≡ₚ x :: l.
Proof. induction l as [|y l IH]; simpl; [done|]. destruct (key y <? key x); [|done]. rewrite IH. apply Permutation_swap. Qed.

Lemma sort_by_key_perm (l : list I) : sort_by_key key l ≡ₚ l.
Proof. induction l as [|x l IH]; simpl; [done|]. by rewrite insert_by_key_perm, IH. Qed.

Lemma insert_by_key_sorted (x : I) (l : list I) : StronglySorted key_le l -> StronglySorted key_le (insert_by_key key x l).
Proof.
  induction l as [|y l IH]; intros Hs; simpl; [by repeat constructor|].
  apply StronglySorted_inv in Hs as Hi. destruct Hi as [Hl Hy]. destruct (Z.ltb_spec (key y) (key x)).
  - constructor; [by apply IH|]. rewrite insert_by_key_perm. constructor; [unfold key_le; lia|done].
  - constructor; [done|]. constructor; [unfold key_le; lia|]. eapply Forall_impl; [exact Hy|]. unfold key_le. lia.
Qed.

Lemma sort_by_key_sorted (l : list I) : StronglySorted key_le (sort_by_key key l).
Proof. induction l as [|x l IH]; simpl; [constructor|]. by apply insert_by_key_sorted. Qed.

(** The items with the least key stay in front, in their order. *)
Lemma insert_front (k : Z) (x : I) (l r : list I) :
  Forall (fun i => key i = k) l -> k < key x -> insert_by_key key x (l ++ r) = l ++ insert_by_key key x r.
Proof.
  intros Hl Hx. induction l as [|y l IH]; simpl; [done|]. apply Forall_cons in Hl as [Hy Hl].
  replace (key y <? key x) with true by lia. by rewrite IH.
Qed.

Lemma insert_least (k : Z) (x : I) (l : list I) :
  key x = k -> Forall (fun i => k <= key i) l -> insert_by_key key x l = x :: l.
Proof. intros Hx Hl. destruct l as [|y l]; [done|]. apply Forall_cons in Hl as [Hy _]. simpl. by replace (key y <? key x) with false by lia. Qed.

End Sort.

(** ** Pages *)

Section Page.
Context {I : Type} (media_id : I -> option Z).
Abbreviation key := (id_or_zero media_id).

Definition has_no_id (i : I) : Prop := media_id i = None.
#[local] Instance has_no_id_dec (i : I) : Decision (has_no_id i) := decide (media_id i = None).

(** The items without an id, in their order, and those with one, by id. *)
Definition idless (l : list I) : list I := filter has_no_id l.
Definition keyed (l : list I) : list I := sort_by_key key (filter (fun i => ~ has_no_id i) l).

(** Ids are positive. *)
Definition ids_positive (l : list I) : Prop := forall i id, i ∈ l -> media_id i = Some id -> 0 < id.

Lemma keyed_Some (l : list I) (i : I) : i ∈ keyed l -> is_Some (media_id i).
Proof.
  unfold keyed. rewrite sort_by_key_perm. intros [Hn _]%list_elem_of_filter. unfold has_no_id in Hn. by destruct (media_id i).
Qed.

Lemma sort_splits (l : list I) : ids_positive l -> sort_by_key key l = idless l ++ keyed l.
Proof.
  unfold idless, keyed. induction l as [|x l IH]; intros Hp; [done|]. rewrite !filter_cons.
  assert (sort_by_key key l = filter has_no_id l ++ sort_by_key key (filter (fun i => ~ has_no_id i) l)) as Hs.
  { apply IH. intros i id Hi. apply Hp. by constructor. }
  assert (Forall (fun i => key i = 0) (filter has_no_id l)) as Hz.
  { apply Forall_forall. intros i [Hi _]%list_elem_of_filter. unfold id_or_zero. by rewrite Hi. }
  simpl. rewrite Hs. destruct (decide (has_no_id x)) as [Hx|Hx]; destruct (decide (~ has_no_id x)) as [Hx'|Hx']; try done; try tauto.
  - rewrite (insert_least key 0 x); [done|unfold id_or_zero; by rewrite Hx|]. apply Forall_app. split.
    + eapply Forall_impl; [exact Hz|]. simpl. lia.
    + rewrite sort_by_key_perm. apply Forall_forall. intros i [_ Hi]%list_elem_of_filter. unfold id_or_zero.
      destruct (media_id i) as [id|] eqn:E; simpl; [|lia]. assert (0 < id); [|lia]. eapply Hp; [|exact E]. by constructor.
  - rewrite (insert_front key 0); [done|done|]. unfold id_or_zero. unfold has_no_id in Hx.
    destruct (media_id x) as [id|] eqn:E; [|done]. simpl. eapply Hp; [|exact E]. by constructor.
Qed.

(** Later pages: what comes after the item with the cursor's id. *)
Fixpoint all_pages (fuel : nat) (items : list I) (cursor : option Z) (limit : nat) : option (list I) :=
  match fuel with
  | O => None
  | S fuel =>
      match slice_page media_id items cursor limit with
      | (page, None) => Some page
      | (page, Some next) => app page <$> all_pages fuel items (Some next) limit
      end
  end.

Lemma omap_id_filter (l : list I) : omap media_id l = key <$> filter (fun i => ~ has_no_id i) l.
Proof.
  induction l as [|x l IH]; [done|]. rewrite filter_cons. cbn [omap list_omap]. rewrite IH.
  destruct (decide (~ has_no_id x)) as [Hd|Hd]; cbn; unfold has_no_id in Hd.
  - destruct (media_id x) eqn:E; [|done]. unfold id_or_zero at 2. by rewrite E.
  - destruct (media_id x); [|done]. exfalso. by apply Hd.
Qed.

Lemma strictly_sorted (l : list I) :
  StronglySorted (key_le key) l -> NoDup (key <$> l) -> StronglySorted (fun a b => key a < key b) l.
Proof.
  induction l as [|x l IH]; intros Hs Hn; [constructor|]. apply StronglySorted_inv in Hs as [Hs Hx].
  cbn in Hn. apply NoDup_cons in Hn as [Hnx Hn]. constructor; [by apply IH|].
  rewrite Forall_forall in *. intros y Hy. specialize (Hx y Hy). unfold key_le in Hx.
  assert (key x <> key y); [|lia]. intros Heq. apply Hnx. rewrite Heq. by apply list_elem_of_fmap_2.
Qed.

Lemma keyed_strict (l : list I) : NoDup (omap media_id l) -> StronglySorted (fun a b => key a < key b) (keyed l).
Proof.
  intros Hn. apply strictly_sorted; [apply sort_by_key_sorted|]. unfold keyed. rewrite sort_by_key_perm.
  by rewrite <- omap_id_filter.
Qed.

Lemma position_split (p : I -> bool) (l r : list I) :
  Forall (fun i => p i = false) l -> (match r with [] => True | y :: _ => p y = true end) ->
  default (length (l ++ r)) (position p (l ++ r)) = length l.
Proof.
  intros Hl Hr. unfold position. rewrite list_find_app_r.
  - destruct r as [|y r]; simpl; [len|]. rewrite decide_True by done. simpl. lia.
  - apply list_find_None. eapply Forall_impl; [exact Hl|]. intros i Hi. congruence.
Qed.

Lemma find_map_last (l : list I) (x : I) (id : Z) : media_id x = Some id -> find_map media_id (rev (l ++ [x])) = Some id.
Proof. intros Hx. rewrite rev_app_distr. simpl. by rewrite Hx. Qed.

Lemma find_map_none (l : list I) : Forall has_no_id l -> find_map media_id l = None.
Proof. induction 1 as [|x l Hx _ IH]; [done|]. simpl. by rewrite Hx. Qed.

(** A page that starts where all items have ids. *)
Lemma slice_at (items l post : list I) (cursor : option Z) (limit : nat) :
  (0 < limit)%nat -> sort_by_key key items = l ++ post ->
  match cursor with
  | Some c => default (length (l ++ post)) (position (fun i => c <? key i) (l ++ post))
  | None => 0%nat
  end = length l ->
  Forall (fun i => is_Some (media_id i)) post ->
  slice_page media_id items cursor limit =
    if (length post <=? limit)%nat then (post, None) else (take limit post, last (take limit post) ≫= media_id).
Proof.
  intros Hl Hs Hst Hp. destruct limit as [|n]; [lia|]. unfold slice_page. rewrite Hs, Hst. set (limit := S n) in *.
  rewrite drop_app_length. destruct (Nat.leb_spec (length post) limit) as [Hle|Hgt].
  - rewrite Nat.min_r by (rewrite length_app; lia). rewrite Nat.ltb_irrefl, take_ge by (rewrite length_app; lia). done.
  - rewrite Nat.min_l by (rewrite length_app; lia).
    rewrite (proj2 (Nat.ltb_lt _ _)) by (rewrite length_app; lia). replace (length l + limit - length l)%nat with limit by lia.
    destruct (exists_last (l := take limit post)) as (pre & x & Ht).
    { intros Hn. apply (f_equal length) in Hn. rewrite length_take in Hn. cbn [length] in Hn. lia. }
    assert (is_Some (media_id x)) as [id Hid].
    { rewrite <- (take_drop limit post), Forall_app, Ht, Forall_app in Hp. destruct Hp as [[_ Hp] _]. by apply Forall_inv in Hp. }
    rewrite Ht, (find_map_last pre x id Hid), last_snoc. simpl. by rewrite Hid.
Qed.

(** From a cursor on, the pages are what comes after its item. *)
Lemma pages_after (items pre post : list I) (x : I) (c : Z) (limit fuel : nat) :
  (0 < limit)%nat -> ids_positive items -> NoDup (omap media_id items) ->
  keyed items = pre ++ x :: post -> media_id x = Some c -> (length post < fuel)%nat ->
  all_pages fuel items (Some c) limit = Some post.
Proof.
  intros Hl Hpos Hnd. revert pre post x c. induction fuel as [|fuel IH]; intros pre post x c Hk Hx Hf; [lia|].
  pose proof (keyed_strict items Hnd) as Hstrict. rewrite Hk in Hstrict.
  assert (key x = c) as Hc by (unfold id_or_zero; by rewrite Hx).
  assert (Forall (fun i => is_Some (media_id i)) post) as Hsome.
  { apply Forall_forall. intros i Hi. apply (keyed_Some items). rewrite Hk. set_solver. }
  cbn [all_pages]. rewrite (slice_at items (idless items ++ pre ++ [x]) post (Some c) limit); [| |by rewrite sort_splits, Hk, <- !app_assoc| |done]; [|done|].
  2: { apply position_split.
    - rewrite !Forall_app. split_and!.
      + apply Forall_forall. intros i [Hi _]%list_elem_of_filter. unfold id_or_zero. rewrite Hi. simpl.
        assert (0 < c); [|lia]. eapply Hpos; [|exact Hx].
        assert (x ∈ keyed items) as Hin by (rewrite Hk; set_solver). unfold keyed in Hin.
        rewrite sort_by_key_perm in Hin. by apply list_elem_of_filter in Hin as [_ Hin].
      + apply Forall_forall. intros i Hi. apply StronglySorted_app in Hstrict as (Hlt & _ & _).
        assert (key i < key x) by (apply Hlt; [done|by constructor]). lia.
      + repeat constructor. lia.
    - destruct post as [|y post]; [done|]. apply StronglySorted_app in Hstrict as (_ & _ & Hs).
      apply StronglySorted_inv in Hs as [_ Hs]. apply Forall_inv in Hs. lia. }
  destruct (Nat.leb_spec (length post) limit) as [Hle|Hgt]; [done|].
  destruct (exists_last (l := take limit post)) as (pre' & x' & Ht).
  { intros Hn. apply (f_equal length) in Hn. rewrite length_take in Hn. cbn [length] in Hn. lia. }
  rewrite Ht, last_snoc. simpl.
  assert (post = pre' ++ x' :: drop limit post) as Hpost.
  { rewrite <- (take_drop limit post) at 1. rewrite Ht. by rewrite <- app_assoc. }
  assert (is_Some (media_id x')) as [c' Hc'].
  { rewrite Forall_forall in Hsome. apply Hsome. rewrite Hpost. set_solver. }
  rewrite Hc'. rewrite (IH (pre ++ x :: pre') (drop limit post) x' c'); [|by rewrite Hk, <- app_assoc; simpl; rewrite <- Hpost|done|len].
  simpl. rewrite <- app_assoc. simpl. by rewrite <- Hpost.
Qed.

Lemma idless_no_ids (l : list I) : Forall has_no_id (idless l).
Proof. apply Forall_forall. by intros i [Hi _]%list_elem_of_filter. Qed.

Lemma splits_perm (l : list I) : idless l ++ keyed l ≡ₚ l.
Proof.
  unfold idless, keyed. rewrite sort_by_key_perm. induction l as [|x l IH]; [done|]. rewrite !filter_cons.
  destruct (decide (has_no_id x)); destruct (decide (~ has_no_id x)); try tauto; simpl.
  - by rewrite IH.
  - by rewrite <- Permutation_middle, IH.
Qed.

(** A first page without ids ends with the first item that has one. *)
Lemma slice_idless (items : list I) (limit : nat) :
  (0 < limit <= length (idless items))%nat -> ids_positive items -> (limit < length items)%nat ->
  slice_page media_id items None limit =
    match keyed items with
    | [] => (take limit (idless items), None)
    | x :: _ => (take (limit - 1) (idless items) ++ [x], media_id x)
    end.
Proof.
  intros [Hl Hi] Hp Hlen. destruct limit as [|n]; [lia|]. unfold slice_page. rewrite sort_splits by done.
  set (limit := S n) in *. rewrite drop_0, Nat.add_0_l, Nat.sub_0_r.
  assert (length (idless items ++ keyed items) = length items) as -> by by rewrite splits_perm.
  rewrite Nat.min_l by lia. rewrite (proj2 (Nat.ltb_lt _ _)) by lia. rewrite take_app_le by done.
  pose proof (idless_no_ids items) as Hno.
  rewrite find_map_none by (apply Forall_rev, Forall_take, Hno).
  rewrite drop_app_le by done. rewrite list_find_app_r.
  2: { apply list_find_None. apply Forall_drop. eapply Forall_impl; [exact Hno|]. intros i Hn [id Hid]. unfold has_no_id in Hn. congruence. }
  pose proof (keyed_Some items) as Hk. destruct (keyed items) as [|x rest]; [done|]. simpl list_find.
  rewrite decide_True by (apply Hk; by constructor). cbn. unfold replace_last. f_equal. f_equal.
  rewrite removelast_firstn_len, length_take, Nat.min_l by lia. rewrite take_take. f_equal. lia.
Qed.

Lemma slice_all (items : list I) (limit : nat) :
  (0 < limit)%nat -> ids_positive items -> (length items <= limit)%nat ->
  slice_page media_id items None limit = (idless items ++ keyed items, None).
Proof.
  intros Hl Hp Hlen. destruct limit as [|n]; [lia|]. unfold slice_page. rewrite sort_splits by done.
  assert (length (idless items ++ keyed items) = length items) as -> by by rewrite splits_perm.
  rewrite Nat.add_0_l, Nat.min_r, Nat.ltb_irrefl, drop_0, Nat.sub_0_r by lia.
  by rewrite take_ge by by rewrite splits_perm.
Qed.

(** A first page with some ids ends with the last of them. *)
Lemma slice_first (items pre rest : list I) (x : I) (limit : nat) :
  ids_positive items -> keyed items = pre ++ x :: rest -> rest <> [] ->
  limit = (length (idless items) + length pre + 1)%nat ->
  slice_page media_id items None limit = (idless items ++ pre ++ [x], media_id x).
Proof.
  intros Hp Hk Hr Hl. unfold slice_page. destruct limit as [|n]; [lia|]. rewrite sort_splits, Hk by done.
  set (limit := S n) in *. rewrite drop_0, Nat.add_0_l, Nat.sub_0_r.
  assert (idless items ++ pre ++ x :: rest = (idless items ++ pre ++ [x]) ++ rest) as -> by by rewrite <- !app_assoc.
  assert (length (idless items ++ pre ++ [x]) = limit) as Hlen by (rewrite !length_app; cbn [length]; lia).
  assert (0 < length rest)%nat by (destruct rest; [done|cbn [length]; lia]).
  rewrite (length_app _ rest), Hlen, Nat.min_l by lia. rewrite (proj2 (Nat.ltb_lt _ _)) by lia.
  rewrite take_app_le, take_ge by lia.
  assert (is_Some (media_id x)) as [id Hid] by (apply (keyed_Some items); rewrite Hk; set_solver).
  by rewrite app_assoc, (find_map_last _ x id Hid), Hid.
Qed.

End Page.

(** A page holds nothing but items of the library. *)
Lemma slice_page_subset {I : Type} (media_id : I -> option Z) (items : list I) (cursor : option Z) (limit : nat) (i : I) :
  i ∈ (slice_page media_id items cursor limit).1 -> i ∈ items.
Proof.
  destruct limit as [|limit]; [by intros ?%elem_of_nil|]. unfold slice_page.
  set (l := sort_by_key _ items). set (start := match cursor with Some _ => _ | None => _ end).
  set (end_ := Nat.min _ _). set (page := take _ (drop start l)).
  assert (forall j, j ∈ l -> j ∈ items) as Hl by (intros j; unfold l; by rewrite sort_by_key_perm).
  assert (forall j, j ∈ page -> j ∈ items) as Hp.
  { intros j Hj. apply Hl. unfold page in Hj. apply elem_of_take in Hj as (k & Hk & _). eapply subseteq_drop, list_elem_of_lookup_2, Hk. }
  destruct (end_ <? length l)%nat; [|exact (Hp i)].
  destruct (find_map media_id (rev page)) as [id|]; [exact (Hp i)|].
  destruct (list_find _ (drop end_ l)) as [[k item]|] eqn:Ef; [|exact (Hp i)]. cbn [fst]. unfold replace_last.
  rewrite elem_of_app, list_elem_of_singleton. intros [Hi| ->].
  - apply Hp. destruct (decide (page = [])) as [Hn|Hne]; [by rewrite Hn in Hi; apply elem_of_nil in Hi|].
    rewrite (app_removelast_last i Hne). apply elem_of_app. by left.
  - apply list_find_Some in Ef as [Ef _]. apply list_elem_of_lookup_2 in Ef. apply Hl. by eapply subseteq_drop.
Qed.

(** C36: the pages of a library, put together, are the library sorted by id, without
    repetition: first the items without an id in their order, then the others by id.  The
    pages end after at most one more request than there are items.  This needs fewer
    items without an id than fit on a page; with more of them, the first page keeps all
    but one of its items without id, and every further one is on no page at all. *)
Theorem paging_exact {I : Type} (media_id : I -> option Z) (items : list I) (limit : nat) :
  (0 < limit)%nat -> ids_positive media_id items -> NoDup (omap media_id items) ->
  (exists pages, all_pages media_id (S (length items)) items None limit = Some pages /\
    pages =
      if (length (idless media_id items) <? limit)%nat then idless media_id items ++ keyed media_id items
      else match keyed media_id items with
           | [] => take limit (idless media_id items)
           | _ => take (limit - 1) (idless media_id items) ++ keyed media_id items
           end) /\
  idless media_id items ++ keyed media_id items ≡ₚ items /\
  StronglySorted (fun a b => id_or_zero media_id a < id_or_zero media_id b) (keyed media_id items).
Proof.
  intros Hl Hp Hn. split; [|split; [apply splits_perm|by apply keyed_strict]]. eexists. split; [|reflexivity].
  pose proof (splits_perm media_id items) as Hperm. apply Permutation_length in Hperm. rewrite length_app in Hperm.
  pose proof (keyed_Some media_id items) as Hsome. cbn [all_pages].
  destruct (Nat.ltb_spec (length (idless media_id items)) limit) as [Hlt|Hge].
  - destruct (Nat.leb_spec (length items) limit) as [Hle|Hgt]; [by rewrite slice_all|].
    destruct (drop (limit - length (idless media_id items) - 1) (keyed media_id items)) as [|x rest] eqn:Ed.
    { apply (f_equal length) in Ed. rewrite length_drop in Ed. cbn [length] in Ed. lia. }
    pose proof (take_drop (limit - length (idless media_id items) - 1) (keyed media_id items)) as Hk. rewrite Ed in Hk.
    apply (f_equal length) in Ed as Hd. rewrite length_drop in Hd. cbn [length] in Hd. symmetry in Hk.
    rewrite (slice_first media_id items _ rest x limit Hp Hk); [|by intros ->; cbn [length] in Hd; lia|rewrite length_take; lia].
    assert (is_Some (media_id x)) as [c Hc] by (apply Hsome; rewrite Hk; set_solver). rewrite Hc.
    rewrite (pages_after media_id items _ rest x c limit (length items) Hl Hp Hn Hk Hc) by lia.
    simpl. rewrite <- !app_assoc. simpl. by rewrite <- Hk.
  - destruct (Nat.ltb_spec limit (length items)) as [Hll|Hll].
    + rewrite slice_idless by (done || lia). destruct (keyed media_id items) as [|x rest] eqn:Ek; [done|].
      assert (is_Some (media_id x)) as [c Hc] by (apply Hsome; by constructor). rewrite Hc.
      rewrite (pages_after media_id items [] rest x c limit (length items)); try done; [|cbn [length] in Hperm; lia].
      simpl. by rewrite <- app_assoc.
    + rewrite slice_all by done. simpl. rewrite take_ge by lia.
      destruct (keyed media_id items) as [|x rest]; [by rewrite app_nil_r|cbn [length] in Hperm; lia].
Qed.

Lemma paging_exact_witness :
  all_pages (fun p : nat * option Z => p.2) 6 [(0%nat, Some 9); (1%nat, None); (2%nat, Some 4); (3%nat, Some 7); (4%nat, None)] None 3 =
  Some [(1%nat, None); (4%nat, None); (2%nat, Some 4); (3%nat, Some 7); (0%nat, Some 9)].
Proof.
  destruct (paging_exact (fun p : nat * option Z => p.2)
    [(0%nat, Some 9); (1%nat, None); (2%nat, Some 4); (3%nat, Some 7); (4%nat, None)] 3) as [(pages & E & Hp) _].
  - lia.
  - intros i id Hi Hid. repeat (apply elem_of_cons in Hi as [-> |Hi]; [simpl in Hid; first [discriminate Hid | injection Hid; lia]|]).
    by apply elem_of_nil in Hi.
  - vm_compute. repeat constructor; rewrite ?elem_of_cons, ?elem_of_nil; lia || (intros Hx; repeat destruct Hx as [Hx|Hx]; congruence).
  - simpl length in E. rewrite E, Hp. vm_compute. reflexivity.
Defined.

(** ** Fresh snapshots *)

Definition cache_new {L} : cache_state L := mkCacheState (mkMediaCache ∅ 0) [] [] [] ∅.

(** Until the counter wraps: [n] invalidations were raised. *)
Definition cache_ok {L} (n : Z) (s : cache_state L) : Prop :=
  media_epoch (cs_cache s) = n /\ 0 <= n /\
  Forall (fun x => x.2 <= n) (cs_raised s) /\ Forall (fun x => x.2 <= n) (cs_done s) /\
  (forall key x, media_snapshots (cs_cache s) !! key = Some x ->
     exists e, cs_origin s !! key = Some e /\ e <= n /\
       forall session_id e', (session_id, e') ∈ cs_done s -> session_id = key.1 -> e' <= e).

Lemma cache_step_ok {L} (n : Z) (s t : cache_state L) :
  cache_ok n s -> cache_step s t -> n + 1 < 2 ^ 64 -> exists m, n <= m <= n + 1 /\ cache_ok m t.
Proof.
  intros (He & Hn & Hr & Hd & Hs) Hstep Hlt.
  destruct Hstep as [key s|c before key epoch after raised done_ origin now library|c before fetch after raised done_ origin|sid s
                    |c fetches before sid epoch after done_ origin]; cbn [cs_cache cs_fetches cs_raised cs_done cs_origin] in *.
  - exists n. split; [lia|]. by split_and!.
  - exists n. split; [lia|]. unfold keep_library. destruct (Z.eqb_spec (media_epoch c) epoch) as [Heq|]; [|by split_and!].
    split_and!; try done. intros key' x. cbn [cs_cache media_snapshots cs_origin cs_done].
    destruct (decide (key' = key)) as [-> |Hne].
    + intros _. exists epoch. rewrite lookup_insert_eq. split_and!; [done|lia|]. intros sid e' Hin _.
      rewrite Forall_forall in Hd. specialize (Hd _ Hin). simpl in Hd. lia.
    + rewrite !lookup_insert_ne by done. apply Hs.
  - exists n. split; [lia|]. by split_and!.
  - exists (n + 1). split; [lia|]. unfold cache_ok, bump_epoch; cbn. rewrite He, Z.mod_small by lia. split_and!; [done|lia| | |].
    + constructor; [simpl; lia|]. eapply Forall_impl; [exact Hr|]. simpl. lia.
    + eapply Forall_impl; [exact Hd|]. simpl. lia.
    + intros key x Hx. destruct (Hs key x Hx) as (e & ? & ? & ?). exists e. split_and!; [done|lia|done].
  - exists n. split; [lia|]. rewrite Forall_app, Forall_cons in Hr. destruct Hr as (Hr1 & Hr2 & Hr3).
    split_and!; cbn; [done|done|by apply Forall_app|by constructor|].
    intros key x [Hx Hne]%map_lookup_filter_Some. destruct (Hs key x Hx) as (e & ? & ? & Hall). exists e.
    split_and!; [done|done|]. intros sid' e' [[= -> ->]|Hin]%elem_of_cons ->; [done|by eapply Hall].
Qed.

Lemma cache_steps_ok {L} (k : nat) (n : Z) (s t : cache_state L) :
  nsteps cache_step k s t -> cache_ok n s -> n + Z.of_nat k < 2 ^ 64 -> exists m, cache_ok m t.
Proof.
  intros Hk. revert n. induction Hk as [s|k s u t Hs _ IH]; intros n Hn Hlt; [eauto|].
  destruct (cache_step_ok n s u Hn Hs) as (m & Hm & Hu); [lia|]. apply (IH m); [done|lia].
Qed.

(** C37: a page is never cut from a stale snapshot.  However fetches and invalidations
    overlap, every library the cache answers with was kept less than 30 seconds before,
    and its fetch read the counter at or after the value every finished invalidation of
    its session had raised it to; so the fetch began after all of them.  (Up to 2^64
    steps, where the counter wraps.) *)
Theorem cache_never_stale {L : Type} (k : nat) (s : cache_state L) (key : MediaSnapshotKey) (now : Z) (library : L) :
  nsteps cache_step k cache_new s -> Z.of_nat k < 2 ^ 64 -> cached_library key now (cs_cache s) = Some library ->
  (exists fetched_at, media_snapshots (cs_cache s) !! key = Some (fetched_at, library) /\ now < fetched_at + MEDIA_SNAPSHOT_TTL) /\
  exists epoch, cs_origin s !! key = Some epoch /\
    forall session_id raised, (session_id, raised) ∈ cs_done s -> session_id = key.1 -> raised <= epoch.
Proof.
  intros Hk Hlt Hc. destruct (cache_steps_ok k 0 cache_new s Hk) as (m & _ & _ & _ & _ & Hs); [|lia|].
  { split_and!; [done|done|constructor|constructor|]. intros key' x. cbn. by rewrite lookup_empty. }
  unfold cached_library in Hc. destruct (media_snapshots (cs_cache s) !! key) as [[at_ lib]|] eqn:E; [|done].
  destruct (Z.ltb_spec (saturating_sub now at_) MEDIA_SNAPSHOT_TTL) as [Hlt'|]; [|done]. injection Hc as ->. split.
  - exists at_. split; [done|]. unfold saturating_sub in Hlt'. lia.
  - destruct (Hs key _ E) as (e & He & _ & Hall). by exists e.
Qed.

Lemma cache_never_stale_witness :
  let key := (7, SnapshotPhoto) in
  let s := mkCacheState (mkMediaCache {[key := (100, true)]} 1) [] [] [(7, 1)] {[key := 1]} in
  nsteps cache_step 4 cache_new s /\
  exists epoch, cs_origin s !! key = Some epoch /\ 1 <= epoch.
Proof.
  intros key s. assert (nsteps cache_step 4 cache_new s) as Hs.
  { eapply nsteps_l; [apply (step_raise 7)|]. eapply nsteps_l; [apply (step_drop _ _ [] 7 1 [])|].
    eapply nsteps_l; [apply (step_fetch key)|]. eapply nsteps_l; [|apply nsteps_O].
    exact (step_keep _ [] key 1 [] _ _ _ 100 true). }
  split; [exact Hs|]. destruct (cache_never_stale 4 s key 200 true Hs) as [_ (e & He & Hall)]; [lia|reflexivity|].
  exists e. split; [exact He|]. apply (Hall 7 1); [by constructor|reflexivity].
Defined.
