(* ===== verification/RemotePath.v ===== *)
(** * Remote paths

    crates/handshaker-application/src/runtime.rs (resolve_remote_path,
    normalize_remote_path) and crates/handshaker-core/src/client.rs (split_remote_path):
    how a path a user gives becomes a path on the phone. *)

From Stdlib Require Import Strings.String Strings.Ascii.
From S2P Require Import Prelude Errors Text Paths.

#[local] Open Scope string_scope.
#[local] Open Scope list_scope.
#[local] Open Scope Z_scope.

(** The loop of [normalize_remote_path]; [parts] is the stack, its top first. *)
Fixpoint normalize_parts (segs : list string) (parts : list string) : list string :=
  match segs with
  | [] => parts
  | seg :: segs =>
      if bool_decide (seg = "" \/ seg = ".") then normalize_parts segs parts
      else if bool_decide (seg = "..") then normalize_parts segs (tail parts)
      else normalize_parts segs (seg :: parts)
  end.

Definition normalize_remote_path (p : string) : string :=
  String slash (join_slash (reverse (normalize_parts (split_slash p) []))).

Definition resolve_remote_path (root p : string) : string :=
  let trimmed := trim p in
  if bool_decide (trimmed = "") || bool_decide (trimmed = ".") then root
  else if starts_with "/" trimmed then
    match str_strip_prefix "/sdcard" trimmed with
    | Some rest =>
        if bool_decide (rest = "") || starts_with "/" rest then normalize_remote_path (root +:+ rest)
        else normalize_remote_path trimmed
    | None => normalize_remote_path trimmed
    end
  else
    let normalized := normalize_remote_path (root +:+ String slash trimmed) in
    if bool_decide (root = "/") || bool_decide (root = "") then normalized
    else if bool_decide (normalized = root) || starts_with (root +:+ "/") normalized then normalized
    else root.

(** The directory and the name of a remote path: [rfind('/')] splits off the last segment. *)
Definition split_remote_path (p : string) : Res (string * string) :=
  match reverse (split_slash p) with
  | name :: ((_ :: _) as dirs) =>
      let parent := join_slash (reverse dirs) in
      if bool_decide (name = "") then Err (EUsage (Msg "client.remote_path_name_required" [p]))
      else Ok (if bool_decide (parent = "") then "/" else parent, name)
  | _ => Err (EUsage (Msg "client.remote_path_directory_required" [p]))
  end.

Example split_remote_path_file : split_remote_path "/sdcard/a.txt" = Ok ("/sdcard", "a.txt").
Proof. reflexivity. Qed.
Example split_remote_path_top : split_remote_path "/a" = Ok ("/", "a").
Proof. reflexivity. Qed.
Example resolve_alias : resolve_remote_path "/storage/emulated/0" " /sdcard/DCIM/../a " = "/storage/emulated/0/a".
Proof. reflexivity. Qed.
Example resolve_clamps : resolve_remote_path "/storage/emulated/0" "../../etc" = "/storage/emulated/0".
Proof. reflexivity. Qed.

(** ** What is resolved *)

(** The path made of these segments below the root of the file system. *)
Definition abs_path (parts : list string) : string := String slash (join_slash parts).

Definition proper_segment (s : string) : Prop := s <> "" /\ s <> "." /\ s <> ".." /\ no_slash s = true.

Lemma normalize_parts_proper (segs parts : list string) :
  Forall (fun s => no_slash s = true) segs -> Forall proper_segment parts -> Forall proper_segment (normalize_parts segs parts).
Proof.
  revert parts. induction segs as [|s segs IH]; intros parts Hs Hp; simpl; [done|].
  apply Forall_cons in Hs as [Hs Hss]. case_bool_decide as H1; [by apply IH|]. case_bool_decide as H2.
  - apply IH; [done|]. by destruct Hp.
  - apply IH; [done|]. constructor; [|done]. unfold proper_segment. tauto.
Qed.

Lemma normalize_parts_app (a b parts : list string) : normalize_parts (a ++ b) parts = normalize_parts b (normalize_parts a parts).
Proof. revert parts. induction a as [|s a IH]; intros parts; simpl; [done|]. by repeat case_bool_decide. Qed.

Lemma normalize_parts_id (segs parts : list string) : Forall proper_segment segs -> normalize_parts segs parts = reverse segs ++ parts.
Proof.
  revert parts. induction segs as [|s segs IH]; intros parts Hs; [done|]. apply Forall_cons in Hs as [(H1 & H2 & H3 & _) Hs].
  simpl. rewrite !bool_decide_eq_false_2 by tauto. rewrite IH by done. rewrite reverse_cons. by rewrite <- app_assoc.
Qed.

Lemma normalize_is_abs (p : string) : exists parts, Forall proper_segment parts /\ normalize_remote_path p = abs_path parts.
Proof.
  exists (reverse (normalize_parts (split_slash p) [])). split; [|done]. apply Forall_reverse, normalize_parts_proper; [|constructor].
  apply split_slash_no_slash.
Qed.

Lemma split_abs_path (parts : list string) : Forall proper_segment parts -> normalize_parts (split_slash (abs_path parts)) [] = reverse parts.
Proof.
  intros Hp. unfold abs_path. change (String slash (join_slash parts)) with (("" : string) +:+ String slash (join_slash parts)).
  rewrite split_slash_app. simpl. destruct parts as [|s parts]; [done|].
  rewrite split_join_slash; [by rewrite normalize_parts_id, app_nil_r|done|].
  eapply Forall_impl; [exact Hp|]. by intros x (_ & _ & _ & Hx).
Qed.

Lemma normalize_idempotent (parts : list string) : Forall proper_segment parts -> normalize_remote_path (abs_path parts) = abs_path parts.
Proof. intros Hp. unfold normalize_remote_path. by rewrite split_abs_path, reverse_involutive. Qed.

Lemma split_abs (parts : list string) :
  Forall proper_segment parts -> split_slash (abs_path parts) = "" :: match parts with [] => [""] | _ => parts end.
Proof.
  intros Hp. unfold abs_path. change (String slash (join_slash parts)) with (("" : string) +:+ String slash (join_slash parts)).
  rewrite split_slash_app. destruct parts as [|s parts]; [done|]. rewrite split_join_slash; [done|done|].
  eapply Forall_impl; [exact Hp|]. by intros x (_ & _ & _ & Hx).
Qed.

Lemma abs_path_inj (a b : list string) : Forall proper_segment a -> Forall proper_segment b -> abs_path a = abs_path b -> a = b.
Proof.
  intros Ha Hb Heq. apply (f_equal split_slash) in Heq. rewrite !split_abs in Heq by done.
  destruct a as [|x a], b as [|y b]; [done| | |by injection Heq as -> ->].
  - injection Heq as <- _. apply Forall_inv in Hb as [Hb _]. done.
  - injection Heq as -> _. apply Forall_inv in Ha as [Ha _]. done.
Qed.

(** What starts with a directory and a slash lies below it. *)
Lemma abs_path_below (root parts : list string) (r : string) :
  Forall proper_segment root -> Forall proper_segment parts -> root <> [] ->
  abs_path parts = abs_path root +:+ ("/" +:+ r) -> parts = root ++ split_slash r.
Proof.
  intros Hr Hp Hne Heq. apply (f_equal split_slash) in Heq.
  change ("/" +:+ r) with (String slash r) in Heq. rewrite split_slash_app, !split_abs in Heq by done.
  destruct root as [|x root]; [done|]. destruct parts as [|y parts].
  - apply (f_equal length) in Heq. rewrite length_app in Heq. cbn [length] in Heq.
    pose proof (split_slash_ne r). destruct (split_slash r); [done|]. cbn [length] in Heq. lia.
  - by injection Heq as -> ->.
Qed.

Lemma join_slash_app (a b : list string) :
  a <> [] -> b <> [] -> join_slash (a ++ b) = join_slash a +:+ ("/" +:+ join_slash b).
Proof.
  intros Ha Hb. induction a as [|x a IH]; [done|]. destruct a as [|y a]; [by destruct b|].
  change (join_slash ((x :: y :: a) ++ b)) with (x +:+ ("/" +:+ join_slash ((y :: a) ++ b))).
  rewrite IH by done. change (join_slash (x :: y :: a)) with (x +:+ ("/" +:+ join_slash (y :: a))).
  by rewrite !app_assoc_str.
Qed.

Lemma split_join_proper (parts : list string) : Forall proper_segment parts -> parts <> [] -> split_slash (join_slash parts) = parts.
Proof. intros Hp Hne. apply split_join_slash; [done|]. eapply Forall_impl; [exact Hp|]. by intros x (_ & _ & _ & Hx). Qed.

(** A plain path that is not absolute. *)
Lemma plain_relative (parts : list string) :
  Forall proper_segment parts -> parts <> [] ->
  join_slash parts <> "" /\ join_slash parts <> "." /\ starts_with "/" (join_slash parts) = false.
Proof.
  intros Hp Hne. pose proof (split_join_proper parts Hp Hne) as Hs. destruct parts as [|s parts]; [done|].
  apply Forall_inv in Hp as (H1 & H2 & _). split_and!.
  - intros He. rewrite He in Hs. by injection Hs.
  - intros He. rewrite He in Hs. by injection Hs.
  - apply not_true_is_false. intros [r Hr]%starts_with_spec. rewrite Hr in Hs. by injection Hs.
Qed.

(** C38: what a path on the phone resolves to.  For a root that is a plain absolute path,
    every result is a plain absolute path (no empty segment, no dot, no dot-dot); a path
    that is not absolute never leaves the root, however many dot-dots it has, and a plain
    one names what it says below the root; blanks around it do not count.  A root that
    ends in a slash makes every other path that is not absolute resolve to the root. *)
Theorem resolve_remote_path_clamped (root_parts : list string) (p : string) :
  Forall proper_segment root_parts ->
  (exists parts, Forall proper_segment parts /\ resolve_remote_path (abs_path root_parts) p = abs_path parts /\
     (starts_with "/" (trim p) = false -> root_parts `prefix_of` parts)) /\
  (forall parts, Forall proper_segment parts -> parts <> [] -> trim p = join_slash parts ->
     resolve_remote_path (abs_path root_parts) p = abs_path (root_parts ++ parts)) /\
  (root_parts <> [] -> starts_with "/" (trim p) = false ->
     resolve_remote_path (abs_path root_parts +:+ "/") p = abs_path root_parts +:+ "/").
Proof.
  intros Hroot. assert (starts_with "/" "" = false) as Hempty by done.
  assert (abs_path root_parts <> "") as Hne by done. unfold resolve_remote_path. split_and!.
  - destruct (bool_decide (trim p = "") || bool_decide (trim p = ".")); [by exists root_parts|].
    destruct (starts_with "/" (trim p)) eqn:Ha.
    { destruct (str_strip_prefix "/sdcard" (trim p)) as [rest|]; [case_match|];
        match goal with |- context [normalize_remote_path ?x] => destruct (normalize_is_abs x) as (parts & ? & ->) end;
        by exists parts. }
    destruct (normalize_is_abs (abs_path root_parts +:+ String slash (trim p))) as (parts & Hp & Hn). rewrite Hn.
    rewrite (bool_decide_eq_false_2 _ Hne), orb_false_r.
    case_bool_decide as Hr1.
    { exists parts. split_and!; [done|done|]. intros _. apply (abs_path_inj root_parts []) in Hr1 as ->; [|done|done].
      apply prefix_nil. }
    case_bool_decide as Hr2; simpl.
    { exists parts. split_and!; [done|done|]. intros _. by apply abs_path_inj in Hr2 as ->. }
    destruct (starts_with _ (abs_path parts)) eqn:Hs; [|by exists root_parts].
    exists parts. split_and!; [done|done|]. intros _. apply starts_with_spec in Hs as [r Hs]. rewrite app_assoc_str in Hs.
    assert (root_parts <> []) as Hnr by (intros ->; by apply Hr1).
    rewrite (abs_path_below root_parts parts r) by done. by apply prefix_app_r.
  - intros parts Hp Hpne Ht. rewrite Ht.
    assert (normalize_remote_path (abs_path root_parts +:+ String slash (join_slash parts)) = abs_path (root_parts ++ parts)) as Hn.
    { unfold normalize_remote_path. rewrite split_slash_app, normalize_parts_app, split_abs_path by done.
      rewrite split_join_slash; [|done|eapply Forall_impl; [exact Hp|]; by intros x (_ & _ & _ & Hx)].
      rewrite normalize_parts_id by done. by rewrite reverse_app, !reverse_involutive. }
    destruct (plain_relative parts Hp Hpne) as (H1 & H2 & H3).
    rewrite (bool_decide_eq_false_2 _ H1), (bool_decide_eq_false_2 _ H2), H3, Hn, (bool_decide_eq_false_2 _ Hne), orb_false_r.
    simpl. case_bool_decide as Hr1; [done|].
    assert (starts_with (abs_path root_parts +:+ "/") (abs_path (root_parts ++ parts)) = true) as ->; [|by rewrite orb_true_r].
    apply starts_with_spec. exists (join_slash parts). assert (root_parts <> []) as Hnr by (intros ->; by apply Hr1).
    unfold abs_path. rewrite join_slash_app, app_assoc_str by done. done.
  - intros Hnr Hrel. assert (forall parts r, Forall proper_segment parts -> (r = "" \/ exists r', r = String slash r') ->
                          abs_path parts <> abs_path root_parts +:+ ("/" +:+ r)) as Habs.
    { intros parts r Hp Hr Heq. apply abs_path_below in Heq as ->; [|done..]. apply Forall_app in Hp as [_ Hp].
      destruct Hr as [-> |[r' ->]]; simpl in Hp; apply Forall_inv in Hp as [Hp _]; done. }
    destruct (bool_decide (trim p = "") || bool_decide (trim p = ".")); [done|]. rewrite Hrel.
    destruct (normalize_is_abs ((abs_path root_parts +:+ "/") +:+ String slash (trim p))) as (parts & Hp & Hn). rewrite Hn.
    rewrite (bool_decide_eq_false_2 (_ = "/")), (bool_decide_eq_false_2 (_ = "")); [|done|].
    2: { intros Heq. injection Heq as Heq. by destruct (join_slash root_parts). }
    rewrite (bool_decide_eq_false_2 (_ = _)); [|apply Habs; auto].
    simpl. destruct (starts_with _ (abs_path parts)) eqn:Hs; [|done]. exfalso.
    apply starts_with_spec in Hs as [r Hs]. rewrite !app_assoc_str in Hs.
    apply (Habs parts (String slash r)); [done|by eauto|exact Hs].
Qed.

Lemma resolve_remote_path_clamped_witness :
  resolve_remote_path "/storage/emulated/0" " DCIM/a.jpg" = "/storage/emulated/0/DCIM/a.jpg" /\
  resolve_remote_path "/storage/emulated/0/" "DCIM/a.jpg" = "/storage/emulated/0/".
Proof.
  destruct (resolve_remote_path_clamped ["storage"; "emulated"; "0"] " DCIM/a.jpg") as (_ & H1 & _).
  { repeat constructor; done. }
  destruct (resolve_remote_path_clamped ["storage"; "emulated"; "0"] "DCIM/a.jpg") as (_ & _ & H2).
  { repeat constructor; done. }
  split.
  - apply (H1 ["DCIM"; "a.jpg"]); [repeat constructor; done|done|reflexivity].
  - apply H2; [done|reflexivity].
Defined.
