(* ===== verification/ClientProto.v ===== *)
(** * Messages of the client's requests

    The proto2 messages crates/handshaker-core/src/client.rs exchanges with the phone,
    as prost generates them from proto/smartsync.proto, and prost's [Message] trait. *)

From stdpp Require Import gmap.
From S2P Require Import Prelude Errors Domain Proto.

(** [prost::Message]: a third-party trait. *)
Class Message (M : Type) := {
  encode_to_vec : M -> list byte;
  message_decode : list byte -> result string M
}.

(** [M::decode(body)?]: the error becomes a protocol error. *)
Definition decoded {M} `{Message M} (body : list byte) : Res M :=
  match message_decode body with
  | Ok m => Ok m
  | Err e => Err (EProtocol (Msg "error.protobuf_decode" [e]))
  end.

(** ** Files *)

Record SspDataRange := mkSspDataRange { dr_offset : option Z; dr_length : option Z }.

Record SspHeartBeatResponse := mkSspHeartBeatResponse {
  hbr_type : option Z; hbr_host_timestamp : option Z; hbr_client_timestamp : option Z }.

Record SspGetDirFilesRequest := mkSspGetDirFilesRequest {
  gdq_type : option Z; gdq_dir : option SspFile; gdq_maxdepth : option Z }.
Record SspGetDirFilesResponse := mkSspGetDirFilesResponse {
  gdr_type : option Z; gdr_dir : option SspFile; gdr_maxdepth : option Z; gdr_timecost : option Z; gdr_file : list SspFile }.

Record SspGetFileCountRequest := mkSspGetFileCountRequest {
  gcq_type : option Z; gcq_dir : option SspFile; gcq_maxdepth : option Z; gcq_exclusion_pattern : list string }.
Record SspGetFileCountResponse := mkSspGetFileCountResponse {
  gcr_type : option Z; gcr_dir : option SspFile; gcr_maxdepth : option Z; gcr_exclusion_pattern : list string;
  gcr_count : option Z }.

Record SspFileExistRequest := mkSspFileExistRequest { feq_type : option Z; feq_file : option SspFile }.
Record SspFileExistResponse := mkSspFileExistResponse {
  fer_type : option Z; fer_file : option SspFile; fer_exist : option bool }.

Record SspCreateFolderRequest := mkSspCreateFolderRequest { cfq_type : option Z; cfq_file : option SspFile }.
Record SspCreateFolderResponse := mkSspCreateFolderResponse {
  cfr_type : option Z; cfr_file : option SspFile; cfr_succeed : option bool; cfr_error_code : option Z;
  cfr_error_message : option string }.

Record SspRenameFileRequest := mkSspRenameFileRequest {
  rnq_type : option Z; rnq_source_file : option SspFile; rnq_target_file : option SspFile }.
Record SspRenameFileResponse := mkSspRenameFileResponse {
  rnr_type : option Z; rnr_source_file : option SspFile; rnr_target_file : option SspFile; rnr_succeed : option bool;
  rnr_error_code : option Z; rnr_error_message : option string }.

Record SspDeleteFileRequest := mkSspDeleteFileRequest {
  dlq_type : option Z; dlq_file : list SspFile; dlq_is_sync : option bool; dlq_is_trash : option bool }.
Record SspDeleteFileResponse := mkSspDeleteFileResponse {
  dlr_type : option Z; dlr_file : list SspFile; dlr_succeed : option bool; dlr_error_code : option Z;
  dlr_error_message : option string }.

Record SspMonitorFolderRequest := mkSspMonitorFolderRequest {
  mfq_type : option Z; mfq_file : option SspFile; mfq_register : option bool }.
Record SspMonitorFolderResponseHeader := mkSspMonitorFolderResponseHeader {
  mfh_type : option Z; mfh_succeed : option bool; mfh_error_message : option string }.

Record SspUpdateFileRequest := mkSspUpdateFileRequest {
  ufq_type : option Z; ufq_files : list SspFile; ufq_is_sync : option bool }.
Record SspUpdateFileResponse := mkSspUpdateFileResponse { ufr_type : option Z; ufr_is_success : option bool }.

Record SspPhotoSyncRequest := mkSspPhotoSyncRequest {
  psq_type : option Z; psq_pc_id : option string; psq_files : list SspFile }.
Record SspSyncMonitorRequest := mkSspSyncMonitorRequest { smq_type : option Z; smq_is_sync_monitor : option bool }.

(** ** Transfers *)

Record SspDownloadFileRequest := mkSspDownloadFileRequest {
  dfq_type : option Z; dfq_file : option SspFile; dfq_range : option SspDataRange; dfq_need_md5 : option bool;
  dfq_gzip : option bool; dfq_is_sync : option bool }.
Record SspDownloadFileResponseHeader := mkSspDownloadFileResponseHeader {
  dfh_type : option Z; dfh_file : option SspFile; dfh_range : option SspDataRange; dfh_need_md5 : option bool;
  dfh_data_md5 : option string; dfh_ready : option bool; dfh_error_code : option Z }.

Record SspUploadFileRequest := mkSspUploadFileRequest {
  upq_type : option Z; upq_file : option SspFile; upq_data_md5 : option string; upq_gzip : option bool;
  upq_is_sync : option bool }.
Record SspUploadFileResponseHeader := mkSspUploadFileResponseHeader {
  uph_type : option Z; uph_file : option SspFile; uph_ready : option bool; uph_error_code : option Z }.
Record SspUploadFileResponse := mkSspUploadFileResponse {
  upr_type : option Z; upr_file : option SspFile; upr_canceled : option bool; upr_succeed : option bool;
  upr_error_code : option Z }.

(** ** Clipboard *)

Record SspGetClipboardRequest := mkSspGetClipboardRequest { gbq_type : option Z }.
Record SspGetClipboardResponse := mkSspGetClipboardResponse { gbr_type : option Z; gbr_clipboard : list SspClipboard }.
Record SspPostClipboardRequest := mkSspPostClipboardRequest { pbq_type : option Z; pbq_clipboard : SspClipboard }.
Record SspPostClipboardResponse := mkSspPostClipboardResponse { pbr_type : option Z; pbr_succeed : option bool }.
Record SspDeleteClipboardRequest := mkSspDeleteClipboardRequest { dbq_type : option Z; dbq_clipboard : SspClipboard }.
Record SspDeleteClipboardResponse := mkSspDeleteClipboardResponse { dbr_type : option Z; dbr_succeed : option bool }.
Record SspClearClipboardRequest := mkSspClearClipboardRequest { lbq_type : option Z }.
Record SspClearClipboardResponse := mkSspClearClipboardResponse { lbr_type : option Z; lbr_succeed : option bool }.

(** ** Device and media *)

Record SspGetDeviceInfoRequest := mkSspGetDeviceInfoRequest {
  diq_type : option Z; diq_host_timestamp : option Z; diq_host_smart_sync_protocol_version : option string;
  diq_need_device_info_callback : option bool; diq_need_photo_library_callback : option bool;
  diq_need_audio_library_callback : option bool; diq_need_video_library_callback : option bool;
  diq_host_app_version : option string; diq_host_min_client_version : option string; diq_host_type : option Z;
  diq_host_app_version_code : option Z }.

Record SspImageAlbum := mkSspImageAlbum {
  ib_album_path : option string; ib_album_id : option Z; ib_album_name : option string;
  ib_cover_image : option SspImageFile }.
Record SspVideoAlbum := mkSspVideoAlbum {
  vb_album_path : option string; vb_album_id : option Z; vb_album_name : option string }.

Record SspGetPhotoLibraryRequest := mkSspGetPhotoLibraryRequest { gpq_type : option Z }.
Record SspGetPhotoLibraryResponse := mkSspGetPhotoLibraryResponse {
  gpr_type : option Z; gpr_image : list SspImageFile; gpr_album : list SspImageAlbum; gpr_camera_album_id : option Z }.
Record SspGetVideoLibraryRequest := mkSspGetVideoLibraryRequest { gvq_type : option Z }.
Record SspGetVideoLibraryResponse := mkSspGetVideoLibraryResponse {
  gvr_type : option Z; gvr_video : list SspVideoFile; gvr_album : list SspVideoAlbum }.
Record SspGetAudioLibraryRequest := mkSspGetAudioLibraryRequest { gaq_type : option Z }.
Record SspGetAudioLibraryResponse := mkSspGetAudioLibraryResponse {
  gar_type : option Z; gar_audio : list SspAudioFile; gar_album : list SspAudioAlbum }.
Record SspGetThumbnailRequest := mkSspGetThumbnailRequest {
  gtq_type : option Z; gtq_image : list SspImageFile; gtq_video : list SspVideoFile; gtq_audio_album : list SspAudioAlbum }.
Record SspGetThumbnailResponse := mkSspGetThumbnailResponse {
  gtr_type : option Z; gtr_image : list SspImageFile; gtr_video : list SspVideoFile; gtr_audio_album : list SspAudioAlbum }.

(** The messages the client encodes and decodes, and flate2's gzip encoder. *)
Class ClientCodec := {
  #[global] cc_heart_beat_request :: Message SspHeartBeatRequest;
  #[global] cc_heart_beat_response :: Message SspHeartBeatResponse;
  #[global] cc_dir_files_request :: Message SspGetDirFilesRequest;
  #[global] cc_dir_files_response :: Message SspGetDirFilesResponse;
  #[global] cc_file_count_request :: Message SspGetFileCountRequest;
  #[global] cc_file_count_response :: Message SspGetFileCountResponse;
  #[global] cc_file_exist_request :: Message SspFileExistRequest;
  #[global] cc_file_exist_response :: Message SspFileExistResponse;
  #[global] cc_create_folder_request :: Message SspCreateFolderRequest;
  #[global] cc_create_folder_response :: Message SspCreateFolderResponse;
  #[global] cc_rename_file_request :: Message SspRenameFileRequest;
  #[global] cc_rename_file_response :: Message SspRenameFileResponse;
  #[global] cc_delete_file_request :: Message SspDeleteFileRequest;
  #[global] cc_delete_file_response :: Message SspDeleteFileResponse;
  #[global] cc_monitor_folder_request :: Message SspMonitorFolderRequest;
  #[global] cc_monitor_folder_response :: Message SspMonitorFolderResponseHeader;
  #[global] cc_update_file_request :: Message SspUpdateFileRequest;
  #[global] cc_update_file_response :: Message SspUpdateFileResponse;
  #[global] cc_photo_sync_request :: Message SspPhotoSyncRequest;
  #[global] cc_photo_sync_response :: Message SspPhotoSyncResponse;
  #[global] cc_sync_monitor_request :: Message SspSyncMonitorRequest;
  #[global] cc_sync_monitor_response :: Message SspSyncMonitorResponse;
  #[global] cc_download_file_request :: Message SspDownloadFileRequest;
  #[global] cc_download_file_header :: Message SspDownloadFileResponseHeader;
  #[global] cc_upload_file_request :: Message SspUploadFileRequest;
  #[global] cc_upload_file_header :: Message SspUploadFileResponseHeader;
  #[global] cc_upload_file_response :: Message SspUploadFileResponse;
  #[global] cc_get_clipboard_request :: Message SspGetClipboardRequest;
  #[global] cc_get_clipboard_response :: Message SspGetClipboardResponse;
  #[global] cc_post_clipboard_request :: Message SspPostClipboardRequest;
  #[global] cc_post_clipboard_response :: Message SspPostClipboardResponse;
  #[global] cc_delete_clipboard_request :: Message SspDeleteClipboardRequest;
  #[global] cc_delete_clipboard_response :: Message SspDeleteClipboardResponse;
  #[global] cc_clear_clipboard_request :: Message SspClearClipboardRequest;
  #[global] cc_clear_clipboard_response :: Message SspClearClipboardResponse;
  #[global] cc_device_info_request :: Message SspGetDeviceInfoRequest;
  #[global] cc_device_info_response :: Message SspGetDeviceInfoResponse;
  #[global] cc_photo_library_request :: Message SspGetPhotoLibraryRequest;
  #[global] cc_photo_library_response :: Message SspGetPhotoLibraryResponse;
  #[global] cc_video_library_request :: Message SspGetVideoLibraryRequest;
  #[global] cc_video_library_response :: Message SspGetVideoLibraryResponse;
  #[global] cc_audio_library_request :: Message SspGetAudioLibraryRequest;
  #[global] cc_audio_library_response :: Message SspGetAudioLibraryResponse;
  #[global] cc_thumbnail_request :: Message SspGetThumbnailRequest;
  #[global] cc_thumbnail_response :: Message SspGetThumbnailResponse;
  gzip : string -> result string (list byte);
  gunzip : list byte -> result string string
}.

(** [SspFile::default()] *)
Definition SspFile_default : SspFile :=
  mkSspFile None None None None None None None None None None None None None.

(** ** [SspFileIoError] *)

Inductive SspFileIoError :=
  | FileIoUnknowError | FileIoInvalidName | FileIoInvalidSource | FileIoTargetAlreadyExist | FileIoPermissionError
  | FileIoInsufficientDiskSpaceError | FileIoMd5CheckError | FileIoSystemFile | FileIoSdcardRemoved
  | FileIoSdcardNoPermission | FileIoPathOrNameTooLong | FileIoCancelAction.

Definition file_io_error_try_from (n : Z) : option SspFileIoError :=
  match n with
  | 1 => Some FileIoUnknowError | 2 => Some FileIoInvalidName | 3 => Some FileIoInvalidSource
  | 4 => Some FileIoTargetAlreadyExist | 5 => Some FileIoPermissionError
  | 6 => Some FileIoInsufficientDiskSpaceError | 7 => Some FileIoMd5CheckError | 8 => Some FileIoSystemFile
  | 9 => Some FileIoSdcardRemoved | 10 => Some FileIoSdcardNoPermission | 11 => Some FileIoPathOrNameTooLong
  | 12 => Some FileIoCancelAction
  | _ => None
  end.

Definition file_io_error_value (e : SspFileIoError) : Z :=
  match e with
  | FileIoUnknowError => 1 | FileIoInvalidName => 2 | FileIoInvalidSource => 3 | FileIoTargetAlreadyExist => 4
  | FileIoPermissionError => 5 | FileIoInsufficientDiskSpaceError => 6 | FileIoMd5CheckError => 7
  | FileIoSystemFile => 8 | FileIoSdcardRemoved => 9 | FileIoSdcardNoPermission => 10
  | FileIoPathOrNameTooLong => 11 | FileIoCancelAction => 12
  end.

Definition file_io_error_name (e : SspFileIoError) : string :=
  match e with
  | FileIoUnknowError => "FILE_IO_UNKNOW_ERROR" | FileIoInvalidName => "FILE_IO_INVALID_NAME"
  | FileIoInvalidSource => "FILE_IO_INVALID_SOURCE" | FileIoTargetAlreadyExist => "FILE_IO_TARGET_ALREADY_EXIST"
  | FileIoPermissionError => "FILE_IO_PERMISSION_ERROR"
  | FileIoInsufficientDiskSpaceError => "FILE_IO_INSUFFICIENT_DISK_SPACE_ERROR"
  | FileIoMd5CheckError => "FILE_IO_MD5_CHECK_ERROR" | FileIoSystemFile => "FILE_IO_SYSTEM_FILE"
  | FileIoSdcardRemoved => "FILE_IO_SDCARD_REMOVED" | FileIoSdcardNoPermission => "FILE_IO_SDCARD_NO_PERMISSION"
  | FileIoPathOrNameTooLong => "FILE_IO_PATH_OR_NAME_TOO_LONG" | FileIoCancelAction => "FILE_IO_CANCEL_ACTION"
  end.

Lemma file_io_error_round_trip (e : SspFileIoError) : file_io_error_try_from (file_io_error_value e) = Some e.
Proof. by destruct e. Qed.
