(* ===== verification/Client.v ===== *)
(** * The client's requests

    crates/handshaker-core/src/client.rs: the operations that are one or two signed
    requests, with the mapping of the phone's answers.  Downloads and uploads are in
    ClientTransfer.v, batches and trees in ClientBatch.v.  An operation threads the
    client's state and is given what the world answers each request. *)

From Stdlib Require Import Strings.String Strings.Ascii.
From stdpp Require Import gmap.
From S2P Require Import Prelude Errors Domain Frame Handshake Proto Session Text ClientProto EventDecode RemotePath.

#[local] Open Scope string_scope.
#[local] Open Scope list_scope.
#[local] Open Scope Z_scope.

(** [session] is taken out when the client is closed. *)
Record HandShakerClient := mkClient { hc_session : option SessionInner; hc_device : DeviceInfo }.

(** What the world answers one request: the writer, the caller's token when the
    request is opened, and the events of its channel. *)
Record RequestAnswers := mkAnswers { ra_open : send_answer; ra_cancelled : bool; ra_events : list rx_event }.

Definition client (A : Type) : Type := HandShakerClient -> Res A * HandShakerClient.

Definition client_ret {A} (r : Res A) : client A := fun c => (r, c).
Definition client_bind {A B} (m : client A) (k : A -> client B) : client B := fun c =>
  match m c with
  | (Ok a, c) => k a c
  | (Err e, c) => (Err e, c)
  end.
Notation "'do?' x ':=' m 'in' k" := (client_bind m (fun x => k))
  (at level 10, x name, m at level 150, k at level 200) : hs_scope.

(** [HandShakerClient::session] *)
Definition on_session {A} (m : SessionInner -> Res A * SessionInner) : client A := fun c =>
  match hc_session c with
  | None => (Err (ETransport (Msg "client.connection_closed" [])), c)
  | Some s => let (r, s) := m s in (r, mkClient (Some s) (hc_device c))
  end.

(** ** Mappings *)

Definition ssp_file (p : string) (is_directory : bool) (size : option Z) : SspFile :=
  mkSspFile (Some p) size None None (Some is_directory) None None None None None None None None.

Definition ssp_file_from_remote (file : RemoteFile) : SspFile := {|
  f_path := Some (rf_path file);
  f_file_size := Some (rf_size file);
  f_created_timestamp := rf_created_at file;
  f_modified_timestamp := rf_modified_at file;
  f_is_directory := Some (rf_is_directory file);
  f_checksum := rf_checksum file;
  f_file_type := None;
  f_prefix_md5 := None;
  f_ext_data := rf_ext_data file;
  f_is_trash := rf_is_trash file;
  f_succeed := None;
  f_error_code := None;
  f_id := rf_id file
|}.

Definition image_file (file : SspImageFile) : ImageFile := {|
  img_path := if_path file;
  img_size := if_file_size file;
  img_created_at := if_created_timestamp file;
  img_modified_at := if_modified_timestamp file;
  img_width := if_width file;
  img_height := if_height file;
  img_orientation := if_orientation file;
  img_media_id := if_media_id file;
  img_album_id := if_album_id file;
  img_mime_type := if_mime_type file;
  img_thumbnail := if_thumbnail file;
  img_album_name := if_album_name file;
  img_date_taken := if_date_taken file;
  img_latitude := if_latitude file;
  img_longitude := if_longitude file;
  img_mini_thumb_magic := if_mini_thumb_magic file;
  img_title := if_title file;
  img_thumbnail_error := default false (if_get_thumbnail_error file);
  img_starred := default false (if_starred file)
|}.

Definition image_album (album : SspImageAlbum) : ImageAlbum :=
  mkImageAlbum (ib_album_path album) (ib_album_id album) (ib_album_name album) (image_file <$> ib_cover_image album).

Definition video_file (file : SspVideoFile) : VideoFile := {|
  vid_path := vf_path file;
  vid_size := vf_file_size file;
  vid_created_at := vf_created_timestamp file;
  vid_modified_at := vf_modified_timestamp file;
  vid_width := vf_width file;
  vid_height := vf_height file;
  vid_orientation := vf_orientation file;
  vid_media_id := vf_media_id file;
  vid_album_id := vf_album_id file;
  vid_mime_type := vf_mime_type file;
  vid_thumbnail := vf_thumbnail file;
  vid_thumbnail_error := default false (vf_get_thumbnail_error file);
  vid_duration := vf_duration file
|}.

Definition video_album (album : SspVideoAlbum) : VideoAlbum :=
  mkVideoAlbum (vb_album_path album) (vb_album_id album) (vb_album_name album).

Definition audio_file (file : SspAudioFile) : AudioFile := {|
  aud_path := af_path file;
  aud_size := af_file_size file;
  aud_created_at := af_created_timestamp file;
  aud_modified_at := af_modified_timestamp file;
  aud_media_id := af_media_id file;
  aud_album_id := af_album_id file;
  aud_title := af_title file;
  aud_mime_type := af_mime_type file;
  aud_artist_id := af_artist_id file;
  aud_artist := af_artist file;
  aud_composer := af_composer file;
  aud_genre := af_genre file;
  aud_comment := af_comment file;
  aud_copyright := af_copyright file;
  aud_audio_codec := af_audio_codec file;
  aud_track := af_track file;
  aud_duration := f64_div_1000 <$> af_duration file
|}.

(** [audio_album] of client.rs (the one of event_decode.rs maps to an event). *)
Definition library_audio_album (album : SspAudioAlbum) : AudioAlbum := {|
  aa_path := ab_album_path album;
  aa_album_id := ab_album_id album;
  aa_name := ab_album_name album;
  aa_artist_id := ab_artist_id album;
  aa_artist := ab_artist album;
  aa_year := ab_year album;
  aa_thumbnail := ab_thumbnail album;
  aa_thumbnail_error := default false (ab_get_thumbnail_error album)
|}.

Definition thumbnail_image_request (image : ImageFile) : SspImageFile :=
  mkSspImageFile (img_path image) None None None None None None (img_media_id image) None None None None None None None
    None None None None.
Definition thumbnail_video_request (video : VideoFile) : SspVideoFile :=
  mkSspVideoFile (vid_path video) None None None None None None (vid_media_id video) None None None None None.
Definition thumbnail_audio_album_request (album : AudioAlbum) : SspAudioAlbum :=
  mkSspAudioAlbum (aa_path album) (aa_album_id album) None None None None None None.

(** ** The phone's verdicts *)

Definition remote_error (code : option Z) (fallback : message) : Error :=
  ERemoteIo code (match code ≫= file_io_error_try_from with
                  | Some e => Msg (file_io_error_name e) []
                  | None => fallback
                  end).

Definition ensure_remote_success (succeed : option bool) (code : option Z) (text : option string) : Res unit :=
  if bool_decide (succeed = Some true) then Ok ()
  else Err (remote_error code (match text with Some t => Msg t [] | None => Msg "client.remote_failed" [] end)).

Definition ensure_deleted_files_succeeded (files : list SspFile) : Res unit :=
  match find (fun file => bool_decide (f_succeed file = Some false)) files with
  | Some failed =>
      Err (ERemoteIo (f_error_code failed) (Msg "client.delete_failed" [default "<unknown>" (f_path failed)]))
  | None => Ok ()
  end.

Section Requests.
Context `{Crypto} `{ProtoCodec} `{ClientCodec} (keys : SessionKeys).

(** [Session::request_with_options] *)
Definition request_with_options (payload : list byte) (a : RequestAnswers) (s : SessionInner)
  : Res (list byte) * SessionInner :=
  match open_signed keys (ra_open a) payload (ra_cancelled a) s with
  | (Err e, s) => (Err e, s)
  | (Ok req, s) =>
      let '(response, req, s) := request_receive_normal (ra_events a) req s in
      (response, request_finish req s)
  end.

(** Send a message, decode the answer. *)
Definition exchange {Q R} `{Message Q} `{Message R} (q : Q) (a : RequestAnswers) : client R :=
  do? body := on_session (request_with_options (encode_to_vec q) a) in client_ret (decoded body).

Definition MEDIA_RESPONSE_LIMIT : Z := 64 * 1024 * 1024.

Definition decode_media_response {R} `{Message R} (body : list byte) : Res R :=
  if zlen body >? MEDIA_RESPONSE_LIMIT
  then Err (EProtocol (Msg "media.response_too_large" [pretty (zlen body / 1024 / 1024)]))
  else decoded body.

Definition media_exchange {Q R} `{Message Q} `{Message R} (q : Q) (a : RequestAnswers) : client R :=
  do? body := on_session (request_with_options (encode_to_vec q) a) in client_ret (decode_media_response body).

Definition request_type (t : SspRequestType) : option Z := Some (request_type_value t).

(** [ping_with_options]; the elapsed time is the clock's. *)
Definition ping (now elapsed_ms : Z) (a : RequestAnswers) : client (Z * option Z * option Z) :=
  do? response := exchange (mkSspHeartBeatRequest (request_type RtHeartBeatRequest) (Some now)) a in
  client_ret (Ok (elapsed_ms, hbr_host_timestamp response, hbr_client_timestamp response)).

Definition list_dir (p : string) (depth : Z) (a : RequestAnswers) : client (list RemoteFile) :=
  do? response := exchange (mkSspGetDirFilesRequest (request_type RtGetDirFilesRequest) (Some (ssp_file p true None))
                              (Some (Z.max depth 1))) a in
  client_ret (Ok (remote_file <$> gdr_file response)).

Definition file_count (p : string) (depth : Z) (exclusions : list string) (a : RequestAnswers) : client Z :=
  do? response := exchange (mkSspGetFileCountRequest (request_type RtGetFileCountRequest) (Some (ssp_file p true None))
                              (Some (Z.max depth 1)) exclusions) a in
  client_ret (Ok (default 0 (gcr_count response))).

Definition file_exists (p : string) (a : RequestAnswers) : client bool :=
  do? response := exchange (mkSspFileExistRequest (request_type RtGetFileExistRequest) (Some (ssp_file p false None))) a in
  client_ret (Ok (default false (fer_exist response))).

Definition root_path (c : HandShakerClient) : string := di_root_path (hc_device c).

Definition stat (p : string) (a : RequestAnswers) : client (option RemoteFile) := fun c =>
  if bool_decide (p = root_path c)
  then (Ok (Some (mkRemoteFile p (default 0 (di_disk_size (hc_device c))) None None true None None None None)), c)
  else match split_remote_path p with
       | Err e => (Err e, c)
       | Ok (parent, _) =>
           (do? files := list_dir parent 1 a in
            client_ret (Ok (find (fun file => bool_decide (rf_path file = p)) files))) c
       end.

Definition create_dir (p : string) (a : RequestAnswers) : client RemoteFile :=
  do? response := exchange (mkSspCreateFolderRequest (request_type RtGetCreateFolderRequest)
                              (Some (ssp_file p true None))) a in
  do? _ := client_ret (ensure_remote_success (cfr_succeed response) (cfr_error_code response) (cfr_error_message response)) in
  client_ret (ok_or (remote_file <$> cfr_file response) (EProtocol (Msg "client.mkdir_missing_file" []))).

Definition rename (source target : string) (a : RequestAnswers) : client unit :=
  do? response := exchange (mkSspRenameFileRequest (request_type RtGetRenameFileRequest)
                              (Some (ssp_file source false None)) (Some (ssp_file target false None))) a in
  client_ret (ensure_remote_success (rnr_succeed response) (rnr_error_code response) (rnr_error_message response)).

Definition update_files_info (files : list RemoteFile) (is_sync : bool) (a : RequestAnswers) : client bool :=
  do? response := exchange (mkSspUpdateFileRequest (request_type RtUpdateFileInfo)
                              (ssp_file_from_remote <$> files) (Some is_sync)) a in
  client_ret (if bool_decide (ufr_is_success response = Some true) then Ok true
              else Err (EProtocol (Msg "client.update_file_info_failed" []))).

Definition photo_sync (pc_id : string) (files : list RemoteFile) (a : RequestAnswers)
  : client (option bool * list RemoteFile * option bool) :=
  do? response := exchange (mkSspPhotoSyncRequest (request_type RtPhotoSyncRequest) (Some pc_id)
                              (ssp_file_from_remote <$> files)) a in
  client_ret (Ok (psr_is_first response, remote_file <$> psr_files response, psr_is_success response)).

Definition sync_monitor (enabled : bool) (a : RequestAnswers) : client bool :=
  do? response := exchange (mkSspSyncMonitorRequest (request_type RtSyncMonitorRequest) (Some enabled)) a in
  client_ret (Ok (default true (smr_is_success response))).

(** [delete] and [delete_with_options]; the fields of [DeleteOptions] in their order. *)
Definition delete_paths (paths : list string) (trash sync : bool) (a : RequestAnswers) : client (list RemoteFile) :=
  do? response := exchange (mkSspDeleteFileRequest (request_type RtGetDeleteFileRequest)
                              ((fun p => ssp_file p false None) <$> paths) (Some sync) (Some trash)) a in
  do? _ := client_ret (ensure_remote_success (dlr_succeed response) (dlr_error_code response) (dlr_error_message response)) in
  do? _ := client_ret (ensure_deleted_files_succeeded (dlr_file response)) in
  client_ret (Ok (remote_file <$> dlr_file response)).

Definition monitor_folder (p : string) (register : bool) (a : RequestAnswers) : client unit :=
  do? response := exchange (mkSspMonitorFolderRequest (request_type RtMonitorFolderRequest)
                              (Some (ssp_file p true None)) (Some register)) a in
  client_ret (ensure_remote_success (mfh_succeed response) None (mfh_error_message response)).

(** ** Clipboard *)

Definition decode_clipboard (clipboard : SspClipboard) : Res ClipboardEntry :=
  match gunzip (default [] (cb_content clipboard)) with
  | Ok text => Ok (mkClipboardEntry text (default 0 (cb_mstimestamp clipboard)))
  | Err e => Err (EProtocol (Msg "client.decompress_clipboard_failed" [e]))
  end.

(** [collect] into a [Result]: the first error, or all entries. *)
Fixpoint decode_clipboards (cs : list SspClipboard) : Res (list ClipboardEntry) :=
  match cs with
  | [] => Ok []
  | c :: cs =>
      match decode_clipboard c with
      | Err e => Err e
      | Ok entry => match decode_clipboards cs with Ok entries => Ok (entry :: entries) | Err e => Err e end
      end
  end.

Definition fetch_clipboards (a : RequestAnswers) : client (list SspClipboard) :=
  do? response := exchange (mkSspGetClipboardRequest (request_type RtGetClipboardRequest)) a in
  client_ret (Ok (gbr_clipboard response)).

Definition clipboard_list (a : RequestAnswers) : client (list ClipboardEntry) :=
  do? entries := fetch_clipboards a in client_ret (decode_clipboards entries).

Definition clipboard_set (text : string) (now_ms : Z) (a : RequestAnswers) : client unit :=
  match gzip text with
  | Err e => client_ret (Err (ELocalIo (Msg "client.compress_clipboard_failed" [e])))
  | Ok content =>
      do? response := exchange (mkSspPostClipboardRequest (request_type RtPostClipboardRequest)
                                  (mkSspClipboard (Some content) (Some now_ms))) a in
      client_ret (ensure_remote_success (pbr_succeed response) None None)
  end.

Definition clipboard_delete (timestamp_ms : Z) (a1 a2 : RequestAnswers) : client unit :=
  do? entries := fetch_clipboards a1 in
  match find (fun item => bool_decide (cb_mstimestamp item = Some timestamp_ms)) entries with
  | None => client_ret (Err (ERemoteIo None (Msg "client.clipboard_entry_missing" [pretty timestamp_ms])))
  | Some clipboard =>
      do? response := exchange (mkSspDeleteClipboardRequest (request_type RtDeleteClipboardRequest) clipboard) a2 in
      client_ret (ensure_remote_success (dbr_succeed response) None None)
  end.

Definition clipboard_clear (a : RequestAnswers) : client unit :=
  do? response := exchange (mkSspClearClipboardRequest (request_type RtClearClipboardRequest)) a in
  client_ret (ensure_remote_success (lbr_succeed response) None None).

(** ** Media libraries *)

Definition get_photo_library (a : RequestAnswers) : client PhotoLibrary :=
  do? response := media_exchange (mkSspGetPhotoLibraryRequest (request_type RtGetPhotoLibRequest)) a in
  client_ret (Ok (mkPhotoLibrary (image_file <$> gpr_image response) (image_album <$> gpr_album response)
                    (gpr_camera_album_id response))).

Definition get_video_library (a : RequestAnswers) : client VideoLibrary :=
  do? response := media_exchange (mkSspGetVideoLibraryRequest (request_type RtGetVideoLibRequest)) a in
  client_ret (Ok (mkVideoLibrary (video_file <$> gvr_video response) (video_album <$> gvr_album response))).

Definition get_audio_library (a : RequestAnswers) : client AudioLibrary :=
  do? response := media_exchange (mkSspGetAudioLibraryRequest (request_type RtGetAudioLibRequest)) a in
  client_ret (Ok (mkAudioLibrary (audio_file <$> gar_audio response) (library_audio_album <$> gar_album response))).

Definition get_thumbnails (images : list ImageFile) (videos : list VideoFile) (audio_albums : list AudioAlbum)
  (a : RequestAnswers) : client (list ImageFile * list VideoFile * list AudioAlbum) :=
  do? response := media_exchange (mkSspGetThumbnailRequest (request_type RtGetThumbnailRequest)
                    (thumbnail_image_request <$> images) (thumbnail_video_request <$> videos)
                    (thumbnail_audio_album_request <$> audio_albums)) a in
  client_ret (Ok (image_file <$> gtr_image response, video_file <$> gtr_video response,
                  library_audio_album <$> gtr_audio_album response)).

(** ** Device information and closing *)

Record EventCallbacks := mkEventCallbacks {
  cb_device_info : bool; cb_photo_library : bool; cb_audio_library : bool; cb_video_library : bool }.

Definition COMPATIBLE_HOST_APP_VERSION : string := "2.5.6".
Definition COMPATIBLE_HOST_APP_VERSION_CODE : Z := 408.

Definition fetch_device_info (callbacks : EventCallbacks) (now : Z) (a : RequestAnswers) : client DeviceInfo := fun c =>
  (do? response := exchange (mkSspGetDeviceInfoRequest (request_type RtGetDeviceInfoRequest) (Some now) (Some "1")
                      (Some (cb_device_info callbacks)) (Some (cb_photo_library callbacks))
                      (Some (cb_audio_library callbacks)) (Some (cb_video_library callbacks))
                      (Some COMPATIBLE_HOST_APP_VERSION) (Some "1.0.0") (Some 1)
                      (Some COMPATIBLE_HOST_APP_VERSION_CODE)) a in
   client_ret (Ok {|
     di_serial := di_serial (hc_device c);
     di_phone_id := dir_phone_id response;
     di_name := dir_phone_name response;
     di_model := dir_phone_model response;
     di_brand := dir_product_brand response;
     di_manufacturer := dir_product_manufacturer response;
     di_smartisan_version := dir_smartisan_version response;
     di_apk_version := dir_apk_version response;
     di_apk_version_name := dir_apk_version_name response;
     di_root_path := default "/sdcard" (dir_root_path response);
     di_external_storage_path := dir_external_storage_path response;
     di_disk_size := dir_disk_size response;
     di_used_disk_size := dir_used_disk_size response;
     di_battery_percentage := dir_battery_percentage response;
     di_phone_locked := dir_phone_locked response
   |})) c.

(** [close]: both the session and the transport are closed, the first error reported. *)
Definition close (answer : send_answer) (cleanup : option (Res unit)) (c : HandShakerClient)
  : Res unit * option SessionInner :=
  let (session_result, s) :=
    match hc_session c with
    | Some s => let (r, s) := session_close keys answer s in (r, Some s)
    | None => (Ok (), None)
    end in
  let cleanup_result := default (Ok ()) cleanup in
  (match session_result with Ok _ => cleanup_result | Err e => Err e end, s).

End Requests.
