(* ===== verification/ClientTransfer.v ===== *)
(** * Downloads and uploads

    crates/handshaker-core/src/client.rs: [download_with_options] writes what the phone
    sends into a temporary file next to the target and renames it; [download_bytes]
    collects it in memory; [upload_with_options] sends a local file. *)

From Stdlib Require Import Strings.String Strings.Ascii.
From stdpp Require Import gmap.
From S2P Require Import Prelude Errors Domain Frame Handshake Proto Session Text Paths Fs SyncStore SyncJournal ClientProto Client.

#[local] Open Scope string_scope.
#[local] Open Scope list_scope.
#[local] Open Scope Z_scope.

Inductive TransferDirection := DownloadDirection | UploadDirection.

Record TransferProgress := mkTransferProgress {
  tp_direction : TransferDirection; tp_transferred : Z; tp_total : Z }.

(** [progress] of [TransferOptions] is whether a callback is given. *)
Record TransferOptions := mkTransferOptions { to_overwrite : bool; to_progress : bool; to_offset : Z }.

Definition TransferOptions_default : TransferOptions := mkTransferOptions false false 0.

Definition announce (options : TransferOptions) (direction : TransferDirection) (total : Z) (at_ : list Z)
  : list TransferProgress :=
  if to_progress options then (fun n => mkTransferProgress direction n total) <$> at_ else [].

(** [str::eq_ignore_ascii_case] *)
Definition ascii_lower (c : ascii) : ascii :=
  let n := N_of_ascii c in if ((65 <=? n) && (n <=? 90))%N then ascii_of_N (n + 32) else c.
Fixpoint eq_ignore_ascii_case (a b : string) : bool :=
  match a, b with
  | EmptyString, EmptyString => true
  | String x a, String y b => bool_decide (ascii_lower x = ascii_lower y) && eq_ignore_ascii_case a b
  | _, _ => false
  end.

(** [Path::file_name] *)
Definition file_name (p : path) : option string :=
  match last (components p) with
  | Some (Normal name) => Some name
  | _ => None
  end.

Definition temporary_name (name uuid : string) : string := "." +:+ (name +:+ (".handshaker-part-" +:+ uuid)).

Definition temporary_download_path (local : path) (uuid : string) : Res path :=
  let parent := default "." (path_parent local) in
  match file_name local with
  | None => Err (ELocalIo (Msg "client.local_path_name_required" [local]))
  | Some name => Ok (path_join parent (temporary_name name uuid))
  end.

(** What the world answers a download: the request, the channel while the header and
    then the file are awaited, the writer if the request is dropped, and a fresh UUID. *)
Record DownloadAnswers := mkDownloadAnswers {
  da_open : send_answer;
  da_cancelled : bool;
  da_header : list rx_event;
  da_raw : list rx_event;
  da_drop : send_answer;
  da_uuid : string
}.

Section Transfers.
Context `{Crypto} `{ProtoCodec} `{ClientCodec} (keys : SessionKeys).

(** Open a request, and drop it at the end unless it was finished. *)
Definition with_request {A X} (payload : list byte) (answer : send_answer) (cancelled : bool) (drop_answer : send_answer)
  (none : X) (use : OpenRequest -> SessionInner -> io (Res A * X * OpenRequest * SessionInner)) (s : SessionInner)
  : io (Res A * X * SessionInner) :=
  match open_signed keys answer payload cancelled s with
  | (Err e, s) => mret (Err e, none, s)
  | (Ok req, s) =>
      let* r := use req s in
      let '(result, x, req, s) := r in
      mret (result, x, request_drop drop_answer req s)
  end.

(** [finish] marks the request complete, so that its drop does nothing. *)
Definition finish (req : OpenRequest) (s : SessionInner) : OpenRequest * SessionInner :=
  (mkOpenRequest (or_sid req) (or_phase req) true, request_finish req s).

(** [M::decode(open.receive_normal().await?.as_slice())?] *)
Definition receive_message {R} `{Message R} (evs : list rx_event) (req : OpenRequest) (s : SessionInner)
  : Res R * OpenRequest * SessionInner :=
  let '(response, req, s) := request_receive_normal evs req s in
  (match response with Ok body => decoded body | Err e => Err e end, req, s).

(** ** Into a file *)

Definition flush (file : path) : io (result io_error unit) := syscall (fun f => (Ok (), f)) untouched.

(** The loop of [receive_raw_to] with a file as its writer. *)
Fixpoint receive_raw_file_loop (file : path) (evs : list rx_event) (sid total received : Z) (d : DownloadDiscriminator)
  (k : sink) (s : SessionInner) : io (Res (list byte) * sink * SessionInner) :=
  if received >=? total then
    let* flushed := flush file in
    match flushed with
    | Err e => mret (Err (ELocalIo (Msg "session.flush_download_failed" [io_text e])), k, s)
    | Ok _ => mret (Ok (md5 (sink_digest k)), k, s)
    end
  else match evs with
  | [] => mret (Err (ETimeout (Msg "session.receive_file_chunk" [])), k, s)
  | ev :: evs =>
      match receive_incoming ev sid true s with
      | (Err (ETimeout _), s) => mret (Err (ETimeout (Msg "session.receive_file_chunk" [])), k, s)
      | (Err e, s) => mret (Err e, k, s)
      | (Ok (IRemoteCancelled info), s) => mret (Err (ECancelled info), k, s)
      | (Ok (IData chunk), s) =>
          match discriminator_push d chunk (total - received) with
          | (Err e, _) => mret (Err e, k, s)
          | (Ok None, d) => receive_raw_file_loop file evs sid total received d k s
          | (Ok (Some chunk), d) =>
              match checked_add_usize received (zlen chunk) with
              | None => mret (Err (EProtocol (Msg "session.download_count_overflow" [])), k, s)
              | Some next_received =>
                  if next_received >? total
                  then mret (Err (EProtocol (Msg "session.download_too_long"
                               [pretty received; pretty (zlen chunk); pretty total])), k, s)
                  else
                    let* written := write_all file chunk in
                    match written with
                    | Err e => mret (Err (ELocalIo (Msg "session.write_download_failed" [io_text e])), k, s)
                    | Ok _ =>
                        receive_raw_file_loop file evs sid total next_received d
                          (Sink (sink_bytes k ++ chunk) (sink_digest k ++ chunk) (sink_progress k ++ [next_received])) s
                    end
              end
          end
      end
  end.

Definition receive_raw_file (file : path) (evs : list rx_event) (total : Z) (req : OpenRequest) (s : SessionInner)
  : io (Res (list byte) * sink * OpenRequest * SessionInner) :=
  let req := mkOpenRequest (or_sid req) PHASE_DOWNLOAD_RAW (or_completed req) in
  let* r := match usize_try_from total with
            | None => mret (Err (EProtocol (Msg "session.file_too_large" [])), Sink [] [] [], s)
            | Some total => receive_raw_file_loop file evs (or_sid req) total 0 discriminator_default (Sink [] [] []) s
            end in
  let '(result, k, s) := r in
  let req := if is_cancelled_error result then mkOpenRequest (or_sid req) (or_phase req) true else req in
  let s := if fails_connection result then fail_connection s else s in
  mret (result, k, req, s).

(** ** Downloads *)

Definition download_request (remote : string) (offset : Z) (need_md5 : bool) : SspDownloadFileRequest :=
  mkSspDownloadFileRequest (request_type RtGetDownloadFileRequest) (Some (ssp_file remote false None))
    (Some (mkSspDataRange (Some offset) (Some 0))) (Some need_md5) (Some false) (Some false).

(** The checks of the header: the length of the file, or the error to report and
    whether the request is finished before. *)
Definition check_header (header : SspDownloadFileResponseHeader) : result (Error * bool) Z :=
  if negb (bool_decide (dfh_ready header = Some true))
  then Err (remote_error (dfh_error_code header) (Msg "client.download_not_ready" []), true)
  else match dfh_range header ≫= dr_length with
       | None => Err (EProtocol (Msg "client.download_missing_length" []), false)
       | Some total => Ok total
       end.

Definition md5_mismatch (expected : option string) (actual : string) : option string :=
  match expected with
  | Some e => if negb (bool_decide (e = "")) && negb (eq_ignore_ascii_case e actual) then Some e else None
  | None => None
  end.

(** From [sync_all] on. *)
Definition commit_download (temporary local : path) (total : Z) (expected : option string) (digest : list byte)
  : io (Res Z) :=
  let*? _ := fails_local "client.sync_failed" temporary (sync_all temporary) in
  match md5_mismatch expected (hex_of_bytes digest) with
  | Some e => io_err (EProtocol (Msg "client.download_md5_mismatch" [e; hex_of_bytes digest]))
  | None =>
      let*? _ := io_map_err (fun e => mret (ELocalIo (Msg "client.move_failed" [temporary; local; io_text e])))
                   (rename_file temporary local) in
      io_ok total
  end.

(** From [File::create] on. *)
Definition write_download (temporary local : path) (total : Z) (expected : option string) (evs : list rx_event)
  (req : OpenRequest) (s : SessionInner) : io (Res Z * list Z * OpenRequest * SessionInner) :=
  let* created := fails_local "client.create_failed" temporary (file_create temporary) in
  match created with
  | Err e => mret (Err e, [], req, s)
  | Ok _ =>
      let* r := receive_raw_file temporary evs total req s in
      let '(receive, k, req, s) := r in
      let (req, s) := finish req s in
      let* result := match receive with
                     | Err e => io_err e
                     | Ok digest => commit_download temporary local total expected digest
                     end in
      mret (result, sink_progress k, req, s)
  end.

(** The drop of [TemporaryDownload] removes the file unless the download committed. *)
Definition with_temporary {A X} (temporary : path) (m : io (Res A * list Z * X * SessionInner))
  : io (Res A * list Z * X * SessionInner) :=
  let* r := m in
  match r.1.1.1 with
  | Ok _ => mret r
  | Err _ => let* _ := remove_quietly temporary in mret r
  end.

Definition download_opened (local : path) (options : TransferOptions) (a : DownloadAnswers) (req : OpenRequest)
  (s : SessionInner) : io (Res Z * list TransferProgress * OpenRequest * SessionInner) :=
  match receive_message (da_header a) req s with
  | (Err e, req, s) => mret (Err e, [], req, s)
  | (Ok header, req, s) =>
      match check_header header with
      | Err (e, finished) =>
          let (req, s) := if finished : bool then finish req s else (req, s) in mret (Err e, [], req, s)
      | Ok total =>
          let started := announce options DownloadDirection total [0] in
          match temporary_download_path local (da_uuid a) with
          | Err e => mret (Err e, started, req, s)
          | Ok temporary =>
              let* r := with_temporary temporary
                          (write_download temporary local total (dfh_data_md5 header) (da_raw a) req s) in
              let '(result, progress, req, s) := r in
              mret (result, started ++ announce options DownloadDirection total progress, req, s)
          end
      end
  end.

(** A file operation of the client. *)
Definition on_session_io {A X} (none : X) (m : SessionInner -> io (Res A * X * SessionInner)) (c : HandShakerClient)
  : io (Res A * X * HandShakerClient) :=
  match hc_session c with
  | None => mret (Err (ETransport (Msg "client.connection_closed" [])), none, c)
  | Some s => let* r := m s in let '(result, x, s) := r in mret (result, x, mkClient (Some s) (hc_device c))
  end.

Definition download_with_options (remote : string) (local : path) (options : TransferOptions) (a : DownloadAnswers)
  (c : HandShakerClient) : io (Res Z * list TransferProgress * HandShakerClient) :=
  let* there := path_exists local in
  if there && negb (to_overwrite options)
  then mret (Err (ELocalIo (Msg "client.local_target_exists" [local])), [], c)
  else on_session_io [] (with_request (encode_to_vec (download_request remote (to_offset options) true))
         (da_open a) (da_cancelled a) (da_drop a) [] (download_opened local options a)) c.

(** [download_bytes]: the writer is a vector, which never fails. *)
Definition download_bytes (remote : string) (limit : Z) (a : DownloadAnswers) : client (list byte) := on_session (fun s =>
  match open_signed keys (da_open a) (encode_to_vec (download_request remote 0 false)) (da_cancelled a) s with
  | (Err e, s) => (Err e, s)
  | (Ok req, s) =>
      match receive_message (da_header a) req s with
      | (Err e, req, s) => (Err e, request_drop (da_drop a) req s)
      | (Ok header, req, s) =>
          match check_header header with
          | Err (e, finished) =>
              (Err e, if finished : bool then request_finish req s else request_drop (da_drop a) req s)
          | Ok total =>
              if total >? limit
              then (Err (EProtocol (Msg "exif.file_too_large" [pretty total; pretty limit])), request_finish req s)
              else
                let '(receive, k, req, s) := receive_raw_to (fun _ _ => None) (fun _ => None) (da_raw a) total req s in
                (match receive with Ok _ => Ok (sink_bytes k) | Err e => Err e end, request_finish req s)
          end
      end
  end).

(** ** Uploads *)

Definition UPLOAD_BUFFER : Z := Z.min MAX_UPSTREAM_PAYLOAD (1024 * 1024).

(** [fs::metadata]: whether it is a regular file, and its length. *)
Definition metadata (p : path) : io (result io_error (bool * Z)) :=
  syscall (fun f => (match f !! components p with
                     | Some (File c) => Ok (true, zlen c)
                     | Some Dir => Ok (false, 0)
                     | None => Err err_not_found
                     end, f)) untouched.

Definition open_file (p : path) : io (result io_error unit) :=
  syscall (fun f => (match f !! components p with Some _ => Ok () | None => Err err_not_found end, f)) untouched.

(** One [read] of an open file at its position. *)
Definition read_at (p : path) (position : Z) : io (result io_error (list byte)) :=
  syscall (fun f => (match f !! components p with
                     | Some (File c) => Ok (take (Z.to_nat UPLOAD_BUFFER) (drop (Z.to_nat position) c))
                     | _ => Err err_is_dir
                     end, f)) untouched.

(** [file_md5] reads the file to its end. *)
Definition file_md5 (p : path) : io (Res (string * Z)) :=
  let*? _ := fails_local "client.open_failed" p (open_file p) in
  let*? content := fails_local "client.read_failed" p (read_file p) in
  io_ok (hex_of_bytes (md5 content), zlen content).

(** What the world answers each chunk: the cancellation flag, the writer for the
    cancellation message, and the writer for the chunk. *)
Record ChunkAnswer := mkChunkAnswer { ca_cancelled : bool; ca_cancel : send_answer; ca_send : send_answer }.

(** The loop of [upload_with_options]; the list ends where a send times out. *)
Fixpoint upload_loop (local : path) (answers : list ChunkAnswer) (transferred : Z) (progress : list Z)
  (req : OpenRequest) (s : SessionInner) : io (Res unit * list Z * OpenRequest * SessionInner) :=
  let* read := fails_local "client.read_failed" local (read_at local transferred) in
  match read with
  | Err e => mret (Err e, progress, req, s)
  | Ok [] => mret (Ok (), progress, req, s)
  | Ok chunk =>
      match answers with
      | [] =>
          let '(result, req, s) := request_send SendTimeout SendTimeout false 3 chunk req s in
          mret (result, progress, req, s)
      | answer :: answers =>
          match request_send (ca_cancel answer) (ca_send answer) (ca_cancelled answer) 3 chunk req s with
          | (Err e, req, s) => mret (Err e, progress, req, s)
          | (Ok _, req, s) =>
              let transferred := transferred + zlen chunk in
              upload_loop local answers transferred (progress ++ [transferred]) req s
          end
      end
  end.

Record UploadAnswers := mkUploadAnswers {
  ua_exists : RequestAnswers;
  ua_open : send_answer;
  ua_cancelled : bool;
  ua_header : list rx_event;
  ua_chunks : list ChunkAnswer;
  ua_complete : list rx_event;
  ua_drop : send_answer
}.

Definition upload_opened (local : path) (size : Z) (options : TransferOptions) (a : UploadAnswers) (req : OpenRequest)
  (s : SessionInner) : io (Res Z * list TransferProgress * OpenRequest * SessionInner) :=
  match receive_message (R := SspUploadFileResponseHeader) (ua_header a) req s with
  | (Err e, req, s) => mret (Err e, [], req, s)
  | (Ok header, req, s) =>
      if negb (bool_decide (uph_ready header = Some true)) then
        let (req, s) := finish req s in
        mret (Err (remote_error (uph_error_code header) (Msg "client.upload_rejected" [])), [], req, s)
      else
        let* opened := fails_local "client.open_failed" local (open_file local) in
        match opened with
        | Err e => mret (Err e, [], req, s)
        | Ok _ =>
            let* r := upload_loop local (ua_chunks a) 0 [0] req s in
            let '(sent, progress, req, s) := r in
            let progress := announce options UploadDirection size progress in
            match sent with
            | Err e => mret (Err e, progress, req, s)
            | Ok _ =>
                match receive_message (R := SspUploadFileResponse) (ua_complete a) req s with
                | (Err e, req, s) => mret (Err e, progress, req, s)
                | (Ok complete, req, s) =>
                    let (req, s) := finish req s in
                    mret (match ensure_remote_success (upr_succeed complete) (upr_error_code complete) None with
                          | Err e => Err e
                          | Ok _ =>
                              if bool_decide (upr_canceled complete = Some true)
                              then Err (ERemoteIo (upr_error_code complete) (Msg "client.upload_canceled" []))
                              else Ok size
                          end, progress, req, s)
                end
            end
        end
  end.

Definition upload_with_options (local : path) (remote : string) (options : TransferOptions) (a : UploadAnswers)
  (c : HandShakerClient) : io (Res Z * list TransferProgress * HandShakerClient) :=
  let* found := fails_local "client.read_failed" local (metadata local) in
  match found with
  | Err e => mret (Err e, [], c)
  | Ok (is_file, _) =>
      if negb is_file then mret (Err (ELocalIo (Msg "client.not_regular_file" [local])), [], c)
      else
        let (there, c) := if to_overwrite options then (Ok false, c) else file_exists keys remote (ua_exists a) c in
        match there with
        | Err e => mret (Err e, [], c)
        | Ok true =>
            mret (Err (ERemoteIo (Some (file_io_error_value FileIoTargetAlreadyExist))
                         (Msg "client.remote_target_exists" [remote])), [], c)
        | Ok false =>
            let* sum := file_md5 local in
            match sum with
            | Err e => mret (Err e, [], c)
            | Ok (data_md5, size) =>
                on_session_io [] (with_request
                  (encode_to_vec (mkSspUploadFileRequest (request_type RtGetUploadFileRequestHeader)
                     (Some (ssp_file remote false (Some size))) (Some data_md5) (Some false) (Some false)))
                  (ua_open a) (ua_cancelled a) (ua_drop a) [] (upload_opened local size options a)) c
            end
        end
  end.

End Transfers.
