(* ===== verification/ClientTransferProps.v ===== *)
(** * What a download leaves on the disk

    The client's downloads (ClientTransfer.v) under every fault and crash of the disk
    and every behaviour of the phone, and on a disk that works. *)

From Stdlib Require Import Strings.String Strings.Ascii.
From stdpp Require Import gmap.
From S2P Require Import Prelude Errors Domain Frame Reassembly Handshake Proto Session SessionProps Text Paths Fs FsLogic SyncStore SyncJournal SyncLayout Sync SyncCrash TrustProps ClientProto Client ClientTransfer.

#[local] Open Scope string_scope.
#[local] Open Scope list_scope.
#[local] Open Scope Z_scope.

(** ** Receiving into a file *)

Section RawFile.
Context `{Crypto} (file : path) (f0 : fs).

(** Only the file changed, and it holds what was written. *)
Definition holds (k : sink) (f : fs) : Prop :=
  only_on (eq (components file)) f0 f /\ f !! components file = Some (File (sink_bytes k)).

Definition raw_file_post (total : Z) (k : sink) (held : list byte) (evs : list rx_event)
    (r : Res (list byte) * sink * SessionInner) (f : fs) : Prop :=
  raw_post total k held evs r.1.2 r.1.1 /\ only_on (eq (components file)) f0 f /\
  (forall digest, r.1.1 = Ok digest -> holds r.1.2 f).

Lemma raw_file_err (total : Z) (k : sink) (held : list byte) (evs : list rx_event) (e : Error) (s : SessionInner) (f : fs) :
  zlen (sink_bytes k) <= total -> only_on (eq (components file)) f0 f -> raw_file_post total k held evs (Err e, k, s) f.
Proof. intros Hle Hf. split; [by apply raw_post_err|done]. Qed.

Lemma raw_file_step (total : Z) (k k1 : sink) (held held1 c : list byte) (evs : list rx_event)
    (r : Res (list byte) * sink * SessionInner) (f : fs) :
  sink_bytes k1 ++ held1 = sink_bytes k ++ held ++ c ->
  raw_file_post total k1 held1 evs r f -> raw_file_post total k held (RxItem (IData c) :: evs) r f.
Proof. intros Hk [Hp Hf]. split; [by eapply raw_post_step|done]. Qed.

Lemma triple_write_chunk (k : sink) (chunk : list byte) (n : Z) :
  triple (holds k) (write_all file chunk)
    (fun r f => only_on (eq (components file)) f0 f /\
       (r = Ok () -> holds (Sink (sink_bytes k ++ chunk) (sink_digest k ++ chunk) (sink_progress k ++ [n])) f))
    (only_on (eq (components file)) f0).
Proof.
  assert (forall m f, holds k f -> holds (Sink (sink_bytes k ++ take m chunk) (sink_digest k ++ chunk) (sink_progress k ++ [n]))
                                     (append_bytes file (take m chunk) f)) as Hw.
  { intros m f [Hf Hk]. split; [etrans; [exact Hf|by apply only_on_append]|by apply append_bytes_lookup]. }
  apply triple_syscall.
  - intros f Hf. simpl. specialize (Hw (length chunk) f Hf). rewrite firstn_all in Hw. split; [apply Hw|done].
  - intros f m t Hf. split; [apply (Hw m f Hf)|done].
  - intros f m Hf. apply (Hw m f Hf).
Qed.

Lemma triple_raw_file_loop (evs : list rx_event) (sid total received : Z) (d : DownloadDiscriminator) (k : sink)
    (s : SessionInner) :
  sink_digest k = sink_bytes k ->
  received = zlen (sink_bytes k) -> received <= total <= USIZE_MAX -> disc_inv d (total - received) ->
  triple (holds k) (receive_raw_file_loop file evs sid total received d k s)
    (raw_file_post total k (dd_candidate d) evs) (only_on (eq (components file)) f0).
Proof.
  revert received d k s. induction evs as [|ev evs IH]; intros received d k s Hdig Hrec Htot Hinv;
    (destruct (Z.le_gt_cases total received) as [Hge|Hlt];
     [cbn [receive_raw_file_loop]; replace (received >=? total) with true by lia
     |cbn [receive_raw_file_loop]; replace (received >=? total) with false by lia]).
  1, 3: replace (total - received) with 0 in Hinv by lia; apply disc_inv_end in Hinv as Hnil;
    apply triple_bind with (R := fun _ => holds k);
    [apply triple_syscall; [done|done|by intros f n []]
    |intros [u|e]; apply triple_ret; intros f Hf; [|by apply raw_file_err; [lia|apply Hf]];
     split; [|by split; [apply Hf|]]; split; [simpl; lia|]; eexists [], _, []; simpl; rewrite Hnil; split_and!; [done..|];
     intros ? [= <-]; split_and!; [lia|by rewrite Hdig|done]].
  { apply triple_ret. intros f [Hf _]. apply raw_file_err; [lia|done]. }
  assert (forall (e : Error) s1, triple (holds k) (mret (Err e, k, s1) : io (Res (list byte) * sink * SessionInner))
    (raw_file_post total k (dd_candidate d) (ev :: evs)) (only_on (eq (components file)) f0)) as Herr.
  { intros e s1. apply triple_ret. intros f [Hf _]. apply raw_file_err; [lia|done]. }
  destruct (receive_incoming ev sid true s) as [[[c|i]|e] s1] eqn:Ei; [|apply Herr|destruct e; apply Herr].
  apply receive_incoming_data in Ei as [-> ->].
  pose proof (discriminator_push_spec d c (total - received) Hinv ltac:(lia)) as Hp.
  destruct (discriminator_push d c (total - received)) as [[[out|]|e] d']; [| |apply Herr].
  - destruct Hp as [-> ->]. unfold checked_add_usize.
    destruct (received + zlen (dd_candidate d ++ c) <=? USIZE_MAX); [|apply Herr].
    destruct (received + zlen (dd_candidate d ++ c) >? total) eqn:Hover; [apply Herr|].
    eapply triple_bind; [by eapply triple_write_chunk|]. intros [u|e]; cbv beta.
    2: { apply triple_ret. intros f [Hf _]. apply raw_file_err; [lia|done]. }
    eapply triple_conseq; [apply IH|by intros f [_ Hf]; destruct u; apply Hf| |done];
      [simpl; by rewrite Hdig|simpl; rewrite (length_app (sink_bytes k)); lia|lia|split; [by left|done]|].
    intros r f. apply raw_file_step. simpl. by rewrite app_nil_r.
  - destruct Hp as (Hinv' & Hc & _). eapply triple_conseq; [by apply IH; [| |lia|]|done| |done].
    intros r f. apply raw_file_step. by rewrite Hc.
Qed.

End RawFile.

(** ** The temporary file is another file *)

Lemma components_file (q name : string) :
  no_slash name = true -> name <> "" -> name <> "." -> name <> ".." -> components (path_join q name) = components q ++ [Normal name].
Proof.
  intros Hs H1 H2 H3. pose proof (split_slash_single name Hs) as Hsp.
  assert (is_absolute name = false) as Ha.
  { destruct name as [|c name]; [done|]. simpl in *. by destruct (bool_decide (c = slash)) eqn:E; simpl in *; rewrite ?E in *. }
  assert (plain name) as Hp.
  { unfold plain, path_head. rewrite Hsp, Ha, bool_decide_eq_false_2 by done. done. }
  assert (components name = [Normal name]) as Hc.
  { unfold components. rewrite Hp, Hsp. simpl. unfold body. simpl. unfold seg_component, trivial_seg.
    rewrite !bool_decide_eq_false_2; [done|done|naive_solver]. }
  destruct (decide (q = "")) as [->|Hq]; [|by rewrite components_join, Hc].
  unfold path_join. by rewrite Ha.
Qed.

Lemma file_name_components (local : path) (name : string) :
  file_name local = Some name -> last (components local) = Some (Normal name).
Proof. unfold file_name. by repeat case_match; intros [= ->]. Qed.

Lemma length_app_string (a b : string) : String.length (a +:+ b) = (String.length a + String.length b)%nat.
Proof. induction a as [|c a IH]; simpl; [done|]. by rewrite IH. Qed.

Lemma components_normal_no_slash (p : path) (name : string) : Normal name ∈ components p -> no_slash name = true.
Proof.
  unfold components. intros [Hin|Hin]%elem_of_app.
  - unfold path_head in Hin. repeat case_match; simpl in Hin; set_solver.
  - pose proof (path_head_no_slash p) as Hall. unfold body in Hin.
    apply list_elem_of_omap in Hin as (s & Hs & Hc). rewrite Forall_forall in Hall. specialize (Hall s Hs).
    unfold seg_component in Hc. repeat case_match; by simplify_eq.
Qed.

Lemma temporary_other (local t : path) (uuid : string) :
  no_slash uuid = true -> temporary_download_path local uuid = Ok t -> components t <> components local.
Proof.
  unfold temporary_download_path. destruct (file_name local) as [name|] eqn:En; [|done]. intros Hu [= <-] Heq.
  apply file_name_components in En as Hlast.
  assert (no_slash name = true) as Hn.
  { apply (components_normal_no_slash local). apply last_Some in Hlast as [l ->]. set_solver. }
  rewrite components_file in Heq; [|by unfold temporary_name; rewrite !no_slash_app, Hn, Hu|done|..].
  - rewrite <- Heq, last_snoc in Hlast. injection Hlast as Hlast. apply (f_equal String.length) in Hlast.
    unfold temporary_name in Hlast. rewrite !length_app_string in Hlast. cbn [String.length] in Hlast. lia.
  - unfold temporary_name. simpl. by destruct name.
  - unfold temporary_name. simpl. destruct name as [|c [|]]; by intros [=].
Qed.

(** ** Under every fault *)

(** prost decodes the length, a [uint64], to an unsigned number. *)
Class UnsignedLengths `{ClientCodec} :=
  unsigned_lengths : forall body header range total,
    message_decode body = Ok header -> dfh_range header = Some range -> dr_length range = Some total -> 0 <= total.

Section Download.
Context `{Crypto} `{ProtoCodec} `{ClientCodec} (keys : SessionKeys) (local : path) (a : DownloadAnswers).

(** The temporary file of this download. *)
Definition temporary_of (k : key) : Prop :=
  exists t, temporary_download_path local (da_uuid a) = Ok t /\ k = components t.

(** The header the phone sent says [total], and gives this MD5 sum or none. *)
Definition announced_by (header : SspDownloadFileResponseHeader) (total : Z) : Prop :=
  check_header header = Ok total /\
  exists req s req' s', receive_message (da_header a) req s = (Ok header, req', s').

(** What a download that succeeded left. *)
Definition downloaded (f0 : fs) (total : Z) (f : fs) : Prop :=
  exists content cs rest header,
    f !! components local = Some (File content) /\ zlen content = total /\
    da_raw a = rx_data cs ++ rest /\ concat cs = content /\
    announced_by header total /\ md5_mismatch (dfh_data_md5 header) (hex_of_bytes (md5 content)) = None /\
    only_on (fun k => k = components local \/ temporary_of k) f0 f /\
    (forall k, temporary_of k -> k <> components local -> f !! k = None).

Definition download_post (f0 : fs) (r : Res Z) (f : fs) : Prop :=
  match r with
  | Ok total => downloaded f0 total f
  | Err _ => only_on temporary_of f0 f
  end.

Lemma triple_receive_raw_file (file : path) (evs : list rx_event) (total : Z) (req : OpenRequest) (s : SessionInner) (f0 : fs) :
  0 <= total ->
  triple (holds file f0 (Sink [] [] [])) (receive_raw_file file evs total req s)
    (fun r f => only_on (eq (components file)) f0 f /\
       (forall digest, r.1.1.1 = Ok digest -> exists content cs rest,
          f !! components file = Some (File content) /\ zlen content = total /\ digest = md5 content /\
          evs = rx_data cs ++ rest /\ concat cs = content))
    (only_on (eq (components file)) f0).
Proof.
  intros Htot. unfold receive_raw_file, usize_try_from.
  eapply triple_bind with (R := raw_file_post file f0 total (Sink [] [] []) [] evs).
  - destruct (total <=? USIZE_MAX) eqn:Eu.
    + apply (triple_raw_file_loop file f0 evs (or_sid req) total 0 discriminator_default (Sink [] [] [])); [done|done|lia|].
      split; [by left|done].
    + apply triple_ret. intros f [Hf _]. by apply raw_file_err.
  - intros [[result k] s']. apply triple_ret. intros f (Hp & Hf & Hok). split; [done|]. simpl. intros digest ->.
    destruct Hp as (_ & cs & rest & held & -> & Heq & Hd). destruct (Hd digest eq_refl) as (Hl & -> & ->).
    destruct (Hok _ eq_refl) as [_ Hfile]. simpl in *. rewrite app_nil_r in Heq.
    by exists (sink_bytes k), cs, rest.
Qed.

(** The outcome of the steps under the guard, before it removes the temporary file. *)
Definition in_progress (t : path) (f0 : fs) (r : Res Z) (f : fs) : Prop :=
  match r with
  | Ok total => downloaded f0 total f
  | Err _ => only_on (eq (components t)) f0 f
  end.

Lemma temporary_weaken (t : path) (f g : fs) :
  temporary_download_path local (da_uuid a) = Ok t -> only_on (eq (components t)) f g -> only_on temporary_of f g.
Proof. intros Ht. apply only_on_weaken. intros k <-. by exists t. Qed.

Lemma triple_with_temporary {X : Type} (t : path) (m : io (Res Z * list Z * X * SessionInner)) (f0 : fs) :
  temporary_download_path local (da_uuid a) = Ok t ->
  triple (fun f => f = f0) m (fun r => in_progress t f0 r.1.1.1) (only_on (eq (components t)) f0) ->
  triple (fun f => f = f0) (with_temporary t m) (fun r => download_post f0 r.1.1.1) (only_on temporary_of f0).
Proof.
  intros Ht Hm. eapply triple_bind; [by eapply triple_conseq; [exact Hm|done|done|intros f; by apply temporary_weaken]|].
  intros [[[[n|e] p] req] s]; cbn [fst snd]; [by apply triple_ret|].
  apply triple_bind with (R := fun _ => only_on (eq (components t)) f0);
    [|intros u; apply triple_ret; intros f; by apply temporary_weaken].
  apply triple_bind with (R := fun _ => only_on (eq (components t)) f0); [|intros r; by apply triple_ret].
  apply triple_syscall; [|done|intros f n; by apply temporary_weaken]. intros f Hf. simpl. repeat case_match; [|done..].
  etrans; [exact Hf|by apply only_on_delete].
Qed.

Lemma triple_commit_download (t : path) (header : SspDownloadFileResponseHeader) (total : Z) (cs : list (list byte))
    (rest : list rx_event) (f0 f1 : fs) :
  temporary_download_path local (da_uuid a) = Ok t -> components t <> components local ->
  announced_by header total -> only_on (eq (components t)) f0 f1 ->
  f1 !! components t = Some (File (concat cs)) -> zlen (concat cs) = total -> da_raw a = rx_data cs ++ rest ->
  triple (fun f => f = f1) (commit_download t local total (dfh_data_md5 header) (md5 (concat cs)))
    (in_progress t f0) (only_on (eq (components t)) f0).
Proof.
  intros Ht Hne Hhead Hf1 Hfile Hlen Hraw. unfold commit_download.
  eapply triple_fails_local with (R := fun _ f => f = f1);
    [eapply triple_conseq; [by apply triple_look with (P := fun f => f = f1)|done|done|by intros f ->]| |by intros e err f ->].
  intros _. destruct (md5_mismatch _ _) as [e|] eqn:Em; [by apply triple_ret; intros f ->|].
  apply triple_bind with (R := fun r f => match r with Ok _ => downloaded f0 total f | Err _ => only_on (eq (components t)) f0 f end).
  2: { intros [[]|e]; by apply triple_ret. }
  apply triple_map_err with (R := fun r f => match r with Ok _ => downloaded f0 total f | Err _ => only_on (eq (components t)) f0 f end);
    [|by intros []|intros e; by apply triple_ret].
  apply triple_syscall; [|by intros f n x ->|by intros f n ->]. intros f ->. rewrite Hfile.
  assert (downloaded f0 total (<[components local := File (concat cs)]> (delete (components t) f1))) as Hdone.
  { exists (concat cs), cs, rest, header. split_and!; [apply lookup_insert_eq|done..| |].
    - intros k Hk. rewrite lookup_insert_ne by naive_solver. rewrite lookup_delete_ne by (intros <-; apply Hk; right; by exists t).
      apply Hf1. intros <-. apply Hk. right. by exists t.
    - intros k (t' & Ht' & ->) Hk. rewrite lookup_insert_ne by done. assert (t' = t) as -> by congruence. apply lookup_delete_eq. }
  destruct (f1 !! components local) as [[c|]|]; [exact Hdone|exact Hf1|exact Hdone].
Qed.

Lemma triple_write_download (t : path) (header : SspDownloadFileResponseHeader) (total : Z) (req : OpenRequest)
    (s : SessionInner) (f0 : fs) :
  temporary_download_path local (da_uuid a) = Ok t -> components t <> components local -> 0 <= total ->
  announced_by header total ->
  triple (fun f => f = f0) (write_download t local total (dfh_data_md5 header) (da_raw a) req s)
    (fun r => in_progress t f0 r.1.1.1) (only_on (eq (components t)) f0).
Proof.
  intros Ht Hne Htot Hhead. unfold write_download.
  set (created := fun (r : result io_error unit) f => match r with Ok _ => holds t f0 (Sink [] [] []) f | Err _ => f = f0 end).
  apply triple_bind with (R := fun r f => match r with Ok _ => holds t f0 (Sink [] [] []) f | Err _ => f = f0 end).
  { apply triple_map_err with (R := created); [|by intros []|intros e; by apply triple_ret].
    assert (forall f, f = f0 -> holds t f0 (Sink [] [] []) (<[components t := File []]> f)) as Hc.
    { intros f ->. split; [by apply only_on_insert|apply lookup_insert_eq]. }
    apply triple_syscall; [|done|by intros f n ->]. intros f Hf. destruct (f !! components t) as [[c|]|]; [by apply Hc|done|by apply Hc]. }
  intros [u|e]; [|apply triple_ret; by intros f ->].
  eapply triple_bind; [by apply triple_receive_raw_file|].
  intros [[[receive k] req1] s1]. cbn [fst snd finish].
  apply triple_bind with (R := in_progress t f0); [|intros r; by apply triple_ret].
  destruct receive as [digest|e]; [|by apply triple_ret; intros f []].
  apply triple_pre. intros f1 [Hf1 Hd]. destruct (Hd digest eq_refl) as (content & cs & rest & Hfile & Hlen & -> & Hraw & <-).
  by eapply triple_commit_download.
Qed.

Lemma check_header_length (header : SspDownloadFileResponseHeader) (total : Z) :
  check_header header = Ok total -> exists range, dfh_range header = Some range /\ dr_length range = Some total.
Proof.
  unfold check_header. destruct (negb _); [done|]. destruct (_ ≫= _) as [n|] eqn:E; [|done].
  intros [= <-]. by apply bind_Some in E.
Qed.

Context `{!UnsignedLengths}.

Lemma receive_message_decoded {R : Type} `{Message R} (evs : list rx_event) (req req' : OpenRequest) (s s' : SessionInner) (r : R) :
  receive_message evs req s = (Ok r, req', s') -> exists body, message_decode body = Ok r.
Proof.
  unfold receive_message. destruct (request_receive_normal evs req s) as [[[body|e] req1] s1]; [|done].
  unfold decoded. intros [= Hr _ _]. exists body. by destruct (message_decode body); simplify_eq.
Qed.

Lemma triple_download_opened (options : TransferOptions) (req : OpenRequest) (s : SessionInner) (f0 : fs) :
  no_slash (da_uuid a) = true ->
  triple (fun f => f = f0) (download_opened local options a req s) (fun r => download_post f0 r.1.1.1) (only_on temporary_of f0).
Proof.
  intros Hu. unfold download_opened.
  destruct (receive_message (da_header a) req s) as [[[header|e] req1] s1] eqn:Eh; [|by apply triple_ret; intros f ->].
  destruct (check_header header) as [total|[e finished]] eqn:Ec; [|by destruct finished; apply triple_ret; intros f ->].
  destruct (temporary_download_path local (da_uuid a)) as [t|e] eqn:Et; [|by apply triple_ret; intros f ->].
  assert (announced_by header total) as Hhead by (split; [done|by exists req, s, req1, s1]).
  assert (0 <= total) as Htot.
  { apply check_header_length in Ec as (range & Hr & Hl). apply receive_message_decoded in Eh as [body Hb].
    by eapply unsigned_lengths. }
  assert (components t <> components local) as Hne by by eapply temporary_other.
  eapply triple_bind; [by apply (triple_with_temporary t), triple_write_download|].
  intros [[[r p] req2] s2]. by apply triple_ret.
Qed.

Lemma triple_download (remote : string) (options : TransferOptions) (c : HandShakerClient) (f0 : fs) :
  no_slash (da_uuid a) = true ->
  triple (fun f => f = f0) (download_with_options keys remote local options a c) (fun r => download_post f0 r.1.1)
    (only_on temporary_of f0).
Proof.
  intros Hu. unfold download_with_options.
  apply triple_bind with (R := fun _ f => f = f0); [by apply triple_exists; intros f ->; auto|].
  intros there. destruct (_ && _); [by apply triple_ret; intros f ->|].
  unfold on_session_io, with_request. destruct (hc_session c) as [s|]; [|by apply triple_ret; intros f ->].
  apply triple_bind with (R := fun r => download_post f0 r.1.1); [|intros [[r p] s']; by apply triple_ret].
  destruct (open_signed _ _ _ _ _) as [[req|e] s1]; [|by apply triple_ret; intros f ->].
  eapply triple_bind; [by apply triple_download_opened|]. intros [[[r p] req2] s2]. by apply triple_ret.
Qed.

End Download.

(** ** The client is a downloader the sync engine can rely on *)

Section Law.
Context `{Crypto} `{ProtoCodec} `{ClientCodec} `{!UnsignedLengths} (keys : SessionKeys).
Context (answers : string -> path -> DownloadAnswers) (clients : string -> path -> HandShakerClient).

(** The call the engine makes (sync.rs, download_to_staged). *)
Definition client_downloader : Downloader := fun remote part =>
  let* r := download_with_options keys remote part (mkTransferOptions true false 0) (answers remote part) (clients remote part) in
  mret (match r.1.1 with Ok _ => Ok () | Err e => Err e end).

Definition client_scratch (part : path) (k : key) : Prop :=
  k = components part \/
  exists uuid t, no_slash uuid = true /\ temporary_download_path part uuid = Ok t /\ k = components t.

Lemma client_downloader_law :
  (forall remote part, no_slash (da_uuid (answers remote part)) = true) -> @DownloaderLaw client_downloader client_scratch.
Proof.
  intros Hu. split; [by left|]. intros remote part f0.
  assert (forall f, only_on (temporary_of part (answers remote part)) f0 f -> only_on (client_scratch part) f0 f) as Hw.
  { intros f. apply only_on_weaken. intros k (t & Ht & ->). right. by exists (da_uuid (answers remote part)), t. }
  pose proof (triple_download keys part (answers remote part) remote (mkTransferOptions true false 0) (clients remote part) f0
                (Hu remote part)) as Hd.
  eapply triple_bind; [eapply triple_conseq; [exact Hd|done|by intros r f Hf; exact Hf|exact Hw]|].
  intros [[[n|e] p] c]; apply triple_ret; cbn [fst]; intros f Hf; [|by split; [apply Hw|]].
  destruct Hf as (content & cs & rest & header & Hc & _ & _ & _ & _ & _ & Hf & _). split; [|by intros _; exists content].
  eapply only_on_weaken; [|exact Hf]. intros k [->|(t & Ht & ->)]; [by left|].
  right. by exists (da_uuid (answers remote part)), t.
Qed.

End Law.

(** ** On a disk that works *)

Section Working.
Context `{Crypto} `{ProtoCodec} `{ClientCodec} (keys : SessionKeys) (local : path) (a : DownloadAnswers).

Abbreviation pure_loop := (receive_raw_loop (fun _ _ => None) (fun _ => None)).

(** The loop behaves as the session's, with every write accepted. *)
Lemma runs_raw_file_loop (file : path) (evs : list rx_event) (sid total received : Z) (d : DownloadDiscriminator)
    (k : sink) (s : SessionInner) (f : fs) :
  f !! components file = Some (File (sink_bytes k)) ->
  runs (receive_raw_file_loop file evs sid total received d k s) f (pure_loop evs sid total received d k s)
    (<[components file := File (sink_bytes (pure_loop evs sid total received d k s).1.2)]> f).
Proof.
  revert received d k s f. induction evs as [|ev evs IH]; intros received d k s f Hf; cbn [receive_raw_file_loop receive_raw_loop];
    assert (<[components file := File (sink_bytes k)]> f = f) as Hid by by apply insert_id.
  all: destruct (received >=? total); [eapply runs_bind; [by apply runs_syscall|]; cbn [fst snd]; rewrite Hid; apply runs_ret|].
  { cbn [fst snd]. rewrite Hid. apply runs_ret. }
  destruct (receive_incoming ev sid true s) as [[[c|i]|e] s1]; [|cbn [fst snd]; rewrite Hid; apply runs_ret
    |by destruct e; cbn [fst snd]; rewrite Hid; apply runs_ret].
  destruct (discriminator_push d c (total - received)) as [[[out|]|e] d']; [|by apply IH|cbn [fst snd]; rewrite Hid; apply runs_ret].
  destruct (checked_add_usize received (zlen out)) as [n|]; [|cbn [fst snd]; rewrite Hid; apply runs_ret].
  destruct (n >? total); [cbn [fst snd]; rewrite Hid; apply runs_ret|].
  set (k1 := Sink (sink_bytes k ++ out) (sink_digest k ++ out) (sink_progress k ++ [n])).
  eapply runs_bind with (g := <[components file := File (sink_bytes k1)]> f).
  { apply runs_syscall. unfold append_bytes. by rewrite Hf. }
  cbv beta iota. specialize (IH n d' k1 s1 (<[components file := File (sink_bytes k1)]> f)).
  rewrite insert_insert_eq in IH. apply IH, lookup_insert_eq.
Qed.

Lemma runs_remove_quietly (p : path) (c : list byte) (f : fs) :
  f !! components p = Some (File c) -> runs (remove_quietly p) f () (delete (components p) f).
Proof. intros Hf. eapply runs_bind; [by apply runs_syscall; rewrite Hf|]. apply runs_ret. Qed.

Lemma runs_receive_raw_file (file : path) (evs : list rx_event) (total : Z) (req : OpenRequest) (s : SessionInner) (f : fs) :
  f !! components file = Some (File []) ->
  let r := receive_raw_to (fun _ _ => None) (fun _ => None) evs total req s in
  runs (receive_raw_file file evs total req s) f r (<[components file := File (sink_bytes r.1.1.2)]> f).
Proof.
  intros Hf. unfold receive_raw_file, receive_raw_to. cbv zeta. cbn [or_sid].
  destruct (usize_try_from total) as [n|].
  - pose proof (runs_raw_file_loop file evs (or_sid req) n 0 discriminator_default (Sink [] [] []) s f Hf) as Hr.
    destruct (pure_loop _ _ _ _ _ _ _) as [[res k] s']. eapply runs_bind; [exact Hr|]. apply runs_ret.
  - eapply runs_bind; [apply runs_ret|]. cbn. rewrite insert_id by done. apply runs_ret.
Qed.

Lemma runs_fails_local {A : Type} (m : string) (p : path) (act : io (result io_error A)) (x : result io_error A) (f g : fs) :
  runs act f x g ->
  runs (fails_local m p act) f (match x with Ok y => Ok y | Err e => Err (local_io m [p; io_text e]) end) g.
Proof. intros Hm. eapply runs_bind; [exact Hm|]. destruct x; [apply runs_ret|]. eapply runs_bind; apply runs_ret. Qed.

Lemma runs_map_err_ok {A : Type} (h : io_error -> io Error) (act : io (result io_error A)) (x : A) (f g : fs) :
  runs act f (Ok x) g -> runs (io_map_err h act) f (Ok x) g.
Proof. intros Hm. eapply runs_bind; [exact Hm|apply runs_ret]. Qed.

(** After the whole file arrived. *)
Lemma runs_commit_download (t : path) (total : Z) (expected : option string) (digest content : list byte) (f : fs) :
  f !! components t = Some (File content) ->
  exists r g, runs (commit_download t local total expected digest) f r g /\
    (forall e, r = Err e -> g = f) /\
    (md5_mismatch expected (hex_of_bytes digest) = None -> f !! components local <> Some Dir -> r = Ok total).
Proof.
  intros Hf. unfold commit_download.
  assert (forall (k : unit -> io (Res Z)) r g, runs (k ()) f r g ->
            runs (let*? x := fails_local "client.sync_failed" t (sync_all t) in k x) f r g) as Hsync.
  { intros k r g Hk. eapply runs_bind; [by apply runs_fails_local, runs_syscall|exact Hk]. }
  destruct (md5_mismatch _ _) as [e|].
  { eexists _, f. split; [apply Hsync, runs_ret|]. split; [done|]. by intros [=]. }
  destruct (decide (f !! components local = Some Dir)) as [Hd|Hd].
  - eexists _, f. split; [|split; [done|by intros _ []]]. apply Hsync. eapply runs_bind.
    + eapply runs_bind; [by apply runs_syscall; rewrite Hf, Hd|]. eapply runs_bind; apply runs_ret.
    + apply runs_ret.
  - exists (Ok total), (<[components local := File content]> (delete (components t) f)). split; [|split; [by intros e [=]|done]]. apply Hsync. eapply runs_bind.
    + apply runs_map_err_ok, runs_syscall. rewrite Hf.
      destruct (f !! components local) as [[c|]|]; [reflexivity|done|reflexivity].
    + apply runs_ret.
Qed.

Lemma runs_write_download (t : path) (total : Z) (expected : option string) (evs : list rx_event) (req : OpenRequest)
    (s : SessionInner) (f : fs) :
  f !! components t = None -> components t <> components local ->
  let received := receive_raw_to (fun _ _ => None) (fun _ => None) evs total req s in
  exists r p req' s' g,
    runs (with_temporary t (write_download t local total expected evs req s)) f (r, p, req', s') g /\
    (forall e, r = Err e -> g = f) /\
    (forall e, received.1.1.1 = Err e -> r = Err e) /\
    (forall digest, received.1.1.1 = Ok digest -> md5_mismatch expected (hex_of_bytes digest) = None ->
       f !! components local <> Some Dir -> r = Ok total).
Proof.
  intros Hf Hne received.
  assert (runs (fails_local "client.create_failed" t (file_create t)) f (Ok ()) (<[components t := File []]> f)) as Hcreate.
  { apply (runs_fails_local _ _ _ (Ok ())), runs_syscall. by rewrite Hf. }
  pose proof (runs_receive_raw_file t evs total req s (<[components t := File []]> f) (lookup_insert_eq _ _ _)) as Hraw.
  cbv zeta in Hraw. fold received in Hraw. rewrite insert_insert_eq in Hraw.
  destruct received as [[[receive k] req1] s1]. cbn [fst snd] in *.
  set (f1 := <[components t := File (sink_bytes k)]> f) in *.
  assert (exists r g, runs (match receive with Err e => io_err e | Ok digest => commit_download t local total expected digest end) f1 r g /\
    (forall e, r = Err e -> g = f1) /\ (forall e, receive = Err e -> r = Err e) /\
    (forall digest, receive = Ok digest -> md5_mismatch expected (hex_of_bytes digest) = None ->
       f !! components local <> Some Dir -> r = Ok total)) as (r & g & Hrun & Herr & Hfail & Hok).
  { destruct receive as [digest|e]; [|eexists _, f1; split; [apply runs_ret|split_and!; [done|by intros e' [= <-]|done]]].
    destruct (runs_commit_download t total expected digest (sink_bytes k) f1 (lookup_insert_eq _ _ _)) as (r & g & ? & ? & Hok).
    exists r, g. split_and!; [done..|done|]. intros d [= <-] Hm Hd. apply Hok; [done|]. unfold f1. by rewrite lookup_insert_ne. }
  exists r, (sink_progress k), (finish req1 s1).1, (finish req1 s1).2.
  assert (runs (write_download t local total expected evs req s) f (r, sink_progress k, (finish req1 s1).1, (finish req1 s1).2) g) as Hw.
  { eapply runs_bind; [exact Hcreate|]. cbv beta iota. eapply runs_bind; [exact Hraw|]. cbv beta iota zeta.
    cbn [finish fst snd]. eapply runs_bind; [exact Hrun|]. apply runs_ret. }
  destruct r as [n|e].
  - exists g. split_and!; [eapply runs_bind; [exact Hw|]; apply runs_ret|done..].
  - exists f. split_and!; [|done..]. eapply runs_bind; [exact Hw|]. cbn [fst snd].
    rewrite (Herr e eq_refl). eapply runs_bind; [apply (runs_remove_quietly t (sink_bytes k)), lookup_insert_eq|].
    unfold f1. rewrite delete_insert_eq. rewrite delete_id by done. apply runs_ret.
Qed.

(** The phone sends [cs], all of the file. *)
Definition phone_sends (remote : string) (options : TransferOptions) (c : HandShakerClient) (total : Z) (cs : list (list byte)) : Prop :=
  exists s req s1 header req' s2 rest,
    hc_session c = Some s /\
    open_signed keys (da_open a) (encode_to_vec (download_request remote (to_offset options) true)) (da_cancelled a) s = (Ok req, s1) /\
    receive_message (da_header a) req s1 = (Ok header, req', s2) /\ check_header header = Ok total /\
    da_raw a = rx_data cs ++ rest /\ zlen (concat cs) = total /\ total < 2 ^ 64 /\
    md5_mismatch (dfh_data_md5 header) (hex_of_bytes (md5 (concat cs))) = None.

(** How the download of a file that arrives whole ends: it is saved, unless a stretch of
    its frames was taken for a message of the phone. *)
Definition whole_file_result (total : Z) (cs : list (list byte)) (r : Res Z) : Prop :=
  if taken_for_message total [] cs then r = Err (EProtocol (Msg "session.download_ambiguous" [])) else r = Ok total.

Lemma received_whole (cs : list (list byte)) (rest : list rx_event) (total : Z) (req : OpenRequest) (s : SessionInner) :
  zlen (concat cs) = total -> total < 2 ^ 64 ->
  (receive_raw_to (fun _ _ => None) (fun _ => None) (rx_data cs ++ rest) total req s).1.1.1 =
  if taken_for_message total [] cs then Err (EProtocol (Msg "session.download_ambiguous" [])) else Ok (md5 (concat cs)).
Proof.
  intros Hlen Htot. unfold receive_raw_to, usize_try_from. replace (total <=? USIZE_MAX) with true by (unfold USIZE_MAX; lia).
  destruct (receive_raw_loop_complete (fun _ _ => None) (fun _ => None) cs rest (or_sid req) total 0 discriminator_default
              (Sink [] [] []) s) as (k & Hk & Hb); simpl; [done|done|done|done|unfold USIZE_MAX; lia|by split; [left|]|done|].
  simpl in *. rewrite Hk. rewrite Z.sub_0_r in *. cbn. destruct (taken_for_message total [] cs); [done|]. by rewrite Hb.
Qed.

Lemma runs_download_opened (options : TransferOptions) (req : OpenRequest) (s : SessionInner) (f : fs) :
  no_slash (da_uuid a) = true -> (forall k, temporary_of local a k -> f !! k = None) ->
  exists r p req' s' g, runs (download_opened local options a req s) f (r, p, req', s') g /\ (forall e, r = Err e -> g = f) /\
    (forall header req1 s1 total cs rest, receive_message (da_header a) req s = (Ok header, req1, s1) ->
       check_header header = Ok total -> is_ok (temporary_download_path local (da_uuid a)) = true ->
       da_raw a = rx_data cs ++ rest -> zlen (concat cs) = total -> total < 2 ^ 64 ->
       md5_mismatch (dfh_data_md5 header) (hex_of_bytes (md5 (concat cs))) = None ->
       f !! components local <> Some Dir -> whole_file_result total cs r).
Proof.
  intros Hu Hfresh. unfold download_opened.
  destruct (receive_message (da_header a) req s) as [[[header|e] req1] s1].
  2: { eexists _, _, _, _, f. split; [apply runs_ret|done]. }
  destruct (check_header header) as [total|[e finished]] eqn:Ec.
  2: { destruct finished; eexists _, _, _, _, f; (split; [apply runs_ret|]); (split; [done|]); intros ?????? [= <- <- <-] ?; congruence. }
  destruct (temporary_download_path local (da_uuid a)) as [t|e] eqn:Et.
  2: { eexists _, _, _, _, f. split; [apply runs_ret|done]. }
  destruct (runs_write_download t total (dfh_data_md5 header) (da_raw a) req1 s1 f) as (r & p & req2 & s2 & g & Hr & He & Hfail & Hok).
  { apply Hfresh. by exists t. } { by eapply temporary_other. }
  eexists r, _, req2, s2, g. split; [eapply runs_bind; [exact Hr|]; apply runs_ret|]. split; [done|].
  intros header' req1' s1' total' cs rest [= <- <- <-] Hc _ Hraw Hlen Hlt Hmd Hd.
  assert (total' = total) as -> by congruence. pose proof (received_whole cs rest total req1 s1 Hlen Hlt) as Hrec.
  rewrite Hraw in Hfail, Hok. unfold whole_file_result. destruct (taken_for_message total [] cs); [by apply Hfail|by eapply Hok].
Qed.

Lemma runs_download (remote : string) (options : TransferOptions) (c : HandShakerClient) (f : fs) :
  no_slash (da_uuid a) = true -> (forall k, temporary_of local a k -> f !! k = None) ->
  exists r p c' g, runs (download_with_options keys remote local options a c) f (r, p, c') g /\ (forall e, r = Err e -> g = f) /\
    (is_Some (f !! components local) -> to_overwrite options = false -> is_ok r = false) /\
    (forall total cs, phone_sends remote options c total cs -> is_ok (temporary_download_path local (da_uuid a)) = true ->
       f !! components local <> Some Dir -> to_overwrite options = true \/ f !! components local = None -> whole_file_result total cs r).
Proof.
  intros Hu Hfresh. unfold download_with_options.
  assert (runs (path_exists local) f (bool_decide (is_Some (f !! components local))) f) as Hex.
  { eapply runs_bind; [by apply runs_syscall|]. apply runs_ret. }
  destruct (bool_decide (is_Some (f !! components local)) && negb (to_overwrite options)) eqn:Eg.
  { eexists _, _, _, f. split; [eapply runs_bind; [exact Hex|]; cbv beta; rewrite Eg; apply runs_ret|].
    apply andb_true_iff in Eg as [[n Hn]%bool_decide_eq_true Ho%negb_true_iff]. split_and!; [done|done|].
    intros total cs _ _ _ [Ht|Hx]; [by rewrite Ht in Ho|]. rewrite Hn in Hx. done. }
  assert (is_Some (f !! components local) -> to_overwrite options = false -> False) as Hno.
  { intros Hs Ho. rewrite bool_decide_eq_true_2, Ho in Eg by done. done. }
  unfold on_session_io, with_request. destruct (hc_session c) as [s|] eqn:Es.
  2: { eexists _, _, _, f. split; [eapply runs_bind; [exact Hex|]; cbv beta; rewrite Eg; apply runs_ret|].
       split_and!; [done|by intros ??%Hno|]. intros total cs (s & req & s1 & header & req' & s2 & rest & Hs & _). congruence. }
  destruct (open_signed _ _ _ _ _) as [[req|e] s1] eqn:Eo.
  2: { eexists _, _, _, f. split; [eapply runs_bind; [exact Hex|]; cbv beta; rewrite Eg; eapply runs_bind; apply runs_ret|].
       split_and!; [done|by intros ??%Hno|]. intros total cs (s' & req & s2 & header & req' & s3 & rest & Hs & Ho & _). congruence. }
  destruct (runs_download_opened options req s1 f Hu Hfresh) as (r & p & req2 & s2 & g & Hr & He & Hok).
  eexists r, p, _, g. split; [|split_and!; [done|by intros ??%Hno|]].
  - eapply runs_bind; [exact Hex|]. cbv beta. rewrite Eg.
    eapply runs_bind; [eapply runs_bind; [exact Hr|]; apply runs_ret|]. apply runs_ret.
  - intros total cs (s' & req' & s1' & header & req3 & s3 & rest & Hs & Ho & Hh & Hc & Hraw & Hlen & Hlt & Hmd) Ht Hd _.
    assert (s' = s) as -> by congruence. rewrite Eo in Ho. injection Ho as <- <-. by eapply Hok.
Qed.

End Working.

(** ** The property *)

(** C39: a download of the client is all or nothing.  Under every fault and crash of the
    disk and whatever the phone sends, success means that the target holds exactly the
    bytes the phone sent, as many as it announced and of the MD5 sum it gave, and that the
    temporary file is gone; any other end leaves everything but the temporary file as it
    was, the target included.  On a working disk a failure leaves nothing behind, an
    existing target is not replaced unless asked, and a file that arrives whole is saved,
    unless some stretch of its frames spells a message of the phone, as eight zero bytes
    in a frame of their own do: then the download fails as ambiguous.
    Hence the client implements the downloader the sync engine's crash safety relies on. *)
Theorem client_download_atomic `{Crypto} `{ProtoCodec} `{ClientCodec} `{!UnsignedLengths} (keys : SessionKeys)
    (remote : string) (local : path) (options : TransferOptions) (a : DownloadAnswers) (c : HandShakerClient) :
  no_slash (da_uuid a) = true ->
  ~ temporary_of local a (components local) /\
  (forall w, match download_with_options keys remote local options a c w with
             | (Ret (Ok total, _, _), w') => downloaded local a (w_fs w) total (w_fs w')
             | (_, w') => only_on (temporary_of local a) (w_fs w) (w_fs w')
             end) /\
  (forall f, (forall k, temporary_of local a k -> f !! k = None) ->
     exists r p c' g, runs (download_with_options keys remote local options a c) f (r, p, c') g /\
       (forall e, r = Err e -> g = f) /\
       (is_Some (f !! components local) -> to_overwrite options = false -> is_ok r = false) /\
       (forall total cs, phone_sends keys a remote options c total cs ->
          is_ok (temporary_download_path local (da_uuid a)) = true -> f !! components local <> Some Dir ->
          to_overwrite options = true \/ f !! components local = None -> whole_file_result total cs r)) /\
  (forall answers clients, (forall r p, no_slash (da_uuid (answers r p)) = true) ->
     @DownloaderLaw (client_downloader keys answers clients) client_scratch).
Proof.
  intros Hu. split_and!.
  - intros (t & Ht & Heq). by eapply temporary_other.
  - intros w. pose proof (triple_download keys local a remote options c (w_fs w) Hu w eq_refl) as Hd.
    by destruct (download_with_options _ _ _ _ _ _ w) as [[[[[n|e] p] c']|] w'].
  - intros f Hf. by apply runs_download.
  - intros answers clients. apply client_downloader_law.
Qed.

(** A phone whose header is one byte, the length. *)
Definition toy_message {M : Type} : Message M := {| encode_to_vec := fun _ => []; message_decode := fun _ => Err "toy" |}.
Definition toy_header : Message SspDownloadFileResponseHeader := {|
  encode_to_vec := fun _ => [];
  message_decode := fun bs => match bs with
    | [n] => Ok (mkSspDownloadFileResponseHeader None None (Some (mkSspDataRange None (Some (byte_to_Z n)))) None None
                   (Some true) None)
    | _ => Err "toy"
    end
|}.
Definition toy_client_codec : ClientCodec.
Proof. constructor; first [exact toy_header | exact toy_message | exact (fun s => Ok (bytes_of_string s)) | exact (fun _ => Ok "")]. Defined.

Lemma toy_unsigned_lengths : @UnsignedLengths toy_client_codec.
Proof.
  intros [|b [|]] header range total; simpl; try done. intros [= <-] [= <-] [= <-]. pose proof (byte_to_Z_range b). lia.
Qed.

Definition sample_download : DownloadAnswers :=
  mkDownloadAnswers Sent false (rx_data [prefixed [x03]]) (rx_data [[x61; x62]; [x63]]) Sent "u1".
Definition sample_client : HandShakerClient :=
  mkClient (Some session_init) (mkDeviceInfo "s" None None None None None None None None "/sdcard" None None None None None).

Lemma client_download_atomic_witness :
  exists p c' g,
    runs (@download_with_options toy_crypto toy_codec toy_client_codec (@mkSessionKeys toy_crypto [x01] [x02]) "/sdcard/a" "/d/f"
            TransferOptions_default sample_download sample_client) ∅ (Ok 3, p, c') g /\
    exists content, g !! components "/d/f" = Some (File content) /\ zlen content = 3.
Proof.
  destruct (@client_download_atomic toy_crypto toy_codec toy_client_codec toy_unsigned_lengths
              (@mkSessionKeys toy_crypto [x01] [x02]) "/sdcard/a" "/d/f" TransferOptions_default sample_download sample_client
              eq_refl) as (_ & Hall & Hworks & _).
  destruct (Hworks ∅) as (r & p & c' & g & Hrun & _ & _ & Hok); [by intros k _; apply lookup_empty|].
  assert (r = Ok 3) as ->.
  { apply (Hok 3 [[x61; x62]; [x63]]); [|reflexivity|done|by right].
    eexists _, _, _, _, _, _, []. split_and!; [reflexivity..|lia|reflexivity]. }
  exists p, c', g. split; [exact Hrun|]. specialize (Hall (mkWorld ∅ [] [])). destruct (Hrun []) as [rs' Hr].
  rewrite Hr in Hall. destruct Hall as (content & _ & _ & _ & Hc & Hl & _). by exists content.
Defined.
