(* ===== verification/ClientBatch.v ===== *)
(** * Batches and trees

    crates/handshaker-core/src/client.rs: [batch_transfer] runs transfers with a window of
    concurrent ones, [upload_tree] and [download_tree] turn a directory into a batch.
    How one transfer ends is an input here; ClientTransfer.v says what it does. *)

From Stdlib Require Import Strings.String Strings.Ascii.
From stdpp Require Import gmap.
From S2P Require Import Prelude Errors Domain Frame Handshake Proto Session Text Paths Fs SyncStore SyncJournal ClientProto EventDecode Client.

#[local] Open Scope string_scope.
#[local] Open Scope list_scope.
#[local] Open Scope Z_scope.

Record BatchTransferProgress := mkBatchProgress { bp_done : Z; bp_total : Z }.

(** [progress] is whether a callback is given; the token is read by [batch_event]. *)
Record BatchTransferOptions := mkBatchOptions {
  bo_overwrite : bool; bo_progress : bool; bo_offset : Z; bo_concurrency : Z; bo_cancel : bool }.

Definition BatchTransferOptions_default : BatchTransferOptions := mkBatchOptions false false 0 1 false.

(** The futures of a batch: not started, in flight, and what the ended ones left. *)
Record Batch := mkBatch {
  bt_waiting : list BatchTransferItem;
  bt_flight : list BatchTransferItem;
  bt_done : Z;
  bt_result : BatchTransferResult;
  bt_progress : list BatchTransferProgress
}.

(** [buffer_unordered]: the next future starts (and looks at the token) while the window
    has room, or the [n]th of those in flight ends. *)
Inductive batch_event :=
  | Start (cancelled : bool)
  | End (n : nat) (outcome : Res Z).

Definition push_ok (item : BatchTransferItem) (r : BatchTransferResult) : BatchTransferResult :=
  mkBatchTransferResult (br_ok r ++ [item]) (br_failures r).
Definition push_failure (failure : BatchTransferFailure) (r : BatchTransferResult) : BatchTransferResult :=
  mkBatchTransferResult (br_ok r) (br_failures r ++ [failure]).

Definition skipped (item : BatchTransferItem) : BatchTransferFailure :=
  mkBatchTransferFailure (bi_source item) (bi_target item) (Msg "cancelled" []) (Some Interrupted).

Section Batch.
(** [Error::to_string] *)
Context (error_text : Error -> message).

Definition failed_with (item : BatchTransferItem) (e : Error) : BatchTransferFailure :=
  mkBatchTransferFailure (bi_source item) (bi_target item) (error_text e) (Some (error_code e)).

Definition batch_step (options : BatchTransferOptions) (total : Z) (ev : batch_event) (b : Batch) : option Batch :=
  match ev with
  | Start cancelled =>
      match bt_waiting b with
      | item :: waiting =>
          if Z.of_nat (length (bt_flight b)) <? bo_concurrency options then
            Some (if bo_cancel options && cancelled
                  then mkBatch waiting (bt_flight b) (bt_done b) (push_failure (skipped item) (bt_result b)) (bt_progress b)
                  else mkBatch waiting (bt_flight b ++ [item]) (bt_done b) (bt_result b) (bt_progress b))
          else None
      | [] => None
      end
  | End n outcome =>
      match bt_flight b !! n with
      | Some item =>
          let completed := bt_done b + 1 in
          Some (mkBatch (bt_waiting b) (delete n (bt_flight b)) completed
                  (match outcome with
                   | Ok _ => push_ok item (bt_result b)
                   | Err e => push_failure (failed_with item e) (bt_result b)
                   end)
                  (if bo_progress options then bt_progress b ++ [mkBatchProgress completed total] else bt_progress b))
      | None => None
      end
  end.

Fixpoint batch_run (options : BatchTransferOptions) (total : Z) (evs : list batch_event) (b : Batch) : option Batch :=
  match evs with
  | [] => Some b
  | ev :: evs => batch_step options total ev b ≫= batch_run options total evs
  end.

Definition batch_init (items : list BatchTransferItem) : Batch := mkBatch items [] 0 (mkBatchTransferResult [] []) [].

Definition interrupted (failure : BatchTransferFailure) : bool := bool_decide (bf_code failure = Some Interrupted).

(** [batch_transfer] over its events; [None] while the batch has not ended.
    [cancelled] is the token at the end. *)
Definition batch_transfer (items : list BatchTransferItem) (options : BatchTransferOptions) (evs : list batch_event)
  (cancelled : bool) : option (Res BatchTransferResult * list BatchTransferProgress) :=
  if (bo_concurrency options =? 0) || (bo_concurrency options >? 8)
  then Some (Err (EUsage (Msg "client.batch_concurrency_range" [pretty (bo_concurrency options)])), [])
  else
    match batch_run options (zlen items) evs (batch_init items) with
    | Some (mkBatch [] [] _ result progress) =>
        Some (if bo_cancel options && cancelled && existsb interrupted (br_failures result)
              then Err EInterrupted else Ok result, progress)
    | _ => None
    end.

(** ** Uploading a tree *)

(** What the system answers about a directory, its entries in its own order. *)
Inductive listing :=
  | Unreadable (text : string)
  | Listing (entries : list (string * entry))
with entry :=
  | BadEntry (text : string)
  | BadType (text : string)
  | IsFile
  | IsDir (children : listing)
  | IsOther.

Definition upload_tree_acc : Type := list BatchTransferItem * gset string.

(** [collect_upload_tree]; the accumulators are the code's two [&mut] arguments. *)
Fixpoint collect_upload_tree (local : path) (remote : string) (l : listing) (acc : upload_tree_acc) : Res upload_tree_acc :=
  let base := trim_end_matches slash remote in
  let acc := (acc.1, {[base]} ∪ acc.2) in
  match l with
  | Unreadable text => Err (ELocalIo (Msg "client.read_dir_failed" [local; text]))
  | Listing entries =>
      (fix go (entries : list (string * entry)) (acc : upload_tree_acc) : Res upload_tree_acc :=
         match entries with
         | [] => Ok acc
         | (name, e) :: entries =>
             let path := path_join local name in
             let remote_child := base +:+ String slash name in
             match e with
             | BadEntry text => Err (ELocalIo (Msg "client.read_dir_failed" [local; text]))
             | BadType text => Err (ELocalIo (Msg "client.read_dir_failed" [path; text]))
             | IsDir children =>
                 match collect_upload_tree path remote_child children acc with
                 | Err e => Err e
                 | Ok acc => go entries acc
                 end
             | IsFile => go entries (acc.1 ++ [mkBatchTransferItem path remote_child], acc.2)
             | IsOther => go entries acc
             end
         end) entries acc
  end.

Context `{Crypto} `{ProtoCodec} `{ClientCodec} (keys : SessionKeys).

(** The loop that creates the remote directories; each has the answers to its two requests. *)
Fixpoint create_directories (directories : list string) (answers : list (RequestAnswers * RequestAnswers)) : client unit :=
  match directories, answers with
  | [], _ => client_ret (Ok ())
  | directory :: directories, (a1, a2) :: answers =>
      do? there := file_exists keys directory a1 in
      if there : bool then create_directories directories answers
      else do? _ := create_dir keys directory a2 in create_directories directories answers
  | _, [] => client_ret (Err (ETimeout (Msg "session.wait_response" [])))
  end.

Definition upload_tree (local_dir : path) (remote_dir : string) (l : listing) (options : BatchTransferOptions)
  (answers : list (RequestAnswers * RequestAnswers)) (evs : list batch_event) (cancelled : bool) (c : HandShakerClient)
  : option (Res BatchTransferResult * list BatchTransferProgress) * HandShakerClient :=
  match collect_upload_tree local_dir remote_dir l ([], ∅) with
  | Err e => (Some (Err e, []), c)
  | Ok (items, directories) =>
      match create_directories (merge_sort string_le (elements directories)) answers c with
      | (Err e, c) => (Some (Err e, []), c)
      | (Ok _, c) => (batch_transfer items options evs cancelled, c)
      end
  end.

(** ** Downloading a tree *)

Definition escape_component (c : Component) : bool :=
  match c with ParentDir | RootDir => true | _ => false end.

Definition path_escape (p : string) : Error := EProtocol (Msg "client.download_path_escape" [p]).

(** The local path of a file the phone lists below [base_prefix], if it stays inside. *)
Definition tree_target (base_prefix : string) (local_dir : path) (p : string) : Res path :=
  match str_strip_prefix base_prefix p with
  | None => Err (path_escape p)
  | Some relative =>
      if existsb escape_component (components relative) then Err (path_escape p)
      else
        let local := path_join local_dir relative in
        if bool_decide (components local_dir `prefix_of` components local) then Ok local else Err (path_escape p)
  end.

(** [tokio::fs::create_dir_all] with its error. *)
Definition make_local_dir (p : path) : io (Res unit) := fails_local "client.create_failed" p (create_dir_all (components p)).

(** The loop of [download_tree]. *)
Fixpoint collect_download_tree (base_prefix : string) (local_dir : path) (files : list RemoteFile)
  (items : list BatchTransferItem) : io (Res (list BatchTransferItem)) :=
  match files with
  | [] => io_ok items
  | file :: files =>
      match tree_target base_prefix local_dir (rf_path file) with
      | Err e => io_err e
      | Ok local =>
          if rf_is_directory file then
            let*? _ := make_local_dir local in collect_download_tree base_prefix local_dir files items
          else collect_download_tree base_prefix local_dir files (items ++ [mkBatchTransferItem (rf_path file) local])
      end
  end.

Definition U32_MAX_DEPTH : Z := 2 ^ 32 - 1.

Definition download_tree (remote_dir : string) (local_dir : path) (options : BatchTransferOptions) (a : RequestAnswers)
  (evs : list batch_event) (cancelled : bool) (c : HandShakerClient)
  : io (option (Res BatchTransferResult * list BatchTransferProgress) * HandShakerClient) :=
  let* made := make_local_dir local_dir in
  match made with
  | Err e => mret (Some (Err e, []), c)
  | Ok _ =>
      match list_dir keys remote_dir U32_MAX_DEPTH a c with
      | (Err e, c) => mret (Some (Err e, []), c)
      | (Ok files, c) =>
          let* collected := collect_download_tree (trim_end_matches slash remote_dir +:+ "/") local_dir files [] in
          match collected with
          | Err e => mret (Some (Err e, []), c)
          | Ok items => mret (batch_transfer items options evs cancelled, c)
          end
      end
  end.

End Batch.
