(* ===== verification/ClientBatchProps.v ===== *)
(** * Batches and trees account for every file

    What a batch leaves for any order of its transfers, and that a phone cannot make
    [download_tree] (ClientBatch.v) touch anything outside the local directory. *)

From Stdlib Require Import Strings.String Strings.Ascii.
From stdpp Require Import gmap.
From S2P Require Import Prelude Errors Domain Frame Reassembly Handshake Proto Session SessionProps Text Paths Fs FsLogic SyncStore SyncJournal SyncCrash ClientProto EventDecode Client ClientBatch ClientTransferProps.

#[local] Open Scope string_scope.
#[local] Open Scope list_scope.
#[local] Open Scope Z_scope.

(** ** Batches *)

Section Batch.
Context (error_text : Error -> message) (options : BatchTransferOptions) (total : Z).

Definition failure_item (failure : BatchTransferFailure) : BatchTransferItem :=
  mkBatchTransferItem (bf_source failure) (bf_target failure).

(** What a result accounts for. *)
Definition accounted (r : BatchTransferResult) : list BatchTransferItem := br_ok r ++ (failure_item <$> br_failures r).

Definition batch_items (b : Batch) : list BatchTransferItem := accounted (bt_result b) ++ bt_flight b ++ bt_waiting b.

Lemma failure_item_with (item : BatchTransferItem) (m : message) (code : option ErrorCode) :
  failure_item (mkBatchTransferFailure (bi_source item) (bi_target item) m code) = item.
Proof. by destruct item. Qed.

Lemma accounted_ok (item : BatchTransferItem) (r : BatchTransferResult) : accounted (push_ok item r) ≡ₚ accounted r ++ [item].
Proof. unfold accounted. simpl. rewrite <- !app_assoc. apply Permutation_app_head, Permutation_app_comm. Qed.

Lemma accounted_failure (item : BatchTransferItem) (m : message) (code : option ErrorCode) (r : BatchTransferResult) :
  accounted (push_failure (mkBatchTransferFailure (bi_source item) (bi_target item) m code) r) ≡ₚ accounted r ++ [item].
Proof. unfold accounted. simpl. rewrite fmap_app, app_assoc. simpl. by rewrite failure_item_with. Qed.

Lemma batch_step_items (ev : batch_event) (b b' : Batch) :
  batch_step error_text options total ev b = Some b' ->
  batch_items b' ≡ₚ batch_items b /\
  (Z.of_nat (length (bt_flight b)) <= bo_concurrency options -> Z.of_nat (length (bt_flight b')) <= bo_concurrency options) /\
  (2 * length (bt_waiting b') + length (bt_flight b') < 2 * length (bt_waiting b) + length (bt_flight b))%nat.
Proof.
  destruct ev as [cancelled|n outcome]; simpl.
  - destruct (bt_waiting b) as [|item waiting] eqn:Ew; [done|].
    destruct (_ <? bo_concurrency options) eqn:El; [|done]. intros [= <-]. unfold batch_items. rewrite Ew.
    destruct (_ && cancelled); cbn [bt_waiting bt_flight bt_result]; (split; [|split; [intros Hl; rewrite ?length_app; simpl; lia|rewrite ?length_app; simpl; lia]]).
    + unfold skipped. rewrite accounted_failure. rewrite <- !app_assoc. apply Permutation_app_head. simpl.
      apply Permutation_middle.
    + by rewrite <- !app_assoc.
  - destruct (bt_flight b !! n) as [item|] eqn:En; [|done]. intros [= <-]. unfold batch_items. cbn [bt_waiting bt_flight bt_result].
    pose proof (length_delete _ n (mk_is_Some _ _ En)) as Hlen. pose proof (lookup_lt_Some _ _ _ En).
    pose proof (delete_Permutation _ _ _ En) as Hp.
    split; [|split; lia].
    assert (accounted (match outcome with Ok _ => push_ok item (bt_result b) | Err e => push_failure (failed_with error_text item e) (bt_result b) end)
              ≡ₚ accounted (bt_result b) ++ [item]) as ->.
    { destruct outcome; [apply accounted_ok|apply accounted_failure]. }
    rewrite Hp at 2. by rewrite <- !app_assoc.
Qed.

Lemma batch_run_items (evs : list batch_event) (b b' : Batch) :
  batch_run error_text options total evs b = Some b' ->
  batch_items b' ≡ₚ batch_items b /\
  (length evs + 2 * length (bt_waiting b') + length (bt_flight b') <= 2 * length (bt_waiting b) + length (bt_flight b))%nat.
Proof.
  revert b. induction evs as [|ev evs IH]; intros b; simpl; [by intros [= <-]|].
  intros (b1 & Hs & Hr)%bind_Some. apply batch_step_items in Hs as (Hp & _ & Hm). apply IH in Hr as [Hp' Hm'].
  split; [by rewrite Hp', Hp|lia].
Qed.

(** A batch that has not ended can go on. *)
Lemma batch_live (b : Batch) :
  0 < bo_concurrency options -> bt_waiting b <> [] \/ bt_flight b <> [] ->
  exists ev, is_Some (batch_step error_text options total ev b).
Proof.
  intros Hc Hb. destruct (bt_flight b) as [|item flight] eqn:Ef.
  - exists (Start false). simpl. destruct Hb as [Hb|[]]; [|done]. rewrite Ef. destruct (bt_waiting b); [done|].
    simpl. rewrite (proj2 (Z.ltb_lt _ _)) by lia. eauto.
  - exists (End 0 (Err EInterrupted)). simpl. rewrite Ef. simpl. eauto.
Qed.

End Batch.

Lemma batch_transfer_accounts (error_text : Error -> message) (items : list BatchTransferItem) (options : BatchTransferOptions)
    (evs : list batch_event) (cancelled : bool) (r : BatchTransferResult) (p : list BatchTransferProgress) :
  batch_transfer error_text items options evs cancelled = Some (Ok r, p) ->
  accounted r ≡ₚ items /\ (length evs <= 2 * length items)%nat.
Proof.
  unfold batch_transfer. destruct (_ || _); [done|].
  destruct (batch_run _ _ _ _ _) as [[[|] [|] d r' p']|] eqn:Er; try done.
  destruct (_ && _ && _); [done|]. intros [= <- <-]. apply batch_run_items in Er as [Hp Hm]. unfold batch_items in Hp.
  simpl in *. rewrite !app_nil_r in Hp. split; [exact Hp|lia].
Qed.

(** ** Trees *)

(** Nothing but new directories. *)
Definition dirs_made (K : key -> Prop) (f g : fs) : Prop :=
  forall k, g !! k = f !! k \/ (f !! k = None /\ g !! k = Some Dir /\ K k).

#[export] Instance dirs_made_preorder (K : key -> Prop) : PreOrder (dirs_made K).
Proof.
  split; [by left|]. intros f g h Hfg Hgh k. destruct (Hgh k) as [->|(Hg & Hh & HK)]; [done|].
  destruct (Hfg k) as [<-|(_ & Hd & _)]; [by right|congruence].
Qed.

Lemma make_dirs_made (K : key -> Prop) (ks : list key) (f : fs) : Forall K ks -> dirs_made K f (make_dirs ks f).
Proof.
  intros HK k. rewrite make_dirs_spec. destruct (f !! k); [by left|]. case_bool_decide; [|by left].
  right. split_and!; [done..|]. by eapply Forall_forall.
Qed.

(** In the tree below a directory, or above it. *)
Definition around (root : key) (k : key) : Prop := k ∈ prefixes_of root \/ root `prefix_of` k.

Lemma prefixes_around (root rest k : key) : k ∈ prefixes_of (root ++ rest) -> around root k.
Proof.
  unfold around. revert k. induction root as [|c root IH]; intros k Hk; [right; apply prefix_nil|]. simpl in *.
  apply elem_of_cons in Hk as [->|(k' & -> & Hk)%list_elem_of_fmap]; [left; by left|].
  destruct (IH k' Hk) as [Hl|Hr]; [|right; by apply prefix_cons]. left. right. apply list_elem_of_fmap. eauto.
Qed.

Lemma triple_make_local_dir (K : key -> Prop) (p : path) (f0 : fs) :
  Forall K (prefixes_of (components p)) ->
  triple (dirs_made K f0) (make_local_dir p) (fun _ => dirs_made K f0) (dirs_made K f0).
Proof.
  intros HK. apply triple_map_err with (R := fun _ => dirs_made K f0); [|done|intros e; by apply triple_ret].
  apply triple_syscall.
  - intros f Hf. case_match; simpl; [done|]. etrans; [exact Hf|by apply make_dirs_made].
  - intros f n t Hf. etrans; [exact Hf|by apply make_dirs_made, Forall_take].
  - intros f n Hf. etrans; [exact Hf|by apply make_dirs_made, Forall_take].
Qed.

(** What the phone may list below a directory, and where it goes. *)
Definition inside (base : string) (local_dir : path) (p : string) (target : path) : Prop :=
  exists relative, p = base +:+ ("/" +:+ relative) /\ target = path_join local_dir relative /\
    Forall (fun c => escape_component c = false) (components relative) /\
    components target = components local_dir ++ filter (fun c => is_normal c) (components relative).

Lemma path_head_relative (p : path) : Forall (fun c => escape_component c = false) (components p) -> is_absolute p = false.
Proof.
  unfold components, path_head. pose proof (split_slash_ne p). destruct (split_slash p); [done|].
  destruct (is_absolute p); [|done]. simpl. intros [Hc _]%Forall_cons. done.
Qed.

Lemma filter_normal_body (segs : list string) :
  Forall (fun c => escape_component c = false) (body segs) -> filter (fun c => is_normal c) (body segs) = body segs.
Proof.
  induction segs as [|s segs IH]; [done|].
  change (body (s :: segs)) with (match seg_component s with Some c => c :: body segs | None => body segs end).
  destruct (seg_component s) as [c|] eqn:Es; [|exact IH]. intros [Hc Hs]%Forall_cons.
  rewrite filter_cons_True; [by rewrite IH|]. unfold seg_component in Es. repeat case_match; by simplify_eq.
Qed.

Lemma components_join_relative (q relative : path) :
  q <> "" -> Forall (fun c => escape_component c = false) (components relative) ->
  components (path_join q relative) = components q ++ filter (fun c => is_normal c) (components relative).
Proof.
  intros Hq Hr. pose proof (path_head_relative relative Hr) as Ha.
  assert (filter (fun c => is_normal c) (components relative) = body (split_slash relative)) as ->.
  { unfold components, path_head in *. rewrite Ha in *. pose proof (split_slash_ne relative).
    destruct (split_slash relative) as [|seg segs]; [done|]. destruct (bool_decide_reflect (seg = ".")) as [->|Hs].
    - simpl in *. apply Forall_cons in Hr as [_ Hr]. rewrite filter_cons_False by (simpl; tauto).
      rewrite filter_normal_body by done. by unfold body.
    - simpl in *. by apply filter_normal_body. }
  unfold path_join. rewrite Ha, bool_decide_eq_false_2 by done. simpl.
  destruct (ends_with_slash q) eqn:He; simpl.
  - apply ends_with_slash_split in He as [r ->]. rewrite app_slash. apply components_slash.
  - by rewrite components_slash, components_trailing_slash.
Qed.

Lemma tree_target_inside (base local_dir p target : string) :
  local_dir <> "" -> tree_target (base +:+ "/") local_dir p = Ok target -> inside base local_dir p target.
Proof.
  intros Hl. unfold tree_target. destruct (str_strip_prefix _ p) as [relative|] eqn:Es; [|done].
  destruct (existsb _ _) eqn:Ee; [done|]. case_bool_decide; [|done]. intros [= <-].
  apply str_strip_prefix_spec in Es. exists relative.
  assert (Forall (fun c => escape_component c = false) (components relative)) as Hall.
  { apply Forall_forall. intros c Hc. apply not_true_is_false. intros Ht. apply not_true_iff_false in Ee. apply Ee.
    apply existsb_exists. exists c. split; [by apply list_elem_of_In|done]. }
  split_and!; [|done|done|by apply components_join_relative].
  rewrite Es. by rewrite app_assoc_str.
Qed.

Section Tree.
Context (base : string) (local_dir : path) (Hdir : local_dir <> "").

(** A planned item: from a listed file to its place below the local directory. *)
Definition mirrors (file : RemoteFile) (item : BatchTransferItem) : Prop :=
  bi_source item = rf_path file /\ inside base local_dir (rf_path file) (bi_target item).

Lemma inside_around (p target : path) : inside base local_dir p target -> Forall (around (components local_dir)) (prefixes_of (components target)).
Proof. intros (r & _ & _ & _ & ->). apply Forall_forall. intros k. apply prefixes_around. Qed.

Lemma triple_collect_download_tree (files : list RemoteFile) (items : list BatchTransferItem) (f0 : fs) :
  triple (dirs_made (around (components local_dir)) f0) (collect_download_tree (base +:+ "/") local_dir files items)
    (fun _ => dirs_made (around (components local_dir)) f0) (dirs_made (around (components local_dir)) f0).
Proof.
  revert items. induction files as [|file files IH]; intros items; simpl; [by apply triple_ret|].
  destruct (tree_target _ _ _) as [t|e] eqn:Et; [|by apply triple_ret]. apply tree_target_inside in Et; [|done].
  destruct (rf_is_directory file); [|apply IH].
  eapply triple_bind; [by eapply triple_make_local_dir, inside_around|]. intros [u|e]; [apply IH|by apply triple_ret].
Qed.

Lemma collect_download_tree_items (files : list RemoteFile) (items : list BatchTransferItem) :
  yields (collect_download_tree (base +:+ "/") local_dir files items)
    (fun r => forall all, r = Ok all -> Forall (fun file => exists t, inside base local_dir (rf_path file) t) files /\
       exists new, all = items ++ new /\ Forall2 mirrors (filter (fun file => rf_is_directory file = false) files) new).
Proof.
  revert items. induction files as [|file files IH]; intros items; simpl.
  { apply yields_ret. intros all [= <-]. split; [done|]. exists []. by rewrite app_nil_r. }
  destruct (tree_target _ _ _) as [t|e] eqn:Et; [|by apply yields_ret]. apply tree_target_inside in Et; [|done].
  destruct (rf_is_directory file) eqn:Ed.
  - apply yields_then. intros [u|e]; [|by apply yields_ret]. eapply yields_conseq; [apply IH|].
    intros r Hr all Hall. destruct (Hr all Hall) as [Hf Hn]. split; [constructor; eauto|].
    rewrite filter_cons_False by congruence. exact Hn.
  - eapply yields_conseq; [apply IH|]. intros r Hr all Hall. destruct (Hr all Hall) as (Hf & new & -> & Hn).
    split; [constructor; eauto|]. eexists (_ :: new). rewrite <- app_assoc. split; [reflexivity|].
    rewrite filter_cons_True by done. constructor; [|done]. by split.
Qed.

End Tree.

Lemma triple_download_tree `{Crypto} `{ProtoCodec} `{ClientCodec} (keys : SessionKeys) (error_text : Error -> message)
    (remote_dir : string) (local_dir : path) (options : BatchTransferOptions) (a : RequestAnswers)
    (evs : list batch_event) (cancelled : bool) (c : HandShakerClient) (f0 : fs) :
  local_dir <> "" ->
  triple (dirs_made (around (components local_dir)) f0)
    (download_tree error_text keys remote_dir local_dir options a evs cancelled c)
    (fun _ => dirs_made (around (components local_dir)) f0) (dirs_made (around (components local_dir)) f0).
Proof.
  intros Hdir. unfold download_tree. eapply triple_bind.
  { apply triple_make_local_dir. apply Forall_forall. intros k Hk. by left. }
  intros [u|e]; [|by apply triple_ret].
  destruct (list_dir _ _ _ _ _) as [[files|e] c1]; [|by apply triple_ret].
  eapply triple_bind; [by apply triple_collect_download_tree|]. intros [items|e]; by apply triple_ret.
Qed.

Lemma download_tree_result `{Crypto} `{ProtoCodec} `{ClientCodec} (keys : SessionKeys) (error_text : Error -> message)
    (remote_dir : string) (local_dir : path) (options : BatchTransferOptions) (a : RequestAnswers)
    (evs : list batch_event) (cancelled : bool) (c : HandShakerClient) :
  local_dir <> "" ->
  yields (download_tree error_text keys remote_dir local_dir options a evs cancelled c)
    (fun r => forall result progress, r.1 = Some (Ok result, progress) ->
       exists files items, list_dir keys remote_dir U32_MAX_DEPTH a c = (Ok files, r.2) /\
         Forall (fun file => exists t, inside (trim_end_matches slash remote_dir) local_dir (rf_path file) t) files /\
         Forall2 (mirrors (trim_end_matches slash remote_dir) local_dir)
           (filter (fun file => rf_is_directory file = false) files) items /\
         accounted result ≡ₚ items /\ (length evs <= 2 * length items)%nat).
Proof.
  intros Hdir. unfold download_tree. apply yields_then. intros [u|e]; [|by apply yields_ret].
  destruct (list_dir _ _ _ _ _) as [[files|e] c1]; [|by apply yields_ret].
  eapply yields_bind; [by apply collect_download_tree_items|]. intros [items|e] Hi; [|by apply yields_ret].
  apply yields_ret. intros result progress Hr. simpl in Hr. destruct (Hi items eq_refl) as (Hin & new & -> & Hm).
  apply batch_transfer_accounts in Hr as [Hp Hl]. exists files, new. by split_and!.
Qed.

(** C19: downloading a tree stays in the tree and loses nothing.  Whatever the phone lists
    and however the disk fails, nothing but new directories at, above or below the local
    one is left before the files are transferred; a file whose name leaves the listed
    directory (another prefix, or a dot-dot) fails the whole call.  If it succeeds, every
    listed file is below the directory and, for any number of concurrent transfers and any
    order in which they end, each is reported exactly once, as done or as failed, with a
    target that mirrors its path below the local directory.  A batch that has not ended can
    always go on, and ends after at most two steps per file. *)
Theorem download_tree_exact `{Crypto} `{ProtoCodec} `{ClientCodec} (keys : SessionKeys) (error_text : Error -> message)
    (remote_dir : string) (local_dir : path) (options : BatchTransferOptions) (a : RequestAnswers)
    (evs : list batch_event) (cancelled : bool) (c : HandShakerClient) (w : world) :
  local_dir <> "" ->
  let '(o, w') := download_tree error_text keys remote_dir local_dir options a evs cancelled c w in
  dirs_made (around (components local_dir)) (w_fs w) (w_fs w') /\
  (forall result progress c', o = Ret (Some (Ok result, progress), c') ->
     exists files items, list_dir keys remote_dir U32_MAX_DEPTH a c = (Ok files, c') /\
       Forall (fun file => exists t, inside (trim_end_matches slash remote_dir) local_dir (rf_path file) t) files /\
       Forall2 (mirrors (trim_end_matches slash remote_dir) local_dir)
         (filter (fun file => rf_is_directory file = false) files) items /\
       accounted result ≡ₚ items /\ (length evs <= 2 * length items)%nat) /\
  (0 < bo_concurrency options -> forall total b, bt_waiting b <> [] \/ bt_flight b <> [] ->
     exists ev, is_Some (batch_step error_text options total ev b)).
Proof.
  intros Hdir.
  pose proof (triple_download_tree keys error_text remote_dir local_dir options a evs cancelled c (w_fs w) Hdir w) as Ht.
  pose proof (download_tree_result keys error_text remote_dir local_dir options a evs cancelled c Hdir w) as Hy.
  destruct (download_tree _ _ _ _ _ _ _ _ _ w) as [o w']. split_and!.
  - specialize (Ht ltac:(reflexivity)). by destruct o.
  - intros result progress c' ->. exact (Hy (Some (Ok result, progress), c') w' eq_refl result progress eq_refl).
  - intros Hc total b. by apply batch_live.
Qed.

(** A phone that lists one directory and two files. *)
Definition toy_listing : Message SspGetDirFilesResponse := {|
  encode_to_vec := fun _ => [];
  message_decode := fun _ => Ok (mkSspGetDirFilesResponse None None None None
    [ssp_file "/p/d" true None; ssp_file "/p/d/a" false (Some 3); ssp_file "/p/b" false (Some 4)])
|}.
Definition toy_listing_codec : ClientCodec.
Proof. constructor; first [exact toy_listing | exact toy_message | exact (fun s => Ok (bytes_of_string s)) | exact (fun _ => Ok "")]. Defined.

Definition sample_batch : BatchTransferResult :=
  mkBatchTransferResult [mkBatchTransferItem "/p/b" "/l/b"]
    [mkBatchTransferFailure "/p/d/a" "/l/d/a" (Msg "" []) (Some Interrupted)].

Lemma download_tree_exact_witness :
  exists items, accounted sample_batch ≡ₚ items /\ (4 <= 2 * length items)%nat.
Proof.
  pose proof (@download_tree_exact toy_crypto toy_codec toy_listing_codec (@mkSessionKeys toy_crypto [x01] [x02]) (fun _ => Msg "" [])
    "/p/" "/l" (mkBatchOptions false false 0 2 false) (mkAnswers Sent false (rx_data [prefixed [x05]]))
    [Start false; Start false; End 1 (Ok 4); End 0 (Err EInterrupted)] false sample_client (mkWorld ∅ [] [])) as Hd.
  destruct (@download_tree _ _ _ _ _ _ _ _ _ _ _ _ _) as [o w'] eqn:Ed. vm_compute in Ed. injection Ed as <- <-.
  destruct Hd as (_ & Hr & _); [done|]. destruct (Hr sample_batch [] _ eq_refl) as (files & items & _ & _ & _ & Hp & Hl).
  by exists items.
Defined.
