(* ===== verification/FilePlan.v ===== *)
(** * File plans

    crates/handshaker-application/src/file_plan.rs and the planning half of
    crates/handshaker-application/src/runtime.rs: which files a batch would transfer where,
    what stands in the way, and whether the plan may be executed. *)

From Stdlib Require Import Strings.String Strings.Ascii.
From stdpp Require Import gmap.
From S2P Require Import Prelude Errors AppErrors Domain Text Paths Fs ClientTransfer RemotePath.

#[local] Open Scope string_scope.
#[local] Open Scope list_scope.
#[local] Open Scope Z_scope.

(** ** file_plan.rs *)

Inductive FilePlanDirection := PlanUpload | PlanDownload.

Inductive FileConflictKind :=
  | DestinationExists | DestinationTypeMismatch | RecursiveRequired | DuplicateDestination | SourceMissing
  | LocalDenied.

#[export] Instance FileConflictKind_eq_dec : EqDecision FileConflictKind.
Proof. solve_decision. Defined.

Record FilePlanConflict := mkConflict {
  fc_kind : FileConflictKind; fc_source : string; fc_destination : string; fc_message : string; fc_overridable : bool }.

Record FilePlanItem := mkPlanItem {
  pi_source : string; pi_destination : string; pi_is_directory : bool; pi_size : option Z }.

Record FileOperationPlan := mkPlan {
  fp_direction : FilePlanDirection;
  fp_session_id : Z;
  fp_items : list FilePlanItem;
  fp_conflicts : list FilePlanConflict;
  fp_file_count : Z;
  fp_directory_count : Z;
  fp_total_bytes : option Z;
  fp_requires_recursive : bool;
  fp_executable : bool
}.

Definition is_executable_with (plan : FileOperationPlan) (overwrite : bool) : bool :=
  forallb (fun conflict =>
    fc_overridable conflict &&
    match fc_kind conflict with DestinationExists => overwrite | _ => true end) (fp_conflicts plan).

Record PlanRequest := mkPlanRequest {
  pr_session_id : Z; pr_sources : list string; pr_destination : string; pr_recursive : bool; pr_overwrite : bool }.

(** ** Aggregation *)

Fixpoint duplicate_conflicts (items : list FilePlanItem) (seen : gmap string string) : list FilePlanConflict :=
  match items with
  | [] => []
  | item :: items =>
      match seen !! pi_destination item with
      | Some previous =>
          [mkConflict DuplicateDestination (pi_source item) (pi_destination item)
             ("multiple sources map to the same destination (" +:+ previous +:+ " and " +:+ pi_source item +:+ ")") false]
      | None => []
      end ++ duplicate_conflicts items (<[pi_destination item := pi_source item]> seen)
  end.

Definition append_duplicate_destination_conflicts (items : list FilePlanItem) (conflicts : list FilePlanConflict)
  : list FilePlanConflict := conflicts ++ duplicate_conflicts items ∅.

(** [u64::saturating_add] *)
Definition saturating_add64 (a b : Z) : Z := Z.min (a + b) (2 ^ 64 - 1).

Definition finalize_file_plan (direction : FilePlanDirection) (session_id : Z) (items : list FilePlanItem)
  (conflicts : list FilePlanConflict) (requires_recursive : bool) : FileOperationPlan :=
  let file_count := zlen (filter (fun i => pi_is_directory i = false) items) in
  let directory_count := zlen (filter (fun i => pi_is_directory i = true) items) in
  let sum := foldl saturating_add64 0 (omap pi_size items) in
  mkPlan direction session_id items conflicts file_count directory_count
    (if file_count >? 0 then Some sum else None) requires_recursive (forallb fc_overridable conflicts).

(** ** The phone's and the disk's answers *)

Record FileEntryDto := mkFileEntry {
  fd_path : string; fd_size : Z; fd_created_at_ms : option Z; fd_modified_at_ms : option Z; fd_is_directory : bool;
  fd_checksum : option string; fd_is_trash : option bool; fd_media_id : option Z }.

Definition remote_file_to_dto (file : RemoteFile) : FileEntryDto :=
  mkFileEntry (rf_path file) (rf_size file) (rf_created_at file) (rf_modified_at file) (rf_is_directory file)
    (rf_checksum file) (rf_is_trash file) (rf_id file).

(** What [HandShakerClient::stat] answers for each path while the plan is made. *)
Class PhoneStat := phone_stat : string -> Res (option RemoteFile).

Record Metadata := mkMetadata { md_is_dir : bool; md_len : Z }.
Definition md_is_file (m : Metadata) : bool := negb (md_is_dir m).

(** [std::fs::metadata] *)
Definition fs_metadata (p : path) : io (result io_error Metadata) :=
  syscall (fun f => (match f !! components p with
                     | Some (File c) => Ok (mkMetadata false (zlen c))
                     | Some Dir => Ok (mkMetadata true 0)
                     | None => Err err_not_found
                     end, f)) untouched.

(** [ErrorKind::PermissionDenied]: EACCES or EPERM, as the system spells them. *)
Definition permission_denied (e : io_error) : bool :=
  bool_decide (io_text e = "Permission denied (os error 13)" \/ io_text e = "Operation not permitted (os error 1)").

Section Plans.
Context `{PhoneStat}.

(** [stat_file]; [root] is the client's root path. *)
Definition stat_file (root p : string) : AppResult (option FileEntryDto) :=
  match phone_stat (resolve_remote_path root p) with
  | Ok file => Ok (remote_file_to_dto <$> file)
  | Err e => Err (from_core_error e "stat_file")
  end.

Definition stat_optional (root p : string) : AppResult (option FileEntryDto) :=
  match stat_file root p with
  | Ok file => Ok file
  | Err e => if bool_decide (pe_code e = RemotePathNotFound) then Ok None else Err e
  end.

(** ** Destinations of a download *)

Definition no_name_conflict (source destination message : string) : FilePlanConflict :=
  mkConflict DestinationTypeMismatch source destination message false.

(** A base name that can be used: [file_name] gives no dot, dot-dot or empty name, the code checks again. *)
Definition usable_name (p : path) : option string :=
  match file_name p with
  | Some name => if bool_decide (name = "." \/ name = ".." \/ name = "") then None else Some name
  | None => None
  end.

Definition resolve_local_download_destination (destination : string) (remote : FileEntryDto) (source_count : nat)
  (conflicts : list FilePlanConflict) : io (option path * list FilePlanConflict) :=
  match usable_name (fd_path remote) with
  | None =>
      mret (None, conflicts ++ [no_name_conflict (fd_path remote) destination "remote path has no usable file name"])
  | Some base =>
      let* existing := fs_metadata destination in
      let is_dir := match existing with Ok m => md_is_dir m | Err _ => false end in
      if (1 <? source_count)%nat then
        if is_dir then mret (Some (path_join destination base), conflicts)
        else mret (None, conflicts ++ [no_name_conflict (fd_path remote) destination
                           "multi-source download requires an existing destination directory"])
      else if is_dir then mret (Some (path_join destination base), conflicts)
      else mret (Some destination, conflicts)
  end.

Definition inspect_local_destination (destination : path) (remote_is_directory overwrite : bool)
  (conflicts : list FilePlanConflict) : io (list FilePlanConflict) :=
  let* found := fs_metadata destination in
  mret match found with
       | Err _ => conflicts
       | Ok m =>
           if negb (Bool.eqb (md_is_dir m) remote_is_directory) then
             conflicts ++ [mkConflict DestinationTypeMismatch destination destination
                             "destination type does not match the source" false]
           else if md_is_file m then
             conflicts ++ [mkConflict DestinationExists destination destination "destination already exists" overwrite]
           else conflicts
       end.

(** The items, conflicts and flag a plan is built from. *)
Definition draft : Type := list FilePlanItem * list FilePlanConflict * bool.

Definition recursive_required (is_directory recursive : bool) (source destination message : string) (d : draft) : draft :=
  if is_directory && negb recursive
  then (d.1.1, d.1.2 ++ [mkConflict RecursiveRequired source destination message true], true)
  else d.

(** One source of [plan_download]. *)
Definition plan_download_source (root : string) (request : PlanRequest) (raw_source : string) (d : draft)
  : io (AppResult draft) :=
  let source := resolve_remote_path root raw_source in
  match stat_file root source with
  | Err e => mret (Err e)
  | Ok None =>
      mret (Ok (d.1.1, d.1.2 ++ [mkConflict SourceMissing source (pr_destination request)
                                   "remote source does not exist" false], d.2))
  | Ok (Some remote) =>
      let '(items, conflicts, requires) :=
        recursive_required (fd_is_directory remote) (pr_recursive request) source (pr_destination request)
          "directory download requires recursive mode" d in
      let* r := resolve_local_download_destination (pr_destination request) remote (length (pr_sources request)) conflicts in
      let (resolved, conflicts) := (r : option path * list FilePlanConflict) in
      match resolved with
      | None => mret (Ok (items, conflicts, requires))
      | Some destination =>
          let* conflicts := inspect_local_destination destination (fd_is_directory remote) (pr_overwrite request) conflicts in
          mret (Ok (items ++ [mkPlanItem source destination (fd_is_directory remote)
                                (if fd_is_directory remote then None else Some (fd_size remote))], conflicts, requires))
      end
  end.

Fixpoint plan_sources (step : string -> draft -> io (AppResult draft)) (sources : list string) (d : draft)
  : io (AppResult draft) :=
  match sources with
  | [] => mret (Ok d)
  | source :: sources =>
      let* r := step source d in
      match r with
      | Err e => mret (Err e)
      | Ok d => plan_sources step sources d
      end
  end.

Definition finished_plan (direction : FilePlanDirection) (session_id : Z) (d : draft) : FileOperationPlan :=
  finalize_file_plan direction session_id d.1.1 (append_duplicate_destination_conflicts d.1.1 d.1.2) d.2.

(** [session] is what [ensure_open] and [session_handle] answer: the root path of the session. *)
Definition plan_download (session : AppResult string) (request : PlanRequest) : io (AppResult FileOperationPlan) :=
  match session with
  | Err e => mret (Err e)
  | Ok root =>
      let* r := plan_sources (plan_download_source root request) (pr_sources request) ([], [], false) in
      mret match r with
           | Err e => Err e
           | Ok d => Ok (finished_plan PlanDownload (pr_session_id request) d)
           end
  end.

(** ** Destinations of an upload *)

Definition resolve_remote_upload_destination (destination source : string) (source_count : nat)
  (destination_stat : option FileEntryDto) (conflicts : list FilePlanConflict) : option string * list FilePlanConflict :=
  match usable_name source with
  | None => (None, conflicts ++ [no_name_conflict source destination "local source has no usable file name"])
  | Some base =>
      let is_dir := match destination_stat with Some existing => fd_is_directory existing | None => false end in
      if (1 <? source_count)%nat then
        if is_dir then (Some (destination +:+ String slash base), conflicts)
        else (None, conflicts ++ [no_name_conflict source destination
                      "multi-source upload requires an existing remote directory"])
      else if is_dir then (Some (destination +:+ String slash base), conflicts)
      else (Some destination, conflicts)
  end.

Definition append_remote_destination_conflict (source destination : string) (is_directory : bool)
  (existing : FileEntryDto) (overwrite : bool) (conflicts : list FilePlanConflict) : list FilePlanConflict :=
  if negb (Bool.eqb (fd_is_directory existing) is_directory) then
    conflicts ++ [mkConflict DestinationTypeMismatch source destination
                    "remote destination type does not match the source" false]
  else if negb (fd_is_directory existing) then
    conflicts ++ [mkConflict DestinationExists source destination "remote destination already exists" overwrite]
  else conflicts.

Definition map_local_plan_error (e : io_error) (source : string) : PublicError :=
  operation "plan_upload" (with_detail (Text (io_text e))
    (public_new LocalPermissionDenied ("cannot inspect local source " +:+ source))).

(** The end of an iteration of [plan_upload], once the source was found. *)
Definition plan_upload_found (root : string) (request : PlanRequest) (remote_destination : string)
  (destination_stat : option FileEntryDto) (raw_source : string) (m : Metadata) (d : draft) : AppResult draft :=
  let is_directory := md_is_dir m in
  let '(items, conflicts, requires) :=
    recursive_required is_directory (pr_recursive request) raw_source remote_destination
      "directory upload requires recursive mode" d in
  let (resolved, conflicts) :=
    resolve_remote_upload_destination remote_destination raw_source (length (pr_sources request)) destination_stat conflicts in
  match resolved with
  | None => Ok (items, conflicts, requires)
  | Some destination =>
      match stat_optional root destination with
      | Err e => Err e
      | Ok existing =>
          let conflicts :=
            match existing with
            | Some existing =>
                append_remote_destination_conflict raw_source destination is_directory existing
                  (pr_overwrite request) conflicts
            | None => conflicts
            end in
          Ok (items ++ [mkPlanItem raw_source destination is_directory (if is_directory then None else Some (md_len m))],
              conflicts, requires)
      end
  end.

(** One source of [plan_upload]. *)
Definition plan_upload_source (root : string) (request : PlanRequest) (remote_destination : string)
  (destination_stat : option FileEntryDto) (raw_source : string) (d : draft) : io (AppResult draft) :=
  let* found := fs_metadata raw_source in
  mret match found with
       | Err e =>
           match io_kind_of e with
           | KNotFound => Ok (d.1.1, d.1.2 ++ [mkConflict SourceMissing raw_source remote_destination
                                                 "local source does not exist" false], d.2)
           | _ => if permission_denied e
                  then Ok (d.1.1, d.1.2 ++ [mkConflict LocalDenied raw_source remote_destination
                                              "local source is not readable" false], d.2)
                  else Err (map_local_plan_error e raw_source)
           end
       | Ok m => plan_upload_found root request remote_destination destination_stat raw_source m d
       end.

Definition plan_upload (session : AppResult string) (request : PlanRequest) : io (AppResult FileOperationPlan) :=
  match session with
  | Err e => mret (Err e)
  | Ok root =>
      let remote_destination := resolve_remote_path root (pr_destination request) in
      match stat_optional root remote_destination with
      | Err e => mret (Err e)
      | Ok destination_stat =>
          let* r := plan_sources (plan_upload_source root request remote_destination destination_stat)
                      (pr_sources request) ([], [], false) in
          mret match r with
               | Err e => Err e
               | Ok d => Ok (finished_plan PlanUpload (pr_session_id request) d)
               end
      end
  end.

End Plans.
