(* ===== verification/FilePlanProps.v ===== *)
(** * What an executable plan guarantees

    File plans (FilePlan.v) on a disk that works: every source is planned once, to a place
    that is free, of the right shape, or allowed to be overwritten. *)

From Stdlib Require Import Strings.String Strings.Ascii.
From stdpp Require Import gmap.
From S2P Require Import Prelude Errors AppErrors Domain Text Paths Fs FsLogic SyncCrash TrustProps ClientTransfer ClientTransferProps RemotePath FilePlan.

#[local] Open Scope string_scope.
#[local] Open Scope list_scope.
#[local] Open Scope Z_scope.

(** ** Names *)

Lemma file_name_proper (p : path) (name : string) : file_name p = Some name -> proper_segment name.
Proof.
  intros Hn. apply file_name_components in Hn. apply last_Some in Hn as [l Hl].
  assert (Normal name ∈ components p) as Hin by (rewrite Hl; set_solver).
  pose proof (components_normal_no_slash p name Hin) as Hs. unfold components in Hin.
  apply elem_of_app in Hin as [Hin|Hin]; [unfold path_head in Hin; repeat case_match; simpl in Hin; set_solver|].
  apply list_elem_of_omap in Hin as (s & _ & Hc). unfold seg_component, trivial_seg in Hc.
  repeat case_bool_decide; try done. injection Hc as ->. unfold proper_segment. tauto.
Qed.

Lemma usable_name_file_name (p : path) : usable_name p = file_name p.
Proof.
  unfold usable_name. destruct (file_name p) as [name|] eqn:E; [|done]. apply file_name_proper in E as (H1 & H2 & H3 & _).
  by rewrite bool_decide_eq_false_2 by tauto.
Qed.

(** ** Conflicts *)

(** A conflict the given option resolves. *)
Definition resolved_by (overwrite : bool) (c : FilePlanConflict) : Prop :=
  fc_overridable c = true /\ (fc_kind c = DestinationExists -> overwrite = true).

Lemma is_executable_spec (plan : FileOperationPlan) (overwrite : bool) :
  is_executable_with plan overwrite = true <-> Forall (resolved_by overwrite) (fp_conflicts plan).
Proof.
  unfold is_executable_with, resolved_by. rewrite Forall_forall, forallb_forall.
  split; intros Hc c Hin; specialize (Hc c); rewrite ?list_elem_of_In in *; specialize (Hc Hin).
  - apply andb_true_iff in Hc as [-> Hk]. split; [done|]. by intros Hd; rewrite Hd in Hk.
  - destruct Hc as [-> Hk]. simpl. destruct (fc_kind c); auto.
Qed.

Lemma duplicate_conflicts_none (items : list FilePlanItem) (seen : gmap string string) (overwrite : bool) :
  Forall (resolved_by overwrite) (duplicate_conflicts items seen) ->
  NoDup (pi_destination <$> items) /\ Forall (fun item => seen !! pi_destination item = None) items.
Proof.
  revert seen. induction items as [|item items IH]; intros seen; simpl; [by split; constructor|].
  intros [Hi Hs]%Forall_app. apply IH in Hs as [Hd Hs].
  destruct (seen !! pi_destination item) eqn:E; [by apply Forall_inv in Hi as [Hi _]|]. split.
  - constructor; [|done]. intros (other & Heq & Hin)%list_elem_of_fmap. rewrite Forall_forall in Hs.
    specialize (Hs other Hin). rewrite <- Heq, lookup_insert_eq in Hs. done.
  - constructor; [done|]. eapply Forall_impl; [exact Hs|]. intros other Ho. simpl in Ho.
    destruct (decide (pi_destination item = pi_destination other)) as [Heq|]; [by rewrite Heq, lookup_insert_eq in Ho|].
    by rewrite lookup_insert_ne in Ho.
Qed.

(** ** Steps *)

(** What one source adds to the draft: if every new conflict is resolved, a good item. *)
Definition adds (good : string -> FilePlanItem -> Prop) (overwrite : bool) (source : string) (d d' : draft) : Prop :=
  exists conflicts items, d'.1.2 = d.1.2 ++ conflicts /\ d'.1.1 = d.1.1 ++ items /\
    (Forall (resolved_by overwrite) conflicts -> exists item, items = [item] /\ good source item).

Lemma plan_sources_adds (good : string -> FilePlanItem -> Prop) (overwrite : bool)
    (step : string -> draft -> io (AppResult draft)) (f : fs) (sources : list string) (d : draft) :
  (forall source d, exists r, runs (step source d) f r f /\ forall d', r = Ok d' -> adds good overwrite source d d') ->
  exists r, runs (plan_sources step sources d) f r f /\
    forall d', r = Ok d' -> exists conflicts items, d'.1.2 = d.1.2 ++ conflicts /\ d'.1.1 = d.1.1 ++ items /\
      (Forall (resolved_by overwrite) conflicts -> Forall2 good sources items).
Proof.
  intros Hstep. revert d. induction sources as [|source sources IH]; intros d; simpl.
  { eexists. split; [apply runs_ret|]. intros d' [= <-]. exists [], []. by rewrite !app_nil_r. }
  destruct (Hstep source d) as ([d1|e] & Hrun & Hadds).
  2: { eexists. split; [eapply runs_bind; [exact Hrun|apply runs_ret]|done]. }
  destruct (IH d1) as (r & Hr & Hd). exists r. split; [eapply runs_bind; [exact Hrun|exact Hr]|].
  intros d' Hd'. destruct (Hadds d1 eq_refl) as (c1 & i1 & Hc1 & Hi1 & Hg1). destruct (Hd d' Hd') as (c2 & i2 & Hc2 & Hi2 & Hg2).
  exists (c1 ++ c2), (i1 ++ i2). rewrite Hc2, Hi2, Hc1, Hi1, !app_assoc. split_and!; [done..|].
  intros [H1 H2]%Forall_app. destruct (Hg1 H1) as (item & -> & Hg). simpl. constructor; auto.
Qed.

Lemma plan_sources_looks (step : string -> draft -> io (AppResult draft)) (sources : list string) (d : draft) (f0 : fs) :
  (forall source d, triple (fun f => f = f0) (step source d) (fun _ f => f = f0) (fun f => f = f0)) ->
  triple (fun f => f = f0) (plan_sources step sources d) (fun _ f => f = f0) (fun f => f = f0).
Proof.
  intros Hstep. revert d. induction sources as [|source sources IH]; intros d; simpl; [by apply triple_ret|].
  eapply triple_bind; [apply Hstep|]. intros [d1|e]; [apply IH|by apply triple_ret].
Qed.

(** A conflict that cannot be resolved leaves nothing to show. *)
Lemma adds_blocked (good : string -> FilePlanItem -> Prop) (overwrite : bool) (source : string) (d : draft)
    (items : list FilePlanItem) (c : FilePlanConflict) (before after : list FilePlanConflict) (flag : bool) :
  fc_overridable c = false ->
  adds good overwrite source d (d.1.1 ++ items, d.1.2 ++ before ++ [c] ++ after, flag).
Proof.
  intros Hc. exists (before ++ [c] ++ after), items. split_and!; [done..|].
  intros (_ & [Hr _]%Forall_app)%Forall_app. apply Forall_inv in Hr as [Hr _]. congruence.
Qed.

(** ** Sources of a download *)

Section Plans.
Context `{PhoneStat} (root : string) (request : PlanRequest) (overwrite : bool) (f : fs).

(** A destination that is free, of the right shape, or a file that may be overwritten. *)
Definition shape_fits (here : option bool) (is_directory : bool) : Prop :=
  match here with
  | None => True
  | Some true => is_directory = true
  | Some false => is_directory = false /\ pr_overwrite request = true /\ overwrite = true
  end.

Definition local_shape (p : path) : option bool :=
  match f !! components p with Some Dir => Some true | Some (File _) => Some false | None => None end.

(** Into an existing directory under the base name, or, for a single source, to the place itself. *)
Definition placed (into : bool) (joined destination given : string) : Prop :=
  if into then destination = joined else destination = given /\ (length (pr_sources request) <= 1)%nat.

Definition good_download (raw : string) (item : FilePlanItem) : Prop :=
  exists file base,
    phone_stat (resolve_remote_path root (resolve_remote_path root raw)) = Ok (Some file) /\
    pi_source item = resolve_remote_path root raw /\
    pi_is_directory item = rf_is_directory file /\
    pi_size item = (if rf_is_directory file then None else Some (rf_size file)) /\
    file_name (rf_path file) = Some base /\
    placed (bool_decide (local_shape (pr_destination request) = Some true)) (path_join (pr_destination request) base)
      (pi_destination item) (pr_destination request) /\
    shape_fits (local_shape (pi_destination item)) (pi_is_directory item).

Lemma runs_metadata (p : path) :
  runs (fs_metadata p) f (match f !! components p with
                          | Some (File c) => Ok (mkMetadata false (zlen c))
                          | Some Dir => Ok (mkMetadata true 0)
                          | None => Err err_not_found
                          end) f.
Proof. by apply runs_syscall. Qed.

Lemma runs_inspect (destination : path) (is_directory : bool) (conflicts : list FilePlanConflict) :
  exists new, runs (inspect_local_destination destination is_directory (pr_overwrite request) conflicts) f (conflicts ++ new) f /\
    (Forall (resolved_by overwrite) new -> shape_fits (local_shape destination) is_directory).
Proof.
  unfold inspect_local_destination, local_shape, shape_fits, md_is_file.
  pose proof (runs_metadata destination) as Hm.
  destruct (f !! components destination) as [[c|]|]; simpl in *.
  - destruct is_directory; simpl.
    + eexists. split; [eapply runs_bind; [exact Hm|apply runs_ret]|]. by intros [Ho _]%Forall_inv.
    + eexists. split; [eapply runs_bind; [exact Hm|apply runs_ret]|]. intros Hr. apply Forall_inv in Hr as [Ho Hk]. simpl in *. auto.
  - destruct is_directory; simpl.
    + exists []. rewrite app_nil_r. split; [eapply runs_bind; [exact Hm|apply runs_ret]|done].
    + eexists. split; [eapply runs_bind; [exact Hm|apply runs_ret]|]. by intros [Ho _]%Forall_inv.
  - exists []. split; [eapply runs_bind; [exact Hm|]; rewrite app_nil_r; apply runs_ret|done].
Qed.

Lemma runs_resolve (remote : FileEntryDto) (conflicts : list FilePlanConflict) :
  exists found new, runs (resolve_local_download_destination (pr_destination request) remote (length (pr_sources request)) conflicts)
      f (found, conflicts ++ new) f /\
    match found with
    | Some destination => new = [] /\ exists base, file_name (fd_path remote) = Some base /\
        placed (bool_decide (local_shape (pr_destination request) = Some true)) (path_join (pr_destination request) base)
          destination (pr_destination request)
    | None => exists c, new = [c] /\ fc_overridable c = false
    end.
Proof.
  unfold resolve_local_download_destination. rewrite usable_name_file_name. destruct (file_name (fd_path remote)) as [base|].
  2: { eexists None, _. split; [apply runs_ret|]. eauto. }
  pose proof (runs_metadata (pr_destination request)) as Hm. unfold local_shape, placed.
  destruct (f !! components (pr_destination request)) as [[c|]|]; simpl in *.
  all: destruct (1 <? length (pr_sources request))%nat eqn:El.
  3, 4: exists (Some (path_join (pr_destination request) base)), []; rewrite app_nil_r;
    (split; [eapply runs_bind; [exact Hm|]; cbv beta iota; rewrite ?El; apply runs_ret|]); (split; [done|]); by exists base.
  1, 3: eexists None, _; (split; [eapply runs_bind; [exact Hm|]; cbv beta iota; rewrite ?El; apply runs_ret|]); eauto.
  all: exists (Some (pr_destination request)), []; rewrite app_nil_r;
    (split; [eapply runs_bind; [exact Hm|]; cbv beta iota; rewrite ?El; apply runs_ret|]); (split; [done|]);
    exists base; split; [done|]; split; [done|]; apply Nat.ltb_ge in El; lia.
Qed.

Lemma recursive_required_adds (is_directory recursive : bool) (source destination m : string) (d : draft) :
  exists new flag, recursive_required is_directory recursive source destination m d = (d.1.1, d.1.2 ++ new, flag).
Proof.
  unfold recursive_required. destruct (_ && _); [by eexists [_], _|]. exists [], d.2. rewrite app_nil_r. by destruct d as [[? ?] ?].
Qed.

Lemma plan_download_source_adds (raw : string) (d : draft) :
  exists r, runs (plan_download_source root request raw d) f r f /\
    forall d', r = Ok d' -> adds good_download overwrite raw d d'.
Proof.
  unfold plan_download_source, stat_file. destruct (phone_stat _) as [[file|]|e] eqn:Es; simpl.
  2: { eexists. split; [apply runs_ret|]. intros d' [= <-].
       pose proof (adds_blocked good_download overwrite raw d [] (mkConflict SourceMissing (resolve_remote_path root raw)
         (pr_destination request) "remote source does not exist" false) [] [] d.2 eq_refl) as Hb.
       by rewrite app_nil_r in Hb. }
  2: { eexists. split; [apply runs_ret|done]. }
  destruct (recursive_required_adds (rf_is_directory file) (pr_recursive request) (resolve_remote_path root raw)
              (pr_destination request) "directory download requires recursive mode" d) as (new & flag & ->).
  destruct (runs_resolve (remote_file_to_dto file) (d.1.2 ++ new)) as (found & bad & Hres & Hfound).
  destruct found as [destination|].
  2: { destruct Hfound as (c & -> & Hc). eexists. split; [eapply runs_bind; [exact Hres|apply runs_ret]|].
       intros d' [= <-]. pose proof (adds_blocked good_download overwrite raw d [] c new [] flag Hc) as Hb.
       by rewrite !app_nil_r, app_assoc in Hb. }
  destruct Hfound as (-> & base & Hbase & Hplaced). rewrite app_nil_r in Hres.
  destruct (runs_inspect destination (rf_is_directory file) (d.1.2 ++ new)) as (ins & Hins & Hshape).
  eexists. split; [eapply runs_bind; [exact Hres|]; eapply runs_bind; [exact Hins|apply runs_ret]|].
  intros d' [= <-]. eexists (new ++ ins), [_]. cbn [fst snd]. rewrite app_assoc. split_and!; [done..|].
  intros [_ Hi]%Forall_app. eexists. split; [reflexivity|]. exists file, base. split_and!; try done. by apply Hshape.
Qed.

(** ** Sources of an upload *)

Definition remote_shape (o : option FileEntryDto) : option bool := fd_is_directory <$> o.

Definition good_upload (destination : string) (destination_stat : option FileEntryDto) (raw : string) (item : FilePlanItem) : Prop :=
  exists base existing,
    pi_source item = raw /\ file_name raw = Some base /\
    match f !! components raw with
    | Some (File c) => pi_is_directory item = false /\ pi_size item = Some (zlen c)
    | Some Dir => pi_is_directory item = true /\ pi_size item = None
    | None => False
    end /\
    placed (bool_decide (remote_shape destination_stat = Some true)) (destination +:+ String slash base)
      (pi_destination item) destination /\
    stat_optional root (pi_destination item) = Ok existing /\ shape_fits (remote_shape existing) (pi_is_directory item).

Lemma resolve_upload_spec (destination raw : string) (destination_stat : option FileEntryDto) (conflicts : list FilePlanConflict) :
  exists found new,
    resolve_remote_upload_destination destination raw (length (pr_sources request)) destination_stat conflicts =
      (found, conflicts ++ new) /\
    match found with
    | Some d => new = [] /\ exists base, file_name raw = Some base /\
        placed (bool_decide (remote_shape destination_stat = Some true)) (destination +:+ String slash base) d destination
    | None => exists c, new = [c] /\ fc_overridable c = false
    end.
Proof.
  unfold resolve_remote_upload_destination. rewrite usable_name_file_name. destruct (file_name raw) as [base|]; [|by eexists None, _; split; [reflexivity|eauto]].
  unfold placed. destruct destination_stat as [existing|]; simpl; [destruct (fd_is_directory existing); simpl|].
  all: destruct (1 <? length (pr_sources request))%nat eqn:El; simpl.
  1, 2: exists (Some (destination +:+ String slash base)), []; rewrite app_nil_r; split; [done|]; split; [done|]; by exists base.
  1, 3: by eexists None, _; split; [reflexivity|eauto].
  all: exists (Some destination), []; rewrite app_nil_r; split; [done|]; split; [done|]; exists base; split; [done|];
    split; [done|]; apply Nat.ltb_ge in El; lia.
Qed.

Lemma remote_conflict_spec (raw destination : string) (is_directory : bool) (existing : option FileEntryDto)
    (conflicts : list FilePlanConflict) :
  exists new,
    match existing with
    | Some e => append_remote_destination_conflict raw destination is_directory e (pr_overwrite request) conflicts
    | None => conflicts
    end = conflicts ++ new /\
    (Forall (resolved_by overwrite) new -> shape_fits (remote_shape existing) is_directory).
Proof.
  destruct existing as [e|]; [|exists []; by rewrite app_nil_r]. unfold append_remote_destination_conflict. simpl.
  destruct (fd_is_directory e) eqn:Ed, is_directory; simpl.
  - exists []. by rewrite app_nil_r.
  - eexists. split; [reflexivity|]. by intros [Ho _]%Forall_inv.
  - eexists. split; [reflexivity|]. by intros [Ho _]%Forall_inv.
  - eexists. split; [reflexivity|]. intros [Ho Hk]%Forall_inv. simpl in *. auto.
Qed.

Lemma plan_upload_found_adds (destination : string) (destination_stat : option FileEntryDto) (raw : string) (m : Metadata)
    (d d' : draft) :
  plan_upload_found root request destination destination_stat raw m d = Ok d' ->
  match f !! components raw with
  | Some (File c) => m = mkMetadata false (zlen c)
  | Some Dir => md_is_dir m = true
  | None => False
  end ->
  adds (good_upload destination destination_stat) overwrite raw d d'.
Proof.
  unfold plan_upload_found. intros Hd Hm.
  destruct (recursive_required_adds (md_is_dir m) (pr_recursive request) raw destination
              "directory upload requires recursive mode" d) as (new & flag & Hrec). rewrite Hrec in Hd.
  destruct (resolve_upload_spec destination raw destination_stat (d.1.2 ++ new)) as (found & bad & Hres & Hfound).
  rewrite Hres in Hd. destruct found as [place|].
  2: { destruct Hfound as (c & -> & Hc). injection Hd as <-.
       pose proof (adds_blocked (good_upload destination destination_stat) overwrite raw d [] c new [] flag Hc) as Hb.
       by rewrite !app_nil_r, app_assoc in Hb. }
  destruct Hfound as (-> & base & Hbase & Hplaced). rewrite app_nil_r in Hd.
  destruct (stat_optional root place) as [existing|e] eqn:Estat; [|done].
  destruct (remote_conflict_spec raw place (md_is_dir m) existing (d.1.2 ++ new)) as (ins & Hins & Hshape).
  cbv zeta in Hd. rewrite Hins in Hd. injection Hd as <-.
  eexists (new ++ ins), [_]. cbn [fst snd]. rewrite app_assoc. split_and!; [done..|].
  intros [_ Hi]%Forall_app. eexists. split; [reflexivity|]. exists base, existing. cbn [pi_source pi_is_directory pi_size pi_destination].
  split_and!; try done; [|by apply Hshape]. destruct (f !! components raw) as [[c|]|]; [by subst|by rewrite Hm|done].
Qed.

Lemma plan_upload_source_adds (destination : string) (destination_stat : option FileEntryDto) (raw : string) (d : draft) :
  exists r, runs (plan_upload_source root request destination destination_stat raw d) f r f /\
    forall d', r = Ok d' -> adds (good_upload destination destination_stat) overwrite raw d d'.
Proof.
  pose proof (runs_metadata raw) as Hm. eexists. split; [eapply runs_bind; [exact Hm|apply runs_ret]|].
  intros d' Hd. destruct (f !! components raw) as [[c|]|] eqn:Ef; cbv beta iota in Hd.
  1, 2: eapply plan_upload_found_adds; [exact Hd|by rewrite Ef].
  injection Hd as <-.
  pose proof (adds_blocked (good_upload destination destination_stat) overwrite raw d [] (mkConflict SourceMissing raw
    destination "local source does not exist" false) [] [] d.2 eq_refl) as Hb. by rewrite app_nil_r in Hb.
Qed.

End Plans.

(** ** Totals *)

Lemma count_split (items : list FilePlanItem) :
  zlen (filter (fun i => pi_is_directory i = false) items) + zlen (filter (fun i => pi_is_directory i = true) items) = zlen items.
Proof.
  induction items as [|i items IH]; [done|]. rewrite !filter_cons. destruct (pi_is_directory i) eqn:E; simpl in *;
    repeat case_decide; try congruence; simpl; lia.
Qed.

Lemma saturating_sum (sizes : list Z) (acc : Z) :
  Forall (fun n => 0 <= n) sizes -> 0 <= acc ->
  foldl saturating_add64 (Z.min acc (2 ^ 64 - 1)) sizes = Z.min (foldr Z.add acc sizes) (2 ^ 64 - 1).
Proof.
  revert acc. induction sizes as [|n sizes IH]; intros acc Hs Ha; [done|]. apply Forall_cons in Hs as [Hn Hs]. simpl.
  assert (saturating_add64 (Z.min acc (2 ^ 64 - 1)) n = Z.min (acc + n) (2 ^ 64 - 1)) as -> by (unfold saturating_add64; lia).
  rewrite IH by (try done; lia). f_equal. clear IH Hs. induction sizes as [|m sizes IH]; simpl; lia.
Qed.

(** What a finished plan reports about its items. *)
Definition totals_exact (plan : FileOperationPlan) : Prop :=
  fp_file_count plan + fp_directory_count plan = zlen (fp_items plan) /\
  (Forall (fun n => 0 <= n) (omap pi_size (fp_items plan)) ->
   fp_total_bytes plan = (if fp_file_count plan >? 0
                          then Some (Z.min (foldr Z.add 0 (omap pi_size (fp_items plan))) (2 ^ 64 - 1)) else None)).

Lemma finished_totals (direction : FilePlanDirection) (session_id : Z) (d : draft) : totals_exact (finished_plan direction session_id d).
Proof.
  split; [apply count_split|]. intros Hs. simpl in *. rewrite <- (saturating_sum _ 0) by done. done.
Qed.

(** ** Planning only looks *)

Section Looks.
Context `{PhoneStat} (f0 : fs).

Definition only_looks {A : Type} (m : io A) : Prop := triple (fun f => f = f0) m (fun _ f => f = f0) (fun f => f = f0).

Lemma only_looks_ret {A : Type} (x : A) : only_looks (mret x).
Proof. by apply triple_ret. Qed.

Lemma only_looks_bind {A B : Type} (m : io A) (k : A -> io B) : only_looks m -> (forall x, only_looks (k x)) -> only_looks (m ≫= k).
Proof. intros Hm Hk. eapply triple_bind; [exact Hm|exact Hk]. Qed.

Lemma only_looks_metadata (p : path) : only_looks (fs_metadata p).
Proof. apply (triple_look (fun f => f = f0)). done. Qed.

Lemma only_looks_sources (step : string -> draft -> io (AppResult draft)) (sources : list string) (d : draft) :
  (forall source d, only_looks (step source d)) -> only_looks (plan_sources step sources d).
Proof. apply plan_sources_looks. Qed.

Create HintDb looks.
#[local] Hint Resolve only_looks_ret only_looks_bind only_looks_metadata only_looks_sources : looks.

Lemma only_looks_download (session : AppResult string) (request : PlanRequest) : only_looks (plan_download session request).
Proof.
  unfold plan_download. destruct session as [root|e]; [|apply only_looks_ret]. apply only_looks_bind; [|auto with looks].
  apply only_looks_sources. intros source d. unfold plan_download_source.
  destruct (stat_file _ _) as [[remote|]|e]; [|auto with looks..].
  destruct (recursive_required _ _ _ _ _ _) as [[items conflicts] requires]. apply only_looks_bind.
  - unfold resolve_local_download_destination. destruct (usable_name _); [|auto with looks].
    apply only_looks_bind; [auto with looks|]. intros existing. repeat case_match; auto with looks.
  - intros [[destination|] bad]; [|auto with looks]. apply only_looks_bind; [|auto with looks].
    apply only_looks_bind; auto with looks.
Qed.

Lemma only_looks_upload (session : AppResult string) (request : PlanRequest) : only_looks (plan_upload session request).
Proof.
  unfold plan_upload. destruct session as [root|e]; [|apply only_looks_ret].
  destruct (stat_optional _ _); [|auto with looks]. apply only_looks_bind; [|auto with looks].
  apply only_looks_sources. intros source d. apply only_looks_bind; auto with looks.
Qed.

End Looks.

Lemma only_looks_unchanged {A : Type} (m : io A) (w : world) : only_looks (w_fs w) m -> w_fs (m w).2 = w_fs w.
Proof. intros Hm. specialize (Hm w eq_refl). by destruct (m w) as [[x|] w']. Qed.

(** ** The property *)

(** What a plan that may be executed guarantees: every source is an item, in order, that is
    [good], and no two items have the same destination. *)
Definition plan_sound (good : string -> FilePlanItem -> Prop) (sources : list string) (overwrite : bool)
    (plan : FileOperationPlan) : Prop :=
  totals_exact plan /\
  (is_executable_with plan overwrite = true ->
   Forall2 good sources (fp_items plan) /\ NoDup (pi_destination <$> fp_items plan)).

Lemma finished_sound (good : string -> FilePlanItem -> Prop) (sources : list string) (overwrite : bool)
    (direction : FilePlanDirection) (session_id : Z) (d : draft) :
  (exists conflicts items, d.1.2 = [] ++ conflicts /\ d.1.1 = [] ++ items /\
     (Forall (resolved_by overwrite) conflicts -> Forall2 good sources items)) ->
  plan_sound good sources overwrite (finished_plan direction session_id d).
Proof.
  intros (conflicts & items & Hc & Hi & Hg). split; [apply finished_totals|].
  intros [H1 H2%duplicate_conflicts_none]%is_executable_spec%Forall_app. simpl in *. rewrite Hc, Hi in *.
  split; [by apply Hg|apply H2].
Qed.

(** C40: a plan that may be executed with the given option can be carried out.  Every
    source is planned, in order, with its own destination: the place given or, in an
    existing directory, one plain name below it; several sources need such a directory.
    The source is there, as the file or directory the item says and of the size it says;
    the destination is free, or a directory for a directory, or a file that may be
    overwritten, and then only if overwriting was asked for both when planning and when
    executing.  The totals are those of the items.  Planning never changes the disk. *)
Theorem executable_plan_sound `{PhoneStat} (root : string) (request : PlanRequest) (overwrite : bool) :
  (forall w session, w_fs (plan_download session request w).2 = w_fs w /\ w_fs (plan_upload session request w).2 = w_fs w) /\
  (forall p base d, file_name p = Some base ->
     proper_segment base /\ components (path_join d base) = components d ++ [Normal base]) /\
  (forall f,
     (exists r, runs (plan_download (Ok root) request) f r f /\
        forall plan, r = Ok plan -> plan_sound (good_download root request overwrite f) (pr_sources request) overwrite plan) /\
     (exists r, runs (plan_upload (Ok root) request) f r f /\
        forall plan, r = Ok plan ->
          exists existing, let destination := resolve_remote_path root (pr_destination request) in
            stat_optional root destination = Ok existing /\
            plan_sound (good_upload root request overwrite f destination existing) (pr_sources request) overwrite plan)).
Proof.
  split_and!.
  - intros w session. split; apply only_looks_unchanged; [apply only_looks_download|apply only_looks_upload].
  - intros p base d Hb. apply file_name_proper in Hb as Hp. split; [done|]. destruct Hp as (H1 & H2 & H3 & H4).
    by apply components_file.
  - intros f. split.
    + destruct (plan_sources_adds (good_download root request overwrite f) overwrite (plan_download_source root request) f
        (pr_sources request) ([], [], false)) as (r & Hr & Hd); [intros; apply plan_download_source_adds|].
      eexists. split; [eapply runs_bind; [exact Hr|apply runs_ret]|].
      intros plan Hp. destruct r as [d|e]; [|done]. injection Hp as <-. apply finished_sound. by apply Hd.
    + unfold plan_upload. cbv zeta. destruct (stat_optional root _) as [existing|e] eqn:Es; [|eexists; split; [apply runs_ret|done]].
      destruct (plan_sources_adds (good_upload root request overwrite f (resolve_remote_path root (pr_destination request)) existing)
        overwrite (plan_upload_source root request (resolve_remote_path root (pr_destination request)) existing) f
        (pr_sources request) ([], [], false)) as (r & Hr & Hd); [intros; apply plan_upload_source_adds|].
      eexists. split; [eapply runs_bind; [exact Hr|apply runs_ret]|].
      intros plan Hp. exists existing. split; [done|]. destruct r as [d|e]; [|done]. injection Hp as <-.
      apply finished_sound. by apply Hd.
Qed.

Definition toy_phone : PhoneStat := fun p =>
  Ok (Some (mkRemoteFile p 5 None None false None None None None)).
Definition sample_plan_request : PlanRequest := mkPlanRequest 1 ["/s/a.jpg"; "b.jpg"] "/l" false false.
Definition sample_plan_disk : fs := {[components "/l" := Dir]}.

Lemma executable_plan_sound_witness :
  exists plan, runs (@plan_download toy_phone (Ok "/s") sample_plan_request) sample_plan_disk (Ok plan) sample_plan_disk /\
    pi_destination <$> fp_items plan = ["/l/a.jpg"; "/l/b.jpg"] /\
    NoDup (pi_destination <$> fp_items plan) /\ length (pr_sources sample_plan_request) = length (fp_items plan).
Proof.
  destruct (@executable_plan_sound toy_phone "/s" sample_plan_request false) as (_ & _ & Hp).
  destruct (Hp sample_plan_disk) as [(r & Hr & Hs) _].
  assert (exists plan, r = Ok plan /\ is_executable_with plan false = true /\ pi_destination <$> fp_items plan = ["/l/a.jpg"; "/l/b.jpg"])
    as (plan & -> & He & Hd).
  { destruct (Hr []) as [rs' E]. vm_compute in E. injection E as <- _. eexists. split; [reflexivity|]. by vm_compute. }
  exists plan. destruct (Hs plan eq_refl) as [_ [Hf Hn]]; [done|]. split_and!; [done..|]. by eapply Forall2_length.
Defined.
