(* ===== verification/Usb.v ===== *)
(** * USB transport

    core/transport/usb.rs: finding the phone on the bus, switching it into accessory mode,
    and the byte stream over its two bulk endpoints.  libusb is what its calls answer: a
    device is the data read from it ([BusDevice]), a call is an answer given in advance
    ([UsbWorld]), a bulk transfer is an event of the stream. *)

From Stdlib Require Import Strings.String.
From S2P Require Import Prelude Errors.

Definition ACCESSORY_VID : Z := 0x18d1.
Definition ACCESSORY_PIDS : list Z := [0x2d00; 0x2d01; 0x2d02; 0x2d03].
Definition SMARTISAN_VID : Z := 0x29a9.
Definition ACC_GET_PROTOCOL : Z := 0x33.
Definition ACC_SEND_STRING : Z := 0x34.
Definition ACC_START : Z := 0x35.
Definition ACC_MANUFACTURER : string := "Smartisan".
Definition ACC_MODEL : string := "HandShaker".
Definition ACC_DESCRIPTION : string := "HandShaker".
Definition ACC_VERSION : string := "1.0".
Definition ACCESSORY_IFACE_CLASS : Z := 0xff.
Definition ACCESSORY_IFACE_SUBCLASS : Z := 0xff.

(** [rusb::Error]: the values the code tells apart, the rest by their number. *)
Inductive UsbError :=
  | NoDevice | NotFound | Busy | Pipe
  | TimedOut | OtherUsb (code : Z).

(** The text rusb gives an error. *)
Class UsbText := usb_text : UsbError -> string.

Definition usb_error `{UsbText} (e : UsbError) : Error :=
  match e with
  | NoDevice | NotFound => ETransport (Msg "usb.device_gone" [])
  | Busy => ETransport (Msg "usb.busy" [])
  | Pipe => ETransport (Msg "usb.pipe_error" [])
  | _ => ETransport (Msg "usb.transfer_failed" [usb_text e])
  end.

(** ** The bus *)

Record BusDevice := mkBusDevice {
  bd_descriptor : result UsbError (Z * Z);
  bd_bus : Z;
  bd_ports : result UsbError (list Z);
  bd_serial : option string
}.

Inductive AccessoryMode := Accessory | Plain.

Record UsbAccessory := mkUsbAccessory {
  ua_location : string;
  ua_bus_number : Z;
  ua_serial : option string;
  ua_vendor_id : Z;
  ua_product_id : Z;
  ua_mode : AccessoryMode
}.

#[export] Instance UsbError_eq_dec : EqDecision UsbError.
Proof. solve_decision. Defined.
#[export] Instance AccessoryMode_eq_dec : EqDecision AccessoryMode.
Proof. solve_decision. Defined.
#[export] Instance UsbAccessory_eq_dec : EqDecision UsbAccessory.
Proof. solve_decision. Defined.

(** The location every enumeration formats the same way. *)
Definition device_location (d : BusDevice) : string :=
  let ports := match bd_ports d with Ok ports => ports | Err _ => [] end in
  pretty (bd_bus d) +:+ "-" +:+ String.concat "-" (map pretty ports).

Definition in_accessory_mode (vid pid : Z) : bool :=
  (vid =? ACCESSORY_VID) && bool_decide (pid ∈ ACCESSORY_PIDS).

Definition list_accessory (d : BusDevice) : option UsbAccessory :=
  match bd_descriptor d with
  | Err _ => None
  | Ok (vid, pid) =>
      if negb (in_accessory_mode vid pid || (vid =? SMARTISAN_VID)) then None else
      let mode := if vid =? ACCESSORY_VID then Accessory else Plain in
      let serial := match bd_serial d with Some "" => None | s => s end in
      Some (mkUsbAccessory (device_location d) (bd_bus d) serial vid pid mode)
  end.

Definition list_accessories `{UsbText} (devices : result UsbError (list BusDevice)) : Res (list UsbAccessory) :=
  match devices with
  | Err e => Err (ELocalIo (Msg "usb.enumerate_failed" [usb_text e]))
  | Ok devices => Ok (omap list_accessory devices)
  end.

(** ** Endpoints *)

Inductive Direction := In | Out.

#[export] Instance Direction_eq_dec : EqDecision Direction.
Proof. solve_decision. Defined.

Record Endpoint := mkEndpoint { ep_bulk : bool; ep_direction : Direction; ep_address : Z }.
Record AltSetting := mkAltSetting { alt_class : Z; alt_subclass : Z; alt_endpoints : list Endpoint }.
Record Interface := mkInterface { if_number : Z; if_descriptors : list AltSetting }.

(** [bulk_in], [bulk_out] and [extra_in] of the loop over the endpoints. *)
Definition note_endpoint (st : option Z * option Z * bool) (e : Endpoint) : option Z * option Z * bool :=
  let '(bulk_in, bulk_out, extra_in) := st in
  if negb (ep_bulk e) then st else
  match ep_direction e, bulk_in, bulk_out with
  | In, Some _, _ => (bulk_in, bulk_out, true)
  | In, None, _ => (Some (ep_address e), bulk_out, extra_in)
  | Out, _, None => (bulk_in, Some (ep_address e), extra_in)
  | Out, _, Some _ => st
  end.

(** The loops over interfaces and alternate settings, flattened: an early return is [inl]. *)
Fixpoint find_endpoints (alts : list (Z * AltSetting)) (candidates : list (Z * Z * Z))
  : (Z * Z * Z) + list (Z * Z * Z) :=
  match alts with
  | [] => inr candidates
  | (number, alt) :: alts =>
      if negb ((alt_class alt =? ACCESSORY_IFACE_CLASS) && (alt_subclass alt =? ACCESSORY_IFACE_SUBCLASS))
      then find_endpoints alts candidates else
      match fold_left note_endpoint (alt_endpoints alt) (None, None, false) with
      | (Some bulk_in, Some bulk_out, extra_in) =>
          if negb extra_in then inl (number, bulk_in, bulk_out)
          else find_endpoints alts (candidates ++ [(number, bulk_in, bulk_out)])
      | _ => find_endpoints alts candidates
      end
  end.

Definition alternates (config : list Interface) : list (Z * AltSetting) :=
  flat_map (fun i => map (pair (if_number i)) (if_descriptors i)) config.

Definition accessory_endpoints `{UsbText} (config : result UsbError (list Interface)) : Res (Z * Z * Z) :=
  match config with
  | Err e => Err (ELocalIo (Msg "usb.config_failed" [usb_text e]))
  | Ok interfaces =>
      match find_endpoints (alternates interfaces) [] with
      | inl found => Ok found
      | inr (first :: _) => Ok first
      | inr [] => Err (ELocalIo (Msg "usb.no_bulk_endpoints" []))
      end
  end.

(** ** Connecting *)

Record ControlTransfer := mkControl { ct_request : Z; ct_index : Z; ct_data : string }.

(** The control transfers attempted, each with its answer; no answer left is a transfer that
    goes through. *)
Fixpoint send_strings `{UsbText} (strings : list (Z * string)) (answers : list (option UsbError))
  : Res (list (option UsbError)) * list ControlTransfer :=
  match strings with
  | [] => (Ok answers, [])
  | (index, value) :: strings =>
      let sent := mkControl ACC_SEND_STRING index value in
      match default None (head answers) with
      | Some e => (Err (ELocalIo (Msg "usb.aoa_string_failed" [usb_text e])), [sent])
      | None => let '(r, more) := send_strings strings (tail answers) in (r, sent :: more)
      end
  end.

Definition send_accessory_identification `{UsbText} (host_uuid : string) (answers : list (option UsbError))
  : Res () * list ControlTransfer :=
  let strings := [(0, ACC_MANUFACTURER); (1, ACC_MODEL); (2, ACC_DESCRIPTION); (3, ACC_VERSION); (4, host_uuid)] in
  let '(r, sent) := send_strings strings answers in
  let sent := mkControl ACC_GET_PROTOCOL 0 "" :: sent in
  match r with
  | Err e => (Err e, sent)
  | Ok answers =>
      (match default None (head answers) with
       | Some e => Err (ELocalIo (Msg "usb.aoa_start_failed" [usb_text e]))
       | None => Ok ()
       end, sent ++ [mkControl ACC_START 0 ""])
  end.

(** One look at the bus per 200 milliseconds, the looks given; the deadline is their end. *)
Fixpoint wait_for_accessory (location : string) (looks : list (result UsbError (list BusDevice))) : Res BusDevice :=
  match looks with
  | [] => Err (ELocalIo (Msg "usb.aoa_switch_failed" [location]))
  | look :: looks =>
      let here d := match bd_descriptor d with
                    | Ok (vid, pid) => in_accessory_mode vid pid && bool_decide (device_location d = location)
                    | Err _ => false
                    end in
      match look with
      | Ok devices =>
          match List.find here devices with
          | Some d => Ok d
          | None => wait_for_accessory location looks
          end
      | Err _ => wait_for_accessory location looks
      end
  end.

Definition find_device `{UsbText} (location : string) (devices : result UsbError (list BusDevice)) : Res BusDevice :=
  match devices with
  | Err e => Err (ELocalIo (Msg "usb.enumerate_failed" [usb_text e]))
  | Ok devices =>
      match List.find (fun d => bool_decide (device_location d = location)) devices with
      | Some d => Ok d
      | None => Err (ELocalIo (Msg "usb.device_not_found" [location]))
      end
  end.

Definition select_accessory (location : option string) (accessories : list UsbAccessory) : Res UsbAccessory :=
  match location with
  | Some location =>
      ok_or (List.find (fun a => bool_decide (ua_location a = location)) accessories)
        (ELocalIo (Msg "usb.device_not_found" [location]))
  | None =>
      match accessories with
      | [accessory] => Ok accessory
      | _ => Err (ELocalIo (Msg "usb.ambiguous_devices" [pretty (zlen accessories)]))
      end
  end.

(** What the calls of one connection attempt answer. *)
Record UsbWorld := mkUsbWorld {
  uw_list : result UsbError (list BusDevice);
  uw_find : result UsbError (list BusDevice);
  uw_open_plain : option UsbError;
  uw_control : list (option UsbError);
  uw_looks : list (result UsbError (list BusDevice));
  uw_open : option UsbError;
  uw_config : BusDevice -> result UsbError (list Interface);
  uw_claim : option UsbError
}.

Definition opened `{UsbText} (location : string) (answer : option UsbError) : Res () :=
  match answer with
  | Some e => Err (ELocalIo (Msg "usb.open_failed" [location; usb_text e]))
  | None => Ok ()
  end.

(** The switch of a plain device, and the device to go on with. *)
Definition switch_to_accessory `{UsbText} (w : UsbWorld) (host_uuid : string) (selected : UsbAccessory) (device : BusDevice)
  : Res BusDevice * list ControlTransfer :=
  if bool_decide (ua_mode selected = Plain) then
    match opened (ua_location selected) (uw_open_plain w) with
    | Err e => (Err e, [])
    | Ok _ =>
        let '(r, sent) := send_accessory_identification host_uuid (uw_control w) in
        (match r with
         | Err e => Err e
         | Ok _ => wait_for_accessory (ua_location selected) (uw_looks w)
         end, sent)
    end
  else (Ok device, []).

(** [UsbConnector::connect] up to the stream: the label, the interface and endpoints, and the
    control transfers on the way. *)
Definition usb_connect `{UsbText} (w : UsbWorld) (location : option string) (host_uuid : string)
  : Res (string * (Z * Z * Z)) * list ControlTransfer :=
  match list_accessories (uw_list w) with
  | Err e => (Err e, [])
  | Ok accessories =>
      match select_accessory location accessories with
      | Err e => (Err e, [])
      | Ok selected =>
          let selected_location := ua_location selected in
          match find_device selected_location (uw_find w) with
          | Err e => (Err e, [])
          | Ok device =>
              let '(device, sent) := switch_to_accessory w host_uuid selected device in
              (match device with
               | Err e => Err e
               | Ok device =>
                   match opened selected_location (uw_open w) with
                   | Err e => Err e
                   | Ok _ =>
                       match accessory_endpoints (uw_config w device) with
                       | Err e => Err e
                       | Ok endpoints =>
                           match uw_claim w with
                           | Some e => Err (ELocalIo (Msg "usb.claim_failed" [selected_location; usb_text e]))
                           | None => Ok (default selected_location (ua_serial selected), endpoints)
                           end
                       end
                   end
               end, sent)
          end
      end
  end.

(** ** The byte stream

    [UsbStream]: the reader thread and its bounded channel, the reads that drain it, and the writes
    with one transfer in flight.  A step is one iteration of the thread, one poll, or one write
    transfer that ends. *)

(** The capacity given to [mpsc::channel]. *)
Definition CHANNEL_CAPACITY : nat := 128.

(** [io::Error::other] of an error's text. *)
Inductive StreamError :=
  | Other (shown : Error)
  | WriteTaskDropped.

Inductive Poll (A : Type) :=
  | Ready (a : A)
  | Pending.
Arguments Ready {A} _.
Arguments Pending {A}.

Abbreviation io_result A := (result StreamError A).

(** A message of the channel: a chunk, or the error that ends the stream. *)
Abbreviation chunk_result := (io_result (list byte)).

(** ** Reading *)

Record UsbReader := mkUsbReader {
  ur_queue : list chunk_result;      (* the channel, oldest first *)
  ur_open : bool;                    (* the receiver has not been dropped *)
  ur_running : bool;                 (* the reader thread is in its loop and holds the sender *)
  ur_pending : list byte             (* pending_read *)
}.

Definition usb_reader_new : UsbReader := mkUsbReader [] true true [].

(** All permits of the channel are taken. *)
Definition full (s : UsbReader) : bool := (CHANNEL_CAPACITY <=? length (ur_queue s))%nat.
#[global] Arguments full : simpl never.

Inductive TrySend := Sent (s : UsbReader) | Full | Closed.

Definition try_send (s : UsbReader) (m : chunk_result) : TrySend :=
  if negb (ur_open s) then Closed
  else if full s then Full
  else Sent (mkUsbReader (ur_queue s ++ [m]) (ur_open s) (ur_running s) (ur_pending s)).

Definition stop_reading (s : UsbReader) : UsbReader := mkUsbReader (ur_queue s) (ur_open s) false (ur_pending s).

(** [let _ = tx.try_send(..)] *)
Definition send_quietly (s : UsbReader) (m : chunk_result) : UsbReader :=
  match try_send s m with Sent s' => s' | Full | Closed => s end.

(** One iteration of the reader thread: [read] is what [read_bulk] answers.  The thread that
    has left its loop reads no more. *)
Definition usb_reader_step `{UsbText} (s : UsbReader) (read : result UsbError (list byte)) : UsbReader :=
  if negb (ur_running s) then s else
  match read with
  | Ok [] => stop_reading (send_quietly s (Ok []))
  | Ok bytes =>
      match try_send s (Ok bytes) with
      | Sent s' => s'
      | Full => s
      | Closed => stop_reading s
      end
  | Err TimedOut => if negb (ur_open s) then stop_reading s else s
  | Err e => stop_reading (send_quietly s (Err (Other (usb_error e))))
  end.

(** The bytes put into a buffer with [room] left, and the new pending bytes. *)
Definition fill_buffer (room : nat) (pending incoming : list byte) : list byte * list byte :=
  match pending with
  | _ :: _ => (take room pending, drop room pending)
  | [] =>
      let n := Nat.min (length incoming) room in
      (take n incoming, if (n <? length incoming)%nat then drop n incoming else [])
  end.

Definition with_pending (s : UsbReader) (pending : list byte) : UsbReader :=
  mkUsbReader (ur_queue s) (ur_open s) (ur_running s) pending.

Definition poll_read (s : UsbReader) (room : nat) : Poll (io_result (list byte)) * UsbReader :=
  match ur_pending s with
  | _ :: _ =>
      let '(out, pending) := fill_buffer room (ur_pending s) [] in
      (Ready (Ok out), with_pending s pending)
  | [] =>
      match ur_queue s with
      | m :: queue =>
          let s := mkUsbReader queue (ur_open s) (ur_running s) (ur_pending s) in
          match m with
          | Ok chunk =>
              let '(out, pending) := fill_buffer room (ur_pending s) chunk in
              (Ready (Ok out), with_pending s pending)
          | Err e => (Ready (Err e), s)
          end
      | [] => (if ur_running s then Pending else Ready (Ok []), s)
      end
  end.

(** Dropping the stream drops the receiver with what it holds. *)
Definition drop_reader (s : UsbReader) : UsbReader := mkUsbReader [] false (ur_running s) [].

(** ** Writing

    The transfer in flight: the data given to [write_bulk], and the answer once the oneshot
    holds it ([None] inside when its task died without one). *)
Record UsbWriter := mkUsbWriter {
  uwr_pending : option (list byte * option (option (io_result nat)));
  uwr_started : list (list byte)     (* the data of every transfer started, oldest first *)
}.

Definition usb_writer_new : UsbWriter := mkUsbWriter None [].

(** The task of the transfer in flight ends. *)
Definition write_ends `{UsbText} (s : UsbWriter) (answer : option (result UsbError nat)) : UsbWriter :=
  match uwr_pending s with
  | Some (data, None) =>
      let answer := match answer with
                    | Some (Ok n) => Some (Ok n)
                    | Some (Err e) => Some (Err (Other (usb_error e)))
                    | None => None
                    end in
      mkUsbWriter (Some (data, Some answer)) (uwr_started s)
  | _ => s
  end.

(** Polling the receiver of the transfer in flight. *)
Definition poll_receiver (s : UsbWriter) (answer : option (option (io_result nat))) : Poll (io_result nat) * UsbWriter :=
  match answer with
  | None => (Pending, s)
  | Some (Some r) => (Ready r, mkUsbWriter None (uwr_started s))
  | Some None => (Ready (Err WriteTaskDropped), mkUsbWriter None (uwr_started s))
  end.

Definition poll_write (s : UsbWriter) (buffer : list byte) : Poll (io_result nat) * UsbWriter :=
  let s := match uwr_pending s with
           | None => mkUsbWriter (Some (buffer, None)) (uwr_started s ++ [buffer])
           | Some _ => s
           end in
  match uwr_pending s with
  | Some (_, answer) => poll_receiver s answer
  | None => (Pending, s)
  end.

Definition poll_flush (s : UsbWriter) : Poll (io_result ()) * UsbWriter :=
  match uwr_pending s with
  | Some (_, answer) =>
      match poll_receiver s answer with
      | (Ready (Ok _), s) => (Ready (Ok ()), s)
      | (Ready (Err e), s) => (Ready (Err e), s)
      | (Pending, s) => (Pending, s)
      end
  | None => (Ready (Ok ()), s)
  end.

Definition poll_shutdown (s : UsbWriter) : Poll (io_result ()) * UsbWriter := (Ready (Ok ()), s).
