(* ===== verification/UsbProps.v ===== *)
(** * Properties of the USB stream

    What reaches the caller of the stream of Usb.v: the bytes read from the endpoint less
    the chunks the full channel drops, in order and to the end; and what its writes put on the
    other endpoint. *)

From S2P Require Import Prelude Errors Usb.

(** ** Schedules of the reading side *)

Inductive ReadEvent :=
  | ReadBulk (answer : result UsbError (list byte))   (* an iteration of the thread *)
  | PollRead (room : nat).                            (* a poll of the caller *)

(** The stream, the bytes its caller got, and every chunk read with whether it was kept. *)
Record ReadTrace := mkReadTrace {
  rt_reader : UsbReader;
  rt_out : list byte;
  rt_log : list (bool * list byte)
}.

(** The chunk an iteration reads: the thread still runs and the answer has bytes. *)
Definition chunk_read (s : UsbReader) (answer : result UsbError (list byte)) : option (list byte) :=
  match answer with
  | Ok (b :: bytes) => if ur_running s then Some (b :: bytes) else None
  | _ => None
  end.

Definition read_event `{UsbText} (t : ReadTrace) (e : ReadEvent) : ReadTrace :=
  let s := rt_reader t in
  match e with
  | ReadBulk answer =>
      mkReadTrace (usb_reader_step s answer) (rt_out t)
        (rt_log t ++ match chunk_read s answer with Some c => [(negb (full s), c)] | None => [] end)
  | PollRead room =>
      let '(r, s') := poll_read s room in
      mkReadTrace s' (rt_out t ++ match r with Ready (Ok bytes) => bytes | _ => [] end) (rt_log t)
  end.

Definition read_schedule `{UsbText} (evs : list ReadEvent) : ReadTrace :=
  fold_left read_event evs (mkReadTrace usb_reader_new [] []).

(** The last read of the thread: the end of the stream or an error that is no timeout. *)
Definition ends_reading (answer : result UsbError (list byte)) : bool :=
  match answer with Ok [] => true | Ok _ => false | Err TimedOut => false | Err _ => true end.

(** What the endpoint gave, in order, up to the read that ends the thread. *)
Fixpoint chunks_received (evs : list ReadEvent) : list (list byte) :=
  match evs with
  | [] => []
  | PollRead _ :: evs => chunks_received evs
  | ReadBulk answer :: evs =>
      if ends_reading answer then []
      else match answer with Ok c => c :: chunks_received evs | Err _ => chunks_received evs end
  end.

Definition kept (log : list (bool * list byte)) : list (list byte) := (filter (fun e => e.1 = true) log).*2.

(** The bytes the stream holds: pending, then queued. *)
Definition chunk_bytes (m : chunk_result) : list byte := match m with Ok bytes => bytes | Err _ => [] end.
Definition held (s : UsbReader) : list byte := ur_pending s ++ concat (map chunk_bytes (ur_queue s)).

(** Polling with [room] bytes until a poll gives no bytes: what it gave, and that answer. *)
Fixpoint drain (fuel room : nat) (s : UsbReader) : list byte * option (Poll (io_result (list byte))) :=
  match fuel with
  | O => ([], None)
  | S fuel =>
      match poll_read s room with
      | (Ready (Ok (b :: bytes)), s) => let '(out, r) := drain fuel room s in (b :: bytes ++ out, r)
      | (r, _) => ([], Some r)
      end
  end.

(** ** The channel holds chunks, then at most the end of the stream *)

Definition stream_end (m : chunk_result) : Prop := match m with Ok bytes => bytes = [] | Err _ => True end.

Record stream_ok (s : UsbReader) (chunks : list (list byte)) (tail : list chunk_result) : Prop := {
  so_queue : ur_queue s = map Ok chunks ++ tail;
  so_chunks : Forall (fun c => c <> []) chunks;
  so_tail : tail = [] \/ exists m, tail = [m] /\ stream_end m /\ ur_running s = false;
  so_open : ur_open s = true
}.

(** The answer after the last byte. *)
Definition final_answer (s : UsbReader) (tail : list chunk_result) : Poll (io_result (list byte)) :=
  match tail with
  | Err e :: _ => Ready (Err e)
  | Ok _ :: _ => Ready (Ok [])
  | [] => if ur_running s then Pending else Ready (Ok [])
  end.

Section Reading.
Context `{Hut : UsbText}.

Lemma held_ok (s : UsbReader) (chunks : list (list byte)) (tail : list chunk_result) :
  stream_ok s chunks tail -> held s = ur_pending s ++ concat chunks.
Proof.
  intros [Hq _ Ht _]. unfold held. rewrite Hq, map_app, concat_app. f_equal.
  assert (concat (map chunk_bytes tail) = []) as ->.
  { destruct Ht as [-> | ([[|b m]|e] & -> & Hm & _)]; done. }
  rewrite app_nil_r. f_equal. rewrite map_map. apply map_id.
Qed.

Lemma running_tail (s : UsbReader) (chunks : list (list byte)) (tail : list chunk_result) :
  stream_ok s chunks tail -> ur_running s = true -> tail = [].
Proof. intros [_ _ [-> | (m & _ & _ & Hr)] _] H; [done|congruence]. Qed.

(** A read that is kept goes to the end of the queue, any other leaves it. *)
Lemma usb_reader_step_ok (s : UsbReader) (chunks : list (list byte)) (tail : list chunk_result)
    (answer : result UsbError (list byte)) :
  stream_ok s chunks tail ->
  ur_running (usb_reader_step s answer) = ur_running s && negb (ends_reading answer) /\
  ur_pending (usb_reader_step s answer) = ur_pending s /\
  exists tail', stream_ok (usb_reader_step s answer)
    (chunks ++ match chunk_read s answer with Some c => if full s then [] else [c] | None => [] end) tail'.
Proof.
  intros Hok. pose proof Hok as [Hq Hc Ht Ho]. unfold usb_reader_step, chunk_read.
  destruct (ur_running s) eqn:Hr; simpl.
  2: { split; [done|]. split; [done|]. exists tail. destruct answer as [[|b bs]|e]; rewrite app_nil_r; done. }
  rewrite (running_tail _ _ _ Hok Hr), app_nil_r in Hq.
  assert (forall m, stream_end m ->
    ur_running (stop_reading (send_quietly s m)) = false /\ ur_pending (stop_reading (send_quietly s m)) = ur_pending s /\
    exists tail', stream_ok (stop_reading (send_quietly s m)) (chunks ++ []) tail') as Hend.
  { intros m Hm. unfold send_quietly, try_send. rewrite Ho. simpl. rewrite app_nil_r.
    destruct (full s); simpl.
    - split; [done|]. split; [done|]. exists []. split; simpl; [by rewrite app_nil_r|done|by left|done].
    - split; [done|]. split; [done|]. exists [m]. split; simpl; [by rewrite Hq|done|eauto|done]. }
  destruct answer as [[|b bs]|e]; [by apply Hend| |].
  - unfold try_send. rewrite Ho. simpl. destruct (full s); simpl.
    + split; [by rewrite Hr|]. split; [done|]. exists []. rewrite !app_nil_r.
      split; [by rewrite app_nil_r|done|by left|done].
    + split; [by rewrite Hr|]. split; [done|]. exists []. split; simpl; [|apply Forall_app_2; [done|by apply Forall_singleton]|by left|done].
      by rewrite Hq, app_nil_r, map_app.
  - destruct e; simpl; try (by apply Hend).
    rewrite Ho. simpl. split; [by rewrite Hr|]. split; [done|]. exists []. rewrite app_nil_r.
    split; [by rewrite app_nil_r|done|by left|done].
Qed.

Lemma fill_buffer_spec (room : nat) (pending incoming : list byte) :
  pending = [] \/ incoming = [] ->
  exists out rest, fill_buffer room pending incoming = (out, rest) /\ out ++ rest = pending ++ incoming /\
    (length out <= room)%nat /\ (pending ++ incoming <> [] -> (0 < room)%nat -> out <> []).
Proof.
  unfold fill_buffer. destruct pending as [|p ps]; [intros _|intros [[=]| ->]].
  - set (n := Nat.min (length incoming) room). do 2 eexists. split; [done|]. split; [|split; [rewrite length_take; lia|]].
    + destruct (n <? length incoming)%nat eqn:E; [apply take_drop|]. apply Nat.ltb_ge in E.
      rewrite app_nil_r. by apply take_ge.
    + intros Hi Hroom. destruct incoming as [|i inc]; [done|]. subst n. by destruct room; [lia|].
  - do 2 eexists. split; [done|]. rewrite app_nil_r. split; [apply take_drop|]. split; [rewrite length_take; lia|].
    intros _ Hroom. by destruct room; [lia|].
Qed.

(** A poll gives the next bytes held, at least one if there is room for one, and the final
    answer when nothing is held. *)
Definition poll_gives (s : UsbReader) (tail : list chunk_result) (room : nat)
    (p : Poll (io_result (list byte)) * UsbReader) : Prop :=
  let bytes := match p.1 with Ready (Ok bytes) => bytes | _ => [] end in
  ur_running p.2 = ur_running s /\
  (exists chunks' tail', stream_ok p.2 chunks' tail' /\ (held s <> [] -> tail' = tail)) /\
  bytes ++ held p.2 = held s /\ (length bytes <= room)%nat /\
  (held s <> [] -> (0 < room)%nat -> bytes <> []) /\
  (held s = [] -> p.1 = final_answer s tail).

Lemma gives_bytes (s base : UsbReader) (chunks : list (list byte)) (tail : list chunk_result) (room : nat)
    (out rest : list byte) :
  stream_ok (with_pending base rest) chunks tail -> ur_running base = ur_running s ->
  held s = out ++ rest ++ concat chunks -> held s <> [] -> (length out <= room)%nat ->
  ((0 < room)%nat -> out <> []) ->
  poll_gives s tail room (Ready (Ok out), with_pending base rest).
Proof.
  intros Hok Hrun Hheld Hne Hlen Hout. unfold poll_gives. cbn [fst snd].
  split; [done|]. split; [by exists chunks, tail|]. split; [by rewrite (held_ok _ _ _ Hok)|].
  split; [done|]. split; [intros _; exact Hout|done].
Qed.

Lemma poll_read_ok (s : UsbReader) (chunks : list (list byte)) (tail : list chunk_result) (room : nat) :
  stream_ok s chunks tail -> poll_gives s tail room (poll_read s room).
Proof.
  intros Hok. pose proof Hok as [Hq Hc Ht Ho]. pose proof (held_ok _ _ _ Hok) as Hh. unfold poll_read.
  destruct (ur_pending s) as [|p ps] eqn:Hp; [destruct chunks as [|c chunks]|].
  - unfold poll_gives. rewrite Hh. destruct Ht as [-> | (m & -> & Hm & Hr)]; simpl in Hq; rewrite Hq; simpl.
    + split; [done|]. split; [by exists [], []|]. rewrite Hh.
      split; [by destruct (ur_running s)|]. split; [destruct (ur_running s); simpl; lia|]. by split.
    + destruct m as [bytes|e]; simpl in Hm; [subst bytes|]; simpl; rewrite ?Hp.
      all: split; [done|]; split; [exists [], []; split; [split; simpl; auto|done]|].
      all: split; [done|]; split; [simpl; lia|]; by split.
  - simpl in Hq, Hh. rewrite Hq. inversion Hc as [|? ? Hcn Hcs]; subst. cbn [ur_pending].
    destruct (fill_buffer_spec room [] c (or_introl eq_refl)) as (out & rest & -> & Hout & Hlen & Hsome).
    simpl in Hout. apply (gives_bytes s (mkUsbReader _ _ _ _) chunks); [by split|done| | |done|].
    + by rewrite Hh, app_assoc, Hout.
    + rewrite Hh. by destruct c.
    + by apply Hsome.
  - destruct (fill_buffer_spec room (p :: ps) [] (or_intror eq_refl)) as (out & rest & -> & Hout & Hlen & Hsome).
    rewrite app_nil_r in Hout. apply (gives_bytes s s chunks); [by split|done| | |done|].
    + by rewrite Hh, app_assoc, Hout.
    + by rewrite Hh.
    + by apply Hsome.
Qed.

(** Polling on gives everything held, then the final answer. *)
Lemma drain_ok (fuel room : nat) (s : UsbReader) (chunks : list (list byte)) (tail : list chunk_result) :
  (0 < room)%nat -> stream_ok s chunks tail -> (length (held s) < fuel)%nat ->
  drain fuel room s = (held s, Some (final_answer s tail)).
Proof.
  intros Hroom. revert s chunks. induction fuel as [|fuel IH]; intros s chunks Hok Hf; [lia|].
  pose proof (poll_read_ok _ _ _ room Hok) as Hgives. unfold poll_gives in Hgives.
  cbn [drain]. destruct (poll_read s room) as [r s']. cbn [fst snd] in Hgives.
  destruct Hgives as (Hrun & (chunks' & tail' & Hok' & Htail) & Hbytes & _ & Hmore & Hlast).
  destruct (decide (held s = [])) as [Hh|Hh].
  - rewrite (Hlast Hh), Hh. unfold final_answer.
    destruct tail as [|[m|e] tail]; [destruct (ur_running s)|..]; done.
  - rewrite (Htail Hh) in Hok'. specialize (Hmore Hh Hroom).
    destruct r as [[[|b bytes]|e]|]; [done| |done..].
    rewrite <- Hbytes in Hf |- *. cbn [length app] in Hf |- *. rewrite length_app in Hf.
    rewrite (IH _ _ Hok') by lia. unfold final_answer. by rewrite Hrun.
Qed.

(** ** Schedules *)

Definition thread_ended (evs : list ReadEvent) : bool :=
  existsb (fun e => match e with ReadBulk answer => ends_reading answer | PollRead _ => false end) evs.

Definition event_chunk (e : ReadEvent) : list (list byte) :=
  match e with ReadBulk (Ok (b :: bytes)) => [b :: bytes] | _ => [] end.

Lemma chunks_received_snoc (evs : list ReadEvent) (e : ReadEvent) :
  chunks_received (evs ++ [e]) = chunks_received evs ++ if thread_ended evs then [] else event_chunk e.
Proof.
  induction evs as [|e' evs IH]; simpl.
  - destruct e as [[[|b bs]|[]]|]; done.
  - destruct e' as [answer|room]; simpl; [|done]. rewrite IH. destruct (ends_reading answer); [done|].
    by destruct answer as [c|].
Qed.

Lemma chunk_read_event (s : UsbReader) (answer : result UsbError (list byte)) :
  default [] (option_map (fun c => [c]) (chunk_read s answer)) =
  if ur_running s then event_chunk (ReadBulk answer) else [].
Proof. destruct answer as [[|b bs]|e]; simpl; by destruct (ur_running s). Qed.

Lemma schedule_snoc (evs : list ReadEvent) (e : ReadEvent) :
  read_schedule (evs ++ [e]) = read_event (read_schedule evs) e.
Proof. unfold read_schedule. by rewrite fold_left_app. Qed.

Lemma schedule_ok (evs : list ReadEvent) :
  let t := read_schedule evs in
  (exists chunks tail, stream_ok (rt_reader t) chunks tail) /\
  ur_running (rt_reader t) = negb (thread_ended evs) /\
  (rt_log t).*2 = chunks_received evs /\
  rt_out t ++ held (rt_reader t) = concat (kept (rt_log t)).
Proof.
  cbv zeta. induction evs as [|e evs IH] using rev_ind.
  { split; [exists [], []; split; simpl; auto|]. done. }
  destruct IH as ((chunks & tail & Hok) & Hrun & Hlog & Hout). rewrite schedule_snoc, chunks_received_snoc.
  unfold thread_ended. rewrite existsb_app. fold (thread_ended evs). simpl existsb. rewrite orb_false_r.
  destruct (read_schedule evs) as [s out log]. simpl in *. destruct e as [answer|room]; simpl.
  - destruct (usb_reader_step_ok _ _ _ answer Hok) as (Hr & Hp & tail' & Hok').
    split; [eauto|]. split; [by rewrite Hr, Hrun, negb_orb|].
    pose proof (chunk_read_event s answer) as Hc. rewrite Hrun in Hc. unfold kept in *.
    rewrite fmap_app, filter_app, fmap_app, concat_app, <- Hout, Hlog, <- app_assoc.
    rewrite (held_ok _ _ _ Hok), (held_ok _ _ _ Hok'), Hp, concat_app, <- app_assoc. simpl in Hc.
    destruct (chunk_read s answer) as [c|]; simpl in Hc |- *.
    + split; [f_equal; by destruct (thread_ended evs)|]. do 3 f_equal.
      by destruct (full s).
    + split; [f_equal; by destruct (thread_ended evs)|]. by rewrite app_nil_r.
  - pose proof (poll_read_ok _ _ _ room Hok) as Hg. unfold poll_gives in Hg.
    destruct (poll_read s room) as [r s']. simpl in *.
    destruct Hg as (Hr & (chunks' & tail' & Hok' & _) & Hb & _).
    split; [eauto|]. split; [by rewrite Hr, Hrun, orb_false_r|].
    split; [by destruct (thread_ended evs); rewrite app_nil_r|]. by rewrite <- app_assoc, Hb.
Qed.

(** No chunk is dropped while the channel has room. *)
Lemma never_full_keeps (evs : list ReadEvent) :
  (forall evs1 answer evs2, evs = evs1 ++ ReadBulk answer :: evs2 -> full (rt_reader (read_schedule evs1)) = false) ->
  kept (rt_log (read_schedule evs)) = (rt_log (read_schedule evs)).*2.
Proof.
  induction evs as [|e evs IH] using rev_ind; intros Hroom; [done|]. rewrite schedule_snoc.
  assert (kept (rt_log (read_schedule evs)) = (rt_log (read_schedule evs)).*2) as Hk.
  { apply IH. intros evs1 answer evs2 ->. apply (Hroom evs1 answer (evs2 ++ [e])). by rewrite <- app_assoc. }
  destruct e as [answer|room]; simpl; [|by destruct (poll_read _ room)].
  unfold kept in *. rewrite filter_app, !fmap_app, Hk. f_equal.
  destruct (chunk_read _ answer); [|done]. by rewrite (Hroom evs answer []).
Qed.

(** C22.  The reading side of the USB stream, over every interleaving of the reader thread with
    the polls of the caller: what the caller got, and then what the stream still holds, is the
    concatenation of the chunks kept, in order, and polling on gives exactly those bytes and
    then, within one poll per byte and one more, an answer without bytes, which is "pending"
    exactly while the thread runs.  No poll gives more bytes than there is room for.  The
    stream is lossless as long as the channel has room when a bulk transfer completes.  A chunk
    read while its 128 places are taken is lost, and an error read then ends the stream as if
    the phone had closed it. *)
Theorem usb_read_exact (evs : list ReadEvent) (room : nat) (Hroom : (0 < room)%nat) :
  let t := read_schedule evs in let s := rt_reader t in
  (rt_log t).*2 = chunks_received evs /\
  rt_out t ++ held s = concat (kept (rt_log t)) /\
  (exists r, drain (S (length (held s))) room s = (held s, Some r) /\ (r = Pending <-> ur_running s = true)) /\
  (forall n bytes, (poll_read s n).1 = Ready (Ok bytes) -> (length bytes <= n)%nat) /\
  ((forall evs1 answer evs2, evs = evs1 ++ ReadBulk answer :: evs2 -> full (rt_reader (read_schedule evs1)) = false) ->
   rt_out t ++ held s = concat (chunks_received evs)) /\
  (ur_running s = true ->
   (forall c, c <> [] -> full s = true ->
      rt_reader (read_schedule (evs ++ [ReadBulk (Ok c)])) = s /\
      chunks_received (evs ++ [ReadBulk (Ok c)]) = chunks_received evs ++ [c]) /\
   (forall e, e <> TimedOut ->
      drain (S (length (held s))) room (usb_reader_step s (Err e)) =
      (held s, Some (Ready (if full s then Ok [] else Err (Other (usb_error e))))))).
Proof.
  cbv zeta. destruct (schedule_ok evs) as ((chunks & tail & Hok) & Hrun & Hlog & Hout).
  set (s := rt_reader (read_schedule evs)) in *.
  split; [done|]. split; [done|]. split; [|split; [|split; [|intros Hr; split]]].
  - exists (final_answer s tail). split; [apply (drain_ok _ _ _ chunks); [done..|lia]|].
    unfold final_answer. destruct Hok as [_ _ [-> | (m & -> & _ & ->)] _]; [by destruct (ur_running s)|by destruct m].
  - intros n bytes Hb. destruct (poll_read_ok _ _ _ n Hok) as (_ & _ & _ & Hlen & _). by rewrite Hb in Hlen.
  - intros Hf. by rewrite Hout, (never_full_keeps _ Hf), Hlog.
  - intros c Hc Hf. rewrite schedule_snoc, chunks_received_snoc. rewrite Hr in Hrun. symmetry in Hrun.
    apply negb_true_iff in Hrun. rewrite Hrun. destruct c as [|b c]; [done|]. split; [|done].
    simpl. fold s. unfold usb_reader_step, try_send. by rewrite Hr, (so_open _ _ _ Hok), Hf.
  - intros e He. pose proof (running_tail _ _ _ Hok Hr) as ->. destruct Hok as [Hq Hc _ Ho].
    assert (usb_reader_step s (Err e) = stop_reading (send_quietly s (Err (Other (usb_error e))))) as ->.
    { unfold usb_reader_step. rewrite Hr. by destruct e. }
    unfold send_quietly, try_send. rewrite Ho. cbn [negb]. rewrite app_nil_r in Hq.
    assert (held s = ur_pending s ++ concat chunks) as Hh.
    { apply (held_ok s chunks []). split; [by rewrite app_nil_r|done|by left|done]. }
    destruct (full s); cbn iota.
    + assert (stream_ok (stop_reading s) chunks []) as Hok' by (split; simpl; [by rewrite app_nil_r|done|by left|done]).
      rewrite (drain_ok _ _ _ _ _ Hroom Hok'); rewrite (held_ok _ _ _ Hok'); change (ur_pending _) with (ur_pending s); rewrite <- Hh; [done|lia].
    + set (s' := stop_reading _).
      assert (stream_ok s' chunks [Err (Other (usb_error e))]) as Hok' by (split; simpl; [by rewrite Hq|done|right; by exists (Err (Other (usb_error e)))|done]).
      rewrite (drain_ok _ _ _ _ _ Hroom Hok'); rewrite (held_ok _ _ _ Hok'); change (ur_pending _) with (ur_pending s); rewrite <- Hh; [done|lia].
Qed.
End Reading.

#[export] Instance toy_usb_text : UsbText := fun _ => "usb"%string.

(** The full schedule: the thread reads two chunks, the caller takes the first in parts. *)
Definition sample_reads : list ReadEvent :=
  [ReadBulk (Ok [x01; x02; x03]); PollRead 2; ReadBulk (Err TimedOut); ReadBulk (Ok [x04]); PollRead 9; ReadBulk (Ok [])].

Lemma usb_read_exact_witness :
  rt_out (read_schedule sample_reads) = [x01; x02; x03] /\
  drain 2 7 (rt_reader (read_schedule sample_reads)) = ([x04], Some (Ready (Ok []))) /\
  let t := read_schedule (replicate 128 (ReadBulk (Ok [x05]))) in
  full (rt_reader t) = true /\
  rt_reader (read_schedule (replicate 128 (ReadBulk (Ok [x05])) ++ [ReadBulk (Ok [x06])])) = rt_reader t.
Proof.
  split; [vm_compute; reflexivity|]. split.
  - pose proof (usb_read_exact sample_reads 7 ltac:(lia)) as (_ & _ & (r & Hd & Hr) & _).
    change (S (length (held (rt_reader (read_schedule sample_reads))))) with 2%nat in Hd.
    rewrite Hd. change (held (rt_reader (read_schedule sample_reads))) with [x04].
    vm_compute in Hd. injection Hd as <-. reflexivity.
  - split; [vm_compute; reflexivity|].
    apply (usb_read_exact (replicate 128 (ReadBulk (Ok [x05]))) 1 ltac:(lia)); [vm_compute; reflexivity|done|vm_compute; reflexivity].
Defined.

(** ** Writing *)

Inductive WriteEvent :=
  | PollWrite (buffer : list byte)
  | PollFlush
  | WriteEnds (answer : option (result UsbError nat)).   (* the transfer in flight ends *)

(** The writer, the bytes the endpoint acknowledged, and the bytes the caller was told are
    written. *)
Record WriteTrace := mkWriteTrace {
  wt_writer : UsbWriter;
  wt_wire : list byte;
  wt_told : list byte
}.

Definition write_event `{UsbText} (t : WriteTrace) (e : WriteEvent) : WriteTrace :=
  let s := wt_writer t in
  match e with
  | PollWrite buffer =>
      let '(r, s') := poll_write s buffer in
      mkWriteTrace s' (wt_wire t) (wt_told t ++ match r with Ready (Ok n) => take n buffer | _ => [] end)
  | PollFlush => mkWriteTrace (poll_flush s).2 (wt_wire t) (wt_told t)
  | WriteEnds answer =>
      mkWriteTrace (write_ends s answer)
        (wt_wire t ++ match uwr_pending s, answer with Some (data, None), Some (Ok n) => take n data | _, _ => [] end)
        (wt_told t)
  end.

Definition write_schedule `{UsbText} (evs : list WriteEvent) : WriteTrace :=
  fold_left write_event evs (mkWriteTrace usb_writer_new [] []).

(** What [write_all] does: it repeats a write until it has the answer, and flushes only then. *)
Definition patient_step (s : UsbWriter) (e : WriteEvent) : Prop :=
  match e, uwr_pending s with
  | PollWrite buffer, Some (data, _) => buffer = data
  | PollFlush, Some _ => False
  | _, _ => True
  end.

Definition patient `{UsbText} (evs : list WriteEvent) : Prop :=
  forall evs1 e evs2, evs = evs1 ++ e :: evs2 -> patient_step (wt_writer (write_schedule evs1)) e.

(** Acknowledged by the endpoint and not yet told. *)
Definition untold (s : UsbWriter) : list byte :=
  match uwr_pending s with Some (data, Some (Some (Ok n))) => take n data | _ => [] end.

Lemma write_schedule_snoc `{UsbText} (evs : list WriteEvent) (e : WriteEvent) :
  write_schedule (evs ++ [e]) = write_event (write_schedule evs) e.
Proof. unfold write_schedule. by rewrite fold_left_app. Qed.

(** The writing side of the USB stream.  A caller that repeats a write until it is
    answered is told, in order, exactly the bytes the endpoint acknowledged, whatever short
    counts and errors the transfers end with; a flush is answered only when no transfer is in
    flight and then does nothing.  For any caller, a transfer is started only when none is in
    flight.  But a write that is given up leaves its transfer behind: the next write of any
    other buffer starts nothing and gets the count of the old one. *)
Theorem usb_write_exact `{UsbText} (evs : list WriteEvent) (Hpatient : patient evs) :
  let t := write_schedule evs in let s := wt_writer t in
  wt_told t ++ untold s = wt_wire t /\
  (forall s' buffer, uwr_started (poll_write s' buffer).2 =
     uwr_started s' ++ match uwr_pending s' with None => [buffer] | Some _ => [] end) /\
  (forall s', (exists r, (poll_flush s').1 = Ready (Ok r)) -> uwr_pending (poll_flush s').2 = None) /\
  (forall abandoned buffer n, uwr_pending s = None ->
     let s1 := write_ends (poll_write s abandoned).2 (Some (Ok n)) in
     (poll_write s1 buffer).1 = Ready (Ok n) /\
     uwr_started (poll_write s1 buffer).2 = uwr_started s ++ [abandoned]).
Proof.
  cbv zeta. split; [|split; [|split]].
  - induction evs as [|e evs IH] using rev_ind; [done|].
    assert (patient evs) as Hp.
    { intros evs1 e1 evs2 ->. apply (Hpatient evs1 e1 (evs2 ++ [e])). by rewrite <- app_assoc. }
    specialize (IH Hp). specialize (Hpatient evs e [] eq_refl). rewrite write_schedule_snoc.
    destruct (write_schedule evs) as [[p started] wire told]. unfold untold, patient_step in *. cbn in *.
    destruct e as [buffer| |answer], p as [[data [[[n|er]|]|]]|]; cbn in *; subst; rewrite ?app_nil_r in *; try done.
    by destruct answer as [[n|er]|].
  - intros [[[data [[r|]|]]|] started] buffer; cbn; by rewrite ?app_nil_r.
  - intros [[[data [[[n|er]|]|]]|] started] [r Hr]; done.
  - intros abandoned buffer n Hn. destruct (wt_writer (write_schedule evs)) as [p started]. cbn in Hn. by subst p.
Qed.

Lemma usb_write_exact_witness :
  let evs := [PollWrite [x01; x02; x03]; WriteEnds (Some (Ok 2%nat)); PollWrite [x01; x02; x03]; PollFlush;
              PollWrite [x03]; WriteEnds (Some (Ok 1%nat)); PollWrite [x03]] in
  wt_wire (write_schedule evs) = [x01; x02; x03] /\ wt_told (write_schedule evs) ++ [] = [x01; x02; x03].
Proof.
  cbv zeta. split; [vm_compute; reflexivity|].
  apply (usb_write_exact [PollWrite [x01; x02; x03]; WriteEnds (Some (Ok 2%nat)); PollWrite [x01; x02; x03]; PollFlush;
              PollWrite [x03]; WriteEnds (Some (Ok 1%nat)); PollWrite [x03]]).
  intros evs1 e evs2 Hevs.
  repeat (destruct evs1 as [|? evs1]; cbn in Hevs; [injection Hevs as <- <-; vm_compute; done|injection Hevs as <- Hevs]).
  by destruct evs1.
Defined.

(** ** Endpoints and connecting *)

Definition bulk_addresses (d : Direction) (alt : AltSetting) : list Z :=
  omap (fun e => if ep_bulk e && bool_decide (ep_direction e = d) then Some (ep_address e) else None)
    (alt_endpoints alt).

Definition vendor (alt : AltSetting) : bool :=
  (alt_class alt =? ACCESSORY_IFACE_CLASS) && (alt_subclass alt =? ACCESSORY_IFACE_SUBCLASS).

(** The endpoints of an alternate setting that has both directions. *)
Definition usable (na : Z * AltSetting) : option (Z * Z * Z) :=
  match vendor na.2, bulk_addresses In na.2, bulk_addresses Out na.2 with
  | true, i :: _, o :: _ => Some (na.1, i, o)
  | _, _, _ => None
  end.

(** ... and a single one to read from. *)
Definition single_in (na : Z * AltSetting) : option (Z * Z * Z) :=
  match bulk_addresses In na.2 with [_] => usable na | _ => None end.

(** The reference: the first setting with a single endpoint to read from, or else the first
    with both directions. *)
Definition endpoints_spec (config : list Interface) : option (Z * Z * Z) :=
  match head (omap single_in (alternates config)) with
  | Some found => Some found
  | None => head (omap usable (alternates config))
  end.

Lemma note_endpoints (es : list Endpoint) (i o : option Z) (x : bool) :
  let ins := omap (fun e => if ep_bulk e && bool_decide (ep_direction e = In) then Some (ep_address e) else None) es in
  let outs := omap (fun e => if ep_bulk e && bool_decide (ep_direction e = Out) then Some (ep_address e) else None) es in
  fold_left note_endpoint es (i, o, x) =
    (match i with Some _ => i | None => head ins end,
     match o with Some _ => o | None => head outs end,
     x || match i, ins with Some _, _ :: _ => true | None, _ :: _ :: _ => true | _, _ => false end).
Proof.
  cbv zeta. revert i o x. induction es as [|[bulk dir addr] es IH]; intros i o x; cbn [fold_left].
  - destruct i, o; cbn; by rewrite orb_false_r.
  - cbn [omap list_omap].
    destruct bulk, dir, i, o; cbn [note_endpoint ep_bulk ep_direction ep_address negb andb]; rewrite IH;
      cbn [bool_decide decide_rel]; repeat case_bool_decide; try done; cbn; rewrite ?orb_true_r, ?orb_true_l; try done;
      f_equal; destruct x; try done; by destruct (omap _ es).
Qed.

Lemma find_endpoints_exact (alts : list (Z * AltSetting)) (candidates : list (Z * Z * Z)) :
  find_endpoints alts candidates =
    match head (omap single_in alts) with
    | Some found => inl found
    | None => inr (candidates ++ omap usable alts)
    end.
Proof.
  revert candidates. induction alts as [|[number alt] alts IH]; intros candidates; cbn [find_endpoints].
  { by rewrite app_nil_r. }
  cbn [omap list_omap]. rewrite (note_endpoints (alt_endpoints alt) None None false).
  fold (bulk_addresses In alt) (bulk_addresses Out alt) (vendor alt). unfold single_in, usable. cbn [fst snd].
  destruct (vendor alt); cbn [negb].
  2: { by destruct (bulk_addresses In alt) as [|i [|i' ins]]. }
  destruct (bulk_addresses In alt) as [|i [|i' ins]], (bulk_addresses Out alt) as [|o outs]; cbn; try apply IH; try done.
  rewrite IH. by rewrite <- app_assoc.
Qed.

Lemma accessory_endpoints_exact `{UsbText} (config : list Interface) :
  accessory_endpoints (Ok config) = ok_or (endpoints_spec config) (ELocalIo (Msg "usb.no_bulk_endpoints" [])).
Proof.
  unfold accessory_endpoints, endpoints_spec. rewrite find_endpoints_exact.
  destruct (head (omap single_in (alternates config))); [done|]. cbn. by destruct (omap usable (alternates config)).
Qed.

(** The comment of [accessory_endpoints] asks for exactly one endpoint in each direction; a
    setting with two to write to is taken before one with that shape. *)
Lemma second_out_ignored `{UsbText} :
  accessory_endpoints (Ok
    [mkInterface 0 [mkAltSetting 255 255 [mkEndpoint true In 0x81; mkEndpoint true Out 0x01; mkEndpoint true Out 0x02]];
     mkInterface 1 [mkAltSetting 255 255 [mkEndpoint true In 0x83; mkEndpoint true Out 0x03]]]) = Ok (0, 0x81, 0x01).
Proof. reflexivity. Qed.

Definition identification (host_uuid : string) : list ControlTransfer :=
  [mkControl ACC_GET_PROTOCOL 0 ""; mkControl ACC_SEND_STRING 0 ACC_MANUFACTURER; mkControl ACC_SEND_STRING 1 ACC_MODEL;
   mkControl ACC_SEND_STRING 2 ACC_DESCRIPTION; mkControl ACC_SEND_STRING 3 ACC_VERSION;
   mkControl ACC_SEND_STRING 4 host_uuid; mkControl ACC_START 0 ""].

Definition is_accessory (d : BusDevice) : Prop :=
  exists pid, bd_descriptor d = Ok (ACCESSORY_VID, pid) /\ pid ∈ ACCESSORY_PIDS.

Lemma send_identification_ok `{UsbText} (host_uuid : string) (answers : list (option UsbError)) :
  let '(r, sent) := send_accessory_identification host_uuid answers in
  match r with Ok _ => sent = identification host_uuid | Err _ => True end /\
  exists rest, identification host_uuid = sent ++ rest.
Proof.
  unfold send_accessory_identification.
  do 6 (destruct answers as [|[e|] answers];
        [split; [done|by exists []] | split; [done|by eexists] |]).
  split; [done|by exists []].
Qed.

(** The device the connection goes on with, and what was sent to it. *)
Lemma switch_ok `{UsbText} (w : UsbWorld) (host_uuid : string) (selected : UsbAccessory) (device : BusDevice)
    (r : Res BusDevice) (sent : list ControlTransfer) :
  switch_to_accessory w host_uuid selected device = (r, sent) ->
  (exists rest, identification host_uuid = sent ++ rest) /\
  (sent <> [] -> ua_mode selected = Plain) /\
  match r with
  | Err _ => True
  | Ok d =>
      match ua_mode selected with
      | Accessory => sent = [] /\ d = device
      | Plain => sent = identification host_uuid /\ wait_for_accessory (ua_location selected) (uw_looks w) = Ok d
      end
  end.
Proof.
  unfold switch_to_accessory. destruct (ua_mode selected) eqn:Hm; cbn.
  { intros [= <- <-]. split; [by eexists|done]. }
  destruct (opened _ _); [|intros [= <- <-]; split; [by eexists|done]].
  pose proof (send_identification_ok host_uuid (uw_control w)) as Hs.
  destruct (send_accessory_identification host_uuid (uw_control w)) as [[u|e] sent']; destruct Hs as [Hs Hrest];
    intros [= <- <-].
  - split; [done|]. split; [done|]. by destruct (wait_for_accessory _ _).
  - by split.
Qed.

Lemma find_some_spec {A : Type} (f : A -> bool) (l : list A) (a : A) :
  List.find f l = Some a -> a ∈ l /\ f a = true.
Proof. intros [Hin Hf]%List.find_some. by rewrite list_elem_of_In. Qed.

Lemma wait_ok (location : string) (looks : list (result UsbError (list BusDevice))) (d : BusDevice) :
  wait_for_accessory location looks = Ok d -> device_location d = location /\ is_accessory d.
Proof.
  induction looks as [|look looks IH]; cbn; [done|]. destruct look as [devices|e]; [|done].
  destruct (List.find _ devices) eqn:Hf; [|done]. intros [= <-]. apply find_some_spec in Hf as [_ Hf].
  destruct (bd_descriptor b) as [[vid pid]|] eqn:Hd; [|done].
  apply andb_true_iff in Hf as [Hm Hl]. apply andb_true_iff in Hm as [Hv Hp]. apply Z.eqb_eq in Hv. subst vid.
  split; [by apply bool_decide_eq_true in Hl|]. exists pid. split; [done|]. by apply bool_decide_eq_true in Hp.
Qed.

Lemma find_device_ok `{UsbText} (location : string) (devices : result UsbError (list BusDevice)) (d : BusDevice) :
  find_device location devices = Ok d -> device_location d = location.
Proof.
  unfold find_device. destruct devices as [devices|]; [|done]. destruct (List.find _ _) eqn:Hf; [|done].
  intros [= <-]. apply find_some_spec in Hf as [_ Hf]. by apply bool_decide_eq_true in Hf.
Qed.

Lemma select_ok (location : option string) (accessories : list UsbAccessory) (a : UsbAccessory) :
  select_accessory location accessories = Ok a ->
  match location with
  | Some l => a ∈ accessories /\ ua_location a = l
  | None => accessories = [a]
  end.
Proof.
  unfold select_accessory. destruct location as [l|].
  - destruct (List.find _ _) eqn:Hf; [|done]. intros [= <-]. apply find_some_spec in Hf as [Hin Hl].
    split; [done|]. by apply bool_decide_eq_true in Hl.
  - by destruct accessories as [|x [|]]; [|intros [= <-]|].
Qed.

(** A connection over USB.  When it succeeds it uses a listed device, the one asked for or
    else the only one, found again at its location; the interface and endpoints are those of the
    reference, the label its serial or location.  A device in accessory mode is sent nothing; a
    plain one exactly the identification, in order and ending with the start, and is then seen
    in accessory mode at the same location.  Whatever fails, what was sent is a beginning of the
    identification, and only a plain device is sent anything. *)
Theorem usb_connect_exact `{UsbText} (w : UsbWorld) (location : option string) (host_uuid : string) :
  let r := (usb_connect w location host_uuid).1 in let sent := (usb_connect w location host_uuid).2 in
  (exists rest, identification host_uuid = sent ++ rest) /\
  (forall label endpoints, r = Ok (label, endpoints) ->
     exists accessories selected device config,
       list_accessories (uw_list w) = Ok accessories /\
       match location with
       | Some l => selected ∈ accessories /\ ua_location selected = l
       | None => accessories = [selected]
       end /\
       device_location device = ua_location selected /\
       uw_config w device = Ok config /\ endpoints_spec config = Some endpoints /\
       label = default (ua_location selected) (ua_serial selected) /\
       match ua_mode selected with
       | Accessory => sent = []
       | Plain => sent = identification host_uuid /\ is_accessory device
       end) /\
  (sent <> [] -> exists accessories selected,
     list_accessories (uw_list w) = Ok accessories /\ selected ∈ accessories /\ ua_mode selected = Plain).
Proof.
  cbv zeta. unfold usb_connect.
  destruct (list_accessories (uw_list w)) as [accessories|e] eqn:Hl; [|split; [by eexists|done]].
  destruct (select_accessory location accessories) as [selected|e] eqn:Hsel; [|split; [by eexists|done]].
  destruct (find_device _ (uw_find w)) as [device0|e] eqn:Hfind; [|split; [by eexists|done]].
  destruct (switch_to_accessory _ _ _ device0) as [r sent] eqn:Hsw.
  destruct (switch_ok _ _ _ _ _ _ Hsw) as (Hprefix & Hplain & Hdev). apply select_ok in Hsel. cbn [fst snd].
  assert (selected ∈ accessories) as Hin.
  { destruct location; [by destruct Hsel|subst; by apply elem_of_cons; left]. }
  split; [done|]. split; [|by intros Hs%Hplain; exists accessories, selected].
  intros label endpoints Hr. destruct r as [device|e]; [|done]. destruct (opened _ _); [|done].
  destruct (uw_config w device) as [config|e] eqn:Hc; [|done]. rewrite accessory_endpoints_exact in Hr.
  destruct (endpoints_spec config) as [eps|] eqn:He; cbn in Hr; [|done]. destruct (uw_claim w); [done|].
  injection Hr as <- <-. exists accessories, selected, device, config.
  destruct (ua_mode selected).
  - destruct Hdev as [-> ->]. apply find_device_ok in Hfind. done.
  - destruct Hdev as [-> [Hloc Hacc]%wait_ok]. done.
Qed.

Definition sample_plain : BusDevice := mkBusDevice (Ok (SMARTISAN_VID, 0x7020)) 1 (Ok [2; 3]) (Some "serial"%string).
Definition sample_accessory : BusDevice := mkBusDevice (Ok (ACCESSORY_VID, 0x2d01)) 1 (Ok [2; 3]) None.
Definition sample_usb : UsbWorld :=
  mkUsbWorld (Ok [sample_plain]) (Ok [sample_plain]) None [] [Ok []; Ok [sample_accessory]] None
    (fun _ => Ok [mkInterface 1 [mkAltSetting 255 255 [mkEndpoint true In 0x83; mkEndpoint true Out 0x02]]]) None.

Lemma usb_connect_sample :
  usb_connect sample_usb None "host" = (Ok ("serial"%string, (1, 0x83, 0x02)), identification "host") /\
  exists rest, identification "host" = (usb_connect sample_usb None "host").2 ++ rest.
Proof. split; [reflexivity|]. exact (proj1 (usb_connect_exact sample_usb None "host")). Qed.
