(* ===== verification/I18n.v ===== *)
(** * Localised text

    core/i18n.rs: the keys of messages, the catalogue they are looked up in, and the substitution of
    positional arguments.  The catalogue is locales/zh-CN.json, of which the keys are here and the texts
    a parameter.  No key the program names is missing from it, and substituting one argument after the
    other is what it is meant to be unless an argument looks like a placeholder. *)

From Stdlib Require Import Strings.String Strings.Ascii.
From stdpp Require Import gmap strings pretty.
From S2P Require Import Prelude Text.

#[local] Open Scope string_scope.
#[local] Open Scope list_scope.
#[local] Open Scope Z_scope.

Definition DEFAULT_LANGUAGE : string := "zh-CN".

(** ** Keys *)

Module MessageKey.

Inductive t :=
  | WireLogWarning | NoDevices | NoWifiDevices | WifiDeviceListHeader | DeviceListHeader | UsbDeviceListHeader
  | FileListHeader | ClipboardHeader | ShellWelcome | ShellBye | Yes | No | ShellOnlyHuman | PingResult | FileCount
  | Exists | Missing | DirectoryCreated | RenameDone | DeletedCount | DownloadDone | UploadDone | ClipboardWritten
  | ClipboardDeleted | ClipboardCleared | ShellNoStdin | ClipboardSetRequired | ShellNested | ShellHelp
  | BatchReadFailed | Error | CommandParseError | RemoteNotDirectory | LocalNotDirectory | ConfirmationRequired
  | UserNotConfirmed | Download | Upload | Progress | Directory | File | DeviceInfo | RemoteMissing
  | DeleteRecursiveRequired | DeleteAction | LocalTargetExists | ReadDirFailed | DownloadPathEscape
  | UpdateFileInfoFailed | DuplicateTarget | PullNeedsSeparator | BatchConcurrencyRange | OverwriteLocalAction
  | RemoteTargetExists | RecursiveRequired | BatchDone | BatchFailures | OverwriteLocalBatch | OverwriteRemoteBatch
  | BatchProgress | OverwriteRemoteAction | DeleteClipboardAction | ClearClipboardAction | RemoteNameMissing
  | DryRunReport | InvalidDuration | WifiTrustHint | TrustNone | WatchRegistered | WatchLagged | WatchDisconnected
  | WatchNested | ExifNotImplemented | ExifParseFailed | ExifFileTooLarge | MediaChangeKindMismatch
  | MediaPreviewTruncated | MediaThumbnailWritten | MediaThumbnailPartial | MediaThumbnailFailed
  | MediaThumbnailInvalidId | TrustListHeader | TrustRemoveAction | TrustMissing | TrustRemoved | TrustResetNeedsWifi
  | TrustResetAction | TrustResetDone.

#[export] Instance t_eq_dec : EqDecision t.
Proof. solve_decision. Defined.

Definition key_text (k : t) : string :=
  match k with
  | WireLogWarning => "wire_log.warning" | NoDevices => "device.none" | NoWifiDevices => "device.wifi_none"
  | WifiDeviceListHeader => "device.wifi_list_header" | DeviceListHeader => "device.list_header"
  | UsbDeviceListHeader => "device.usb_list_header" | FileListHeader => "file.list_header"
  | ClipboardHeader => "clipboard.header" | ShellWelcome => "shell.welcome" | ShellBye => "shell.bye"
  | Yes => "value.yes" | No => "value.no" | ShellOnlyHuman => "shell.human_only" | PingResult => "device.ping_result"
  | FileCount => "file.count" | Exists => "file.exists" | Missing => "file.missing"
  | DirectoryCreated => "file.directory_created" | RenameDone => "file.rename_done"
  | DeletedCount => "file.deleted_count" | DownloadDone => "file.download_done" | UploadDone => "file.upload_done"
  | ClipboardWritten => "clipboard.written" | ClipboardDeleted => "clipboard.deleted"
  | ClipboardCleared => "clipboard.cleared" | ShellNoStdin => "shell.no_stdin"
  | ClipboardSetRequired => "clipboard.set_required" | ShellNested => "shell.nested" | ShellHelp => "shell.help"
  | BatchReadFailed => "batch.read_failed" | Error => "error.display" | CommandParseError => "shell.parse_error"
  | RemoteNotDirectory => "shell.remote_not_directory" | LocalNotDirectory => "shell.local_not_directory"
  | ConfirmationRequired => "confirm.required_hint" | UserNotConfirmed => "confirm.declined"
  | Download => "transfer.download" | Upload => "transfer.upload" | Progress => "transfer.progress"
  | Directory => "file.directory" | File => "file.file" | DeviceInfo => "device.info"
  | RemoteMissing => "file.remote_missing" | DeleteRecursiveRequired => "file.recursive_required"
  | DeleteAction => "file.delete_action" | LocalTargetExists => "file.local_exists"
  | ReadDirFailed => "client.read_dir_failed" | DownloadPathEscape => "client.download_path_escape"
  | UpdateFileInfoFailed => "client.update_file_info_failed" | DuplicateTarget => "cli.duplicate_target"
  | PullNeedsSeparator => "cli.pull_needs_separator" | BatchConcurrencyRange => "client.batch_concurrency_range"
  | OverwriteLocalAction => "file.overwrite_local_action" | RemoteTargetExists => "file.remote_exists"
  | RecursiveRequired => "cli.recursive_required" | BatchDone => "file.batch_done"
  | BatchFailures => "file.batch_failures" | OverwriteLocalBatch => "file.overwrite_local_batch"
  | OverwriteRemoteBatch => "file.overwrite_remote_batch" | BatchProgress => "file.batch_progress"
  | OverwriteRemoteAction => "file.overwrite_remote_action" | DeleteClipboardAction => "clipboard.delete_action"
  | ClearClipboardAction => "clipboard.clear_action" | RemoteNameMissing => "file.remote_name_missing"
  | DryRunReport => "cli.dry_run_report" | InvalidDuration => "duration.invalid" | WifiTrustHint => "wifi.trust_hint"
  | TrustNone => "trust.none" | WatchRegistered => "watch.registered" | WatchLagged => "watch.lagged"
  | WatchDisconnected => "watch.disconnected" | WatchNested => "watch.nested"
  | ExifNotImplemented => "exif.not_implemented" | ExifParseFailed => "exif.parse_failed"
  | ExifFileTooLarge => "exif.file_too_large" | MediaChangeKindMismatch => "media.change_kind_mismatch"
  | MediaPreviewTruncated => "media.preview_truncated" | MediaThumbnailWritten => "media.thumbnail_written"
  | MediaThumbnailPartial => "media.thumbnail_partial" | MediaThumbnailFailed => "media.thumbnail_failed"
  | MediaThumbnailInvalidId => "media.thumbnail_invalid_id" | TrustListHeader => "trust.list_header"
  | TrustRemoveAction => "trust.remove_action" | TrustMissing => "trust.missing" | TrustRemoved => "trust.removed"
  | TrustResetNeedsWifi => "trust.reset_needs_wifi" | TrustResetAction => "trust.reset_action"
  | TrustResetDone => "trust.reset_done"
  end.

Definition every : list t :=
  [WireLogWarning; NoDevices; NoWifiDevices; WifiDeviceListHeader; DeviceListHeader; UsbDeviceListHeader; FileListHeader;
   ClipboardHeader; ShellWelcome; ShellBye; Yes; No; ShellOnlyHuman; PingResult; FileCount; Exists; Missing;
   DirectoryCreated; RenameDone; DeletedCount; DownloadDone; UploadDone; ClipboardWritten; ClipboardDeleted;
   ClipboardCleared; ShellNoStdin; ClipboardSetRequired; ShellNested; ShellHelp; BatchReadFailed; Error;
   CommandParseError; RemoteNotDirectory; LocalNotDirectory; ConfirmationRequired; UserNotConfirmed; Download; Upload;
   Progress; Directory; File; DeviceInfo; RemoteMissing; DeleteRecursiveRequired; DeleteAction; LocalTargetExists;
   ReadDirFailed; DownloadPathEscape; UpdateFileInfoFailed; DuplicateTarget; PullNeedsSeparator; BatchConcurrencyRange;
   OverwriteLocalAction; RemoteTargetExists; RecursiveRequired; BatchDone; BatchFailures; OverwriteLocalBatch;
   OverwriteRemoteBatch; BatchProgress; OverwriteRemoteAction; DeleteClipboardAction; ClearClipboardAction;
   RemoteNameMissing; DryRunReport; InvalidDuration; WifiTrustHint; TrustNone; WatchRegistered; WatchLagged;
   WatchDisconnected; WatchNested; ExifNotImplemented; ExifParseFailed; ExifFileTooLarge; MediaChangeKindMismatch;
   MediaPreviewTruncated; MediaThumbnailWritten; MediaThumbnailPartial; MediaThumbnailFailed; MediaThumbnailInvalidId;
   TrustListHeader; TrustRemoveAction; TrustMissing; TrustRemoved; TrustResetNeedsWifi; TrustResetAction; TrustResetDone].
End MessageKey.

(** The keys of locales/zh-CN.json. *)
Definition catalogue_keys : list string :=
  ["adb.collect_timeout"; "adb.command_timeout"; "adb.device_unavailable"; "adb.forward_cleanup_ambiguous";
   "adb.forward_connect_failed"; "adb.forward_wait"; "adb.multiple_devices"; "adb.no_online_device";
   "adb.nodelay_failed"; "adb.port_parse_failed"; "adb.read_stderr_failed"; "adb.read_stdout_failed"; "adb.spawn_failed";
   "adb.wait_failed"; "batch.failures"; "batch.read_failed"; "cli.about"; "cli.arg.browse_timeout"; "cli.arg.depth";
   "cli.arg.device_uuid"; "cli.arg.exclusions"; "cli.arg.local"; "cli.arg.media_limit"; "cli.arg.overwrite";
   "cli.arg.path"; "cli.arg.paths"; "cli.arg.recursive"; "cli.arg.remote"; "cli.arg.source"; "cli.arg.stdin";
   "cli.arg.sync_output_dir"; "cli.arg.sync_root"; "cli.arg.target"; "cli.arg.text"; "cli.arg.thumb_output_dir";
   "cli.arg.timestamp"; "cli.arg.trash"; "cli.arg.watch_path"; "cli.arg.wifi_invalid"; "cli.command.batch";
   "cli.command.clear"; "cli.command.clipboard"; "cli.command.count"; "cli.command.delete"; "cli.command.device";
   "cli.command.discover"; "cli.command.exists"; "cli.command.fs"; "cli.command.get"; "cli.command.info";
   "cli.command.list"; "cli.command.ls"; "cli.command.media"; "cli.command.media_audio"; "cli.command.media_photo";
   "cli.command.media_thumbnail"; "cli.command.media_video"; "cli.command.mkdir"; "cli.command.mv"; "cli.command.ping";
   "cli.command.pull"; "cli.command.push"; "cli.command.rm"; "cli.command.set"; "cli.command.shell"; "cli.command.stat";
   "cli.command.sync"; "cli.command.sync_plan"; "cli.command.sync_run"; "cli.command.sync_status";
   "cli.command.sync_watch"; "cli.command.trust"; "cli.command.trust_list"; "cli.command.trust_remove";
   "cli.command.trust_reset"; "cli.command.watch"; "cli.dry_run_report"; "cli.duplicate_target"; "cli.help";
   "cli.help_template"; "cli.help_template_leaf"; "cli.help_template_options"; "cli.output"; "cli.parse_error";
   "cli.pull_needs_separator"; "cli.recursive_required"; "cli.serial"; "cli.timeout"; "cli.value.browse_timeout";
   "cli.value.output"; "cli.value.serial"; "cli.value.timeout"; "cli.value.wifi"; "cli.value.wire_log"; "cli.verbose";
   "cli.version"; "cli.wifi"; "cli.wire_log"; "cli.yes"; "client.batch_concurrency_range";
   "client.clipboard_entry_missing"; "client.compress_clipboard_failed"; "client.connection_closed";
   "client.create_failed"; "client.decompress_clipboard_failed"; "client.delete_failed"; "client.download_md5_mismatch";
   "client.download_missing_length"; "client.download_not_ready"; "client.download_path_escape";
   "client.local_path_name_required"; "client.local_target_exists"; "client.mkdir_missing_file"; "client.move_failed";
   "client.not_regular_file"; "client.open_failed"; "client.read_dir_failed"; "client.read_failed";
   "client.remote_failed"; "client.remote_path_directory_required"; "client.remote_path_name_required";
   "client.remote_target_exists"; "client.sync_failed"; "client.sync_monitor_failed"; "client.update_file_info_failed";
   "client.upload_canceled"; "client.upload_rejected"; "clipboard.clear_action"; "clipboard.cleared";
   "clipboard.delete_action"; "clipboard.deleted"; "clipboard.header"; "clipboard.set_required"; "clipboard.written";
   "confirm.declined"; "confirm.prompt_with_action"; "confirm.required_hint"; "crypto.handshake_base64_invalid";
   "crypto.handshake_decrypt_failed"; "crypto.rsa_generate_failed"; "crypto.rsa_public_encode_failed";
   "crypto.rsa_sign_failed"; "device.info"; "device.list_header"; "device.none"; "device.ping_result";
   "device.usb_list_header"; "device.wifi_list_header"; "device.wifi_none"; "duration.invalid"; "error.adb_unavailable";
   "error.cancelled"; "error.cancelled_local"; "error.cancelled_remote"; "error.configuration";
   "error.confirmation_required"; "error.ctrl_c"; "error.device_selection"; "error.display"; "error.handshake";
   "error.interrupted"; "error.local_io"; "error.protobuf_decode"; "error.protocol"; "error.remote_io";
   "error.serialize_json"; "error.serialize_output"; "error.timeout"; "error.transport"; "error.usage";
   "event.stream_closed"; "event.stream_lagged"; "exif.file_too_large"; "exif.not_implemented"; "exif.parse_failed";
   "file.batch_done"; "file.batch_failures"; "file.batch_progress"; "file.count"; "file.delete_action";
   "file.deleted_count"; "file.directory"; "file.directory_created"; "file.download_done"; "file.exists"; "file.file";
   "file.list_header"; "file.local_exists"; "file.missing"; "file.overwrite_local_action"; "file.overwrite_local_batch";
   "file.overwrite_remote_action"; "file.overwrite_remote_batch"; "file.recursive_required"; "file.remote_exists";
   "file.remote_missing"; "file.remote_name_missing"; "file.rename_done"; "file.upload_done"; "frame.data_read_failed";
   "frame.downstream_too_large"; "frame.flush_failed"; "frame.header_read_failed"; "frame.upstream_too_large";
   "frame.wire_log_create_failed"; "frame.wire_log_permission_failed"; "frame.write_failed"; "handshake.adb";
   "handshake.authorization_required"; "handshake.derived_key_decode_failed"; "handshake.derived_key_too_large";
   "handshake.phone_locked"; "handshake.public_key_rejected"; "handshake.response01_decode";
   "handshake.response01_missing_uuid"; "handshake.response02_decode"; "handshake.result_invalid";
   "handshake.sid_mismatch"; "handshake.trust_failed"; "handshake.trust_record_cleared"; "handshake.trust_timeout";
   "handshake.trust_waiting"; "handshake.wifi_response01_timeout"; "m1.clipboard_deleted"; "m1.clipboard_event";
   "m1.device_event"; "m1.marker_missing"; "media.change_kind_mismatch"; "media.output_dir_create_failed";
   "media.preview_truncated"; "media.response_too_large"; "media.thumbnail_failed"; "media.thumbnail_invalid_id";
   "media.thumbnail_partial"; "media.thumbnail_write_failed"; "media.thumbnail_written"; "session.cancel_failed";
   "session.download_ambiguous"; "session.download_closed"; "session.download_count_overflow";
   "session.download_too_long"; "session.event_invalid"; "session.event_length_overflow";
   "session.event_length_too_large"; "session.event_queue_full"; "session.event_received"; "session.event_too_long";
   "session.file_too_large"; "session.flush_download_failed"; "session.heartbeat_receive_failed";
   "session.heartbeat_send_failed"; "session.raw_after_download"; "session.reader_ended"; "session.receive_file_chunk";
   "session.response_cap_exceeded"; "session.response_closed"; "session.response_length_overflow";
   "session.response_length_too_large"; "session.response_too_long"; "session.send_frame"; "session.sid_exhausted";
   "session.unmatched_dropped"; "session.wait_response"; "session.write_download_failed"; "session.writer_closed";
   "session.writer_no_result"; "shell.bye"; "shell.help"; "shell.history_failed"; "shell.human_only";
   "shell.local_not_directory"; "shell.nested"; "shell.no_stdin"; "shell.parse_error"; "shell.prompt";
   "shell.readline_failed"; "shell.readline_init_failed"; "shell.remote_not_directory"; "shell.welcome";
   "state.config_dir_missing"; "state.create_failed"; "state.parent_missing"; "state.parse_failed";
   "state.permission_failed"; "state.read_failed"; "state.serialize_failed"; "state.sync_failed";
   "state.version_unsupported"; "state.write_failed"; "sync.confirm_run"; "sync.create_failed"; "sync.delete_failed";
   "sync.device_uuid_invalid"; "sync.device_uuid_missing"; "sync.identity_mismatch"; "sync.journal_unsafe";
   "sync.legacy_identity_unverified"; "sync.legacy_scope_unproven"; "sync.local_dir_failed"; "sync.local_read_failed";
   "sync.local_sha_mismatch"; "sync.migrate_backup_failed"; "sync.monitor_rejected"; "sync.output_dir_required";
   "sync.parent_missing"; "sync.parse_failed"; "sync.path_outside_root"; "sync.permission_failed";
   "sync.photo_sync_rejected"; "sync.plan_added"; "sync.plan_conflicts"; "sync.plan_deleted"; "sync.plan_info";
   "sync.read_failed"; "sync.rename_failed"; "sync.run_done"; "sync.run_failures"; "sync.serialize_failed";
   "sync.status_line"; "sync.status_none"; "sync.version_unsupported"; "sync.watch_applied"; "sync.watch_nested";
   "sync.write_failed"; "transfer.download"; "transfer.progress"; "transfer.upload"; "trust.list_header";
   "trust.missing"; "trust.none"; "trust.remove_action"; "trust.removed"; "trust.reset_action";
   "trust.reset_device_mismatch"; "trust.reset_done"; "trust.reset_needs_wifi"; "trust.reset_no_device";
   "usb.ambiguous_devices"; "usb.aoa_protocol_failed"; "usb.aoa_start_failed"; "usb.aoa_string_failed";
   "usb.aoa_switch_failed"; "usb.aoa_unsupported"; "usb.busy"; "usb.claim_failed"; "usb.config_failed";
   "usb.connect_task_failed"; "usb.device_gone"; "usb.device_not_found"; "usb.enumerate_failed"; "usb.no_bulk_endpoints";
   "usb.open_failed"; "usb.pipe_error"; "usb.transfer_failed"; "value.no"; "value.yes"; "watch.disconnected";
   "watch.lagged"; "watch.nested"; "watch.registered"; "wifi.connect_failed"; "wifi.connect_timeout";
   "wifi.mdns_browse_failed"; "wifi.mdns_init_failed"; "wifi.nodelay_failed"; "wifi.trust_hint";
   "wire.adb_raw_handshake"; "wire.handshake_chunk"; "wire.handshake_header"; "wire.handshake_request_01";
   "wire.handshake_request_02"; "wire.incoming_chunk"; "wire.incoming_header"; "wire.outgoing_frame";
   "wire.record_header"; "wire_log.warning"].

(** ** Text *)

Record LanguageFile := mkLanguageFile { lf_language : string; lf_messages : gmap string string }.

(** [str::replace]: every occurrence of [pat], from the left, without overlaps; [skip] is what is left of one. *)
Fixpoint replace_from (pat to s : string) (skip : nat) : string :=
  match s with
  | EmptyString => ""
  | String c rest =>
      match skip with
      | S skip => replace_from pat to rest skip
      | O =>
          if starts_with pat s then to +:+ replace_from pat to rest (pred (String.length pat))
          else String c (replace_from pat to rest 0)
      end
  end.
Definition replace (pat to s : string) : string := replace_from pat to s 0.

Definition placeholder (index : nat) : string := "{" +:+ pretty index +:+ "}".

Fixpoint replace_all (index : nat) (arguments : list string) (message : string) : string :=
  match arguments with
  | [] => message
  | argument :: arguments => replace_all (S index) arguments (replace (placeholder index) argument message)
  end.

Section Catalogue.
Context (file : LanguageFile).

(** [language_file]: a catalogue of another language is a panic, at the first use. *)
Definition language_file : option LanguageFile := if bool_decide (lf_language file = DEFAULT_LANGUAGE) then Some file else None.

Definition language : option string := lf_language <$> language_file.

(** [None] is the panic of a missing key. *)
Definition text (key : string) : option string := language_file ≫= fun file => lf_messages file !! key.

Definition format (key : string) (arguments : list string) : option string := replace_all 0 arguments <$> text key.

(** [Localizer for ZhCn] *)
Definition localizer_text (key : MessageKey.t) : option string := text (MessageKey.key_text key).
Definition localizer_format (key : MessageKey.t) (arguments : list string) : option string := format (MessageKey.key_text key) arguments.
End Catalogue.

(** ** No key is missing *)

Lemma every_key (k : MessageKey.t) : k ∈ MessageKey.every.
Proof. destruct k; vm_compute; repeat (apply list_elem_of_here || apply list_elem_of_further). Qed.

Lemma keys_in_catalogue (k : MessageKey.t) : MessageKey.key_text k ∈ catalogue_keys.
Proof.
  assert (Forall (fun k => MessageKey.key_text k ∈ catalogue_keys) MessageKey.every) as Hall.
  { apply (bool_decide_unpack _). vm_compute. exact I. }
  eapply Forall_forall in Hall; [exact Hall|apply every_key].
Qed.

Lemma key_text_inj (a b : MessageKey.t) : MessageKey.key_text a = MessageKey.key_text b -> a = b.
Proof.
  assert (NoDup (MessageKey.key_text <$> MessageKey.every)) as Hnd by (apply (bool_decide_unpack _); vm_compute; exact I).
  pose proof (every_key a) as [i Hi]%list_elem_of_lookup. pose proof (every_key b) as [j Hj]%list_elem_of_lookup.
  intros Hab. assert (i = j) as ->; [|congruence].
  eapply NoDup_lookup; [exact Hnd|by rewrite list_lookup_fmap, Hi|by rewrite list_lookup_fmap, Hj, Hab].
Qed.

(** With the bundled catalogue a message the program names is never a panic. *)
Theorem no_key_is_missing (file : LanguageFile) (k : MessageKey.t) (arguments : list string) :
  lf_language file = DEFAULT_LANGUAGE -> (forall key, key ∈ catalogue_keys -> is_Some (lf_messages file !! key)) ->
  is_Some (localizer_text file k) /\ is_Some (localizer_format file k arguments).
Proof.
  intros Hl Hk. assert (is_Some (text file (MessageKey.key_text k))) as [s Hs].
  { unfold text, language_file. rewrite Hl. simpl. apply Hk, keys_in_catalogue. }
  unfold localizer_format, format, localizer_text. rewrite Hs. split; by eexists.
Qed.

(** ** Substitution *)

Definition all_chars (f : ascii -> bool) (s : string) : bool := forallb f (list_ascii_of_string s).
Definition brace_free (s : string) : Prop := all_chars (fun c => negb (bool_decide (c = "{"%char))) s = true.

(** A message as its author sees it: text and the numbers of arguments. *)
Inductive piece := Lit (s : string) | Arg (index : nat).

Definition plain (p : piece) : Prop := match p with Lit s => brace_free s | Arg _ => True end.

Definition flat1 (p : piece) : string := match p with Lit s => s | Arg i => placeholder i end.
Fixpoint flat (ps : list piece) : string := match ps with [] => "" | p :: ps => flat1 p +:+ flat ps end.

(** Every argument at its place, at once; [from] is the number of the first. *)
Definition fill (from : nat) (arguments : list string) (p : piece) : piece :=
  match p with
  | Arg i => if (i <? from)%nat then p else match arguments !! (i - from)%nat with Some a => Lit a | None => p end
  | Lit _ => p
  end.

Definition fill_one (index : nat) (argument : string) (p : piece) : piece :=
  match p with Arg i => if (i =? index)%nat then Lit argument else p | Lit _ => p end.

Lemma digits_pretty (n : nat) : all_chars is_ascii_digit (pretty n) = true.
Proof.
  assert (forall x s, all_chars is_ascii_digit (pretty_N_go x s) = all_chars is_ascii_digit s) as Hgo.
  { intros x. induction (N.lt_wf_0 x) as [x _ IH]; intros s.
    destruct (decide (x = 0%N)) as [->|Hx]; [done|].
    rewrite pretty_N_go_step by lia. rewrite IH by (apply N.div_lt; lia). cbn. unfold pretty_N_char. by repeat case_match. }
  unfold pretty, pretty_nat, pretty, pretty_N. case_decide; [done|]. by rewrite Hgo.
Qed.

Lemma all_chars_cons (f : ascii -> bool) (c : ascii) (s : string) : all_chars f (String c s) = f c && all_chars f s.
Proof. done. Qed.

Lemma all_chars_app (f : ascii -> bool) (a b : string) : all_chars f (a +:+ b) = all_chars f a && all_chars f b.
Proof. induction a as [|c a IH]; [done|]. change (String c a +:+ b) with (String c (a +:+ b)). by rewrite !all_chars_cons, IH, andb_assoc. Qed.

(** A number ends where its brace is. *)
Lemma digits_prefix (a b r s : string) :
  all_chars is_ascii_digit a = true -> all_chars is_ascii_digit b = true -> a +:+ String "}" r = b +:+ String "}" s -> a = b.
Proof.
  revert b. induction a as [|c a IH]; intros [|d b] Ha Hb Heq; [done| | |].
  - injection Heq as <- _. by rewrite all_chars_cons in Hb.
  - injection Heq as -> _. by rewrite all_chars_cons in Ha.
  - injection Heq as -> Heq. rewrite all_chars_cons in Ha, Hb. apply andb_true_iff in Ha as [_ Ha], Hb as [_ Hb].
    f_equal. by apply IH.
Qed.

Lemma placeholder_starts (i k : nat) (r : string) : starts_with (placeholder k) (placeholder i +:+ r) = true -> i = k.
Proof.
  intros [s Hs]%starts_with_spec. unfold placeholder in Hs. rewrite !app_assoc_str in Hs.
  change ("{" +:+ (?x)) with (String "{" x) in Hs. injection Hs as Hs.
  apply (inj (pretty (A := nat))). eapply digits_prefix; [apply digits_pretty..|exact Hs].
Qed.

Lemma replace_lit (k : nat) (a s r : string) :
  brace_free s -> replace_from (placeholder k) a (s +:+ r) 0 = s +:+ replace_from (placeholder k) a r 0.
Proof.
  unfold brace_free. induction s as [|c s IH]; [done|]. rewrite all_chars_cons. intros [Hc Hs]%andb_true_iff.
  change (String c s +:+ r) with (String c (s +:+ r)). cbn [replace_from].
  assert (starts_with (placeholder k) (String c (s +:+ r)) = false) as ->.
  { destruct (starts_with _ _) eqn:E; [|done]. apply starts_with_spec in E as [t Ht]. injection Ht as -> _. done. }
  rewrite IH by done. done.
Qed.

Lemma replace_skip (pat a s r : string) : replace_from pat a (s +:+ r) (String.length s) = replace_from pat a r 0.
Proof. induction s as [|c s IH]; [done|]. exact IH. Qed.

Lemma replace_flat (k : nat) (a : string) (ps : list piece) :
  Forall plain ps -> replace (placeholder k) a (flat ps) = flat (fill_one k a <$> ps).
Proof.
  unfold replace. induction 1 as [|p ps Hp Hps IH]; [done|]. cbn [flat fmap list_fmap]. destruct p as [s|i]; simpl in Hp.
  { cbn [fill_one flat1]. rewrite replace_lit by done. by rewrite IH. }
  cbn [fill_one flat1]. destruct (Nat.eqb_spec i k) as [->|Hne].
  - change (flat1 (Lit a)) with a. rewrite <- IH. unfold placeholder at 2. rewrite app_assoc_str.
    change ("{" +:+ (pretty k +:+ "}") +:+ flat ps) with (String "{" ((pretty k +:+ "}") +:+ flat ps)). cbn [replace_from].
    assert (starts_with (placeholder k) (String "{" ((pretty k +:+ "}") +:+ flat ps)) = true) as ->.
    { apply starts_with_spec. exists (flat ps). unfold placeholder. by rewrite !app_assoc_str. }
    f_equal. apply (replace_skip (placeholder k) a (pretty k +:+ "}")).
  - cbn [flat1]. rewrite <- IH. unfold placeholder at 2 3. rewrite !app_assoc_str.
    change ("{" +:+ (pretty i +:+ "}" +:+ flat ps)) with (String "{" (pretty i +:+ "}" +:+ flat ps)). cbn [replace_from].
    assert (starts_with (placeholder k) (String "{" (pretty i +:+ "}" +:+ flat ps)) = false) as ->.
    { destruct (starts_with _ _) eqn:E; [|done]. exfalso. apply Hne, (placeholder_starts i k (flat ps)).
      unfold placeholder at 2. by rewrite !app_assoc_str. }
    rewrite <- !app_assoc_str. rewrite replace_lit; [done|].
    unfold brace_free. rewrite all_chars_app. apply andb_true_iff. split; [|done].
    pose proof (digits_pretty i) as Hd. revert Hd. unfold all_chars. rewrite !List.forallb_forall.
    intros Hd c Hc. specialize (Hd c Hc). case_bool_decide; [by subst|done].
Qed.

Lemma fill_step (k : nat) (a : string) (arguments : list string) (p : piece) :
  fill (S k) arguments (fill_one k a p) = fill k (a :: arguments) p.
Proof.
  destruct p as [s|i]; [done|]. unfold fill_one, fill. destruct (Nat.eqb_spec i k) as [->|Hne].
  - replace (k <? k)%nat with false by (symmetry; apply Nat.ltb_irrefl). by rewrite Nat.sub_diag.
  - destruct (Nat.ltb_spec i k) as [Hl|Hl].
    + replace (i <? S k)%nat with true by (symmetry; apply Nat.ltb_lt; lia). done.
    + replace (i <? S k)%nat with false by (symmetry; apply Nat.ltb_ge; lia). by replace (i - k)%nat with (S (i - S k)) by lia.
Qed.

(** Replacing one placeholder after the other puts every argument at its places, and leaves those without an argument, when
    no argument has a brace of its own. *)
Theorem format_exact (ps : list piece) (arguments : list string) :
  Forall plain ps -> Forall brace_free arguments -> replace_all 0 arguments (flat ps) = flat (fill 0 arguments <$> ps).
Proof.
  intros Hps Ha. revert ps Hps. generalize 0%nat as k. induction Ha as [|a arguments Hf Ha IH]; intros k ps Hps; cbn [replace_all].
  - f_equal. induction ps as [|p ps IH]; [done|]. cbn [fmap list_fmap]. apply Forall_cons in Hps as [_ Hps]. rewrite <- IH by done. f_equal.
    destruct p as [s|i]; [done|]. unfold fill. by destruct (_ <? _)%nat.
  - rewrite replace_flat by done. rewrite IH.
    + f_equal. rewrite <- list_fmap_compose. apply list_fmap_ext. intros _ p _. apply fill_step.
    + apply Forall_fmap. eapply Forall_impl; [exact Hps|]. intros [s|i] Hp; [done|]. unfold fill_one. simpl. by destruct (_ =? _)%nat.
Qed.

(** An argument that reads like a placeholder is replaced by the next one: a file of this name is reported as another. *)
Lemma argument_substituted :
  replace_all 0 ["/tmp/{1}"; "denied"] "read {0} failed: {1}" = "read /tmp/denied failed: denied".
Proof. vm_compute. reflexivity. Qed.
