(* ===== verification/Parse.v ===== *)
(** * Splitting and parsing text

    The [str] methods that read command output and dates: [lines], [split_whitespace] and
    [parse] of integers, on strings as their UTF-8 bytes; which bytes are UTF-8. *)

From Stdlib Require Import Strings.String Strings.Ascii.
From S2P Require Import Prelude Text.

#[local] Open Scope string_scope.
#[local] Open Scope list_scope.
#[local] Open Scope Z_scope.

(** ** Integers *)

Fixpoint parse_digits (s : string) (acc : Z) : option Z :=
  match s with
  | EmptyString => Some acc
  | String c s => if is_ascii_digit c then parse_digits s (acc * 10 + (code c - 48)) else None
  end.

Definition within (lo hi z : Z) : option Z := if (lo <=? z) && (z <=? hi) then Some z else None.

(** [str::parse::<i64>]: a sign, digits, and the value in range. *)
Definition parse_i64 (s : string) : option Z :=
  match s with
  | EmptyString => None
  | String c EmptyString => if is_ascii_digit c then Some (code c - 48) else None
  | String c rest =>
      if bool_decide (c = "-"%char) then parse_digits rest 0 ≫= fun n => within (- 2 ^ 63) (2 ^ 63 - 1) (- n)
      else if bool_decide (c = "+"%char) then parse_digits rest 0 ≫= within (- 2 ^ 63) (2 ^ 63 - 1)
      else parse_digits s 0 ≫= within (- 2 ^ 63) (2 ^ 63 - 1)
  end.

(** [str::parse::<u16>] *)
Definition parse_u16 (s : string) : option Z :=
  match s with
  | EmptyString => None
  | String c EmptyString => if is_ascii_digit c then Some (code c - 48) else None
  | String c rest => parse_digits (if bool_decide (c = "+"%char) then rest else s) 0 ≫= within 0 65535
  end.

Lemma parse_digits_nonneg (s : string) (acc n : Z) : 0 <= acc -> parse_digits s acc = Some n -> 0 <= n.
Proof.
  revert acc. induction s as [|c s IH]; intros acc Hacc; cbn; [by intros [= <-]|].
  destruct (is_ascii_digit c) eqn:Hc; [|done]. apply IH. unfold is_ascii_digit in Hc. bools. lia.
Qed.

Lemma parse_u16_range (s : string) (n : Z) : parse_u16 s = Some n -> 0 <= n <= 65535.
Proof.
  unfold parse_u16. destruct s as [|c [|d s]]; [done| |].
  - destruct (is_ascii_digit c) eqn:Hc; [|done]. intros [= <-]. unfold is_ascii_digit in Hc. bools. lia.
  - destruct (parse_digits _ 0) as [m|]; [|done]. cbn. unfold within.
    destruct ((0 <=? m) && (m <=? 65535)) eqn:E; [|done]. intros [= <-]. bools. lia.
Qed.

(** ** Lines and words *)

Definition newline : ascii := "010"%char.
Definition carriage_return : ascii := "013"%char.

(** The pieces between newlines; text that ends in a newline has no last empty piece. *)
Fixpoint split_lines (s : string) : list string :=
  match s with
  | EmptyString => []
  | String c s =>
      if bool_decide (c = newline) then "" :: split_lines s
      else match split_lines s with
           | l :: ls => String c l :: ls
           | [] => [String c ""]
           end
  end.

Definition strip_cr (l : string) : string :=
  match string_rev l with
  | String c r => if bool_decide (c = carriage_return) then string_rev r else l
  | EmptyString => l
  end.

(** [str::lines] *)
Definition lines (s : string) : list string := map strip_cr (split_lines s).

Definition flush_word (word : string) : list string :=
  match word with EmptyString => [] | _ => [string_rev word] end.

(** [str::split_whitespace]; [word] is the word so far, reversed. *)
Fixpoint words (s word : string) : list string :=
  match s with
  | EmptyString => flush_word word
  | String a s1 =>
      if ws1 a then flush_word word ++ words s1 ""
      else match s1 with
           | EmptyString => words s1 (String a word)
           | String b s2 =>
               if ws2 a b then flush_word word ++ words s2 ""
               else match s2 with
                    | EmptyString => words s1 (String a word)
                    | String c s3 => if ws3 a b c then flush_word word ++ words s3 "" else words s1 (String a word)
                    end
           end
  end.
Definition split_whitespace (s : string) : list string := words s "".

(** ** UTF-8

    [std::str::from_utf8] and [String::from_utf8_lossy]: text is cut into characters; of what is malformed, the longest
    start of a character counts as one piece. *)

(** How a character that begins with this byte goes on: the bytes to come, and the range of the next one. *)
Definition utf8_lead (b : Z) : option (nat * Z * Z) :=
  if (0xC2 <=? b) && (b <=? 0xDF) then Some (0%nat, 0x80, 0xBF)
  else if b =? 0xE0 then Some (1%nat, 0xA0, 0xBF)
  else if b =? 0xED then Some (1%nat, 0x80, 0x9F)
  else if (0xE1 <=? b) && (b <=? 0xEF) then Some (1%nat, 0x80, 0xBF)
  else if b =? 0xF0 then Some (2%nat, 0x90, 0xBF)
  else if b =? 0xF4 then Some (2%nat, 0x80, 0x8F)
  else if (0xF1 <=? b) && (b <=? 0xF3) then Some (2%nat, 0x80, 0xBF)
  else None.

(** The pieces, [None] for a malformed one.  [begun] is the start of a character with what is missing: the next byte's range, and
    how many follow it. *)
Fixpoint utf8_pieces (s : string) (begun : option (string * nat * Z * Z)) : list (option string) :=
  match s with
  | EmptyString => match begun with Some _ => [None] | None => [] end
  | String c s =>
      let start :=
        if code c <? 0x80 then Some (String c "") :: utf8_pieces s None
        else match utf8_lead (code c) with
             | Some (more, lo, hi) => utf8_pieces s (Some (String c "", more, lo, hi))
             | None => None :: utf8_pieces s None
             end in
      match begun with
      | None => start
      | Some (front, more, lo, hi) =>
          if (lo <=? code c) && (code c <=? hi) then
            match more with
            | O => Some (front +:+ String c "") :: utf8_pieces s None
            | S more => utf8_pieces s (Some (front +:+ String c "", more, 0x80, 0xBF))
            end
          else None :: start
      end
  end.

Definition is_utf8 (s : string) : bool := forallb (fun p => match p with Some _ => true | None => false end) (utf8_pieces s None).

Definition replacement_character : string := String "239" (String "191" (String "189" "")).

Definition from_utf8_lossy (s : string) : string :=
  foldr (fun p rest => default replacement_character p +:+ rest) "" (utf8_pieces s None).

Example lines_sample : lines ("a" +:+ String carriage_return (String newline (String newline "b c"))) = ["a"; ""; "b c"].
Proof. reflexivity. Qed.
Example lines_last : lines (String newline "x") = [""; "x"] /\ lines ("x" +:+ String newline "") = ["x"].
Proof. split; reflexivity. Qed.
Example words_sample : split_whitespace "  ab  c " = ["ab"; "c"].
Proof. reflexivity. Qed.
Example utf8_sample :
  is_utf8 (String "228" (String "184" (String "173" "a"))) = true /\ is_utf8 (String "192" (String "175" "")) = false /\
  from_utf8_lossy (String "228" (String "184" "a")) = replacement_character +:+ "a".
Proof. repeat split; reflexivity. Qed.

(** UTF-8 is read as it is. *)
Lemma utf8_pieces_join (s : string) (begun : option (string * nat * Z * Z)) :
  forallb (fun p => match p with Some _ => true | None => false end) (utf8_pieces s begun) = true ->
  foldr (fun p rest => default replacement_character p +:+ rest) "" (utf8_pieces s begun)
    = match begun with Some (front, _, _, _) => front | None => "" end +:+ s.
Proof.
  revert begun. induction s as [|c s IH]; intros begun; [destruct begun as [[[[front more] lo] hi]|]; simpl; done|].
  assert (forall front more lo hi, forallb (fun p => match p with Some _ => true | None => false end)
            (utf8_pieces s (Some (front, more, lo, hi))) = true ->
          foldr (fun p rest => default replacement_character p +:+ rest) "" (utf8_pieces s (Some (front, more, lo, hi))) = front +:+ s) as Hgo
    by (intros front more lo hi; apply (IH (Some (front, more, lo, hi)))).
  specialize (IH None). simpl in IH. simpl. destruct begun as [[[[front more] lo] hi]|].
  - destruct (_ && _); [|done]. destruct more as [|more]; simpl; intros Hs.
    + rewrite (IH Hs). by rewrite app_assoc_str.
    + rewrite (Hgo _ _ _ _ Hs). by rewrite app_assoc_str.
  - destruct (code c <? 128); simpl; [intros Hs; by rewrite (IH Hs)|].
    destruct (utf8_lead (code c)) as [[[more lo] hi]|]; simpl; [|done]. intros Hs. by rewrite (Hgo _ _ _ _ Hs).
Qed.

Lemma from_utf8_lossy_valid (s : string) : is_utf8 s = true -> from_utf8_lossy s = s.
Proof. apply utf8_pieces_join. Qed.
