(* ===== verification/Exif.v ===== *)
(** * EXIF metadata

    core/exif_parser.rs: what is made of the tags of a photo.  The date it was taken goes from the
    text of its tag to Unix seconds at the width of the integers of the code, and is equivalent to
    the calendar; a coordinate goes from three rationals to decimal degrees in binary64.  The tags
    themselves are read by kamadak-exif. *)

From Stdlib Require Import Strings.String Strings.Ascii Floats.SpecFloat.
From S2P Require Import Prelude Errors Domain Text Parse.

#[local] Open Scope string_scope.
#[local] Open Scope list_scope.
#[local] Open Scope Z_scope.

(** ** Signed 64-bit arithmetic

    Without overflow checks every operation wraps. *)
Definition i64 (z : Z) : Z := (z + 2 ^ 63) mod 2 ^ 64 - 2 ^ 63.
Definition u64_of_i64 (z : Z) : Z := z mod 2 ^ 64.

Lemma i64_small (z : Z) : - 2 ^ 63 <= z < 2 ^ 63 -> i64 z = z.
Proof. intros H. unfold i64. rewrite Z.mod_small; lia. Qed.

(** [text.split([':', ' '])] *)
Fixpoint split_fields (s : string) : list string :=
  match s with
  | EmptyString => [""]
  | String c s =>
      if bool_decide (c = ":"%char) || bool_decide (c = " "%char) then "" :: split_fields s
      else match split_fields s with
           | f :: fs => String c f :: fs
           | [] => [String c ""]
           end
  end.

(** ** Days since the epoch

    Every division is of a number that is not negative, or the code's own truncating one. *)
Definition days_from_civil (year month day : Z) : Z :=
  let year := if month <=? 2 then i64 (year - 1) else year in
  let era := Z.quot (if year >=? 0 then year else i64 (year - 399)) 400 in
  let year_of_era := i64 (year - i64 (era * 400)) in
  let month := i64 (month + if month >? 2 then -3 else 9) in
  let day_of_year := i64 (i64 (Z.quot (i64 (i64 (153 * month) + 2)) 5 + day) - 1) in
  let day_of_era := i64 (i64 (i64 (i64 (year_of_era * 365) + Z.quot year_of_era 4) - Z.quot year_of_era 100) + day_of_year) in
  i64 (i64 (i64 (era * 146097) + day_of_era) - 719468).

Definition exif_datetime_to_unix (text : string) : option Z :=
  match split_fields text with
  | y :: mo :: d :: h :: mi :: s :: _ =>
      year ← parse_i64 y;
      month ← parse_i64 mo;
      day ← parse_i64 d;
      hour ← parse_i64 h;
      minute ← parse_i64 mi;
      second ← parse_i64 s;
      if (year <? 1970) || negb ((1 <=? month) && (month <=? 12)) || negb ((1 <=? day) && (day <=? 31))
      then None
      else
        let days := days_from_civil year month day in
        Some (u64_of_i64 (i64 (i64 (i64 (i64 (days * 86400) + i64 (hour * 3600)) + i64 (minute * 60)) + second)))
  | _ => None
  end.

(** ** Tags

    What kamadak-exif reads from a container: the value of each tag of the primary image.  Its rationals are turned into
    floats, and values that are not text into text, by it. *)

Inductive exif_tag :=
  | Orientation | Make | Model | Software | LensModel | FocalLength | ExposureTime | FNumber | PhotographicSensitivity
  | DateTimeOriginal | GPSLatitude | GPSLatitudeRef | GPSLongitude | GPSLongitudeRef.

#[export] Instance exif_tag_eq_dec : EqDecision exif_tag.
Proof. solve_decision. Defined.

Inductive exif_value :=
  | ExifAscii (components : list string)
  | ExifShort (values : list Z)
  | ExifRational (values : list (Z * Z))
  | ExifOther.

Abbreviation exif_fields := (exif_tag -> option exif_value).

Class Kamadak := {
  read_from_container : list byte -> option exif_fields;
  to_f64 : Z * Z -> f64;
  display_value : exif_tag -> exif_value -> string
}.

Record ExifData := mkExifData {
  ex_orientation : option Z; ex_date_taken : option Z; ex_latitude : option string; ex_longitude : option string;
  ex_make : option string; ex_model : option string; ex_software : option string; ex_lens_model : option string;
  ex_focal_length : option f64; ex_exposure_time : option f64; ex_f_number : option f64; ex_iso : option Z }.

Definition EXIF_FETCH_LIMIT : Z := 32 * 1024 * 1024.

(** [{:.6}] of an [f64]: the nearest multiple of a millionth, the even one of two. *)
Definition round_half_even (n d : Z) : Z :=
  let q := n / d in
  match 2 * (n mod d) ?= d with Lt => q | Gt => q + 1 | Eq => q + q mod 2 end.

Definition millionths (m : positive) (e : Z) : Z :=
  if 0 <=? e then Zpos m * 10 ^ 6 * 2 ^ e else round_half_even (Zpos m * 10 ^ 6) (2 ^ (- e)).

(** The last six digits. *)
Definition six_digits (n : Z) : string := substring 1 6 (pretty (10 ^ 6 + n)).

Definition signed (minus : bool) (s : string) : string := if minus then "-" +:+ s else s.

Definition fixed6 (x : f64) : string :=
  match x with
  | S754_nan => "NaN"
  | S754_infinity minus => signed minus "inf"
  | S754_zero minus => signed minus "0.000000"
  | S754_finite minus m e =>
      let n := millionths m e in
      signed minus (pretty (n / 10 ^ 6) +:+ "." +:+ six_digits (n mod 10 ^ 6))
  end.

Definition f64_of_Z (z : Z) : f64 := binary_normalize 53 1024 z 0 false.
Definition f64_add : f64 -> f64 -> f64 := SFadd 53 1024.
Definition f64_div : f64 -> f64 -> f64 := SFdiv 53 1024.

Section Tags.
Context `{Kamadak}.

Definition short_value (v : exif_value) : option Z := match v with ExifShort values => head values | _ => None end.

Definition rational_value (v : option exif_value) : option f64 :=
  match v with Some (ExifRational values) => to_f64 <$> head values | _ => None end.

Definition display_string (tag : exif_tag) (v : exif_value) : option string :=
  match v with
  | ExifAscii components =>
      Some (trim (trim_end_matches "000"%char (foldr (fun c rest => from_utf8_lossy c +:+ rest) "" components)))
  | _ => Some (display_value tag v)
  end.

Definition tag_string (fields : exif_fields) (tag : exif_tag) : option string := fields tag ≫= display_string tag.

(** Degrees, minutes and seconds with their hemisphere. *)
Definition decimal_degrees (degrees minutes seconds : f64) (reference : string) : f64 :=
  let decimal := f64_add (f64_add degrees (f64_div minutes (f64_of_Z 60))) (f64_div seconds (f64_of_Z 3600)) in
  if starts_with "S" reference || starts_with "W" reference then SFopp decimal else decimal.

Definition gps_coordinate (value_tag ref_tag : exif_tag) (fields : exif_fields) : option string :=
  match fields value_tag with
  | None => None
  | Some values =>
      let reference := default "" (tag_string fields ref_tag) in
      match values with
      | ExifRational [degrees; minutes; seconds] =>
          Some (fixed6 (decimal_degrees (to_f64 degrees) (to_f64 minutes) (to_f64 seconds) reference))
      | _ => None
      end
  end.

Definition exif_from_bytes (bytes : list byte) : Res ExifData :=
  match read_from_container bytes with
  | None => Err (EProtocol (Msg "exif.parse_failed" []))
  | Some fields =>
      Ok {| ex_orientation := fields Orientation ≫= short_value;
            ex_date_taken := tag_string fields DateTimeOriginal ≫= exif_datetime_to_unix;
            ex_latitude := gps_coordinate GPSLatitude GPSLatitudeRef fields;
            ex_longitude := gps_coordinate GPSLongitude GPSLongitudeRef fields;
            ex_make := tag_string fields Make;
            ex_model := tag_string fields Model;
            ex_software := tag_string fields Software;
            ex_lens_model := tag_string fields LensModel;
            ex_focal_length := rational_value (fields FocalLength);
            ex_exposure_time := rational_value (fields ExposureTime);
            ex_f_number := rational_value (fields FNumber);
            ex_iso := fields PhotographicSensitivity ≫= short_value |}
  end.
End Tags.

(** ** The calendar *)

Definition leap (y : Z) : bool := (y mod 4 =? 0) && negb (y mod 100 =? 0) || (y mod 400 =? 0).

Definition days_in_month (leap_year : bool) (m : Z) : Z :=
  if m =? 2 then if leap_year then 29 else 28
  else if bool_decide (m ∈ [4; 6; 9; 11]) then 30 else 31.

(** The days of the years before [1970 + n] and of the months before the [n]th of a year. *)
Fixpoint years_days (n : nat) : Z :=
  match n with
  | O => 0
  | S n => years_days n + if leap (1970 + Z.of_nat n) then 366 else 365
  end.

Fixpoint months_days (leap_year : bool) (n : nat) : Z :=
  match n with
  | O => 0
  | S n => months_days leap_year n + days_in_month leap_year (Z.of_nat n + 1)
  end.

Definition calendar_days (y m d : Z) : Z :=
  years_days (Z.to_nat (y - 1970)) + months_days (leap y) (Z.to_nat (m - 1)) + (d - 1).

(** ** The equivalence *)

(** The number of leap years up to [y]. *)
Definition leaps (y : Z) : Z := y / 4 - y / 100 + y / 400.

Lemma div_step (n y : Z) : 0 < n -> (y + 1) / n = y / n + if (y + 1) mod n =? 0 then 1 else 0.
Proof.
  intros Hn. pose proof (Z.div_mod y n ltac:(lia)). pose proof (Z.mod_pos_bound y n Hn).
  pose proof (Z.div_mod (y + 1) n ltac:(lia)). pose proof (Z.mod_pos_bound (y + 1) n Hn).
  destruct ((y + 1) mod n =? 0) eqn:E; bools; nia.
Qed.

Lemma mod_divides (a b y : Z) : 0 < a -> 0 < b -> y mod (a * b) = 0 -> y mod a = 0.
Proof.
  intros Ha Hb H. apply Z.mod_divide in H as [k ->]; [|lia]. apply Z.mod_divide; [lia|]. exists (k * b). lia.
Qed.

Lemma leaps_step (y : Z) : leaps (y + 1) = leaps y + if leap (y + 1) then 1 else 0.
Proof.
  unfold leaps, leap. rewrite !div_step by lia.
  pose proof (mod_divides 100 4 (y + 1) ltac:(lia) ltac:(lia)) as H400. change (100 * 4) with 400 in H400.
  pose proof (mod_divides 4 25 (y + 1) ltac:(lia) ltac:(lia)) as H100. change (4 * 25) with 100 in H100.
  destruct ((y + 1) mod 4 =? 0) eqn:E4, ((y + 1) mod 100 =? 0) eqn:E100, ((y + 1) mod 400 =? 0) eqn:E400; bools; simpl; lia.
Qed.

Lemma years_days_closed (n : nat) :
  years_days n = 365 * Z.of_nat n + leaps (1969 + Z.of_nat n) - leaps 1969.
Proof.
  induction n as [|n IH]; [reflexivity|]. cbn [years_days]. rewrite IH.
  replace (1969 + Z.of_nat (S n)) with (1969 + Z.of_nat n + 1) by lia. rewrite leaps_step.
  replace (1969 + Z.of_nat n + 1) with (1970 + Z.of_nat n) by lia. destruct (leap _); lia.
Qed.

(** The days from the first of March of year 0 to the one of [y]. *)
Lemma era_days (y : Z) : 0 <= y ->
  let era := y / 400 in let yoe := y - era * 400 in
  era * 146097 + (yoe * 365 + yoe / 4 - yoe / 100) = 365 * y + leaps y.
Proof.
  intros Hy. cbv zeta. unfold leaps.
  pose proof (Z.div_mod y 400 ltac:(lia)) as Hd. pose proof (Z.mod_pos_bound y 400 ltac:(lia)) as Hm.
  set (e := y / 400) in *. clearbody e. set (r := y mod 400) in *. clearbody r.
  replace (y - e * 400) with r by lia. subst y.
  assert ((400 * e + r) / 4 = r / 4 + e * 100) by (rewrite <- Z.div_add by lia; f_equal; lia).
  assert ((400 * e + r) / 100 = r / 100 + e * 4) by (rewrite <- Z.div_add by lia; f_equal; lia).
  assert ((400 * e + r) / 400 = e) by (rewrite Z.mul_comm, Z.div_add_l, Z.div_small; lia).
  lia.
Qed.

(** The days of the months from March to the one before [m], as the code counts them. *)
Lemma month_days (leap_year : bool) (m : Z) : 1 <= m <= 12 ->
  months_days leap_year (Z.to_nat (m - 1)) =
  (153 * (m + if m >? 2 then -3 else 9) + 2) / 5 - (if m <=? 2 then 306 else if leap_year then -60 else -59).
Proof.
  intros Hm.
  assert (m = 1 \/ m = 2 \/ m = 3 \/ m = 4 \/ m = 5 \/ m = 6 \/ m = 7 \/ m = 8 \/ m = 9 \/ m = 10 \/ m = 11 \/ m = 12)
    as Hcases by lia.
  do 11 (destruct Hcases as [-> |Hcases]; [by destruct leap_year|]). subst m. by destruct leap_year.
Qed.

Definition DATE_YEARS : Z := 10 ^ 10.

(** Below a year in which nothing wraps, the code's days are those of the calendar. *)
Lemma days_from_civil_calendar (y m d : Z) :
  1970 <= y < DATE_YEARS -> 1 <= m <= 12 -> 1 <= d <= 31 -> days_from_civil y m d = calendar_days y m d.
Proof.
  unfold DATE_YEARS. intros Hy Hm Hd. unfold calendar_days. rewrite (month_days (leap y) m Hm), years_days_closed, Z2Nat.id by lia.
  unfold days_from_civil. set (y' := if m <=? 2 then i64 (y - 1) else y).
  assert (y' = if m <=? 2 then y - 1 else y) as Hy' by (subst y'; case_test; [apply i64_small; lia|done]).
  clearbody y'.
  assert (0 <= y' < DATE_YEARS) as Hb by (unfold DATE_YEARS; rewrite Hy'; case_test; bools; lia).
  unfold DATE_YEARS in Hb. replace (y' >=? 0) with true by (symmetry; apply Z.geb_le; lia). cbv zeta.
  set (m' := m + (if m >? 2 then -3 else 9)).
  assert (0 <= m' <= 11) as Hm' by (subst m'; case_test; bools; lia). rewrite (i64_small m') by lia.
  rewrite (Z.quot_div_nonneg y') by lia.
  pose proof (Z.div_mod y' 400 ltac:(lia)) as Hdiv. pose proof (Z.mod_pos_bound y' 400 ltac:(lia)) as Hmod.
  pose proof (era_days y' ltac:(lia)) as Hera. cbv zeta in Hera.
  set (e := y' / 400) in *. clearbody e. rewrite (i64_small (e * 400)) by lia. rewrite (i64_small (y' - e * 400)) by lia.
  set (r := y' - e * 400) in *. assert (0 <= r < 400) as Hr by lia. clearbody r.
  rewrite (i64_small (153 * m')), (i64_small (153 * m' + 2)), !Z.quot_div_nonneg by lia.
  assert (0 <= (153 * m' + 2) / 5 <= 340) as Hq by (split; [apply Z.div_pos; lia|apply Z.div_le_upper_bound; lia]).
  assert (0 <= r / 4 <= r) as H4 by (split; [apply Z.div_pos; lia|apply Z.div_le_upper_bound; lia]).
  assert (0 <= r / 100 <= r) as H100 by (split; [apply Z.div_pos; lia|apply Z.div_le_upper_bound; lia]).
  set (q := (153 * m' + 2) / 5) in *. clearbody q.
  assert (0 <= e < 10 ^ 10) as He by lia. clear Hdiv Hmod.
  rewrite (i64_small (q + d)) by lia. rewrite (i64_small (q + d - 1)) by lia. rewrite (i64_small (r * 365)) by lia.
  rewrite (i64_small (r * 365 + r / 4)) by lia. rewrite (i64_small (r * 365 + r / 4 - r / 100)) by lia.
  rewrite (i64_small (r * 365 + r / 4 - r / 100 + (q + d - 1))) by lia. rewrite (i64_small (e * 146097)) by lia.
  rewrite (i64_small (e * 146097 + _)) by lia. rewrite i64_small by lia.
  replace (1969 + (y - 1970)) with (y - 1) by lia. change (leaps 1969) with 477.
  pose proof (leaps_step (y - 1)) as Hl. replace (y - 1 + 1) with y in Hl by lia.
  rewrite Hy' in Hera. destruct (m <=? 2), (leap y); lia.
Qed.

Lemma months_days_le (l : bool) (m : Z) : 1 <= m <= 12 -> 0 <= months_days l (Z.to_nat (m - 1)) <= 336.
Proof.
  intros Hm. rewrite month_days by done.
  assert (0 <= (153 * (m + if m >? 2 then -3 else 9) + 2) / 5 <= 337) as Hq.
  { destruct (m >? 2) eqn:E2; bools; (split; [apply Z.div_pos|apply Z.div_le_upper_bound]; lia). }
  split.
  - destruct (m <=? 2) eqn:E; bools; [|destruct l; lia].
    enough (306 <= (153 * (m + if m >? 2 then -3 else 9) + 2) / 5) by lia.
    apply Z.div_le_lower_bound; [lia|]. destruct (m >? 2) eqn:E2; bools; lia.
  - destruct (m <=? 2) eqn:E; bools; [lia|].
    enough ((153 * (m + if m >? 2 then -3 else 9) + 2) / 5 <= 276) by (destruct l; lia).
    apply Z.div_le_upper_bound; [lia|]. destruct (m >? 2) eqn:E2; bools; lia.
Qed.

Lemma calendar_days_bound (y m d : Z) :
  1970 <= y < DATE_YEARS -> 1 <= m <= 12 -> 1 <= d <= 31 -> 0 <= calendar_days y m d < 400 * DATE_YEARS.
Proof.
  intros Hy Hm Hd. unfold calendar_days, DATE_YEARS in *. pose proof (months_days_le (leap y) m Hm).
  assert (forall n, 0 <= years_days n <= 366 * Z.of_nat n) as Hyears.
  { induction n as [|n IH]; cbn [years_days]; [done|]. case_test; lia. }
  specialize (Hyears (Z.to_nat (y - 1970))). lia.
Qed.

(** C20.  The date of a photo, from its EXIF text to Unix seconds, is the calendar's: with at
    least six fields that are 64-bit numbers, a year from 1970 that is not astronomical, a month
    of 1 to 12 and a day of 1 to 31, and any clock fields of moderate size, the answer is the
    days of the civil calendar up to that day, plus the clock, taken modulo 2^64; so a valid
    date of a photo has exactly its seconds since the epoch.  Every text with fewer fields, a
    field that is no number, an earlier year, or a month or day out of range has no date. *)
Theorem exif_date_exact (text fy fm fd fh fi fs : string) (rest : list string)
    (Hfields : split_fields text = fy :: fm :: fd :: fh :: fi :: fs :: rest) :
  match parse_i64 fy, parse_i64 fm, parse_i64 fd, parse_i64 fh, parse_i64 fi, parse_i64 fs with
  | Some y, Some m, Some d, Some h, Some i, Some s =>
      (y < 1970 \/ ~ 1 <= m <= 12 \/ ~ 1 <= d <= 31 -> exif_datetime_to_unix text = None) /\
      (1970 <= y < DATE_YEARS -> 1 <= m <= 12 -> 1 <= d <= 31 ->
       Z.abs h < DATE_YEARS -> Z.abs i < DATE_YEARS -> Z.abs s < DATE_YEARS ->
       let seconds := calendar_days y m d * 86400 + h * 3600 + i * 60 + s in
       exif_datetime_to_unix text = Some (seconds mod 2 ^ 64) /\
       (0 <= h -> 0 <= i -> 0 <= s -> exif_datetime_to_unix text = Some seconds))
  | _, _, _, _, _, _ => exif_datetime_to_unix text = None
  end.
Proof.
  unfold exif_datetime_to_unix. rewrite Hfields.
  destruct (parse_i64 fy) as [y|]; [|done]. destruct (parse_i64 fm) as [m|]; [|done].
  destruct (parse_i64 fd) as [d|]; [|done]. destruct (parse_i64 fh) as [h|]; [|done].
  destruct (parse_i64 fi) as [i|]; [|done]. destruct (parse_i64 fs) as [s|]; [|done]. cbn [mbind option_bind].
  split.
  - intros Hbad. case_test; [done|]. bools. lia.
  - intros Hy Hm Hd Hh Hi Hs. case_test.
    { exfalso. apply orb_true_iff in Heqb as [Hb|Hb]; [apply orb_true_iff in Hb as [Hb|Hb]|];
        [by bools; lia|apply negb_true_iff, andb_false_iff in Hb as [Hb|Hb]; bools; lia..]. }
    pose proof (calendar_days_bound y m d Hy Hm Hd) as Hc. rewrite days_from_civil_calendar by done.
    unfold DATE_YEARS in *. set (c := calendar_days y m d) in *. clearbody c.
    rewrite (i64_small (c * 86400)) by lia. rewrite (i64_small (h * 3600)) by lia.
    rewrite (i64_small (c * 86400 + h * 3600)) by lia. rewrite (i64_small (i * 60)) by lia.
    rewrite (i64_small (c * 86400 + h * 3600 + i * 60)) by lia. rewrite i64_small by lia.
    split; [done|]. intros H1 H2 H3. unfold u64_of_i64. rewrite Z.mod_small; [done|lia].
Qed.

Lemma exif_date_exact_witness :
  exif_datetime_to_unix "2023:06:03 01:53:20" = Some 1685757200 /\ calendar_days 2023 6 3 = 19511.
Proof.
  split; [|vm_compute; reflexivity].
  pose proof (exif_date_exact "2023:06:03 01:53:20" "2023" "06" "03" "01" "53" "20" [] eq_refl) as H.
  cbv beta iota delta [parse_i64 parse_digits is_ascii_digit] in H.
  refine (proj2 (proj2 H _ _ _ _ _ _) _ _ _); vm_compute; done.
Defined.

(** The day of the month is not checked against the month, nor the clock against the day: the
    31st of February is the 3rd of March, and a negative hour on the first day of the epoch is
    the far future. *)
Lemma unchecked_dates :
  exif_datetime_to_unix "2023:02:31 00:00:00" = exif_datetime_to_unix "2023:03:03 00:00:00" /\
  exif_datetime_to_unix "1970:01:01 -1:00:00" = Some (2 ^ 64 - 3600).
Proof. split; vm_compute; reflexivity. Qed.

(** ** Coordinates *)

(** The nearest millionth: half of one is the most it is off. *)
Lemma round_half_even_near (n d : Z) : 0 < d -> 2 * Z.abs (n - round_half_even n d * d) <= d.
Proof.
  intros Hd. unfold round_half_even. pose proof (Z.div_mod n d ltac:(lia)) as Hn. pose proof (Z.mod_pos_bound n d Hd) as Hm.
  set (q := n / d) in *. set (r := n mod d) in *. clearbody q r. subst n.
  destruct (Z.compare_spec (2 * r) d) as [E|E|E].
  - pose proof (Z.mod_pos_bound q 2 ltac:(lia)). assert (q mod 2 = 0 \/ q mod 2 = 1) as [-> | ->] by lia; nia.
  - replace (d * q + r - q * d) with r by lia. lia.
  - replace (d * q + r - (q + 1) * d) with (r - d) by lia. lia.
Qed.

(** South and west are the coordinate of north and east with a minus sign before it, zero too; a rational without a
    value leaves no number. *)
Theorem hemispheres_mirror (degrees minutes seconds : f64) (reference : string) :
  let north := decimal_degrees degrees minutes seconds "N" in
  let x := decimal_degrees degrees minutes seconds reference in
  if starts_with "S" reference || starts_with "W" reference
  then match north with
       | S754_nan => fixed6 x = "NaN"
       | S754_zero true | S754_infinity true | S754_finite true _ _ => fixed6 north = "-" +:+ fixed6 x
       | _ => fixed6 x = "-" +:+ fixed6 north
       end
  else fixed6 x = fixed6 north.
Proof.
  unfold decimal_degrees. simpl. destruct (starts_with "S" reference || starts_with "W" reference); [|done].
  set (x := f64_add _ _). clearbody x. by destruct x as [[]|[]| |[] m e].
Qed.

(** The degrees of a fixture of the tests: 1 degree, 2 minutes, 3 seconds. *)
Example coordinate_sample :
  fixed6 (decimal_degrees (f64_of_Z 1) (f64_of_Z 2) (f64_of_Z 3) "N") = "1.034167" /\
  fixed6 (decimal_degrees (f64_of_Z 33) (f64_of_Z 51) (f64_div (f64_of_Z 12345) (f64_of_Z 1000)) "S") = "-33.853429".
Proof. split; vm_compute; reflexivity. Qed.

Lemma no_value_no_number : fixed6 (decimal_degrees (f64_div (f64_of_Z 0) (f64_of_Z 0)) (f64_of_Z 2) (f64_of_Z 3) "S") = "NaN".
Proof. vm_compute. reflexivity. Qed.
