(* ===== verification/Signals.v ===== *)
(** * Signals of the core

    core/cancellation.rs and the subscription of core/events.rs: the token that cancels an operation,
    as atomic steps of the threads that cancel and wait, over the documented watch channel of tokio; and
    the subscription that filters the events of a session.  A cancellation wakes everyone, whoever waits
    when; a subscription loses nothing it accepts without saying so. *)

From stdpp Require Import list.
From S2P Require Import Prelude Errors Domain.

#[local] Open Scope string_scope.
#[local] Open Scope list_scope.
#[local] Open Scope Z_scope.

(** ** Cancellation tokens

    A [watch] channel: its value, and the version that every [send_replace] raises.  A receiver has seen a
    version; [changed] answers when there is another. *)

(** [cancel]: before the swap, between the swap and [send_replace], returned. *)
Inductive canceller := CancelCalled | CancelSends | CancelReturned.
(** [cancelled]: before [subscribe]; then reading the value, the flag, and waiting for a change. *)
Inductive waiter := WaitCalled | WaitBorrows (seen : nat) | WaitLoads (seen : nat) | WaitChanges (seen : nat) | WaitReturned.

Record CancellationToken := mkToken {
  tk_cancelled : bool; tk_value : bool; tk_version : nat; tk_cancellers : list canceller; tk_waiters : list waiter }.

Definition token_new : CancellationToken := mkToken false false 0 [] [].

Definition is_cancelled (t : CancellationToken) : bool := tk_cancelled t.

Definition set_canceller (i : nat) (c : canceller) (t : CancellationToken) : CancellationToken :=
  mkToken (tk_cancelled t) (tk_value t) (tk_version t) (<[i := c]> (tk_cancellers t)) (tk_waiters t).
Definition set_waiter (i : nat) (w : waiter) (t : CancellationToken) : CancellationToken :=
  mkToken (tk_cancelled t) (tk_value t) (tk_version t) (tk_cancellers t) (<[i := w]> (tk_waiters t)).

Inductive token_event :=
  | TCancel                (* a thread calls [cancel] *)
  | TWait                  (* one calls [cancelled] *)
  | TCanceller (i : nat)   (* the next step of one *)
  | TWaiter (i : nat).

(** One step of [cancel]. *)
Definition canceller_step (i : nat) (t : CancellationToken) : option CancellationToken :=
  match tk_cancellers t !! i with
  | Some CancelCalled =>
      let was := tk_cancelled t in
      let t := mkToken true (tk_value t) (tk_version t) (tk_cancellers t) (tk_waiters t) in
      Some (set_canceller i (if was then CancelReturned else CancelSends) t)
  | Some CancelSends =>
      Some (set_canceller i CancelReturned (mkToken (tk_cancelled t) true (S (tk_version t)) (tk_cancellers t) (tk_waiters t)))
  | _ => None
  end.

(** One step of [cancelled]; waiting for a change is no step while there is none. *)
Definition waiter_step (i : nat) (t : CancellationToken) : option CancellationToken :=
  match tk_waiters t !! i with
  | Some WaitCalled => Some (set_waiter i (WaitBorrows (tk_version t)) t)
  | Some (WaitBorrows seen) => Some (set_waiter i (if tk_value t then WaitReturned else WaitLoads seen) t)
  | Some (WaitLoads seen) => Some (set_waiter i (if tk_cancelled t then WaitReturned else WaitChanges seen) t)
  | Some (WaitChanges seen) => if (seen =? tk_version t)%nat then None else Some (set_waiter i WaitReturned t)
  | _ => None
  end.

Definition token_step (e : token_event) (t : CancellationToken) : option CancellationToken :=
  match e with
  | TCancel => Some (mkToken (tk_cancelled t) (tk_value t) (tk_version t) (tk_cancellers t ++ [CancelCalled]) (tk_waiters t))
  | TWait => Some (mkToken (tk_cancelled t) (tk_value t) (tk_version t) (tk_cancellers t) (tk_waiters t ++ [WaitCalled]))
  | TCanceller i => canceller_step i t
  | TWaiter i => waiter_step i t
  end.

Fixpoint token_run (es : list token_event) (t : CancellationToken) : option CancellationToken :=
  match es with
  | [] => Some t
  | e :: es => match token_step e t with Some t => token_run es t | None => None end
  end.

(** Waiter [i] on its own, as far as it gets in so many steps. *)
Fixpoint waiter_alone (n : nat) (i : nat) (t : CancellationToken) : CancellationToken :=
  match n with
  | O => t
  | S n => match waiter_step i t with Some t => waiter_alone n i t | None => t end
  end.

(** [RequestOptions] *)
Record RequestOptions := mkRequestOptions { ro_cancellation : option CancellationToken }.
Definition with_cancellation (cancellation : CancellationToken) : RequestOptions := mkRequestOptions (Some cancellation).

(** ** Event subscriptions *)

Inductive EventStreamError := StreamLag (missed : Z) | StreamEnd.

(** What the broadcast receiver answers. *)
Inductive recv_answer := RecvEvent (event : ClientEvent) | RecvLagged (missed : Z) | RecvClosed.
Inductive try_answer := TryEvent (event : ClientEvent) | TryEmpty | TryLagged (missed : Z) | TryClosed.

Record EventSubscription := mkSubscription { es_filter : EventFilter; es_closed : bool }.

Definition subscription_new (filter : EventFilter) : EventSubscription := mkSubscription filter false.
Definition subscription_close (s : EventSubscription) : EventSubscription := mkSubscription (es_filter s) true.

(** [recv]: it answers and leaves what the receiver answers next; [None] when it still waits. *)
Fixpoint recv_loop (filter : EventFilter) (answers : list recv_answer)
  : option (result EventStreamError ClientEvent * list recv_answer) :=
  match answers with
  | [] => None
  | RecvEvent event :: answers =>
      if filter_accepts filter (event_kind event) then Some (Ok event, answers) else recv_loop filter answers
  | RecvLagged missed :: answers => Some (Err (StreamLag missed), answers)
  | RecvClosed :: answers => Some (Err StreamEnd, answers)
  end.

Definition recv (s : EventSubscription) (answers : list recv_answer)
  : option (result EventStreamError ClientEvent * list recv_answer) :=
  if es_closed s then Some (Err StreamEnd, answers) else recv_loop (es_filter s) answers.

Fixpoint try_recv_loop (filter : EventFilter) (answers : list try_answer)
  : option (result EventStreamError (option ClientEvent) * list try_answer) :=
  match answers with
  | [] => None
  | TryEvent event :: answers =>
      if filter_accepts filter (event_kind event) then Some (Ok (Some event), answers) else try_recv_loop filter answers
  | TryEmpty :: answers => Some (Ok None, answers)
  | TryLagged missed :: answers => Some (Err (StreamLag missed), answers)
  | TryClosed :: answers => Some (Err StreamEnd, answers)
  end.

Definition try_recv (s : EventSubscription) (answers : list try_answer)
  : option (result EventStreamError (option ClientEvent) * list try_answer) :=
  if es_closed s then Some (Err StreamEnd, answers) else try_recv_loop (es_filter s) answers.

(** ** No wake-up is lost *)

#[export] Instance canceller_eq_dec : EqDecision canceller.
Proof. solve_decision. Defined.

(** Who is between the swap and [send_replace]. *)
Definition sending (t : CancellationToken) : nat := length (filter (fun c => c = CancelSends) (tk_cancellers t)).

(** A waiter that found no cancellation in the channel has seen its first version. *)
Definition waiter_ok (t : CancellationToken) (w : waiter) : Prop :=
  match w with
  | WaitLoads seen | WaitChanges seen => seen = O
  | WaitBorrows seen => (seen <= tk_version t)%nat
  | WaitCalled => True
  | WaitReturned => tk_cancelled t = true
  end.

(** One thread ever sends, the one whose swap was the first. *)
Record token_ok (t : CancellationToken) : Prop := mkTokenOk {
  ok_once : (sending t + tk_version t)%nat = if tk_cancelled t then 1%nat else 0%nat;
  ok_value : tk_value t = negb (tk_version t =? 0)%nat;
  ok_returned : CancelReturned ∈ tk_cancellers t -> tk_cancelled t = true;
  ok_waiters : Forall (waiter_ok t) (tk_waiters t) }.

Lemma sending_insert (i : nat) (c d : canceller) (cs : list canceller) :
  cs !! i = Some c -> (length (filter (fun x => x = CancelSends) (<[i := d]> cs)) + (if decide (c = CancelSends) then 1 else 0)
    = length (filter (fun x => x = CancelSends) cs) + (if decide (d = CancelSends) then 1 else 0))%nat.
Proof.
  revert i. induction cs as [|x cs IH]; intros [|i]; simpl; [done..| |].
  - intros [= ->]. rewrite !filter_cons. repeat case_decide; simpl; lia.
  - intros Hi. specialize (IH i Hi). rewrite !filter_cons. repeat case_decide; simpl in *; lia.
Qed.

Lemma returned_insert (i : nat) (c : canceller) (cs : list canceller) :
  CancelReturned ∈ <[i := c]> cs -> c = CancelReturned \/ CancelReturned ∈ cs.
Proof.
  intros [j Hj]%list_elem_of_lookup. destruct (decide (i = j)) as [->|Hne].
  - apply list_lookup_insert_Some in Hj as [(_ & -> & _)|[_ Hj]]; [by left|right; by eapply list_elem_of_lookup_2].
  - rewrite list_lookup_insert_ne in Hj by done. right. by eapply list_elem_of_lookup_2.
Qed.

Lemma canceller_step_ok (i : nat) (t t' : CancellationToken) : token_ok t -> canceller_step i t = Some t' -> token_ok t'.
Proof.
  intros [Ho Hv Hr Hw]. unfold canceller_step. destruct (tk_cancellers t !! i) as [c|] eqn:Ei; [|done].
  assert (forall t', tk_cancelled t' = true -> (tk_version t <= tk_version t')%nat -> tk_waiters t' = tk_waiters t ->
            Forall (waiter_ok t') (tk_waiters t')) as Hw'.
  { intros u Hu Hle ->. eapply Forall_impl; [exact Hw|]. intros [|s|s|s|]; simpl; [done|lia|done|done|done]. }
  destruct c; [..|done]; intros [= <-].
  - pose proof (sending_insert i _ (if tk_cancelled t then CancelReturned else CancelSends) _ Ei) as Hs. unfold sending in Ho.
    split; [|exact Hv|done|apply Hw'; [done|simpl; lia|done]]. unfold sending. simpl.
    destruct (tk_cancelled t); simpl in *; repeat case_decide; try done; lia.
  - pose proof (sending_insert i _ CancelReturned _ Ei) as Hs. unfold sending in Ho. repeat case_decide; try done.
    assert (tk_cancelled t = true) as Hc by (destruct (tk_cancelled t); [done|lia]). rewrite Hc in Ho.
    split; [unfold sending; simpl; rewrite Hc; lia|done|intros _; exact Hc|apply Hw'; [exact Hc|simpl; lia|done]].
Qed.

Lemma waiter_step_ok (i : nat) (t t' : CancellationToken) : token_ok t -> waiter_step i t = Some t' -> token_ok t'.
Proof.
  intros [Ho Hv Hr Hw]. unfold waiter_step. destruct (tk_waiters t !! i) as [w|] eqn:Ei; [|done].
  pose proof (Forall_lookup_1 _ _ _ _ Hw Ei) as Hi.
  assert (forall w', waiter_ok t w' -> token_ok (set_waiter i w' t)) as Hgo.
  { intros w' Hw'. split; [done..|]. simpl. by apply Forall_insert. }
  destruct w as [|s|s|s|]; simpl in Hi; [intros [= <-]..|destruct (s =? tk_version t)%nat eqn:E; [done|]; intros [= <-]|done]; apply Hgo.
  - simpl. lia.
  - rewrite Hv. destruct (Nat.eqb_spec (tk_version t) 0); simpl; [lia|]. destruct (tk_cancelled t); [done|lia].
  - by destruct (tk_cancelled t) eqn:E; simpl.
  - simpl. apply Nat.eqb_neq in E. destruct (tk_cancelled t); [done|lia].
Qed.

Lemma token_step_ok (e : token_event) (t t' : CancellationToken) : token_ok t -> token_step e t = Some t' -> token_ok t'.
Proof.
  destruct e as [| |i|i]; [..|apply canceller_step_ok|apply waiter_step_ok]; intros [Ho Hv Hr Hw] [= <-].
  - split; simpl; [|done| |exact Hw].
    + unfold sending in *. simpl. rewrite filter_app, length_app. cbn. by rewrite Nat.add_0_r.
    + intros [?|Hin]%elem_of_app; [by apply Hr|]. by apply list_elem_of_singleton in Hin.
  - split; [done..|]. simpl. apply Forall_app. split; [exact Hw|by repeat constructor].
Qed.

Lemma token_run_ok (es : list token_event) (t t' : CancellationToken) : token_ok t -> token_run es t = Some t' -> token_ok t'.
Proof.
  revert t. induction es as [|e es IH]; intros t Ht; simpl; [by intros [= <-]|].
  destruct (token_step e t) as [u|] eqn:E; [|done]. apply IH. by eapply token_step_ok.
Qed.

Lemma alone_step (n i : nat) (t u : CancellationToken) : waiter_step i t = Some u -> waiter_alone (S n) i t = waiter_alone n i u.
Proof. simpl. by intros ->. Qed.

Lemma alone_returned (n i : nat) (t : CancellationToken) :
  tk_waiters t !! i = Some WaitReturned -> tk_waiters (waiter_alone n i t) !! i = Some WaitReturned.
Proof. intros Hi. destruct n as [|n]; [done|]. simpl. unfold waiter_step. by rewrite Hi. Qed.

(** However the threads that cancel and wait interleave: a wait ends only after a cancellation, a [cancel] that returned is seen,
    and once the first [cancel] has told the channel every wait ends by itself, whenever it began and wherever it is. *)
Theorem no_lost_wakeup (es : list token_event) (t : CancellationToken) :
  token_run es token_new = Some t ->
  (WaitReturned ∈ tk_waiters t \/ CancelReturned ∈ tk_cancellers t -> is_cancelled t = true) /\
  (sending t <= 1)%nat /\
  (is_cancelled t = true -> sending t = O -> forall i w, tk_waiters t !! i = Some w ->
     tk_waiters (waiter_alone 4 i t) !! i = Some WaitReturned).
Proof.
  intros Hrun. assert (token_ok t) as [Ho Hv Hr Hw].
  { eapply token_run_ok; [|exact Hrun]. split; [done|done| |constructor]. intros Hin. by apply not_elem_of_nil in Hin. }
  unfold is_cancelled. split_and!.
  - intros [Hin|Hin]; [|by apply Hr]. eapply Forall_forall in Hw; [|exact Hin]. exact Hw.
  - destruct (tk_cancelled t); lia.
  - intros Hc Hs i w Hi. rewrite Hc, Hs in Ho. simpl in Ho. pose proof (Forall_lookup_1 _ _ _ _ Hw Hi) as Hok.
    rewrite Ho in Hv. simpl in Hv. assert (i < length (tk_waiters t))%nat as Hl by (by eapply lookup_lt_Some).
    assert (forall x, <[i := x]> (tk_waiters t) !! i = Some x) as Hx by (intros x; by apply list_lookup_insert_eq).
    assert (forall n, tk_waiters (waiter_alone n i (set_waiter i WaitReturned t)) !! i = Some WaitReturned) as Hret by (intros n; apply alone_returned, Hx).
    destruct w as [|s|s|s|]; simpl in Hok.
    + rewrite (alone_step _ _ t (set_waiter i (WaitBorrows (tk_version t)) t)) by (unfold waiter_step; by rewrite Hi).
      rewrite (alone_step _ _ _ (set_waiter i WaitReturned (set_waiter i (WaitBorrows (tk_version t)) t))).
      * apply alone_returned. simpl. by rewrite list_insert_insert_eq.
      * unfold waiter_step. simpl. by rewrite Hx, Hv.
    + rewrite (alone_step _ _ t (set_waiter i WaitReturned t)); [apply Hret|]. unfold waiter_step. by rewrite Hi, Hv.
    + rewrite (alone_step _ _ t (set_waiter i WaitReturned t)); [apply Hret|]. unfold waiter_step. by rewrite Hi, Hc.
    + rewrite (alone_step _ _ t (set_waiter i WaitReturned t)); [apply Hret|]. unfold waiter_step. by rewrite Hi, Hok, Ho.
    + by apply alone_returned.
Qed.

(** While the first [cancel] is between its two steps another one returns, and a wait that is already waiting goes on. *)
Lemma second_cancel_returns_first :
  exists t, token_run [TWait; TWaiter 0; TWaiter 0; TWaiter 0; TCancel; TCancel; TCanceller 0; TCanceller 1] token_new = Some t /\
    tk_cancellers t = [CancelSends; CancelReturned] /\ tk_waiters t = [WaitChanges 0] /\ waiter_step 0 t = None.
Proof. eexists. split; [vm_compute; reflexivity|]. by split_and!. Qed.

(** ** Nothing is lost without saying so *)

(** What a subscriber is told that keeps asking until the stream ends. *)
Fixpoint told (n : nat) (s : EventSubscription) (answers : list recv_answer) : list (result EventStreamError ClientEvent) :=
  match n with
  | O => []
  | S n => match recv s answers with
           | Some (Ok event, answers) => Ok event :: told n s answers
           | Some (Err (StreamLag missed), answers) => Err (StreamLag missed) :: told n s answers
           | Some (Err StreamEnd, _) => [Err StreamEnd]
           | None => []
           end
  end.

(** Of what the receiver answers, what a filter lets through. *)
Fixpoint accepted (filter : EventFilter) (answers : list recv_answer) : list (result EventStreamError ClientEvent) :=
  match answers with
  | [] => []
  | RecvEvent event :: answers =>
      if filter_accepts filter (event_kind event) then Ok event :: accepted filter answers else accepted filter answers
  | RecvLagged missed :: answers => Err (StreamLag missed) :: accepted filter answers
  | RecvClosed :: _ => [Err StreamEnd]
  end.

(** A subscriber is told every event of the kinds it asked for, in order, every gap with its size, and the end. *)
Theorem subscription_exact (s : EventSubscription) (answers : list recv_answer) (n : nat) :
  (length answers <= n)%nat ->
  told n s answers = if es_closed s then (match n with O => [] | S _ => [Err StreamEnd] end) else accepted (es_filter s) answers.
Proof.
  unfold recv. destruct s as [f []]; simpl; [intros _; by destruct n|].
  revert answers. induction n as [|n IH]; intros answers Hn; [by destruct answers; simpl in *; [|lia]|].
  cbn [told]. unfold recv. cbn [es_closed es_filter].
  assert (forall k, (length k <= S n)%nat ->
    match recv_loop f k with
    | Some (Ok event, answers) => Ok event :: told n (mkSubscription f false) answers
    | Some (Err (StreamLag missed), answers) => Err (StreamLag missed) :: told n (mkSubscription f false) answers
    | Some (Err StreamEnd, _) => [Err StreamEnd]
    | None => []
    end = accepted f k) as Hgo; [|by apply Hgo].
  induction k as [|[event|missed|] k IHk]; simpl; intros Hk; [done| | |done].
  - destruct (filter_accepts f (event_kind event)); [rewrite IH by lia; done|]. apply IHk. lia.
  - rewrite IH by lia. done.
Qed.
