(* ===== verification/Adb.v ===== *)
(** * ADB transport

    core/transport/adb.rs: the devices adb lists, and a connection over a forwarded port that
    is removed again.  The adb program is a parameter: what a command answers and how it
    changes the state of its server ([AdbServer]). *)

From Stdlib Require Import Strings.String Strings.Ascii.
From stdpp Require Import gmap.
From S2P Require Import Prelude Errors Domain Text Parse.

#[local] Open Scope string_scope.
#[local] Open Scope list_scope.
#[local] Open Scope Z_scope.

Definition PHONE_PORT : Z := 10086.
Definition SERVICE_COMPONENT : string := "com.smartisanos.smartfolder.aoa/.service.ConnectionManagerService".

(** ** The device list *)

(** The three details of a line: each later one replaces an earlier. *)
Definition device_part (st : option string * option string * option string) (part : string)
  : option string * option string * option string :=
  let '(product, model, device) := st in
  match str_strip_prefix "product:" part with
  | Some value => (Some value, model, device)
  | None =>
      match str_strip_prefix "model:" part with
      | Some value => (product, Some value, device)
      | None =>
          match str_strip_prefix "device:" part with
          | Some value => (product, model, Some value)
          | None => st
          end
      end
  end.

Definition parse_device (line : string) : option AdbDevice :=
  match split_whitespace (trim line) with
  | [] => None
  | serial :: rest =>
      let '(product, model, device) := fold_left device_part (tail rest) (None, None, None) in
      Some (mkAdbDevice serial (default "unknown" (head rest)) product model device)
  end.

Definition parse_devices (output : string) : list AdbDevice := omap parse_device (drop 1 (lines output)).

Definition select_device (devices : list AdbDevice) (requested : option string) : Res AdbDevice :=
  let online := filter (fun d => ad_state d = "device") devices in
  match requested with
  | Some serial =>
      ok_or (List.find (fun d => bool_decide (ad_serial d = serial)) online)
        (EDeviceSelection (Msg "adb.device_unavailable" [serial]))
  | None =>
      match online with
      | [] => Err (EDeviceSelection (Msg "adb.no_online_device" []))
      | [device] => Ok device
      | _ => Err (EDeviceSelection (Msg "adb.multiple_devices" [pretty (zlen online)]))
      end
  end.

(** ** Commands *)

(** How the child process ends. *)
Inductive Process :=
  | SpawnFailed (error : string)
  | WaitFailed (error : string)
  | WaitTimedOut
  | CollectTimedOut
  | ReadStdoutFailed (error : string)
  | ReadStderrFailed (error : string)
  | Exited (success : bool) (stdout stderr : string).

Definition run_adb (adb_path : string) (args : list string) (p : Process) : Res string :=
  match p with
  | SpawnFailed e => Err (EAdbUnavailable (Msg "adb.spawn_failed" [adb_path; e]))
  | WaitFailed e => Err (ETransport (Msg "adb.wait_failed" [e]))
  | WaitTimedOut => Err (ETimeout (Msg "adb.command_timeout" [String.concat " " args]))
  | CollectTimedOut => Err (ETimeout (Msg "adb.collect_timeout" [String.concat " " args]))
  | ReadStdoutFailed e => Err (ETransport (Msg "adb.read_stdout_failed" [e]))
  | ReadStderrFailed e => Err (ETransport (Msg "adb.read_stderr_failed" [e]))
  | Exited true stdout _ => Ok stdout
  | Exited false stdout stderr =>
      Err (ETransport (Msg (if bool_decide (trim stderr = "") then trim stdout else trim stderr) []))
  end.

(** The adb server behind the program. *)
Class AdbServer := {
  adb_state : Type;
  adb_process : list string -> adb_state -> Process * adb_state
}.

Definition tcp (port : Z) : string := "tcp:" +:+ pretty port.

(** ** Forwards *)

Definition forward_port (serial line : string) : option Z :=
  match split_whitespace line with
  | listed_serial :: local :: remote :: _ =>
      if bool_decide (listed_serial <> serial) || bool_decide (remote <> tcp PHONE_PORT) then None
      else str_strip_prefix "tcp:" local ≫= parse_u16
  | _ => None
  end.

Definition parse_forward_ports (output serial : string) : gset Z :=
  list_to_set (omap (forward_port serial) (lines output)).

Definition unique_added_forward (before after : gset Z) : Res (option Z) :=
  match elements (after ∖ before) with
  | [port] => Ok (Some port)
  | [] => Ok None
  | added => Err (ETransport (Msg "adb.forward_cleanup_ambiguous" [pretty (zlen added)]))
  end.

Section Connect.
Context `{AdbServer} (adb_path : string).
(** [Debug] of a string, and the text of a number that does not parse. *)
Context (debug_str parse_error : string -> string).

Definition adb (args : list string) (s : adb_state) : Res string * adb_state :=
  let '(p, s) := adb_process args s in (run_adb adb_path args p, s).

Definition list_devices (s : adb_state) : Res (list AdbDevice) * adb_state :=
  match adb ["devices"; "-l"] s with
  | (Ok output, s) => (Ok (parse_devices output), s)
  | (Err e, s) => (Err e, s)
  end.

Definition list_args (serial : string) : list string := ["-s"; serial; "forward"; "--list"].
Definition forward_args (serial : string) : list string := ["-s"; serial; "forward"; "tcp:0"; tcp PHONE_PORT].
Definition remove_args (serial : string) (port : Z) : list string := ["-s"; serial; "forward"; "--remove"; tcp port].
Definition service_args (serial : string) : list string :=
  ["-s"; serial; "shell"; "am"; "startservice"; "--user"; "0"; "-n"; SERVICE_COMPONENT; "--ei"; "ADB_PORT"; pretty PHONE_PORT].

Definition list_forward_ports (serial : string) (s : adb_state) : Res (gset Z) * adb_state :=
  match adb (list_args serial) s with
  | (Ok output, s) => (Ok (parse_forward_ports output serial), s)
  | (Err e, s) => (Err e, s)
  end.

Definition cleanup_new_forwards (serial : string) (before : gset Z) (s : adb_state) : Res () * adb_state :=
  match list_forward_ports serial s with
  | (Err e, s) => (Err e, s)
  | (Ok after, s) =>
      match unique_added_forward before after with
      | Err e => (Err e, s)
      | Ok None => (Ok (), s)
      | Ok (Some port) =>
          match adb (remove_args serial port) s with
          | (Err e, s) => (Err e, s)
          | (Ok _, s) => (Ok (), s)
          end
      end
  end.

Record AdbForward := mkAdbForward { af_serial : string; af_local_port : Z; af_cleaned : bool }.

(** [AdbForward::cleanup] *)
Definition forward_cleanup (f : AdbForward) (s : adb_state) : Res () * AdbForward * adb_state :=
  if af_cleaned f then (Ok (), f, s)
  else match adb (remove_args (af_serial f) (af_local_port f)) s with
       | (Ok _, s) => (Ok (), mkAdbForward (af_serial f) (af_local_port f) true, s)
       | (Err e, s) => (Err e, f, s)
       end.

(** [Drop for AdbForward]: the same command, its answer ignored. *)
Definition forward_drop (f : AdbForward) (s : adb_state) : adb_state :=
  if af_cleaned f then s else (adb (remove_args (af_serial f) (af_local_port f)) s).2.

(** The forward of the phone's port, or what is left to say about it. *)
Definition open_forward (serial : string) (s : adb_state) : Res AdbForward * adb_state :=
  match list_forward_ports serial s with
  | (Err e, s) => (Err e, s)
  | (Ok before, s) =>
      match adb (forward_args serial) s with
      | (Err e, s) => (Err e, s)
      | (Ok output, s) =>
          match parse_u16 (trim output) with
          | Some port => (Ok (mkAdbForward serial port false), s)
          | None =>
              match cleanup_new_forwards serial before s with
              | (Err e, s) => (Err e, s)
              | (Ok _, s) =>
                  (Err (ETransport (Msg "adb.port_parse_failed" [debug_str (trim output); parse_error (trim output)])), s)
              end
          end
      end
  end.

(** [AdbConnector::connect]: [stream] is the last attempt to connect to the forwarded port
    before the deadline, [nodelay] the socket option.  The error paths after the forward drop
    its [AdbForward]. *)
Definition adb_connect (requested : option string) (stream : Z -> result string ()) (nodelay : option string) (s : adb_state)
  : Res (string * AdbForward) * adb_state :=
  match list_devices s with
  | (Err e, s) => (Err e, s)
  | (Ok devices, s) =>
      match select_device devices requested with
      | Err e => (Err e, s)
      | Ok device =>
          let serial := ad_serial device in
          match adb (service_args serial) s with
          | (Err e, s) => (Err e, s)
          | (Ok _, s) =>
              match open_forward serial s with
              | (Err e, s) => (Err e, s)
              | (Ok cleanup, s) =>
                  match stream (af_local_port cleanup) with
                  | Err e =>
                      (Err (ETransport (Msg "adb.forward_connect_failed" [pretty (af_local_port cleanup); e])),
                       forward_drop cleanup s)
                  | Ok _ =>
                      match nodelay with
                      | Some e => (Err (ETransport (Msg "adb.nodelay_failed" [e])), forward_drop cleanup s)
                      | None => (Ok (serial, cleanup), s)
                      end
                  end
              end
          end
      end
  end.

End Connect.

Example parse_devices_sample :
  parse_devices ("List of devices attached" +:+ String newline
    ("serial-1  device product:p model:M device:d transport_id:1" +:+ String newline (String newline "s2 offline")))
  = [mkAdbDevice "serial-1" "device" (Some "p") (Some "M") (Some "d"); mkAdbDevice "s2" "offline" None None None].
Proof. reflexivity. Qed.
