(* ===== verification/AdbProps.v ===== *)
(** * Forwards are removed again

    What a connection of Adb.v leaves of the forwarded ports of the adb server, from the
    documented behaviour of [adb forward]. *)

From Stdlib Require Import Strings.String.
From stdpp Require Import gmap.
From S2P Require Import Prelude Errors Domain Text Parse Adb.

#[local] Open Scope string_scope.
#[local] Open Scope list_scope.
#[local] Open Scope Z_scope.

Definition ports_of (serial : string) (f : gset (string * Z)) : gset Z :=
  set_map snd (filter (fun e => e.1 = serial) f).

Lemma elem_of_ports (serial : string) (f : gset (string * Z)) (port : Z) :
  port ∈ ports_of serial f <-> (serial, port) ∈ f.
Proof.
  unfold ports_of. rewrite elem_of_map. split.
  - intros ([s p] & -> & [Hs Hin]%elem_of_filter). cbn in *. by subst.
  - intros Hin. exists (serial, port). split; [done|]. by apply elem_of_filter.
Qed.

Definition exits (p : Process) : Prop := exists out err, p = Exited true out err.

(** The forwards to the phone's port, of every device.  Listing shows them; a forward to port
    zero adds one with a new port and prints it; a removal takes one away; a command that fails
    may or may not have had its effect; no other command here touches them. *)
Class AdbForwards `{AdbServer} := {
  forwards : adb_state -> gset (string * Z);
  list_law serial s : forwards (adb_process (list_args serial) s).2 = forwards s /\
    forall out err, (adb_process (list_args serial) s).1 = Exited true out err ->
    parse_forward_ports out serial = ports_of serial (forwards s);
  forward_law serial s :
    (exists port, ~ ((serial, port) ∈ forwards s) /\
       forwards (adb_process (forward_args serial) s).2 = {[(serial, port)]} ∪ forwards s /\
       forall out err n, (adb_process (forward_args serial) s).1 = Exited true out err ->
       parse_u16 (trim out) = Some n -> n = port) \/
    (forwards (adb_process (forward_args serial) s).2 = forwards s /\ ~ exits (adb_process (forward_args serial) s).1);
  remove_law serial port s :
    let s' := (adb_process (remove_args serial port) s).2 in
    forwards s' = forwards s ∖ {[(serial, port)]} \/
    (forwards s' = forwards s /\ ~ exits (adb_process (remove_args serial port) s).1);
  devices_law s : forwards (adb_process ["devices"; "-l"] s).2 = forwards s;
  service_law serial s : forwards (adb_process (service_args serial) s).2 = forwards s
}.

Section Props.
Context `{AdbForwards} (adb_path : string).

(** The commands work: a listing answers, a forward that is there can be removed, and a forward that is
    refused (the ports may be used up) is not made. *)
Definition working : Prop :=
  forall s serial,
    exits (adb_process (list_args serial) s).1 /\
    (forall port, (serial, port) ∈ forwards s -> exits (adb_process (remove_args serial port) s).1) /\
    (~ exits (adb_process (forward_args serial) s).1 -> forwards (adb_process (forward_args serial) s).2 = forwards s).

Lemma list_forward_ports_ok (serial : string) (s : adb_state) :
  let '(r, s') := list_forward_ports adb_path serial s in
  forwards s' = forwards s /\ (forall ports, r = Ok ports -> ports = ports_of serial (forwards s)) /\
  (working -> exists ports, r = Ok ports).
Proof.
  unfold list_forward_ports, adb. destruct (list_law serial s) as [Hkeep Hlist].
  pose proof (fun Hw : working => proj1 (Hw s serial)) as Hw.
  destruct (adb_process (list_args serial) s) as [p s']. cbn [fst snd] in *.
  destruct p as [| | | | | |[] out err]; cbn;
    (split; [done|]; split; [try done; try (by intros ports [= <-]; eapply Hlist)|intros Hx%Hw; by destruct Hx as (? & ? & [=])]) ||
    (split; [done|]; split; [intros ports [= <-]; by eapply Hlist|intros _; by eexists]).
Qed.

Lemma remove_ok (serial : string) (port : Z) (s : adb_state) :
  let '(r, s') := adb adb_path (remove_args serial port) s in
  (r = Ok (default "" (match r with Ok o => Some o | Err _ => None end)) -> forwards s' = forwards s ∖ {[(serial, port)]}) /\
  (forwards s' = forwards s ∖ {[(serial, port)]} \/ forwards s' = forwards s) /\
  (working -> (serial, port) ∈ forwards s -> exists out, r = Ok out).
Proof.
  unfold adb. pose proof (remove_law serial port s) as Hl. cbv zeta in Hl.
  pose proof (fun Hw : working => proj1 (proj2 (Hw s serial)) port) as Hw.
  destruct (adb_process (remove_args serial port) s) as [p s']. cbn [fst snd] in *.
  split; [|split].
  - intros Hr. destruct Hl as [?|[_ Hn]]; [done|]. destruct p as [| | | | | |[] out err]; try done.
    exfalso. apply Hn. by exists out, err.
  - destruct Hl as [?|[? _]]; [by left|by right].
  - intros Hx Hin. destruct (Hw Hx Hin) as (out & err & ->). by exists out.
Qed.

(** The forward a connection holds is new, and gone once it is dropped or cleaned up. *)
Definition no_forward_left (s s' : adb_state) : Prop :=
  (working -> forwards s' = forwards s) /\
  (forwards s' = forwards s \/ exists serial port, forwards s' = {[(serial, port)]} ∪ forwards s).

Definition holds_forward (f : AdbForward) (s s' : adb_state) : Prop :=
  af_cleaned f = false /\ ~ ((af_serial f, af_local_port f) ∈ forwards s) /\
  forwards s' = {[(af_serial f, af_local_port f)]} ∪ forwards s.

Lemma no_forward_same (s s' : adb_state) : forwards s' = forwards s -> no_forward_left s s'.
Proof. split; auto. Qed.

Lemma forward_dropped (f : AdbForward) (s s' : adb_state) :
  holds_forward f s s' -> no_forward_left s (forward_drop adb_path f s').
Proof.
  intros (Hfc & Hn & H3). unfold forward_drop. rewrite Hfc. pose proof (remove_ok (af_serial f) (af_local_port f) s') as Hr.
  destruct (adb adb_path _ s') as [r s4]. cbn [snd]. rewrite H3 in Hr. destruct Hr as (Hok & Hany & Hw). split.
  - intros Hx. destruct (Hw Hx) as (out' & ->); [set_solver|]. specialize (Hok eq_refl). set_solver.
  - destruct Hany as [Ha|Ha]; [left; set_solver|right; eauto].
Qed.

Lemma forward_cleaned (f f' : AdbForward) (s s' s'' : adb_state) :
  holds_forward f s s' -> forward_cleanup adb_path f s' = (Ok (), f', s'') ->
  forwards s'' = forwards s /\ forward_cleanup adb_path f' s'' = (Ok (), f', s'') /\ forward_drop adb_path f' s'' = s''.
Proof.
  intros (Hfc & Hn & H3). unfold forward_cleanup. rewrite Hfc. pose proof (remove_ok (af_serial f) (af_local_port f) s') as Hr.
  destruct (adb adb_path _ s') as [[out'|e] s4]; [|done]. intros [= <- <-]. destruct Hr as (Hok & _). specialize (Hok eq_refl).
  split; [rewrite H3 in Hok; set_solver|done].
Qed.

Context (debug_str parse_error : string -> string).

Lemma added_single (serial : string) (port : Z) (f : gset (string * Z)) :
  (serial, port) ∉ f -> elements (ports_of serial ({[(serial, port)]} ∪ f) ∖ ports_of serial f) = [port].
Proof.
  intros Hn. assert (ports_of serial ({[(serial, port)]} ∪ f) ∖ ports_of serial f = {[port]}) as ->.
  { apply set_eq. intros p. rewrite elem_of_difference, !elem_of_ports, elem_of_union, !elem_of_singleton.
    split; [intros [[[=]|Hin] Hx]; [done|by destruct Hx]|intros ->; split; [by left|done]]. }
  apply elements_singleton.
Qed.

(** Opening the forward: it is there exactly when it is returned, if the commands work. *)
Lemma open_forward_ok (serial : string) (s : adb_state) :
  let '(r, s') := open_forward adb_path debug_str parse_error serial s in
  match r with
  | Ok f => af_serial f = serial /\ af_cleaned f = false /\ ~ ((serial, af_local_port f) ∈ forwards s) /\
            forwards s' = {[(serial, af_local_port f)]} ∪ forwards s
  | Err _ => (working -> forwards s' = forwards s) /\
             (forwards s' = forwards s \/ exists port, forwards s' = {[(serial, port)]} ∪ forwards s)
  end.
Proof.
  unfold open_forward. pose proof (list_forward_ports_ok serial s) as Hl.
  destruct (list_forward_ports adb_path serial s) as [[before|e] s1]; destruct Hl as (H1 & Hb & Hw); [|by rewrite H1; auto].
  specialize (Hb before eq_refl). subst before. unfold adb. pose proof (forward_law serial s1) as Hf.
  pose proof (fun Hw : working => proj2 (proj2 (Hw s1 serial))) as Hw1.
  destruct (adb_process (forward_args serial) s1) as [p s2]. cbn [fst snd] in *. rewrite H1 in Hf.
  destruct (run_adb adb_path (forward_args serial) p) as [output|e] eqn:Hp.
  2: { split.
       - intros Hx. rewrite <- H1. apply (Hw1 Hx). intros (out & err & ->). by cbn in Hp.
       - destruct Hf as [(port & _ & Hf & _)|[Hf _]]; eauto. }
  assert (exists err, p = Exited true output err) as [err ->].
  { destruct p as [| | | | | |[] out err]; try done. injection Hp as ->. by exists err. }
  destruct Hf as [(port & Hn & Hf & Hport)|[_ Hx]]; [|by destruct Hx; eexists _, _].
  destruct (parse_u16 (trim output)) as [n|] eqn:Hparse.
  { assert (n = port) as -> by (by eapply Hport). done. }
  unfold cleanup_new_forwards. pose proof (list_forward_ports_ok serial s2) as Hl2.
  destruct (list_forward_ports adb_path serial s2) as [[after|e] s3]; destruct Hl2 as (H3 & Ha & Hw3).
  2: { rewrite H3, Hf. split; [intros Hx%Hw3; by destruct Hx|by right; exists port]. }
  specialize (Ha after eq_refl). subst after. unfold unique_added_forward. rewrite Hf, added_single by done.
  pose proof (remove_ok serial port s3) as Hr.
  destruct (adb adb_path (remove_args serial port) s3) as [[out|e] s4]; destruct Hr as (Hok & Hany & Hw4); rewrite H3, Hf in *.
  - specialize (Hok eq_refl). assert (forwards s4 = forwards s) as -> by set_solver. by auto.
  - split; [intros Hx; destruct (Hw4 Hx); [set_solver|done]|]. destruct Hany as [Ha|Ha]; [left; set_solver|right; by exists port].
Qed.

(** A connection over adb holds exactly one new forward of the phone's port; one that fails, before or after the forward
    was made, leaves the forwards as they were if the commands work, and at most its own forward otherwise. *)
Theorem adb_forward_removed (requested : option string) (stream : Z -> result string ()) (nodelay : option string) (s : adb_state) :
  let '(r, s') := adb_connect adb_path debug_str parse_error requested stream nodelay s in
  match r with
  | Ok (serial, f) => af_serial f = serial /\ holds_forward f s s'
  | Err _ => no_forward_left s s'
  end.
Proof.
  unfold adb_connect, list_devices, adb. pose proof (devices_law s) as Hd.
  destruct (adb_process ["devices"; "-l"] s) as [p s1]. cbn [snd] in Hd. cbn beta iota zeta.
  destruct (run_adb adb_path ["devices"; "-l"] p) as [output|e]; [|by apply no_forward_same].
  destruct (select_device (parse_devices output) requested) as [device|e]; [|by apply no_forward_same].
  pose proof (service_law (ad_serial device) s1) as Hs.
  destruct (adb_process (service_args (ad_serial device)) s1) as [p2 s2]. cbn [snd] in Hs.
  destruct (run_adb adb_path (service_args (ad_serial device)) p2) as [out|e]; [|by apply no_forward_same; rewrite Hs, Hd].
  pose proof (open_forward_ok (ad_serial device) s2) as Ho.
  destruct (open_forward adb_path debug_str parse_error (ad_serial device) s2) as [[f|e] s3]; rewrite Hs, Hd in Ho.
  2: { destruct Ho as [Hw [Hx|[port Hx]]]; split; eauto. }
  destruct Ho as (Hfs & Hfc & Hn & H3).
  assert (holds_forward f s s3) as Hh by (unfold holds_forward; by rewrite Hfs).
  destruct (stream (af_local_port f)) as [u|e]; [destruct nodelay as [e|]|]; by try apply forward_dropped.
Qed.
End Props.

(** A server with one phone that forwards one port. *)
Definition toy_line : string := "s tcp:5037 tcp:10086".

Definition toy_process (args : list string) (on : bool) : Process * bool :=
  if bool_decide (args = ["devices"; "-l"]) then (Exited true ("List" +:+ String newline "s device") "", on)
  else if bool_decide (args = list_args (nth 1 args "")) then (Exited true (if on then toy_line else "") "", on)
  else if bool_decide (args = forward_args "s") then
    if on then (Exited false "" "busy", on) else (Exited true "5037" "", true)
  else if bool_decide (args = remove_args "s" 5037) then (Exited true "" "", false)
  else if bool_decide (args = service_args "s") then (Exited true "" "", on)
  else (WaitTimedOut, on).

#[export] Instance toy_adb : AdbServer := {| adb_state := bool; adb_process := toy_process |}.

Definition toy_forwards (on : bool) : gset (string * Z) := if on then {[("s", 5037)]} else ∅.

Ltac toy := repeat (let H := fresh "Htoy" in case_bool_decide as H; [try discriminate H|clear H]).

#[export] Instance toy_adb_forwards : AdbForwards.
Proof.
  refine {| forwards := (toy_forwards : @adb_state toy_adb -> _) |}.
  - intros serial on. cbn. unfold toy_process. toy; (split; [done|]); try done.
    intros out err [= <- <-]. destruct on; [|apply set_eq; intros p; rewrite elem_of_ports; set_solver].
    destruct (decide (serial = "s")) as [->|Hs]; [done|]. apply set_eq. intros p. rewrite elem_of_ports.
    unfold parse_forward_ports. change (lines toy_line) with [toy_line]. cbn [omap list_omap].
    assert (forward_port serial toy_line = None) as ->; [|set_solver].
    unfold forward_port. change (split_whitespace toy_line) with ["s"; "tcp:5037"; "tcp:10086"]. cbv iota beta.
    by rewrite bool_decide_eq_true_2 by done.
  - intros serial on. cbn. unfold toy_process. toy.
    + injection Htoy as ->. destruct on; [right; split; [done|by intros (? & ? & [=])]|].
      left. exists 5037. split; [set_solver|]. split; [set_solver|]. by intros out err n [= <- <-] [= <-].
    + right. split; [done|by intros (? & ? & [=])].
  - intros serial port on. cbn. unfold toy_process. toy.
    + injection Htoy as -> Hp. change (pretty port = pretty 5037) in Hp. apply (inj pretty) in Hp. subst.
      left. destruct on; set_solver.
    + right. split; [done|by intros (? & ? & [=])].
  - intros on. cbn. unfold toy_process. by toy.
  - intros serial on. cbn. unfold toy_process. by toy.
Defined.

(** Its commands work. *)
Lemma toy_working : working.
Proof.
  intros on serial. split; [|split].
  - cbn. unfold toy_process. rewrite bool_decide_eq_false_2, bool_decide_eq_true_2 by done. eexists _, _. reflexivity.
  - intros port Hin. cbn in Hin |- *. destruct on; [|set_solver]. unfold toy_forwards in Hin. apply elem_of_singleton in Hin as [= -> ->].
    eexists _, _. reflexivity.
  - cbn. unfold toy_process. toy; [|done]. destruct on; [done|]. intros Hn. destruct Hn. eexists _, _. reflexivity.
Qed.

Lemma toy_connects :
  let connect := adb_connect "adb" (fun s => s) (fun s => s) None (fun _ => Ok ()) None in
  connect false = (Ok ("s", mkAdbForward "s" 5037 false), true) /\
  (forward_cleanup "adb" (mkAdbForward "s" 5037 false) true).2 = false.
Proof. by vm_compute. Qed.
