(* ===== verification/Devices.v ===== *)
(** * Discovered devices

    crates/handshaker-application/src/discovery.rs and the identity of devices in
    crates/handshaker-application/src/runtime.rs: the entries of all transports as one list,
    without duplicates and in a stable order, and the identity a connected phone adds. *)

From Stdlib Require Import Strings.String Strings.Ascii.
From stdpp Require Import gmap sorting.
From S2P Require Import Prelude Errors AppErrors Domain Text Usb.

#[local] Open Scope string_scope.
#[local] Open Scope list_scope.
#[local] Open Scope Z_scope.

Inductive TransportKind := TAdb | TWifi | TUsbAccessory.

#[export] Instance TransportKind_eq_dec : EqDecision TransportKind.
Proof. solve_decision. Defined.

Record AdbDetailDto := mkAdbDetail {
  adt_state : string; adt_product : option string; adt_model : option string; adt_device : option string }.
Record UsbDetailDto := mkUsbDetail {
  udt_bus_number : Z; udt_serial : option string; udt_vendor_id : Z; udt_product_id : Z; udt_mode : string }.

#[export] Instance AdbDetailDto_eq_dec : EqDecision AdbDetailDto.
Proof. solve_decision. Defined.
#[export] Instance UsbDetailDto_eq_dec : EqDecision UsbDetailDto.
Proof. solve_decision. Defined.

Record DeviceDescriptor := mkDevice {
  dd_id : string;
  dd_stable_id : option string;
  dd_display_name : option string;
  dd_model : option string;
  dd_transport : TransportKind;
  dd_transport_address : string;
  dd_available : bool;
  dd_adb : option AdbDetailDto;
  dd_usb : option UsbDetailDto
}.

#[export] Instance DeviceDescriptor_eq_dec : EqDecision DeviceDescriptor.
Proof. solve_decision. Defined.

(** [WifiDevice] of crates/handshaker-core/src/domain.rs. *)
Record WifiDevice := mkWifiDevice {
  wd_instance : string; wd_host : string; wd_addresses : list string; wd_port : Z; wd_txt : gmap string string }.

Definition adb_device_to_descriptor (d : AdbDevice) : DeviceDescriptor :=
  mkDevice (ad_serial d) None (Some (ad_serial d)) (ad_model d) TAdb (ad_serial d) (bool_decide (ad_state d = "device"))
    (Some (mkAdbDetail (ad_state d) (ad_product d) (ad_model d) (ad_device d))) None.

Definition wifi_device_to_descriptor (d : WifiDevice) : DeviceDescriptor :=
  let address := default (wd_host d) (head (wd_addresses d)) in
  mkDevice ("wifi-endpoint:" +:+ wd_instance d +:+ ":" +:+ address +:+ ":" +:+ pretty (wd_port d)) None (Some (wd_host d)) None
    TWifi (address +:+ ":" +:+ pretty (wd_port d)) true None None.

(** [{:04x}] of a [u16]. *)
Definition hex_u16 (n : Z) : string := hex_of_bytes (be_bytes 2 n).

Definition mode_token (m : AccessoryMode) : string := match m with Accessory => "Accessory" | Plain => "Plain" end.

Definition usb_device_to_descriptor (d : UsbAccessory) : DeviceDescriptor :=
  mkDevice (ua_location d) None (Some (default (ua_location d) (ua_serial d))) None TUsbAccessory
    ("0x" +:+ hex_u16 (ua_vendor_id d) +:+ ":0x" +:+ hex_u16 (ua_product_id d)) true None
    (Some (mkUsbDetail (ua_bus_number d) (ua_serial d) (ua_vendor_id d) (ua_product_id d) (mode_token (ua_mode d)))).

(** ** Duplicates and order *)

Definition dedup_key (d : DeviceDescriptor) : TransportKind * string := (dd_transport d, dd_id d).

(** [retain] with the set of the keys seen. *)
Fixpoint dedup_from (seen : list (TransportKind * string)) (devices : list DeviceDescriptor) : list DeviceDescriptor :=
  match devices with
  | [] => []
  | d :: devices =>
      if bool_decide (dedup_key d ∈ seen) then dedup_from seen devices
      else d :: dedup_from (dedup_key d :: seen) devices
  end.

Definition deduplicate_discovered_devices (devices : list DeviceDescriptor) : list DeviceDescriptor := dedup_from [] devices.

Definition device_sort_key (d : DeviceDescriptor) : Z * string * string :=
  (match dd_transport d with TAdb => 0 | TWifi => 1 | TUsbAccessory => 2 end,
   dd_transport_address d, default "" (dd_display_name d)).

(** The order of tuples. *)
Definition key_le (a b : Z * string * string) : Prop :=
  let '(a1, a2, a3) := a in let '(b1, b2, b3) := b in
  a1 < b1 \/ (a1 = b1 /\ (a2 <> b2 /\ string_le a2 b2 \/ (a2 = b2 /\ string_le a3 b3))).

Definition device_le (a b : DeviceDescriptor) : Prop := key_le (device_sort_key a) (device_sort_key b).

#[export] Instance device_le_dec : RelDecision device_le.
Proof.
  intros a b. unfold device_le, key_le. destruct (device_sort_key a) as [[a1 a2] a3], (device_sort_key b) as [[b1 b2] b3]. apply _.
Defined.

(** [sort_by], which is stable: an element goes before those it is not above. *)
Fixpoint sorted_insert (d : DeviceDescriptor) (l : list DeviceDescriptor) : list DeviceDescriptor :=
  match l with
  | [] => [d]
  | x :: l => if decide (device_le d x) then d :: x :: l else x :: sorted_insert d l
  end.

Definition sort_discovered_devices (devices : list DeviceDescriptor) : list DeviceDescriptor :=
  foldr sorted_insert [] devices.

(** ** Discovery *)

Record ListDevicesRequest := mkListDevices { lr_adb : bool; lr_wifi : bool; lr_usb : bool }.
Record DeviceDiscoveryWarning := mkWarning { dw_transport : TransportKind; dw_error : PublicError }.
Record DeviceDiscoveryResult := mkDiscovery { dr_devices : list DeviceDescriptor; dr_warnings : list DeviceDiscoveryWarning }.

Definition sweep {A : Type} (include : bool) (transport : TransportKind) (op : string) (describe : A -> DeviceDescriptor)
  (answer : Res (list A)) : list DeviceDescriptor * list DeviceDiscoveryWarning :=
  if include then
    match answer with
    | Ok found => (map describe found, [])
    | Err e => ([], [mkWarning transport (from_core_error e op)])
    end
  else ([], []).

Definition discover_devices (open : AppResult ()) (request : ListDevicesRequest) (adb : Res (list AdbDevice))
  (wifi : Res (list WifiDevice)) (usb : Res (list UsbAccessory)) : AppResult DeviceDiscoveryResult :=
  match open with
  | Err e => Err e
  | Ok _ =>
      let a := sweep (lr_adb request) TAdb "discover_devices.adb" adb_device_to_descriptor adb in
      let w := sweep (lr_wifi request) TWifi "discover_devices.wifi" wifi_device_to_descriptor wifi in
      let u := sweep (lr_usb request) TUsbAccessory "discover_devices.usb" usb_device_to_descriptor usb in
      Ok (mkDiscovery (sort_discovered_devices (deduplicate_discovered_devices (a.1 ++ w.1 ++ u.1))) (a.2 ++ w.2 ++ u.2))
  end.

(** ** Identity *)

Record DeviceInfoDto := mkInfoDto {
  if_serial : string; if_phone_id : option string; if_name : option string; if_model : option string;
  if_brand : option string; if_manufacturer : option string; if_smartisan_version : option string;
  if_apk_version : option string; if_apk_version_name : option string; if_root_path : string;
  if_external_storage_path : option string; if_disk_size : option Z; if_used_disk_size : option Z;
  if_battery_percentage : option Z; if_phone_locked : option bool }.

Definition device_info_to_dto (i : DeviceInfo) : DeviceInfoDto :=
  mkInfoDto (di_serial i) (di_phone_id i) (di_name i) (di_model i) (di_brand i) (di_manufacturer i)
    (di_smartisan_version i) (di_apk_version i) (di_apk_version_name i) (di_root_path i) (di_external_storage_path i)
    (di_disk_size i) (di_used_disk_size i) (di_battery_percentage i) (di_phone_locked i).

Definition reconcile_device_identity (d : DeviceDescriptor) (info : DeviceInfoDto) : DeviceDescriptor :=
  mkDevice (dd_id d)
    (match if_phone_id info with
     | Some id => if bool_decide (trim id = "") then None else Some ("phone:" +:+ id)
     | None => None
     end)
    (match if_name info with Some name => Some name | None => dd_display_name d end)
    (match if_model info with Some model => Some model | None => dd_model d end)
    (dd_transport d) (dd_transport_address d) (dd_available d) (dd_adb d) (dd_usb d).

(** [ConnectionTarget]; the address of Wi-Fi is parsed by the standard library, given as
    [parse_address]. *)
Inductive ConnectionTarget (A : Type) :=
  | TargetAdb (serial : option string)
  | TargetWifi (address : A)
  | TargetUsb (location_id : option string).
Arguments TargetAdb {A} _.
Arguments TargetWifi {A} _.
Arguments TargetUsb {A} _.

Definition connection_target_for {A : Type} (parse_address : string -> option A) (d : DeviceDescriptor)
  : AppResult (ConnectionTarget A) :=
  match dd_transport d with
  | TAdb => Ok (TargetAdb (Some (dd_id d)))
  | TWifi =>
      match parse_address (dd_transport_address d) with
      | Some address => Ok (TargetWifi address)
      | None => Err (public_new InvalidArgument "invalid wifi address")
      end
  | TUsbAccessory => Ok (TargetUsb (Some (dd_id d)))
  end.

(** ** What discovery guarantees *)

#[export] Instance device_le_total : Total device_le.
Proof.
  intros a b. unfold device_le, key_le. destruct (device_sort_key a) as [[a1 a2] a3], (device_sort_key b) as [[b1 b2] b3].
  destruct (Ztrichotomy a1 b1) as [?|[?|?]]; [auto| |right; left; lia].
  destruct (decide (a2 = b2)); [destruct (total string_le a3 b3); auto 6|destruct (total string_le a2 b2); auto 6].
Qed.

Lemma sorted_insert_perm (d : DeviceDescriptor) (l : list DeviceDescriptor) : sorted_insert d l ≡ₚ d :: l.
Proof.
  induction l as [|x l IH]; [done|]. cbn [sorted_insert]. case_decide; [done|]. rewrite IH. apply Permutation_swap.
Qed.

Lemma sort_perm (l : list DeviceDescriptor) : sort_discovered_devices l ≡ₚ l.
Proof. induction l as [|d l IH]; [done|]. cbn. by rewrite sorted_insert_perm, IH. Qed.

Lemma sorted_insert_sorted (d : DeviceDescriptor) (l : list DeviceDescriptor) :
  Sorted device_le l -> Sorted device_le (sorted_insert d l).
Proof.
  induction 1 as [|x l Hl IH Hx]; cbn [sorted_insert]; [by repeat constructor|]. case_decide as Hd.
  - constructor; [by constructor|by constructor].
  - constructor; [done|]. assert (device_le x d) as Hxd by (by destruct (total device_le d x)).
    destruct l as [|y l]; cbn [sorted_insert]; [by constructor|]. inversion Hx; subst. case_decide; by constructor.
Qed.

Lemma sort_sorted (l : list DeviceDescriptor) : Sorted device_le (sort_discovered_devices l).
Proof. induction l as [|d l IH]; [constructor|]. by apply sorted_insert_sorted. Qed.

(** Of each transport and id, the first entry is kept, and nothing else. *)
Definition first_of (devices : list DeviceDescriptor) (d : DeviceDescriptor) : Prop :=
  exists before after, devices = before ++ d :: after /\ dedup_key d ∉ map dedup_key before.

Lemma dedup_from_spec (devices : list DeviceDescriptor) (seen : list (TransportKind * string)) :
  NoDup (map dedup_key (dedup_from seen devices)) /\
  forall d, d ∈ dedup_from seen devices <-> (dedup_key d ∉ seen) /\ first_of devices d.
Proof.
  revert seen. induction devices as [|x devices IH]; intros seen; cbn.
  { split; [constructor|]. intros d. rewrite elem_of_nil. split; [done|]. by intros [_ ([|] & ? & ? & _)]. }
  assert (forall d, first_of (x :: devices) d <-> d = x \/ (dedup_key d <> dedup_key x /\ first_of devices d)) as Hfirst.
  { intros d. split.
    - intros ([|y before] & after & [= -> ->] & Hn); [by left|]. cbn in Hn. apply not_elem_of_cons in Hn as [Hne Hn].
      right. split; [done|]. by exists before, after.
    - intros [-> |[Hne (before & after & -> & Hn)]]; [exists [], devices; split; [done|]; cbn; apply not_elem_of_nil|].
      exists (x :: before), after. split; [done|]. cbn. by apply not_elem_of_cons. }
  case_bool_decide as Hseen.
  - destruct (IH seen) as [Hnd Hin]. split; [done|]. intros d. rewrite Hin, Hfirst. split.
    + intros [Hs Hf]. split; [done|]. right. split; [congruence|done].
    + by intros [Hs [-> |[_ Hf]]].
  - destruct (IH (dedup_key x :: seen)) as [Hnd Hin]. cbn. split.
    + constructor; [|done]. intros (d & Hk & Hd)%list_elem_of_fmap. apply Hin in Hd as [Hd _].
      apply Hd. rewrite <- Hk. by left.
    + intros d. rewrite elem_of_cons, Hin, Hfirst, not_elem_of_cons. split.
      * intros [-> |[[? ?] ?]]; auto.
      * intros [Hs [-> |[Hne Hf]]]; auto.
Qed.

(** A sweep lists, in order, exactly one entry for every transport and id found, the first
    one, and answers with one warning for each transport that was asked for and failed. *)
Theorem discovery_exact (request : ListDevicesRequest) (adb : Res (list AdbDevice)) (wifi : Res (list WifiDevice))
    (usb : Res (list UsbAccessory)) (r : DeviceDiscoveryResult) :
  discover_devices (Ok ()) request adb wifi usb = Ok r ->
  let found := (sweep (lr_adb request) TAdb "discover_devices.adb" adb_device_to_descriptor adb).1 ++
               (sweep (lr_wifi request) TWifi "discover_devices.wifi" wifi_device_to_descriptor wifi).1 ++
               (sweep (lr_usb request) TUsbAccessory "discover_devices.usb" usb_device_to_descriptor usb).1 in
  Sorted device_le (dr_devices r) /\ NoDup (map dedup_key (dr_devices r)) /\
  (forall d, d ∈ dr_devices r <-> first_of found d) /\
  (length (dr_warnings r) <= 3)%nat.
Proof.
  intros [= <-]. cbv zeta. cbn [dr_devices dr_warnings]. set (found := _ ++ _).
  destruct (dedup_from_spec found []) as [Hnd Hin]. split; [apply sort_sorted|]. split; [|split].
  - by rewrite (sort_perm _).
  - intros d. rewrite (sort_perm _), Hin. split; [by intros [_ ?]|]. split; [apply not_elem_of_nil|done].
  - unfold sweep. rewrite !length_app. destruct (lr_adb request), (lr_wifi request), (lr_usb request), adb, wifi, usb; cbn; lia.
Qed.
