(* ===== verification/Discovery.v ===== *)
(** * Discovery over the local network, and connecting

    core/discovery.rs and core/transport/wifi.rs, core/transport/mod.rs: the services mDNS resolves
    while it is browsed, kept by host, and the connection to an address.  [connect_with_state] of
    core/client.rs, which puts the transport, the handshake, the trust record and the first request
    together for all three transports.  What the mdns-sd daemon and the socket answer is given. *)

From Stdlib Require Import Strings.String Strings.Ascii.
From stdpp Require Import gmap sorting.
From S2P Require Import Prelude Errors AppErrors Domain Frame Reassembly Handshake Proto Session Text Paths Fs SyncProps TrustStore WifiHandshake ClientProto Client Usb Adb Devices FsLogic TrustProps WifiProps SessionProps ClientTransfer ClientTransferProps UsbProps AdbProps.

#[local] Open Scope string_scope.
#[local] Open Scope list_scope.
#[local] Open Scope Z_scope.

(** ** Services *)

(** An address, with its text. *)
Inductive IpAddr := V4 (text : string) | V6 (text : string).

Definition ip_text (a : IpAddr) : string := match a with V4 t => t | V6 t => t end.
Definition ip_key (a : IpAddr) : Z := match a with V4 _ => 0 | V6 _ => 1 end.

(** What mdns-sd resolves. *)
Record ResolvedService := mkResolved {
  rs_fullname : string; rs_host : string; rs_addresses : list IpAddr; rs_port : Z; rs_txt_properties : list (string * string) }.

Inductive ServiceEvent := ServiceResolved (service : ResolvedService) | OtherEvent.

(** [sort_by_key], which is stable. *)
Fixpoint insert_address (a : IpAddr) (l : list IpAddr) : list IpAddr :=
  match l with
  | [] => [a]
  | x :: l => if ip_key a <=? ip_key x then a :: x :: l else x :: insert_address a l
  end.
Definition sort_addresses (l : list IpAddr) : list IpAddr := foldr insert_address [] l.

(** [split_once('.')] *)
Fixpoint before_dot (s : string) : string :=
  match s with
  | EmptyString => ""
  | String c s => if bool_decide (c = "."%char) then "" else String c (before_dot s)
  end.
Definition instance_name (fullname : string) : string := before_dot fullname.

Definition host_key (service : ResolvedService) : string := trim_end_matches "."%char (rs_host service).

Definition resolved_to_device (service : ResolvedService) : WifiDevice :=
  {| wd_instance := instance_name (rs_fullname service);
     wd_host := host_key service;
     wd_addresses := ip_text <$> sort_addresses (rs_addresses service);
     wd_port := rs_port service;
     wd_txt := foldl (fun m p => <[p.1 := p.2]> m) ∅ (rs_txt_properties service) |}.

(** What the receiver gives in turn; a closed channel and the end of the time are the end of the list. *)
Fixpoint browse (events : list ServiceEvent) (devices : gmap string WifiDevice) : gmap string WifiDevice :=
  match events with
  | [] => devices
  | ServiceResolved service :: events => browse events (<[host_key service := resolved_to_device service]> devices)
  | OtherEvent :: events => browse events devices
  end.

(** [BTreeMap::into_values] *)
Definition btree_values {V} (m : gmap string V) : list V := omap (fun k => m !! k) (btree_keys m).

Definition discover_wifi_devices (daemon browsing : result string unit) (events : list ServiceEvent) : Res (list WifiDevice) :=
  match daemon with
  | Err e => Err (EConfiguration (Msg "wifi.mdns_init_failed" [e]))
  | Ok _ =>
      match browsing with
      | Err e => Err (EConfiguration (Msg "wifi.mdns_browse_failed" [e]))
      | Ok _ => Ok (btree_values (browse events ∅))
      end
  end.

(** ** Connecting *)

Inductive TransportCleanup := CleanupAdb (forward : AdbForward) | CleanupNone.

(** The stream itself is the caller's. *)
Record ConnectedTransport := mkConnected { ct_label : string; ct_cleanup : TransportCleanup }.

(** [connect] is what the socket answers within the time, [None] when it does not; [nodelay] the option set on it. *)
Definition wifi_connect (address : string) (connect : option (result string unit)) (nodelay : result string unit)
  : Res ConnectedTransport :=
  match connect with
  | None => Err (ETimeout (Msg "wifi.connect_timeout" []))
  | Some (Err e) => Err (ETransport (Msg "wifi.connect_failed" [address; e]))
  | Some (Ok _) =>
      match nodelay with
      | Err e => Err (ETransport (Msg "wifi.nodelay_failed" [e]))
      | Ok _ => Ok (mkConnected address CleanupNone)
      end
  end.

(** [TransportCleanup::cleanup]; the forward is dropped afterwards, which tries once more when it failed. *)
Definition transport_cleanup `{AdbServer} (adb_path : string) (c : TransportCleanup) (s : adb_state) : Res () * adb_state :=
  match c with
  | CleanupAdb forward => let '(r, forward, s) := forward_cleanup adb_path forward s in (r, forward_drop adb_path forward s)
  | CleanupNone => (Ok (), s)
  end.

(** ** A connected client *)

Record ClientOptions := mkClientOptions {
  co_timeout : Z; co_heartbeat_interval : Z; co_host_name : option string; co_wire_log : option path;
  co_wire_log_payload : bool; co_adb_path : string }.

(** Milliseconds. *)
Definition ClientOptions_default : ClientOptions := mkClientOptions 30000 10000 None None false "adb".

Definition initial_device (serial : string) : DeviceInfo :=
  mkDeviceInfo serial None None None None None None None None "/sdcard" None None None None None.

(** What the handshake told, where the device information lacks it. *)
Definition backfill_identity (info : WifiHandshakeInfo) (d : DeviceInfo) : DeviceInfo := {|
  di_serial := di_serial d;
  di_phone_id := match di_phone_id d with None => Some (wi_device_uuid info) | id => id end;
  di_name := match di_name d with None => wi_device_name info | name => name end;
  di_model := di_model d; di_brand := di_brand d; di_manufacturer := di_manufacturer d;
  di_smartisan_version := di_smartisan_version d;
  di_apk_version := match di_apk_version d with None => wi_apk_version info | v => v end;
  di_apk_version_name := match di_apk_version_name d with None => wi_apk_version_name info | v => v end;
  di_root_path := di_root_path d; di_external_storage_path := di_external_storage_path d;
  di_disk_size := di_disk_size d; di_used_disk_size := di_used_disk_size d;
  di_battery_percentage := di_battery_percentage d; di_phone_locked := di_phone_locked d |}.

(** [AdbForward::drop], of a cleanup nobody calls. *)
Definition drop_cleanup `{AdbServer} (adb_path : string) (c : TransportCleanup) (s : adb_state) : adb_state :=
  match c with CleanupAdb forward => forward_drop adb_path forward s | CleanupNone => s end.

Section Connect.
Context `{Crypto} `{ProtoCodec} `{ClientCodec} `{Json State} `{UsbText} `{AdbServer}.
Context (debug_str parse_error : string -> string) (render : message -> string).

(** What the world answers one connection: the opening of the log; the sockets; the two attempts
    over USB, unless their task dies; the stream, and what the operating system answers its handshake;
    the clock and the channel of the first request. *)
Record ConnectWorld := mkConnectWorld {
  cw_log : Res unit;
  cw_stream : Z -> result string ();
  cw_adb_nodelay : option string;
  cw_wifi_connect : option (result string unit);
  cw_wifi_nodelay : result string unit;
  cw_usb : UsbWorld;
  cw_usb_again : UsbWorld;
  cw_usb_join : option string;
  cw_env : WifiEnv;
  cw_writer : writer;
  cw_reader : reader;
  cw_trust_at : Z;
  cw_info_at : Z;
  cw_info : RequestAnswers
}.

(** A failure of the local device counts as one of the connection. *)
Definition usb_attempt (u : UsbWorld) (location : option string) (uuid : string) : Res string :=
  match (usb_connect u location uuid).1 with
  | Err (ELocalIo m) => Err (ETransport (Msg "error.local_io" [render m]))
  | Err e => Err e
  | Ok (label, _) => Ok label
  end.

Definition usb_connect_retried (w : ConnectWorld) (location : option string) (uuid : string) : Res ConnectedTransport :=
  match cw_usb_join w with
  | Some join => Err (ETransport (Msg "usb.connect_task_failed" [join]))
  | None =>
      match usb_attempt (cw_usb w) location uuid with
      | Ok label => Ok (mkConnected label CleanupNone)
      | Err first =>
          match usb_attempt (cw_usb_again w) location uuid with
          | Ok label => Ok (mkConnected label CleanupNone)
          | Err _ => Err first
          end
      end
  end.

Definition connect_transport (target : ConnectionTarget string) (options : ClientOptions) (uuid : string) (w : ConnectWorld)
    (s : adb_state) : Res ConnectedTransport * adb_state :=
  match target with
  | TargetAdb serial =>
      let '(r, s) := adb_connect (co_adb_path options) debug_str parse_error serial (cw_stream w) (cw_adb_nodelay w) s in
      (match r with Ok (label, forward) => Ok (mkConnected label (CleanupAdb forward)) | Err e => Err e end, s)
  | TargetWifi address => (wifi_connect address (cw_wifi_connect w) (cw_wifi_nodelay w), s)
  | TargetUsb location => (usb_connect_retried w location uuid, s)
  end.

(** [Session::establish]: the keys, and the metadata of a handshake over Wi-Fi; the session starts as
    [session_init]. *)
Definition session_establish (target : ConnectionTarget string) (options : ClientOptions) (store : StateStore) (state : State)
    (w : ConnectWorld) : io (option (Res (SessionKeys * option WifiHandshakeInfo))) :=
  match target with
  | TargetWifi _ =>
      let handshake := with_trust_store store (with_host_name (co_host_name options)
                         (wifi_new (sta_host_uuid state) (sta_trust state))) in
      let* outcome := wifi_establish handshake (co_timeout options) (cw_env w) (cw_writer w) (cw_reader w) [] in
      mret (match outcome with
            | None => None
            | Some (r, _, _, _) => Some (let? o := r in Ok (o.1, Some o.2))
            end)
  | _ =>
      mret (match adb_establish (we_generated (cw_env w)) (we_asked (cw_env w)) (co_timeout options) (we_arrivals (cw_env w))
                  (cw_writer w) (cw_reader w) [] with
            | None => None
            | Some (r, _, _, _) => Some (let? keys := r in Ok (keys, None))
            end)
  end.

Definition keep_derived_key (store : StateStore) (info : option WifiHandshakeInfo) (w : ConnectWorld) : io (Res unit) :=
  match info with
  | Some i =>
      match wi_derived_key i with
      | Some derived_key =>
          upsert_trust store (wi_device_uuid i) (wi_device_name i) derived_key (cw_trust_at w) (we_new_uuid (cw_env w))
      | None => io_ok ()
      end
  | None => io_ok ()
  end.

Definition connected_client (keys : SessionKeys) (info : option WifiHandshakeInfo) (serial : string) (callbacks : EventCallbacks)
    (w : ConnectWorld) : Res HandShakerClient :=
  let client := mkClient (Some session_init) (initial_device serial) in
  let (device, client) := fetch_device_info keys callbacks (cw_info_at w) (cw_info w) client in
  let? device := device in
  Ok (mkClient (hc_session client) (match info with Some i => backfill_identity i device | None => device end)).

(** The client with its keys and cleanup, and the adb server; a connection given up drops what it has. *)
Definition connect_with_state (target : ConnectionTarget string) (options : ClientOptions) (store : StateStore)
    (callbacks : EventCallbacks) (w : ConnectWorld) (s : adb_state)
  : io (option (Res (SessionKeys * HandShakerClient * TransportCleanup) * adb_state)) :=
  let* state := load_or_create store (we_new_uuid (cw_env w)) in
  match state with
  | Err e => mret (Some (Err e, s))
  | Ok state =>
      match (match co_wire_log options with Some _ => cw_log w | None => Ok () end) with
      | Err e => mret (Some (Err e, s))
      | Ok _ =>
          match connect_transport target options (sta_host_uuid state) w s with
          | (Err e, s) => mret (Some (Err e, s))
          | (Ok connected, s) =>
              let abandoned e := (Err e, drop_cleanup (co_adb_path options) (ct_cleanup connected) s) in
              let* session := session_establish target options store state w in
              match session with
              | None => mret None
              | Some (Err e) => mret (Some (abandoned e))
              | Some (Ok (keys, info)) =>
                  let* kept := keep_derived_key store info w in
                  mret (Some (match kept with
                              | Err e => abandoned e
                              | Ok _ =>
                                  match connected_client keys info (ct_label connected) callbacks w with
                                  | Err e => abandoned e
                                  | Ok client => (Ok (keys, client, ct_cleanup connected), s)
                                  end
                              end))
              end
          end
      end
  end.

End Connect.

(** ** What is found *)

(** The services that were resolved, in order. *)
Definition resolved (events : list ServiceEvent) : list ResolvedService :=
  omap (fun e => match e with ServiceResolved s => Some s | OtherEvent => None end) events.

(** The last service of a host. *)
Definition latest (host : string) (services : list ResolvedService) : option ResolvedService :=
  last (filter (fun s => host_key s = host) services).

Lemma browse_lookup (events : list ServiceEvent) (devices : gmap string WifiDevice) (host : string) :
  browse events devices !! host =
    match latest host (resolved events) with Some s => Some (resolved_to_device s) | None => devices !! host end.
Proof.
  revert devices. induction events as [|[s|] events IH]; intros devices; simpl; [done| |apply IH]. rewrite IH.
  unfold latest, resolved. cbn [omap list_omap]. fold (resolved events). rewrite filter_cons. case_decide as Hk.
  - rewrite last_cons. fold (resolved events) in *. destruct (last (filter _ (resolved events))); [done|]. by rewrite <- Hk, lookup_insert_eq.
  - fold (resolved events) in *. destruct (last (filter _ (resolved events))); [done|]. by rewrite lookup_insert_ne.
Qed.

Lemma browse_host (events : list ServiceEvent) (host : string) (d : WifiDevice) :
  browse events ∅ !! host = Some d -> wd_host d = host.
Proof.
  rewrite browse_lookup. destruct (latest host (resolved events)) as [s|] eqn:E; [|by rewrite lookup_empty]. intros [= <-]. simpl.
  unfold latest in E. apply last_Some_elem_of, list_elem_of_filter in E as [-> _]. done.
Qed.

Lemma btree_values_hosts (m : gmap string WifiDevice) :
  (forall k d, m !! k = Some d -> wd_host d = k) -> wd_host <$> btree_values m = btree_keys m.
Proof.
  intros Hm. unfold btree_values. assert (forall ks : list string, (forall k, k ∈ ks -> is_Some (m !! k)) -> wd_host <$> omap (fun k => m !! k) ks = ks) as Hgo.
  { induction ks as [|k ks IH]; intros Hk; [done|]. cbn [omap list_omap]. destruct (Hk k) as [d Hd]; [apply list_elem_of_here|].
    rewrite Hd. cbn [fmap list_fmap]. rewrite (Hm _ _ Hd). f_equal. apply IH. intros j Hj. apply Hk. by right. }
  apply Hgo. intros k. apply elem_of_btree_keys.
Qed.

(** A sweep that can browse answers one device for each host that was resolved, in the order of the hosts, as its latest
    resolution has it. *)
Theorem discovery_by_host (events : list ServiceEvent) :
  exists devices, discover_wifi_devices (Ok ()) (Ok ()) events = Ok devices /\
    Sorted string_le (wd_host <$> devices) /\ NoDup (wd_host <$> devices) /\
    forall d, d ∈ devices <-> exists s, latest (host_key s) (resolved events) = Some s /\ d = resolved_to_device s.
Proof.
  eexists. split; [reflexivity|].
  rewrite (btree_values_hosts (browse events ∅)) by (intros k d; apply browse_host).
  split_and!; [apply Sorted_btree_keys|apply NoDup_btree_keys|]. intros d. unfold btree_values. rewrite list_elem_of_omap. split.
  - intros (k & _ & Hk). pose proof (browse_host _ _ _ Hk) as Hh. rewrite browse_lookup in Hk.
    destruct (latest k (resolved events)) as [s|] eqn:E; [|by rewrite lookup_empty in Hk]. injection Hk as <-. exists s.
    split; [|done]. simpl in Hh. by rewrite Hh.
  - intros (s & Hs & ->). exists (host_key s). assert (browse events ∅ !! host_key s = Some (resolved_to_device s)) as Hb by (by rewrite browse_lookup, Hs).
    split; [|done]. apply elem_of_btree_keys. by eexists.
Qed.

(** The addresses are all kept, those of version 4 first, otherwise in their order. *)
Theorem addresses_in_order (l : list IpAddr) : sort_addresses l = filter (fun a => ip_key a = 0) l ++ filter (fun a => ip_key a = 1) l.
Proof.
  induction l as [|a l IH]; [done|]. cbn [sort_addresses foldr]. fold (sort_addresses l). rewrite IH.
  assert (forall a l, ip_key a = 1 -> Forall (fun x => ip_key x = 0) l -> forall r, Forall (fun x => ip_key x = 1) r ->
            insert_address a (l ++ r) = l ++ a :: r) as H6.
  { intros b k Hb Hk. induction Hk as [|x k Hx Hk IHk]; intros r Hr; simpl.
    - destruct r as [|y r]; [done|]. apply Forall_cons in Hr as [Hy _]. simpl. by rewrite Hb, Hy.
    - rewrite Hb, Hx. simpl. by rewrite IHk. }
  assert (forall z, Forall (fun x => ip_key x = z) (filter (fun a => ip_key a = z) l)) as Hf.
  { intros z. apply Forall_forall. intros x [Hx _]%list_elem_of_filter. exact Hx. }
  destruct a as [t|t].
  - rewrite filter_cons_True, (filter_cons_False _ (V4 t)) by done. simpl.
    destruct (filter _ l ++ filter _ l) as [|x r]; [done|]. simpl. by destruct x.
  - rewrite filter_cons_False, (filter_cons_True _ (V6 t)) by done. by apply H6.
Qed.

(** ** What a connection leaves *)

Section Connection.
Context `{Crypto} `{ProtoCodec} `{ClientCodec} `{Json State} `{UsbText} `{AdbForwards}.
Context (debug_str parse_error : string -> string) (render : message -> string).
Context (target : ConnectionTarget string) (options : ClientOptions) (store : StateStore) (callbacks : EventCallbacks)
  (w : ConnectWorld).

(** A failure to have a connection: no forward, and over another transport nothing asked of adb. *)
Definition given_up (s s' : adb_state) : Prop :=
  no_forward_left s s' /\ match target with TargetAdb _ => True | _ => s' = s end.

(** What the cleanup of a connection under [label] holds. *)
Definition holds_cleanup (label : string) (cleanup : TransportCleanup) (s s' : adb_state) : Prop :=
  match target with
  | TargetAdb _ => exists f, cleanup = CleanupAdb f /\ af_serial f = label /\ holds_forward f s s'
  | TargetWifi address => cleanup = CleanupNone /\ label = address /\ s' = s
  | TargetUsb _ => cleanup = CleanupNone /\ s' = s
  end.

Lemma transport_holds (uuid : string) (s : adb_state) :
  let '(r, s') := connect_transport debug_str parse_error render target options uuid w s in
  match r with
  | Ok c => holds_cleanup (ct_label c) (ct_cleanup c) s s'
  | Err _ => given_up s s'
  end.
Proof.
  unfold connect_transport, holds_cleanup, given_up. destruct target as [serial|address|location].
  - pose proof (adb_forward_removed (co_adb_path options) debug_str parse_error serial (cw_stream w) (cw_adb_nodelay w) s) as Hc.
    destruct (adb_connect _ _ _ _ _ _ _) as [[[label f]|e] s']; [|done]. destruct Hc as [<- Hf]. by exists f.
  - destruct (wifi_connect address (cw_wifi_connect w) (cw_wifi_nodelay w)) as [c|e] eqn:E;
      [|split; [by apply no_forward_same|done]].
    unfold wifi_connect in E. repeat case_match; try done; by injection E as <-.
  - destruct (usb_connect_retried render w location uuid) as [c|e] eqn:E; [|split; [by apply no_forward_same|done]].
    unfold usb_connect_retried in E. repeat case_match; try done; by injection E as <-.
Qed.

Lemma dropped_given_up (label : string) (cleanup : TransportCleanup) (s s' : adb_state) :
  holds_cleanup label cleanup s s' -> given_up s (drop_cleanup (co_adb_path options) cleanup s').
Proof.
  unfold holds_cleanup, given_up. destruct target as [serial|address|location].
  - intros (f & -> & _ & Hf). split; [by apply forward_dropped|done].
  - intros (-> & _ & ->). split; [by apply no_forward_same|done].
  - intros (-> & ->). split; [by apply no_forward_same|done].
Qed.

Lemma cleanup_given_back (label : string) (cleanup : TransportCleanup) (s s' s'' : adb_state) :
  holds_cleanup label cleanup s s' -> transport_cleanup (co_adb_path options) cleanup s' = (Ok (), s'') -> forwards s'' = forwards s.
Proof.
  unfold holds_cleanup, transport_cleanup. destruct target as [serial|address|location].
  - intros (f & -> & _ & Hf). destruct (forward_cleanup (co_adb_path options) f s') as [[r f'] s1] eqn:E. intros [= -> <-].
    destruct (forward_cleaned _ _ _ _ _ _ Hf E) as (Hs & _ & ->). done.
  - by intros (-> & _ & ->) [= ->].
  - by intros (-> & ->) [= ->].
Qed.

Lemma adb_establish_total (generated : result string rsa_private) (asked limit : Z) (arrivals : Arrivals) (wr : writer) (rd : reader)
    (log : wire_trace) : is_Some (adb_establish generated asked limit arrivals wr rd log).
Proof.
  unfold adb_establish. destruct (SessionKeys_generate generated) as [keys|e]; [|done].
  destruct (write_upstream _ _ _ _) as [[frame|e] wr']; [|done].
  destruct (read_normal_direct_total ADB_SID rd (log ++ [(Frame.Out, "wire.adb_raw_handshake", frame)])) as [[[r rd'] log'] ->].
  pose proof (await_deadline (asked + limit) (answered_at arrivals r rd') r) as Ha.
  by destruct (await_until _ _ r).
Qed.

(** The metadata is that of a handshake over Wi-Fi. *)
Lemma session_established (state : State) :
  yields (session_establish target options store state w) (fun o => exists r, o = Some r /\
    forall keys info, r = Ok (keys, info) -> match target with TargetWifi _ => is_Some info | _ => info = None end).
Proof.
  unfold session_establish. destruct (adb_establish_total (we_generated (cw_env w)) (we_asked (cw_env w)) (co_timeout options)
      (we_arrivals (cw_env w)) (cw_writer w) (cw_reader w) [])
    as [[[[r wr] rd] log] E].
  destruct target as [serial|address|location]; [rewrite E| |rewrite E].
  - apply yields_ret. eexists. split; [reflexivity|]. destruct r; by intros keys info [= _ <-].
  - eapply yields_bind; [apply wifi_establish_total|]. intros o [[[[r' wr'] rd'] log'] ->]. apply yields_ret.
    eexists. split; [reflexivity|]. destruct r'; [|done]. intros keys info [= _ <-]. by eexists.
  - apply yields_ret. eexists. split; [reflexivity|]. destruct r; by intros keys info [= _ <-].
Qed.

Lemma exchange_keeps {Q R : Type} `{Message Q} `{Message R} (keys : SessionKeys) (q : Q) (a : RequestAnswers) (c : HandShakerClient) :
  is_Some (hc_session c) -> is_Some (hc_session (exchange keys q a c).2).
Proof.
  intros [s Hs]. unfold exchange, client_bind, on_session. rewrite Hs.
  destruct (request_with_options _ _ _ s) as [[body|e] s']; by eexists.
Qed.

Lemma connected_client_identity (keys : SessionKeys) (info : option WifiHandshakeInfo) (serial : string) (client : HandShakerClient) :
  connected_client keys info serial callbacks w = Ok client ->
  is_Some (hc_session client) /\ di_serial (hc_device client) = serial /\ (is_Some info -> is_Some (di_phone_id (hc_device client))).
Proof.
  unfold connected_client, fetch_device_info, client_bind. intros Hc.
  match type of Hc with context [?m] => match m with exchange _ _ _ _ =>
    assert (is_Some (hc_session m.2)) as Hk by (apply exchange_keeps; by eexists); destruct m as [[response|e] c'] end end; [|done].
  cbn [client_ret] in Hc. injection Hc as <-. split; [exact Hk|].
  destruct info as [i|]; [|split; [done|by intros []]]. cbn. split; [done|]. intros _. by destruct (dir_phone_id response).
Qed.

(** Over Wi-Fi, once there is a log and a socket, it is [connect_wifi] with the first request after it; so what is known of
    the keys it keeps holds of every connection. *)
Lemma connect_over_wifi (address : string) (s : adb_state) (wd : world) :
  co_wire_log options = None -> cw_wifi_connect w = Some (Ok ()) -> cw_wifi_nodelay w = Ok () ->
  connect_with_state debug_str parse_error render (TargetWifi address) options store callbacks w s wd =
    (let* r := connect_wifi store (co_host_name options) (co_timeout options) (cw_env w) (cw_trust_at w) (cw_writer w) (cw_reader w) [] in
     mret (match r with
           | None => None
           | Some (Err e, _) => Some (Err e, s)
           | Some (Ok (keys, info), _) =>
               Some (match connected_client keys (Some info) address callbacks w with
                     | Err e => Err e
                     | Ok client => Ok (keys, client, CleanupNone)
                     end, s)
           end)) wd.
Proof.
  intros Hl Hs Hn. unfold connect_with_state, connect_wifi, connect_transport, wifi_connect, session_establish.
  rewrite Hl, Hs, Hn. unfold mbind, io_bind, mret, io_ret.
  destruct (load_or_create store _ wd) as [[[state|e]|] wd1]; [|done..].
  destruct (wifi_establish _ _ _ _ _ _ wd1) as [[[[[[[[keys info]|e] w'] r'] log']|]|] wd2]; [|done..].
  cbn. destruct (wi_derived_key info) as [k|].
  - destruct (upsert_trust _ _ _ _ _ _ wd2) as [[[[]|e]|] wd3]; [|done..]. cbn. by destruct (connected_client _ _ _ _ _).
  - cbn. by destruct (connected_client _ _ _ _ _).
Qed.

(** C35.  A connection ends in a client or an error over every transport and for all answers of the disk, adb, the sockets,
    the bus and the phone, unless the program dies.  The client is named by its transport, has a session, over Wi-Fi knows
    which phone it is, and over adb holds exactly one new forward of the phone's port, which its cleanup removes.  Whatever
    fails, before or after the forward was made, the forwards are as they were if the commands of adb work (a listing answers,
    a forward that is there can be removed, one that is refused is not made), and at most the connection's own is left
    otherwise; over Wi-Fi and USB adb is never asked. *)
Theorem connection_exact (s : adb_state) :
  yields (connect_with_state debug_str parse_error render target options store callbacks w s) (fun o => exists r s', o = Some (r, s') /\
    match r with
    | Ok (keys, client, cleanup) =>
        is_Some (hc_session client) /\ holds_cleanup (di_serial (hc_device client)) cleanup s s' /\
        (forall address, target = TargetWifi address -> is_Some (di_phone_id (hc_device client))) /\
        (forall s'', transport_cleanup (co_adb_path options) cleanup s' = (Ok (), s'') -> forwards s'' = forwards s)
    | Err _ => given_up s s'
    end).
Proof.
  assert (given_up s s) as Hsame by (split; [by apply no_forward_same|by destruct target]).
  unfold connect_with_state. apply yields_then. intros [state|e]; [|apply yields_ret; by eexists _, _].
  destruct (match co_wire_log options with Some _ => _ | None => _ end) as [[]|e]; [|apply yields_ret; by eexists _, _].
  pose proof (transport_holds (sta_host_uuid state) s) as Ht.
  destruct (connect_transport _ _ _ _ _ _ _ _) as [[c|e] s1]; [|apply yields_ret; by eexists _, _].
  pose proof (dropped_given_up _ _ _ _ Ht) as Hd.
  eapply yields_bind; [apply session_established|]. intros o ([[keys info]|e] & -> & Hi); [|apply yields_ret; by eexists _, _].
  specialize (Hi _ _ eq_refl). apply yields_then. intros [[]|e]; apply yields_ret; [|by eexists _, _].
  destruct (connected_client keys info (ct_label c) callbacks w) as [client|e] eqn:Ec; [|by eexists _, _].
  apply connected_client_identity in Ec as (Hs & Hl & Hp). rewrite <- Hl in Ht. eexists _, _. split; [reflexivity|].
  split; [exact Hs|]. split; [exact Ht|]. split.
  - intros address E. rewrite E in Hi. by apply Hp.
  - intros s''. by apply (cleanup_given_back _ _ _ _ _ Ht).
Qed.
End Connection.

(** A phone that is called "p" and tells nothing else, over adb, with the answer to the key. *)
Definition toy_device : Message SspGetDeviceInfoResponse := {|
  encode_to_vec := fun _ => [];
  message_decode := fun _ => Ok (mkSspGetDeviceInfoResponse None None None None None None None None None None None None
    None None (Some "p") None None None None None None None None None None None None None None None None None None None None None)
|}.
Definition toy_device_codec : ClientCodec.
Proof. constructor; first [exact toy_device | exact toy_message | exact (fun s => Ok (bytes_of_string s)) | exact (fun _ => Ok "")]. Defined.

Definition sample_connect_world (answer : string) : @ConnectWorld toy_crypto :=
  let usb := mkUsbWorld (Err TimedOut) (Err TimedOut) None [] [] None (fun _ => Err TimedOut) None in
  @mkConnectWorld toy_crypto (Ok ()) (fun _ => Ok ()) None None (Ok ()) usb usb None sample_env (Writer [] None None)
    (Reader (sample_frames_of [bytes_of_string answer]) "eof") 7 8 (mkAnswers Session.Sent false (rx_data [prefixed [x01]])).

Definition sample_connect (answer : string) :=
  @connect_with_state toy_crypto toy_codec toy_device_codec toy_json toy_usb_text toy_adb (fun s => s) (fun s => s) msg_key
    (TargetAdb None) ClientOptions_default sample_trust_store (mkEventCallbacks false false false false) (sample_connect_world answer)
    (false : @adb_state toy_adb) (mkWorld sample_trust_disk [] []).

(** The name of the phone and the forward held, or the error; and whether the server has the forward. *)
Definition sample_outcome (answer : string) : option (result Error (option string * AdbForward) * bool) :=
  match (sample_connect answer).1 with
  | Ret (Some (Ok (_, client, CleanupAdb f), s)) => Some (Ok (di_name (hc_device client), f), s)
  | Ret (Some (Err e, s)) => Some (Err e, s)
  | _ => None
  end.

Definition toy_held : AdbForward := mkAdbForward "s" 5037 false.

(** The phone accepts the key and tells its name; and the phone refuses it, when the forward is already made: the commands
    of this server work, and the forward is gone. *)
Lemma connection_exact_witness :
  (sample_outcome "ok" = Some (Ok (Some "p", toy_held), true) /\ holds_forward toy_held (false : @adb_state toy_adb) true) /\
  (sample_outcome "failed" = Some (Err (EHandshake (Msg "handshake.public_key_rejected" [])), false) /\
   working /\ forwards (false : @adb_state toy_adb) = ∅).
Proof.
  assert (forall answer o, sample_outcome answer = Some o -> match o with
    | (Ok (_, f), s) => holds_forward f (false : @adb_state toy_adb) s
    | (Err _, s) => forwards s = forwards (false : @adb_state toy_adb)
    end) as Hp.
  { intros answer o Ho. unfold sample_outcome in Ho. destruct (sample_connect answer) as [out wd] eqn:E.
    destruct out as [a|]; [|done].
    destruct (@connection_exact toy_crypto toy_codec toy_device_codec toy_json toy_usb_text toy_adb toy_adb_forwards
      (fun s => s) (fun s => s) msg_key (TargetAdb None) ClientOptions_default sample_trust_store
      (mkEventCallbacks false false false false) (sample_connect_world answer) false (mkWorld sample_trust_disk [] []) a wd E)
      as (r & s' & -> & Hr). clear E. destruct r as [[[keys client] cleanup]|e]; simpl in Ho.
    - destruct Hr as (_ & (f & -> & _ & Hf) & _). by injection Ho as <-.
    - destruct Hr as [[Hf _] _]. injection Ho as <-. exact (Hf toy_working). }
  assert (sample_outcome "ok" = Some (Ok (Some "p", toy_held), true)) as E by (vm_compute; reflexivity).
  assert (sample_outcome "failed" = Some (Err (EHandshake (Msg "handshake.public_key_rejected" [])), false)) as F
    by (vm_compute; reflexivity).
  split; (split; [done|]); [exact (Hp _ _ E)|]. split; [exact toy_working|exact (Hp _ _ F)].
Defined.
