(* ===== verification/MediaDto.v ===== *)
(** * The media records and the events of the application

    crates/handshaker-application/src/media.rs: the libraries as the application hands them out,
    the conversions from and to the core's records, thumbnails stripped from lists, and changes
    merged into a library.  What the application tells its user: the snapshots of dto.rs and the
    events of event.rs. *)

From S2P Require Import Prelude Errors AppErrors Domain MediaMerge Transfer Sync Devices FilePlan.

#[local] Open Scope string_scope.
#[local] Open Scope list_scope.
#[local] Open Scope Z_scope.

(** ** Records *)

Record ImageFileDto := mkImageFileDto {
  imd_path : option string; imd_size : option Z; imd_created_at : option Z; imd_modified_at : option Z;
  imd_width : option Z; imd_height : option Z; imd_orientation : option Z; imd_media_id : option Z;
  imd_album_id : option Z; imd_mime_type : option string; imd_thumbnail : option (list byte);
  imd_album_name : option string; imd_date_taken : option Z; imd_latitude : option string;
  imd_longitude : option string; imd_mini_thumb_magic : option string; imd_title : option string;
  imd_thumbnail_error : bool; imd_starred : bool }.

Record ImageAlbumDto := mkImageAlbumDto {
  iad_path : option string; iad_album_id : option Z; iad_name : option string; iad_cover_image : option ImageFileDto }.

Record VideoFileDto := mkVideoFileDto {
  vdd_path : option string; vdd_size : option Z; vdd_created_at : option Z; vdd_modified_at : option Z;
  vdd_width : option Z; vdd_height : option Z; vdd_orientation : option Z; vdd_media_id : option Z;
  vdd_album_id : option Z; vdd_mime_type : option string; vdd_thumbnail : option (list byte);
  vdd_thumbnail_error : bool; vdd_duration : option f64 }.

Record VideoAlbumDto := mkVideoAlbumDto {
  vad_path : option string; vad_album_id : option Z; vad_name : option string }.

Record AudioFileDto := mkAudioFileDto {
  afd_path : option string; afd_size : option Z; afd_created_at : option Z; afd_modified_at : option Z;
  afd_media_id : option Z; afd_album_id : option Z; afd_title : option string;
  afd_mime_type : option string; afd_artist_id : option Z; afd_artist : option string;
  afd_composer : option string; afd_genre : option Z; afd_comment : option string;
  afd_copyright : option string; afd_audio_codec : option string; afd_track : option Z;
  afd_duration : option f64 }.

Record AudioAlbumDto := mkAudioAlbumDto {
  aad_path : option string; aad_album_id : option Z; aad_name : option string;
  aad_artist_id : option Z; aad_artist : option string; aad_year : option Z;
  aad_thumbnail : option (list byte); aad_thumbnail_error : bool }.

Record PhotoLibraryDto := mkPhotoLibraryDto {
  pld_images : list ImageFileDto; pld_albums : list ImageAlbumDto; pld_camera_album_id : option Z; pld_next_cursor : option Z }.

Record VideoLibraryDto := mkVideoLibraryDto {
  vld_videos : list VideoFileDto; vld_albums : list VideoAlbumDto; vld_next_cursor : option Z }.

Record AudioLibraryDto := mkAudioLibraryDto {
  ald_tracks : list AudioFileDto; ald_albums : list AudioAlbumDto; ald_next_cursor : option Z }.

(** [Thumbnails] of core/domain.rs, and its mirror. *)
Record Thumbnails := mkThumbnails {
  tn_images : list ImageFile; tn_videos : list VideoFile; tn_audio_albums : list AudioAlbum }.

Record ThumbnailsDto := mkThumbnailsDto {
  tnd_images : list ImageFileDto; tnd_videos : list VideoFileDto; tnd_audio_albums : list AudioAlbumDto }.

(** ** From the core *)

Definition ImageFileDto_from (image : ImageFile) : ImageFileDto :=
  mkImageFileDto
    (img_path image) (img_size image) (img_created_at image) (img_modified_at image) (img_width image)
    (img_height image) (img_orientation image) (img_media_id image) (img_album_id image)
    (img_mime_type image) (img_thumbnail image) (img_album_name image) (img_date_taken image)
    (img_latitude image) (img_longitude image) (img_mini_thumb_magic image) (img_title image)
    (img_thumbnail_error image) (img_starred image).

Definition ImageAlbumDto_from (album : ImageAlbum) : ImageAlbumDto :=
  mkImageAlbumDto (ia_path album) (ia_album_id album) (ia_name album) (ImageFileDto_from <$> ia_cover_image album).

Definition VideoFileDto_from (video : VideoFile) : VideoFileDto :=
  mkVideoFileDto
    (vid_path video) (vid_size video) (vid_created_at video) (vid_modified_at video) (vid_width video)
    (vid_height video) (vid_orientation video) (vid_media_id video) (vid_album_id video)
    (vid_mime_type video) (vid_thumbnail video) (vid_thumbnail_error video) (vid_duration video).

Definition VideoAlbumDto_from (album : VideoAlbum) : VideoAlbumDto :=
  mkVideoAlbumDto
    (va_path album) (va_album_id album) (va_name album).

Definition AudioFileDto_from (file : AudioFile) : AudioFileDto :=
  mkAudioFileDto
    (aud_path file) (aud_size file) (aud_created_at file) (aud_modified_at file) (aud_media_id file)
    (aud_album_id file) (aud_title file) (aud_mime_type file) (aud_artist_id file) (aud_artist file)
    (aud_composer file) (aud_genre file) (aud_comment file) (aud_copyright file) (aud_audio_codec file)
    (aud_track file) (aud_duration file).

Definition AudioAlbumDto_from (album : AudioAlbum) : AudioAlbumDto :=
  mkAudioAlbumDto
    (aa_path album) (aa_album_id album) (aa_name album) (aa_artist_id album) (aa_artist album)
    (aa_year album) (aa_thumbnail album) (aa_thumbnail_error album).

Definition PhotoLibraryDto_from (library : PhotoLibrary) : PhotoLibraryDto :=
  mkPhotoLibraryDto (ImageFileDto_from <$> pl_images library) (ImageAlbumDto_from <$> pl_albums library)
    (pl_camera_album_id library) None.

Definition VideoLibraryDto_from (library : VideoLibrary) : VideoLibraryDto :=
  mkVideoLibraryDto (VideoFileDto_from <$> vl_videos library) (VideoAlbumDto_from <$> vl_albums library) None.

Definition AudioLibraryDto_from (library : AudioLibrary) : AudioLibraryDto :=
  mkAudioLibraryDto (AudioFileDto_from <$> al_tracks library) (AudioAlbumDto_from <$> al_albums library) None.

Definition ThumbnailsDto_from (thumbnails : Thumbnails) : ThumbnailsDto :=
  mkThumbnailsDto (ImageFileDto_from <$> tn_images thumbnails) (VideoFileDto_from <$> tn_videos thumbnails)
    (AudioAlbumDto_from <$> tn_audio_albums thumbnails).

(** ** Back to the core *)

Definition dto_to_image_file (image : ImageFileDto) : ImageFile :=
  mkImageFile
    (imd_path image) (imd_size image) (imd_created_at image) (imd_modified_at image) (imd_width image)
    (imd_height image) (imd_orientation image) (imd_media_id image) (imd_album_id image)
    (imd_mime_type image) (imd_thumbnail image) (imd_album_name image) (imd_date_taken image)
    (imd_latitude image) (imd_longitude image) (imd_mini_thumb_magic image) (imd_title image)
    (imd_thumbnail_error image) (imd_starred image).

Definition dto_to_image_album (album : ImageAlbumDto) : ImageAlbum :=
  mkImageAlbum (iad_path album) (iad_album_id album) (iad_name album) (dto_to_image_file <$> iad_cover_image album).

Definition dto_to_video_file (video : VideoFileDto) : VideoFile :=
  mkVideoFile
    (vdd_path video) (vdd_size video) (vdd_created_at video) (vdd_modified_at video) (vdd_width video)
    (vdd_height video) (vdd_orientation video) (vdd_media_id video) (vdd_album_id video)
    (vdd_mime_type video) (vdd_thumbnail video) (vdd_thumbnail_error video) (vdd_duration video).

Definition dto_to_video_album (album : VideoAlbumDto) : VideoAlbum :=
  mkVideoAlbum
    (vad_path album) (vad_album_id album) (vad_name album).

Definition dto_to_audio_file (file : AudioFileDto) : AudioFile :=
  mkAudioFile
    (afd_path file) (afd_size file) (afd_created_at file) (afd_modified_at file) (afd_media_id file)
    (afd_album_id file) (afd_title file) (afd_mime_type file) (afd_artist_id file) (afd_artist file)
    (afd_composer file) (afd_genre file) (afd_comment file) (afd_copyright file) (afd_audio_codec file)
    (afd_track file) (afd_duration file).

Definition dto_to_audio_album (album : AudioAlbumDto) : AudioAlbum :=
  mkAudioAlbum
    (aad_path album) (aad_album_id album) (aad_name album) (aad_artist_id album) (aad_artist album)
    (aad_year album) (aad_thumbnail album) (aad_thumbnail_error album).

Definition dto_to_photo_library (library : PhotoLibraryDto) : PhotoLibrary :=
  mkPhotoLibrary (dto_to_image_file <$> pld_images library) (dto_to_image_album <$> pld_albums library)
    (pld_camera_album_id library).

Definition dto_to_video_library (library : VideoLibraryDto) : VideoLibrary :=
  mkVideoLibrary (dto_to_video_file <$> vld_videos library) (dto_to_video_album <$> vld_albums library).

Definition dto_to_audio_library (library : AudioLibraryDto) : AudioLibrary :=
  mkAudioLibrary (dto_to_audio_file <$> ald_tracks library) (dto_to_audio_album <$> ald_albums library).

(** ** Lists carry no thumbnails *)

Definition strip_image_file (image : ImageFileDto) : ImageFileDto :=
  mkImageFileDto
    (imd_path image) (imd_size image) (imd_created_at image) (imd_modified_at image) (imd_width image)
    (imd_height image) (imd_orientation image) (imd_media_id image) (imd_album_id image)
    (imd_mime_type image) None (imd_album_name image) (imd_date_taken image) (imd_latitude image)
    (imd_longitude image) (imd_mini_thumb_magic image) (imd_title image) false (imd_starred image).

Definition strip_video_file (video : VideoFileDto) : VideoFileDto :=
  mkVideoFileDto
    (vdd_path video) (vdd_size video) (vdd_created_at video) (vdd_modified_at video) (vdd_width video)
    (vdd_height video) (vdd_orientation video) (vdd_media_id video) (vdd_album_id video)
    (vdd_mime_type video) None false (vdd_duration video).

Definition strip_audio_album (album : AudioAlbumDto) : AudioAlbumDto :=
  mkAudioAlbumDto
    (aad_path album) (aad_album_id album) (aad_name album) (aad_artist_id album) (aad_artist album)
    (aad_year album) None false.

Definition strip_cover (album : ImageAlbumDto) : ImageAlbumDto :=
  mkImageAlbumDto (iad_path album) (iad_album_id album) (iad_name album) (strip_image_file <$> iad_cover_image album).

Definition strip_photo_thumbnails (library : PhotoLibraryDto) : PhotoLibraryDto :=
  mkPhotoLibraryDto (strip_image_file <$> pld_images library) (strip_cover <$> pld_albums library)
    (pld_camera_album_id library) (pld_next_cursor library).

Definition strip_video_thumbnails (library : VideoLibraryDto) : VideoLibraryDto :=
  mkVideoLibraryDto (strip_video_file <$> vld_videos library) (vld_albums library) (vld_next_cursor library).

Definition strip_audio_thumbnails (library : AudioLibraryDto) : AudioLibraryDto :=
  mkAudioLibraryDto (ald_tracks library) (strip_audio_album <$> ald_albums library) (ald_next_cursor library).

(** ** Changes *)

Inductive MediaKindDto := PhotoDto | VideoDto | AudioDto.

#[export] Instance MediaKindDto_eq_dec : EqDecision MediaKindDto.
Proof. solve_decision. Defined.

Record MediaChangeItemDto := mkMediaChangeItem {
  mci_media_id : option Z; mci_path : option string; mci_size : option Z; mci_created_at : option Z;
  mci_modified_at : option Z; mci_mime_type : option string; mci_title : option string; mci_album_name : option string }.

Record MediaChangeDto := mkMediaChange {
  mcd_media_kind : MediaKindDto; mcd_added : list MediaChangeItemDto; mcd_deleted : list MediaChangeItemDto;
  mcd_updated : list MediaChangeItemDto }.

Definition kind_to_core (kind : MediaKindDto) : MediaKind :=
  match kind with PhotoDto => Photo | VideoDto => Video | AudioDto => Audio end.

Definition item_to_core (item : MediaChangeItemDto) : MediaItem :=
  mkMediaItem (mci_media_id item) None (mci_path item) (mci_size item) (mci_created_at item) (mci_modified_at item)
    None None None (mci_mime_type item) (mci_title item) (mci_album_name item) None None.

Definition change_to_core (change : MediaChangeDto) : MediaLibraryChange :=
  mkMediaLibraryChange (kind_to_core (mcd_media_kind change)) (item_to_core <$> mcd_added change)
    (item_to_core <$> mcd_deleted change) (item_to_core <$> mcd_updated change) [].

Definition ensure_kind_matches (actual expected : MediaKindDto) : AppResult () :=
  if bool_decide (actual = expected) then Ok () else Err (public_new InvalidState "media kind mismatch").

Definition merge_photo_library (library : PhotoLibraryDto) (change : MediaChangeDto) : AppResult PhotoLibraryDto :=
  match ensure_kind_matches (mcd_media_kind change) PhotoDto with
  | Err e => Err e
  | Ok _ =>
      match apply_photo (dto_to_photo_library library) (change_to_core change) with
      | (Err e, _) => Err (from_core_error e "merge_photo_library")
      | (Ok _, core) => Ok (PhotoLibraryDto_from core)
      end
  end.

Definition merge_video_library (library : VideoLibraryDto) (change : MediaChangeDto) : AppResult VideoLibraryDto :=
  match ensure_kind_matches (mcd_media_kind change) VideoDto with
  | Err e => Err e
  | Ok _ =>
      match apply_video (dto_to_video_library library) (change_to_core change) with
      | (Err e, _) => Err (from_core_error e "merge_video_library")
      | (Ok _, core) => Ok (VideoLibraryDto_from core)
      end
  end.

Definition merge_audio_library (library : AudioLibraryDto) (change : MediaChangeDto) : AppResult AudioLibraryDto :=
  match ensure_kind_matches (mcd_media_kind change) AudioDto with
  | Err e => Err e
  | Ok _ =>
      match apply_audio (dto_to_audio_library library) (change_to_core change) with
      | (Err e, _) => Err (from_core_error e "merge_audio_library")
      | (Ok _, core) => Ok (AudioLibraryDto_from core)
      end
  end.

(** The conversion of a pushed change (in runtime.rs). *)
Definition map_item (item : MediaItem) : MediaChangeItemDto :=
  mkMediaChangeItem (mi_media_id item) (mi_path item) (mi_size item) (mi_created_at item) (mi_modified_at item)
    (mi_mime_type item) (mi_title item) (mi_album_name item).

Definition media_change_to_dto (change : MediaLibraryChange) : MediaChangeDto :=
  mkMediaChange (match mc_kind change with Photo => PhotoDto | Video => VideoDto | Audio => AudioDto end)
    (map_item <$> mc_added change) (map_item <$> mc_deleted change) (map_item <$> mc_updated change).

Inductive SessionState := Connecting | SessionReady | Disconnecting | SessionIsClosed | SessionFailed.

#[export] Instance SessionState_eq_dec : EqDecision SessionState.
Proof. solve_decision. Defined.

Record SessionSnapshot := mkSessionSnapshot {
  ssn_id : Z; ssn_device : DeviceDescriptor; ssn_device_info : DeviceInfoDto; ssn_state : SessionState;
  ssn_connected_at_ms : Z; ssn_last_activity_at_ms : option Z }.

Record ClipboardEntryDto := mkClipboardEntryDto { ced_text : string; ced_timestamp_ms : Z }.

Inductive RemoteFileChangeKind := RfDirectoryChanged | RfFileChanged | RfPhotoSyncChanged | RfSyncMonitorChanged.

Record RemoteFileChangeDto := mkRemoteFileChange {
  rfc_change_kind : RemoteFileChangeKind;
  rfc_paths : list string;
  rfc_files : list FileEntryDto;
  rfc_statuses : list string
}.

(** [SyncRunResultDto] has the fields of the core's result. *)
Record SyncRunResultDto := mkSyncRunResultDto {
  srd_downloaded : list string; srd_deleted : list string; srd_failures : list string; srd_conflicts : list string }.

Definition sync_run_result_to_dto (result : SyncRunResult) : SyncRunResultDto :=
  mkSyncRunResultDto (run_downloaded result) (run_deleted result) (run_failures result) (run_conflicts result).

Inductive BackendEvent :=
  | RuntimeStarted
  | RuntimeStopping
  | DeviceAdded (device : DeviceDescriptor)
  | DeviceUpdated (session_id : Z) (device : DeviceDescriptor)
  | DeviceRemoved (device_id : string)
  | SessionStateChanged (snapshot : SessionSnapshot)
  | TransferUpdated (snapshot : TransferSnapshot)
  | ConnectionLostEvent (session_id : Z)
  | ClipboardChangedEvent (session_id : Z) (entries : list ClipboardEntryDto)
  | MediaChangedEvent (session_id : Z) (change : MediaChangeDto)
  | RemoteFileChangedEvent (session_id : Z) (change : RemoteFileChangeDto)
  | SyncWatchApplied (profile_id : string) (session_id : Z) (result : SyncRunResultDto)
  | WarningEvent (error : PublicError).
