(* ===== verification/MediaDtoProps.v ===== *)
(** * What the application's media records keep

    The conversions lose nothing, lists carry no thumbnail and are otherwise as fetched, and a
    pushed change that has gone through the application's event merges as the core would merge
    what is left of it. *)

From S2P Require Import Prelude Errors AppErrors Domain MediaMerge MediaProps MediaDto.

#[local] Open Scope string_scope.
#[local] Open Scope list_scope.
#[local] Open Scope Z_scope.

(** ** Round trips *)

#[local] Create Rewrite HintDb media.

Lemma image_file_round_trip (file : ImageFile) : dto_to_image_file (ImageFileDto_from file) = file.
Proof. by destruct file. Qed.
Lemma image_file_dto_round_trip (image : ImageFileDto) : ImageFileDto_from (dto_to_image_file image) = image.
Proof. by destruct image. Qed.
Lemma video_file_round_trip (file : VideoFile) : dto_to_video_file (VideoFileDto_from file) = file.
Proof. by destruct file. Qed.
Lemma video_file_dto_round_trip (video : VideoFileDto) : VideoFileDto_from (dto_to_video_file video) = video.
Proof. by destruct video. Qed.
Lemma video_album_round_trip (album : VideoAlbum) : dto_to_video_album (VideoAlbumDto_from album) = album.
Proof. by destruct album. Qed.
Lemma video_album_dto_round_trip (album : VideoAlbumDto) : VideoAlbumDto_from (dto_to_video_album album) = album.
Proof. by destruct album. Qed.
Lemma audio_file_round_trip (file : AudioFile) : dto_to_audio_file (AudioFileDto_from file) = file.
Proof. by destruct file. Qed.
Lemma audio_file_dto_round_trip (file : AudioFileDto) : AudioFileDto_from (dto_to_audio_file file) = file.
Proof. by destruct file. Qed.
Lemma audio_album_round_trip (album : AudioAlbum) : dto_to_audio_album (AudioAlbumDto_from album) = album.
Proof. by destruct album. Qed.
Lemma audio_album_dto_round_trip (album : AudioAlbumDto) : AudioAlbumDto_from (dto_to_audio_album album) = album.
Proof. by destruct album. Qed.

Lemma image_album_round_trip (album : ImageAlbum) : dto_to_image_album (ImageAlbumDto_from album) = album.
Proof. destruct album as [? ? ? [cover|]]; [by destruct cover|done]. Qed.
Lemma image_album_dto_round_trip (album : ImageAlbumDto) : ImageAlbumDto_from (dto_to_image_album album) = album.
Proof. destruct album as [? ? ? [cover|]]; [by destruct cover|done]. Qed.

Lemma fmap_round_trip {A B} (f : A -> B) (g : B -> A) (l : list A) : (forall a, g (f a) = a) -> g <$> (f <$> l) = l.
Proof. intros Hgf. induction l as [|a l IH]; [done|]. rewrite !fmap_cons, Hgf. by f_equal. Qed.

#[local] Hint Rewrite image_file_round_trip image_file_dto_round_trip video_file_round_trip video_file_dto_round_trip
  video_album_round_trip video_album_dto_round_trip audio_file_round_trip audio_file_dto_round_trip
  audio_album_round_trip audio_album_dto_round_trip image_album_round_trip image_album_dto_round_trip : media.

Lemma photo_library_round_trip (library : PhotoLibrary) : dto_to_photo_library (PhotoLibraryDto_from library) = library.
Proof.
  destruct library. unfold dto_to_photo_library, PhotoLibraryDto_from. simpl.
  by rewrite !fmap_round_trip by (intros; by autorewrite with media).
Qed.
Lemma video_library_round_trip (library : VideoLibrary) : dto_to_video_library (VideoLibraryDto_from library) = library.
Proof.
  destruct library. unfold dto_to_video_library, VideoLibraryDto_from. simpl.
  by rewrite !fmap_round_trip by (intros; by autorewrite with media).
Qed.
Lemma audio_library_round_trip (library : AudioLibrary) : dto_to_audio_library (AudioLibraryDto_from library) = library.
Proof.
  destruct library. unfold dto_to_audio_library, AudioLibraryDto_from. simpl.
  by rewrite !fmap_round_trip by (intros; by autorewrite with media).
Qed.

(** ** What is left of a change *)

(** The item without what the application's event does not carry. *)
Definition narrowed (item : MediaItem) : MediaItem :=
  mkMediaItem (mi_media_id item) None (mi_path item) (mi_size item) (mi_created_at item) (mi_modified_at item)
    None None None (mi_mime_type item) (mi_title item) (mi_album_name item) None None.

Definition narrowed_change (change : MediaLibraryChange) : MediaLibraryChange :=
  mkMediaLibraryChange (mc_kind change) (narrowed <$> mc_added change) (narrowed <$> mc_deleted change)
    (narrowed <$> mc_updated change) [].

Lemma bridged_change (change : MediaLibraryChange) : change_to_core (media_change_to_dto change) = narrowed_change change.
Proof.
  destruct change as [kind added deleted updated albums]. unfold change_to_core, media_change_to_dto, narrowed_change. simpl.
  rewrite <- !list_fmap_compose. by destruct kind.
Qed.

(** What such a change cannot set: the measures of a picture, the length and the artist. *)
Definition image_measures (image : ImageFile) :=
  (query_fields image, (img_width image, img_height image, img_orientation image, img_album_id image)).
Definition video_measures (video : VideoFile) :=
  (vid_width video, vid_height video, vid_orientation video, vid_album_id video, vid_duration video, vid_thumbnail video).
Definition audio_measures (audio : AudioFile) :=
  (aud_album_id audio, aud_artist audio, aud_duration audio, aud_track audio, aud_artist_id audio).

Lemma narrowed_items {A B} `{MediaEntry A} (f : A -> B) (change : MediaLibraryChange) :
  (forall a item, f (apply_overlap a (narrowed item)) = f a) ->
  Forall (fun item => forall a, f (apply_overlap a item) = f a)
    (mc_added (narrowed_change change) ++ mc_updated (narrowed_change change)).
Proof. intros Hf. simpl. rewrite <- fmap_app. apply Forall_fmap, Forall_true. intros item a. apply Hf. Qed.

Lemma narrowed_merge {A B} `{MediaEntry A} (f : A -> B) (blank : B) (l : list A) (change : MediaLibraryChange) (b : A) :
  (forall a item, f (apply_overlap a (narrowed item)) = f a) -> (forall item, f (from_item (narrowed item)) = blank) ->
  b ∈ merge l (narrowed_change change) -> (exists a, a ∈ l /\ f b = f a) \/ f b = blank.
Proof.
  intros Hf Hb Hin. apply (merge_from f) in Hin as [?|(item & Hi & Hfi)]; [by left| |by apply narrowed_items].
  right. rewrite Hfi. simpl in Hi. rewrite <- fmap_app in Hi. apply list_elem_of_fmap in Hi as (i & -> & _). apply Hb.
Qed.

(** ** Merging *)

Lemma bridged_photo_merge (library : PhotoLibraryDto) (change : MediaLibraryChange) :
  match merge_photo_library library (media_change_to_dto change) with
  | Ok merged =>
      mc_kind change = Photo /\ pld_next_cursor merged = None /\ pld_albums merged = pld_albums library /\
      (Ok (), dto_to_photo_library merged) = apply_photo (dto_to_photo_library library) (narrowed_change change) /\
      forall entry, entry ∈ pl_images (dto_to_photo_library merged) ->
        (exists old, old ∈ pl_images (dto_to_photo_library library) /\ image_measures entry = image_measures old) \/
        image_measures entry = image_measures ImageFile_default
  | Err e => mc_kind change <> Photo /\ pe_code e = InvalidState
  end.
Proof.
  unfold merge_photo_library, apply_photo, ensure_kind, ensure_kind_matches. rewrite bridged_change.
  change (mc_kind (narrowed_change change)) with (mc_kind change).
  change (mcd_media_kind (media_change_to_dto change)) with (match mc_kind change with Photo => PhotoDto | Video => VideoDto | Audio => AudioDto end).
  destruct (mc_kind change); [|by split..].
  rewrite !bool_decide_eq_true_2 by done. cbn beta iota. rewrite photo_library_round_trip. split_and!; [done..| |done|].
  - apply fmap_round_trip. intros a. by autorewrite with media.
  - intros entry He. by apply (narrowed_merge image_measures (image_measures ImageFile_default)) in He.
Qed.

Lemma bridged_video_merge (library : VideoLibraryDto) (change : MediaLibraryChange) :
  match merge_video_library library (media_change_to_dto change) with
  | Ok merged =>
      mc_kind change = Video /\ vld_next_cursor merged = None /\ vld_albums merged = vld_albums library /\
      (Ok (), dto_to_video_library merged) = apply_video (dto_to_video_library library) (narrowed_change change) /\
      forall entry, entry ∈ vl_videos (dto_to_video_library merged) ->
        (exists old, old ∈ vl_videos (dto_to_video_library library) /\ video_measures entry = video_measures old) \/
        video_measures entry = video_measures VideoFile_default
  | Err e => mc_kind change <> Video /\ pe_code e = InvalidState
  end.
Proof.
  unfold merge_video_library, apply_video, ensure_kind, ensure_kind_matches. rewrite bridged_change.
  change (mc_kind (narrowed_change change)) with (mc_kind change).
  change (mcd_media_kind (media_change_to_dto change)) with (match mc_kind change with Photo => PhotoDto | Video => VideoDto | Audio => AudioDto end).
  destruct (mc_kind change); [by split| |by split].
  rewrite !bool_decide_eq_true_2 by done. cbn beta iota. rewrite video_library_round_trip. split_and!; [done..| |done|].
  - apply fmap_round_trip. intros a. by autorewrite with media.
  - intros entry He. by apply (narrowed_merge video_measures (video_measures VideoFile_default)) in He.
Qed.

Lemma bridged_audio_merge (library : AudioLibraryDto) (change : MediaLibraryChange) :
  match merge_audio_library library (media_change_to_dto change) with
  | Ok merged =>
      mc_kind change = Audio /\ ald_next_cursor merged = None /\ ald_albums merged = ald_albums library /\
      (Ok (), dto_to_audio_library merged) = apply_audio (dto_to_audio_library library) (narrowed_change change) /\
      forall entry, entry ∈ al_tracks (dto_to_audio_library merged) ->
        (exists old, old ∈ al_tracks (dto_to_audio_library library) /\ audio_measures entry = audio_measures old) \/
        audio_measures entry = audio_measures AudioFile_default
  | Err e => mc_kind change <> Audio /\ pe_code e = InvalidState
  end.
Proof.
  unfold merge_audio_library, apply_audio, ensure_kind, ensure_kind_matches. rewrite bridged_change.
  change (mc_kind (narrowed_change change)) with (mc_kind change).
  change (mcd_media_kind (media_change_to_dto change)) with (match mc_kind change with Photo => PhotoDto | Video => VideoDto | Audio => AudioDto end).
  destruct (mc_kind change); [by split..|].
  rewrite !bool_decide_eq_true_2 by done. cbn beta iota. rewrite audio_library_round_trip. split_and!; [done..| |done|].
  - apply fmap_round_trip. intros a. by autorewrite with media.
  - intros entry He. by apply (narrowed_merge audio_measures (audio_measures AudioFile_default)) in He.
Qed.

(** A change that the phone pushes and the application hands on as an event merges into a
    library of the application as the core merges the change without what the event does not
    carry; a change of another kind is refused.  The merged library has the albums it had, starts
    over at its first page, and no picture, video or track gets or loses by it its thumbnail, its
    measures, its length or its artist: all that is left for the next full query. *)
Theorem bridged_merge_exact (photos : PhotoLibraryDto) (videos : VideoLibraryDto) (audio : AudioLibraryDto)
    (change : MediaLibraryChange) :
  let pushed := media_change_to_dto change in let left_of_it := narrowed_change change in
  match merge_photo_library photos pushed with
  | Ok merged =>
      mc_kind change = Photo /\ pld_next_cursor merged = None /\ pld_albums merged = pld_albums photos /\
      (Ok (), dto_to_photo_library merged) = apply_photo (dto_to_photo_library photos) left_of_it /\
      forall image, image ∈ pl_images (dto_to_photo_library merged) ->
        (exists old, old ∈ pl_images (dto_to_photo_library photos) /\ image_measures image = image_measures old) \/
        image_measures image = image_measures ImageFile_default
  | Err e => mc_kind change <> Photo /\ pe_code e = InvalidState
  end /\
  match merge_video_library videos pushed with
  | Ok merged =>
      mc_kind change = Video /\ vld_next_cursor merged = None /\ vld_albums merged = vld_albums videos /\
      (Ok (), dto_to_video_library merged) = apply_video (dto_to_video_library videos) left_of_it /\
      forall video, video ∈ vl_videos (dto_to_video_library merged) ->
        (exists old, old ∈ vl_videos (dto_to_video_library videos) /\ video_measures video = video_measures old) \/
        video_measures video = video_measures VideoFile_default
  | Err e => mc_kind change <> Video /\ pe_code e = InvalidState
  end /\
  match merge_audio_library audio pushed with
  | Ok merged =>
      mc_kind change = Audio /\ ald_next_cursor merged = None /\ ald_albums merged = ald_albums audio /\
      (Ok (), dto_to_audio_library merged) = apply_audio (dto_to_audio_library audio) left_of_it /\
      forall track, track ∈ al_tracks (dto_to_audio_library merged) ->
        (exists old, old ∈ al_tracks (dto_to_audio_library audio) /\ audio_measures track = audio_measures old) \/
        audio_measures track = audio_measures AudioFile_default
  | Err e => mc_kind change <> Audio /\ pe_code e = InvalidState
  end.
Proof. exact (conj (bridged_photo_merge photos change) (conj (bridged_video_merge videos change) (bridged_audio_merge audio change))). Qed.
