(* ===== verification/PlanRun.v ===== *)
(** * The execution of file plans

    execute_file_plan, start_batch_plan, start_batch_transfer and the blocking batches of
    crates/handshaker-application/src/runtime.rs: a plan that may be executed becomes one
    background transfer, its trees transferred one after the other and its files in one batch,
    with the results put together. *)

From Stdlib Require Import Strings.String.
From stdpp Require Import gmap.
From S2P Require Import Prelude Errors AppErrors Domain EventHub Transfer RemotePath FilePlan.

#[local] Open Scope string_scope.
#[local] Open Scope list_scope.
#[local] Open Scope Z_scope.

Abbreviation CoreBatchResult := Domain.BatchTransferResult.
Abbreviation core_result := Domain.mkBatchTransferResult.

Record TreeTransferDto := mkTree { tt_source : string; tt_target : string }.

Record BatchTransferRequest := mkBatchRequest {
  bq_session_id : Z; bq_files : list BatchTransferItemDto; bq_trees : list TreeTransferDto; bq_overwrite : bool }.

Record ExecuteFilePlanRequest := mkExecute { ex_plan : FileOperationPlan; ex_overwrite : bool; ex_concurrency : Z }.

Definition merge_core_batch (target partial : CoreBatchResult) : CoreBatchResult :=
  core_result (Domain.br_ok target ++ Domain.br_ok partial) (Domain.br_failures target ++ Domain.br_failures partial).

(** The parts of a plan. *)
Definition tree_parts (plan : FileOperationPlan) : list TreeTransferDto :=
  (fun i => mkTree (pi_source i) (pi_destination i)) <$> filter (fun i => pi_is_directory i = true) (fp_items plan).
Definition file_parts (plan : FileOperationPlan) : list BatchTransferItemDto :=
  (fun i => Transfer.mkBatchItem (pi_source i) (pi_destination i)) <$> filter (fun i => pi_is_directory i = false) (fp_items plan).

Section Run.
Context `{HashOrder}.
(** The text of a core message. *)
Context (render : message -> string).

Definition batch_result_to_dto (result : CoreBatchResult) : BatchTransferResultDto :=
  mkBatchResult
    ((fun i => Transfer.mkBatchItem (Domain.bi_source i) (Domain.bi_target i)) <$> Domain.br_ok result)
    ((fun f => mkTransferFailure (bf_source f) (bf_target f) (render (bf_message f))) <$> Domain.br_failures result).

(** ** The background task

    One call of the client: what it answers, given whether the token of the transfer is
    cancelled when it ends; the calls others make to the registry meanwhile; the time after. *)
Record Await := mkAwait {
  aw_answer : bool -> Res CoreBatchResult;
  aw_meanwhile : list (registry_call * Z);
  aw_now : Z
}.

(** The token is shared with the entry; an entry whose task runs leaves the history only after
    it was cancelled. *)
Definition token (id : Z) (r : TransferRegistry) : bool :=
  match rg_transfers r !! id with Some e => at_cancelled e | None => true end.

(** [result], [completed_items] and [failed_items]. *)
Record PlanTask := mkPlanTask { pt_result : CoreBatchResult; pt_completed : Z; pt_failed : Z }.

Definition OPERATION : string := "execute_file_plan".

Fixpoint run_trees (id : Z) (trees : list TreeTransferDto) (awaits : list Await) (t : PlanTask) (r : TransferRegistry)
  : option (AppResult () * PlanTask * list Await * TransferRegistry) :=
  match trees with
  | [] => Some (Ok (), t, awaits, r)
  | tree :: trees =>
      match awaits with
      | [] => None
      | a :: awaits =>
          let r := calls (aw_meanwhile a) r in
          match aw_answer a (token id r) with
          | Err e => Some (Err (from_core_error e OPERATION), t, awaits, r)
          | Ok partial =>
              let t := mkPlanTask (merge_core_batch (pt_result t) partial) (pt_completed t + 1) (pt_failed t) in
              run_trees id trees awaits t
                (set_batch_items id (pt_completed t) (pt_failed t) (Some (tt_source tree)) (aw_now a) r)
          end
      end
  end.

Definition run_files (id : Z) (files : list BatchTransferItemDto) (awaits : list Await) (t : PlanTask) (r : TransferRegistry)
  : option (AppResult () * PlanTask * TransferRegistry) :=
  match files with
  | [] => Some (Ok (), t, r)
  | _ =>
      match awaits with
      | [] => None
      | a :: _ =>
          let r := calls (aw_meanwhile a) r in
          match aw_answer a (token id r) with
          | Err e => Some (Err (from_core_error e OPERATION), t, r)
          | Ok partial =>
              let t := mkPlanTask (merge_core_batch (pt_result t) partial)
                         (pt_completed t + zlen (Domain.br_ok partial)) (pt_failed t + zlen (Domain.br_failures partial)) in
              Some (Ok (), t,
                    set_batch_items id (pt_completed t) (pt_failed t) (Transfer.bi_source <$> last files) (aw_now a) r)
          end
      end
  end.

Definition run_parts (id : Z) (plan : FileOperationPlan) (awaits : list Await) (r : TransferRegistry)
  : option (AppResult () * PlanTask * TransferRegistry) :=
  match run_trees id (tree_parts plan) awaits (mkPlanTask (core_result [] []) 0 0) r with
  | None => None
  | Some (Err e, t, _, r) => Some (Err e, t, r)
  | Some (Ok _, t, awaits, r) => run_files id (file_parts plan) awaits t r
  end.

Definition is_transport (f : BatchTransferFailure) : bool := bool_decide (bf_code f = Some Transport).

Definition connection_lost_code (code : PublicErrorCode) : bool := bool_decide (code = ConnectFailed).

Definition partial_error (lost : bool) (failures items : nat) : PublicError :=
  operation OPERATION
    (public_new (if lost then ConnectionLost else PublicRemoteIo)
       (pretty failures +:+ " file(s) failed across " +:+ pretty items +:+ " plan items")).

(** The [match outcome]: the registry, and whether the session is to be marked as lost. *)
Definition settle_plan (id : Z) (plan : FileOperationPlan) (outcome : AppResult ()) (result : CoreBatchResult) (now : Z)
  (r : TransferRegistry) : TransferRegistry * bool :=
  match outcome, Domain.br_failures result with
  | Ok _, [] =>
      let r := match fp_total_bytes plan with Some total => set_progress id total total now r | None => r end in
      (transition_publish id Completed now (set_batch_result id (batch_result_to_dto result) r), false)
  | Ok _, failures =>
      let connection_closed := existsb is_transport failures in
      let r := set_error id (partial_error connection_closed (length failures) (length (fp_items plan))) r in
      (transition_publish id Failed now (set_batch_result id (batch_result_to_dto result) r), connection_closed)
  | Err error, _ =>
      if bool_decide (pe_code error = TransferCancelled) then
        (match get id r with Ok snapshot => publish_update snapshot now r | Err _ => r end, false)
      else
        let r := set_error id error (set_batch_result id (batch_result_to_dto result) r) in
        (transition_publish id Failed now r, connection_lost_code (pe_code error))
  end.

(** The whole task from its first step at [now]; the awaits given are those it gets to, the
    last time is that of the settling. *)
Definition run_plan (id : Z) (plan : FileOperationPlan) (awaits : list Await) (now settled : Z) (r : TransferRegistry)
  : option (TransferRegistry * bool) :=
  match run_parts id plan awaits (transition id Running now r).2 with
  | Some (outcome, t, r) => Some (settle_plan id plan outcome (pt_result t) settled r)
  | None => None
  end.

(** ** Starting it *)

Definition joined (field : FilePlanItem -> string) (plan : FileOperationPlan) : string :=
  String.concat ", " (map field (fp_items plan)).

(** [start_batch_plan] up to the spawn: the registered entry with the planned totals. *)
Definition start_batch_plan (request : ExecuteFilePlanRequest) (now : Z) (r : TransferRegistry) : Z * TransferRegistry :=
  let plan := ex_plan request in
  let direction := match fp_direction plan with PlanDownload => Download | PlanUpload => Upload end in
  let '(s, r) := snapshot_for (fp_session_id plan) direction (joined pi_source plan) (joined pi_destination plan) now r in
  let s := mkTransferSnapshot (ts_id s) (ts_session_id s) (ts_direction s) (ts_source s) (ts_destination s) (ts_state s)
             (ts_transferred_bytes s) (fp_total_bytes plan) (ts_started_at_ms s) (ts_finished_at_ms s) (ts_error s)
             (zlen (fp_items plan)) (ts_completed_items s) (ts_failed_items s) (ts_current_item s) (ts_batch_result s) in
  (ts_id s, register s now r).

(** [execute_file_plan]; [open] is [ensure_open], [session] the look-up of the plan's session. *)
Definition execute_file_plan (open : AppResult ()) (session : AppResult ()) (request : ExecuteFilePlanRequest) (now : Z)
  (r : TransferRegistry) : AppResult Z * TransferRegistry :=
  match open with
  | Err e => (Err e, r)
  | Ok _ =>
      if negb (is_executable_with (ex_plan request) (ex_overwrite request)) then
        (Err (operation OPERATION (public_new InvalidState "plan contains unresolved conflicts for the given options")), r)
      else
        match session with
        | Err e => (Err e, r)
        | Ok _ => let '(id, r) := start_batch_plan request now r in (Ok id, r)
        end
  end.

(** [start_batch_transfer]; [session] has the root of the phone. *)
Definition batch_plan_items (root : string) (request : BatchTransferRequest) (direction : FilePlanDirection)
  : list FilePlanItem :=
  let item is_directory source target :=
    match direction with
    | PlanDownload => mkPlanItem (resolve_remote_path root source) target is_directory None
    | PlanUpload => mkPlanItem source (resolve_remote_path root target) is_directory None
    end in
  ((fun f => item false (Transfer.bi_source f) (Transfer.bi_target f)) <$> bq_files request) ++
  ((fun t => item true (tt_source t) (tt_target t)) <$> bq_trees request).

Definition batch_plan (root : string) (request : BatchTransferRequest) (direction : FilePlanDirection) : FileOperationPlan :=
  let items := batch_plan_items root request direction in
  let count b := zlen (filter (fun i => pi_is_directory i = b) items) in
  mkPlan direction (bq_session_id request) items [] (count false) (count true) None (count true >? 0) true.

Definition start_batch_transfer (open : AppResult ()) (session : AppResult string) (request : BatchTransferRequest)
  (direction : FilePlanDirection) (now : Z) (r : TransferRegistry) : AppResult Z * TransferRegistry :=
  match open with
  | Err e => (Err e, r)
  | Ok _ =>
      match session with
      | Err e => (Err e, r)
      | Ok root =>
          execute_file_plan open (Ok ()) (mkExecute (batch_plan root request direction) (bq_overwrite request) 1) now r
      end
  end.

(** ** The blocking batches

    [batch_download] and [batch_upload]: the answers of the client, tree by tree and then for
    the files, which are asked for even when there are none. *)
Fixpoint blocking_trees (op : string) (trees : list TreeTransferDto) (answers : list (Res CoreBatchResult))
  (result : CoreBatchResult) : option (AppResult CoreBatchResult * list (Res CoreBatchResult)) :=
  match trees, answers with
  | [], _ => Some (Ok result, answers)
  | _ :: _, [] => None
  | _ :: trees, Err e :: answers => Some (Err (from_core_error e op), answers)
  | _ :: trees, Ok partial :: answers => blocking_trees op trees answers (merge_core_batch result partial)
  end.

Definition blocking_batch (op : string) (trees : list TreeTransferDto) (answers : list (Res CoreBatchResult))
  : option (AppResult BatchTransferResultDto) :=
  match blocking_trees op trees answers (core_result [] []) with
  | None => None
  | Some (Err e, _) => Some (Err e)
  | Some (Ok result, Err e :: _) => Some (Err (from_core_error e op))
  | Some (Ok result, Ok partial :: _) => Some (Ok (batch_result_to_dto (merge_core_batch result partial)))
  | Some (Ok _, []) => None
  end.

End Run.
