(* ===== verification/PlanRunProps.v ===== *)
(** * What executing a file plan guarantees

    The background task of PlanRun.v always settles its transfer, accounts for every item of
    the plan and keeps what was transferred, whatever else is done to the registry meanwhile. *)

From Stdlib Require Import Strings.String.
From stdpp Require Import gmap.
From S2P Require Import Prelude Errors AppErrors Domain EventHub Transfer TransferProps RemotePath FilePlan PlanRun.

#[local] Open Scope string_scope.
#[local] Open Scope list_scope.
#[local] Open Scope Z_scope.

(** ** What others may do to a transfer

    Only its task reports on it; others register, cancel, evict and publish handles. *)
Definition others (id : Z) (c : registry_call) : Prop :=
  match c with
  | CallTransition i next => i <> id /\ next <> Queued
  | CallProgress i _ _ | CallBatchItems i _ _ _ | CallBatchResult i _ | CallError i _ | CallFinish i _ _ => i <> id
  | _ => True
  end.

Lemma others_allowed (id : Z) (c : registry_call) : others id c -> allowed_call c.
Proof. by destruct c; simpl; [|intros [_ ?]|..]. Qed.

(** The entry is as before, or was cancelled. *)
Definition env_entry (a b : ActiveTransfer) : Prop :=
  (at_snapshot b = at_snapshot a /\
   (at_cancelled b = true -> at_cancelled a = true \/ terminal (ts_state (at_snapshot a)) = true)) \/
  (terminal (ts_state (at_snapshot a)) = false /\
   exists now, at_snapshot b = set_state TransferIsCancelled (Some now) (at_snapshot a)).

#[export] Instance env_entry_preorder : PreOrder env_entry.
Proof.
  split; [by left; split; [|left]|]. intros a b c [[Hab Ht]|(Hta & now & Hab)] [[Hbc Ht']|(Htb & now' & Hbc)].
  - left. rewrite Hbc. split; [done|]. intros [Hc|Hc]%Ht'; [by apply Ht|right; by rewrite <- Hab].
  - right. rewrite Hab in *. eauto.
  - right. split; [done|]. exists now. by rewrite Hbc.
  - rewrite Hab in Htb. discriminate.
Qed.

(** Where an entry comes from. *)
Definition comes_from (id : Z) (r r' : TransferRegistry) : Prop :=
  forall e', rg_transfers r' !! id = Some e' -> exists e, rg_transfers r !! id = Some e /\ env_entry e e'.

#[export] Instance comes_from_preorder (id : Z) : PreOrder (comes_from id).
Proof.
  split; [intros r e He; by exists e|]. intros a b c Hab Hbc e Hc. destruct (Hbc e Hc) as (e1 & Hb & H1).
  destruct (Hab e1 Hb) as (e2 & Ha & H2). exists e2. split; [done|by etrans].
Qed.

Lemma comes_from_same (id : Z) (r r' : TransferRegistry) :
  rg_transfers r' !! id = rg_transfers r !! id -> comes_from id r r'.
Proof. intros Heq e He. exists e. by rewrite <- Heq. Qed.

Lemma comes_from_alter (id i : Z) (f : ActiveTransfer -> ActiveTransfer) (r r' : TransferRegistry) :
  rg_transfers r' = alter f i (rg_transfers r) -> (forall e, i = id -> rg_transfers r !! id = Some e -> env_entry e (f e)) ->
  comes_from id r r'.
Proof.
  intros Hr Hf e He. rewrite Hr in He. destruct (decide (i = id)) as [-> |Hne].
  - rewrite lookup_alter_eq in He. destruct (rg_transfers r !! id) as [e0|] eqn:H0; [|done].
    injection He as <-. exists e0. split; [done|by apply Hf].
  - rewrite lookup_alter_ne in He by done. by exists e.
Qed.

Section Others.
Context `{HashOrder}.

Lemma transition_lookup_ne (id i : Z) (next : TransferState) (now : Z) (r : TransferRegistry) :
  i <> id -> rg_transfers (transition i next now r).2 !! id = rg_transfers r !! id.
Proof. intros Hne. unfold transition. destruct (rg_transfers r !! i); [|done]. by apply lookup_insert_ne. Qed.

Lemma transition_publish_entries (id : Z) (next : TransferState) (now : Z) (r : TransferRegistry) :
  rg_transfers (transition_publish id next now r) = rg_transfers (transition id next now r).2.
Proof. unfold transition_publish. by destruct (transition id next now r) as [[s|] r']. Qed.

Lemma report_lookup_ne (id i now : Z) (bytes : option Z) (f : TransferSnapshot -> TransferSnapshot) (r : TransferRegistry) :
  i <> id -> rg_transfers (report i now bytes f r) !! id = rg_transfers r !! id.
Proof.
  intros Hne. unfold report. destruct (rg_transfers r !! i); [|done].
  destruct (throttle_allows _ _ _) as [[] t]; [destruct (get i _)|]; by apply lookup_insert_ne.
Qed.

Lemma finish_lookup_ne (id i : Z) (outcome : Res Z) (op : string) (now : Z) (r : TransferRegistry) :
  i <> id -> rg_transfers (finish_transfer i outcome op now r) !! id = rg_transfers r !! id.
Proof.
  intros Hne. unfold finish_transfer. destruct outcome as [bytes|e].
  - rewrite transition_publish_entries, transition_lookup_ne by done. by apply report_lookup_ne.
  - assert (rg_transfers (settle_failure i e op now r) !! id = rg_transfers r !! id) as Hs.
    { unfold settle_failure. destruct (error_code e); rewrite transition_lookup_ne by done; try done;
        by apply lookup_alter_ne. }
    cbv zeta. by destruct (get i (settle_failure i e op now r)).
Qed.

(** A cancellation of the entry itself, token first. *)
Lemma cancel_comes_from (id i now : Z) (r : TransferRegistry) :
  comes_from id r (transition_publish i TransferIsCancelled now (cancel_token i r)).
Proof.
  intros e He. rewrite transition_publish_entries in He. destruct (decide (i = id)) as [-> |Hne].
  - unfold transition in He. simpl in He. rewrite lookup_alter_eq in He.
    destruct (rg_transfers r !! id) as [e0|] eqn:H0; simpl in He.
    + rewrite lookup_insert_eq in He. injection He as <-. exists e0. split; [done|].
      unfold env_entry, next_snapshot. simpl. destruct (terminal (ts_state (at_snapshot e0))) eqn:Ht; [by left; split; [|right]|].
      right. split; [done|by exists now].
    + by rewrite lookup_alter_eq, H0 in He.
  - rewrite transition_lookup_ne in He by done. simpl in He. rewrite lookup_alter_ne in He by done. by exists e.
Qed.

Lemma take_join_comes_from (id i : Z) (r : TransferRegistry) : comes_from id r (take_join i r).2.
Proof.
  unfold take_join. destruct (rg_transfers r !! i) as [e|] eqn:He; [|reflexivity].
  eapply (comes_from_alter id i (with_join Taken)); [by apply (insert_alter (with_join Taken))|].
  intros e' _ _. left. by split; [|left].
Qed.

Lemma cancel_entries_comes_from (id now : Z) (entries : list (Z * bool)) (joins : list Z) (r : TransferRegistry) :
  (forall e, rg_transfers r !! id = Some e -> (id, true) ∈ entries -> terminal (ts_state (at_snapshot e)) = true) ->
  comes_from id r (cancel_entries entries now joins r).2.
Proof.
  revert joins r. induction entries as [|[i t] entries IH]; intros joins r Hflag; [reflexivity|].
  cbn [cancel_entries].
  set (r2 := if t then cancel_token i r else transition_publish i TransferIsCancelled now (cancel_token i r)).
  assert (comes_from id r r2) as H2.
  { unfold r2. destruct t; [|apply cancel_comes_from].
    eapply (comes_from_alter id i token_cancelled); [reflexivity|]. intros e -> He. left. split; [done|].
    intros _. right. apply Hflag; [done|]. by left. }
  pose proof (take_join_comes_from id i r2) as H3. destruct (take_join i r2) as [join r3]. simpl in H3.
  assert (comes_from id r r3) as Hr3 by by etrans.
  etrans; [exact Hr3|]. apply IH. intros e He Hin. destruct (Hr3 e He) as (e0 & H0 & Henv).
  specialize (Hflag e0 H0 ltac:(by right)). destruct Henv as [[-> _]|[Ht _]]; [done|congruence].
Qed.

Lemma reap_comes_from (id : Z) (r : TransferRegistry) : comes_from id r (reap r).
Proof.
  intros e He. unfold reap in He. simpl in He. rewrite lookup_fmap in He. destruct (rg_transfers r !! id) as [e0|]; [|done].
  injection He as <-. exists e0. split; [done|]. left. unfold reaped_slot.
  destruct (at_join e0); try case_bool_decide; (split; [done|by left]).
Qed.

Lemma register_comes_from (id session_id : Z) direction source destination (now : Z) (r : TransferRegistry) :
  0 <= rg_history_capacity r -> id <> rg_next_id r ->
  comes_from id r (start_transfer session_id direction source destination now r).2.
Proof.
  intros Hc Hne e He. unfold start_transfer, snapshot_for, register in He. cbn [ts_id fst snd] in He.
  eapply lookup_weaken in He; [|by apply reap_transfers_sub]. simpl in He. rewrite lookup_insert_ne in He by done.
  exists e. split; [done|reflexivity].
Qed.

Lemma others_comes_from (id n : Z) (c : registry_call) (now : Z) (r : TransferRegistry) :
  registry_ok n r -> id <= n -> 0 <= rg_history_capacity r -> others id c -> comes_from id r (call c now r).
Proof.
  intros Hr Hid Hc Ho. destruct c; simpl in Ho |- *.
  - apply register_comes_from; [done|]. destruct Hr as [-> _]. lia.
  - apply comes_from_same, transition_lookup_ne. by destruct Ho.
  - unfold cancel_transfer. destruct (rg_transfers r !! id0); [|reflexivity]. apply cancel_comes_from.
  - apply cancel_entries_comes_from. intros e He (kv & Hin & Hkv)%list_elem_of_omap.
    destruct kv as [i e']. rewrite hash_iter_perm in Hin. apply elem_of_map_to_list in Hin. simpl in Hkv.
    destruct (ts_session_id (at_snapshot e') =? session_id); [|done]. injection Hkv as Hi Ht.
    destruct Hr as (_ & _ & Hok). destruct (Hok i e' Hin) as [_ [Hid' _]].
    assert (i = id) as -> by congruence. congruence.
  - apply reap_comes_from.
  - by apply comes_from_same, report_lookup_ne.
  - by apply comes_from_same, report_lookup_ne.
  - apply comes_from_same. by apply lookup_alter_ne.
  - apply comes_from_same. by apply lookup_alter_ne.
  - by apply comes_from_same, finish_lookup_ne.
  - eapply (comes_from_alter id id0 (with_join (Published task))); [reflexivity|]. intros e _ _. left. by split; [|left].
  - by apply comes_from_same.
Qed.

Lemma others_calls (id n : Z) (cs : list (registry_call * Z)) (r : TransferRegistry) :
  registry_ok n r -> id <= n -> 0 <= rg_history_capacity r -> Forall (fun c => others id c.1) cs ->
  n + zlen cs < 2 ^ 64 - 1 ->
  comes_from id r (calls cs r) /\ rg_history_capacity (calls cs r) = rg_history_capacity r /\
  exists k, n <= k <= n + zlen cs /\ registry_ok k (calls cs r).
Proof.
  revert n r. induction cs as [|[c now] cs IH]; intros n r Hr Hid Hc Ho Hn; simpl.
  { split; [reflexivity|]. split; [done|]. exists n. split; [lia|done]. }
  apply Forall_cons in Ho as [Ho Hos]. cbn [length] in Hn.
  destruct (later_call n now c r Hr Hc ltac:(lia) (others_allowed _ _ Ho)) as (k & Hk & Hl).
  pose proof (settings_call c now r) as Hs. injection Hs as Hs _.
  destruct (IH k (call c now r)) as (Hcf & Hcap & k' & Hk' & Hok); [by eapply registry_ok_later|lia|lia|done|lia|].
  split; [etrans; [by eapply others_comes_from|done]|]. split; [congruence|]. exists k'. split; [lia|done].
Qed.
End Others.

(** ** The task *)

Section Task.
Context `{HashOrder} (render : message -> string) (id : Z) (plan : FileOperationPlan).

(** The entry while the task runs: nothing but the counters was reported, and it was at most
    cancelled. *)
Definition running_as (completed failed : Z) (e : ActiveTransfer) : Prop :=
  let s := at_snapshot e in
  ts_item_count s = zlen (fp_items plan) /\ ts_total_bytes s = fp_total_bytes plan /\ ts_error s = None /\
  ts_batch_result s = None /\ ts_completed_items s = completed /\ ts_failed_items s = failed /\
  (ts_state s = Running \/ ts_state s = TransferIsCancelled) /\
  (at_cancelled e = true -> terminal (ts_state s) = true).

Definition listed_as (r : TransferRegistry) (P : ActiveTransfer -> Prop) : Prop :=
  forall e, rg_transfers r !! id = Some e -> P e.

Record task_inv (n completed failed : Z) (r : TransferRegistry) : Prop := {
  ti_ok : registry_ok n r;
  ti_id : id <= n;
  ti_capacity : 0 <= rg_history_capacity r;
  ti_listed : listed_as r (running_as completed failed)
}.

Lemma running_env (completed failed : Z) (a b : ActiveTransfer) :
  running_as completed failed a -> env_entry a b -> running_as completed failed b.
Proof.
  unfold running_as. intros (E1 & E2 & E3 & E4 & E5 & E6 & E7 & E8) [[Hs Ht]|(Ht & now & Hs)]; rewrite Hs; simpl.
  - split_and!; try done. intros [Hc|Hc]%Ht; auto.
  - split_and!; try done. by right.
Qed.

Lemma inv_calls (n completed failed : Z) (cs : list (registry_call * Z)) (r : TransferRegistry) :
  task_inv n completed failed r -> Forall (fun c => others id c.1) cs -> n + zlen cs < 2 ^ 64 - 1 ->
  exists k, k <= n + zlen cs /\ task_inv k completed failed (calls cs r).
Proof.
  intros [Hr Hid Hc Hl] Ho Hn. destruct (others_calls id n cs r Hr Hid Hc Ho Hn) as (Hcf & Hcap & k & Hk & Hok).
  exists k. split; [lia|]. split; [done|lia|lia|]. intros e He. destruct (Hcf e He) as (e0 & H0 & Henv).
  by eapply running_env; [apply Hl|].
Qed.

Lemma report_entry (bytes : option Z) (f : TransferSnapshot -> TransferSnapshot) (now : Z) (r : TransferRegistry)
    (P Q : ActiveTransfer -> Prop) :
  listed_as r P -> (forall e t, P e -> Q (with_throttle t (with_snapshot (fun s => resume (f s)) e))) ->
  listed_as (report id now bytes f r) Q.
Proof.
  intros Hl HPQ e He. unfold report in He. destruct (rg_transfers r !! id) as [e0|] eqn:H0; [|by rewrite H0 in He].
  destruct (throttle_allows now bytes (at_throttle e0)) as [emit t].
  assert (rg_transfers (with_transfers (insert id (with_throttle t (with_snapshot (fun s => resume (f s)) e0))) r) !! id = Some e) as He'.
  { destruct emit; [|done]. by destruct (get id _). }
  simpl in He'. rewrite lookup_insert_eq in He'. injection He' as <-. by apply HPQ, Hl.
Qed.

Lemma inv_items (n completed failed completed' failed' : Z) (current : option string) (now : Z) (r : TransferRegistry) :
  task_inv n completed failed r -> task_inv n completed' failed' (set_batch_items id completed' failed' current now r).
Proof.
  intros [Hr Hid Hc Hl].
  assert (later n n r (set_batch_items id completed' failed' current now r)) as Hlater by by apply later_report.
  split; [by eapply registry_ok_later|done| |].
  { pose proof (settings_report id now None (set_items completed' failed' current) r) as Hs. injection Hs as Hs _.
    unfold set_batch_items. lia. }
  eapply report_entry; [exact Hl|]. intros e t (E1 & E2 & E3 & E4 & E5 & E6 & E7 & E8).
  unfold running_as, resume. simpl. destruct E7 as [E7|E7]; rewrite E7 in *; simpl; split_and!; try done.
  - by left.
  - by right.
  - intros _. by rewrite E7.
Qed.

(** What a client promises: without a cancelled token it does not answer as if cancelled. *)
Definition honest (a : Await) : Prop :=
  forall e, aw_answer a false = Err e -> (core_code e).1 <> TransferCancelled.

Definition await_ok (a : Await) : Prop := honest a /\ Forall (fun c => others id c.1) (aw_meanwhile a).

Definition calls_of (awaits : list Await) : Z := zlen (concat (map aw_meanwhile awaits)).

(** An answer that means "cancelled" comes with a cancelled transfer. *)
Definition cancelled_if (outcome : AppResult ()) (r : TransferRegistry) : Prop :=
  forall e, outcome = Err e -> pe_code e = TransferCancelled ->
  listed_as r (fun en => ts_state (at_snapshot en) = TransferIsCancelled).

Lemma honest_cancelled (n completed failed : Z) (a : Await) (e : Error) (r : TransferRegistry) :
  honest a -> task_inv n completed failed r -> aw_answer a (token id r) = Err e ->
  cancelled_if (Err (from_core_error e OPERATION)) r.
Proof.
  intros Ha [_ _ _ Hl] He pe [= <-] Hcode en Hen. unfold token in He. rewrite Hen in He.
  destruct (Hl en Hen) as (_ & _ & _ & _ & _ & _ & Hs & Ht). destruct (at_cancelled en) eqn:Hc.
  - specialize (Ht eq_refl). destruct Hs as [Hs|Hs]; [by rewrite Hs in Ht|done].
  - exfalso. apply (Ha e He). unfold from_core_error in Hcode. by destruct (core_code e).
Qed.

(** The answers a part of the task got. *)
Definition answered (awaits : list Await) (partials : list CoreBatchResult) : Prop :=
  Forall2 (fun a p => exists b, aw_answer a b = Ok p) awaits partials.

Definition merged (start : CoreBatchResult) (partials : list CoreBatchResult) : CoreBatchResult :=
  fold_left merge_core_batch partials start.

Definition tree_count (t : PlanTask) : Z := pt_completed t + pt_failed t.

Lemma run_trees_ok (trees : list TreeTransferDto) (awaits : list Await) (t : PlanTask) (n : Z) (r : TransferRegistry) :
  task_inv n (pt_completed t) (pt_failed t) r -> Forall await_ok awaits -> n + calls_of awaits < 2 ^ 64 - 1 ->
  (length trees <= length awaits)%nat ->
  exists outcome t' rest r' partials used n',
    run_trees id trees awaits t r = Some (outcome, t', rest, r') /\
    task_inv n' (pt_completed t') (pt_failed t') r' /\ n' + calls_of rest < 2 ^ 64 - 1 /\ cancelled_if outcome r' /\
    answered used partials /\ pt_result t' = merged (pt_result t) partials /\
    pt_failed t' = pt_failed t /\ pt_completed t' = pt_completed t + zlen partials /\ (length partials <= length trees)%nat /\
    (exists more, awaits = used ++ more) /\
    (outcome = Ok () -> used ++ rest = awaits /\ length used = length trees).
Proof.
  revert awaits t n r. induction trees as [|tree trees IH]; intros awaits t n r Hinv Haw Hn Hlen; cbn [run_trees].
  { exists (Ok ()), t, awaits, r, [], [], n. split_and!; try done; try lia; [constructor|cbn; lia|by exists awaits]. }
  destruct awaits as [|a awaits]; [cbn in Hlen; lia|]. apply Forall_cons in Haw as [[Ha Hother] Haw].
  unfold calls_of in Hn. cbn [map concat] in Hn. rewrite length_app in Hn. fold (calls_of awaits) in Hn.
  destruct (inv_calls n _ _ (aw_meanwhile a) r Hinv Hother) as (k & Hk & Hinv'); [unfold calls_of in *; lia|].
  set (r1 := calls (aw_meanwhile a) r) in *. destruct (aw_answer a (token id r1)) as [partial|e] eqn:Hans.
  2: { exists (Err (from_core_error e OPERATION)), t, awaits, r1, [], [], k.
       split_and!; try done; [unfold calls_of in *; lia|by eapply honest_cancelled|constructor|cbn; lia|cbn; lia|by exists (a :: awaits)]. }
  set (t1 := mkPlanTask _ _ _).
  destruct (IH awaits t1 k (set_batch_items id (pt_completed t1) (pt_failed t1) (Some (tt_source tree)) (aw_now a) r1))
    as (outcome & t' & rest & r' & partials & used & n' & Hrun & Hinv2 & Hn' & Hcan & Hans2 & Hres & Hf & Hcomp & Hle & (more & Hmore) & Hok);
    [by eapply inv_items|done|unfold calls_of in *; lia|cbn in Hlen; lia|].
  exists outcome, t', rest, r', (partial :: partials), (a :: used), n'.
  split_and!; try done; [constructor; [by eexists|done]|cbn in *; lia|cbn; lia|exists more; cbn; by rewrite <- Hmore|].
  intros Ho. destruct (Hok Ho) as [Hu Hl]. split; cbn; [by rewrite <- Hu|by rewrite Hl].
Qed.

(** The client accounts for every file of a batch: [batch_transfer_accounts] of
    ClientBatchProps.v. *)
Definition accounts (files : list BatchTransferItemDto) (a : Await) : Prop :=
  forall b p, aw_answer a b = Ok p ->
  (length (Domain.br_ok p) + length (Domain.br_failures p) = length files)%nat.

Lemma run_files_ok (files : list BatchTransferItemDto) (awaits : list Await) (t : PlanTask) (n : Z) (r : TransferRegistry) :
  task_inv n (pt_completed t) (pt_failed t) r -> Forall await_ok awaits -> n + calls_of awaits < 2 ^ 64 - 1 ->
  (files <> [] -> (1 <= length awaits)%nat) -> (forall a, head awaits = Some a -> accounts files a) ->
  exists outcome t' r' partials used n',
    run_files id files awaits t r = Some (outcome, t', r') /\
    task_inv n' (pt_completed t') (pt_failed t') r' /\ cancelled_if outcome r' /\
    answered used partials /\ pt_result t' = merged (pt_result t) partials /\
    tree_count t <= tree_count t' <= tree_count t + zlen files /\ (exists more, awaits = used ++ more) /\
    (outcome = Ok () -> length used = (if decide (files = []) then 0%nat else 1%nat) /\ tree_count t' = tree_count t + zlen files).
Proof.
  intros Hinv Haw Hn Hlen Hacc. unfold run_files. destruct files as [|file files].
  { exists (Ok ()), t, r, [], [], n. split_and!; try done.
    - apply Forall2_nil_2.
    - cbn. lia.
    - by exists awaits.
    - intros _. split; [done|]. cbn. lia. }
  specialize (Hlen ltac:(done)). destruct awaits as [|a awaits]; [cbn in Hlen; lia|].
  apply Forall_cons in Haw as [[Ha Hother] Haw]. specialize (Hacc a eq_refl).
  unfold calls_of in Hn. cbn [map concat] in Hn. rewrite length_app in Hn.
  destruct (inv_calls n _ _ (aw_meanwhile a) r Hinv Hother) as (k & Hk & Hinv'); [lia|].
  set (r1 := calls (aw_meanwhile a) r) in *. destruct (aw_answer a (token id r1)) as [partial|e] eqn:Hans.
  - specialize (Hacc _ _ Hans).
    eexists (Ok ()), _, _, [partial], [a], k. split_and!; [reflexivity|by eapply inv_items|done| |done|..].
    + by repeat constructor; eexists.
    + unfold tree_count. cbn [pt_completed pt_failed]. lia.
    + unfold tree_count. cbn [pt_completed pt_failed]. lia.
    + by exists awaits.
    + intros _. split; [done|]. unfold tree_count. cbn [pt_completed pt_failed]. lia.
  - eexists (Err _), t, r1, [], [], k. split_and!; [reflexivity|done|by eapply honest_cancelled|constructor|done|cbn; lia..|by exists (a :: awaits)|done].
Qed.

Definition parts : nat := (length (tree_parts plan) + if decide (file_parts plan = []) then 0 else 1)%nat.

Lemma split_items : zlen (tree_parts plan) + zlen (file_parts plan) = zlen (fp_items plan).
Proof.
  unfold tree_parts, file_parts. rewrite !length_fmap. induction (fp_items plan) as [|[so de [] si] items IH]; [done|..].
  - rewrite filter_cons_True, filter_cons_False by done. cbn [length]. lia.
  - rewrite filter_cons_False, filter_cons_True by done. cbn [length]. lia.
Qed.

Lemma run_parts_ok (awaits : list Await) (n : Z) (r : TransferRegistry) :
  task_inv n 0 0 r -> Forall await_ok awaits -> n + calls_of awaits < 2 ^ 64 - 1 -> (parts <= length awaits)%nat ->
  (forall a, awaits !! length (tree_parts plan) = Some a -> accounts (file_parts plan) a) ->
  exists outcome t r' partials used n',
    run_parts id plan awaits r = Some (outcome, t, r') /\
    task_inv n' (pt_completed t) (pt_failed t) r' /\ cancelled_if outcome r' /\
    answered used partials /\ pt_result t = merged (core_result [] []) partials /\ (exists more, awaits = used ++ more) /\
    0 <= tree_count t <= zlen (fp_items plan) /\
    (outcome = Ok () -> length used = parts /\ tree_count t = zlen (fp_items plan)).
Proof.
  intros Hinv Haw Hn Hlen Hacc. unfold run_parts. pose proof split_items as Hitems. unfold parts in *.
  destruct (run_trees_ok (tree_parts plan) awaits (mkPlanTask (core_result [] []) 0 0) n r Hinv Haw Hn)
    as (outcome & t & rest & r1 & partials & used & n1 & Hrun & Hinv1 & Hn1 & Hcan & Hans & Hres & Hf & Hcomp & Hle & (more & Hmore) & Hok);
    [lia|]. rewrite Hrun. cbn [pt_completed pt_failed pt_result] in *.
  destruct outcome as [[]|e].
  2: { exists (Err e), t, r1, partials, used, n1. unfold tree_count. split_and!; try done; [by exists more|lia..]. }
  destruct (Hok eq_refl) as [Hrest Hused]. pose proof (Forall2_length _ _ _ Hans) as Hlp.
  assert (length rest = (length awaits - length (tree_parts plan))%nat) as Hlr by (rewrite <- Hrest, length_app; lia).
  destruct (run_files_ok (file_parts plan) rest t n1 r1)
    as (outcome & t' & r2 & partials' & used' & n2 & Hrun2 & Hinv2 & Hcan2 & Hans2 & Hres2 & Hcount & (more' & Hmore') & Hok2);
    [done|by rewrite <- Hrest, Forall_app in Haw; destruct Haw|done| | |].
  { intros Hne. rewrite decide_False in Hlen by done. lia. }
  { intros a Ha. apply Hacc. rewrite <- Hrest, lookup_app_r by lia. rewrite Hused, Nat.sub_diag. by destruct rest. }
  exists outcome, t', r2, (partials ++ partials'), (used ++ used'), n2. unfold tree_count in *.
  split_and!; try done; [by apply Forall2_app| |exists more'; by rewrite <- Hrest, Hmore', app_assoc|lia|lia|].
  - rewrite Hres2, Hres. unfold merged. by rewrite fold_left_app.
  - intros Ho. destruct (Hok2 Ho) as [Hu Hc]. rewrite length_app. split; lia.
Qed.

(** The transition to [Running] at the start of the task. *)
Lemma inv_start (n now : Z) (r : TransferRegistry) (e0 : ActiveTransfer) :
  registry_ok n r -> 0 <= rg_history_capacity r -> rg_transfers r !! id = Some e0 ->
  (let s := at_snapshot e0 in
   ts_item_count s = zlen (fp_items plan) /\ ts_total_bytes s = fp_total_bytes plan /\ ts_error s = None /\
   ts_batch_result s = None /\ ts_completed_items s = 0 /\ ts_failed_items s = 0 /\
   (ts_state s = Queued \/ ts_state s = TransferIsCancelled) /\ (at_cancelled e0 = true -> ts_state s = TransferIsCancelled)) ->
  task_inv n 0 0 (transition id Running now r).2.
Proof.
  intros Hr Hc He0 (E1 & E2 & E3 & E4 & E5 & E6 & E7 & E8). pose proof (later_transition n id Running now r ltac:(done) Hr) as Hl.
  split; [by eapply registry_ok_later|destruct Hr as (_ & _ & Hok); destruct (Hok id e0 He0) as [? _]; lia| |].
  { pose proof (settings_transition id Running now r) as Hs. injection Hs as Hs _. lia. }
  intros e He. unfold transition in He. rewrite He0 in He. simpl in He. rewrite lookup_insert_eq in He. injection He as <-.
  unfold running_as, next_snapshot. simpl. destruct E7 as [E7|E7]; rewrite E7; simpl; split_and!; try done.
  - by left.
  - intros Hx%E8. congruence.
  - by right.
  - by rewrite E7.
Qed.


(** ** Settling *)

Lemma listed_alter (f : ActiveTransfer -> ActiveTransfer) (r : TransferRegistry) (P Q : ActiveTransfer -> Prop) :
  listed_as r P -> (forall e, P e -> Q (f e)) -> listed_as (with_transfers (alter f id) r) Q.
Proof.
  intros Hl HPQ e He. simpl in He. rewrite lookup_alter_eq in He. destruct (rg_transfers r !! id) as [e0|] eqn:H0; [|done].
  injection He as <-. by apply HPQ, Hl.
Qed.

Lemma listed_transition (next : TransferState) (now : Z) (r : TransferRegistry) (P Q : ActiveTransfer -> Prop) :
  listed_as r P -> (forall e, P e -> Q (with_snapshot (next_snapshot next now) e)) ->
  listed_as (transition_publish id next now r) Q.
Proof.
  intros Hl HPQ e He. rewrite transition_publish_entries in He. unfold transition in He.
  destruct (rg_transfers r !! id) as [e0|] eqn:H0; simpl in He; [|by rewrite H0 in He].
  rewrite lookup_insert_eq in He. injection He as <-. by apply HPQ, Hl.
Qed.

Lemma listed_image (f : ActiveTransfer -> ActiveTransfer) (r : TransferRegistry) (P : ActiveTransfer -> Prop) :
  listed_as r P -> listed_as (with_transfers (alter f id) r) (fun e => exists e0, P e0 /\ e = f e0).
Proof. intros Hl. apply (listed_alter f r P); [done|]. intros e He. by exists e. Qed.

(** The outcome the plan leaves in a transfer that was not cancelled. *)
Definition settled_as (outcome : AppResult ()) (t : PlanTask) (s : TransferSnapshot) : Prop :=
  ts_batch_result s = Some (batch_result_to_dto render (pt_result t)) /\
  ts_completed_items s + ts_failed_items s = tree_count t /\
  match outcome, Domain.br_failures (pt_result t) with
  | Ok _, [] =>
      ts_state s = Completed /\ ts_error s = None /\
      (forall total, fp_total_bytes plan = Some total -> ts_transferred_bytes s = total)
  | Ok _, failures =>
      ts_state s = Failed /\
      ts_error s = Some (partial_error (existsb is_transport failures) (length failures) (length (fp_items plan)))
  | Err e, _ => ts_state s = Failed /\ ts_error s = Some e /\ pe_code e <> TransferCancelled
  end.

Definition settled (outcome : AppResult ()) (t : PlanTask) (e : ActiveTransfer) : Prop :=
  let s := at_snapshot e in
  ts_item_count s = zlen (fp_items plan) /\
  (ts_state s = TransferIsCancelled /\ ts_batch_result s = None \/ settled_as outcome t s).

Lemma settle_progress (completed failed now : Z) (r : TransferRegistry) :
  listed_as r (running_as completed failed) ->
  listed_as (match fp_total_bytes plan with Some total => set_progress id total total now r | None => r end)
    (fun e => running_as completed failed e /\
       forall total, fp_total_bytes plan = Some total -> ts_transferred_bytes (at_snapshot e) = total).
Proof.
  intros Hl. destruct (fp_total_bytes plan) as [total|] eqn:Htotal; [|intros e He; split; [by apply Hl|done]].
  eapply report_entry; [exact Hl|]. intros e th (E1 & E2 & E3 & E4 & E5 & E6 & E7 & E8).
  unfold running_as, resume. simpl. rewrite Htotal. destruct E7 as [E7|E7]; rewrite E7 in *; simpl; split_and!; try done;
    try (by intros total' [= <-]); [by left|by right|by intros _; rewrite E7].
Qed.

Lemma settle_ok (outcome : AppResult ()) (t : PlanTask) (now : Z) (r : TransferRegistry) :
  listed_as r (running_as (pt_completed t) (pt_failed t)) -> cancelled_if outcome r ->
  listed_as (settle_plan render id plan outcome (pt_result t) now r).1 (settled outcome t).
Proof.
  intros Hl Hcan. unfold settle_plan, settled, settled_as, tree_count.
  destruct outcome as [u|e]; [destruct (Domain.br_failures (pt_result t)) as [|f fs] eqn:Hf|]; cbn [fst].
  - eapply listed_transition; [eapply listed_image, settle_progress, Hl|].
    intros e (e0 & (E & Hbytes) & ->). destruct E as (E1 & E2 & E3 & E4 & E5 & E6 & E7 & E8).
    unfold next_snapshot. destruct E7 as [E7|E7]; simpl; rewrite E7; simpl; rewrite E7; simpl; (split; [done|]).
    + right. split_and!; try done. lia.
    + by left.
  - eapply listed_transition; [eapply listed_image, listed_image, Hl|].
    intros e (e1 & (e0 & E & ->) & ->). destruct E as (E1 & E2 & E3 & E4 & E5 & E6 & E7 & E8).
    unfold next_snapshot. destruct E7 as [E7|E7]; simpl; rewrite E7; simpl; rewrite E7; simpl; (split; [done|]).
    + right. split_and!; try done. lia.
    + by left.
  - destruct (bool_decide (pe_code e = TransferCancelled)) eqn:Hcode; cbn [fst].
    + apply bool_decide_eq_true in Hcode. intros en Hen.
      assert (rg_transfers r !! id = Some en) as Hen' by (by destruct (get id r)).
      destruct (Hl en Hen') as (E1 & E2 & E3 & E4 & E5 & E6 & E7 & E8). split; [done|]. left.
      split; [by apply (Hcan e eq_refl Hcode)|done].
    + apply bool_decide_eq_false in Hcode. eapply listed_transition; [eapply listed_image, listed_image, Hl|].
      intros en (e1 & (e0 & E & ->) & ->). destruct E as (E1 & E2 & E3 & E4 & E5 & E6 & E7 & E8).
      unfold next_snapshot. destruct E7 as [E7|E7]; simpl; rewrite E7; simpl; rewrite E7; simpl; (split; [done|]).
      * right. split_and!; try done. lia.
      * by left.
Qed.

(** When the session is marked as lost, a transfer of the plan or the plan itself failed in
    the transport. *)
Lemma settle_lost (outcome : AppResult ()) (t : PlanTask) (now : Z) (r : TransferRegistry) :
  (settle_plan render id plan outcome (pt_result t) now r).2 = true <->
  match outcome with
  | Ok _ => exists f, f ∈ Domain.br_failures (pt_result t) /\ bf_code f = Some Transport
  | Err e => pe_code e = ConnectFailed
  end.
Proof.
  unfold settle_plan. destruct outcome as [u|e].
  - assert (existsb is_transport (Domain.br_failures (pt_result t)) = true <->
            exists f, f ∈ Domain.br_failures (pt_result t) /\ bf_code f = Some Transport) as <-.
    { rewrite existsb_exists. unfold is_transport. setoid_rewrite bool_decide_eq_true. by setoid_rewrite list_elem_of_In. }
    by destruct (Domain.br_failures (pt_result t)).
  - unfold connection_lost_code. destruct (bool_decide (pe_code e = TransferCancelled)) eqn:Hc; cbn [snd].
    + apply bool_decide_eq_true in Hc. rewrite Hc. done.
    + apply bool_decide_eq_true.
Qed.
End Task.

(** C21.  Executing a file plan, whatever others do to the registry meanwhile (registering,
    cancelling, evicting, finishing other transfers).  Once the client has answered for every
    tree and for the batch of files, or earlier with an error, the task ends; the transfer, if
    it is still listed, is then in a final state: cancelled, or completed exactly when the client
    answered for every part and no file failed, or else failed with the error.  Unless it was
    cancelled its result is everything the client reported, in order, also when the plan ends
    half-way, its bytes are the planned ones when it completed, and its counters never exceed
    the items of the plan, each of which is counted once when every part was answered.  The
    session is given up exactly when the transport failed. *)
Theorem plan_run_exact `{HashOrder} (render : message -> string) (id n now settled_at : Z) (plan : FileOperationPlan)
    (awaits : list Await) (r : TransferRegistry) (e0 : ActiveTransfer)
    (Hregistry : registry_ok n r /\ 0 <= rg_history_capacity r /\ n + calls_of awaits < 2 ^ 64 - 1)
    (Hlisted : rg_transfers r !! id = Some e0)
    (Hfresh : let s := at_snapshot e0 in
       ts_item_count s = zlen (fp_items plan) /\ ts_total_bytes s = fp_total_bytes plan /\ ts_error s = None /\
       ts_batch_result s = None /\ ts_completed_items s = 0 /\ ts_failed_items s = 0 /\
       (ts_state s = Queued \/ ts_state s = TransferIsCancelled) /\ (at_cancelled e0 = true -> ts_state s = TransferIsCancelled))
    (Hawaits : Forall (await_ok id) awaits)
    (Hfiles : forall a, awaits !! length (tree_parts plan) = Some a -> accounts (file_parts plan) a)
    (Henough : (parts plan <= length awaits)%nat) :
  exists outcome t partials used r' lost,
    run_plan render id plan awaits now settled_at r = Some (r', lost) /\
    answered used partials /\ (exists more, awaits = used ++ more) /\
    pt_result t = merged (core_result [] []) partials /\
    (outcome = Ok () -> length used = parts plan /\ tree_count t = zlen (fp_items plan)) /\
    0 <= tree_count t <= zlen (fp_items plan) /\
    (forall e, rg_transfers r' !! id = Some e ->
       terminal (ts_state (at_snapshot e)) = true /\ settled render plan outcome t e) /\
    (lost = true <-> match outcome with
                     | Ok _ => exists f, f ∈ Domain.br_failures (pt_result t) /\ bf_code f = Some Transport
                     | Err e => pe_code e = ConnectFailed
                     end).
Proof.
  destruct Hregistry as (Hr & Hc & Hn). pose proof (inv_start id plan n now r e0 Hr Hc Hlisted Hfresh) as Hinv.
  destruct (run_parts_ok id plan awaits n _ Hinv Hawaits Hn Henough Hfiles)
    as (outcome & t & r1 & partials & used & n' & Hrun & Hinv' & Hcan & Hans & Hres & Hmore & Hcount & Hok).
  exists outcome, t, partials, used, (settle_plan render id plan outcome (pt_result t) settled_at r1).1,
    (settle_plan render id plan outcome (pt_result t) settled_at r1).2.
  split; [unfold run_plan; rewrite Hrun; by destruct (settle_plan _ _ _ _ _ _ _)|].
  split; [done|]. split; [done|]. split; [done|]. split; [done|]. split; [done|]. split; [|apply settle_lost].
  intros e He. destruct Hinv' as [_ _ _ Hl]. pose proof (settle_ok render id plan outcome t settled_at r1 Hl Hcan e He) as Hs.
  split; [|done]. destruct Hs as [_ [[-> _]|(_ & _ & Hs)]]; [done|].
  destruct outcome as [u|e']; [destruct (Domain.br_failures (pt_result t))|]; by destruct Hs as [-> _].
Qed.

(** A plan of one tree and two files; another caller starts a transfer while it runs. *)
Definition sample_plan : FileOperationPlan :=
  mkPlan PlanDownload 7 [mkPlanItem "/a" "/x/a" false (Some 3); mkPlanItem "/d" "/x/d" true None; mkPlanItem "/b" "/x/b" false (Some 4)]
    [] 2 1 (Some 7) true true.

Definition sample_awaits : list Await :=
  [mkAwait (fun _ => Ok (core_result [mkBatchTransferItem "/d/1" "/x/d/1"] [])) [(CallStart 7 Upload "/y" "/z", 11)] 12;
   mkAwait (fun cancelled => if cancelled : bool then Err EInterrupted
                             else Ok (core_result [mkBatchTransferItem "/a" "/x/a"; mkBatchTransferItem "/b" "/x/b"] []))
     [] 13].

Definition sample_start : Z * TransferRegistry :=
  start_batch_plan (mkExecute sample_plan false 1) 10 (registry_new 9 None).

Lemma plan_run_exact_witness :
  exists r' lost e, run_plan (fun _ => "text") 1 sample_plan sample_awaits 10 14 sample_start.2 = Some (r', lost) /\
    lost = false /\ rg_transfers r' !! 1 = Some e /\ terminal (ts_state (at_snapshot e)) = true /\
    ts_state (at_snapshot e) = Completed /\ ts_completed_items (at_snapshot e) = 3.
Proof.
  destruct (rg_transfers sample_start.2 !! 1) as [e0|] eqn:He0; [|vm_compute in He0; discriminate].
  destruct (plan_run_exact (fun _ => "text") 1 1 10 14 sample_plan sample_awaits sample_start.2 e0)
    as (outcome & t & partials & used & r' & lost & Hrun & _ & _ & _ & _ & _ & Hlisted & _).
  - split; [|split; [vm_compute; discriminate|vm_compute; reflexivity]].
    unfold registry_ok. split; [reflexivity|]. split; [lia|]. intros id e He.
    assert (rg_transfers sample_start.2 = {[1 := e0]}) as Hm.
    { vm_compute in He0. injection He0 as <-. vm_compute. reflexivity. }
    rewrite Hm in He. apply lookup_singleton_Some in He as [<- <-]. vm_compute in He0. injection He0 as <-.
    split; [lia|]. split; [reflexivity|]. split; [intros [? [=]]|done].
  - exact He0.
  - vm_compute in He0. injection He0 as <-. split_and!; try reflexivity; [by left|done].
  - repeat constructor; intros e [=].
  - intros a [= <-] b p Hp. destruct b; [done|]. injection Hp as <-. reflexivity.
  - vm_compute. lia.
  - destruct (rg_transfers r' !! 1) as [e|] eqn:He; [|vm_compute in Hrun; injection Hrun as <- <-; vm_compute in He; discriminate].
    exists r', lost, e. split; [exact Hrun|]. destruct (Hlisted e eq_refl) as [Hterm _].
    vm_compute in Hrun. injection Hrun as <- <-. vm_compute in He. injection He as <-. split_and!; [reflexivity..|exact Hterm|reflexivity|reflexivity].
Defined.
