(* ===== verification/Runtime.v ===== *)
(** * Sessions, launches and shutdown

    The concurrent part of crates/handshaker-application/src/runtime.rs: the table of sessions
    and their states, the loss of a connection, the deterministic close, the launch of
    transfers under the gate, and the shutdown.  A step is one critical section or one atomic
    operation of one of the tasks.  The events of transfers are on the hub of the registry, all
    others on [rt_hub]. *)

From Stdlib Require Import Strings.String.
From stdpp Require Import gmap.
From S2P Require Import Prelude Errors AppErrors Domain EventHub Transfer Devices MediaDto.

#[local] Open Scope string_scope.
#[local] Open Scope list_scope.
#[local] Open Scope Z_scope.

(** The discriminants kept in the atomic. *)
Definition session_state_u8 (s : SessionState) : Z :=
  match s with Connecting => 1 | SessionReady => 2 | Disconnecting => 3 | SessionIsClosed => 4 | SessionFailed => 5 end.

Definition session_state_from_u8 (value : Z) : SessionState :=
  if value =? 1 then Connecting else if value =? 2 then SessionReady else if value =? 3 then Disconnecting
  else if value =? 4 then SessionIsClosed else SessionFailed.

Lemma session_state_round_trip (s : SessionState) : session_state_from_u8 (session_state_u8 s) = s.
Proof. by destruct s. Qed.

Record ActiveSession := mkActiveSession {
  as_device : DeviceDescriptor;
  as_device_info : DeviceInfoDto;
  as_connected_at_ms : Z;
  as_last_activity_at_ms : Z;
  as_state : SessionState;
  as_bridged : bool                  (* the event task was not aborted *)
}.

Definition snapshot (s : ActiveSession) (id : Z) (state : SessionState) : SessionSnapshot :=
  mkSessionSnapshot id (as_device s) (as_device_info s) state (as_connected_at_ms s) (Some (as_last_activity_at_ms s)).

Definition with_state (state : SessionState) (bridged : bool) (s : ActiveSession) : ActiveSession :=
  mkActiveSession (as_device s) (as_device_info s) (as_connected_at_ms s) (as_last_activity_at_ms s) state bridged.

Definition record_activity (now : Z) (s : ActiveSession) : ActiveSession :=
  mkActiveSession (as_device s) (as_device_info s) (as_connected_at_ms s) now (as_state s) (as_bridged s).

(** ** The tasks under way *)

Record LaunchRequest := mkLaunch {
  la_session_id : Z; la_direction : TransferDirectionDto; la_source : string; la_destination : string }.

(** A launch: inside the gate, past the look at [shutting_down], with its session, registered. *)
Inductive Launch :=
  | Entered (q : LaunchRequest)
  | FoundOpen (q : LaunchRequest)
  | FoundSession (q : LaunchRequest)
  | Registered (id : Z).

(** A [close_session]: before the exchange, waiting for transfer tasks, before the core close.
    [cl_shutdown] are those the shutdown waits for. *)
Inductive ClosePhase := CloseStart | CloseJoining (joins : list Z) | CloseCore.
Record Closer := mkCloser { cl_shutdown : bool; cl_id : Z; cl_session : ActiveSession; cl_phase : ClosePhase }.

Inductive ShutdownPhase := NotShutting | Flagged | Gated | Cancelling (ids : list Z) | Taking | Closing | Stopped.

#[export] Instance ShutdownPhase_eq_dec : EqDecision ShutdownPhase.
Proof. solve_decision. Defined.

Record Runtime := mkRuntime {
  rt_shutting : bool;
  rt_readers : nat;
  rt_writer : bool;
  rt_sessions : gmap Z ActiveSession;
  rt_next_session : Z;
  rt_registry : TransferRegistry;
  rt_hub : EventHub BackendEvent;
  rt_launches : list Launch;           (* under the gate *)
  rt_plans : list Launch;              (* execute_file_plan, which does not take it *)
  rt_closers : list Closer;
  rt_phase : ShutdownPhase
}.

Definition runtime_new (history_capacity : Z) (history_ttl : option Z) : Runtime :=
  mkRuntime false 0 false ∅ 1 (registry_new history_capacity history_ttl) hub_new [] [] [] NotShutting.

(** ** Field updates *)

Definition on_registry (f : TransferRegistry -> TransferRegistry) (rt : Runtime) : Runtime :=
  mkRuntime (rt_shutting rt) (rt_readers rt) (rt_writer rt) (rt_sessions rt) (rt_next_session rt) (f (rt_registry rt))
    (rt_hub rt) (rt_launches rt) (rt_plans rt) (rt_closers rt) (rt_phase rt).

Definition on_sessions (f : gmap Z ActiveSession -> gmap Z ActiveSession) (rt : Runtime) : Runtime :=
  mkRuntime (rt_shutting rt) (rt_readers rt) (rt_writer rt) (f (rt_sessions rt)) (rt_next_session rt) (rt_registry rt)
    (rt_hub rt) (rt_launches rt) (rt_plans rt) (rt_closers rt) (rt_phase rt).

Definition publish_backend (e : BackendEvent) (now : Z) (rt : Runtime) : Runtime :=
  mkRuntime (rt_shutting rt) (rt_readers rt) (rt_writer rt) (rt_sessions rt) (rt_next_session rt) (rt_registry rt)
    (publish e now (rt_hub rt)) (rt_launches rt) (rt_plans rt) (rt_closers rt) (rt_phase rt).

Definition set_launches (readers : nat) (launches : list Launch) (rt : Runtime) : Runtime :=
  mkRuntime (rt_shutting rt) readers (rt_writer rt) (rt_sessions rt) (rt_next_session rt) (rt_registry rt)
    (rt_hub rt) launches (rt_plans rt) (rt_closers rt) (rt_phase rt).

Definition set_plans (plans : list Launch) (rt : Runtime) : Runtime :=
  mkRuntime (rt_shutting rt) (rt_readers rt) (rt_writer rt) (rt_sessions rt) (rt_next_session rt) (rt_registry rt)
    (rt_hub rt) (rt_launches rt) plans (rt_closers rt) (rt_phase rt).

Definition set_closers (closers : list Closer) (rt : Runtime) : Runtime :=
  mkRuntime (rt_shutting rt) (rt_readers rt) (rt_writer rt) (rt_sessions rt) (rt_next_session rt) (rt_registry rt)
    (rt_hub rt) (rt_launches rt) (rt_plans rt) closers (rt_phase rt).

Definition set_phase (shutting writer : bool) (phase : ShutdownPhase) (rt : Runtime) : Runtime :=
  mkRuntime shutting (rt_readers rt) writer (rt_sessions rt) (rt_next_session rt) (rt_registry rt)
    (rt_hub rt) (rt_launches rt) (rt_plans rt) (rt_closers rt) phase.

Definition close_hub (rt : Runtime) : Runtime :=
  mkRuntime (rt_shutting rt) (rt_readers rt) (rt_writer rt) (rt_sessions rt) (rt_next_session rt) (rt_registry rt)
    (hub_close (rt_hub rt)) (rt_launches rt) (rt_plans rt) (rt_closers rt) (rt_phase rt).

(** ** Operations *)

Definition ensure_open (rt : Runtime) : AppResult () :=
  if rt_shutting rt then Err (public_new RuntimeClosed "runtime is shut down") else Ok ().

Definition session_not_found : PublicError := public_new SessionNotFound "session not found".

Definition get_session_snapshot (id : Z) (rt : Runtime) : AppResult SessionSnapshot :=
  match ensure_open rt with
  | Err e => Err e
  | Ok _ => match rt_sessions rt !! id with
            | Some s => Ok (snapshot s id (as_state s))
            | None => Err session_not_found
            end
  end.

Definition session_handle (id : Z) (rt : Runtime) : AppResult ActiveSession :=
  match rt_sessions rt !! id with
  | None => Err session_not_found
  | Some s =>
      if bool_decide (as_state s = SessionReady) then Ok s
      else Err (public_new SessionClosed "session is not ready")
  end.

(** The insertion of [connect], under the lock of the table, with its look at the flag. *)
Definition insert_session (device : DeviceDescriptor) (info : DeviceInfoDto) (now : Z) (rt : Runtime)
  : AppResult Z * Runtime :=
  if rt_shutting rt then (Err (public_new RuntimeClosed "runtime is shut down"), rt)
  else
    let id := rt_next_session rt in
    let s := mkActiveSession (reconcile_device_identity device info) info now now SessionReady true in
    (Ok id, mkRuntime (rt_shutting rt) (rt_readers rt) (rt_writer rt) (<[id := s]> (rt_sessions rt)) ((id + 1) mod 2 ^ 64)
              (rt_registry rt) (rt_hub rt) (rt_launches rt) (rt_plans rt) (rt_closers rt) (rt_phase rt)).

(** [disconnect], past its look at the flag. *)
Definition take_session (id : Z) (rt : Runtime) : AppResult () * Runtime :=
  match rt_sessions rt !! id with
  | None => (Err session_not_found, rt)
  | Some s => (Ok (), set_closers (rt_closers rt ++ [mkCloser false id s CloseStart]) (on_sessions (delete id) rt))
  end.

Section Steps.
Context `{HashOrder}.

(** The part of [mark_connection_lost] under the lock, with the exchange Ready to Failed. *)
Definition fail_session (id : Z) (rt : Runtime) : option SessionSnapshot * Runtime :=
  match rt_sessions rt !! id with
  | None => (None, rt)
  | Some s =>
      if bool_decide (as_state s = SessionReady) then
        (Some (snapshot s id SessionFailed), on_sessions (insert id (with_state SessionFailed false s)) rt)
      else (None, rt)
  end.

Definition mark_connection_lost (id now : Z) (rt : Runtime) : Runtime :=
  match fail_session id rt with
  | (None, rt) => rt
  | (Some s, rt) =>
      let rt := on_registry (fun r => (cancel_for_session id now r).2) rt in
      publish_backend (SessionStateChanged s) now (publish_backend (ConnectionLostEvent id) now rt)
  end.

(** How the explicit close of the core session goes: the last owner closes it, perhaps with an
    error, or another owner still has the client. *)
Inductive CoreClose := CoreClosed (error : option Error) | StillBorrowed.

Definition close_warning (aborted : nat) (outcome : CoreClose) : option PublicError :=
  match outcome with
  | CoreClosed (Some e) => Some (from_core_error e "disconnect")
  | CoreClosed None =>
      if (0 <? aborted)%nat
      then Some (public_new Internal ("aborted " +:+ pretty aborted +:+ " transfer task(s) after close deadline"))
      else None
  | StillBorrowed => Some (public_new Internal "session client still borrowed; connection closed by last owner")
  end.

(** The first step of [close_session]: a session that has failed needs no close. *)
Definition close_start (c : Closer) (now : Z) (r : TransferRegistry) : option Closer * TransferRegistry :=
  match as_state (cl_session c) with
  | SessionIsClosed | SessionFailed => (None, r)
  | _ =>
      let '(joins, r) := cancel_for_session (cl_id c) now r in
      (Some (mkCloser (cl_shutdown c) (cl_id c) (with_state Disconnecting (as_bridged (cl_session c)) (cl_session c))
               (CloseJoining joins)), r)
  end.

(** The last: the final event, and what went wrong. *)
Definition close_finish (c : Closer) (aborted : nat) (outcome : CoreClose) (now : Z) (rt : Runtime) : Runtime :=
  let rt := publish_backend (SessionStateChanged (snapshot (cl_session c) (cl_id c) SessionIsClosed)) now rt in
  match close_warning aborted outcome with
  | Some w => publish_backend (WarningEvent w) now rt
  | None => rt
  end.

Definition begin_launch (q : LaunchRequest) (now : Z) (rt : Runtime) : Z * Runtime :=
  let '(id, r) := start_transfer (la_session_id q) (la_direction q) (la_source q) (la_destination q) now (rt_registry rt) in
  (id, on_registry (fun _ => r) rt).

(** The sessions taken by the shutdown. *)
Definition take_all (rt : Runtime) : Runtime :=
  set_closers (rt_closers rt ++ map (fun kv => mkCloser true kv.1 kv.2 CloseStart) (map_to_list (rt_sessions rt)))
    (on_sessions (fun _ => ∅) rt).

(** ** The interleaving

    [plans] is whether file plans are executed as well. *)
Inductive step (plans : bool) : Runtime -> Runtime -> Prop :=
  (* start_download and start_upload *)
  | step_enter q rt : rt_writer rt = false ->
      step plans rt (set_launches (S (rt_readers rt)) (rt_launches rt ++ [Entered q]) rt)
  | step_open before q after rt : rt_launches rt = before ++ Entered q :: after -> ensure_open rt = Ok () ->
      step plans rt (set_launches (rt_readers rt) (before ++ FoundOpen q :: after) rt)
  | step_session before q after s now rt :
      rt_launches rt = before ++ FoundOpen q :: after -> session_handle (la_session_id q) rt = Ok s ->
      step plans rt (on_sessions (alter (record_activity now) (la_session_id q))
                       (set_launches (rt_readers rt) (before ++ FoundSession q :: after) rt))
  | step_refused before l after rt : rt_launches rt = before ++ l :: after ->
      match l with
      | Entered _ => rt_shutting rt = true
      | FoundOpen q => forall s, session_handle (la_session_id q) rt <> Ok s
      | _ => False
      end ->
      step plans rt (set_launches (Nat.pred (rt_readers rt)) (before ++ after) rt)
  | step_register before q after now rt : rt_launches rt = before ++ FoundSession q :: after ->
      step plans rt (let '(id, rt') := begin_launch q now rt in
                     set_launches (rt_readers rt') (before ++ Registered id :: after) rt')
  | step_publish before id after task now rt : rt_launches rt = before ++ Registered id :: after ->
      step plans rt (on_registry (call (CallPublished id task) now)
                       (set_launches (Nat.pred (rt_readers rt)) (before ++ after) rt))
  (* execute_file_plan *)
  | step_plan_open q rt : plans = true -> ensure_open rt = Ok () ->
      step plans rt (set_plans (rt_plans rt ++ [FoundOpen q]) rt)
  | step_plan_session before q after s now rt :
      rt_plans rt = before ++ FoundOpen q :: after -> session_handle (la_session_id q) rt = Ok s ->
      step plans rt (on_sessions (alter (record_activity now) (la_session_id q)) (set_plans (before ++ FoundSession q :: after) rt))
  | step_plan_register before q after now rt : rt_plans rt = before ++ FoundSession q :: after ->
      step plans rt (let '(id, rt') := begin_launch q now rt in set_plans (before ++ Registered id :: after) rt')
  | step_plan_publish before id after task now rt : rt_plans rt = before ++ Registered id :: after ->
      step plans rt (on_registry (call (CallPublished id task) now) (set_plans (before ++ after) rt))
  (* transfer tasks and other calls *)
  | step_call c now rt : running_call c -> step plans rt (on_registry (call c now) rt)
  | step_lost id now rt : step plans rt (mark_connection_lost id now rt)
  (* connect and disconnect *)
  | step_connect device info now id rt rt' : insert_session device info now rt = (Ok id, rt') -> step plans rt rt'
  | step_connected id s now rt : get_session_snapshot id rt = Ok s ->
      step plans rt (publish_backend (SessionStateChanged s) now rt)
  | step_disconnect id rt rt' : take_session id rt = (Ok (), rt') -> step plans rt rt'
  (* close_session *)
  | step_close_start before c after now rt : rt_closers rt = before ++ c :: after -> cl_phase c = CloseStart ->
      step plans rt (let '(c', r) := close_start c now (rt_registry rt) in
                     set_closers (before ++ option_list c' ++ after) (on_registry (fun _ => r) rt))
  | step_close_join before c after join joins now rt :
      rt_closers rt = before ++ c :: after -> cl_phase c = CloseJoining (join :: joins) ->
      step plans rt (set_closers (before ++ mkCloser (cl_shutdown c) (cl_id c) (cl_session c) (CloseJoining joins) :: after)
                       (on_registry (call (TaskEnds join) now) rt))
  | step_close_joined before c after rt : rt_closers rt = before ++ c :: after -> cl_phase c = CloseJoining [] ->
      step plans rt (set_closers (before ++ mkCloser (cl_shutdown c) (cl_id c) (cl_session c) CloseCore :: after) rt)
  | step_close_finish before c after aborted outcome now rt :
      rt_closers rt = before ++ c :: after -> cl_phase c = CloseCore ->
      step plans rt (close_finish c aborted outcome now (set_closers (before ++ after) rt))
  (* shutdown *)
  | step_flag rt : rt_shutting rt = false -> step plans rt (set_phase true (rt_writer rt) Flagged rt)
  | step_gate now rt : rt_phase rt = Flagged -> rt_readers rt = 0%nat ->
      step plans rt (publish_backend RuntimeStopping now (set_phase (rt_shutting rt) true Gated rt))
  | step_list rt : rt_phase rt = Gated ->
      step plans rt (set_phase (rt_shutting rt) true (Cancelling (ts_id <$> list_transfers (rt_registry rt))) rt)
  | step_cancel id ids now rt : rt_phase rt = Cancelling (id :: ids) ->
      step plans rt (on_registry (call (CallCancel id) now) (set_phase (rt_shutting rt) true (Cancelling ids) rt))
  | step_cancelled rt : rt_phase rt = Cancelling [] -> step plans rt (set_phase (rt_shutting rt) true Taking rt)
  | step_take rt : rt_phase rt = Taking -> step plans rt (take_all (set_phase (rt_shutting rt) true Closing rt))
  | step_stopped rt : rt_phase rt = Closing -> Forall (fun c => cl_shutdown c = false) (rt_closers rt) ->
      step plans rt (close_hub (set_phase (rt_shutting rt) false Stopped rt)).

End Steps.
