(* ===== verification/RuntimeProps.v ===== *)
(** * What the shutdown guarantees

    Over every interleaving of launches, transfer tasks, lost connections, connects,
    disconnects and closes with the shutdown (Runtime.v). *)

From Stdlib Require Import Strings.String.
From stdpp Require Import gmap.
From S2P Require Import Prelude Errors AppErrors Domain EventHub Transfer TransferProps Devices MediaDto Runtime.

#[local] Open Scope string_scope.
#[local] Open Scope list_scope.
#[local] Open Scope Z_scope.

(** ** Transfers that have ended *)

Definition ended_or (P : Z -> Prop) (r : TransferRegistry) : Prop :=
  forall id e, rg_transfers r !! id = Some e -> terminal (ts_state (at_snapshot e)) = true \/ P id.

Definition all_ended (r : TransferRegistry) : Prop := ended_or (fun _ => False) r.

Lemma evolves_terminal (a b : ActiveTransfer) :
  evolves a b -> terminal (ts_state (at_snapshot a)) = true -> terminal (ts_state (at_snapshot b)) = true.
Proof. intros (_ & _ & _ & _ & _ & _ & Ht) Ha. destruct (Ht Ha) as [-> _]. done. Qed.

(** What keeps the numbers keeps the ended ended, and adds nothing. *)
Lemma ended_later (n : Z) (P : Z -> Prop) (a b : TransferRegistry) : later n n a b -> ended_or P a -> ended_or P b.
Proof.
  intros (Ha & Hb & _ & Hg) He id e Hid. destruct (Hg id e Hid) as [_ Hev].
  destruct (rg_transfers a !! id) as [e0|] eqn:H0.
  - destruct (He id e0 H0) as [Ht|Hp]; [left; by eapply evolves_terminal|by right].
  - destruct Hb as (_ & _ & Hb). destruct (Hb id e Hid) as [? _]. lia.
Qed.

Section Props.
Context `{HashOrder}.

(** A cancelled transfer has ended. *)
Lemma cancel_ends (id : Z) (ids : list Z) (now : Z) (r : TransferRegistry) :
  ended_or (fun i => i ∈ id :: ids) r -> ended_or (fun i => i ∈ ids) (call (CallCancel id) now r).
Proof.
  intros He i e Hi. simpl in Hi. unfold cancel_transfer in Hi. destruct (rg_transfers r !! id) as [e0|] eqn:H0.
  2: { simpl in Hi. destruct (He i e Hi) as [Ht|[-> |Hin]%elem_of_cons]; [by left|congruence|by right]. }
  simpl in Hi. unfold transition_publish, transition in Hi. simpl in Hi. rewrite lookup_alter_eq, H0 in Hi. simpl in Hi.
  destruct (decide (i = id)) as [-> |Hne].
  - rewrite lookup_insert_eq in Hi. injection Hi as <-. left. unfold next_snapshot. simpl.
    by destruct (terminal (ts_state (at_snapshot e0))) eqn:Ht.
  - rewrite lookup_insert_ne, lookup_alter_ne in Hi by done.
    destruct (He i e Hi) as [Ht|[Hx|Hin]%elem_of_cons]; [by left|done|by right].
Qed.

Lemma listed_ends (n : Z) (r : TransferRegistry) :
  registry_ok n r -> ended_or (fun i => i ∈ ts_id <$> list_transfers r) r.
Proof.
  intros (_ & _ & Hok) id e He. right. destruct (Hok id e He) as [_ [Hid _]]. unfold list_transfers.
  apply list_elem_of_fmap. exists (at_snapshot e). split; [done|]. apply list_elem_of_fmap. exists (id, e). split; [done|].
  rewrite hash_iter_perm. by apply elem_of_map_to_list.
Qed.

(** ** The invariant *)

Definition held_by_writer (p : ShutdownPhase) : bool :=
  match p with Gated | Cancelling _ | Taking | Closing => true | _ => false end.

(** A launch that will be refused once the flag is set. *)
Definition waiting (l : Launch) : Prop := match l with Entered _ => True | _ => False end.

Definition ends_in_phase (p : ShutdownPhase) (r : TransferRegistry) : Prop :=
  match p with
  | Cancelling ids => ended_or (fun i => i ∈ ids) r
  | Taking | Closing | Stopped => all_ended r
  | _ => True
  end.

Record runtime_ok (n : Z) (rt : Runtime) : Prop := {
  ro_readers : rt_readers rt = length (rt_launches rt);
  ro_plans : rt_plans rt = [];
  ro_flag : rt_shutting rt = negb (bool_decide (rt_phase rt = NotShutting));
  ro_writer : rt_writer rt = held_by_writer (rt_phase rt);
  ro_gate : held_by_writer (rt_phase rt) = true \/ rt_phase rt = Stopped -> Forall waiting (rt_launches rt);
  ro_registry : registry_ok n (rt_registry rt);
  ro_capacity : 0 <= rg_history_capacity (rt_registry rt);
  ro_ended : ends_in_phase (rt_phase rt) (rt_registry rt);
  ro_sessions : rt_phase rt = Closing \/ rt_phase rt = Stopped -> rt_sessions rt = ∅;
  ro_stopped : rt_phase rt = Stopped -> hub_open (rt_hub rt) = false /\ Forall (fun c => cl_shutdown c = false) (rt_closers rt)
}.

Lemma ends_later (n : Z) (p : ShutdownPhase) (a b : TransferRegistry) :
  later n n a b -> ends_in_phase p a -> ends_in_phase p b.
Proof. intros Hl. destruct p; simpl; try done; by eapply ended_later. Qed.

(** Steps that touch nothing but the registry, and keep the numbers. *)
Lemma ok_registry (n : Z) (rt : Runtime) (r : TransferRegistry) :
  runtime_ok n rt -> later n n (rt_registry rt) r -> settings r = settings (rt_registry rt) ->
  runtime_ok n (on_registry (fun _ => r) rt).
Proof.
  intros [H1 H2 H3 H4 H5 H6 H7 H8 H9 H10] Hl Hs. injection Hs as Hs _.
  split; simpl; try done; [eapply registry_ok_later, Hl|lia|by eapply ends_later].
Qed.

Lemma ok_call (n now : Z) (c : registry_call) (rt : Runtime) :
  running_call c -> runtime_ok n rt -> runtime_ok n (on_registry (call c now) rt).
Proof.
  intros Hc Hok. apply (ok_registry n rt (call c now (rt_registry rt))); [done| |apply settings_call].
  apply later_running_call; [by destruct Hok|done].
Qed.

Lemma ok_cancel_session (n now id : Z) (rt : Runtime) :
  runtime_ok n rt -> runtime_ok n (on_registry (fun r => (cancel_for_session id now r).2) rt).
Proof. intros Hok. by apply (ok_call n now (CallCancelSession id)). Qed.

(** An event on a hub that is open or closed. *)
Lemma ok_event (n now : Z) (e : BackendEvent) (rt : Runtime) :
  runtime_ok n rt -> runtime_ok n (publish_backend e now rt).
Proof.
  intros [H1 H2 H3 H4 H5 H6 H7 H8 H9 H10]. split; simpl; try done. intros Hp. destruct (H10 Hp) as [Hh Hc]. split; [|done].
  unfold publish, publish_number, publish_send. simpl. by rewrite Hh.
Qed.

Lemma ok_sessions (n : Z) (f : gmap Z ActiveSession -> gmap Z ActiveSession) (rt : Runtime) :
  (rt_sessions rt = ∅ -> f ∅ = ∅) -> runtime_ok n rt -> runtime_ok n (on_sessions f rt).
Proof.
  intros Hf [H1 H2 H3 H4 H5 H6 H7 H8 H9 H10]. split; simpl; try done.
  intros Hp. rewrite (H9 Hp). by apply Hf, H9.
Qed.

Lemma ok_closers (n : Z) (closers : list Closer) (rt : Runtime) :
  (Forall (fun c => cl_shutdown c = false) (rt_closers rt) -> Forall (fun c => cl_shutdown c = false) closers) ->
  runtime_ok n rt -> runtime_ok n (set_closers closers rt).
Proof.
  intros Hc [H1 H2 H3 H4 H5 H6 H7 H8 H9 H10]. split; simpl; try done.
  intros Hp. destruct (H10 Hp) as [Hh Hs]. split; [done|by apply Hc].
Qed.

(** A closer replaced by others of its kind. *)
Lemma closers_replace (before after mid : list Closer) (c : Closer) :
  Forall (fun c' => cl_shutdown c' = cl_shutdown c) mid ->
  Forall (fun c => cl_shutdown c = false) (before ++ c :: after) ->
  Forall (fun c => cl_shutdown c = false) (before ++ mid ++ after).
Proof.
  rewrite !Forall_app, Forall_cons. intros Hm (Hb & Hc & Ha). split_and!; [done| |done].
  eapply Forall_impl; [exact Hm|]. cbn. congruence.
Qed.

Lemma ok_launches (n : Z) (readers : nat) (launches : list Launch) (rt : Runtime) :
  readers = length launches ->
  (held_by_writer (rt_phase rt) = true \/ rt_phase rt = Stopped -> Forall waiting launches) ->
  runtime_ok n rt -> runtime_ok n (set_launches readers launches rt).
Proof. intros Hr Hw [H1 H2 H3 H4 H5 H6 H7 H8 H9 H10]. by split. Qed.

(** A launch past the flag keeps the gate, so there is no writer and no shutdown behind it. *)
Lemma launch_gate (n : Z) (rt : Runtime) (before after : list Launch) (l : Launch) :
  runtime_ok n rt -> rt_launches rt = before ++ l :: after -> ~ waiting l ->
  ~ (held_by_writer (rt_phase rt) = true \/ rt_phase rt = Stopped).
Proof.
  intros Hok Hl Hw Hp. pose proof (ro_gate n rt Hok Hp) as Hg. rewrite Hl, Forall_app, Forall_cons in Hg.
  by destruct Hg as (_ & Hg & _).
Qed.

Lemma launches_replace (n : Z) (rt : Runtime) (before after mid : list Launch) (l : Launch) (readers : nat) :
  runtime_ok n rt -> rt_launches rt = before ++ l :: after -> readers = length (before ++ mid ++ after) ->
  (~ (held_by_writer (rt_phase rt) = true \/ rt_phase rt = Stopped) \/ Forall waiting mid) ->
  runtime_ok n (set_launches readers (before ++ mid ++ after) rt).
Proof.
  intros Hok Hl Hr Hm. apply ok_launches; [done| |done]. intros Hp. destruct Hm as [Hw|Hm]; [by destruct (Hw Hp)|].
  pose proof (ro_gate n rt Hok Hp) as Hg. rewrite Hl, Forall_app, Forall_cons in Hg. destruct Hg as (Hb & _ & Ha).
  by rewrite !Forall_app.
Qed.

Lemma readers_replace (n : Z) (rt : Runtime) (before after : list Launch) (l l' : Launch) :
  runtime_ok n rt -> rt_launches rt = before ++ l :: after -> rt_readers rt = length (before ++ [l'] ++ after).
Proof. intros Hok Hl. rewrite (ro_readers n rt Hok), Hl, !length_app. done. Qed.

Lemma readers_remove (n : Z) (rt : Runtime) (before after : list Launch) (l : Launch) :
  runtime_ok n rt -> rt_launches rt = before ++ l :: after -> Nat.pred (rt_readers rt) = length (before ++ [] ++ after).
Proof. intros Hok Hl. rewrite (ro_readers n rt Hok), Hl, !length_app. cbn. lia. Qed.

Lemma open_phase (n : Z) (rt : Runtime) :
  runtime_ok n rt -> rt_shutting rt = false -> ~ (held_by_writer (rt_phase rt) = true \/ rt_phase rt = Stopped).
Proof.
  intros Hok Hs [Hp|Hp]; rewrite (ro_flag n rt Hok) in Hs; case_bool_decide as Hb; try done; by rewrite Hb in Hp.
Qed.

(** Registering a transfer, which only happens without a shutdown behind the gate. *)
Lemma ok_register (n now : Z) (q : LaunchRequest) (rt : Runtime) :
  runtime_ok n rt -> n + 1 < 2 ^ 64 - 1 -> ~ (held_by_writer (rt_phase rt) = true \/ rt_phase rt = Stopped) ->
  runtime_ok (n + 1) (begin_launch q now rt).2 /\
  rt_launches (begin_launch q now rt).2 = rt_launches rt /\ rt_readers (begin_launch q now rt).2 = rt_readers rt /\
  rt_phase (begin_launch q now rt).2 = rt_phase rt.
Proof.
  intros [H1 H2 H3 H4 H5 H6 H7 H8 H9 H10] Hn Hp. unfold begin_launch.
  pose proof (later_register n now (la_session_id q) (la_direction q) (la_source q) (la_destination q) _ H6 H7 Hn) as Hl.
  assert (rg_history_capacity (start_transfer (la_session_id q) (la_direction q) (la_source q) (la_destination q) now (rt_registry rt)).2
          = rg_history_capacity (rt_registry rt)) as Hs by reflexivity.
  destruct (start_transfer _ _ _ _ now (rt_registry rt)) as [id r]. simpl in Hl, Hs. split; [|done].
  split; simpl; try done; [eapply registry_ok_later, Hl|lia|].
  destruct (rt_phase rt); simpl in *; try done; exfalso; apply Hp; auto.
Qed.

Lemma ok_phase (n : Z) (shutting writer : bool) (phase : ShutdownPhase) (rt : Runtime) :
  shutting = negb (bool_decide (phase = NotShutting)) -> writer = held_by_writer phase ->
  (held_by_writer phase = true \/ phase = Stopped -> Forall waiting (rt_launches rt)) ->
  ends_in_phase phase (rt_registry rt) -> (phase = Closing \/ phase = Stopped -> rt_sessions rt = ∅) ->
  (phase = Stopped -> hub_open (rt_hub rt) = false /\ Forall (fun c => cl_shutdown c = false) (rt_closers rt)) ->
  runtime_ok n rt -> runtime_ok n (set_phase shutting writer phase rt).
Proof. intros A1 A2 A3 A4 A5 A6 [H1 H2 H3 H4 H5 H6 H7 H8 H9 H10]. by split. Qed.

(** In a phase of the shutdown, everything the next phase inherits. *)
Lemma waiting_in (n : Z) (rt : Runtime) :
  runtime_ok n rt -> held_by_writer (rt_phase rt) = true -> Forall waiting (rt_launches rt) /\ rt_shutting rt = true.
Proof.
  intros Hok Hp. split; [by apply (ro_gate n); [|left]|]. rewrite (ro_flag n rt Hok).
  case_bool_decide as Hb; [by rewrite Hb in Hp|done].
Qed.

Lemma close_start_ok (n : Z) (c : Closer) (now : Z) (r : TransferRegistry) :
  registry_ok n r -> later n n r (close_start c now r).2 /\ settings (close_start c now r).2 = settings r /\
  Forall (fun c' => cl_shutdown c' = cl_shutdown c) (option_list (close_start c now r).1).
Proof.
  intros Hr. pose proof (later_cancel_entries (session_entries (cl_id c) r) n now [] r Hr) as Hl.
  pose proof (settings_cancel_entries (session_entries (cl_id c) r) now [] r) as Hs.
  fold (cancel_for_session (cl_id c) now r) in Hl, Hs. unfold close_start.
  destruct (cancel_for_session (cl_id c) now r) as [joins r'].
  destruct (as_state (cl_session c)); cbn [fst snd option_list] in *;
    (split; [first [done|by apply later_refl]|]; split; [done|]; by repeat constructor).
Qed.

Lemma step_ok (n : Z) (a b : Runtime) :
  step false a b -> runtime_ok n a -> n + 1 < 2 ^ 64 - 1 -> exists m, n <= m <= n + 1 /\ runtime_ok m b.
Proof.
  intros Hs Hok Hn. assert (n <= n <= n + 1) as Hnn by lia.
  destruct Hs as [q rt Hw|before q after rt Hl Hopen|before q after s now rt Hl Hsess|before l after rt Hl Hr|before q after now rt Hl
    |before id after task now rt Hl|q rt Hp _|before q after s now rt Hl _|before q after now rt Hl|before id after task now rt Hl
    |c now rt Hc|id now rt|device info now id rt rt' Hi|id s now rt _|id rt rt' Ht|before c after now rt Hl Hc
    |before c after join joins now rt Hl Hc|before c after rt Hl Hc|before c after aborted outcome now rt Hl Hc
    |rt Hf|now rt Hp Hr|rt Hp|id ids now rt Hp|rt Hp|rt Hp|rt Hp Hc];
    try (by pose proof (ro_plans n rt Hok) as Hplans; rewrite Hl in Hplans; destruct before); try done.
  - exists n. split; [done|]. pose proof (ro_readers n rt Hok) as Hr. apply ok_launches; [rewrite length_app; cbn; lia| |done].
    intros Hp. apply Forall_app. split; [by apply (ro_gate n)|by repeat constructor].
  - exists n. split; [done|]. apply (launches_replace n rt before after [FoundOpen q] (Entered q)); [done|done| |].
    + by eapply readers_replace.
    + left. apply (open_phase n); [done|]. unfold ensure_open in Hopen. by destruct (rt_shutting rt).
  - exists n. split; [done|]. apply ok_sessions; [intros _; apply alter_empty|].
    apply (launches_replace n rt before after [FoundSession q] (FoundOpen q)); [done|done| |].
    + by eapply readers_replace.
    + left. by apply (launch_gate n rt before after (FoundOpen q)); [..|intros []].
  - exists n. split; [done|]. apply (launches_replace n rt before after [] l); [done|done| |by right].
    by eapply readers_remove.
  - exists (n + 1). split; [lia|].
    pose proof (launch_gate n rt before after (FoundSession q) Hok Hl ltac:(by intros [])) as Hg.
    destruct (ok_register n now q rt Hok Hn Hg) as (Hok' & Hl' & Hr' & Hp').
    destruct (begin_launch q now rt) as [id rt']. cbn [snd] in *. rewrite Hl in Hl'.
    apply (launches_replace (n + 1) rt' before after [Registered id] (FoundSession q)); [done|done| |].
    + by eapply readers_replace.
    + left. by rewrite Hp'.
  - exists n. split; [done|]. apply ok_call; [done|].
    apply (launches_replace n rt before after [] (Registered id)); [done|done| |by right]. by eapply readers_remove.
  - exists n. split; [done|by apply ok_call].
  - exists n. split; [done|]. unfold mark_connection_lost, fail_session.
    destruct (rt_sessions rt !! id) as [s|] eqn:Hid; [|done]. destruct (bool_decide _); [|done].
    apply ok_event, ok_event, ok_cancel_session, ok_sessions; [|done]. intros He. by rewrite He, lookup_empty in Hid.
  - exists n. split; [done|]. unfold insert_session in Hi. destruct (rt_shutting rt) eqn:Hs; [done|]. injection Hi as _ <-.
    pose proof (open_phase n rt Hok Hs) as Hp. destruct Hok as [H1 H2 H3 H4 H5 H6 H7 H8 H9 H10]. rewrite Hs in H3.
    split; simpl; try done. intros [Hx|Hx]; exfalso; apply Hp; rewrite Hx; auto.
  - exists n. split; [done|by apply ok_event].
  - exists n. split; [done|]. unfold take_session in Ht. destruct (rt_sessions rt !! id) as [s|]; [|done]. injection Ht as <-.
    apply ok_closers; [|apply ok_sessions; [intros _; apply delete_empty|done]]. intros Hc. apply Forall_app. by repeat constructor.
  - exists n. split; [done|]. pose proof (close_start_ok n c now (rt_registry rt) (ro_registry n rt Hok)) as (Hlater & Hset & Hsame).
    destruct (close_start c now (rt_registry rt)) as [c' r]. cbn [fst snd] in *.
    apply ok_closers; [|by apply ok_registry]. cbn. rewrite Hl. by apply closers_replace.
  - exists n. split; [done|]. apply ok_closers; [|by apply ok_call]. cbn. rewrite Hl.
    apply (closers_replace before after [_] c). by repeat constructor.
  - exists n. split; [done|]. apply ok_closers; [|done]. rewrite Hl. apply (closers_replace before after [_] c). by repeat constructor.
  - exists n. split; [done|]. unfold close_finish. destruct (close_warning aborted outcome); repeat apply ok_event;
      (apply ok_closers; [|done]; rewrite Hl; by apply (closers_replace before after [] c)).
  - exists n. split; [done|]. assert (rt_phase rt = NotShutting) as Hp.
    { pose proof (ro_flag n rt Hok) as Hx. rewrite Hf in Hx. by case_bool_decide. }
    pose proof (ro_writer n rt Hok) as Hw. rewrite Hp in Hw. apply ok_phase; try done; [by intros []|by intros []].
  - exists n. split; [done|]. apply ok_event. pose proof (ro_readers n rt Hok) as Hx. rewrite Hr in Hx.
    pose proof (ro_flag n rt Hok) as Hf. rewrite Hp in Hf.
    apply ok_phase; try done; [|by intros []]. intros _. by destruct (rt_launches rt).
  - exists n. split; [done|]. destruct (waiting_in n rt Hok) as [Hw Hf]; [by rewrite Hp|].
    apply ok_phase; try done; [by apply (listed_ends n), ro_registry|by intros []].
  - exists n. split; [done|]. destruct (waiting_in n rt Hok) as [Hw Hf]; [by rewrite Hp|].
    pose proof (ro_ended n rt Hok) as He. rewrite Hp in He. destruct Hok as [H1 H2 H3 H4 H5 H6 H7 H8 H9 H10].
    pose proof (later_running_call n now (CallCancel id) (rt_registry rt) H6 I) as Hlater.
    pose proof (f_equal fst (settings_call (CallCancel id) now (rt_registry rt))) as Hset.
    change (rg_history_capacity (call (CallCancel id) now (rt_registry rt)) = rg_history_capacity (rt_registry rt)) in Hset.
    split; cbn [rt_readers rt_launches rt_plans rt_shutting rt_phase rt_writer rt_registry rt_sessions on_registry set_phase]; try done;
      [eapply registry_ok_later, Hlater|lia|by apply cancel_ends|by intros []].
  - exists n. split; [done|]. destruct (waiting_in n rt Hok) as [Hw Hf]; [by rewrite Hp|].
    pose proof (ro_ended n rt Hok) as He. rewrite Hp in He.
    apply ok_phase; try done; [|by intros []]. intros id e Hid. left. destruct (He id e Hid) as [?|Hx%elem_of_nil]; done.
  - exists n. split; [done|]. destruct (waiting_in n rt Hok) as [Hw Hf]; [by rewrite Hp|].
    pose proof (ro_ended n rt Hok) as He. rewrite Hp in He. destruct Hok as [H1 H2 H3 H4 H5 H6 H7 H8 H9 H10]. by split.
  - exists n. split; [done|]. destruct (waiting_in n rt Hok) as [Hw Hf]; [by rewrite Hp|].
    pose proof (ro_ended n rt Hok) as He. rewrite Hp in He. pose proof (ro_sessions n rt Hok ltac:(auto)) as Hsess.
    destruct Hok as [H1 H2 H3 H4 H5 H6 H7 H8 H9 H10]. by split.
Qed.

Lemma steps_ok (k : nat) (n : Z) (a b : Runtime) :
  nsteps (step false) k a b -> runtime_ok n a -> n + Z.of_nat k < 2 ^ 64 - 1 -> exists m, n <= m <= n + Z.of_nat k /\ runtime_ok m b.
Proof.
  intros Hs. revert n. induction Hs as [a|k a b c Hab Hbc IH]; intros n Hok Hn; [by exists n; split; [lia|]|].
  destruct (step_ok n a b Hab Hok ltac:(lia)) as (m & Hm & Hb). destruct (IH m Hb ltac:(lia)) as (m' & Hm' & Hc).
  exists m'. split; [lia|done].
Qed.

Lemma new_ok (capacity : Z) (ttl : option Z) : runtime_ok 0 (runtime_new capacity ttl).
Proof. split; try done; cbn; lia. Qed.

(** ** The shutdown can always finish *)

Definition same_shutdown (a b : Runtime) : Prop :=
  rt_phase b = rt_phase a /\ rt_shutting b = rt_shutting a.

(** One launch leaves the gate. *)
Lemma drive_launch (rt : Runtime) (before after : list Launch) (l : Launch) :
  rt_launches rt = before ++ l :: after -> rt_shutting rt = true ->
  exists rt', rtc (step false) rt rt' /\ same_shutdown rt rt' /\ rt_launches rt' = before ++ after /\
    rt_readers rt' = Nat.pred (rt_readers rt).
Proof.
  assert (forall rt id, rt_launches rt = before ++ Registered id :: after -> exists rt', rtc (step false) rt rt' /\
    same_shutdown rt rt' /\ rt_launches rt' = before ++ after /\ rt_readers rt' = Nat.pred (rt_readers rt)) as Hreg.
  { intros rt0 id Hl. eexists. split; [apply rtc_once, (step_publish false before id after 0 0 rt0 Hl)|done]. }
  assert (forall rt q, rt_launches rt = before ++ FoundSession q :: after -> exists rt', rtc (step false) rt rt' /\
    same_shutdown rt rt' /\ rt_launches rt' = before ++ after /\ rt_readers rt' = Nat.pred (rt_readers rt)) as Hsess.
  { intros rt0 q Hl. pose proof (step_register false before q after 0 rt0 Hl) as Hs. unfold begin_launch in Hs.
    destruct (start_transfer _ _ _ _ 0 (rt_registry rt0)) as [id r].
    set (rt1 := set_launches _ (before ++ Registered id :: after) _) in Hs.
    destruct (Hreg rt1 id eq_refl) as (rt' & Hr & H1 & H2 & H3). exists rt'. split; [by eapply rtc_l|done]. }
  intros Hl Hf. destruct l as [q|q|q|id]; [| |by apply (Hsess rt q)|by apply (Hreg rt id)].
  - eexists. split; [apply rtc_once, (step_refused false before (Entered q) after rt Hl Hf)|done].
  - destruct (session_handle (la_session_id q) rt) as [s|e] eqn:Hh.
    + pose proof (step_session false before q after s 0 rt Hl Hh) as Hs.
      set (rt1 := on_sessions _ _) in Hs. destruct (Hsess rt1 q eq_refl) as (rt' & Hr & H1 & H2 & H3).
      exists rt'. split; [by eapply rtc_l|done].
    + eexists. split; [apply rtc_once, (step_refused false before (FoundOpen q) after rt Hl)|done]. intros s. by rewrite Hh.
Qed.

(** One closer finishes. *)
Lemma drive_closer (rt : Runtime) (after : list Closer) (c : Closer) :
  rt_closers rt = c :: after ->
  exists rt', rtc (step false) rt rt' /\ same_shutdown rt rt' /\ rt_closers rt' = after.
Proof.
  assert (forall rt c, rt_closers rt = c :: after -> cl_phase c = CloseCore -> exists rt', rtc (step false) rt rt' /\
    same_shutdown rt rt' /\ rt_closers rt' = after) as Hcore.
  { intros rt0 c0 Hl Hc. eexists. split; [apply rtc_once, (step_close_finish false [] c0 after 0 (CoreClosed None) 0 rt0 Hl Hc)|done]. }
  assert (forall joins rt c, rt_closers rt = c :: after -> cl_phase c = CloseJoining joins -> exists rt', rtc (step false) rt rt' /\
    same_shutdown rt rt' /\ rt_closers rt' = after) as Hjoin.
  { induction joins as [|join joins IH]; intros rt0 c0 Hl Hc.
    - pose proof (step_close_joined false [] c0 after rt0 Hl Hc) as Hs. set (rt1 := set_closers _ rt0) in Hs.
      destruct (Hcore rt1 _ eq_refl eq_refl) as (rt' & Hr & H1 & H2). exists rt'. split; [by eapply rtc_l|done].
    - pose proof (step_close_join false [] c0 after join joins 0 rt0 Hl Hc) as Hs. set (rt1 := set_closers _ _) in Hs.
      destruct (IH rt1 _ eq_refl eq_refl) as (rt' & Hr & H1 & H2). exists rt'. split; [by eapply rtc_l|done]. }
  intros Hl. destruct (cl_phase c) as [|joins|] eqn:Hc; [|by apply (Hjoin joins rt c)|by apply (Hcore rt c)].
  pose proof (step_close_start false [] c after 0 rt Hl Hc) as Hs. unfold close_start in Hs.
  destruct (cancel_for_session (cl_id c) 0 (rt_registry rt)) as [joins r].
  destruct (as_state (cl_session c)); try (eexists; split; [apply rtc_once, Hs|done]);
    (match type of Hs with step _ _ ?rt1 => destruct (Hjoin joins rt1 _ eq_refl eq_refl) as (rt' & Hr & H1 & H2) end;
     exists rt'; split; [by eapply rtc_l|done]).
Qed.

Lemma stopped_stays (rt rt' : Runtime) :
  rt_phase rt = Stopped -> rt_shutting rt = true -> step false rt rt' -> rt_phase rt' = Stopped.
Proof.
  intros Hp Hf Hs. destruct Hs; try done; try congruence.
  - unfold mark_connection_lost, fail_session. destruct (rt_sessions rt !! id); [|done]. by destruct (bool_decide _).
  - unfold insert_session in *. rewrite Hf in *. done.
  - unfold take_session in *. destruct (rt_sessions rt !! id); [|done]. by match goal with E : (_, _) = (_, _) |- _ => injection E as <- end.
  - by destruct (close_start c now (rt_registry rt)).
  - unfold close_finish. by destruct (close_warning aborted outcome).
Qed.

Definition completes (rt : Runtime) : Prop := exists rt', rtc (step false) rt rt' /\ rt_phase rt' = Stopped.

Lemma completes_rtc (a b : Runtime) : rtc (step false) a b -> completes b -> completes a.
Proof. intros Hab (c & Hbc & Hc). exists c. split; [by etrans|done]. Qed.

Lemma closing_completes (closers : list Closer) (rt : Runtime) :
  rt_closers rt = closers -> rt_phase rt = Closing -> completes rt.
Proof.
  revert rt. induction closers as [|c closers IH]; intros rt Hl Hp.
  - eexists. split; [apply rtc_once, (step_stopped false rt Hp); by rewrite Hl|done].
  - destruct (drive_closer rt closers c Hl) as (rt' & Hr & [Hp' _] & Hl'). eapply completes_rtc; [exact Hr|].
    apply IH; [done|congruence].
Qed.

Lemma cancelling_completes (ids : list Z) (rt : Runtime) : rt_phase rt = Cancelling ids -> completes rt.
Proof.
  revert rt. induction ids as [|id ids IH]; intros rt Hp.
  - eapply completes_rtc; [apply rtc_once, (step_cancelled false rt Hp)|].
    eapply completes_rtc; [apply rtc_once, step_take; done|]. by eapply closing_completes.
  - eapply completes_rtc; [apply rtc_once, (step_cancel false id ids 0 rt Hp)|]. by apply IH.
Qed.

Lemma gated_completes (rt : Runtime) : rt_phase rt = Gated -> completes rt.
Proof. intros Hp. eapply completes_rtc; [apply rtc_once, (step_list false rt Hp)|]. by eapply cancelling_completes. Qed.

Lemma flagged_completes (launches : list Launch) (rt : Runtime) :
  rt_launches rt = launches -> rt_readers rt = length launches -> rt_phase rt = Flagged -> rt_shutting rt = true -> completes rt.
Proof.
  revert rt. induction launches as [|l launches IH]; intros rt Hl Hr Hp Hf.
  - eapply completes_rtc; [apply rtc_once, (step_gate false 0 rt Hp Hr)|]. by apply gated_completes.
  - destruct (drive_launch rt [] launches l Hl Hf) as (rt' & Hs & [Hp' Hf'] & Hl' & Hr'). eapply completes_rtc; [exact Hs|].
    apply IH; [done|by rewrite Hr', Hr|congruence..].
Qed.

Lemma shutdown_completes (n : Z) (rt : Runtime) : runtime_ok n rt -> rt_shutting rt = true -> completes rt.
Proof.
  intros Hok Hf. pose proof (ro_flag n rt Hok) as Hx. rewrite Hf in Hx. destruct (rt_phase rt) as [| | |ids| | |] eqn:Hp.
  - done.
  - eapply flagged_completes; [done|by apply (ro_readers n)|done..].
  - by apply gated_completes.
  - by apply (cancelling_completes ids).
  - eapply completes_rtc; [apply rtc_once, (step_take false rt Hp)|]. by eapply closing_completes.
  - by eapply closing_completes.
  - exists rt. split; [apply rtc_refl|done].
Qed.
End Props.

(** C29.  The shutdown, over every interleaving with launches of downloads and uploads, running
    transfers, connects, disconnects, closes and lost connections.  Once it has been requested it
    can always finish, whatever is under way.  When it has finished every transfer that is listed
    has ended, no session is left and none is being closed on its behalf, the event hub is
    closed, a launch that is under way will still be refused, and nothing can be started or looked
    up any more; and this stays so. *)
Theorem shutdown_complete `{HashOrder} (capacity : Z) (ttl : option Z) (k : nat) (rt : Runtime)
    (Hreach : nsteps (step false) k (runtime_new capacity ttl) rt) (Hbound : Z.of_nat k < 2 ^ 64 - 1) :
  (rt_shutting rt = true -> completes rt) /\
  (rt_phase rt = Stopped ->
     (forall id e, rg_transfers (rt_registry rt) !! id = Some e -> terminal (ts_state (at_snapshot e)) = true) /\
     rt_sessions rt = ∅ /\ Forall (fun c => cl_shutdown c = false) (rt_closers rt) /\ hub_open (rt_hub rt) = false /\
     Forall waiting (rt_launches rt) /\
     (exists e, ensure_open rt = Err e /\ pe_code e = RuntimeClosed) /\
     (forall device info now, exists e, insert_session device info now rt = (Err e, rt)) /\
     (forall rt', step false rt rt' -> rt_phase rt' = Stopped)).
Proof.
  destruct (steps_ok k 0 _ rt Hreach (new_ok capacity ttl) ltac:(lia)) as (n & Hn & Hok).
  split; [by apply (shutdown_completes n)|]. intros Hp. pose proof (ro_ended n rt Hok) as He. rewrite Hp in He.
  pose proof (ro_flag n rt Hok) as Hf. rewrite Hp in Hf. destruct (ro_stopped n rt Hok Hp) as [Hhub Hclosers].
  split; [intros id e Hid; by destruct (He id e Hid)|]. split; [by apply (ro_sessions n); [|right]|].
  split; [done|]. split; [done|]. split; [by apply (ro_gate n); [|right]|].
  split; [unfold ensure_open; rewrite Hf; by eexists|]. split; [intros; unfold insert_session; rewrite Hf; by eexists|].
  intros rt' Hs. by apply (stopped_stays rt).
Qed.

Definition sample_device : DeviceDescriptor := adb_device_to_descriptor (mkAdbDevice "s" "device" None None None).
Definition sample_info : DeviceInfoDto := mkInfoDto "s" None None None None None None None None "/" None None None None None.
Definition sample_launch : LaunchRequest := mkLaunch 1 Download "/a" "/b".

Lemma shutdown_complete_witness :
  exists k rt, nsteps (step false) k (runtime_new 5 None) rt /\ rt_shutting rt = true /\ rt_launches rt <> [] /\ completes rt.
Proof.
  assert (exists rt, nsteps (step false) 5 (runtime_new 5 None) rt /\ rt_shutting rt = true /\ rt_launches rt <> []) as (rt & Hr & Hf & Hl).
  { eexists. split.
    - eapply nsteps_l; [eapply (step_connect _ sample_device sample_info 3); reflexivity|].
      eapply nsteps_l; [apply (step_enter _ sample_launch); reflexivity|].
      eapply nsteps_l; [apply (step_open _ [] sample_launch []); reflexivity|].
      eapply nsteps_l; [eapply (step_session _ [] sample_launch [] _ 4); reflexivity|].
      eapply nsteps_l; [apply step_flag; reflexivity|]. apply nsteps_O.
    - split; [reflexivity|done]. }
  exists 5%nat, rt. split; [exact Hr|]. split; [exact Hf|]. split; [exact Hl|].
  apply (shutdown_complete 5 None 5 rt Hr); [lia|exact Hf].
Defined.

(** execute_file_plan does not take the gate: a plan that has found its session registers its
    transfer after the shutdown has finished, where nothing will cancel it. *)
Lemma plan_outlives_shutdown :
  exists k rt e, nsteps (step true) k (runtime_new 5 None) rt /\ rt_phase rt = Stopped /\
    rg_transfers (rt_registry rt) !! 1 = Some e /\ terminal (ts_state (at_snapshot e)) = false.
Proof.
  exists 13%nat. do 2 eexists. split.
  - eapply nsteps_l; [eapply (step_connect _ sample_device sample_info 3); reflexivity|].
    eapply nsteps_l; [apply (step_plan_open _ sample_launch); reflexivity|].
    eapply nsteps_l; [eapply (step_plan_session _ [] sample_launch [] _ 4); reflexivity|].
    eapply nsteps_l; [apply step_flag; reflexivity|].
    eapply nsteps_l; [apply (step_gate _ 5); reflexivity|].
    eapply nsteps_l; [apply step_list; reflexivity|].
    eapply nsteps_l; [apply step_cancelled; reflexivity|].
    eapply nsteps_l; [apply step_take; reflexivity|].
    eapply nsteps_l; [eapply (step_close_start _ [] _ [] 6); reflexivity|].
    eapply nsteps_l; [eapply (step_close_joined _ [] _ []); reflexivity|].
    eapply nsteps_l; [eapply (step_close_finish _ [] _ [] 0 (CoreClosed None) 7); reflexivity|].
    eapply nsteps_l; [eapply step_stopped; [reflexivity|repeat constructor]|].
    eapply nsteps_l; [apply (step_plan_register _ [] sample_launch [] 8); reflexivity|]. apply nsteps_O.
  - split; [reflexivity|]. split; vm_compute; reflexivity.
Qed.
