(* ===== verification/Bridge.v ===== *)
(** * The event bridge

    [run_event_bridge] and [bridge_client_event] of crates/handshaker-application/src/runtime.rs:
    the task of a session that turns what the phone pushes into backend events, refreshes the
    device information of the session, drops the snapshots of its media libraries, and marks the
    session as lost when the stream of the core closes. *)

From stdpp Require Import gmap.
From S2P Require Import Prelude Errors AppErrors Domain EventHub Transfer Devices FilePlan MediaDto MediaPage Runtime TransferProps.

#[local] Open Scope string_scope.
#[local] Open Scope list_scope.
#[local] Open Scope Z_scope.

Definition file_change_status_token (status : FileChangeStatus) : string :=
  match status with
  | FcNone => "none"
  | FcAdded => "added"
  | FcDeleted => "deleted"
  | FcModified => "modified"
  | FcInfoModified => "info_modified"
  | FcFileAndInfoModified => "file_and_info_modified"
  | FcUnknown => "unknown"
  end.

(** [{:?}] *)
Definition reason_name (reason : UnknownEventReason) : string :=
  match reason with
  | UnknownRequestType => "UnknownRequestType"
  | MissingTypeAmbiguous => "MissingTypeAmbiguous"
  | DecodeFailed => "DecodeFailed"
  end.

Definition clipboard_entry_to_dto (entry : ClipboardEntry) : ClipboardEntryDto :=
  mkClipboardEntryDto (ce_text entry) (ce_timestamp_ms entry).

(** The end of an invalidation of a session's snapshots, from its start. *)
Definition invalidate_media_snapshots_inner {L} (session_id : Z) (c : MediaCache L) : MediaCache L :=
  drop_snapshots session_id (bump_epoch c).

Section Bridge.
Context `{HashOrder} {L : Type}.

(** What the bridge writes: the information shared with its session, the snapshots, the runtime. *)
Record BridgeWorld := mkBridgeWorld {
  bw_device_info : DeviceInfoDto;
  bw_media : MediaCache L;
  bw_runtime : Runtime
}.

Definition bridge_client_event (event : ClientEvent) (session_id : Z) (device : DeviceDescriptor) (w : BridgeWorld)
  : BackendEvent * BridgeWorld :=
  let changed kind paths files statuses :=
    (RemoteFileChangedEvent session_id (mkRemoteFileChange kind paths files statuses), w) in
  match event with
  | DeviceInfoChanged info =>
      let dto := device_info_to_dto info in
      (DeviceUpdated session_id (reconcile_device_identity device dto), mkBridgeWorld dto (bw_media w) (bw_runtime w))
  | ClipboardChanged entries => (ClipboardChangedEvent session_id (clipboard_entry_to_dto <$> entries), w)
  | MediaLibraryChanged change =>
      (MediaChangedEvent session_id (media_change_to_dto change),
       mkBridgeWorld (bw_device_info w) (invalidate_media_snapshots_inner session_id (bw_media w)) (bw_runtime w))
  | DirectoryChanged events =>
      changed RfDirectoryChanged (omap (fun e => rf_path <$> fe_file e) events)
        (omap (fun e => remote_file_to_dto <$> fe_file e) events) []
  | FileChanged changes =>
      changed RfFileChanged (omap (fun c => rf_path <$> fc_file c) changes)
        (omap (fun c => remote_file_to_dto <$> fc_file c) changes)
        (omap (fun c => (fun _ => file_change_status_token (fc_status c)) <$> fc_file c) changes)
  | PhotoSyncChanged change =>
      changed RfPhotoSyncChanged (rf_path <$> psc_files change) (remote_file_to_dto <$> psc_files change) []
  | SyncMonitorChanged _ => changed RfSyncMonitorChanged [] [] []
  | RequestCancelled _ =>
      (WarningEvent (public_new RemoteCancelled "phone requested cancellation outside an active request"), w)
  | UnknownEv unknown =>
      (WarningEvent (public_new ProtocolError
         ("unclassified phone event: sid=" +:+ pretty (ue_sid unknown) +:+ " reason=" +:+ reason_name (ue_reason unknown))), w)
  end.

(** What the subscription answers, whether the runtime still exists then, and the time. *)
Inductive StreamItem := StreamEvent (event : ClientEvent) | StreamLagged (missed : Z) | StreamClosed.
Record BridgeInput := mkBridgeInput { br_item : StreamItem; br_alive : bool; br_now : Z }.

Definition with_runtime (f : Runtime -> Runtime) (w : BridgeWorld) : BridgeWorld :=
  mkBridgeWorld (bw_device_info w) (bw_media w) (f (bw_runtime w)).

Definition lag_warning (missed : Z) : PublicError :=
  public_new InvalidState ("core event stream lagged; missed " +:+ pretty missed +:+ " events").

(** One turn of the loop: whether it goes on, and the world. *)
Definition bridge_turn (session_id : Z) (device : DeviceDescriptor) (i : BridgeInput) (w : BridgeWorld)
  : bool * BridgeWorld :=
  match br_item i with
  | StreamEvent event =>
      if br_alive i then
        let '(e, w) := bridge_client_event event session_id device w in
        (true, with_runtime (publish_backend e (br_now i)) w)
      else (true, w)
  | StreamLagged missed => (true, with_runtime (publish_backend (WarningEvent (lag_warning missed)) (br_now i)) w)
  | StreamClosed => (false, if br_alive i then with_runtime (mark_connection_lost session_id (br_now i)) w else w)
  end.

Fixpoint run_event_bridge (session_id : Z) (device : DeviceDescriptor) (inputs : list BridgeInput) (w : BridgeWorld)
  : bool * BridgeWorld :=
  match inputs with
  | [] => (true, w)
  | i :: inputs =>
      match bridge_turn session_id device i w with
      | (true, w) => run_event_bridge session_id device inputs w
      | (false, w) => (false, w)
      end
  end.

End Bridge.
Arguments BridgeWorld L : clear implicits.

Section Props.
Context `{HashOrder} {L : Type}.
Context (session_id : Z) (device : DeviceDescriptor).

Abbreviation World := (BridgeWorld L).

(** What one turn tells the hub. *)
Definition told (w : World) (i : BridgeInput) : list BackendEvent :=
  match br_item i with
  | StreamEvent event => if br_alive i then [(bridge_client_event event session_id device w).1] else []
  | StreamLagged missed => [WarningEvent (lag_warning missed)]
  | StreamClosed => []
  end.

(** The device information of a turn, if it has some; whether it drops the snapshots. *)
Definition reported (i : BridgeInput) : option DeviceInfoDto :=
  match br_item i with
  | StreamEvent (DeviceInfoChanged info) => if br_alive i then Some (device_info_to_dto info) else None
  | _ => None
  end.
Definition media_changed (i : BridgeInput) : bool :=
  match br_item i with StreamEvent (MediaLibraryChanged _) => br_alive i | _ => false end.

Definition open_item (i : BridgeInput) : Prop := br_item i <> StreamClosed.

Definition sent_events (w : World) : list BackendEvent := ev_event <$> hub_sent (rt_hub (bw_runtime w)).

(** ** One turn *)

Lemma event_of_any (w w' : World) (event : ClientEvent) :
  (bridge_client_event event session_id device w).1 = (bridge_client_event event session_id device w').1.
Proof. by destruct event. Qed.

Lemma told_any (w w' : World) (i : BridgeInput) : told w i = told w' i.
Proof. unfold told. destruct (br_item i) as [event| |]; [|done..]. by rewrite (event_of_any w w'). Qed.

Lemma publish_sends {E} (e : E) (now : Z) (h : EventHub E) :
  hub_open (publish e now h) = hub_open h /\
  ev_event <$> hub_sent (publish e now h) = (ev_event <$> hub_sent h) ++ (if hub_open h then [e] else []).
Proof.
  unfold publish, publish_number, publish_send. simpl. destruct (hub_open h) eqn:Ho; simpl; [|by rewrite app_nil_r].
  by rewrite fmap_app.
Qed.

(** What a turn that does not end the loop leaves alone. *)
Definition same_runtime (a b : Runtime) : Prop :=
  rt_sessions b = rt_sessions a /\ rt_registry b = rt_registry a /\ rt_shutting b = rt_shutting a /\
  hub_open (rt_hub b) = hub_open (rt_hub a).

Lemma bridge_turn_open (i : BridgeInput) (w : World) : open_item i ->
  let '(goes_on, w') := bridge_turn session_id device i w in
  goes_on = true /\ same_runtime (bw_runtime w) (bw_runtime w') /\
  sent_events w' = sent_events w ++ (if hub_open (rt_hub (bw_runtime w)) then told w i else []) /\
  bw_device_info w' = default (bw_device_info w) (reported i) /\
  bw_media w' = (if media_changed i then invalidate_media_snapshots_inner session_id (bw_media w) else bw_media w).
Proof.
  unfold open_item, bridge_turn, told, reported, media_changed, sent_events, same_runtime.
  destruct i as [[event|missed|] alive now]; simpl; intros Hi; [..|done].
  - destruct alive; simpl.
    + destruct (bridge_client_event event session_id device w) as [e w1] eqn:He. simpl.
      assert (bw_runtime w1 = bw_runtime w /\ bw_device_info w1 = default (bw_device_info w) (match event with
                | DeviceInfoChanged info => Some (device_info_to_dto info) | _ => None end) /\
              bw_media w1 = if match event with MediaLibraryChanged _ => true | _ => false end
                            then invalidate_media_snapshots_inner session_id (bw_media w) else bw_media w) as (Hr & Hd & Hm).
      { destruct event; injection He as <- <-; done. }
      rewrite Hr. destruct (publish_sends e now (rt_hub (bw_runtime w))) as [Ho Hs]. split_and!; try done.
    + split_and!; try done; [by destruct (hub_open _); rewrite app_nil_r|by destruct event..].
  - destruct (publish_sends (WarningEvent (lag_warning missed)) now (rt_hub (bw_runtime w))) as [Ho Hs].
    by split_and!.
Qed.

(** ** A run *)

(** The snapshots after [n] changes of media. *)
Definition media_after (n : Z) (c c' : MediaCache L) : Prop :=
  media_epoch c' mod 2 ^ 64 = (media_epoch c + n) mod 2 ^ 64 /\
  forall key, media_snapshots c' !! key = if bool_decide (0 < n /\ key.1 = session_id) then None else media_snapshots c !! key.

Lemma media_after_refl (c : MediaCache L) : media_after 0 c c.
Proof. split; [by rewrite Z.add_0_r|]. intros key. by rewrite bool_decide_eq_false_2 by lia. Qed.

Lemma media_after_trans (m n : Z) (a b c : MediaCache L) :
  0 <= m -> 0 <= n -> media_after m a b -> media_after n b c -> media_after (m + n) a c.
Proof.
  intros Hm Hn [He1 Hs1] [He2 Hs2]. split.
  - rewrite He2, <- Zplus_mod_idemp_l, He1, Zplus_mod_idemp_l. f_equal. lia.
  - intros key. rewrite Hs2, Hs1. repeat case_bool_decide; naive_solver lia.
Qed.

Lemma media_after_invalidate (c : MediaCache L) : media_after 1 c (invalidate_media_snapshots_inner session_id c).
Proof.
  split; [simpl; by rewrite Z.mod_mod|]. intros [k kind]. simpl. rewrite map_lookup_filter.
  case_bool_decide as Hk; (destruct (media_snapshots c !! _); [|done]); simpl.
  - rewrite option_guard_False; [done|]. intros Hx. apply Hx, Hk.
  - rewrite option_guard_True; [done|]. intros ->. by apply Hk.
Qed.

Definition changes (inputs : list BridgeInput) : Z := zlen (filter (fun i => media_changed i = true) inputs).

Lemma changes_cons (i : BridgeInput) (inputs : list BridgeInput) :
  changes (i :: inputs) = (if media_changed i then 1 else 0) + changes inputs.
Proof. unfold changes. rewrite filter_cons. destruct (media_changed i); case_decide; simpl; try done; lia. Qed.

Lemma default_last_omap {A B} (f : A -> option B) (d : B) (a : A) (l : list A) :
  default (default d (f a)) (last (omap f l)) = default d (last (omap f (a :: l))).
Proof.
  simpl. destruct (f a) as [b|]; [|done].
  rewrite last_cons. unfold omap. by destruct (last (list_omap A B f l)).
Qed.

Lemma run_open (inputs : list BridgeInput) (w : World) : Forall open_item inputs ->
  let '(goes_on, w') := run_event_bridge session_id device inputs w in
  goes_on = true /\ same_runtime (bw_runtime w) (bw_runtime w') /\
  sent_events w' = sent_events w ++ (if hub_open (rt_hub (bw_runtime w)) then concat (map (told w) inputs) else []) /\
  bw_device_info w' = default (bw_device_info w) (last (omap reported inputs)) /\
  media_after (changes inputs) (bw_media w) (bw_media w').
Proof.
  revert w. induction inputs as [|i inputs IH]; intros w Hi.
  - simpl. split_and!; try done; [by destruct (hub_open _); rewrite app_nil_r|]. apply media_after_refl.
  - apply Forall_cons in Hi as [Hi Hs]. pose proof (bridge_turn_open i w Hi) as Ht. cbn [run_event_bridge].
    destruct (bridge_turn session_id device i w) as [goes_on w1]. destruct Ht as (-> & Hr & He & Hd & Hm).
    specialize (IH w1 Hs). destruct (run_event_bridge session_id device inputs w1) as [goes_on w2].
    destruct IH as (-> & Hr2 & He2 & Hd2 & Hm2). split; [done|]. split.
    { unfold same_runtime in *. destruct Hr as (? & ? & ? & ?), Hr2 as (? & ? & ? & ?). split_and!; congruence. }
    split; [|split].
    + rewrite He2, He, <- app_assoc. destruct Hr as (_ & _ & _ & ->). f_equal.
      destruct (hub_open (rt_hub (bw_runtime w))); [|done]. cbn [map concat]. do 2 f_equal. apply map_ext. intros j. apply told_any.
    + rewrite Hd2, Hd. apply default_last_omap.
    + rewrite changes_cons. apply (media_after_trans _ _ _ (bw_media w1)); [by case_match|unfold changes; lia| |done].
      rewrite Hm. destruct (media_changed i); [apply media_after_invalidate|apply media_after_refl].
Qed.

Lemma run_app (a b : list BridgeInput) (w : World) :
  run_event_bridge session_id device (a ++ b) w =
  (let '(goes_on, w') := run_event_bridge session_id device a w in
   if goes_on then run_event_bridge session_id device b w' else (false, w')).
Proof.
  revert w. induction a as [|i a IH]; intros w; [done|]. simpl. destruct (bridge_turn session_id device i w) as [[] w1]; [apply IH|done].
Qed.

(** ** The end *)

(** A session that has been lost: not ready any more. *)
Lemma lost_not_ready (now : Z) (rt : Runtime) (s : ActiveSession) :
  rt_sessions (mark_connection_lost session_id now rt) !! session_id = Some s -> as_state s <> SessionReady.
Proof.
  unfold mark_connection_lost, fail_session. destruct (rt_sessions rt !! session_id) as [s0|] eqn:Hs; [|by rewrite Hs].
  case_bool_decide as Hr; simpl; [|by rewrite Hs; intros [= <-]]. rewrite lookup_insert_eq. by intros [= <-].
Qed.

Lemma lost_events (now : Z) (w : World) (s : ActiveSession) :
  rt_sessions (bw_runtime w) !! session_id = Some s -> as_state s = SessionReady ->
  sent_events (with_runtime (mark_connection_lost session_id now) w) =
  sent_events w ++ (if hub_open (rt_hub (bw_runtime w))
                    then [ConnectionLostEvent session_id; SessionStateChanged (snapshot s session_id SessionFailed)] else []).
Proof.
  intros Hs Hr. unfold sent_events, with_runtime, mark_connection_lost, fail_session. rewrite Hs, bool_decide_eq_true_2 by done. simpl.
  pose proof (publish_sends (ConnectionLostEvent session_id) now (rt_hub (bw_runtime w))) as [Ho He].
  pose proof (publish_sends (SessionStateChanged (snapshot s session_id SessionFailed)) now
                (publish (ConnectionLostEvent session_id) now (rt_hub (bw_runtime w)))) as [_ He2].
  rewrite He2, He, Ho, <- app_assoc. by destruct (hub_open (rt_hub (bw_runtime w))).
Qed.

(** The files of a change are parallel to its paths; statuses, if there are any, too. *)
Definition parallel (e : BackendEvent) : Prop :=
  match e with
  | RemoteFileChangedEvent id change =>
      id = session_id /\ (fd_path <$> rfc_files change) = rfc_paths change /\
      (rfc_statuses change = [] \/ length (rfc_statuses change) = length (rfc_paths change))
  | _ => True
  end.

Lemma omap_option_fmap {A B C} (f : A -> option B) (g : B -> C) (l : list A) :
  omap (fun a => g <$> f a) l = g <$> omap f l.
Proof. induction l as [|a l IH]; [done|]. unfold omap in *. simpl. destruct (f a); simpl; by rewrite IH. Qed.

Lemma event_parallel (event : ClientEvent) (w : World) : parallel (bridge_client_event event session_id device w).1.
Proof.
  destruct event as [| | |events|changes|change| | |]; try done; simpl; (split; [done|]).
  - rewrite !omap_option_fmap, <- list_fmap_compose. by split; [|left].
  - rewrite !omap_option_fmap, <- list_fmap_compose. split; [done|right]. rewrite length_fmap.
    unfold omap in *. induction changes as [|c changes IH]; [done|]. simpl. destruct (fc_file c); simpl; by rewrite IH.
  - rewrite <- list_fmap_compose. by split; [|left].
  - by split; [|left].
Qed.
End Props.

(** C27: the bridge of a session, over whatever the core delivers before the stream closes: every
    event, and a warning for every gap, is published once and in order; a file change has one
    entry and one path per file the phone named, and one status each or none at all.  The device
    information of the session is the last one pushed.  Once a media change is under way the
    snapshots of this session are gone, those of others stay, and a fetch that had begun is not
    kept.  Sessions and transfers are left alone until the stream closes, and then the session is
    no longer ready, which is told as the loss of the connection followed by the failed state. *)
Theorem bridge_exact `{HashOrder} {L : Type} (session_id : Z) (device : DeviceDescriptor) (before : list BridgeInput)
    (w : BridgeWorld L) (Hopen : Forall open_item before) :
  let '(goes_on, w') := run_event_bridge session_id device before w in
  goes_on = true /\ same_runtime (bw_runtime w) (bw_runtime w') /\
  sent_events w' = sent_events w ++
    (if hub_open (rt_hub (bw_runtime w)) then concat (map (told session_id device w) before) else []) /\
  Forall (parallel session_id) (concat (map (told session_id device w) before)) /\
  bw_device_info w' = default (bw_device_info w) (last (omap reported before)) /\
  media_after session_id (changes before) (bw_media w) (bw_media w') /\
  forall c after, br_item c = StreamClosed ->
    exists w2, run_event_bridge session_id device (before ++ c :: after) w = (false, w2) /\
      (br_alive c = false -> w2 = w') /\
      (br_alive c = true ->
        (forall s, rt_sessions (bw_runtime w2) !! session_id = Some s -> as_state s <> SessionReady) /\
        forall s, rt_sessions (bw_runtime w) !! session_id = Some s -> as_state s = SessionReady ->
          sent_events w2 = sent_events w' ++
            (if hub_open (rt_hub (bw_runtime w))
             then [ConnectionLostEvent session_id; SessionStateChanged (snapshot s session_id SessionFailed)] else [])).
Proof.
  pose proof (run_open session_id device before w Hopen) as Hr.
  destruct (run_event_bridge session_id device before w) as [goes_on w'] eqn:Hrun.
  destruct Hr as (-> & Hsame & Hsent & Hinfo & Hmedia). split_and!; try done.
  - apply Forall_concat, Forall_map, Forall_true. intros i. unfold told.
    destruct (br_item i); [destruct (br_alive i)| |]; repeat constructor. apply event_parallel.
  - intros c after Hc. rewrite run_app, Hrun. simpl. unfold bridge_turn. rewrite Hc. eexists. split; [done|].
    split; [by intros ->|]. intros ->. split; [apply lost_not_ready|]. intros s Hs Hst.
    destruct Hsame as (He & _ & _ & <-). rewrite <- He in Hs. by apply lost_events.
Qed.

(** ** A sample *)

Definition bridged_device : DeviceDescriptor := adb_device_to_descriptor (mkAdbDevice "s" "device" None None None).
Definition bridged_info : DeviceInfoDto := mkInfoDto "s" None None None None None None None None "/" None None None None None.
(** A runtime with one session, whose library was fetched before. *)
Definition bridged_world : BridgeWorld unit :=
  mkBridgeWorld bridged_info (mkMediaCache {[ (1, SnapshotPhoto) := (3, ()) ]} 0)
    (insert_session bridged_device bridged_info 1 (runtime_new 10 None)).2.
Definition bridged_inputs : list BridgeInput :=
  [mkBridgeInput (StreamEvent (ClipboardChanged [mkClipboardEntry "x" 4])) true 5; mkBridgeInput (StreamLagged 2) true 6;
   mkBridgeInput (StreamEvent (MediaLibraryChanged (mkMediaLibraryChange Photo [] [] [] []))) true 7].

Lemma bridge_exact_witness :
  Forall open_item bridged_inputs /\
  exists w2, run_event_bridge 1 bridged_device (bridged_inputs ++ [mkBridgeInput StreamClosed true 8]) bridged_world = (false, w2) /\
    length (sent_events w2) = 5%nat /\
    forall s, rt_sessions (bw_runtime w2) !! 1 = Some s -> as_state s <> SessionReady.
Proof.
  assert (Forall open_item bridged_inputs) as Hopen by (by repeat constructor). split; [exact Hopen|].
  pose proof (bridge_exact 1 bridged_device bridged_inputs bridged_world Hopen) as Hb.
  destruct (run_event_bridge 1 bridged_device bridged_inputs bridged_world) as [goes_on w'].
  destruct Hb as (_ & _ & _ & _ & _ & _ & Hclosed).
  destruct (Hclosed (mkBridgeInput StreamClosed true 8) [] eq_refl) as (w2 & Hrun & _ & Hlost).
  exists w2. split; [exact Hrun|]. split; [|by apply Hlost].
  assert (w2 = (run_event_bridge 1 bridged_device (bridged_inputs ++ [mkBridgeInput StreamClosed true 8]) bridged_world).2) as -> by (by rewrite Hrun).
  by vm_compute.
Defined.
