(* ===== verification/SyncWatch.v ===== *)
(** * Watching a folder

    [run_sync_watch], [report_sync_watch_lag] and [reconcile_required_from_error] of
    crates/handshaker-application/src/runtime.rs: the loop that collects the file changes the
    phone pushes, applies a batch when none came for a while, and gives up when it can no
    longer know what the phone changed.  [apply] is the application of a batch
    ([apply_watch_batch], SyncRun.v) on the state [D] of the disk.  The batches a watch applies are, in
    order, what the phone reported; what it knows it missed asks for a full synchronisation. *)

From stdpp Require Import gmap.
From S2P Require Import Prelude Errors AppErrors Domain Sync SyncRun Transfer Devices FilePlan MediaDto.

#[local] Open Scope string_scope.
#[local] Open Scope list_scope.
#[local] Open Scope Z_scope.

(** ** What the watch writes to the status of its job *)

Definition set_monitoring (monitoring : bool) (job : SyncJob) : SyncJob :=
  let st := job_status job in
  mkSyncJob (mkSyncStatus (st_profile_id st) (st_running st) monitoring (st_last_run_at_ms st) (st_last_error st)
               (st_reconciliation_required st) (st_last_sequence_gap st)) (job_last_result job).

Definition lag_error (missed : Z) : PublicError :=
  operation "sync.watch" (public_new SyncError
    ("sync watch lagged; missed " +:+ pretty missed +:+ " file-change event(s) — run a full sync to reconcile")).

Definition closed_error : PublicError :=
  operation "sync.watch" (public_new ConnectionLost "sync watch stopped: session event stream closed").

(** [gap] is the sequence gap of a lag. *)
Definition set_unreconciled (gap : option Z) (error : PublicError) (job : SyncJob) : SyncJob :=
  let st := job_status job in
  mkSyncJob (mkSyncStatus (st_profile_id st) (st_running st) false (st_last_run_at_ms st) (Some error) true
               (match gap with Some missed => Some missed | None => st_last_sequence_gap st end)) (job_last_result job).

Definition set_applied (now : Z) (result : SyncRunResult) (job : SyncJob) : SyncJob :=
  let st := job_status job in
  mkSyncJob (mkSyncStatus (st_profile_id st) (st_running st) (st_monitoring st) (Some now) None
               (st_reconciliation_required st) (st_last_sequence_gap st)) (Some result).

(** The last words of the watch. *)
Definition set_watch_ended (job : SyncJob) : SyncJob :=
  let st := job_status job in
  if st_reconciliation_required st then job
  else mkSyncJob (mkSyncStatus (st_profile_id st) (st_running st) false (st_last_run_at_ms st) (Some closed_error)
                    (st_reconciliation_required st) (st_last_sequence_gap st)) (job_last_result job).

(** ** The loop *)

Section Watch.
Context {D : Type} (profile : SyncProfileDto) (apply : D -> list FileChange -> AppResult SyncRunResult * D).

Record WatchWorld := mkWatchWorld {
  ww_job : SyncJob;
  ww_disk : D;
  ww_events : list BackendEvent;     (* published *)
  ww_monitor_off : nat               (* requests that turn the monitor of the phone off *)
}.

(** What a wait ends with: an event of the subscription, its lag or close, or the end of the
    debounce window.  [usable] is whether the session is, should the watch want to turn the
    monitor off, and [now] the time. *)
Inductive WatchInput :=
  | WatchEvent (event : ClientEvent)
  | WatchLagged (missed : Z) (usable : bool)
  | WatchClosed
  | WatchElapsed (now : Z) (usable : bool).

(** Where the loop is: waiting for the first event of a batch, or collecting one. *)
Inductive WatchPosition := Waiting | Collecting (batch : list FileChange).

Definition on_job (f : SyncJob -> SyncJob) (w : WatchWorld) : WatchWorld :=
  mkWatchWorld (f (ww_job w)) (ww_disk w) (ww_events w) (ww_monitor_off w).

Definition warn (error : PublicError) (usable : bool) (w : WatchWorld) : WatchWorld :=
  mkWatchWorld (ww_job w) (ww_disk w) (ww_events w ++ [WarningEvent error])
    (if usable then S (ww_monitor_off w) else ww_monitor_off w).

Definition report_sync_watch_lag (missed : Z) (usable : bool) (w : WatchWorld) : WatchWorld :=
  warn (lag_error missed) usable (on_job (set_unreconciled (Some missed) (lag_error missed)) w).

Definition reconcile_required_from_error (error : PublicError) (usable : bool) (w : WatchWorld) : WatchWorld :=
  warn error usable (on_job (set_unreconciled None error) w).

Definition apply_batch (batch : list FileChange) (now : Z) (usable : bool) (w : WatchWorld) : bool * WatchWorld :=
  let '(outcome, disk) := apply (ww_disk w) batch in
  let w := mkWatchWorld (ww_job w) disk (ww_events w) (ww_monitor_off w) in
  match outcome with
  | Ok result =>
      (true, mkWatchWorld (set_applied now result (ww_job w)) disk
               (ww_events w ++ [SyncWatchApplied (sp_id profile) (sp_session_id profile) (sync_run_result_to_dto result)])
               (ww_monitor_off w))
  | Err error => (false, reconcile_required_from_error error usable w)
  end.

(** One wait; [None] is [break 'watch].  Without a batch there is no window that could elapse. *)
Definition watch_turn (i : WatchInput) (p : WatchPosition) (w : WatchWorld) : option WatchPosition * WatchWorld :=
  match i, p with
  | WatchEvent (FileChanged changes), Waiting => (Some (Collecting changes), w)
  | WatchEvent (FileChanged changes), Collecting batch => (Some (Collecting (batch ++ changes)), w)
  | WatchEvent _, _ => (Some p, w)
  | WatchLagged missed usable, _ => (None, report_sync_watch_lag missed usable w)
  | WatchClosed, _ => (None, w)
  | WatchElapsed _ _, Waiting => (Some Waiting, w)
  | WatchElapsed now usable, Collecting batch =>
      let '(applied, w) := apply_batch batch now usable w in
      (if applied then Some Waiting else None, w)
  end.

Fixpoint run_sync_watch (inputs : list WatchInput) (p : WatchPosition) (w : WatchWorld) : option WatchPosition * WatchWorld :=
  match inputs with
  | [] => (Some p, w)
  | i :: inputs =>
      match watch_turn i p w with
      | (Some p, w) => run_sync_watch inputs p w
      | (None, w) => (None, on_job set_watch_ended w)
      end
  end.

(** ** What it promises *)

Definition changes_of (i : WatchInput) : list FileChange :=
  match i with WatchEvent (FileChanged changes) => changes | _ => [] end.

Definition pending (p : WatchPosition) : list FileChange :=
  match p with Waiting => [] | Collecting batch => batch end.

(** The batches applied one after the other: the disk, and their results. *)
Fixpoint apply_all (d : D) (batches : list (list FileChange)) : list (AppResult SyncRunResult) * D :=
  match batches with
  | [] => ([], d)
  | batch :: batches =>
      let '(r, d) := apply d batch in
      let '(rs, d) := apply_all d batches in (r :: rs, d)
  end.

Definition applied_event (r : AppResult SyncRunResult) : BackendEvent :=
  match r with
  | Ok result => SyncWatchApplied (sp_id profile) (sp_session_id profile) (sync_run_result_to_dto result)
  | Err error => WarningEvent error
  end.

Lemma apply_all_app (d : D) (a b : list (list FileChange)) :
  apply_all d (a ++ b) = (let '(rs, d) := apply_all d a in let '(rs', d) := apply_all d b in (rs ++ rs', d)).
Proof.
  revert d. induction a as [|x a IH]; intros d; simpl; [by destruct (apply_all d b)|].
  destruct (apply d x) as [r d1]. rewrite IH. destruct (apply_all d1 a) as [rs d2]. by destruct (apply_all d2 b).
Qed.
End Watch.
Arguments WatchWorld D : clear implicits.

Definition received (inputs : list WatchInput) : list FileChange := concat (map changes_of inputs).

Definition succeeded {A} (r : AppResult A) : Prop := exists a, r = Ok a.

Definition watch_flags (job : SyncJob) : bool * bool * bool :=
  (st_running (job_status job), st_monitoring (job_status job), st_reconciliation_required (job_status job)).

Section Props.
Context {D : Type} (profile : SyncProfileDto) (apply : D -> list FileChange -> AppResult SyncRunResult * D).

Abbreviation World := (WatchWorld D).
Abbreviation run := (run_sync_watch profile apply).

(** How a watch that was left at [ended] stands, after the batches with results [results]: what
    it held back is [held], and the waits it has not come to begin with the one that ended it. *)
Definition watch_left (w : World) (results : list (AppResult SyncRunResult)) (held : list FileChange)
    (rest : list WatchInput) (ended : option WatchPosition) (w' : World) : Prop :=
  let told := ww_events w ++ map (applied_event profile) results in
  match ended, rest with
  | Some p, [] =>
      held = pending p /\ Forall succeeded results /\ ww_events w' = told /\
      watch_flags (ww_job w') = watch_flags (ww_job w) /\ ww_monitor_off w' = ww_monitor_off w
  | None, WatchLagged missed usable :: _ =>
      Forall succeeded results /\ ww_events w' = told ++ [WarningEvent (lag_error missed)] /\
      watch_flags (ww_job w') = (st_running (job_status (ww_job w)), false, true) /\
      st_last_sequence_gap (job_status (ww_job w')) = Some missed /\
      ww_monitor_off w' = (if usable then S (ww_monitor_off w) else ww_monitor_off w)
  | None, WatchElapsed _ usable :: _ =>
      held = [] /\ (exists before e, results = before ++ [Err e] /\ Forall succeeded before /\
                      st_last_error (job_status (ww_job w')) = Some e) /\
      ww_events w' = told /\
      watch_flags (ww_job w') = (st_running (job_status (ww_job w)), false, true) /\
      ww_monitor_off w' = (if usable then S (ww_monitor_off w) else ww_monitor_off w)
  | None, WatchClosed :: _ =>
      Forall succeeded results /\ ww_events w' = told /\
      watch_flags (ww_job w') = (st_running (job_status (ww_job w)), false, false) /\
      st_last_error (job_status (ww_job w')) = Some closed_error /\ ww_monitor_off w' = ww_monitor_off w
  | _, _ => False
  end.

Lemma left_after (w w1 w' : World) (result : SyncRunResult) rs held rest ended :
  ww_events w1 = ww_events w ++ [applied_event profile (Ok result)] ->
  watch_flags (ww_job w1) = watch_flags (ww_job w) -> ww_monitor_off w1 = ww_monitor_off w ->
  watch_left w1 rs held rest ended w' -> watch_left w (Ok result :: rs) held rest ended w'.
Proof.
  unfold watch_left, watch_flags. intros He Hf Hm. rewrite He, Hf, Hm, <- app_assoc. cbn [app map]. injection Hf as -> _ _.
  assert (forall l, Forall succeeded l -> Forall succeeded (Ok result :: l)) by (constructor; [by eexists|done]).
  destruct ended, rest as [|[] rest]; try done.
  1-3: intros Hleft; destruct_and! Hleft; split_and!; by auto.
  intros (? & (bs & e & -> & ? & ?) & ? & ? & ?). split_and!; [done| |done..]. exists (Ok result :: bs), e. by auto.
Qed.

Lemma run_left (inputs : list WatchInput) (p : WatchPosition) (w : World) :
  st_reconciliation_required (job_status (ww_job w)) = false ->
  exists before rest batches held,
    inputs = before ++ rest /\ pending p ++ received before = concat batches ++ held /\
    ww_disk (run inputs p w).2 = (apply_all apply (ww_disk w) batches).2 /\
    watch_left w (apply_all apply (ww_disk w) batches).1 held rest (run inputs p w).1 (run inputs p w).2.
Proof.
  revert p w. induction inputs as [|i inputs IH]; intros p w Hw.
  { exists [], [], [], (pending p). cbn. rewrite app_nil_r. by split_and!; try rewrite app_nil_r. }
  (* a wait that changes nothing but the position *)
  assert (forall q, watch_turn profile apply i p w = (Some q, w) -> pending p ++ changes_of i = pending q ->
    exists before rest batches held,
      i :: inputs = before ++ rest /\ pending p ++ received before = concat batches ++ held /\
      ww_disk (run (i :: inputs) p w).2 = (apply_all apply (ww_disk w) batches).2 /\
      watch_left w (apply_all apply (ww_disk w) batches).1 held rest (run (i :: inputs) p w).1 (run (i :: inputs) p w).2) as Hquiet.
  { intros q Ht Hq. destruct (IH q w Hw) as (before & rest & batches & held & -> & Hc & Hd & Hl).
    exists (i :: before), rest, batches, held. cbn [run_sync_watch]. rewrite Ht. split_and!; try done.
    unfold received in *. cbn [map concat]. by rewrite app_assoc, Hq. }
  destruct i as [event|missed usable| |now usable].
  - destruct event as [| | | |changes| | | |], p as [|batch]; try (eapply Hquiet; [done|by rewrite ?app_nil_r]).
  - exists [], (WatchLagged missed usable :: inputs), [], (pending p). cbn. rewrite !app_nil_r. by split_and!.
  - exists [], (WatchClosed :: inputs), [], (pending p). cbn. unfold watch_flags, set_watch_ended. rewrite !app_nil_r, Hw.
    by split_and!.
  - destruct p as [|batch]; [by eapply Hquiet|]. cbn [run_sync_watch watch_turn]. unfold apply_batch.
    destruct (apply (ww_disk w) batch) as [[result|e] d] eqn:Ha; cbn -[run_sync_watch].
    + set (w1 := mkWatchWorld _ _ _ _). destruct (IH Waiting w1 Hw) as (before & rest & batches & held & Hi & Hc & Hd & Hl).
      exists (WatchElapsed now usable :: before), rest, (batch :: batches), held. split; [by rewrite Hi|].
      split; [cbn in Hc |- *; unfold received in *; cbn; by rewrite Hc, app_assoc|].
      cbn [apply_all]. rewrite Ha. change (ww_disk w1) with d in Hd, Hl. destruct (apply_all apply d batches) as [rs d'].
      split; [exact Hd|]. by apply (left_after w w1).
    + exists [], (WatchElapsed now usable :: inputs), [batch], []. cbn. rewrite Ha. cbn. rewrite !app_nil_r.
      split_and!; try done. by exists [], e.
Qed.
End Props.

(** C18: a watch, over whatever the phone reports, however it ends: the batches it applied, one after
    the other and each to the disk the last one left, are the changes it received up to the end,
    in order, without what it held back when it ended.  Every batch but a last one that failed is
    announced with its result.  A gap in the events or a failed batch ends the watch, asks for a
    full synchronisation, is told, and turns the monitor of the phone off if the session is
    usable; the close of the stream ends it with a lost connection and asks for nothing, though
    changes may be held back then. *)
Theorem watch_exact {D : Type} (profile : SyncProfileDto) (apply : D -> list FileChange -> AppResult SyncRunResult * D)
    (inputs : list WatchInput) (w : WatchWorld D)
    (Hw : st_reconciliation_required (job_status (ww_job w)) = false) :
  let '(ended, w') := run_sync_watch profile apply inputs Waiting w in
  exists before rest batches held,
    inputs = before ++ rest /\ received before = concat batches ++ held /\
    let '(results, disk) := apply_all apply (ww_disk w) batches in
    ww_disk w' = disk /\ watch_left profile w results held rest ended w'.
Proof.
  destruct (run_left profile apply inputs Waiting w Hw) as (before & rest & batches & held & Hi & Hc & Hd & Hl).
  destruct (run_sync_watch profile apply inputs Waiting w) as [ended w']. exists before, rest, batches, held.
  split; [done|]. split; [done|]. by destruct (apply_all apply (ww_disk w) batches).
Qed.

(** ** A watch of a sample *)

Definition sample_watch_profile : SyncProfileDto := mkSyncProfile "p" 1 "U" "/DCIM" "/photos" true.
Definition sample_change (p : string) : FileChange :=
  mkFileChange (Some {| rf_path := p; rf_size := 1; rf_created_at := None; rf_modified_at := None;
    rf_is_directory := false; rf_checksum := None; rf_is_trash := None; rf_id := None; rf_ext_data := None |}) FcModified.
(** A disk that counts what was applied. *)
Definition sample_apply (d : nat) (batch : list FileChange) : AppResult SyncRunResult * nat :=
  (Ok (mkSyncRunResult (omap (fun c => rf_path <$> fc_file c) batch) [] [] []), (d + length batch)%nat).
Definition sample_world : WatchWorld nat := mkWatchWorld (set_monitoring true (sync_job_new "p")) 0%nat [] 0.

(** A stream that closes while changes are being collected drops them, and the job asks for no
    full synchronisation: it can be watched again, and the changes stay unapplied. *)
Lemma closed_while_collecting :
  let '(ended, w') := run_sync_watch sample_watch_profile sample_apply
                        [WatchEvent (FileChanged [sample_change "/DCIM/a"]); WatchClosed] Waiting sample_world in
  ended = None /\ ww_disk w' = 0%nat /\ watch_flags (ww_job w') = (false, false, false).
Proof. by vm_compute. Qed.

Lemma watch_exact_witness :
  st_reconciliation_required (job_status (ww_job sample_world)) = false /\
  (let inputs := [WatchEvent (FileChanged [sample_change "/DCIM/a"]); WatchElapsed 5 true;
                  WatchEvent (FileChanged [sample_change "/DCIM/b"]); WatchEvent (FileChanged [sample_change "/DCIM/c"]);
                  WatchElapsed 6 true; WatchLagged 7 true] in
   let '(ended, w') := run_sync_watch sample_watch_profile sample_apply inputs Waiting sample_world in
   ended = None /\ ww_disk w' = 3%nat /\ length (ww_events w') = 3%nat /\
   st_reconciliation_required (job_status (ww_job w')) = true /\
   exists before rest batches held,
     inputs = before ++ rest /\ received before = concat batches ++ held /\
     let '(results, disk) := apply_all sample_apply 0%nat batches in
     ww_disk w' = disk /\ watch_left sample_watch_profile sample_world results held rest ended w').
Proof.
  split; [done|]. intros inputs.
  pose proof (watch_exact sample_watch_profile sample_apply inputs sample_world eq_refl) as H.
  destruct (run_sync_watch _ _ inputs Waiting sample_world) as [ended w'] eqn:Hr. vm_compute in Hr. injection Hr as <- <-.
  split_and!; [done..|exact H].
Defined.
