(* ===== verification/SyncJobs.v ===== *)
(** * The registry of sync jobs

    The concurrent part of the sync service of crates/handshaker-application/src/runtime.rs
    ([register_sync_job], [start_sync], the task of [run_sync_job], [stop_sync],
    [start_sync_watch], the task of [run_sync_watch], [stop_sync_watch] and the sync stage of
    [shutdown]) with the job of sync.rs.  A step is one critical section or one atomic
    operation of one of the calls or tasks; [exec] runs a sequence of them.  The work of a run
    is that of SyncRun.v and the loop of a watch that of SyncWatch.v: here they are what they
    end with.  Calls are taken to run to their end. *)

From stdpp Require Import gmap.
From S2P Require Import Prelude Errors AppErrors Domain Handshake Paths SyncStore Sync SyncRun Transfer Devices FilePlan MediaDto SyncWatch.

#[local] Open Scope string_scope.
#[local] Open Scope list_scope.
#[local] Open Scope Z_scope.

(** ** Jobs *)

(** The task of a run: behind its launch gate, waiting for the mutex of the ledger, holding it,
    at work, with its outcome in the status, over. *)
Inductive RunPhase := RunGated | RunReleased | RunHolding | RunWorking | RunReported | RunEnded | RunPanicked.

(** The call of [start_sync] that registered the job. *)
Inductive StartPhase := ToPublish | ToRelease | Started.

#[export] Instance RunPhase_eq_dec : EqDecision RunPhase.
Proof. solve_decision. Defined.
#[export] Instance StartPhase_eq_dec : EqDecision StartPhase.
Proof. solve_decision. Defined.

(** A job with its only run; the handle of the run's task is the number of the job.  [je_key] is
    the scope key the mutex was found with. *)
Record JobEntry := mkJobEntry {
  je_profile : SyncProfileDto;
  je_cancelled : bool;
  je_key : string;
  je_ledger_lock : Z;
  je_task : TaskPublication;
  je_watch_task : TaskPublication;
  je_job : SyncJob;
  je_start : StartPhase;
  je_run : RunPhase;
  je_aborted : bool
}.

Definition set_running (job : SyncJob) : SyncJob :=
  let st := job_status job in
  mkSyncJob (mkSyncStatus (st_profile_id st) true (st_monitoring st) (st_last_run_at_ms st) (st_last_error st)
               (st_reconciliation_required st) (st_last_sequence_gap st)) (job_last_result job).

(** [SyncJob::new], with its run spawned behind the gate and marked as running. *)
Definition job_entry_new (profile : SyncProfileDto) (key : string) (lock : Z) : JobEntry :=
  mkJobEntry profile false key lock Reserved Reserved (set_running (sync_job_new (sp_id profile))) ToPublish RunGated false.

Definition on_status (f : SyncJob -> SyncJob) (e : JobEntry) : JobEntry :=
  mkJobEntry (je_profile e) (je_cancelled e) (je_key e) (je_ledger_lock e) (je_task e) (je_watch_task e) (f (je_job e))
    (je_start e) (je_run e) (je_aborted e).
Definition set_task (slot : TaskPublication) (e : JobEntry) : JobEntry :=
  mkJobEntry (je_profile e) (je_cancelled e) (je_key e) (je_ledger_lock e) slot (je_watch_task e) (je_job e)
    (je_start e) (je_run e) (je_aborted e).
Definition set_watch_task (slot : TaskPublication) (e : JobEntry) : JobEntry :=
  mkJobEntry (je_profile e) (je_cancelled e) (je_key e) (je_ledger_lock e) (je_task e) slot (je_job e)
    (je_start e) (je_run e) (je_aborted e).
Definition set_run (start : StartPhase) (run : RunPhase) (e : JobEntry) : JobEntry :=
  mkJobEntry (je_profile e) (je_cancelled e) (je_key e) (je_ledger_lock e) (je_task e) (je_watch_task e) (je_job e)
    start run (je_aborted e).
Definition job_cancel (e : JobEntry) : JobEntry :=
  mkJobEntry (je_profile e) true (je_key e) (je_ledger_lock e) (je_task e) (je_watch_task e) (je_job e)
    (je_start e) (je_run e) (je_aborted e).
Definition job_abort (e : JobEntry) : JobEntry :=
  mkJobEntry (je_profile e) (je_cancelled e) (je_key e) (je_ledger_lock e) (je_task e) (je_watch_task e) (je_job e)
    (je_start e) (je_run e) true.

Definition running (e : JobEntry) : bool := st_running (job_status (je_job e)).
Definition monitoring (e : JobEntry) : bool := st_monitoring (job_status (je_job e)).

(** ** Task slots

    [take_published_task]: a look at the slot, [None] while the publication is in flight; and
    the last look, when waiting for it took too long. *)

Definition take_once (slot : TaskPublication) : option (option Z) * TaskPublication :=
  match slot with
  | Published task => (Some (Some task), Taken)
  | Finished | Taken => (Some None, Taken)
  | Reserved => (None, Reserved)
  end.

Definition take_late (slot : TaskPublication) : option Z * TaskPublication :=
  match slot with Published task => (Some task, Taken) | _ => (None, Taken) end.

Definition take_published_task (late : bool) (slot : TaskPublication) : option (option Z) * TaskPublication :=
  if late then let '(task, slot) := take_late slot in (Some task, slot) else take_once slot.

(** ** Watches, stops, the shutdown *)

(** A call of [start_sync_watch]: before the lookup, the checks, the reservation, with the
    session and the answer of the phone to come, accepted, rolling back, publishing, done. *)
Inductive WatchCall :=
  | WcLooking (profile_id : string) | WcFound | WcChecked | WcReserved | WcAccepted | WcReleasing
  | WcToPublish | WcToRelease | WcDone.
Inductive WatchTask := WtNone | WtGated | WtReleased | WtHolding | WtReporting | WtReported | WtEnded.

#[export] Instance WatchTask_eq_dec : EqDecision WatchTask.
Proof. solve_decision. Defined.

Record Watch := mkWatch { wa_job : option Z; wa_call : WatchCall; wa_task : WatchTask; wa_aborted : bool }.

(** A call of [stop_sync]: it may hold the handle of the run or of a watch. *)
Inductive StopPhase :=
  | StopLooking (profile_id : string) | StopFound (job : Z) | StopTaking (job : Z)
  | StopJoining (job task : Z) | StopAborting (job task : Z)
  | StopWatchTaking (job : Z) | StopWatchJoining (job watch : Z) | StopRemoving (job : Z) | StopDone.

(** A call of [stop_sync_watch], up to the request to the phone. *)
Inductive UnwatchPhase :=
  | UnLooking (profile_id : string) | UnTaking (job : Z) | UnJoining (job watch : Z) | UnClearing (job : Z) | UnDone.

Inductive Handle := RunHandle (job : Z) | WatchHandle (watch : Z).

(** The sync stage of the shutdown: per job it cancels the token and takes the two slots. *)
Inductive TakePosition := AtCancel | AtRun | AtWatch.
Inductive SyncShutdown :=
  | ShutIdle | ShutFlagged
  | ShutTaking (todo : list Z) (at_ : TakePosition) (joins : list Handle)
  | ShutJoining (joins : list Handle) | ShutCleared.

Record SyncRegistry := mkSyncRegistry {
  sy_shutting : bool;
  sy_registry : gmap string Z;          (* sync_jobs: the job of a profile *)
  sy_jobs : gmap Z JobEntry;            (* every job, registered or not *)
  sy_next : Z;
  sy_locks : gmap string Z;             (* sync_ledger_locks *)
  sy_watches : gmap Z Watch;
  sy_stops : list StopPhase;
  sy_unwatches : list UnwatchPhase;
  sy_shutdown : SyncShutdown
}.

Definition sync_registry_new : SyncRegistry := mkSyncRegistry false ∅ ∅ 1 ∅ ∅ [] [] ShutIdle.

(** *** Field updates *)

Definition on_job_entry (f : JobEntry -> JobEntry) (j : Z) (s : SyncRegistry) : SyncRegistry :=
  mkSyncRegistry (sy_shutting s) (sy_registry s) (alter f j (sy_jobs s)) (sy_next s) (sy_locks s) (sy_watches s)
    (sy_stops s) (sy_unwatches s) (sy_shutdown s).
Definition set_registry (registry : gmap string Z) (s : SyncRegistry) : SyncRegistry :=
  mkSyncRegistry (sy_shutting s) registry (sy_jobs s) (sy_next s) (sy_locks s) (sy_watches s)
    (sy_stops s) (sy_unwatches s) (sy_shutdown s).
Definition set_watch (w : Z) (watch : Watch) (s : SyncRegistry) : SyncRegistry :=
  mkSyncRegistry (sy_shutting s) (sy_registry s) (sy_jobs s) (sy_next s) (sy_locks s) (<[w := watch]> (sy_watches s))
    (sy_stops s) (sy_unwatches s) (sy_shutdown s).
Definition set_stop (i : nat) (p : StopPhase) (s : SyncRegistry) : SyncRegistry :=
  mkSyncRegistry (sy_shutting s) (sy_registry s) (sy_jobs s) (sy_next s) (sy_locks s) (sy_watches s)
    (<[i := p]> (sy_stops s)) (sy_unwatches s) (sy_shutdown s).
Definition set_unwatch (i : nat) (p : UnwatchPhase) (s : SyncRegistry) : SyncRegistry :=
  mkSyncRegistry (sy_shutting s) (sy_registry s) (sy_jobs s) (sy_next s) (sy_locks s) (sy_watches s)
    (sy_stops s) (<[i := p]> (sy_unwatches s)) (sy_shutdown s).
Definition set_shutdown (shutting : bool) (p : SyncShutdown) (s : SyncRegistry) : SyncRegistry :=
  mkSyncRegistry shutting (sy_registry s) (sy_jobs s) (sy_next s) (sy_locks s) (sy_watches s)
    (sy_stops s) (sy_unwatches s) p.

(** ** Mutexes *)

Definition run_holds (run : RunPhase) : bool :=
  match run with RunHolding | RunWorking | RunReported => true | _ => false end.
Definition watch_holds (task : WatchTask) : bool :=
  match task with WtHolding | WtReporting | WtReported => true | _ => false end.

Definition job_of (s : SyncRegistry) (watch : Watch) : option JobEntry := j ← wa_job watch; sy_jobs s !! j.

(** Whether nobody holds the mutex of a ledger. *)
Definition lock_free (lock : Z) (s : SyncRegistry) : bool :=
  bool_decide (map_Forall (fun _ e => ~ (je_ledger_lock e = lock /\ run_holds (je_run e) = true)) (sy_jobs s)) &&
  bool_decide (map_Forall (fun _ w => ~ (je_ledger_lock <$> job_of s w = Some lock /\ watch_holds (wa_task w) = true)) (sy_watches s)).

(** Aborting a watch's task and awaiting it; a task that is done stays done. *)
Definition watch_abort (w : Z) (s : SyncRegistry) : SyncRegistry :=
  match sy_watches s !! w with
  | Some watch => set_watch w (mkWatch (wa_job watch) (wa_call watch) (wa_task watch) true) s
  | None => s
  end.
Definition watch_ended (w : Z) (s : SyncRegistry) : bool :=
  match sy_watches s !! w with Some watch => bool_decide (wa_task watch = WtEnded) | None => false end.

Definition run_over (run : RunPhase) : bool := match run with RunEnded | RunPanicked => true | _ => false end.
Definition run_ended (j : Z) (s : SyncRegistry) : bool :=
  match sy_jobs s !! j with Some e => run_over (je_run e) | None => false end.

Definition handle_ended (h : Handle) (s : SyncRegistry) : bool :=
  match h with RunHandle j => run_ended j s | WatchHandle w => watch_ended w s end.
Definition handle_abort (h : Handle) (s : SyncRegistry) : SyncRegistry :=
  match h with RunHandle j => on_job_entry job_abort j s | WatchHandle w => watch_abort w s end.

(** ** start_sync *)

Section Jobs.
Context `{Crypto}.

Definition ledger_lock_for (key : string) (s : SyncRegistry) : Z * SyncRegistry :=
  match sy_locks s !! key with
  | Some lock => (lock, s)
  | None =>
      let lock := sy_next s in
      (lock, mkSyncRegistry (sy_shutting s) (sy_registry s) (sy_jobs s) (lock + 1) (<[key := lock]> (sy_locks s))
               (sy_watches s) (sy_stops s) (sy_unwatches s) (sy_shutdown s))
  end.

Definition start_refused (code : PublicErrorCode) (why : string) : PublicError :=
  operation "sync.start" (public_new code why).

Definition replaceable (registered : option JobEntry) : AppResult () :=
  match registered with
  | None => Ok ()
  | Some e =>
      if running e then Err (start_refused InvalidState "sync job already running for this profile")
      else if monitoring e
      then Err (start_refused InvalidState "sync watch is active for this profile; stop it before running")
      else Ok ()
  end.

Definition registered_job (profile_id : string) (s : SyncRegistry) : option JobEntry :=
  j ← sy_registry s !! profile_id; sy_jobs s !! j.

(** [canonical] is the real path of the local root, if it has one. *)
Definition register_sync_job (profile : SyncProfileDto) (canonical : option path) (s : SyncRegistry)
  : AppResult Z * SyncRegistry :=
  let key := ledger_scope_key (sync_identity_for canonical profile) in
  if sy_shutting s then (Err (start_refused RuntimeClosed "runtime is shutting down"), s)
  else
    match replaceable (registered_job (sp_id profile) s) with
    | Err e => (Err e, s)
    | Ok _ =>
        let '(lock, s) := ledger_lock_for key s in
        let j := sy_next s in
        (Ok j, mkSyncRegistry (sy_shutting s) (<[sp_id profile := j]> (sy_registry s))
                 (<[j := job_entry_new profile key lock]> (sy_jobs s)) (j + 1) (sy_locks s) (sy_watches s)
                 (sy_stops s) (sy_unwatches s) (sy_shutdown s))
    end.

Definition start_sync (profile : SyncProfileDto) (canonical : option path) (s : SyncRegistry) : AppResult Z * SyncRegistry :=
  if sy_shutting s then (Err (public_new RuntimeClosed "runtime is shut down"), s)
  else match validate_sync_profile_format profile with
       | Err e => (Err e, s)
       | Ok _ => register_sync_job profile canonical s
       end.

(** Its ends: publishing the handle, opening the gate. *)
Definition start_step (j : Z) (s : SyncRegistry) : option SyncRegistry :=
  e ← sy_jobs s !! j;
  match je_start e with
  | ToPublish => Some (on_job_entry (fun e => set_run ToRelease (je_run e) (set_task (Published j) e)) j s)
  | ToRelease =>
      let run := if decide (je_run e = RunGated) then RunReleased else je_run e in
      Some (on_job_entry (set_run Started run) j s)
  | Started => None
  end.

(** What the work of a run ends with: its commit went through, or not (with the error), or it
    found itself cancelled (without). *)
Inductive RunOutcome := RunSucceeded (now : Z) (result : SyncRunResult) | RunStopped (error : option PublicError).

Definition report_run (o : RunOutcome) (job : SyncJob) : SyncJob :=
  match o with RunSucceeded now result => set_succeeded now result job | RunStopped error => set_stopped error job end.

Inductive RunInput := RunProceeds | RunOutcomes (o : RunOutcome) | RunPanics | RunAborts.

(** A step of the task of a run. *)
Definition run_step (j : Z) (i : RunInput) (s : SyncRegistry) : option SyncRegistry :=
  e ← sy_jobs s !! j;
  match i, je_run e with
  | RunProceeds, RunReleased =>
      if lock_free (je_ledger_lock e) s then Some (on_job_entry (set_run (je_start e) RunHolding) j s) else None
  | RunProceeds, RunHolding =>
      Some (on_job_entry (if je_cancelled e then fun e => set_run (je_start e) RunReported (on_status (set_stopped None) e)
                          else set_run (je_start e) RunWorking) j s)
  | RunOutcomes o, RunWorking =>
      Some (on_job_entry (fun e => set_run (je_start e) RunReported (on_status (report_run o) e)) j s)
  | RunPanics, RunWorking => Some (on_job_entry (set_run (je_start e) RunPanicked) j s)
  | RunProceeds, RunReported => Some (on_job_entry (fun e => set_run (je_start e) RunEnded (set_task Finished e)) j s)
  | RunAborts, run =>
      if je_aborted e && negb (run_over run) then Some (on_job_entry (set_run (je_start e) RunEnded) j s) else None
  | _, _ => None
  end.

(** ** stop_sync *)

Definition panicked_error : PublicError := operation "sync.run" (public_new Internal "sync pipeline panicked").

Definition remove_sync_job_if_current (j : Z) (s : SyncRegistry) : SyncRegistry :=
  match sy_jobs s !! j with
  | Some e =>
      let id := sp_id (je_profile e) in
      if bool_decide (sy_registry s !! id = Some j) then set_registry (delete id (sy_registry s)) s else s
  | None => s
  end.

(** [late] is the end of a wait: for the publication, or for the task. *)
Definition stop_step (i : nat) (late : bool) (s : SyncRegistry) : option SyncRegistry :=
  p ← sy_stops s !! i;
  match p with
  | StopLooking id => Some (set_stop i (match sy_registry s !! id with Some j => StopFound j | None => StopDone end) s)
  | StopFound j => Some (set_stop i (StopTaking j) (on_job_entry job_cancel j s))
  | StopTaking j =>
      e ← sy_jobs s !! j;
      match take_published_task late (je_task e) with
      | (None, _) => None
      | (Some (Some t), slot) => Some (set_stop i (StopJoining j t) (on_job_entry (set_task slot) j s))
      | (Some None, slot) => Some (set_stop i (StopWatchTaking j) (on_job_entry (set_task slot) j s))
      end
  | StopJoining j t =>
      if run_ended t s then
        let panicked := match sy_jobs s !! t with Some e => bool_decide (je_run e = RunPanicked) | None => false end in
        Some (set_stop i (StopWatchTaking j)
                (if panicked then on_job_entry (on_status (set_stopped (Some panicked_error))) j s else s))
      else if late then Some (set_stop i (StopAborting j t) (on_job_entry job_abort t s)) else None
  | StopAborting j t => if run_ended t s then Some (set_stop i (StopWatchTaking j) s) else None
  | StopWatchTaking j =>
      e ← sy_jobs s !! j;
      match take_published_task late (je_watch_task e) with
      | (None, _) => None
      | (Some (Some w), slot) => Some (set_stop i (StopWatchJoining j w) (watch_abort w (on_job_entry (set_watch_task slot) j s)))
      | (Some None, slot) => Some (set_stop i (StopRemoving j) (on_job_entry (set_watch_task slot) j s))
      end
  | StopWatchJoining j w => if watch_ended w s then Some (set_stop i (StopRemoving j) s) else None
  | StopRemoving j => Some (set_stop i StopDone (remove_sync_job_if_current j s))
  | StopDone => None
  end.

(** ** start_sync_watch *)

Definition watch_refused (code : PublicErrorCode) (why : string) : PublicError :=
  operation "sync.watch.start" (public_new code why).

Definition sync_job_not_found (op : string) : PublicError := operation op (public_new NotFound "sync job not found").

Definition watch_allowed (e : JobEntry) : AppResult () :=
  if negb (sp_enabled (je_profile e)) then Err (watch_refused InvalidState "sync profile is disabled")
  else if st_reconciliation_required (job_status (je_job e))
  then Err (watch_refused InvalidState "sync watch requires reconciliation: run a full sync first")
  else Ok ().

Definition reserve_sync_watch (j : Z) (s : SyncRegistry) : AppResult () * SyncRegistry :=
  match sy_jobs s !! j with
  | None => (Err (sync_job_not_found "sync.watch.start"), s)
  | Some e =>
      match sy_registry s !! sp_id (je_profile e) with
      | None => (Err (sync_job_not_found "sync.watch.start"), s)
      | Some current =>
          if negb (bool_decide (current = j)) then (Err (watch_refused InvalidState "sync job was replaced; retry"), s)
          else if running e then (Err (watch_refused InvalidState "sync job is running; stop it before watching"), s)
          else if monitoring e then (Err (watch_refused InvalidState "sync watch already active for this profile"), s)
          else (Ok (), on_job_entry (on_status (set_monitoring true)) j s)
      end
  end.

Definition release_sync_watch (j : Z) (s : SyncRegistry) : SyncRegistry :=
  match sy_jobs s !! j with
  | Some e =>
      if bool_decide (sy_registry s !! sp_id (je_profile e) = Some j)
      then on_job_entry (on_status (set_monitoring false)) j s else s
  | None => s
  end.

(** What the session and the phone say to the reservation. *)
Inductive MonitorAnswer := SessionGone | MonitorRefused | MonitorOn.

Definition watch_call_step (w : Z) (answer : MonitorAnswer) (s : SyncRegistry) : option SyncRegistry :=
  watch ← sy_watches s !! w;
  let goes call s := Some (set_watch w (mkWatch (wa_job watch) call (wa_task watch) (wa_aborted watch)) s) in
  match wa_call watch, wa_job watch with
  | WcLooking id, _ =>
      match sy_registry s !! id with
      | Some j => Some (set_watch w (mkWatch (Some j) WcFound WtNone false) s)
      | None => goes WcDone s
      end
  | WcFound, Some j =>
      e ← sy_jobs s !! j;
      goes (match watch_allowed e with Ok _ => WcChecked | Err _ => WcDone end) s
  | WcChecked, Some j =>
      match reserve_sync_watch j s with
      | (Ok _, s) => goes WcReserved s
      | (Err _, s) => goes WcDone s
      end
  | WcReserved, Some j =>
      goes (match answer with SessionGone => WcDone | MonitorRefused => WcReleasing | MonitorOn => WcAccepted end) s
  | WcAccepted, Some j =>
      if sy_shutting s then goes WcReleasing s
      else Some (set_watch w (mkWatch (Some j) WcToPublish WtGated false) s)
  | WcReleasing, Some j => goes WcDone (release_sync_watch j s)
  | WcToPublish, Some j => goes WcToRelease (on_job_entry (set_watch_task (Published w)) j s)
  | WcToRelease, Some j =>
      let task := if decide (wa_task watch = WtGated) then WtReleased else wa_task watch in
      Some (set_watch w (mkWatch (Some j) WcDone task (wa_aborted watch)) s)
  | _, _ => None
  end.

(** What the loop of a watch does next: apply a batch, end with a gap or a failed batch, end
    with the close of the stream. *)
Inductive WatchTaskInput :=
  | WatchProceeds | WatchApplies (now : Z) (result : SyncRunResult)
  | WatchFails (gap : option Z) (error : PublicError) | WatchCloses | WatchAborts.

Definition watch_task_step (w : Z) (i : WatchTaskInput) (s : SyncRegistry) : option SyncRegistry :=
  watch ← sy_watches s !! w;
  j ← wa_job watch;
  e ← sy_jobs s !! j;
  let goes task s := Some (set_watch w (mkWatch (wa_job watch) (wa_call watch) task (wa_aborted watch)) s) in
  match i, wa_task watch with
  | WatchProceeds, WtReleased => if lock_free (je_ledger_lock e) s then goes WtHolding s else None
  | WatchApplies now result, WtHolding => Some (on_job_entry (on_status (set_applied now result)) j s)
  | WatchFails gap error, WtHolding => goes WtReporting (on_job_entry (on_status (set_unreconciled gap error)) j s)
  | WatchCloses, WtHolding => goes WtReporting s
  | WatchProceeds, WtReporting => goes WtReported (on_job_entry (on_status set_watch_ended) j s)
  | WatchProceeds, WtReported => goes WtEnded (on_job_entry (set_watch_task Finished) j s)
  | WatchAborts, (WtGated | WtReleased | WtHolding | WtReporting | WtReported) =>
      if wa_aborted watch then goes WtEnded s else None
  | _, _ => None
  end.

(** ** stop_sync_watch *)

Definition unwatch_step (i : nat) (late : bool) (s : SyncRegistry) : option SyncRegistry :=
  p ← sy_unwatches s !! i;
  match p with
  | UnLooking id => Some (set_unwatch i (match sy_registry s !! id with Some j => UnTaking j | None => UnDone end) s)
  | UnTaking j =>
      e ← sy_jobs s !! j;
      match take_published_task late (je_watch_task e) with
      | (None, _) => None
      | (Some (Some w), slot) => Some (set_unwatch i (UnJoining j w) (watch_abort w (on_job_entry (set_watch_task slot) j s)))
      | (Some None, slot) => Some (set_unwatch i (UnClearing j) (on_job_entry (set_watch_task slot) j s))
      end
  | UnJoining j w => if watch_ended w s then Some (set_unwatch i (UnClearing j) s) else None
  | UnClearing j => Some (set_unwatch i UnDone (on_job_entry (on_status (set_monitoring false)) j s))
  | UnDone => None
  end.

(** ** The shutdown *)

Definition taken_handle {A} (h : A -> Handle) (task : option A) : list Handle :=
  match task with Some t => [h t] | None => [] end.

Definition shutdown_step (late : bool) (s : SyncRegistry) : option SyncRegistry :=
  match sy_shutdown s with
  | ShutIdle => Some (set_shutdown true ShutFlagged s)
  | ShutFlagged => Some (set_shutdown true (ShutTaking (map_to_list (sy_registry s)).*2 AtCancel []) s)
  | ShutTaking (j :: todo) AtCancel joins =>
      _ ← sy_jobs s !! j;
      Some (set_shutdown true (ShutTaking (j :: todo) AtRun joins) (on_job_entry job_cancel j s))
  | ShutTaking (j :: todo) AtRun joins =>
      e ← sy_jobs s !! j;
      match take_published_task late (je_task e) with
      | (None, _) => None
      | (Some task, slot) =>
          Some (set_shutdown true (ShutTaking (j :: todo) AtWatch (joins ++ taken_handle RunHandle task))
                  (on_job_entry (set_task slot) j s))
      end
  | ShutTaking (j :: todo) AtWatch joins =>
      e ← sy_jobs s !! j;
      match take_published_task late (je_watch_task e) with
      | (None, _) => None
      | (Some task, slot) =>
          Some (set_shutdown true (ShutTaking todo AtCancel (joins ++ taken_handle WatchHandle task))
                  (on_job_entry (set_watch_task slot) j s))
      end
  | ShutTaking [] _ joins => Some (set_shutdown true (ShutJoining joins) s)
  | ShutJoining (h :: joins) =>
      if handle_ended h s then Some (set_shutdown true (ShutJoining joins) s)
      else if late then Some (handle_abort h s) else None
  | ShutJoining [] => Some (set_shutdown true ShutCleared (set_registry ∅ s))
  | ShutCleared => None
  end.

(** ** Interleavings *)

(** ** Queries *)

Definition sync_open (s : SyncRegistry) : AppResult () :=
  if sy_shutting s then Err (public_new RuntimeClosed "runtime is shut down") else Ok ().

Definition of_sync_job {A} (op profile_id : string) (f : JobEntry -> A) (s : SyncRegistry) : AppResult A :=
  match sync_open s with
  | Err e => Err e
  | Ok _ => match registered_job profile_id s with Some e => Ok (f e) | None => Err (sync_job_not_found op) end
  end.

Definition get_sync_status (profile_id : string) : SyncRegistry -> AppResult SyncStatusDto :=
  of_sync_job "sync.status" profile_id (fun e => job_status (je_job e)).

Definition last_sync_result (profile_id : string) : SyncRegistry -> AppResult (option SyncRunResult) :=
  of_sync_job "sync.result" profile_id (fun e => job_last_result (je_job e)).

Inductive Action :=
  | StartCall (profile : SyncProfileDto) (canonical : option path) | StartStep (j : Z) | RunStep (j : Z) (i : RunInput)
  | StopCall (profile_id : string) | StopStep (i : nat) (late : bool)
  | WatchStart (profile_id : string) | WatchCallStep (w : Z) (answer : MonitorAnswer) | WatchTaskStep (w : Z) (i : WatchTaskInput)
  | UnwatchCall (profile_id : string) | UnwatchStep (i : nat) (late : bool)
  | ShutdownStep (late : bool).

(** A call that is let in while the runtime is open. *)
Definition if_open (f : SyncRegistry -> SyncRegistry) (s : SyncRegistry) : option SyncRegistry :=
  if sy_shutting s then None else Some (f s).

Definition act (a : Action) (s : SyncRegistry) : option SyncRegistry :=
  match a with
  | StartCall profile canonical => Some (start_sync profile canonical s).2
  | StartStep j => start_step j s
  | RunStep j i => run_step j i s
  | StopCall id => if_open (fun s => mkSyncRegistry (sy_shutting s) (sy_registry s) (sy_jobs s) (sy_next s) (sy_locks s)
                              (sy_watches s) (sy_stops s ++ [StopLooking id]) (sy_unwatches s) (sy_shutdown s)) s
  | StopStep i late => stop_step i late s
  | WatchStart id => if_open (fun s => mkSyncRegistry (sy_shutting s) (sy_registry s) (sy_jobs s) (sy_next s + 1) (sy_locks s)
                                (<[sy_next s := mkWatch None (WcLooking id) WtNone false]> (sy_watches s))
                                (sy_stops s) (sy_unwatches s) (sy_shutdown s)) s
  | WatchCallStep w answer => watch_call_step w answer s
  | WatchTaskStep w i => watch_task_step w i s
  | UnwatchCall id => if_open (fun s => mkSyncRegistry (sy_shutting s) (sy_registry s) (sy_jobs s) (sy_next s) (sy_locks s)
                                 (sy_watches s) (sy_stops s) (sy_unwatches s ++ [UnLooking id]) (sy_shutdown s)) s
  | UnwatchStep i late => unwatch_step i late s
  | ShutdownStep late => shutdown_step late s
  end.

Fixpoint exec (actions : list Action) (s : SyncRegistry) : option SyncRegistry :=
  match actions with
  | [] => Some s
  | a :: actions => s' ← act a s; exec actions s'
  end.

End Jobs.
