(* ===== verification/SyncJobsInv.v ===== *)
(** * The invariant of the registry of sync jobs

    What every step of SyncJobs.v keeps: the slot, the token and the task of each job fit, and
    the handle of a run at work is in the slot of a registered job or in the hands of a call. *)

From stdpp Require Import gmap.
From S2P Require Import Prelude Errors AppErrors Domain Handshake Paths SyncStore Sync SyncRun Transfer Devices FilePlan MediaDto SyncWatch SyncJobs.

#[local] Open Scope string_scope.
#[local] Open Scope list_scope.
#[local] Open Scope Z_scope.

(** ** One job *)

Definition published (e : JobEntry) : Prop := exists t, je_task e = Published t.
Definition at_work (e : JobEntry) : Prop := je_run e = RunWorking.

(** The run has reported, or is over. *)
Definition run_past (run : RunPhase) : bool :=
  match run with RunReported | RunEnded | RunPanicked => true | _ => false end.
Definition past (e : JobEntry) : Prop := run_past (je_run e) = true.

(** It will not begin to work, and if it is at work its handle was taken. *)
Definition settled (e : JobEntry) : Prop := je_cancelled e = true /\ (at_work e -> ~ published e).
Definition gone (e : JobEntry) : Prop := past e \/ settled e.

Definition entry_ok (j : Z) (e : JobEntry) : Prop :=
  (forall t, je_task e = Published t -> t = j) /\
  (je_task e = Taken -> je_cancelled e = true) /\
  (je_task e = Finished -> je_run e = RunEnded) /\
  (je_start e = ToPublish -> je_run e = RunGated /\ je_aborted e = false /\ ~ published e) /\
  (je_start e <> ToPublish -> je_task e <> Reserved) /\
  (past e \/ running e = true) /\
  ~ (running e = true /\ monitoring e = true).

(** What no step of anybody undoes. *)
Definition evolves (e e' : JobEntry) : Prop :=
  (je_profile e' = je_profile e /\ je_key e' = je_key e /\ je_ledger_lock e' = je_ledger_lock e) /\
  (je_cancelled e = true -> je_cancelled e' = true) /\
  (past e -> past e') /\ (settled e -> settled e') /\
  (je_start e <> ToPublish -> je_start e' <> ToPublish) /\
  (run_over (je_run e) = true -> run_over (je_run e') = true) /\
  (past e \/ je_cancelled e = true -> at_work e' -> at_work e).

Lemma evolves_refl (e : JobEntry) : evolves e e.
Proof. unfold evolves. by split_and!. Qed.

Lemma evolves_trans (a b c : JobEntry) : evolves a b -> evolves b c -> evolves a c.
Proof. unfold evolves. intros ((? & ? & ?) & ?) ((? & ? & ?) & ?). split; [split_and!; congruence|naive_solver]. Qed.

Lemma evolves_gone (e e' : JobEntry) : evolves e e' -> gone e -> gone e'.
Proof. unfold evolves, gone. naive_solver. Qed.

(** A change of an entry that keeps it in order. *)
Definition fine (j : Z) (f : JobEntry -> JobEntry) (e : JobEntry) : Prop := entry_ok j (f e) /\ evolves e (f e).

Ltac entry := unfold fine, entry_ok, evolves, settled, past, at_work, published, running, monitoring in *; cbn in *.

Lemma fine_status (j : Z) (f : SyncJob -> SyncJob) (e : JobEntry) : entry_ok j e ->
  (st_running (job_status (f (je_job e))) = running e) ->
  (st_monitoring (job_status (f (je_job e))) = false \/ st_monitoring (job_status (f (je_job e))) = monitoring e) ->
  fine j (on_status f) e.
Proof. entry. intros (? & ? & ? & ? & ? & ? & ?) Hr Hm. rewrite Hr. split; split_and!; try done. destruct Hm as [-> | ->]; naive_solver. Qed.

Lemma fine_reserve (j : Z) (e : JobEntry) : entry_ok j e -> running e = false -> fine j (on_status (set_monitoring true)) e.
Proof. entry. intros (? & ? & ? & ? & ? & ? & ?) Hr. rewrite Hr in *. split; split_and!; naive_solver. Qed.

Lemma fine_cancel (j : Z) (e : JobEntry) : entry_ok j e -> fine j job_cancel e.
Proof. entry. intros (? & ? & ? & ? & ? & ? & ?). split; split_and!; naive_solver. Qed.

Lemma fine_watch_task (j : Z) (slot : TaskPublication) (e : JobEntry) : entry_ok j e -> fine j (set_watch_task slot) e.
Proof. entry. intros. split; split_and!; naive_solver. Qed.

Lemma fine_abort (j : Z) (e : JobEntry) : entry_ok j e -> je_start e <> ToPublish -> fine j job_abort e.
Proof. entry. intros (? & ? & ? & ? & ? & ? & ?) Hs. split; split_and!; naive_solver. Qed.

(** Taking the slot of a run that was cancelled. *)
Lemma fine_take (j : Z) (e : JobEntry) : entry_ok j e -> je_cancelled e = true -> fine j (set_task Taken) e.
Proof. entry. intros (? & ? & ? & ? & ? & ? & ?) Hc. split; split_and!; naive_solver. Qed.

Lemma settled_taken (e : JobEntry) : je_cancelled e = true -> settled (set_task Taken e).
Proof. entry. intros. split; [done|]. by intros _ [t Ht]. Qed.

Lemma fine_publish (j : Z) (e : JobEntry) : entry_ok j e -> je_start e = ToPublish ->
  fine j (fun e => set_run ToRelease (je_run e) (set_task (Published j) e)) e.
Proof.
  entry. intros (_ & _ & _ & Hp & _ & Hr & Hf) Hs. destruct (Hp Hs) as (Hg & _ & _). rewrite Hg in *.
  split; split_and!; try done; try congruence. by intros [? _].
Qed.

(** The next step of the task of a run. *)
Lemma fine_run (j : Z) (start : StartPhase) (run : RunPhase) (e : JobEntry) : entry_ok j e ->
  start <> ToPublish -> je_start e <> ToPublish ->
  (je_task e = Finished -> run = RunEnded) -> (run = RunWorking -> je_cancelled e = false /\ run_past (je_run e) = false \/ je_run e = RunWorking) ->
  (run_past (je_run e) = true -> run_past run = true) -> (run_over (je_run e) = true -> run_over run = true) ->
  (run_past run = true \/ running e = true) ->
  fine j (set_run start run) e.
Proof.
  entry. intros (? & ? & ? & ? & ? & ? & ?) ? ? ? Hw ? ? ?. split; split_and!; try done; try congruence.
  - auto.
  - intros [Hc Hp]. split; [done|]. intros Hr. destruct (Hw Hr) as [[? _]|?]; [congruence|auto].
  - intros [Hp|Hc] Hr; destruct (Hw Hr) as [[? ?]|?]; congruence.
Qed.

Lemma fine_finished (j : Z) (e : JobEntry) : entry_ok j e -> je_run e = RunEnded -> fine j (set_task Finished) e.
Proof.
  entry. intros (? & ? & ? & Hs & ? & ? & ?) Hr. rewrite Hr in *. split; split_and!; try done; try congruence.
  - intros Hp. by destruct (Hs Hp).
  - by intros [? _].
Qed.

(** A status of a run that is over. *)
Lemma fine_over (j : Z) (f : SyncJob -> SyncJob) (e : JobEntry) : entry_ok j e -> past e ->
  st_running (job_status (f (je_job e))) = false -> fine j (on_status f) e.
Proof. entry. intros (? & ? & ? & ? & ? & ? & ?) Hp Hr. rewrite Hr. split; split_and!; try done; [by left|by intros [? _]]. Qed.

Lemma fine_then (j : Z) (f g : JobEntry -> JobEntry) (e : JobEntry) :
  fine j f e -> (entry_ok j (f e) -> fine j g (f e)) -> fine j (fun e => g (f e)) e.
Proof. intros [Hf He] Hg. destruct (Hg Hf) as [? ?]. split; [done|]. by eapply evolves_trans. Qed.

Lemma fine_report (j : Z) (f : SyncJob -> SyncJob) (e : JobEntry) : entry_ok j e ->
  je_start e <> ToPublish -> je_task e <> Finished -> run_over (je_run e) = false ->
  (st_running (job_status (f (je_job e))) = false) ->
  (st_monitoring (job_status (f (je_job e))) = monitoring e) ->
  fine j (fun e => set_run (je_start e) RunReported (on_status f e)) e.
Proof.
  entry. intros (? & ? & ? & ? & ? & ? & ?) ? ? Ho Hr Hm. rewrite Hr, Hm. split; split_and!; try done; try congruence.
  - by left.
  - by intros [? _].
  - by intros [? _].
Qed.

(** ** The invariant *)

Section Invariant.
Context `{Crypto}.

Abbreviation Jobs := (gmap Z JobEntry).

Definition knows (jobs : Jobs) (j : Z) (P : JobEntry -> Prop) : Prop := exists e, jobs !! j = Some e /\ P e.

Definition all_evolve (a b : Jobs) : Prop := forall j e, a !! j = Some e -> knows b j (evolves e).

Lemma knows_evolve (a b : Jobs) (j : Z) (P : JobEntry -> Prop) :
  all_evolve a b -> (forall e e', evolves e e' -> P e -> P e') -> knows a j P -> knows b j P.
Proof. intros Hab Hp (e & He & Hpe). destruct (Hab j e He) as (e' & He' & Hev). exists e'. split; [done|]. by eapply Hp. Qed.

Definition handed_out (e : JobEntry) : Prop := settled e /\ je_start e <> ToPublish.

Definition stop_ok (jobs : Jobs) (p : StopPhase) : Prop :=
  match p with
  | StopLooking _ | StopDone => True
  | StopFound j => knows jobs j (fun _ => True)
  | StopTaking j => knows jobs j (fun e => je_cancelled e = true)
  | StopJoining j t | StopAborting j t => t = j /\ knows jobs j handed_out
  | StopWatchTaking j | StopWatchJoining j _ | StopRemoving j => knows jobs j settled
  end.

Definition shutdown_joins (p : SyncShutdown) : list Handle :=
  match p with ShutTaking _ _ joins | ShutJoining joins => joins | _ => [] end.

(** The runs whose handles are in the hands of a stop or of the shutdown. *)
Definition held (s : SyncRegistry) (j : Z) : Prop :=
  (exists (i : nat) k, sy_stops s !! i = Some (StopJoining k j) \/ sy_stops s !! i = Some (StopAborting k j)) \/
  RunHandle j ∈ shutdown_joins (sy_shutdown s).

(** A registered job the shutdown has yet to come to. *)
Definition awaits (todo : list Z) (at_ : TakePosition) (j : Z) (e : JobEntry) : Prop :=
  match todo with
  | [] => False
  | h :: todo => j ∈ todo \/ (j = h /\ match at_ with AtCancel | AtRun => True | AtWatch => gone e end)
  end.

Definition shutdown_ok (shutting : bool) (registry : gmap string Z) (jobs : Jobs) (p : SyncShutdown) : Prop :=
  (p <> ShutIdle -> shutting = true) /\
  (forall j, RunHandle j ∈ shutdown_joins p -> knows jobs j handed_out) /\
  match p with
  | ShutIdle | ShutFlagged => True
  | ShutTaking todo at_ _ =>
      (at_ = AtRun -> forall j, head todo = Some j -> knows jobs j (fun e => je_cancelled e = true)) /\
      forall id j e, registry !! id = Some j -> jobs !! j = Some e -> gone e \/ awaits todo at_ j e
  | ShutJoining _ => forall id j e, registry !! id = Some j -> jobs !! j = Some e -> gone e
  | ShutCleared => registry = ∅
  end.

Definition guarded (s : SyncRegistry) : Prop :=
  forall j e, sy_jobs s !! j = Some e -> at_work e -> published e \/ held s j.

Record inv (s : SyncRegistry) : Prop := mkInv {
  inv_entries : forall j e, sy_jobs s !! j = Some e -> entry_ok j e /\ j < sy_next s;
  inv_registered : forall id j, sy_registry s !! id = Some j -> knows (sy_jobs s) j (fun e => sp_id (je_profile e) = id);
  inv_replaced : forall j e, sy_jobs s !! j = Some e -> sy_registry s !! sp_id (je_profile e) <> Some j -> gone e;
  inv_stops : forall i p, sy_stops s !! i = Some p -> stop_ok (sy_jobs s) p;
  inv_shutdown : shutdown_ok (sy_shutting s) (sy_registry s) (sy_jobs s) (sy_shutdown s);
  inv_guarded : guarded s;
  inv_locks : (forall j e, sy_jobs s !! j = Some e -> sy_locks s !! je_key e = Some (je_ledger_lock e)) /\
              (forall k l, sy_locks s !! k = Some l -> l < sy_next s) /\
              (forall k k' l, sy_locks s !! k = Some l -> sy_locks s !! k' = Some l -> k = k')
}.

Lemma stop_ok_evolve (a b : Jobs) (p : StopPhase) : all_evolve a b -> stop_ok a p -> stop_ok b p.
Proof.
  intros Hab. destruct p; cbn; try done; try (intros [? Hk]; split; [done|]; revert Hk);
    (apply knows_evolve; [done|]); unfold evolves, handed_out; naive_solver.
Qed.

Lemma shutdown_ok_evolve (shutting : bool) (registry registry' : gmap string Z) (a b : Jobs) (p : SyncShutdown) :
  all_evolve a b -> (forall id j, registry' !! id = Some j -> registry !! id = Some j) ->
  (forall id j, registry !! id = Some j -> is_Some (a !! j)) ->
  shutdown_ok shutting registry a p -> shutdown_ok shutting registry' b p.
Proof.
  intros Hab Hr Hd (Hs & Hj & Hp). split; [done|]. split.
  { intros j Hin. eapply knows_evolve; [done| |by apply Hj]. unfold evolves, handed_out. naive_solver. }
  assert (forall id j e, registry' !! id = Some j -> b !! j = Some e ->
            exists e0, registry !! id = Some j /\ a !! j = Some e0 /\ evolves e0 e) as Hback.
  { intros id j e Hid He. destruct (Hd id j (Hr _ _ Hid)) as [e0 He0]. destruct (Hab j e0 He0) as (e1 & He1 & Hev).
    exists e0. split_and!; [by apply Hr|done|congruence]. }
  destruct p as [| |todo pos joins|joins|]; try done.
  - destruct Hp as [Hc Hp]. split.
    { intros Hpos k Hk. eapply knows_evolve; [done| |by apply Hc]. by intros e e' (_ & He & _). }
    intros id j e Hid He. destruct (Hback id j e Hid He) as (e0 & Hid0 & He0 & Hev).
    destruct (Hp id j e0 Hid0 He0) as [Hg|Hw]; [left; by eapply evolves_gone|right].
    destruct todo as [|h todo]; [done|]. destruct Hw as [Hin|[-> Hpos]]; [by left|right]. split; [done|].
    destruct pos; [done..|by eapply evolves_gone].
  - intros id j e Hid He. destruct (Hback id j e Hid He) as (e0 & Hid0 & He0 & Hev). eapply evolves_gone; eauto.
  - apply map_empty. intros id. destruct (registry' !! id) as [j|] eqn:Hid; [|done]. apply Hr in Hid. by rewrite Hp in Hid.
Qed.

Lemma all_evolve_alter (jobs : Jobs) (f : JobEntry -> JobEntry) (j : Z) :
  (forall e, jobs !! j = Some e -> evolves e (f e)) -> all_evolve jobs (alter f j jobs).
Proof.
  intros Hf k e He. destruct (decide (k = j)) as [-> |Hne].
  - exists (f e). rewrite lookup_alter_eq, He. split; [done|by apply Hf].
  - exists e. rewrite lookup_alter_ne by done. split; [done|apply evolves_refl].
Qed.

(** The invariant still holds, the jobs have only moved on, and none is registered again. *)
Definition leads (s s' : SyncRegistry) : Prop :=
  inv s' /\ all_evolve (sy_jobs s) (sy_jobs s') /\
  forall id j, is_Some (sy_jobs s !! j) -> sy_registry s' !! id = Some j -> sy_registry s !! id = Some j.

Lemma all_evolve_refl (jobs : Jobs) : all_evolve jobs jobs.
Proof. intros j e He. exists e. split; [done|apply evolves_refl]. Qed.

Lemma leads_refl (s : SyncRegistry) : inv s -> leads s s.
Proof. intros Hi. split; [done|]. split; [apply all_evolve_refl|done]. Qed.

Lemma leads_trans (a b c : SyncRegistry) : leads a b -> leads b c -> leads a c.
Proof.
  intros (_ & Hab & Hr) (Hc & Hbc & Hr'). split; [done|]. split.
  - intros j e He. destruct (Hab j e He) as (e1 & He1 & H1). destruct (Hbc j e1 He1) as (e2 & He2 & H2).
    exists e2. split; [done|by eapply evolves_trans].
  - intros id j [e He] Hid. apply Hr; [by exists e|]. apply Hr'; [|done]. destruct (Hab j e He) as (e1 & He1 & _). by exists e1.
Qed.

(** A step that changes one job in order, and perhaps unregisters some that are gone. *)
Lemma inv_step (f : JobEntry -> JobEntry) (j : Z) (s s' : SyncRegistry) :
  inv s -> sy_jobs s' = alter f j (sy_jobs s) -> sy_next s <= sy_next s' -> sy_locks s' = sy_locks s ->
  (forall id k, sy_registry s' !! id = Some k -> sy_registry s !! id = Some k) ->
  (forall k e, sy_jobs s' !! k = Some e -> sy_registry s !! sp_id (je_profile e) = Some k ->
     sy_registry s' !! sp_id (je_profile e) <> Some k -> gone e) ->
  (forall e, sy_jobs s !! j = Some e -> entry_ok j e -> fine j f e) ->
  (forall i p, sy_stops s' !! i = Some p -> sy_stops s !! i = Some p \/ stop_ok (sy_jobs s') p) ->
  (sy_shutdown s' = sy_shutdown s /\ sy_shutting s' = sy_shutting s \/
   shutdown_ok (sy_shutting s') (sy_registry s') (sy_jobs s') (sy_shutdown s')) ->
  guarded s' -> leads s s'.
Proof.
  intros [He Hreg Hrep Hst Hsh Hg (Hl1 & Hl2 & Hl3)] Hjobs Hnext Hlocks Hsub Hgone Hf Hstops Hshut Hg'.
  assert (all_evolve (sy_jobs s) (sy_jobs s')) as Hev.
  { rewrite Hjobs. apply all_evolve_alter. intros e Hj. apply (Hf e Hj (proj1 (He j e Hj))). }
  assert (forall k e', sy_jobs s' !! k = Some e' -> entry_ok k e' /\ exists e, sy_jobs s !! k = Some e /\ evolves e e') as Hback.
  { intros k e'. rewrite Hjobs. destruct (decide (k = j)) as [-> |Hne].
    - rewrite lookup_alter_eq. destruct (sy_jobs s !! j) as [e|] eqn:Hj; [|done]. intros [= <-].
      destruct (Hf e eq_refl (proj1 (He j e Hj))) as [? ?]. split; [done|]. by exists e.
    - rewrite lookup_alter_ne by done. intros Hk. split; [apply (He k e' Hk)|]. exists e'. split; [done|apply evolves_refl]. }
  split; [constructor|by split; [|intros id k _; apply Hsub]].
  - intros k e' Hk. destruct (Hback k e' Hk) as (? & e & Hke & _). split; [done|]. destruct (He k e Hke). lia.
  - intros id k Hid. eapply knows_evolve; [done| |apply Hreg; by apply Hsub].
    intros e e' ((-> & _) & _). done.
  - intros k e' Hk Hid. destruct (Hback k e' Hk) as (_ & e & Hke & Hee).
    destruct (decide (sy_registry s !! sp_id (je_profile e') = Some k)) as [Hin|Hout]; [by eapply Hgone|].
    eapply evolves_gone; [done|]. apply (Hrep k e Hke). destruct Hee as ((<- & _) & _). done.
  - intros i p Hp. destruct (Hstops i p Hp) as [Hold|Hnew]; [|done]. eapply stop_ok_evolve; [done|by eapply Hst].
  - destruct Hshut as [[-> ->]|Hshut]; [|done]. eapply shutdown_ok_evolve; [done|done| |done].
    intros id k Hid. destruct (Hreg id k Hid) as (e & -> & _). done.
  - done.
  - rewrite Hlocks. split_and!; [|intros k l Hk; pose proof (Hl2 k l Hk); lia|done].
    intros k e' Hk. destruct (Hback k e' Hk) as (_ & e & Hke & ((_ & -> & ->) & _)). by eapply Hl1.
Qed.

Lemma guarded_keep (f : JobEntry -> JobEntry) (j : Z) (s s' : SyncRegistry) :
  guarded s -> sy_jobs s' = alter f j (sy_jobs s) ->
  (forall k e, sy_jobs s' !! k = Some e -> at_work e -> held s k -> held s' k) ->
  (forall e, sy_jobs s !! j = Some e -> at_work (f e) ->
     published (f e) \/ held s' j \/ (at_work e /\ (published e -> published (f e)))) ->
  guarded s'.
Proof.
  intros Hg Hjobs Hheld Hf k e' Hk Hw. pose proof Hk as Hk'. rewrite Hjobs in Hk. destruct (decide (k = j)) as [-> |Hne].
  - rewrite lookup_alter_eq in Hk. destruct (sy_jobs s !! j) as [e|] eqn:Hj; [|done]. injection Hk as <-.
    destruct (Hf e eq_refl Hw) as [?|[?|[Hwe Hp]]]; [by left|by right|].
    destruct (Hg j e Hj Hwe) as [?|?]; [left; by apply Hp|right; by eapply Hheld].
  - rewrite lookup_alter_ne in Hk by done. destruct (Hg k e' Hk Hw) as [?|?]; [by left|right; by eapply Hheld].
Qed.

Lemma held_ext (s s' : SyncRegistry) (k : Z) :
  sy_stops s' = sy_stops s -> sy_shutdown s' = sy_shutdown s -> held s k -> held s' k.
Proof. unfold held. by intros -> ->. Qed.

(** A stop that moves on keeps its handle, or its run is over. *)
Lemma held_set_stop (i : nat) (p p' : StopPhase) (s : SyncRegistry) (k : Z) :
  sy_stops s !! i = Some p ->
  (forall j, p = StopJoining j k \/ p = StopAborting j k -> p' = StopJoining j k \/ p' = StopAborting j k) ->
  held s k -> held (set_stop i p' s) k.
Proof.
  intros Hi Hp [(n & j & Hn)|Hin]; [left|by right]. cbn. destruct (decide (n = i)) as [-> |Hne].
  - exists i, j. rewrite list_lookup_insert_eq by (by eapply lookup_lt_Some). rewrite Hi in Hn.
    destruct (Hp j) as [->| ->]; [|by left|by right]. destruct Hn as [[= ->]|[= ->]]; [by left|by right].
  - exists n, j. by rewrite list_lookup_insert_ne.
Qed.

(** *** Steps that leave stops, shutdown and registry alone *)

Definition same_calls (s s' : SyncRegistry) : Prop :=
  sy_next s <= sy_next s' /\ sy_locks s' = sy_locks s /\ sy_registry s' = sy_registry s /\ sy_stops s' = sy_stops s /\
  sy_shutdown s' = sy_shutdown s /\ sy_shutting s' = sy_shutting s.

Lemma inv_local (f : JobEntry -> JobEntry) (j : Z) (s s' : SyncRegistry) :
  inv s -> same_calls s s' -> sy_jobs s' = alter f j (sy_jobs s) ->
  (forall e, sy_jobs s !! j = Some e -> entry_ok j e -> fine j f e) ->
  (forall e, sy_jobs s !! j = Some e -> entry_ok j e -> at_work (f e) ->
     published (f e) \/ (at_work e /\ (published e -> published (f e)))) ->
  leads s s'.
Proof.
  intros Hi (Hn & Hl & Hr & Hst & Hsh & Hsd) Hj Hf Hw. eapply inv_step; eauto.
  - intros id k. by rewrite Hr.
  - intros k e _. by rewrite Hr.
  - intros i p. rewrite Hst. by left.
  - eapply guarded_keep; [apply Hi|done| |].
    + intros k e _ _. by apply held_ext.
    + intros e He Ha. destruct (Hw e He (proj1 (inv_entries s Hi j e He)) Ha) as [?|[? ?]]; [by left|by right; right].
Qed.

Lemma inv_quiet (s s' : SyncRegistry) : inv s -> same_calls s s' -> sy_jobs s' = sy_jobs s -> leads s s'.
Proof.
  intros Hi Hs Hj. eapply (inv_local id 0); [done|done| |split; [done|apply evolves_refl]|by right].
  rewrite Hj. symmetry. apply alter_id. by intros.
Qed.

Lemma same_calls_refl (s : SyncRegistry) : same_calls s s.
Proof. unfold same_calls. by split_and!. Qed.
Hint Resolve same_calls_refl : core.

(** What a watch or a stop of it writes to a job. *)
Definition light (f : JobEntry -> JobEntry) : Prop :=
  forall e, je_run (f e) = je_run e /\ je_task (f e) = je_task e.

Lemma inv_light (f : JobEntry -> JobEntry) (j : Z) (s s' : SyncRegistry) :
  inv s -> light f -> same_calls s s' -> sy_jobs s' = alter f j (sy_jobs s) ->
  (forall e, sy_jobs s !! j = Some e -> entry_ok j e -> fine j f e) -> leads s s'.
Proof.
  intros Hi Hlight Hs Hj Hf. eapply inv_local; [done..|]. intros e _ _. destruct (Hlight e) as [Hr Ht].
  unfold at_work, published. rewrite Hr, Ht. by right.
Qed.

(** *** start_sync *)

Lemma inv_lock (key : string) (s : SyncRegistry) : inv s ->
  leads s (ledger_lock_for key s).2 /\ sy_locks (ledger_lock_for key s).2 !! key = Some (ledger_lock_for key s).1.
Proof.
  intros [He Hreg Hrep Hst Hsh Hg (Hl1 & Hl2 & Hl3)]. unfold ledger_lock_for. destruct (sy_locks s !! key) as [l|] eqn:Hk; [by split; [apply leads_refl|]|].
  split; [|by cbn; rewrite lookup_insert_eq]. split; [|by split; [apply all_evolve_refl|]]. constructor; cbn; try done.
  - intros j e Hj. destruct (He j e Hj). split; [done|lia].
  - split_and!.
    + intros j e Hj. rewrite lookup_insert_ne; [by apply (Hl1 j)|]. intros ->. by rewrite (Hl1 j e Hj) in Hk.
    + intros k l. destruct (decide (k = key)) as [-> |Hne]; [rewrite lookup_insert_eq; intros [= <-]; lia|].
      rewrite lookup_insert_ne by done. intros Hl. pose proof (Hl2 k l Hl). lia.
    + intros k k' l. destruct (decide (k = key)) as [-> |Hne], (decide (k' = key)) as [-> |Hne']; [done|..];
        rewrite ?lookup_insert_eq, ?lookup_insert_ne by done; [| |by apply Hl3].
      * intros [= <-] Hl. pose proof (Hl2 _ _ Hl). lia.
      * intros Hl [= <-]. pose proof (Hl2 _ _ Hl). lia.
Qed.

Lemma entry_new_ok (profile : SyncProfileDto) (key : string) (lock j : Z) : entry_ok j (job_entry_new profile key lock).
Proof. unfold job_entry_new, sync_job_new. entry. split_and!; try done; [|by right|by intros [_ ?]]. intros _. split_and!; try done. by intros [t Ht]. Qed.

Lemma inv_insert (profile : SyncProfileDto) (key : string) (lock : Z) (s : SyncRegistry) :
  inv s -> sy_shutting s = false -> sy_locks s !! key = Some lock ->
  (forall e, registered_job (sp_id profile) s = Some e -> running e = false) ->
  let j := sy_next s in
  leads s (mkSyncRegistry (sy_shutting s) (<[sp_id profile := j]> (sy_registry s))
         (<[j := job_entry_new profile key lock]> (sy_jobs s)) (j + 1) (sy_locks s) (sy_watches s)
         (sy_stops s) (sy_unwatches s) (sy_shutdown s)).
Proof.
  intros [He Hreg Hrep Hst Hsh Hg (Hl1 & Hl2 & Hl3)] Hopen Hlock Hrun j.
  assert (sy_jobs s !! j = None) as Hfresh.
  { destruct (sy_jobs s !! j) as [e|] eqn:Hj; [|done]. destruct (He j e Hj). unfold j in *. lia. }
  assert (all_evolve (sy_jobs s) (<[j := job_entry_new profile key lock]> (sy_jobs s))) as Hev.
  { intros k e Hk. exists e. rewrite lookup_insert_ne by congruence. split; [done|apply evolves_refl]. }
  assert (forall k e, <[j := job_entry_new profile key lock]> (sy_jobs s) !! k = Some e ->
            k = j /\ e = job_entry_new profile key lock \/ k <> j /\ sy_jobs s !! k = Some e) as Hcase.
  { intros k e. destruct (decide (k = j)) as [-> |Hne]; [rewrite lookup_insert_eq; intros [= <-]; by left|].
    rewrite lookup_insert_ne by done. by right. }
  split; [constructor; cbn|split; [exact Hev|]].
  - intros k e [[-> ->]|[? Hk]]%Hcase; [split; [apply entry_new_ok|lia]|]. destruct (He k e Hk). split; [done|unfold j; lia].
  - intros id k. destruct (decide (id = sp_id profile)) as [-> |Hne].
    + rewrite lookup_insert_eq. intros [= <-]. exists (job_entry_new profile key lock). by rewrite lookup_insert_eq.
    + rewrite lookup_insert_ne by done. intros Hid. eapply knows_evolve; [done| |by apply Hreg]. intros e e' ((-> & _) & _). done.
  - intros k e [[-> ->]|[Hne Hk]]%Hcase Hid; [by rewrite lookup_insert_eq in Hid|].
    destruct (decide (sp_id profile = sp_id (je_profile e))) as [Heq|Hdiff].
    + destruct (decide (sy_registry s !! sp_id (je_profile e) = Some k)) as [Hcur|Hcur]; [|by apply (Hrep k e)].
      left. destruct (proj1 (He k e Hk)) as (_ & _ & _ & _ & _ & [Hp|Hr] & _); [done|].
      rewrite (Hrun e) in Hr; [done|]. unfold registered_job. rewrite Heq, Hcur. exact Hk.
    + rewrite lookup_insert_ne in Hid by done. by apply (Hrep k e).
  - intros i p Hp. eapply stop_ok_evolve; [done|by eapply Hst].
  - destruct Hsh as (Hs & _). assert (sy_shutdown s = ShutIdle) as ->.
    { destruct (sy_shutdown s); [done|..]; by rewrite Hs in Hopen. }
    split_and!; try done. intros k Hin. by apply elem_of_nil in Hin.
  - intros k e [[-> ->]|[_ Hk]]%Hcase Hw; [done|]. by apply (Hg k e).
  - split_and!; [|intros k l Hk; pose proof (Hl2 k l Hk); unfold j; lia|done].
    intros k e [[-> ->]|[_ Hk]]%Hcase; [done|by eapply Hl1].
  - cbn. intros id k [e Hk] Hid. destruct (decide (id = sp_id profile)) as [-> |Hne]; [|by rewrite lookup_insert_ne in Hid].
    rewrite lookup_insert_eq in Hid. injection Hid as <-. congruence.
Qed.

Lemma inv_start_sync (profile : SyncProfileDto) (canonical : option path) (s : SyncRegistry) :
  inv s -> leads s (start_sync profile canonical s).2.
Proof.
  intros Hi. unfold start_sync, register_sync_job. destruct (sy_shutting s) eqn:Hopen; [by apply leads_refl|].
  destruct (validate_sync_profile_format profile); [|by apply leads_refl].
  destruct (replaceable (registered_job (sp_id profile) s)) as [[]|] eqn:Hr; [|by apply leads_refl].
  set (key := ledger_scope_key (sync_identity_for canonical profile)).
  destruct (inv_lock key s Hi) as [Hl Hlock]. apply (leads_trans _ (ledger_lock_for key s).2 _ Hl). destruct Hl as (Hi' & _).
  assert (sy_shutting (ledger_lock_for key s).2 = false /\
          registered_job (sp_id profile) (ledger_lock_for key s).2 = registered_job (sp_id profile) s) as [Hopen' Hreg].
  { unfold ledger_lock_for. by destruct (sy_locks s !! _). }
  destruct (ledger_lock_for key s) as [lock s1]. cbn [fst snd] in *. apply inv_insert; [done..|].
  intros e. rewrite Hreg. intros He. rewrite He in Hr. unfold replaceable in Hr. by destruct (running e).
Qed.

Lemma inv_start_step (j : Z) (s s' : SyncRegistry) : inv s -> start_step j s = Some s' -> leads s s'.
Proof.
  intros Hi. unfold start_step. destruct (sy_jobs s !! j) as [e|] eqn:Hj; [|done]. cbn [mbind option_bind].
  destruct (je_start e) eqn:Hs; [..|done]; intros [= <-].
  - eapply (inv_local _ j s); [done|done|reflexivity| |].
    + intros e0. rewrite Hj. intros [= <-] He. by apply fine_publish.
    + intros e0 _ _ _. left. by exists j.
  - eapply (inv_local _ j s); [done|done|reflexivity| |].
    + intros e0. rewrite Hj. intros [= <-] He. destruct He as (? & ? & Hf & ? & ? & Hp & ?).
      case_decide as Hg; (apply fine_run; [by split_and!|done|congruence|..]); try congruence; try done; [..|by auto]; rewrite Hg in *; try done.
      * intros Hx. by specialize (Hf Hx).
      * right. destruct Hp as [Hp|?]; [|done]. unfold past in Hp. by rewrite Hg in Hp.
    + intros e0. rewrite Hj. intros [= <-] He Hw. right. split; [|done]. unfold at_work in *. cbn in Hw. by case_decide.
Qed.

(** *** The task of a run *)

Lemma entry_started (j : Z) (e : JobEntry) : entry_ok j e -> je_run e <> RunGated \/ je_aborted e = true -> je_start e <> ToPublish.
Proof. intros (_ & _ & _ & Hs & _) Hr Hp. destruct (Hs Hp) as (? & Ha & _). rewrite Ha in Hr. naive_solver. Qed.

Lemma entry_unfinished (j : Z) (e : JobEntry) : entry_ok j e -> je_run e <> RunEnded -> je_task e <> Finished.
Proof. intros (_ & _ & Hf & _) Hr Hx. by apply Hr, Hf. Qed.

Lemma entry_running (j : Z) (e : JobEntry) : entry_ok j e -> run_past (je_run e) = false -> running e = true.
Proof. intros (_ & _ & _ & _ & _ & [Hp|?] & _) Hr; [|done]. unfold past in Hp. congruence. Qed.

(** A run that begins to work can be found. *)
Lemma entry_published (j : Z) (e : JobEntry) : entry_ok j e -> je_run e <> RunGated -> je_run e <> RunEnded ->
  je_cancelled e = false -> published e.
Proof.
  intros He Hg Hr Hc. pose proof (entry_started j e He (or_introl Hg)) as Hs. pose proof (entry_unfinished j e He Hr) as Hf.
  destruct He as (_ & Ht & _ & _ & Hres & _). unfold published. destruct (je_task e) eqn:Hk; [|by eexists|done|].
  - by destruct (Hres Hs).
  - rewrite Ht in Hc; done.
Qed.

Lemma inv_run_step (j : Z) (i : RunInput) (s s' : SyncRegistry) : inv s -> run_step j i s = Some s' -> leads s s'.
Proof.
  intros Hi. unfold run_step. destruct (sy_jobs s !! j) as [e|] eqn:Hj; [|done]. cbn [mbind option_bind].
  assert (forall f, (entry_ok j e -> fine j f e) ->
            (entry_ok j e -> at_work (f e) -> published (f e) \/ (at_work e /\ (published e -> published (f e)))) ->
            leads s (on_job_entry f j s)) as Hgoal.
  { intros f Hf Hw. eapply (inv_local f j s); [done|done|reflexivity|..]; intros e0; rewrite Hj; intros [= <-]; auto. }
  assert (forall run, run <> RunWorking -> je_run e <> RunGated \/ je_aborted e = true ->
            run_over (je_run e) = false -> (run_past (je_run e) = true -> run = RunEnded) ->
            run <> RunReported ->
            leads s (on_job_entry (set_run (je_start e) run) j s)) as Hmove.
  { intros run Hw Hs Ho Hp Hrep. apply Hgoal; [|by intros ? ?]. intros He.
    assert (je_run e <> RunEnded) by (intros Hx; by rewrite Hx in Ho).
    apply fine_run; try done.
    - by eapply entry_started.
    - by eapply entry_started.
    - intros Hf. by destruct (entry_unfinished j e He).
    - intros Hpe. by rewrite (Hp Hpe).
    - congruence.
    - destruct (run_past (je_run e)) eqn:Hpe; [left; by rewrite Hp|right; by eapply entry_running]. }
  assert (forall f, je_run e <> RunGated -> run_over (je_run e) = false ->
            st_running (job_status (f (je_job e))) = false -> st_monitoring (job_status (f (je_job e))) = monitoring e ->
            leads s (on_job_entry (fun e => set_run (je_start e) RunReported (on_status f e)) j s)) as Hreport.
  { intros f Hg Ho Hf Hm. apply Hgoal; [|by intros ? ?]. intros He. apply fine_report; try done.
    - eapply entry_started; [done|by left].
    - eapply entry_unfinished; [done|]. intros Hx. by rewrite Hx in Ho. }
  destruct i as [|o| |], (je_run e) eqn:Hr; try done; cbn [run_over negb]; rewrite ?andb_true_r, ?andb_false_r; try done.
  6-10: destruct (je_aborted e) eqn:Ha; [|done]; intros [= <-]; apply Hmove; by auto.
  - destruct (lock_free (je_ledger_lock e) s); [|done]. intros [= <-]. apply Hmove; by auto.
  - destruct (je_cancelled e) eqn:Hc; intros [= <-]; [by apply Hreport|]. apply Hgoal; intros He.
    + assert (je_start e <> ToPublish) by (eapply entry_started; [done|by left; rewrite Hr]).
      apply fine_run; try done; rewrite ?Hr; try done; [|by left|right; eapply entry_running; [done|by rewrite Hr]].
      intros Hf. eapply entry_unfinished in Hf; [done..|by rewrite Hr].
    + intros _. left. apply (entry_published j e He); by rewrite ?Hr.
  - intros [= <-]. apply Hgoal; [intros He|by intros ? ?].
    apply (fine_then j (set_run (je_start e) RunEnded) (set_task Finished)); [|by intros; apply fine_finished].
    assert (je_start e <> ToPublish) by (eapply entry_started; [done|by left; rewrite Hr]).
    apply fine_run; try done. by left.
  - intros [= <-]. by destruct o; apply Hreport.
  - intros [= <-]. apply Hmove; by auto.
Qed.

(** *** Taking a slot *)

(** Once cancelled, a job's slot can be taken; what it gives is the handle of its run. *)
Lemma take_task (late : bool) (j : Z) (e : JobEntry) task slot :
  entry_ok j e -> take_published_task late (je_task e) = (Some task, slot) ->
  slot = Taken /\ (forall t, task = Some t -> t = j /\ published e) /\ (task = None -> ~ published e).
Proof.
  intros (Ht & _) Htake. unfold take_published_task, take_late, take_once, published in *.
  destruct late, (je_task e) as [|n| |] eqn:Hs; try done; injection Htake as <- <-; (split; [done|]);
    try (by split; [by intros|intros _ [? ?]]); (split; [intros t [= <-]; split; [by apply Ht|by exists n]|done]).
Qed.

Lemma entry_handed_out (j : Z) (e : JobEntry) : entry_ok j e -> published e -> je_start e <> ToPublish.
Proof. intros (_ & _ & _ & Hs & _) Hp Hx. by destruct (Hs Hx) as (_ & _ & ?). Qed.

(** *** stop_sync *)

Lemma watch_abort_same (w : Z) (s : SyncRegistry) :
  let s' := watch_abort w s in
  sy_jobs s' = sy_jobs s /\ sy_registry s' = sy_registry s /\ sy_next s' = sy_next s /\ sy_locks s' = sy_locks s /\
  sy_stops s' = sy_stops s /\ sy_shutdown s' = sy_shutdown s /\ sy_shutting s' = sy_shutting s.
Proof. unfold watch_abort. by destruct (sy_watches s !! w). Qed.

(** A stop that changes one job and moves on. *)
Lemma inv_stop (i : nat) (p p' : StopPhase) (f : JobEntry -> JobEntry) (j : Z) (s s' : SyncRegistry) :
  inv s -> sy_stops s !! i = Some p ->
  sy_jobs s' = alter f j (sy_jobs s) -> sy_stops s' = <[i := p']> (sy_stops s) ->
  sy_next s' = sy_next s -> sy_locks s' = sy_locks s -> sy_registry s' = sy_registry s ->
  sy_shutdown s' = sy_shutdown s -> sy_shutting s' = sy_shutting s ->
  (forall e, sy_jobs s !! j = Some e -> entry_ok j e -> fine j f e) ->
  stop_ok (sy_jobs s') p' ->
  (forall k l, p = StopJoining l k \/ p = StopAborting l k ->
     p' = StopJoining l k \/ p' = StopAborting l k \/ run_ended k s' = true) ->
  (forall e, sy_jobs s !! j = Some e -> entry_ok j e -> at_work (f e) ->
     published (f e) \/ p' = StopJoining j j \/ (at_work e /\ (published e -> published (f e)))) ->
  leads s s'.
Proof.
  intros Hi Hp Hj Hst Hn Hl Hr Hsd Hsh Hf Hok Hkeep Hw.
  assert (i < length (sy_stops s))%nat as Hlen by (by eapply lookup_lt_Some).
  assert (p' = StopJoining j j -> held s' j) as Hheld.
  { intros ->. left. exists i, j. left. by rewrite Hst, list_lookup_insert_eq. }
  eapply (inv_step f j s); try done; [lia|intros id k; by rewrite Hr|intros k e _; by rewrite Hr| |left; by split|].
  - intros n q. rewrite Hst. intros Hq. apply list_lookup_insert_Some in Hq as [(_ & <- & _)|[_ Hq]]; [by right|by left].
  - eapply guarded_keep; [apply Hi|done| |].
    + intros k e Hk Ha [(n & l & Hnl)|Hin]; [|right; by rewrite Hsd]. destruct (decide (n = i)) as [-> |Hne].
      * rewrite Hp in Hnl. destruct (Hkeep k l) as [->|[->|Ho]].
        { destruct Hnl as [[= ->]|[= ->]]; auto. }
        { left. exists i, l. left. by rewrite Hst, list_lookup_insert_eq. }
        { left. exists i, l. right. by rewrite Hst, list_lookup_insert_eq. }
        unfold run_ended in Ho. rewrite Hk in Ho. unfold at_work in Ha. by rewrite Ha in Ho.
      * left. exists n, l. by rewrite Hst, list_lookup_insert_ne.
    + intros e He Ha. destruct (Hw e He (proj1 (inv_entries s Hi j e He)) Ha) as [?|[?|?]]; auto.
Qed.

(** A stop that only moves on. *)
Lemma inv_stop_moves (i : nat) (p p' : StopPhase) (s : SyncRegistry) :
  inv s -> sy_stops s !! i = Some p -> stop_ok (sy_jobs s) p' ->
  (forall k l, p = StopJoining l k \/ p = StopAborting l k -> run_ended k s = true) ->
  leads s (set_stop i p' s).
Proof.
  intros Hi Hp Hok Hk. eapply (inv_stop i p p' (fun e => e) 0 s); try done.
  - cbn. symmetry. by apply alter_id.
  - intros k l Hx. right; right. by eapply Hk.
  - intros e _ _ Hw. right; right. done.
Qed.

Lemma knows_alter (jobs : gmap Z JobEntry) (f : JobEntry -> JobEntry) (j : Z) (P : JobEntry -> Prop) :
  knows jobs j (fun e => P (f e)) -> knows (alter f j jobs) j P.
Proof. intros (e & He & Hp). exists (f e). by rewrite lookup_alter_eq, He. Qed.

Lemma inv_remove (i : nat) (j : Z) (s : SyncRegistry) :
  inv s -> sy_stops s !! i = Some (StopRemoving j) -> leads s (set_stop i StopDone (remove_sync_job_if_current j s)).
Proof.
  intros Hi Hp. unfold remove_sync_job_if_current. pose proof (inv_stops s Hi i _ Hp) as (e & He & Hse).
  rewrite He. case_bool_decide as Hcur; [|apply (inv_stop_moves i (StopRemoving j)); try done; by intros k l [?|?]].
  eapply (inv_step (fun e => e) 0 s); try done; cbn.
  - symmetry. by apply alter_id.
  - intros id k. destruct (decide (id = sp_id (je_profile e))) as [-> |?]; [by rewrite lookup_delete_eq|by rewrite lookup_delete_ne].
  - intros k e' Hk Hid Hout. destruct (decide (sp_id (je_profile e') = sp_id (je_profile e))) as [Heq|Hne].
    + rewrite Heq, Hcur in Hid. injection Hid as <-. rewrite He in Hk. injection Hk as <-. by right.
    + by rewrite lookup_delete_ne in Hout.
  - intros n q Hq. apply list_lookup_insert_Some in Hq as [(_ & <- & _)|[_ Hq]]; [by right|by left].
  - by left.
  - eapply (guarded_keep (fun e => e) 0 s); [apply Hi|cbn; symmetry; by apply alter_id| |auto].
    intros k e0 _ _ Hh. eapply (held_set_stop i (StopRemoving j)); [done|by intros l [?|?]|]. revert Hh. by apply held_ext.
Qed.

(** The handle of the run, if there is one, goes to the stop. *)
Lemma inv_stop_taking (i : nat) (late : bool) (j : Z) (s s' : SyncRegistry) :
  inv s -> sy_stops s !! i = Some (StopTaking j) -> stop_step i late s = Some s' -> leads s s'.
Proof.
  intros Hi Hp. pose proof (inv_stops s Hi i _ Hp) as Hok. pose proof (inv_entries s Hi) as Hent.
  unfold stop_step. rewrite Hp. cbn [mbind option_bind stop_ok] in *.
  destruct Hok as (e & He & Hc). rewrite He. cbn [mbind option_bind]. destruct (Hent j e He) as [Heo _].
  destruct (take_published_task late (je_task e)) as [[task|] slot] eqn:Ht; [|done].
  destruct (take_task late j e task slot Heo Ht) as (-> & Hsome & Hnone). destruct task as [t|]; intros [= <-].
  - destruct (Hsome t eq_refl) as [-> Hpub]. eapply (inv_stop i _ (StopJoining j j) (set_task Taken) j s); try done.
    + intros e0. rewrite He. intros [= <-]. by intros; apply fine_take.
    + split; [done|]. apply knows_alter. exists e. split; [done|]. split; [by apply settled_taken|].
      by eapply (entry_handed_out j e).
    + by intros k l [?|?].
    + intros e0 _ _ _. right. by left.
  - eapply (inv_stop i _ (StopWatchTaking j) (set_task Taken) j s); try done.
    + intros e0. rewrite He. intros [= <-]. by intros; apply fine_take.
    + apply knows_alter. exists e. split; [done|by apply settled_taken].
    + by intros k l [?|?].
    + intros e0. rewrite He. intros [= <-] _ Hw. right; right. split; [done|]. intros Hx. by destruct (Hnone eq_refl).
Qed.

Lemma inv_stop_joining (i : nat) (late : bool) (j t : Z) (s s' : SyncRegistry) :
  inv s -> sy_stops s !! i = Some (StopJoining j t) -> stop_step i late s = Some s' -> leads s s'.
Proof.
  intros Hi Hp. pose proof (inv_stops s Hi i _ Hp) as Hok. unfold stop_step. rewrite Hp. cbn [mbind option_bind stop_ok] in *.
  destruct Hok as (-> & e & He & Hset & Hs). destruct (run_ended j s) eqn:Ho.
  - intros [= <-]. destruct (sy_jobs s !! j) as [e'|] eqn:He'; [|done]. injection He as ->.
    case_bool_decide as Hpan.
    + eapply (inv_stop i _ (StopWatchTaking j) (on_status (set_stopped (Some panicked_error))) j s); try done.
      * intros e0. rewrite He'. intros [= <-] Heo. apply fine_over; [done| |done..]. unfold past. by rewrite Hpan.
      * apply knows_alter. by exists e.
      * intros k l [[= -> ->]|?]; [|done]. right; right. unfold run_ended. cbn. rewrite lookup_alter_eq, He'. cbn. by rewrite Hpan.
      * intros e0 _ _ Hw. right; right. done.
    + apply (inv_stop_moves i (StopJoining j j)); try done; [by exists e|]. by intros k l [[= -> ->]|?].
  - destruct late; [|done]. intros [= <-]. eapply (inv_stop i _ (StopAborting j j) job_abort j s); try done.
    + intros e0. rewrite He. intros [= <-] Heo. by apply fine_abort.
    + split; [done|]. apply knows_alter. by exists e.
    + intros k l [[= -> ->]|?]; [|done]. by right; left.
    + intros e0 _ _ Hw. right; right. done.
Qed.

Lemma inv_stop_step (i : nat) (late : bool) (s s' : SyncRegistry) : inv s -> stop_step i late s = Some s' -> leads s s'.
Proof.
  intros Hi. unfold stop_step. destruct (sy_stops s !! i) as [p|] eqn:Hp; [|done]. cbn [mbind option_bind].
  pose proof (inv_stops s Hi i p Hp) as Hok.
  destruct p as [id|j|j|j t|j t|j|j w|j|]; cbn [stop_ok] in Hok; [..|done].
  - intros [= <-]. eapply inv_stop_moves; try done; [|by intros k l [?|?]].
    destruct (sy_registry s !! id) as [j|] eqn:Hid; [|done]. destruct (inv_registered s Hi id j Hid) as (e & He & _). by exists e.
  - intros [= <-]. eapply (inv_stop i _ (StopTaking j) job_cancel j s); try done.
    + intros e _. apply fine_cancel.
    + apply knows_alter. destruct Hok as (e & He & _). by exists e.
    + by intros k l [?|?].
    + intros e _ _ Hw. right; right. done.
  - intros Hs. apply (inv_stop_taking i late j); [done..|]. unfold stop_step. by rewrite Hp.
  - intros Hs. apply (inv_stop_joining i late j t); [done..|]. unfold stop_step. by rewrite Hp.
  - destruct Hok as (-> & e & He & Hset & Hs). destruct (run_ended j s) eqn:Ho; [|done]. intros [= <-].
    eapply inv_stop_moves; try done; [by exists e|]. by intros k l [?|[= -> ->]].
  - destruct Hok as (e & He & Hset). rewrite He. cbn [mbind option_bind].
    destruct (take_published_task late (je_watch_task e)) as [[[w|]|] slot]; [..|done]; intros [= <-].
    + destruct (watch_abort_same w (on_job_entry (set_watch_task slot) j s)) as (Hj & ? & ? & ? & Hst & ? & ?).
      eapply (inv_stop i _ (StopWatchJoining j w) (set_watch_task slot) j s); try done.
      * cbn. by rewrite Hst.
      * cbn. rewrite Hj. apply knows_alter. by exists e.
      * by intros k l [?|?].
      * intros e0 _ _ Hw. right; right. done.
    + eapply (inv_stop i _ (StopRemoving j) (set_watch_task slot) j s); try done.
      * apply knows_alter. by exists e.
      * by intros k l [?|?].
      * intros e0 _ _ Hw. right; right. done.
  - destruct (watch_ended w s); [|done]. intros [= <-]. eapply inv_stop_moves; try done. by intros k l [?|?].
  - intros [= <-]. by apply inv_remove.
Qed.

(** *** Watches *)

Lemma light_status (f : SyncJob -> SyncJob) : light (on_status f).
Proof. by intros e. Qed.
Lemma light_watch_task (slot : TaskPublication) : light (set_watch_task slot).
Proof. by intros e. Qed.

Lemma inv_status (f : SyncJob -> SyncJob) (j : Z) (s s' : SyncRegistry) :
  inv s -> same_calls s s' -> sy_jobs s' = alter (on_status f) j (sy_jobs s) ->
  (forall job, st_running (job_status (f job)) = st_running (job_status job)) ->
  (forall job, st_monitoring (job_status (f job)) = false \/ st_monitoring (job_status (f job)) = st_monitoring (job_status job)) ->
  leads s s'.
Proof.
  intros Hi Hs Hj Hr Hm. eapply inv_light; [done|apply (light_status f)|done|done|].
  intros e _ He. by apply fine_status.
Qed.

Lemma inv_watch_slot (slot : TaskPublication) (j : Z) (s s' : SyncRegistry) :
  inv s -> same_calls s s' -> sy_jobs s' = alter (set_watch_task slot) j (sy_jobs s) -> leads s s'.
Proof.
  intros Hi Hs Hj. eapply inv_light; [done|apply (light_watch_task slot)|done|done|].
  intros e _ He. by apply fine_watch_task.
Qed.

Lemma inv_reserve (j w : Z) (watch : Watch) (s : SyncRegistry) :
  inv s -> leads s (set_watch w watch (reserve_sync_watch j s).2).
Proof.
  intros Hi. unfold reserve_sync_watch. destruct (sy_jobs s !! j) as [e|] eqn:Hj; [|by eapply inv_quiet].
  destruct (sy_registry s !! _) as [k|]; [|by eapply inv_quiet].
  destruct (bool_decide (k = j)); cbn [negb]; [|by eapply inv_quiet]. destruct (running e) eqn:Hr; [by eapply inv_quiet|].
  destruct (monitoring e); [by eapply inv_quiet|]. eapply (inv_light _ j s); [done|apply (light_status (set_monitoring true))|done|done|].
  intros e0. rewrite Hj. intros [= <-] He. by apply fine_reserve.
Qed.

Lemma inv_release (j w : Z) (watch : Watch) (s : SyncRegistry) :
  inv s -> leads s (set_watch w watch (release_sync_watch j s)).
Proof.
  intros Hi. unfold release_sync_watch. destruct (sy_jobs s !! j) as [e|]; [|by eapply inv_quiet].
  case_bool_decide; [|by eapply inv_quiet]. eapply (inv_status (set_monitoring false) j s); try done. by left.
Qed.

Lemma inv_watch_call_step (w : Z) (answer : MonitorAnswer) (s s' : SyncRegistry) :
  inv s -> watch_call_step w answer s = Some s' -> leads s s'.
Proof.
  intros Hi. unfold watch_call_step. destruct (sy_watches s !! w) as [watch|]; [|done]. cbn [mbind option_bind].
  destruct (wa_call watch) as [id| | | | | | | |], (wa_job watch) as [j|]; try done.
  1-2: destruct (sy_registry s !! id); intros [= <-]; by eapply inv_quiet.
  - destruct (sy_jobs s !! j); [|done]. intros [= <-]. by eapply inv_quiet.
  - pose proof (fun watch => inv_reserve j w watch s Hi) as Hres. destruct (reserve_sync_watch j s) as [[]]; intros [= <-]; apply Hres.
  - intros [= <-]. by eapply inv_quiet.
  - destruct (sy_shutting s); intros [= <-]; by eapply inv_quiet.
  - intros [= <-]. by apply inv_release.
  - intros [= <-]. by eapply (inv_watch_slot (Published w) j s).
  - intros [= <-]. by eapply inv_quiet.
Qed.

Lemma inv_watch_task_step (w : Z) (i : WatchTaskInput) (s s' : SyncRegistry) :
  inv s -> watch_task_step w i s = Some s' -> leads s s'.
Proof.
  intros Hi. unfold watch_task_step. destruct (sy_watches s !! w) as [watch|]; [|done]. cbn [mbind option_bind].
  destruct (wa_job watch) as [j|]; [|done]. cbn [mbind option_bind]. destruct (sy_jobs s !! j) as [e|] eqn:Hj; [|done].
  cbn [mbind option_bind].
  destruct i as [|now result|gap error| |], (wa_task watch); try done.
  all: try (destruct (lock_free (je_ledger_lock e) s); [|done]); try (destruct (wa_aborted watch); [|done]); intros [= <-];
    try (by eapply inv_quiet).
  - eapply (inv_status set_watch_ended j s); try done; intros job; unfold set_watch_ended;
      destruct (st_reconciliation_required (job_status job)); cbn; auto.
  - by eapply (inv_watch_slot Finished j s).
  - eapply (inv_status (set_applied now result) j s); try done. by right.
  - eapply (inv_status (set_unreconciled gap error) j s); try done. by left.
Qed.

Lemma inv_unwatch_step (i : nat) (late : bool) (s s' : SyncRegistry) : inv s -> unwatch_step i late s = Some s' -> leads s s'.
Proof.
  intros Hi. unfold unwatch_step. destruct (sy_unwatches s !! i) as [[id|j|j w|j|]|]; try done; cbn [mbind option_bind].
  - intros [= <-]. by eapply inv_quiet.
  - destruct (sy_jobs s !! j) as [e|]; [|done]. cbn [mbind option_bind].
    destruct (take_published_task late (je_watch_task e)) as [[[w|]|] slot]; [..|done]; intros [= <-].
    + destruct (watch_abort_same w (on_job_entry (set_watch_task slot) j s)) as (Hj & Hr & Hn & Hl & Hst & Hsd & Hsh).
      eapply (inv_watch_slot slot j s); [done| |done]. unfold same_calls. cbn. rewrite Hr, Hn, Hl, Hst, Hsd, Hsh. by split_and!.
    + by eapply (inv_watch_slot slot j s).
  - destruct (watch_ended w s); [|done]. intros [= <-]. by eapply inv_quiet.
  - intros [= <-]. eapply (inv_status (set_monitoring false) j s); try done. by left.
Qed.

(** *** The shutdown *)

(** A step of the shutdown that changes one job. *)
Lemma inv_shutdown_moves (f : JobEntry -> JobEntry) (j : Z) (p : SyncShutdown) (s s' : SyncRegistry) :
  inv s -> sy_jobs s' = alter f j (sy_jobs s) -> sy_next s' = sy_next s -> sy_locks s' = sy_locks s ->
  sy_registry s' = sy_registry s -> sy_stops s' = sy_stops s -> sy_shutdown s' = p -> sy_shutting s' = true ->
  (forall e, sy_jobs s !! j = Some e -> entry_ok j e -> fine j f e) ->
  shutdown_ok true (sy_registry s) (alter f j (sy_jobs s)) p ->
  (forall k, RunHandle k ∈ shutdown_joins (sy_shutdown s) -> RunHandle k ∈ shutdown_joins p \/ run_ended k s = true) ->
  (forall e, sy_jobs s !! j = Some e -> entry_ok j e -> at_work (f e) ->
     published (f e) \/ RunHandle j ∈ shutdown_joins p \/ (at_work e /\ (published e -> published (f e)))) ->
  leads s s'.
Proof.
  intros Hi Hj Hn Hl Hr Hst Hsd Hsh Hf Hok Hkeep Hw.
  eapply (inv_step f j s); [done|done|lia|done|intros id k; by rewrite Hr|intros k e _; by rewrite Hr|done| | |].
  - intros i q. rewrite Hst. by left.
  - right. by rewrite Hsh, Hr, Hj, Hsd.
  - eapply (guarded_keep f j s); [apply Hi|done| |].
    + intros k e Hk Ha [Hx|Hin]; [left; by rewrite Hst|]. destruct (Hkeep k Hin) as [?|Ho]; [right; by rewrite Hsd|].
      unfold run_ended in Ho. rewrite Hj in Hk. destruct (decide (k = j)) as [-> |Hne].
      * rewrite lookup_alter_eq in Hk. destruct (sy_jobs s !! j) as [e0|] eqn:Hje; [|done]. injection Hk as <-.
        destruct (Hf e0 eq_refl (proj1 (inv_entries s Hi j e0 Hje))) as (_ & _ & _ & _ & _ & _ & Hov & _).
        specialize (Hov Ho). unfold at_work in Ha. by rewrite Ha in Hov.
      * rewrite lookup_alter_ne in Hk by done. rewrite Hk in Ho. unfold at_work in Ha. by rewrite Ha in Ho.
    + intros e He Ha. destruct (Hw e He (proj1 (inv_entries s Hi j e He)) Ha) as [?|[?|?]]; [by left|right; left; right; by rewrite Hsd|auto].
Qed.

(** One that changes none. *)
Lemma inv_shutdown_quiet (p : SyncShutdown) (s : SyncRegistry) :
  inv s -> shutdown_ok true (sy_registry s) (sy_jobs s) p ->
  (forall k, RunHandle k ∈ shutdown_joins (sy_shutdown s) -> RunHandle k ∈ shutdown_joins p \/ run_ended k s = true) ->
  leads s (set_shutdown true p s).
Proof.
  intros Hi Hok Hk. assert (alter (fun e => e) 0 (sy_jobs s) = sy_jobs s) as Hj by (by apply alter_id).
  eapply (inv_shutdown_moves (fun e => e) 0 p s); try done; [by rewrite Hj|].
  intros e _ _ Hw. right; right. done.
Qed.

Lemma joins_handed (joins : list Handle) (j : Z) (task : option Z) (jobs : gmap Z JobEntry) :
  (forall k, RunHandle k ∈ joins -> knows jobs k handed_out) ->
  (forall t, task = Some t -> t = j /\ knows jobs j handed_out) ->
  forall k, RunHandle k ∈ joins ++ taken_handle RunHandle task -> knows jobs k handed_out.
Proof.
  intros Hj Ht k [Hk|Hk]%elem_of_app; [by apply Hj|]. destruct task as [t|]; cbn in Hk; [|by apply elem_of_nil in Hk].
  apply list_elem_of_singleton in Hk as [= ->]. by destruct (Ht t eq_refl) as [-> ?].
Qed.

Lemma awaits_cancel (todo : list Z) (j : Z) (e : JobEntry) : j ∈ todo -> awaits todo AtCancel j e.
Proof. destruct todo as [|h todo]; [intros Hx; by apply elem_of_nil in Hx|]. intros [->|?]%elem_of_cons; [by right|by left]. Qed.

Lemma shutdown_ok_next (f : JobEntry -> JobEntry) (j : Z) (todo : list Z) (pos : TakePosition) (joins : list Handle)
    (p : SyncShutdown) (s : SyncRegistry) :
  inv s -> sy_shutdown s = ShutTaking (j :: todo) pos joins -> is_Some (sy_jobs s !! j) ->
  (forall e, sy_jobs s !! j = Some e -> entry_ok j e -> fine j f e) ->
  (forall k, RunHandle k ∈ shutdown_joins p -> knows (alter f j (sy_jobs s)) k handed_out) ->
  match p with
  | ShutTaking todo' pos' _ =>
      (todo' = j :: todo /\ forall e, sy_jobs s !! j = Some e -> entry_ok j e ->
         (pos' = AtRun -> je_cancelled (f e) = true) /\ (pos' = AtWatch -> gone (f e))) \/
      (todo' = todo /\ pos' = AtCancel /\ pos = AtWatch)
  | _ => False
  end ->
  shutdown_ok true (sy_registry s) (alter f j (sy_jobs s)) p.
Proof.
  intros Hi Hsd (e0 & Hj) Hf Hjoins Hp. pose proof (inv_shutdown s Hi) as (_ & _ & Hph). rewrite Hsd in Hph.
  destruct Hph as [_ Hph]. pose proof (inv_entries s Hi) as Hent.
  destruct p as [| |todo' pos' joins'|joins'|]; try done. split; [done|]. split; [done|]. split.
  { intros -> k Hk. destruct Hp as [[-> Hp]|(_ & ? & _)]; [|done]. injection Hk as <-. exists (f e0).
    rewrite lookup_alter_eq, Hj. split; [done|]. by apply (Hp e0 Hj (proj1 (Hent j e0 Hj))). }
  assert (forall k e', alter f j (sy_jobs s) !! k = Some e' -> exists e, sy_jobs s !! k = Some e /\ evolves e e' /\ (k = j -> e' = f e)) as Hback.
  { intros k e'. destruct (decide (k = j)) as [-> |Hne].
    - rewrite lookup_alter_eq, Hj. intros [= <-]. exists e0. split_and!; [done| |done]. by apply (Hf e0 Hj), Hent.
    - rewrite lookup_alter_ne by done. intros Hk. exists e'. split_and!; [done|apply evolves_refl|done]. }
  intros id k e' Hid Hk. destruct (Hback k e' Hk) as (e & Hke & Hev & Heq).
  destruct (Hph id k e Hid Hke) as [Hg|[Hin|[-> Hpos]]]; [left; by eapply evolves_gone|right|].
  - destruct Hp as [[-> _]|(-> & -> & _)]; [by left|by apply awaits_cancel].
  - destruct Hp as [[-> Hp]|(-> & -> & ->)]; [right; right; split; [done|]|left; by eapply evolves_gone].
    rewrite Heq by done. destruct (Hp e Hke (proj1 (Hent j e Hke))) as [_ Hw]. destruct pos'; [done..|by apply Hw].
Qed.

(** The handles it has stay good. *)
Lemma joins_kept (j : Z) (todo : list Z) (pos : TakePosition) (joins : list Handle) (s : SyncRegistry) :
  inv s -> sy_shutdown s = ShutTaking (j :: todo) pos joins ->
  forall f k, (forall e, sy_jobs s !! j = Some e -> entry_ok j e -> fine j f e) -> RunHandle k ∈ joins ->
    knows (alter f j (sy_jobs s)) k handed_out.
Proof.
  intros Hi Hsd f k Hf Hk. pose proof (inv_shutdown s Hi) as (_ & Hjoins & _). rewrite Hsd in Hjoins.
  eapply knows_evolve; [|unfold evolves, handed_out; naive_solver|by apply Hjoins].
  apply all_evolve_alter. intros e He. by apply Hf, (inv_entries s Hi).
Qed.

Lemma inv_shutdown_take_cancel (late : bool) (j : Z) (todo : list Z) (joins : list Handle) (s s' : SyncRegistry) :
  inv s -> sy_shutdown s = ShutTaking (j :: todo) AtCancel joins -> shutdown_step late s = Some s' -> leads s s'.
Proof.
  intros Hi Hsd. pose proof (inv_shutdown s Hi) as (Hopen & _ & Hph). pose proof (inv_entries s Hi) as Hent.
  pose proof (joins_kept j todo AtCancel joins s Hi Hsd) as Hkept. unfold shutdown_step. rewrite Hsd in *. specialize (Hopen ltac:(done)).
  destruct (sy_jobs s !! j) as [e|] eqn:Hj; [|done]. cbn [mbind option_bind]. intros [= <-].
  assert (forall e0, sy_jobs s !! j = Some e0 -> entry_ok j e0 -> fine j job_cancel e0) as Hf.
  { intros e0 _. apply fine_cancel. }
  eapply (inv_shutdown_moves job_cancel j (ShutTaking (j :: todo) AtRun joins) s); [done..|exact Hf| | |].
  - apply (shutdown_ok_next job_cancel j todo AtCancel joins); [done|done|by exists e|exact Hf| |by left].
    intros k Hk. apply Hkept; [by rewrite <- Hj|done].
  - rewrite Hsd. by left.
  - intros e0 _ _ Hw. right; right. done.
Qed.

Lemma inv_shutdown_take_run (late : bool) (j : Z) (todo : list Z) (joins : list Handle) (s s' : SyncRegistry) :
  inv s -> sy_shutdown s = ShutTaking (j :: todo) AtRun joins -> shutdown_step late s = Some s' -> leads s s'.
Proof.
  intros Hi Hsd. pose proof (inv_shutdown s Hi) as (Hopen & _ & Hph). pose proof (inv_entries s Hi) as Hent.
  pose proof (joins_kept j todo AtRun joins s Hi Hsd) as Hkept. unfold shutdown_step. rewrite Hsd in *. specialize (Hopen ltac:(done)).
  destruct (sy_jobs s !! j) as [e|] eqn:Hj; [|done]. cbn [mbind option_bind]. destruct (Hent j e Hj) as [Heo _].
  destruct Hph as [Hcan _]. destruct (Hcan eq_refl j eq_refl) as (e0 & He0 & Hc). rewrite Hj in He0. injection He0 as <-.
  destruct (take_published_task late (je_task e)) as [[task|] slot] eqn:Ht; [|done]. intros [= <-].
  destruct (take_task late j e task slot Heo Ht) as (-> & Hsome & Hnone).
  assert (forall e0, sy_jobs s !! j = Some e0 -> entry_ok j e0 -> fine j (set_task Taken) e0) as Hf.
  { intros e0. rewrite Hj. intros [= <-] _. by apply fine_take. }
  eapply (inv_shutdown_moves (set_task Taken) j (ShutTaking (j :: todo) AtWatch (joins ++ taken_handle RunHandle task)) s);
    [done..|exact Hf| | |].
  - apply (shutdown_ok_next (set_task Taken) j todo AtRun joins); [done|done|by exists e|exact Hf| |left; split; [done|]].
    + intros k [Hk|Hk]%elem_of_app; [apply Hkept; [by rewrite <- Hj|done]|]. destruct task as [t|]; cbn in Hk; [|by apply elem_of_nil in Hk].
       apply list_elem_of_singleton in Hk as [= ->]. destruct (Hsome t eq_refl) as [-> Hpub]. apply knows_alter.
       exists e. split; [done|]. split; [by apply settled_taken|]. by eapply (entry_handed_out j e).
    + intros e0. rewrite Hj. intros [= <-] _. split; [done|]. intros _. right. by apply settled_taken.
  - rewrite Hsd. intros k Hk. left. apply elem_of_app. by left.
  - intros e0. rewrite Hj. intros [= <-] _ Hw. destruct task as [t|]; [|right; right; split; [done|intros Hx; by destruct (Hnone eq_refl)]].
    right; left. destruct (Hsome t eq_refl) as [-> _]. apply elem_of_app. right. by apply list_elem_of_singleton.
Qed.

Lemma inv_shutdown_take_watch (late : bool) (j : Z) (todo : list Z) (joins : list Handle) (s s' : SyncRegistry) :
  inv s -> sy_shutdown s = ShutTaking (j :: todo) AtWatch joins -> shutdown_step late s = Some s' -> leads s s'.
Proof.
  intros Hi Hsd. pose proof (inv_shutdown s Hi) as (Hopen & _ & Hph). pose proof (inv_entries s Hi) as Hent.
  pose proof (joins_kept j todo AtWatch joins s Hi Hsd) as Hkept. unfold shutdown_step. rewrite Hsd in *. specialize (Hopen ltac:(done)).
  destruct (sy_jobs s !! j) as [e|] eqn:Hj; [|done]. cbn [mbind option_bind].
  destruct (take_published_task late (je_watch_task e)) as [[task|] slot] eqn:Ht; [|done]. intros [= <-].
  assert (forall e0, sy_jobs s !! j = Some e0 -> entry_ok j e0 -> fine j (set_watch_task slot) e0) as Hf.
  { intros e0 _. apply fine_watch_task. }
  eapply (inv_shutdown_moves (set_watch_task slot) j (ShutTaking todo AtCancel (joins ++ taken_handle WatchHandle task)) s);
    [done..|exact Hf| | |].
  - apply (shutdown_ok_next (set_watch_task slot) j todo AtWatch joins); [done|done|by exists e|exact Hf| |by right].
    intros k [Hk|Hk]%elem_of_app; [apply Hkept; [by rewrite <- Hj|done]|].
    destruct task; [by apply list_elem_of_singleton in Hk|by apply elem_of_nil in Hk].
  - rewrite Hsd. intros k Hk. left. apply elem_of_app. by left.
  - intros e0 _ _ Hw. right; right. done.
Qed.

Lemma inv_shutdown_step (late : bool) (s s' : SyncRegistry) : inv s -> shutdown_step late s = Some s' -> leads s s'.
Proof.
  intros Hi. pose proof (inv_shutdown s Hi) as (Hopen & Hjoins & Hph). unfold shutdown_step.
  destruct (sy_shutdown s) as [| |todo pos joins|joins|] eqn:Hsd; cbn [shutdown_joins] in *; try done.
  - intros [= <-]. apply inv_shutdown_quiet; [done| |by rewrite Hsd; auto]. split; [done|]. split; [|done].
    intros j Hx. by apply elem_of_nil in Hx.
  - intros [= <-]. apply inv_shutdown_quiet; [done| |by rewrite Hsd; auto]. split; [done|]. split; [intros j Hx; by apply elem_of_nil in Hx|].
    split; [done|]. intros id j e Hid _. right. assert (j ∈ (map_to_list (sy_registry s)).*2) as Hin.
    { apply list_elem_of_fmap. exists (id, j). split; [done|]. by apply elem_of_map_to_list. }
    destruct ((map_to_list (sy_registry s)).*2) as [|h t]; [by apply elem_of_nil in Hin|]. apply elem_of_cons in Hin as [->|?]; [by right|by left].
  - destruct todo as [|j todo].
    + intros [= <-]. apply inv_shutdown_quiet; [done| |by rewrite Hsd; auto]. split; [by auto|]. split; [done|].
      intros id j e Hid He. destruct Hph as [_ Hph]. by destruct (Hph id j e Hid He).
    + intros Hs. assert (shutdown_step late s = Some s') as Hs' by (unfold shutdown_step; by rewrite Hsd).
      destruct pos; [by eapply inv_shutdown_take_cancel|by eapply inv_shutdown_take_run|by eapply inv_shutdown_take_watch].
  - destruct joins as [|h joins]; [|destruct (handle_ended h s) eqn:Ho; [|destruct late; [|done]]]; intros [= <-].
    + eapply (inv_step (fun e => e) 0 s); try done; cbn; [symmetry; by apply alter_id|intros k e Hk Hid _; by eapply Hph|by left| |].
      { right. split; [done|]. split; [|done]. intros k Hk. by apply elem_of_nil in Hk. }
      eapply (guarded_keep (fun e => e) 0 s); [apply Hi|cbn; symmetry; by apply alter_id| |auto].
      intros k e _ _ [Hst|Hin]; [by left|]. rewrite Hsd in Hin. by apply elem_of_nil in Hin.
    + apply inv_shutdown_quiet; [done| |].
      * split; [done|]. split; [|done]. intros k Hk. apply Hjoins. apply elem_of_cons. by right.
      * rewrite Hsd. intros k [<-|Hk]%elem_of_cons; [by right|by left].
    + destruct h as [j|w]; cbn [handle_abort].
      * eapply (inv_local job_abort j s); [done|done|reflexivity| |].
        -- intros e He Heo. apply fine_abort; [done|]. destruct (Hjoins j) as (e0 & He0 & _ & Hs); [by left|]. congruence.
        -- intros e _ _ Hw. by right.
      * destruct (watch_abort_same w s) as (Hj & Hr & Hn & Hl & Hst & Hsh & Hopen').
        eapply inv_quiet; [done| |done]. unfold same_calls. by rewrite Hr, Hn, Hl, Hst, Hsh, Hopen'.
Qed.

(** ** Every sequence of steps *)

Lemma inv_new : inv sync_registry_new.
Proof.
  constructor; cbn; try (by intros *; rewrite ?lookup_empty).
  split_and!; try done. intros j Hj. by apply elem_of_nil in Hj.
Qed.

Lemma inv_act (a : Action) (s s' : SyncRegistry) : inv s -> act a s = Some s' -> leads s s'.
Proof.
  intros Hi. destruct a as [profile canonical|j|j i|id|i late|id|w answer|w i|id|i late|late]; cbn [act].
  - intros [= <-]. by apply inv_start_sync.
  - by apply inv_start_step.
  - by apply inv_run_step.
  - unfold if_open. destruct (sy_shutting s) eqn:Hsh; [done|]. intros [= <-].
    eapply (inv_step (fun e => e) 0 s); try done; cbn; [symmetry; by apply alter_id| |by left|].
    + intros i p Hp. apply lookup_app_Some in Hp as [Hp|[_ Hp]]; [by left|right].
      apply list_lookup_singleton_Some in Hp as [_ <-]. done.
    + eapply (guarded_keep (fun e => e) 0 s); [apply Hi|cbn; symmetry; by apply alter_id| |auto].
      intros k e _ _ [(i & l & Hl)|Hin]; [left|by right]. exists i, l. cbn.
      destruct Hl as [Hl|Hl]; [left|right]; exact (lookup_app_l_Some _ _ _ _ Hl).
  - by apply inv_stop_step.
  - unfold if_open. destruct (sy_shutting s) eqn:Hsh; [done|]. intros [= <-]. eapply inv_quiet; [done| |done].
    unfold same_calls. cbn. split_and!; try done. lia.
  - by apply inv_watch_call_step.
  - by apply inv_watch_task_step.
  - unfold if_open. destruct (sy_shutting s) eqn:Hsh; [done|]. intros [= <-]. by eapply inv_quiet.
  - by apply inv_unwatch_step.
  - by apply inv_shutdown_step.
Qed.

Lemma exec_app (a b : list Action) (s : SyncRegistry) : exec (a ++ b) s = exec a s ≫= exec b.
Proof. revert s. induction a as [|x a IH]; intros s; [done|]. cbn. destruct (act x s); [apply IH|done]. Qed.

Lemma exec_leads (actions : list Action) (s s' : SyncRegistry) : inv s -> exec actions s = Some s' -> leads s s'.
Proof.
  revert s. induction actions as [|a actions IH]; intros s Hi; cbn; [intros [= <-]; by apply leads_refl|].
  destruct (act a s) as [s1|] eqn:Ha; [|done]. cbn. intros He. pose proof (inv_act a s s1 Hi Ha) as Hl.
  apply (leads_trans _ s1 _ Hl). apply IH; [by apply Hl|done].
Qed.
End Invariant.
