(* ===== verification/SyncJobsProps.v ===== *)
(** * What the registry of sync jobs guarantees

    Over every interleaving of starts, runs, stops, watches and the shutdown (SyncJobs.v): who
    may write a ledger, and that a run at work can always be found and joined. *)

From stdpp Require Import gmap.
From S2P Require Import Prelude Errors Proto AppErrors Domain Handshake Paths SyncStore Sync SyncRun Transfer Devices FilePlan MediaDto SyncWatch SyncJobs SyncJobsInv.

#[local] Open Scope string_scope.
#[local] Open Scope list_scope.
#[local] Open Scope Z_scope.

Section Mutexes.
Context `{Crypto}.

(** ** The mutexes *)


































(** ** What follows *)



End Mutexes.

Section Provenance.
Context `{Crypto}.

(** ** Where jobs come from, and watches that are too late *)





























End Provenance.


(** ** Samples

    A profile whose run has ended. *)

Definition sample_job_profile (id : string) : SyncProfileDto := mkSyncProfile id 1 "U" "/DCIM" "/photos" true.
Definition run_to (j : Z) (o : RunOutcome) : list Action :=
  [StartStep j; StartStep j; RunStep j RunProceeds; RunStep j RunProceeds; RunStep j (RunOutcomes o); RunStep j RunProceeds].
Definition sample_done : RunOutcome := RunSucceeded 5 SyncRunResult_default.
(** The run of job 2 of profile p. *)
Definition ran : list Action := StartCall (sample_job_profile "p") None :: run_to 2 sample_done.
(** The watch [w], up to its reservation; accepted and at work. *)
Definition reserved (w : Z) : list Action :=
  [WatchStart "p"; WatchCallStep w MonitorOn; WatchCallStep w MonitorOn; WatchCallStep w MonitorOn].
Definition watched_from (w : Z) : list Action :=
  [WatchCallStep w MonitorOn; WatchCallStep w MonitorOn; WatchCallStep w MonitorOn; WatchCallStep w MonitorOn;
   WatchTaskStep w WatchProceeds].
Definition shut_down (steps : nat) : list Action := replicate steps (ShutdownStep true).

(** What a sequence of steps leads to. *)
Definition leads_to {A} `{Crypto} (actions : list Action) (f : SyncRegistry -> A) : option A := f <$> exec actions sync_registry_new.
Definition enabled `{Crypto} (a : Action) (s : SyncRegistry) : bool := match act a s with Some _ => true | None => false end.

Section Counterexamples.
#[local] Existing Instance toy_crypto.

(** [start_sync_watch] that finds its session gone leaves the reservation behind: the job is
    marked as monitoring without any watch, and can neither be run nor watched. *)
Lemma reservation_leaks :
  leads_to (ran ++ reserved 3 ++ [WatchCallStep 3 SessionGone])
    (fun s => (monitoring <$> registered_job "p" s, sy_watches s !! 3,
               is_ok (start_sync (sample_job_profile "p") None s).1, is_ok (reserve_sync_watch 2 s).1)) =
  Some (Some true, Some (mkWatch (Some 2) WcDone WtNone false), false, false).
Proof. by vm_compute. Qed.

(** [stop_sync_watch] while [start_sync_watch] waits for the phone gives up after its timeout and
    reports the watch as stopped.  The profile can then be run again, and the watch starts
    nevertheless, on a job that is no longer registered: no stop can find it, and it holds the
    mutex of the ledger, which the new run waits for. *)
Lemma watch_survives_its_stop :
  leads_to (ran ++ reserved 3 ++ [UnwatchCall "p"; UnwatchStep 0 false; UnwatchStep 0 true; UnwatchStep 0 false] ++
            StartCall (sample_job_profile "p") None :: watched_from 3 ++ [StartStep 4; StartStep 4])
    (fun s => (sy_registry s !! "p", wa_task <$> sy_watches s !! 3, monitoring <$> sy_jobs s !! 2,
               je_watch_task <$> sy_jobs s !! 2, je_run <$> sy_jobs s !! 4, enabled (RunStep 4 RunProceeds) s)) =
  Some (Some 4, Some WtHolding, Some false, Some (Published 3), Some RunReleased, false).
Proof. by vm_compute. Qed.

(** A full synchronisation that fails lets the profile be watched again, though its watch had
    asked for one that succeeds. *)
Lemma reconciliation_forgotten :
  leads_to (ran ++ reserved 3 ++ watched_from 3 ++
            [WatchTaskStep 3 (WatchFails None panicked_error); WatchTaskStep 3 WatchProceeds; WatchTaskStep 3 WatchProceeds])
    (fun s => (st_reconciliation_required ∘ job_status ∘ je_job <$> registered_job "p" s, is_ok (watch_allowed (job_entry_new (sample_job_profile "p") "" 0)))) =
    Some (Some true, true) /\
  leads_to (ran ++ reserved 3 ++ watched_from 3 ++
            [WatchTaskStep 3 (WatchFails None panicked_error); WatchTaskStep 3 WatchProceeds; WatchTaskStep 3 WatchProceeds] ++
            StartCall (sample_job_profile "p") None :: run_to 4 (RunStopped (Some panicked_error)) ++ reserved 5)
    (fun s => (st_reconciliation_required ∘ job_status ∘ je_job <$> registered_job "p" s, wa_call <$> sy_watches s !! 5)) =
    Some (Some false, Some WcReserved).
Proof. by vm_compute. Qed.

(** A second watch of a job finds the slot of the first in the state Finished, which a shutdown
    takes for nothing to join: the watch begins after the shutdown has passed. *)
Lemma watch_outlives_shutdown :
  leads_to (ran ++ reserved 3 ++ watched_from 3 ++
            [WatchTaskStep 3 WatchCloses; WatchTaskStep 3 WatchProceeds; WatchTaskStep 3 WatchProceeds] ++
            reserved 4 ++ [WatchCallStep 4 MonitorOn; WatchCallStep 4 MonitorOn] ++ shut_down 7 ++
            [WatchCallStep 4 MonitorOn; WatchCallStep 4 MonitorOn; WatchTaskStep 4 WatchProceeds])
    (fun s => (sy_shutdown s, wa_task <$> sy_watches s !! 4)) = Some (ShutCleared, Some WtHolding).
Proof. by vm_compute. Qed.

(** The mutex follows the real path of the local root when the job was registered, the ledger the
    one when it is read or written.  A job that was registered before its local root existed and
    one that was registered after hold different mutexes, and both write the ledger of the second. *)
Lemma mutex_of_another_ledger :
  let p := mkSyncProfile "p" 1 "U" "/DCIM" "/a/../photos" true in
  let q := mkSyncProfile "q" 1 "U" "/DCIM" "/a/../photos" true in
  leads_to (StartCall p None :: StartCall q (Some "/photos") :: [StartStep 2; StartStep 2; StartStep 4; StartStep 4;
            RunStep 2 RunProceeds; RunStep 2 RunProceeds; RunStep 4 RunProceeds; RunStep 4 RunProceeds])
    (fun s => (je_run <$> sy_jobs s !! 2, je_run <$> sy_jobs s !! 4)) = Some (Some RunWorking, Some RunWorking) /\
  discover "/c" (sync_identity_for (Some "/photos") p) = discover "/c" (sync_identity_for (Some "/photos") q).
Proof. by vm_compute. Qed.

(** What is told of a run once it has reported: it is not running, and its result is the last one. *)
Theorem finished_run_is_told (profile_id : string) (j : Z) (o : RunOutcome) (s s' : SyncRegistry) :
  sy_registry s !! profile_id = Some j -> sy_shutting s = false -> run_step j (RunOutcomes o) s = Some s' ->
  exists st last, get_sync_status profile_id s' = Ok st /\ last_sync_result profile_id s' = Ok last /\ st_running st = false /\
    match o with
    | RunSucceeded now result => last = Some result /\ st_last_run_at_ms st = Some now /\ st_last_error st = None
    | RunStopped error => st_last_error st = error /\ last_sync_result profile_id s = Ok last
    end.
Proof.
  intros Hr Ho. unfold run_step, get_sync_status, last_sync_result, of_sync_job, sync_open, registered_job.
  destruct (sy_jobs s !! j) as [e|] eqn:Ej; [|done]. simpl. destruct (je_run e); try done. intros [= <-]. cbn. rewrite Hr, Ho. cbn.
  rewrite lookup_alter_eq, Ej. cbn. eexists _, _. split; [reflexivity|]. split; [reflexivity|].
  destruct o as [now result|error]; cbn; by rewrite ?Hr, ?Ej.
Qed.


End Counterexamples.
