(* ===== verification/FfiThumb.v ===== *)
(** * The thumbnail cache of the foreign function interface

    crates/handshaker-ffi/src/media.rs: [hs_media_thumbnail] and what it calls.  A request names
    media of three categories; what is in the cache is answered from it, the rest is fetched from
    the phone in one request, written to the cache, and answered with the paths of the cache
    files and the failures.  Paths are text, so [cache_path_string] has nothing to refuse; the
    modelled disk has no symbolic links. *)

From Stdlib Require Import Strings.String Strings.Ascii.
From stdpp Require Import gmap strings.
From S2P Require Import Prelude Errors AppErrors Handshake Domain Text Paths Fs Transfer Devices FilePlan ClientTransfer MediaDto.

#[local] Open Scope string_scope.
#[local] Open Scope list_scope.
#[local] Open Scope Z_scope.

(** ** Requests and results *)

Record FfiThumbnailImageItem := mkThumbImage {
  ti_path : option string; ti_media_id : option Z; ti_album_id : option Z; ti_size : option Z;
  ti_modified_at : option Z; ti_mini_thumb_magic : option string }.

Record FfiThumbnailVideoItem := mkThumbVideo {
  tv_path : option string; tv_media_id : option Z; tv_album_id : option Z; tv_size : option Z; tv_modified_at : option Z }.

Record FfiThumbnailAudioItem := mkThumbAudio {
  ta_path : option string; ta_album_id : option Z; ta_name : option string; ta_artist_id : option Z;
  ta_artist : option string; ta_year : option Z }.

Record FfiThumbnailRequest := mkThumbRequest {
  tq_images : list FfiThumbnailImageItem; tq_videos : list FfiThumbnailVideoItem; tq_audio_albums : list FfiThumbnailAudioItem }.

Record FfiThumbnailCacheEntry := mkCacheEntry { ce_path : string; ce_cache_path : path; ce_size : Z }.

Record FfiThumbnailFailure := mkThumbFailure {
  tf_path : option string; tf_media_id : option Z; tf_album_id : option Z; tf_reason : string }.

Record FfiThumbnailResult := mkThumbResult {
  tr_images : list FfiThumbnailCacheEntry; tr_videos : list FfiThumbnailCacheEntry; tr_audio_albums : list FfiThumbnailCacheEntry;
  tr_failed_images : list FfiThumbnailFailure; tr_failed_videos : list FfiThumbnailFailure;
  tr_failed_audio_albums : list FfiThumbnailFailure }.

Class ThumbnailResponseItem (T : Type) := {
  item_path : T -> option string;
  item_media_id : T -> option Z;
  item_album_id : T -> option Z;
  item_thumbnail : T -> option (list byte);
  item_thumbnail_error : T -> bool
}.

Definition image_response : ThumbnailResponseItem ImageFileDto :=
  {| item_path := imd_path; item_media_id := imd_media_id; item_album_id := imd_album_id;
     item_thumbnail := imd_thumbnail; item_thumbnail_error := imd_thumbnail_error |}.
Definition video_response : ThumbnailResponseItem VideoFileDto :=
  {| item_path := vdd_path; item_media_id := vdd_media_id; item_album_id := vdd_album_id;
     item_thumbnail := vdd_thumbnail; item_thumbnail_error := vdd_thumbnail_error |}.
Definition audio_response : ThumbnailResponseItem AudioAlbumDto :=
  {| item_path := aad_path; item_media_id := fun _ => None; item_album_id := aad_album_id;
     item_thumbnail := aad_thumbnail; item_thumbnail_error := aad_thumbnail_error |}.

#[export] Existing Instances image_response video_response audio_response.

(** ** Names of cache files *)

(** FNV-1a of 64 bits. *)
Definition fnv1a64 (input : string) : Z :=
  foldl (fun hash b => (Z.lxor hash (byte_to_Z b) * 0x00000100000001b3) mod 2 ^ 64) 0xcbf29ce484222325 (bytes_of_string input).

Definition cache_char (c : ascii) : bool :=
  is_ascii_alphanumeric c || bool_decide (c = "-"%char) || bool_decide (c = "_"%char).

Definition sanitize_cache_component (input : string) : string := substring 0 64 (string_filter cache_char input).

Definition NUL : string := String Ascii.zero "".

Definition cache_digest (device_key remote_path revision : string) : Z :=
  if bool_decide (revision = "") then fnv1a64 (device_key +:+ NUL +:+ remote_path)
  else fnv1a64 (device_key +:+ NUL +:+ remote_path +:+ NUL +:+ revision).

Definition cache_file_name (kind device_key remote_path revision : string) : string :=
  sanitize_cache_component device_key +:+ "-" +:+ kind +:+ "-" +:+
  hex_of_bytes (be_bytes 8 (cache_digest device_key remote_path revision)) +:+ ".thumb".

Definition cache_path_for (cache_dir : path) (kind device_key remote_path revision : string) : path :=
  path_join cache_dir (cache_file_name kind device_key remote_path revision).

(** [{:?}] of a [str]: quoted, with escapes from the Unicode tables of the standard library. *)
Class StrDebug := debug_str : string -> string.

Definition debug_option {A} (show : A -> string) (o : option A) : string :=
  match o with Some a => "Some(" +:+ show a +:+ ")" | None => "None" end.
Definition debug_number : option Z -> string := debug_option pretty.

Section Thumbnails.
Context `{StrDebug}.

Definition image_cache_revision (i : FfiThumbnailImageItem) : string :=
  match ti_media_id i, ti_size i, ti_modified_at i, ti_mini_thumb_magic i with
  | None, None, None, None => ""
  | _, _, _, _ =>
      "media_id=" +:+ debug_number (ti_media_id i) +:+ ";size=" +:+ debug_number (ti_size i) +:+ ";modified_at=" +:+
      debug_number (ti_modified_at i) +:+ ";mini_thumb_magic=" +:+ debug_option debug_str (ti_mini_thumb_magic i)
  end.

Definition video_cache_revision (i : FfiThumbnailVideoItem) : string :=
  match tv_media_id i, tv_size i, tv_modified_at i with
  | None, None, None => ""
  | _, _, _ =>
      "media_id=" +:+ debug_number (tv_media_id i) +:+ ";size=" +:+ debug_number (tv_size i) +:+ ";modified_at=" +:+
      debug_number (tv_modified_at i)
  end.

Definition audio_cache_revision (i : FfiThumbnailAudioItem) : string :=
  match ta_album_id i, ta_name i, ta_artist_id i, ta_artist i, ta_year i with
  | None, None, None, None, None => ""
  | _, _, _, _, _ =>
      "album_id=" +:+ debug_number (ta_album_id i) +:+ ";name=" +:+ debug_option debug_str (ta_name i) +:+ ";artist_id=" +:+
      debug_number (ta_artist_id i) +:+ ";artist=" +:+ debug_option debug_str (ta_artist i) +:+ ";year=" +:+ debug_number (ta_year i)
  end.

(** ** Identities *)

Definition id_name (id : Z) : string := "id:" +:+ pretty id.
Definition path_name (p : string) : string := "path:" +:+ p.

Definition thumbnail_identity (p : option string) (id : option Z) : string :=
  match id, p with
  | Some id, _ => id_name id
  | None, Some p => path_name p
  | None, None => "missing"
  end.

Definition mark_thumbnail_response (seen : gset string) (p : option string) (id : option Z) : gset string :=
  let seen := match id with Some id => {[id_name id]} ∪ seen | None => seen end in
  match p with Some p => {[path_name p]} ∪ seen | None => seen end.

Definition thumbnail_response_seen (seen : gset string) (p : option string) (id : option Z) : bool :=
  match id with Some id => bool_decide (id_name id ∈ seen) | None => false end ||
  match p with Some p => bool_decide (path_name p ∈ seen) | None => false end.

(** ** The files *)

(** A regular file that is not empty and can be opened. *)
Definition valid_cache_file_size (p : path) : io (option Z) :=
  let* metadata := fs_metadata p in
  match metadata with
  | Err _ => mret None
  | Ok m =>
      if negb (md_is_file m) || (md_len m =? 0) then mret None
      else
        let* opened := open_file p in
        mret (match opened with Ok _ => Some (md_len m) | Err _ => None end)
  end.

Definition cache_error (operation_name message : string) (p : path) (e : io_error) : PublicError :=
  operation operation_name (with_detail (Text (p +:+ ": " +:+ io_text e)) (public_new Internal message)).

(** [?] with a public error. *)
Definition or_public {A} (h : io_error -> PublicError) (m : io (result io_error A)) : io (AppResult A) :=
  let* r := m in mret (map_err h r).

(** [pid] and [nanos] name the temporary file. *)
Definition cache_thumbnail (cache_dir : path) (kind device_key remote_path revision : string) (bytes : list byte)
    (op : string) (pid nanos : Z) : io (AppResult path) :=
  let p := cache_path_for cache_dir kind device_key remote_path revision in
  let* valid := valid_cache_file_size p in
  match valid with
  | Some _ => mret (Ok p)
  | None =>
      let* exists_ := path_exists p in
      let*? _ := (if exists_ : bool
                    then or_public (cache_error op "invalid thumbnail cache entry cannot be replaced" p) (remove_file p)
                    else mret (Ok ())) in
      let tmp := path_join cache_dir (default "thumb" (file_name p) +:+ "." +:+ pretty pid +:+ "." +:+ pretty nanos +:+ ".tmp") in
      let*? _ := or_public (cache_error op "thumbnail cache write failed" tmp)
                     (let* created := file_create tmp in
                      match created with Ok _ => write_all tmp bytes | Err e => mret (Err e) end) in
      let*? _ := or_public (cache_error op "thumbnail cache commit failed" p) (rename_file tmp p) in
      mret (Ok p)
  end.

Definition thumbnail_cache_dir (base : option path) (op : string) : io (AppResult path) :=
  match base with
  | None => mret (Err (operation op (public_new InvalidArgument "state_dir is not configured")))
  | Some base =>
      let dir := path_join base "thumbnails" in
      let*? _ := or_public (cache_error op "cannot create thumbnail cache dir" dir) (create_dir_all (components dir)) in
      mret (Ok dir)
  end.

(** ** What is asked of the phone

    One category: how an item names itself, and what is sent and reported for it. *)

Record Category (I T : Type) := mkCategory {
  ct_kind : string;
  ct_path : I -> option string;
  ct_id : I -> option Z;
  ct_revision : I -> string;
  ct_request : I -> T;
  ct_missing : I -> FfiThumbnailFailure
}.
Arguments mkCategory {I T}.
Arguments ct_kind {I T}.
Arguments ct_path {I T}.
Arguments ct_id {I T}.
Arguments ct_revision {I T}.
Arguments ct_request {I T}.
Arguments ct_missing {I T}.

Record Partition (T : Type) := mkPartition {
  pt_hits : list FfiThumbnailCacheEntry;
  pt_requests : list T;
  pt_pending : list FfiThumbnailFailure;
  pt_scheduled : gset string;
  pt_revisions : gmap string string
}.
Arguments mkPartition {T}.
Arguments pt_hits {T}.
Arguments pt_requests {T}.
Arguments pt_pending {T}.
Arguments pt_scheduled {T}.
Arguments pt_revisions {T}.

Section Category.
Context {I T : Type} (c : Category I T) (cache_dir : path) (device_key : string).

Definition schedule (i : I) (acc : Partition T) : Partition T :=
  let identity := thumbnail_identity (ct_path c i) (ct_id c i) in
  if bool_decide (identity ∈ pt_scheduled acc) then acc
  else mkPartition (pt_hits acc) (pt_requests acc ++ [ct_request c i]) (pt_pending acc ++ [ct_missing c i])
         ({[identity]} ∪ pt_scheduled acc) (pt_revisions acc).

Definition partition_item (i : I) (acc : Partition T) : io (Partition T) :=
  let revision := ct_revision c i in
  match ct_path c i with
  | None => mret (schedule i acc)
  | Some p =>
      let acc := mkPartition (pt_hits acc) (pt_requests acc) (pt_pending acc) (pt_scheduled acc)
                   (<[p := revision]> (pt_revisions acc)) in
      let cache_path := cache_path_for cache_dir (ct_kind c) device_key p revision in
      let* size := valid_cache_file_size cache_path in
      mret (match size with
            | Some size =>
                mkPartition (pt_hits acc ++ [mkCacheEntry p cache_path size]) (pt_requests acc) (pt_pending acc)
                  (pt_scheduled acc) (pt_revisions acc)
            | None => schedule i acc
            end)
  end.

Fixpoint partition_items (items : list I) (acc : Partition T) : io (Partition T) :=
  match items with
  | [] => mret acc
  | i :: items => let* acc := partition_item i acc in partition_items items acc
  end.
End Category.

(** ** What the phone answers *)

Record CachedThumbnailResponses := mkResponses {
  rs_cached : list FfiThumbnailCacheEntry; rs_failed : list FfiThumbnailFailure; rs_responded : gset string }.

Definition failure_of {T} `{ThumbnailResponseItem T} (item : T) (reason : string) : FfiThumbnailFailure :=
  mkThumbFailure (item_path item) (item_media_id item) (item_album_id item) reason.

(** Why an item is not cached. *)
Definition refused {T} `{ThumbnailResponseItem T} (item : T) : result string (string * list byte) :=
  if item_thumbnail_error item then Err "thumbnail_error"
  else match item_path item with
       | None => Err "missing_path"
       | Some p => match item_thumbnail item with
                   | Some (b :: bytes) => Ok (p, b :: bytes)
                   | _ => Err "missing_data"
                   end
       end.

Fixpoint cache_thumbnail_responses {T} `{ThumbnailResponseItem T} (items : list T) (cache_dir : path) (kind device_key : string)
    (revisions : gmap string string) (op : string) (pid : Z) (nanos : nat -> Z) (acc : CachedThumbnailResponses)
  : io (AppResult CachedThumbnailResponses) :=
  match items with
  | [] => mret (Ok acc)
  | item :: items =>
      let identity_id := match item_media_id item with Some id => Some id | None => item_album_id item end in
      let responded := mark_thumbnail_response (rs_responded acc) (item_path item) identity_id in
      match refused item with
      | Err reason =>
          cache_thumbnail_responses items cache_dir kind device_key revisions op pid (fun n => nanos (S n))
            (mkResponses (rs_cached acc) (rs_failed acc ++ [failure_of item reason]) responded)
      | Ok (p, bytes) =>
          let revision := default "" (revisions !! p) in
          let*? cache_path := cache_thumbnail cache_dir kind device_key p revision bytes op pid (nanos 0%nat) in
          cache_thumbnail_responses items cache_dir kind device_key revisions op pid (fun n => nanos (S n))
            (mkResponses (rs_cached acc ++ [mkCacheEntry p cache_path (zlen bytes)]) (rs_failed acc) responded)
      end
  end.

Definition no_responses : CachedThumbnailResponses := mkResponses [] [] ∅.

(** The scheduled items the phone said nothing about. *)
Definition missing_responses (id_of : FfiThumbnailFailure -> option Z) (responded : gset string) (pending : list FfiThumbnailFailure)
  : list FfiThumbnailFailure :=
  filter (fun item => thumbnail_response_seen responded (tf_path item) (id_of item) = false) pending.

(** ** The three categories *)

Definition images_category : Category FfiThumbnailImageItem ImageFileDto :=
  mkCategory "image" ti_path ti_media_id image_cache_revision
    (fun i => mkImageFileDto (ti_path i) (ti_size i) None (ti_modified_at i) None None None (ti_media_id i) (ti_album_id i)
                None None None None None None (ti_mini_thumb_magic i) None false false)
    (fun i => mkThumbFailure (ti_path i) (ti_media_id i) (ti_album_id i) "missing_response").

Definition videos_category : Category FfiThumbnailVideoItem VideoFileDto :=
  mkCategory "video" tv_path tv_media_id video_cache_revision
    (fun i => mkVideoFileDto (tv_path i) (tv_size i) None (tv_modified_at i) None None None (tv_media_id i) (tv_album_id i)
                None None false None)
    (fun i => mkThumbFailure (tv_path i) (tv_media_id i) (tv_album_id i) "missing_response").

Definition audio_category : Category FfiThumbnailAudioItem AudioAlbumDto :=
  mkCategory "audio" ta_path ta_album_id audio_cache_revision
    (fun i => mkAudioAlbumDto (ta_path i) (ta_album_id i) (ta_name i) (ta_artist_id i) (ta_artist i) (ta_year i) None false)
    (fun i => mkThumbFailure (ta_path i) None (ta_album_id i) "missing_response").

Definition no_items {T} : Partition T := mkPartition [] [] [] ∅ ∅.

Definition nameless (p : option string) (id : option Z) : bool :=
  match p, id with None, None => true | _, _ => false end.

Definition device_cache_key (s : SessionSnapshot) : string :=
  match if_phone_id (ssn_device_info s) with
  | Some phone => phone
  | None => default (dd_id (ssn_device s)) (dd_stable_id (ssn_device s))
  end.

(** [hs_media_thumbnail] between the JSON it is given ([parsed], what serde_json makes of it) and
    the JSON it answers; [session] is the snapshot of the session, [base] the state directory,
    [get_thumbnails] the request of the application. *)
Definition hs_media_thumbnail (parsed : result string FfiThumbnailRequest) (session : AppResult SessionSnapshot) (base : option path)
    (get_thumbnails : list ImageFileDto -> list VideoFileDto -> list AudioAlbumDto -> AppResult ThumbnailsDto)
    (pid : Z) (nanos : string -> nat -> Z) : io (AppResult FfiThumbnailResult) :=
  let op := "media_thumbnail" in
  match parsed with
  | Err text => mret (Err (with_detail (Text text) (public_new InvalidArgument "invalid request JSON")))
  | Ok ffi =>
      if existsb (fun i => nameless (ti_path i) (ti_media_id i)) (tq_images ffi)
         || existsb (fun i => nameless (tv_path i) (tv_media_id i)) (tq_videos ffi)
         || existsb (fun i => nameless (ta_path i) (ta_album_id i)) (tq_audio_albums ffi)
      then mret (Err (operation op (public_new InvalidArgument "thumbnail entries require a path or category id")))
      else
        let*? s := mret session in
        let device_key := device_cache_key s in
        let*? cache_dir := thumbnail_cache_dir base op in
        let* images := partition_items images_category cache_dir device_key (tq_images ffi) no_items in
        let* videos := partition_items videos_category cache_dir device_key (tq_videos ffi) no_items in
        let* audio := partition_items audio_category cache_dir device_key (tq_audio_albums ffi) no_items in
        match pt_requests images, pt_requests videos, pt_requests audio with
        | [], [], [] => mret (Ok (mkThumbResult (pt_hits images) (pt_hits videos) (pt_hits audio) [] [] []))
        | image_requests, video_requests, audio_requests =>
            let*? thumbnails := mret (get_thumbnails image_requests video_requests audio_requests) in
            let*? ri := cache_thumbnail_responses (tnd_images thumbnails) cache_dir "image" device_key (pt_revisions images)
                            op pid (nanos "image") no_responses in
            let*? rv := cache_thumbnail_responses (tnd_videos thumbnails) cache_dir "video" device_key (pt_revisions videos)
                            op pid (nanos "video") no_responses in
            let*? ra := cache_thumbnail_responses (tnd_audio_albums thumbnails) cache_dir "audio" device_key (pt_revisions audio)
                            op pid (nanos "audio") no_responses in
            mret (Ok (mkThumbResult (pt_hits images ++ rs_cached ri) (pt_hits videos ++ rs_cached rv) (pt_hits audio ++ rs_cached ra)
                        (rs_failed ri ++ missing_responses tf_media_id (rs_responded ri) (pt_pending images))
                        (rs_failed rv ++ missing_responses tf_media_id (rs_responded rv) (pt_pending videos))
                        (rs_failed ra ++ missing_responses tf_album_id (rs_responded ra) (pt_pending audio))))
        end
  end.
End Thumbnails.
Arguments mkCategory {I T}.
Arguments ct_kind {I T}.
Arguments ct_path {I T}.
Arguments ct_id {I T}.
Arguments ct_revision {I T}.
Arguments ct_request {I T}.
Arguments ct_missing {I T}.
Arguments mkPartition {T}.
Arguments pt_hits {T}.
Arguments pt_requests {T}.
Arguments pt_pending {T}.
Arguments pt_scheduled {T}.
Arguments pt_revisions {T}.
