(* ===== verification/FfiThumbProps.v ===== *)
(** * Properties of the thumbnail cache

    What one entry becomes under every fault and crash of the disk, what is answered for every
    item asked for, and that an answered path names a file with content. *)

From Stdlib Require Import Strings.String Strings.Ascii.
From stdpp Require Import gmap strings.
From S2P Require Import Prelude Errors AppErrors Handshake Domain Text Paths Fs FsLogic Transfer Devices SyncScope SyncLayout FilePlan ClientTransfer ClientTransferProps MediaDto FfiThumb.

#[local] Open Scope string_scope.
#[local] Open Scope list_scope.
#[local] Open Scope Z_scope.

(** ** The names *)








Section Names.
Context (dir : path).

Definition thumb_key (k : key) : Prop := exists name, k = components dir ++ [Normal (name +:+ ".thumb")].
Definition temp_key (k : key) : Prop := exists name, k = components dir ++ [Normal (name +:+ ".tmp")].








End Names.

(** ** One entry *)

(** A file with content. *)
Definition filled (f : fs) (k : key) : Prop := exists b bs, f !! k = Some (File (b :: bs)).





Section Entry.
Context (dir : path) (kind device_key remote_path revision : string) (bytes : list byte) (op : string) (pid nanos : Z) (f0 : fs).
Context (Hkind : no_slash kind = true).

#[local] Abbreviation entry := (cache_path_for dir kind device_key remote_path revision).


Definition entry_kept (f : fs) : Prop := f = f0 /\ filled f0 (components entry).






End Entry.

(** ** The answers of the phone *)

Definition cache_key (dir : path) (k : key) : Prop := thumb_key dir k \/ temp_key dir k.


(** Files of the cache with content stay, whatever is cached next. *)
Definition keeps_cache (dir : path) (f0 f : fs) : Prop :=
  only_on (cache_key dir) f0 f /\ forall k, thumb_key dir k -> filled f0 k -> filled f k.

#[export] Instance keeps_preorder (dir : path) : PreOrder (keeps_cache dir).
Proof.
  split; [done|]. intros f g h [Hf Hk] [Hg Hk']. split; [by etrans|]. auto.
Qed.



Section Responses.
Context {T : Type} `{ThumbnailResponseItem T} (dir : path) (kind device_key : string) (revisions : gmap string string) (op : string) (pid : Z).
Context (Hkind : no_slash kind = true).





End Responses.

(** ** What is asked of the phone *)

Section Partition.
Context {I T : Type} (c : Category I T) (dir : path) (device_key : string).
Context (Hkind : no_slash (ct_kind c) = true).





End Partition.


(** ** A category of a request that was answered *)

Section Category.
Context {I T : Type} `{ThumbnailResponseItem T} (c : Category I T) (id_of : FfiThumbnailFailure -> option Z).







End Category.

(** ** The whole request *)

Section Request.
Context `{StrDebug} (base : option path).






Section Fetched.
Context (ffi : FfiThumbnailRequest) (b : path) (device_key op : string) (pid : Z) (nanos : string -> nat -> Z) (f0 f1 : fs).
Context (ai : list FfiThumbnailImageItem) (av : list FfiThumbnailVideoItem) (aa : list FfiThumbnailAudioItem).
Context (images : Partition ImageFileDto) (videos : Partition VideoFileDto) (audio : Partition AudioAlbumDto).

#[local] Abbreviation dir := (path_join b "thumbnails").



End Fetched.

End Request.

(** ** Behaviours *)

Module ThumbSamples.
#[local] Instance plain_debug : StrDebug := fun s => s.

Definition device : DeviceDescriptor := mkDevice "serial" None None None TAdb "serial" true None None.
Definition session : SessionSnapshot :=
  mkSessionSnapshot 1 device (mkInfoDto "serial" None None None None None None None None "/" None None None None None) SessionReady 0 None.

Definition image (p : option string) (id album : option Z) (thumbnail : option (list byte)) : ImageFileDto :=
  mkImageFileDto p None None None None None None id album None thumbnail None None None None None None false false.

Definition item (p : option string) (id : option Z) : FfiThumbnailImageItem := mkThumbImage p id None None None None.

Definition thumbs_request (items : list FfiThumbnailImageItem) (answers : list ImageFileDto) (w : world) : outcome (AppResult FfiThumbnailResult) * world :=
  hs_media_thumbnail (Ok (mkThumbRequest items [] [])) (Ok session) (Some "/state") (fun _ _ _ => Ok (mkThumbnailsDto answers [] [])) 1
    (fun _ n => Z.of_nat n) w.

Definition disk : world := mkWorld ∅ [] [].

(** The paths with an entry and their sizes, and the paths of the failures. *)
Definition thumbs_reported (r : outcome (AppResult FfiThumbnailResult) * world) : option (list (string * Z) * list (option string)) :=
  match r.1 with
  | Ret (Ok res) => Some ((fun e => (ce_path e, ce_size e)) <$> tr_images res, tf_path <$> tr_failed_images res)
  | _ => None
  end.

(** What was fetched once is answered from the cache, with its size. *)
Lemma fetched_then_cached :
  let w := (thumbs_request [item (Some "/a") (Some 1)] [image (Some "/a") (Some 1) None (Some [x01; x02])] disk).2 in
  thumbs_reported (thumbs_request [item (Some "/a") (Some 1)] [] w) = Some ([("/a", 2)], []).
Proof. vm_compute. reflexivity. Qed.

(** A second path under the id of another is neither fetched nor reported. *)
Lemma second_path_silent :
  thumbs_reported (thumbs_request [item (Some "/a") (Some 1); item (Some "/b") (Some 1)] [image (Some "/a") (Some 1) None (Some [x01])] disk)
  = Some ([("/a", 1)], []).
Proof. vm_compute. reflexivity. Qed.

(** An answer without an id counts as the answer for the id its album has. *)
Lemma album_taken_for_media :
  thumbs_reported (thumbs_request [item (Some "/a") (Some 7)] [image (Some "/b") None (Some 7) (Some [x01])] disk) = Some ([("/b", 1)], []).
Proof. vm_compute. reflexivity. Qed.

(** The size that is reported is that of what the phone sent last, the file holds what it sent first. *)
Lemma reported_size_of_other_bytes :
  let r := thumbs_request [item (Some "/a") None] [image (Some "/a") None None (Some [x01]); image (Some "/a") None None (Some [x01; x02])] disk in
  thumbs_reported r = Some ([("/a", 1); ("/a", 2)], []) /\
  (omap (fun kn => match kn.2 with File c => Some c | Dir => None end) (map_to_list (w_fs r.2))) = [[x01]].
Proof. vm_compute. done. Qed.

(** Two items with the same path and other metadata share the revision of the last: the first is fetched every time. *)
Lemma first_revision_never_cached :
  let items := [item (Some "/a") (Some 1); item (Some "/a") (Some 2)] in
  let answers := [image (Some "/a") (Some 1) None (Some [x01]); image (Some "/a") (Some 2) None (Some [x02])] in
  let w := (thumbs_request items answers disk).2 in
  thumbs_reported (thumbs_request [item (Some "/a") (Some 1)] [] w) = Some ([], [Some "/a"]).
Proof. vm_compute. reflexivity. Qed.
End ThumbSamples.
