(* ===== verification/FfiCore.v ===== *)
(** * The foreign function interface: memory, results, subscriptions, requests

    crates/handshaker-ffi/src/buffer.rs, result.rs, and of lib.rs, media.rs and sync.rs what is
    not a plain call of the application: the buffers handed to the host and taken back, the
    results every function answers, the quota of event subscriptions, and the requests that are
    read from JSON (what serde_json makes of the text is a parameter). *)

From Stdlib Require Import Strings.String Strings.Ascii.
From stdpp Require Import gmap strings.
From S2P Require Import Prelude Errors AppErrors Handshake Text Paths SyncRun MediaPage.

#[local] Open Scope string_scope.
#[local] Open Scope list_scope.
#[local] Open Scope Z_scope.

(** ** Memory

    The blocks the library has handed out, by address.  The allocator is not part of the
    repository: it answers an address that is not null and not in use. *)

Abbreviation heap := (gmap Z (list byte)).

Class Allocator := malloc : heap -> Z.
Class AllocatorLaw `{Allocator} := malloc_fresh : forall h : heap, malloc h <> 0 /\ h !! malloc h = None.

Record HsByteBuffer := mkBuffer { hb_ptr : Z; hb_len : Z; hb_capacity : Z }.

Definition null_buffer : HsByteBuffer := mkBuffer 0 0 0.

Record HsCallResult := mkCallResult { cr_status : Z; cr_value : HsByteBuffer; cr_error : HsByteBuffer }.

(** What serde_json makes of a value. *)
Class ToJson (T : Type) := to_json_text : T -> result string string.

Section Memory.
Context `{Allocator}.

Definition from_bytes (bytes : list byte) (h : heap) : HsByteBuffer * heap :=
  match bytes with
  | [] => (null_buffer, h)
  | _ => (mkBuffer (malloc h) (zlen bytes) (zlen bytes), <[malloc h := bytes]> h)
  end.

Definition from_str (s : string) (h : heap) : HsByteBuffer * heap := from_bytes (bytes_of_string s) h.

(** Giving a block back; [None] is undefined behaviour: no such block, or one of another size. *)
Definition free_buffer (b : HsByteBuffer) (h : heap) : option heap :=
  if (hb_ptr b =? 0) || (hb_len b =? 0) || (hb_len b >? hb_capacity b) then Some h
  else match h !! hb_ptr b with
       | Some bytes => if zlen bytes =? hb_capacity b then Some (delete (hb_ptr b) h) else None
       | None => None
       end.

Definition fallback_error : string :=
  string_of_list_ascii (list_ascii_of_string "{'code':'internal','message':'error serialization failed','detail':null,'retryable':false,'operation':null}"
    ≫= fun c => if bool_decide (c = "'"%char) then [ascii_of_nat 34] else [c]).

Section Results.
Context `{ToJson PublicError}.

Definition ffi_err (error : PublicError) (h : heap) : HsCallResult * heap :=
  let json := match to_json_text error with Ok json => json | Err _ => fallback_error end in
  let (b, h) := from_str json h in
  (mkCallResult 1 null_buffer b, h).

Definition ffi_ok {T} `{ToJson T} (value : T) (h : heap) : HsCallResult * heap :=
  match to_json_text value with
  | Ok json => let (b, h) := from_str json h in (mkCallResult 0 b null_buffer, h)
  | Err e => ffi_err (with_detail (Text e) (public_new Internal "serialization failed")) h
  end.

Definition free_result (r : HsCallResult) (h : heap) : option heap :=
  match free_buffer (cr_value r) h with Some h => free_buffer (cr_error r) h | None => None end.

(** A closure that answers, or panics ([None]). *)
Definition catch (op : string) (f : heap -> option (HsCallResult * heap)) (h : heap) : HsCallResult * heap :=
  match f h with
  | Some r => r
  | None => ffi_err (operation op (public_new Internal "internal panic")) h
  end.

(** [ffi_try!] *)
Definition ffi_try {T} (e : AppResult T) (k : T -> heap -> option (HsCallResult * heap)) (h : heap) : option (HsCallResult * heap) :=
  match e with Ok value => k value h | Err error => Some (ffi_err error h) end.
End Results.
End Memory.

(** ** Handles and text *)

Definition runtime_ref (handle : Z) (op : string) : AppResult Z :=
  if handle =? 0 then Err (operation op (public_new InvalidArgument "NULL runtime handle")) else Ok handle.

(** [bytes] is the memory the pointer and length describe; [utf8] whether it is UTF-8. *)
Definition input_str (utf8 : list byte -> bool) (ptr : Z) (bytes : list byte) (op : string) : AppResult string :=
  if ptr =? 0 then Err (operation op (public_new InvalidArgument "NULL input"))
  else if utf8 bytes then Ok (string_of_list_byte bytes)
  else Err (operation op (public_new InvalidArgument "input is not valid UTF-8")).

Definition out_slot (out : Z) (op : string) : AppResult Z :=
  if out =? 0 then Err (operation op (public_new InvalidArgument "NULL output slot")) else Ok out.

(** ** Event subscriptions

    The counter is an atomic: calls interleave between its operations.  Each thread is inside
    [hs_subscribe_events] or [hs_subscription_destroy], or has returned a live handle. *)

Definition MAX_SUBSCRIPTIONS : Z := 64.

Inductive subscriber :=
  | Entering                    (* before fetch_add *)
  | Refused                     (* over the quota, before fetch_sub *)
  | SubscriptionReservation     (* armed *)
  | Live                        (* disarmed: the handle owns the count *)
  | Destroying                  (* before the fetch_sub of the handle *)
  | Left.

#[export] Instance subscriber_eq_dec : EqDecision subscriber.
Proof. solve_decision. Defined.

Record quota := mkQuota { qt_counter : Z; qt_threads : list subscriber }.

Definition usize_wrap (z : Z) : Z := z mod 2 ^ 64.

Definition at_thread (i : nat) (t : subscriber) (counter : Z) (q : quota) : quota :=
  mkQuota counter (<[i := t]> (qt_threads q)).

(** The error of a refused subscription. *)
Definition quota_error : PublicError :=
  operation "subscribe_events" (public_new InvalidState
    ("too many live event subscriptions (max " +:+ pretty MAX_SUBSCRIPTIONS +:+ "); destroy some first")).

Inductive quota_event :=
  | QCall                  (* the host calls hs_subscribe_events *)
  | QAcquire (i : nat)     (* fetch_add *)
  | QRelease (i : nat)     (* fetch_sub of a refused call, or of a reservation that is dropped armed *)
  | QDisarm (i : nat)
  | QDestroy (i : nat)     (* the host destroys a live handle *)
  | QDestroyed (i : nat).

Definition quota_step (e : quota_event) (q : quota) : option quota :=
  match e with
  | QCall => Some (mkQuota (qt_counter q) (qt_threads q ++ [Entering]))
  | QAcquire i =>
      match qt_threads q !! i with
      | Some Entering =>
          let previous := qt_counter q in
          Some (at_thread i (if previous >=? MAX_SUBSCRIPTIONS then Refused else SubscriptionReservation) (usize_wrap (previous + 1)) q)
      | _ => None
      end
  | QRelease i =>
      match qt_threads q !! i with
      | Some Refused | Some SubscriptionReservation => Some (at_thread i Left (usize_wrap (qt_counter q - 1)) q)
      | _ => None
      end
  | QDisarm i =>
      match qt_threads q !! i with
      | Some SubscriptionReservation => Some (at_thread i Live (qt_counter q) q)
      | _ => None
      end
  | QDestroy i =>
      match qt_threads q !! i with
      | Some Live => Some (at_thread i Destroying (qt_counter q) q)
      | _ => None
      end
  | QDestroyed i =>
      match qt_threads q !! i with
      | Some Destroying => Some (at_thread i Left (usize_wrap (qt_counter q - 1)) q)
      | _ => None
      end
  end.

Fixpoint quota_run (es : list quota_event) (q : quota) : option quota :=
  match es with
  | [] => Some q
  | e :: es => match quota_step e q with Some q => quota_run es q | None => None end
  end.

Definition quota_start : quota := mkQuota 0 [].

(** [hs_subscription_next]: what the receiver gives within the time. *)
Inductive received_event (E : Type) := REnvelope (e : E) | RClosed | RLagged (skipped : Z) | RElapsed.
Arguments REnvelope {E} e.
Arguments RClosed {E}.
Arguments RLagged {E} skipped.
Arguments RElapsed {E}.

Inductive next_answer (E : Type) := NEnvelope (e : E) | NClosed | NTimeout.
Arguments NEnvelope {E} e.
Arguments NClosed {E}.
Arguments NTimeout {E}.

(** [recv] answers within the time it is given and says how long it took.  The lock of the receiver is awaited before that
    time starts: a call that finds another one waiting waits [lock_wait] first. *)
Definition hs_subscription_next {E} (subscription timeout_ms lock_wait : Z) (recv : Z -> received_event E * Z)
  : AppResult (next_answer E) * Z :=
  if subscription =? 0 then (Ok NClosed, 0)
  else
    let (outcome, waited) := recv timeout_ms in
    (match outcome with
     | REnvelope e => Ok (NEnvelope e)
     | RClosed => Ok NClosed
     | RLagged skipped => Err (with_detail (Text ("skipped " +:+ pretty skipped +:+ " events")) (public_new InvalidState "subscription lagged"))
     | RElapsed => Ok NTimeout
     end, lock_wait + waited).

(** ** Requests *)

Inductive MediaPageRequest := Full | Page (cursor limit : option Z).

Record MediaPageRequestRaw := mkPageRaw { pr_limit : option Z; pr_cursor : option Z }.

Definition parse_page_request (parsed : result string MediaPageRequestRaw) (op : string) : AppResult MediaPageRequest :=
  match parsed with
  | Err e => Err (operation op (with_detail (Text e) (public_new InvalidArgument "invalid media library request")))
  | Ok raw =>
      match pr_limit raw, pr_cursor raw with
      | None, None => Ok Full
      | Some limit, cursor =>
          if (limit =? 0) || (limit >? MEDIA_PAGE_MAX_LIMIT)
          then Err (operation op (public_new InvalidArgument ("limit must be 1..=" +:+ pretty MEDIA_PAGE_MAX_LIMIT)))
          else Ok (Page cursor (Some limit))
      | None, Some cursor => Ok (Page (Some cursor) None)
      end
  end.

Definition DEFAULT_SYNC_ROOT : string := "/storage/emulated/0/DCIM/Camera".
Definition FFI_MAX_ID_LEN : Z := 128.
Definition FFI_MAX_PATH_LEN : Z := 4096.

Fixpoint string_all (f : ascii -> bool) (s : string) : bool :=
  match s with EmptyString => true | String c s => f c && string_all f s end.

Definition normalize_device_uuid (raw : string) : option string :=
  let raw := default raw (str_strip_prefix "phone:" raw) in
  if bool_decide (raw = "") || (str_len raw >? FFI_MAX_ID_LEN) then None
  else if negb (string_all uuid_char raw) then None
  else Some raw.

(** [value.get(k).and_then(Value::as_str)] and [.and_then(Value::as_bool)]. *)
Record json_object := mkJson { js_str : string -> option string; js_bool : string -> option bool }.

Definition bounded (limit : Z) (s : option string) : option string :=
  match s with Some s => if negb (bool_decide (s = "")) && (str_len s <=? limit) then Some s else None | None => None end.

Definition parse_profile (session_id : Z) (parsed : result string json_object) (op : string) : AppResult SyncProfileDto :=
  match parsed with
  | Err e => Err (operation op (with_detail (Text e) (public_new InvalidArgument "invalid JSON request")))
  | Ok value =>
      match js_str value "device_uuid" ≫= normalize_device_uuid with
      | None => Err (operation op (public_new InvalidArgument "device_uuid is required and must match [A-Za-z0-9_-]+"))
      | Some device_uuid =>
          match bounded FFI_MAX_PATH_LEN (js_str value "local_root") with
          | None => Err (operation op (public_new InvalidArgument "local_root is required"))
          | Some local_root =>
              let id := default device_uuid (bounded FFI_MAX_ID_LEN (js_str value "id")) in
              let remote_root := default DEFAULT_SYNC_ROOT (bounded FFI_MAX_PATH_LEN (js_str value "remote_root")) in
              let enabled := default true (js_bool value "enabled") in
              Ok (mkSyncProfile id session_id device_uuid remote_root local_root enabled)
          end
      end
  end.
