(* ===== verification/FfiCoreProps.v ===== *)
(** * Properties of the foreign function interface

    A host that frees each result at most once never meets undefined behaviour and leaks nothing
    it has freed; the quota of subscriptions holds under every interleaving; what the request
    parsers accept. *)

From Stdlib Require Import Strings.String Strings.Ascii.
From stdpp Require Import gmap strings.
From S2P Require Import Prelude Errors AppErrors Handshake Text Paths SyncStore SyncRun MediaPage FfiCore.

#[local] Open Scope string_scope.
#[local] Open Scope list_scope.
#[local] Open Scope Z_scope.

(** ** Memory *)

(** serde_json never writes an empty text. *)
Class JsonText (T : Type) `{ToJson T} := json_text : forall (v : T) s, to_json_text v = Ok s -> s <> "".

Section Memory.
Context `{AllocatorLaw} `{JsonText PublicError}.

(** The block a result owns. *)
Definition block_of (r : HsCallResult) : Z := hb_ptr (if cr_status r =? 0 then cr_value r else cr_error r).

#[local] Arguments block_of : simpl never.

(** A result owns exactly one new block, in the buffer its status names; the other is empty. *)
Definition produces (r : HsCallResult) (h h' : heap) : Prop :=
  exists p bytes, bytes <> [] /\ p <> 0 /\ h !! p = None /\ h' = <[p := bytes]> h /\
    (r = mkCallResult 0 (mkBuffer p (zlen bytes) (zlen bytes)) null_buffer \/
     r = mkCallResult 1 null_buffer (mkBuffer p (zlen bytes) (zlen bytes))).

Definition answers (f : heap -> option (HsCallResult * heap)) : Prop :=
  forall h r h', f h = Some (r, h') -> produces r h h'.

Lemma from_str_block (s : string) (h : heap) (b : HsByteBuffer) (h' : heap) :
  s <> "" -> from_str s h = (b, h') ->
  exists p bytes, bytes <> [] /\ p <> 0 /\ h !! p = None /\ h' = <[p := bytes]> h /\ b = mkBuffer p (zlen bytes) (zlen bytes).
Proof.
  intros Hs. unfold from_str, from_bytes. destruct s as [|c s]; [done|]. simpl. intros [= <- <-].
  destruct (malloc_fresh h) as [Hz Hn].
  eexists _, _. split_and!; [|exact Hz|exact Hn|reflexivity|reflexivity]. done.
Qed.

Lemma ffi_err_produces (e : PublicError) (h : heap) : produces (ffi_err e h).1 h (ffi_err e h).2.
Proof.
  unfold ffi_err. set (json := match to_json_text e with Ok j => j | Err _ => fallback_error end).
  assert (json <> "") as Hj by (subst json; destruct (to_json_text e) eqn:E; [by eapply json_text|by vm_compute]).
  destruct (from_str json h) as [b h'] eqn:E. destruct (from_str_block _ _ _ _ Hj E) as (p & bytes & Hb & Hp & Hn & -> & ->).
  exists p, bytes. auto 6.
Qed.

Lemma ffi_ok_produces {T : Type} `{JsonText T} (v : T) (h : heap) : produces (ffi_ok v h).1 h (ffi_ok v h).2.
Proof.
  unfold ffi_ok. destruct (to_json_text v) as [json|e] eqn:E; [|apply ffi_err_produces].
  destruct (from_str json h) as [b h'] eqn:Es.
  destruct (from_str_block _ _ _ _ (json_text _ _ E) Es) as (p & bytes & Hb & Hp & Hn & -> & ->). exists p, bytes. auto 6.
Qed.

Lemma ffi_try_answers {T : Type} (e : AppResult T) (k : T -> heap -> option (HsCallResult * heap)) :
  (forall v, answers (k v)) -> answers (ffi_try e k).
Proof.
  intros Hk h r h'. unfold ffi_try. destruct e as [v|e]; [apply Hk|]. intros [= Heq].
  pose proof (ffi_err_produces e h) as Hp. by rewrite Heq in Hp.
Qed.

Lemma catch_produces (op : string) (f : heap -> option (HsCallResult * heap)) (h : heap) :
  answers f -> produces (catch op f h).1 h (catch op f h).2.
Proof.
  intros Hf. unfold catch. destruct (f h) as [[r h']|] eqn:E; [by apply (Hf h)|]. apply ffi_err_produces.
Qed.

Lemma free_produced (r : HsCallResult) (h h' g : heap) :
  produces r h h' -> g !! (block_of r) = h' !! (block_of r) -> free_result r g = Some (delete (block_of r) g).
Proof.
  intros (p & bytes & Hb & Hp & Hn & -> & Hr). assert (0 < zlen bytes) by (destruct bytes; [done|simpl; lia]).
  destruct Hr as [-> | ->]; unfold block_of; simpl; rewrite lookup_insert_eq; intros Hg; unfold free_result, free_buffer; simpl;
    rewrite Hg; (replace (p =? 0) with false by lia); (replace (zlen bytes =? 0) with false by lia);
    (replace (zlen bytes >? zlen bytes) with false by lia); simpl; by rewrite Z.eqb_refl.
Qed.

(** A host: it calls functions of the library and frees results it holds, each at most once. *)
Inductive host_op :=
  | HCall (op : string) (f : heap -> option (HsCallResult * heap))
  | HFree (i : nat).

Fixpoint host_run (ops : list host_op) (h : heap) (held : list HsCallResult) : option (heap * list HsCallResult) :=
  match ops with
  | [] => Some (h, held)
  | HCall op f :: ops => let (r, h) := catch op f h in host_run ops h (r :: held)
  | HFree i :: ops =>
      match held !! i with
      | Some r => match free_result r h with Some h => host_run ops h (delete i held) | None => None end
      | None => host_run ops h held
      end
  end.

(** The heap is what was there and the blocks of the results that are held. *)
Inductive owns (h0 : heap) : list HsCallResult -> heap -> Prop :=
  | owns_nil : owns h0 [] h0
  | owns_cons r rs h h' : owns h0 rs h -> produces r h h' -> owns h0 (r :: rs) h'.

Lemma owns_delete (h0 : heap) (rs : list HsCallResult) (h : heap) (i : nat) (r : HsCallResult) :
  owns h0 rs h -> rs !! i = Some r ->
  exists g g', produces r g g' /\ h !! (block_of r) = g' !! (block_of r) /\ owns h0 (delete i rs) (delete (block_of r) h).
Proof.
  intros Ho. revert i. induction Ho as [|x rs h h' Ho IH Hp]; intros i; [done|].
  destruct i as [|i]; simpl; intros Hi.
  - injection Hi as ->. exists h, h'. split_and!; [done..|]. destruct Hp as (p & bytes & Hb & Hp & Hn & -> & Hr).
    assert (block_of r = p) as -> by by destruct Hr as [-> | ->]. by rewrite delete_insert_id.
  - destruct (IH i Hi) as (g & g' & Hg & Heq & Ho'). exists g, g'.
    destruct Hp as (p & bytes & Hb & Hp & Hn & -> & Hr).
    assert (is_Some (h !! (block_of r))) as [c Hc].
    { rewrite Heq. destruct Hg as (q & bs & Hbs & Hq & Hqn & -> & Hqr). assert (block_of r = q) as -> by by destruct Hqr as [-> | ->].
      rewrite lookup_insert_eq. by eexists. }
    assert (block_of r <> p) as Hne by (intros Hx; rewrite Hx in Hc; congruence).
    split_and!; [done|by rewrite lookup_insert_ne|]. apply owns_cons with (h := delete (block_of r) h); [done|].
    exists p, bytes. split_and!; [done..| | |done]; [by rewrite lookup_delete_ne|by rewrite delete_insert_ne].
Qed.

(** Whatever a host calls and in whatever order it frees what it was given, no free is undefined behaviour, and
    when it holds nothing the memory is as it was. *)
Theorem host_frees_everything (ops : list host_op) (h0 : heap) :
  (forall op f, HCall op f ∈ ops -> answers f) ->
  exists h held, host_run ops h0 [] = Some (h, held) /\ owns h0 held h /\ (held = [] -> h = h0).
Proof.
  intros Hops. assert (forall held h, owns h0 held h -> exists h' held', host_run ops h held = Some (h', held') /\ owns h0 held' h') as Hgo.
  { induction ops as [|[op f|i] ops IH]; intros held h Ho; cbn [host_run]; [by eexists _, _| |].
    - assert (answers f) as Hf by (apply (Hops op); set_solver).
      pose proof (catch_produces op f h Hf) as Hp. destruct (catch op f h) as [r h']. simpl in Hp.
      apply IH; [intros op' f' Hin; apply (Hops op'); set_solver|by eapply owns_cons].
    - assert (forall op f, HCall op f ∈ ops -> answers f) as Hops' by (intros op f Hin; apply (Hops op); set_solver).
      destruct (held !! i) as [r|] eqn:Ei; [|by apply IH]. destruct (owns_delete _ _ _ _ _ Ho Ei) as (g & g' & Hp & Heq & Ho').
      rewrite (free_produced _ _ _ _ Hp Heq). by apply IH. }
  destruct (Hgo [] h0 (owns_nil h0)) as (h & held & Hr & Ho). exists h, held. split_and!; [done..|].
  intros ->. by inversion Ho.
Qed.
End Memory.

(** ** The quota of subscriptions *)

(** Who the counter counts, and who holds a subscription. *)
Definition counted (t : subscriber) : bool := negb (bool_decide (t = Entering \/ t = Left)).
Definition subscribed (t : subscriber) : bool :=
  bool_decide (t = SubscriptionReservation \/ t = Live \/ t = Destroying).

Definition count_of (f : subscriber -> bool) (ts : list subscriber) : Z := zlen (filter (fun t => f t = true) ts).

Definition quota_ok (q : quota) : Prop :=
  qt_counter q = count_of counted (qt_threads q) /\ count_of subscribed (qt_threads q) <= MAX_SUBSCRIPTIONS.

Lemma count_of_insert (f : subscriber -> bool) (ts : list subscriber) (i : nat) (x y : subscriber) :
  ts !! i = Some x -> count_of f (<[i := y]> ts) = count_of f ts - Z.b2z (f x) + Z.b2z (f y).
Proof.
  revert i. unfold count_of. induction ts as [|t ts IH]; intros [|i]; simpl; [done..| |].
  - intros [= ->]. rewrite !filter_cons. destruct (f x) eqn:Ex, (f y) eqn:Ey; repeat case_decide; try congruence; simpl; lia.
  - intros Hi. specialize (IH i Hi). rewrite !filter_cons. repeat case_decide; simpl; lia.
Qed.

Lemma count_of_bound (f : subscriber -> bool) (ts : list subscriber) : 0 <= count_of f ts <= zlen ts.
Proof. unfold count_of. pose proof (length_filter (fun t => f t = true) ts). lia. Qed.

Lemma subscribed_counted (ts : list subscriber) : count_of subscribed ts <= count_of counted ts.
Proof.
  unfold count_of. induction ts as [|t ts IH]; [done|]. rewrite !filter_cons.
  assert (subscribed t = true -> counted t = true) as Ht by by destruct t.
  repeat case_decide; simpl; lia || tauto.
Qed.

Lemma quota_step_ok (e : quota_event) (q q' : quota) :
  zlen (qt_threads q) < 2 ^ 63 -> quota_ok q -> quota_step e q = Some q' -> quota_ok q'.
Proof.
  intros Hlen [Hc Hs]. pose proof (count_of_bound counted (qt_threads q)) as Hb.
  pose proof (subscribed_counted (qt_threads q)) as Hsc. unfold MAX_SUBSCRIPTIONS in *.
  assert (forall i x y n, qt_threads q !! i = Some x ->
    n = count_of counted (qt_threads q) - Z.b2z (counted x) + Z.b2z (counted y) ->
    count_of subscribed (qt_threads q) - Z.b2z (subscribed x) + Z.b2z (subscribed y) <= 64 -> quota_ok (at_thread i y n q)) as Hgo.
  { intros i x y n Hi -> Hy. unfold quota_ok, at_thread. cbn [qt_counter qt_threads]. by rewrite !(count_of_insert _ _ _ _ _ Hi). }
  assert (forall i x, qt_threads q !! i = Some x -> counted x = true -> 0 < count_of counted (qt_threads q)) as Hpos.
  { intros i x Hi Hx. pose proof (count_of_insert counted _ _ _ Left Hi) as Heq. rewrite Hx in Heq. simpl in Heq.
    pose proof (count_of_bound counted (<[i := Left]> (qt_threads q))). lia. }
  destruct e as [|i|i|i|i|i]; simpl.
  { intros [= <-]. unfold quota_ok. cbn [qt_counter qt_threads]. unfold count_of in *. rewrite !filter_app, !length_app, !filter_cons_False by done. rewrite !filter_nil. simpl. rewrite !Nat.add_0_r. split; [done|exact Hs]. }
  all: destruct (qt_threads q !! i) as [x|] eqn:Ei; [|done]; destruct x; try done; intros [= <-];
    (eapply Hgo; [exact Ei|..]); try (pose proof (Hpos _ _ Ei eq_refl)); unfold usize_wrap in *; rewrite ?Hc;
    rewrite ?Z.mod_small by lia; try (destruct (_ >=? MAX_SUBSCRIPTIONS) eqn:Eq); unfold MAX_SUBSCRIPTIONS in *; simpl; lia.
Qed.

(** However the calls of the threads interleave, the counter is what the calls under way and the live subscriptions
    amount to, and no more than 64 subscriptions are reserved, live or being destroyed. *)
Theorem subscriptions_bounded (es : list quota_event) (q : quota) :
  zlen es < 2 ^ 63 -> quota_run es quota_start = Some q ->
  qt_counter q = count_of counted (qt_threads q) /\ count_of subscribed (qt_threads q) <= MAX_SUBSCRIPTIONS.
Proof.
  assert (forall es q0, zlen es + zlen (qt_threads q0) < 2 ^ 63 -> quota_ok q0 -> quota_run es q0 = Some q -> quota_ok q) as Hgo.
  { clear es. intros es. induction es as [|e es IH]; intros q0 Hl Hq; cbn [quota_run]; [by intros [= <-]|].
    destruct (quota_step e q0) as [q1|] eqn:E; [|done]. assert (zlen (e :: es) = 1 + zlen es) as He by (simpl; lia).
    apply IH; [|eapply quota_step_ok; [|exact Hq|exact E]; lia].
    assert (zlen (qt_threads q1) <= zlen (qt_threads q0) + 1); [|lia].
    destruct e; simpl in E; repeat case_match; simplify_eq; simpl; rewrite ?length_insert, ?length_app; simpl; lia. }
  intros Hl Hr. apply (Hgo es quota_start); [simpl; lia|done|exact Hr].
Qed.

(** A call that is being refused counts: the next one can be refused although a subscription was destroyed in between. *)
Lemma refused_below_quota :
  let live := flat_map (fun i => [QCall; QAcquire i; QDisarm i]) (seq 0 64) in
  exists q, quota_run (live ++ [QCall; QCall; QAcquire 64; QDestroy 0; QDestroyed 0; QAcquire 65]) quota_start = Some q /\
    qt_threads q !! 65%nat = Some Refused /\ count_of subscribed (qt_threads q) = 63.
Proof. eexists. split; [vm_compute; reflexivity|]. by vm_compute. Qed.

(** A call waits for the others before its own time starts. *)
Lemma next_waits_longer {E : Type} (timeout_ms lock_wait : Z) (recv : Z -> received_event E * Z) :
  recv timeout_ms = (RElapsed, timeout_ms) -> hs_subscription_next 1 timeout_ms lock_wait recv = (Ok NTimeout, lock_wait + timeout_ms).
Proof. intros Hr. unfold hs_subscription_next. by rewrite Hr. Qed.

(** ** Requests *)

(** The interface refuses exactly the limits the application refuses. *)
Theorem page_request_agrees (raw : MediaPageRequestRaw) (op : string) :
  match parse_page_request (Ok raw) op with
  | Ok Full => pr_limit raw = None /\ pr_cursor raw = None
  | Ok (Page cursor limit) => cursor = pr_cursor raw /\ limit = pr_limit raw /\ exists n, validate_page_limit limit = Ok n
  | Err _ => exists e, validate_page_limit (pr_limit raw) = Err e
  end.
Proof.
  unfold parse_page_request, validate_page_limit, MEDIA_PAGE_MAX_LIMIT, MEDIA_PAGE_DEFAULT_LIMIT.
  destruct raw as [[limit|] [cursor|]]; simpl; try done.
  1, 2: destruct (limit =? 0) eqn:E0; simpl; [by eexists|]; destruct (limit >? 1000) eqn:E1; simpl; [by eexists|];
    rewrite ?E0, ?E1; split_and!; [done..|by eexists].
  split_and!; try done. by exists 500.
Qed.

Lemma string_all_filter (f : ascii -> bool) (s : string) : string_all f s = true -> string_filter f s = s.
Proof. induction s as [|c s IH]; simpl; [done|]. intros [-> Hs]%andb_true_iff. by rewrite IH. Qed.

Lemma normalize_device_uuid_ok (raw uuid : string) :
  normalize_device_uuid raw = Some uuid -> uuid <> "" /\ str_len uuid <= 128 /\ string_all uuid_char uuid = true /\
    uuid = default raw (str_strip_prefix "phone:" raw).
Proof.
  unfold normalize_device_uuid, FFI_MAX_ID_LEN. case_bool_decide as He; [done|]. simpl.
  destruct (_ >? 128) eqn:El; [done|]. destruct (string_all _ _) eqn:Ea; [|done]. intros [= <-]. split_and!; [done|lia|done|done].
Qed.

Lemma no_phone_prefix (s : string) : string_all uuid_char s = true -> str_strip_prefix "phone:" s = None.
Proof.
  intros Hs. destruct s as [|a [|b [|c [|d [|e [|g s]]]]]]; simpl; repeat (case_bool_decide; [|done]); try done. subst. done.
Qed.

Lemma uuid_no_control (s : string) : string_all uuid_char s = true -> has_control s = false.
Proof.
  induction s as [|c s IH]; simpl; [done|]. intros [Hc Hs]%andb_true_iff. rewrite IH by done. rewrite orb_false_r.
  destruct c as [[] [] [] [] [] [] [] []]; by vm_compute in Hc |- *.
Qed.

(** A profile that is accepted has an identifier of its device the ledger keeps as it is and the engine accepts, with or without
    the prefix; what was left out is the default. *)
Theorem parse_profile_sound (session_id : Z) (value : json_object) (op : string) (p : SyncProfileDto) :
  parse_profile session_id (Ok value) op = Ok p ->
  sanitize_device_uuid (sp_device_uuid p) = sp_device_uuid p /\
  normalize_device_uuid (sp_device_uuid p) = Some (sp_device_uuid p) /\
  normalize_device_uuid ("phone:" +:+ sp_device_uuid p) = Some (sp_device_uuid p) /\
  check_id "device_uuid" (sp_device_uuid p) = Ok () /\
  sp_id p <> "" /\ str_len (sp_id p) <= 128 /\ sp_local_root p <> "" /\ sp_remote_root p <> "" /\ sp_session_id p = session_id /\
  (js_str value "id" = None -> sp_id p = sp_device_uuid p) /\ (js_str value "remote_root" = None -> sp_remote_root p = DEFAULT_SYNC_ROOT).
Proof.
  unfold parse_profile. destruct (js_str value "device_uuid" ≫= normalize_device_uuid) as [u|] eqn:Eu; [|done].
  apply bind_Some in Eu as (raw & _ & Hu). destruct (normalize_device_uuid_ok _ _ Hu) as (Hne & Hl & Ha & _).
  destruct (bounded FFI_MAX_PATH_LEN (js_str value "local_root")) as [local|] eqn:El; [|done]. intros [= <-]. simpl.
  assert (forall r, default r (str_strip_prefix "phone:" r) = u -> normalize_device_uuid r = Some u) as Hn.
  { intros r Hr. unfold normalize_device_uuid, FFI_MAX_ID_LEN. rewrite Hr, bool_decide_eq_false_2 by done.
    replace (str_len u >? 128) with false by lia. by rewrite Ha. }
  assert (forall l s x, bounded l s = Some x -> x <> "" /\ str_len x <= l) as Hb.
  { intros l [s|] x; simpl; [|done]. case_bool_decide; [done|]. simpl. destruct (str_len s <=? l) eqn:E; [|done]. intros [= <-]. split; [done|lia]. }
  split_and!; try done.
  - unfold sanitize_device_uuid. by apply (string_all_filter uuid_char).
  - apply Hn. by rewrite no_phone_prefix.
  - by apply Hn.
  - unfold check_id, MAX_ID_LEN. rewrite bool_decide_eq_false_2 by done. replace (128 <? str_len u) with false by lia. by rewrite uuid_no_control.
  - destruct (bounded FFI_MAX_ID_LEN (js_str value "id")) eqn:E; [|done]. by apply Hb in E as [].
  - destruct (bounded FFI_MAX_ID_LEN (js_str value "id")) eqn:E; [|done]. unfold FFI_MAX_ID_LEN in E. by apply Hb in E as [].
  - by apply Hb in El as [].
  - destruct (bounded FFI_MAX_PATH_LEN (js_str value "remote_root")) eqn:E; [|done]. by apply Hb in E as [].
  - intros ->. done.
  - intros ->. done.
Qed.

(** A remote root that is too long is not refused: the camera folder is synchronised instead. *)
Lemma long_root_replaced (uuid long : string) :
  normalize_device_uuid uuid = Some uuid -> FFI_MAX_PATH_LEN < str_len long ->
  exists p, parse_profile 1 (Ok (mkJson (fun k => if bool_decide (k = "device_uuid") then Some uuid
              else if bool_decide (k = "local_root") then Some "/photos" else if bool_decide (k = "remote_root") then Some long else None)
              (fun _ => None))) "sync.plan" = Ok p /\ sp_remote_root p = DEFAULT_SYNC_ROOT.
Proof.
  intros Hu Hl. unfold parse_profile. simpl. rewrite Hu. eexists. split; [reflexivity|]. simpl.
  replace (str_len long <=? FFI_MAX_PATH_LEN) with false by lia. by rewrite andb_false_r.
Qed.
