(* ===== verification/Serde.v ===== *)
(** * JSON as serde reads and writes it

    What the derived [Deserialize] and [Serialize] implementations of the crates make of a JSON
    value; the text itself is serde_json's, a parameter.  A struct is read from an object, where a
    field given twice is an error and an unknown one is skipped or refused, or from an array of its
    fields in order, which the derived visitors accept as well. *)

From Stdlib Require Import Strings.String Strings.Ascii.
From stdpp Require Import gmap strings.
From S2P Require Import Prelude Errors AppErrors Handshake.

#[local] Open Scope string_scope.
#[local] Open Scope list_scope.
#[local] Open Scope Z_scope.

(** A parsed text.  [JInt] is a number without fraction or exponent in the range of an [i64] or [u64], [JFloat] any
    other one; [JOpaque] is text that serde_json skips but does not read, such as a number that overflows. *)
Inductive jvalue :=
  | JNull
  | JBool (b : bool)
  | JInt (z : Z)
  | JFloat
  | JString (s : string)
  | JArray (items : list jvalue)
  | JObject (members : list (string * jvalue))
  | JOpaque.

(** serde_json: the parsed text (the members of an object in order, with what is repeated), the error of reading a
    text as a type, and the text of a value. *)
Class SerdeJson := {
  parse_text : string -> option jvalue;
  serde_error : string -> string;
  print_json : jvalue -> result string string
}.

(** ** Reading *)

Abbreviation decode T := (jvalue -> option T).

Definition as_bool : decode bool := fun v => match v with JBool b => Some b | _ => None end.
Definition as_string : decode string := fun v => match v with JString s => Some s | _ => None end.
Definition as_int (lo hi : Z) : decode Z :=
  fun v => match v with JInt z => if (lo <=? z) && (z <=? hi) then Some z else None | _ => None end.
Definition as_u8 : decode Z := as_int 0 (2 ^ 8 - 1).
Definition as_u16 : decode Z := as_int 0 (2 ^ 16 - 1).
Definition as_u32 : decode Z := as_int 0 (2 ^ 32 - 1).
Definition as_u64 : decode Z := as_int 0 (2 ^ 64 - 1).
Definition as_i64 : decode Z := as_int (- 2 ^ 63) (2 ^ 63 - 1).
Definition as_option {T} (d : decode T) : decode (option T) :=
  fun v => match v with JNull => Some None | _ => Some <$> d v end.
Definition as_vec {T} (d : decode T) : decode (list T) :=
  fun v => match v with JArray items => mapM d items | _ => None end.

(** A variant without fields: its name, or an object with the name and [null]. *)
Definition as_variant {T} (name : string -> option T) : decode T :=
  fun v => match v with
           | JString s => name s
           | JObject [(s, JNull)] => name s
           | _ => None
           end.

(** What a field does when an object does not have it ([Nothing]: an [Option]), or an array ends before it. *)
Inductive absence := Required | Nothing | Defaulted.

Definition field := (string * absence)%type.

Definition tolerates_object (a : absence) : bool := match a with Required => false | _ => true end.
Definition tolerates_array (a : absence) : bool := match a with Defaulted => true | _ => false end.

(** The values of a key, in order. *)
Definition given (k : string) (members : list (string * jvalue)) : list jvalue :=
  snd <$> filter (fun m => m.1 = k) members.

Definition object_field (members : list (string * jvalue)) (f : field) : option (option jvalue) :=
  match given f.1 members with
  | [] => if tolerates_object f.2 then Some None else None
  | [v] => Some (Some v)
  | _ => None
  end.

Fixpoint array_fields (fields : list field) (items : list jvalue) : option (list (option jvalue)) :=
  match fields, items with
  | [], [] => Some []
  | [], _ :: _ => None
  | _ :: fields, v :: items => cons (Some v) <$> array_fields fields items
  | f :: fields, [] => if tolerates_array f.2 then cons None <$> array_fields fields [] else None
  end.

(** The fields of a struct; [deny] is [deny_unknown_fields]. *)
Definition struct_fields (deny : bool) (fields : list field) (v : jvalue) : option (list (option jvalue)) :=
  match v with
  | JObject members =>
      if deny && negb (forallb (fun m => bool_decide (m.1 ∈ fields.*1)) members) then None
      else mapM (object_field members) fields
  | JArray items => array_fields fields items
  | _ => None
  end.

Definition required {T} (d : decode T) (v : option jvalue) : option T := v ≫= d.
Definition optional {T} (d : decode T) (v : option jvalue) : option (option T) :=
  match v with Some v => as_option d v | None => Some None end.
Definition defaulted {T} (dflt : T) (d : decode T) (v : option jvalue) : option T :=
  match v with Some v => d v | None => Some dflt end.

(** [serde_json::from_str] *)
Definition from_text `{SerdeJson} {T} (d : decode T) (s : string) : result string T :=
  match parse_text s ≫= d with
  | Some x => Ok x
  | None => Err (serde_error s)
  end.

(** [serde_json::Value]: everything in it is read, and of a key that is repeated the last value stays. *)
Fixpoint readable (v : jvalue) : bool :=
  match v with
  | JOpaque => false
  | JArray items => forallb readable items
  | JObject members => forallb (fun m => readable m.2) members
  | _ => true
  end.

Definition as_value : decode jvalue := fun v => if readable v then Some v else None.

Definition value_get (k : string) (v : jvalue) : option jvalue :=
  match v with JObject members => last (given k members) | _ => None end.

(** ** Writing *)

Definition json_option {T} (f : T -> jvalue) (x : option T) : jvalue := match x with Some x => f x | None => JNull end.
Definition json_list {T} (f : T -> jvalue) (xs : list T) : jvalue := JArray (f <$> xs).

(** A value serde_json can have written from integers, strings, lists and structs. *)
Fixpoint printable (v : jvalue) : bool :=
  match v with
  | JNull | JBool _ | JString _ => true
  | JInt z => (- 2 ^ 63 <=? z) && (z <? 2 ^ 64)
  | JArray items => forallb printable items
  | JObject members => forallb (fun m => printable m.2) members
  | JFloat | JOpaque => false
  end.

Fixpoint depth (v : jvalue) : nat :=
  match v with
  | JArray items => S (foldr (fun v n => Nat.max (depth v) n) O items)
  | JObject members => S (foldr (fun m n => Nat.max (depth m.2) n) O members)
  | _ => O
  end.

(** serde_json writes such a value and reads it back, unless it is nested too deep; it never writes an empty text. *)
Class SerdeLaw `{SerdeJson} := {
  print_not_empty : forall v s, print_json v = Ok s -> s <> "";
  print_parse : forall v, printable v = true -> (depth v < 128)%nat -> exists s, print_json v = Ok s /\ parse_text s = Some v
}.

(** ** Lemmas *)

Lemma object_field_perm (m1 m2 : list (string * jvalue)) (f : field) :
  m1 ≡ₚ m2 -> object_field m1 f = object_field m2 f.
Proof.
  intros Hp. unfold object_field. assert (given f.1 m1 ≡ₚ given f.1 m2) as H by (unfold given; by rewrite Hp).
  destruct (given f.1 m1) as [|v [|w l]] eqn:E1.
  - apply Permutation_nil in H. by rewrite H.
  - apply Permutation_length_1_inv in H. by rewrite H.
  - pose proof (Permutation_length H) as Hl. destruct (given f.1 m2) as [|v' [|w' l']]; simpl in Hl; [lia|lia|done].
Qed.

(** The order of the members does not matter. *)
Lemma struct_fields_perm (deny : bool) (fields : list field) (m1 m2 : list (string * jvalue)) :
  m1 ≡ₚ m2 -> struct_fields deny fields (JObject m1) = struct_fields deny fields (JObject m2).
Proof.
  intros Hp. unfold struct_fields.
  assert (forall f : string * jvalue -> bool, forallb f m1 = forallb f m2) as Hf.
  { intros f. apply eq_true_iff_eq. rewrite <- !Is_true_true, !forallb_True. by rewrite Hp. }
  rewrite Hf. destruct (_ && _); [done|]. induction fields as [|f fields IH]; [done|]. simpl.
  by rewrite (object_field_perm _ _ f Hp), IH.
Qed.

Lemma as_int_some (lo hi z : Z) : lo <= z <= hi -> as_int lo hi (JInt z) = Some z.
Proof. intros Hz. unfold as_int. replace ((lo <=? z) && (z <=? hi)) with true by lia. done. Qed.

(** Members that no field names are skipped. *)
Lemma struct_fields_extra (fields : list field) (members extra : list (string * jvalue)) :
  Forall (fun m => m.1 ∉ fields.*1) extra -> struct_fields false fields (JObject (members ++ extra)) = struct_fields false fields (JObject members).
Proof.
  intros He. simpl. induction fields as [|f fields IH]; [done|]. simpl.
  assert (given f.1 (members ++ extra) = given f.1 members) as Hg.
  { unfold given. rewrite filter_app. assert (filter (fun m => m.1 = f.1) extra = []) as ->; [|by rewrite app_nil_r].
    clear -He. induction He as [|m extra Hm He IH]; [done|]. rewrite filter_cons_False by set_solver. done. }
  assert (object_field (members ++ extra) f = object_field members f) as -> by (unfold object_field; by rewrite Hg).
  rewrite IH; [done|]. eapply Forall_impl; [exact He|]. simpl. set_solver.
Qed.

(** A field that is a struct must not read [null]. *)
Lemma as_option_json {T} (d : decode T) (f : T -> jvalue) (x : option T) :
  (forall y, x = Some y -> d (f y) = Some y /\ f y <> JNull) -> as_option d (json_option f x) = Some x.
Proof.
  destruct x as [y|]; simpl; [|done]. intros H. destruct (H y eq_refl) as [Hd Hn].
  unfold as_option. destruct (f y) eqn:E; try done; by rewrite Hd.
Qed.

Lemma as_option_string (x : option string) : as_option as_string (json_option JString x) = Some x.
Proof. by destruct x. Qed.
