(* ===== verification/AppRequests.v ===== *)
(** * The requests of the application

    crates/handshaker-application/src/runtime.rs: [connect] registers the session of a new client;
    [request] runs a call of the client of a session and notices when the connection is lost; the
    operations on files, the clipboard and the media libraries go through it.  Pages of a library are
    cut from snapshots that are kept.  Single transfers, blocking batches, and the ledgers a runtime
    can list. *)

From Stdlib Require Import Strings.String Strings.Ascii.
From stdpp Require Import gmap.
From S2P Require Import Prelude Errors AppErrors Domain Frame Handshake Proto Session Text Paths Fs FsLogic SyncStore ClientProto Client ClientTransfer Exif Usb Adb EventHub Transfer Devices TrustStore WifiHandshake Discovery SyncRun RemotePath FilePlan PlanRun MediaDto MediaPage MediaPageProps Runtime.

#[local] Open Scope string_scope.
#[local] Open Scope list_scope.
#[local] Open Scope Z_scope.

(** The runtime, and the client of each of its sessions. *)
Record App := mkApp { ap_runtime : Runtime; ap_clients : Z -> HandShakerClient }.

Definition set_client (id : Z) (c : HandShakerClient) (clients : Z -> HandShakerClient) : Z -> HandShakerClient :=
  fun i => if i =? id then c else clients i.

(** [record_activity] of a session that is still in the table. *)
Definition touch (id now : Z) (rt : Runtime) : Runtime :=
  match rt_sessions rt !! id with
  | Some s => on_sessions (insert id (record_activity now s)) rt
  | None => rt
  end.

(** [session_client_arc]: the client, if the session is there and ready. *)
Definition session_client (id : Z) (a : App) : AppResult HandShakerClient :=
  match session_handle id (ap_runtime a) with Ok _ => Ok (ap_clients a id) | Err e => Err e end.

(** ** What the runtime is configured with *)

Record RuntimeConfig := mkRuntimeConfig {
  rc_adb_path : path; rc_default_timeout_ms : Z; rc_heartbeat_interval_ms : Z; rc_host_name : option string;
  rc_state_dir : option path; rc_wire_log : option path; rc_wire_log_payload : bool; rc_event_capacity : Z;
  rc_transfer_history_capacity : Z; rc_transfer_history_ttl_ms : option Z }.

Definition RuntimeConfig_default : RuntimeConfig := mkRuntimeConfig "adb" 30000 10000 None None None false 1024 64 None.

Definition client_options (c : RuntimeConfig) : ClientOptions :=
  mkClientOptions (rc_default_timeout_ms c) (rc_heartbeat_interval_ms c) (rc_host_name c) (rc_wire_log c) (rc_wire_log_payload c)
    (rc_adb_path c).

(** [ProjectDirs::from], if the platform has a place for configuration. *)
Definition default_config_dir (project_dirs : option path) : Res path :=
  ok_or project_dirs (EConfiguration (Msg "state.config_dir_missing" [])).
Definition StateStore_discover (project_dirs : option path) : Res StateStore :=
  let? dir := ok_or project_dirs (EConfiguration (Msg "state.config_dir_missing" [])) in Ok (from_dir dir).

Definition state_store (project_dirs : option path) (c : RuntimeConfig) : AppResult StateStore :=
  match rc_state_dir c with
  | Some dir => Ok (from_dir dir)
  | None => map_err (fun e => from_core_error e "state_store") (StateStore_discover project_dirs)
  end.

Definition sync_config_dir (project_dirs : option path) (c : RuntimeConfig) : AppResult path :=
  match rc_state_dir c with
  | Some dir => Ok dir
  | None => map_err (fun e => from_core_error e "sync.store") (default_config_dir project_dirs)
  end.

Definition sync_store_for `{Crypto} (project_dirs : option path) (c : RuntimeConfig) (canonical : option path) (profile : SyncProfileDto)
  : AppResult SyncStore :=
  let identity := sync_identity_for canonical profile in
  match sync_config_dir project_dirs c with Ok dir => Ok (discover dir identity) | Err e => Err e end.

(** ** Connecting *)

(** When the session is inserted and told, and what the others do to the runtime before. *)
Record ConnectTime := mkConnectTime {
  cn_inserted : Z; cn_told : Z; cn_meanwhile : Runtime -> Runtime; cn_between : Runtime -> Runtime }.

Section Connect.
Context `{Crypto} `{ProtoCodec} `{ClientCodec} `{Json State} `{UsbText} `{AdbServer}.
Context (debug_str parse_error : string -> string) (render : message -> string).
Context (project_dirs : option path) (parse_address : string -> option string).

(** The session of the answer, and what its client holds besides itself. *)
Definition app_connect (c : RuntimeConfig) (device : DeviceDescriptor) (w : ConnectWorld) (t : ConnectTime) (a : App) (s : adb_state)
  : io (option (AppResult Z * App * option (SessionKeys * TransportCleanup) * adb_state)) :=
  let refused e := mret (Some (Err e, a, None, s)) in
  match ensure_open (ap_runtime a) with
  | Err e => refused e
  | Ok _ =>
      match connection_target_for parse_address device with
      | Err e => refused e
      | Ok target =>
          let options := client_options c in
          match state_store project_dirs c with
          | Err e => refused e
          | Ok store =>
              let* connected := connect_with_state debug_str parse_error render target options store
                                  (mkEventCallbacks true true true true) w s in
              mret (match connected with
                    | None => None
                    | Some (outcome, s) =>
                        let rt := cn_meanwhile t (ap_runtime a) in
                        match outcome with
                        | Err e => Some (Err (from_core_error e "connect"), mkApp rt (ap_clients a), None, s)
                        | Ok (keys, client, cleanup) =>
                            match insert_session device (device_info_to_dto (hc_device client)) (cn_inserted t) rt with
                            | (Err e, rt) => Some (Err e, mkApp rt (ap_clients a), None, drop_cleanup (co_adb_path options) cleanup s)
                            | (Ok id, rt) =>
                                let clients := set_client id client (ap_clients a) in
                                let rt := cn_between t rt in
                                let held := Some (keys, cleanup) in
                                match get_session_snapshot id rt with
                                | Err e => Some (Err e, mkApp rt clients, held, s)
                                | Ok snapshot =>
                                    Some (Ok id, mkApp (publish_backend (SessionStateChanged snapshot) (cn_told t) rt) clients, held, s)
                                end
                            end
                        end
                    end)
          end
      end
  end.
End Connect.

(** When a call returns, and what the others do to the runtime while it waits. *)
Record CallTime := mkCallTime { ct_now : Z; ct_meanwhile : Runtime -> Runtime }.

Section Requests.
Context `{HashOrder}.

Definition request {T} (id : Z) (op : string) (call : client T) (t : CallTime) (a : App) : AppResult T * App :=
  match ensure_open (ap_runtime a) with
  | Err e => (Err e, a)
  | Ok _ =>
      match session_client id a with
      | Err e => (Err e, a)
      | Ok c =>
          let (outcome, c) := call c in
          let rt := touch id (ct_now t) (ct_meanwhile t (ap_runtime a)) in
          let clients := set_client id c (ap_clients a) in
          match outcome with
          | Ok value => (Ok value, mkApp rt clients)
          | Err error =>
              let public := from_core_error error op in
              (Err public, mkApp (if connection_lost_code (pe_code public) then mark_connection_lost id (ct_now t) rt else rt) clients)
          end
      end
  end.

(** [Result::map] of what a client answers, and calls with the root of the device. *)
Definition client_map {A B} (f : A -> B) (m : client A) : client B := client_bind m (fun x => client_ret (Ok (f x))).
Definition with_root {A} (k : string -> client A) : client A := fun c => k (root_path c) c.

Section Operations.
Context `{Crypto} `{ProtoCodec} `{ClientCodec} (keys : SessionKeys).

(** ** Files *)

Definition app_ping (id clock elapsed_ms : Z) (ra : RequestAnswers) : CallTime -> App -> AppResult Z * App :=
  request id "ping" (client_map (fun r => r.1.1 mod 2 ^ 64) (ping keys clock elapsed_ms ra)).

Definition list_files (id : Z) (p : string) (depth : Z) (ra : RequestAnswers) : CallTime -> App -> AppResult (list FileEntryDto) * App :=
  request id "list_files" (with_root (fun root =>
    client_map (fmap remote_file_to_dto) (list_dir keys (resolve_remote_path root p) depth ra))).

Definition count_files (id : Z) (p : string) (depth : Z) (exclusions : list string) (ra : RequestAnswers)
  : CallTime -> App -> AppResult Z * App :=
  request id "count_files" (with_root (fun root => file_count keys (resolve_remote_path root p) depth exclusions ra)).

Definition app_stat_file (id : Z) (p : string) (ra : RequestAnswers) : CallTime -> App -> AppResult (option FileEntryDto) * App :=
  request id "stat_file" (with_root (fun root =>
    client_map (fmap remote_file_to_dto) (stat keys (resolve_remote_path root p) ra))).

Definition app_monitor_folder (id : Z) (p : string) (enabled : bool) (ra : RequestAnswers) : CallTime -> App -> AppResult unit * App :=
  request id "monitor_folder" (with_root (fun root => monitor_folder keys (resolve_remote_path root p) enabled ra)).

Definition create_directory (id : Z) (p : string) (ra : RequestAnswers) : CallTime -> App -> AppResult unit * App :=
  request id "create_directory" (with_root (fun root =>
    client_map (fun _ => ()) (create_dir keys (resolve_remote_path root p) ra))).

Definition move_path (id : Z) (source target : string) (ra : RequestAnswers) : CallTime -> App -> AppResult unit * App :=
  request id "move_path" (with_root (fun root =>
    rename keys (resolve_remote_path root source) (resolve_remote_path root target) ra)).

Definition app_delete_paths (id : Z) (paths : list string) (trash sync : bool) (ra : RequestAnswers)
  : CallTime -> App -> AppResult (list FileEntryDto) * App :=
  request id "delete_paths" (with_root (fun root =>
    client_map (fmap remote_file_to_dto) (delete_paths keys (resolve_remote_path root <$> paths) trash sync ra))).

Record UpdateFileInfoItemDto := mkUpdateItem {
  ui_path : string; ui_size : Z; ui_created_at : option Z; ui_modified_at : option Z; ui_is_directory : bool;
  ui_checksum : option string; ui_is_trash : option bool; ui_id : option Z; ui_ext_data : option string }.

Definition dto_to_remote_file (item : UpdateFileInfoItemDto) : RemoteFile :=
  mkRemoteFile (ui_path item) (ui_size item) (ui_created_at item) (ui_modified_at item) (ui_is_directory item)
    (ui_checksum item) (ui_is_trash item) (ui_id item) (ui_ext_data item).

Definition app_update_files_info (id : Z) (files : list UpdateFileInfoItemDto) (is_sync : bool) (ra : RequestAnswers)
  : CallTime -> App -> AppResult bool * App :=
  request id "update_file_info" (update_files_info keys (dto_to_remote_file <$> files) is_sync ra).

(** ** Clipboard *)

Definition clipboard_entry_dto (entry : ClipboardEntry) : ClipboardEntryDto :=
  mkClipboardEntryDto (ce_text entry) (ce_timestamp_ms entry).

Definition list_clipboards (id : Z) (ra : RequestAnswers) : CallTime -> App -> AppResult (list ClipboardEntryDto) * App :=
  request id "list_clipboards" (client_map (fmap clipboard_entry_dto) (clipboard_list keys ra)).

Definition set_clipboard (id : Z) (text : string) (clock : Z) (ra : RequestAnswers) : CallTime -> App -> AppResult unit * App :=
  request id "set_clipboard" (clipboard_set keys text clock ra).

Definition delete_clipboard (id timestamp_ms : Z) (ra rb : RequestAnswers) : CallTime -> App -> AppResult unit * App :=
  request id "delete_clipboard" (clipboard_delete keys timestamp_ms ra rb).

Definition clear_clipboards (id : Z) (ra : RequestAnswers) : CallTime -> App -> AppResult unit * App :=
  request id "clear_clipboards" (clipboard_clear keys ra).

(** ** Media *)

Definition app_map {A B} (f : A -> B) (r : AppResult A * App) : AppResult B * App :=
  (match r.1 with Ok x => Ok (f x) | Err e => Err e end, r.2).

Definition app_photo_library (id : Z) (ra : RequestAnswers) (t : CallTime) (a : App) : AppResult PhotoLibraryDto * App :=
  app_map strip_photo_thumbnails (request id "get_photo_library" (client_map PhotoLibraryDto_from (get_photo_library keys ra)) t a).

Definition app_video_library (id : Z) (ra : RequestAnswers) (t : CallTime) (a : App) : AppResult VideoLibraryDto * App :=
  app_map strip_video_thumbnails (request id "get_video_library" (client_map VideoLibraryDto_from (get_video_library keys ra)) t a).

Definition app_audio_library (id : Z) (ra : RequestAnswers) (t : CallTime) (a : App) : AppResult AudioLibraryDto * App :=
  app_map strip_audio_thumbnails (request id "get_audio_library" (client_map AudioLibraryDto_from (get_audio_library keys ra)) t a).

Definition app_thumbnails (id : Z) (images : list ImageFileDto) (videos : list VideoFileDto) (audio_albums : list AudioAlbumDto)
    (ra : RequestAnswers) : CallTime -> App -> AppResult ThumbnailsDto * App :=
  request id "get_thumbnails" (client_map (fun r => ThumbnailsDto_from (mkThumbnails r.1.1 r.1.2 r.2))
    (get_thumbnails keys (dto_to_image_file <$> images) (dto_to_video_file <$> videos) (dto_to_audio_album <$> audio_albums) ra)).
End Operations.

(** ** Pages of the libraries *)

Inductive MediaSnapshotEntry := EntryPhoto (l : PhotoLibraryDto) | EntryVideo (l : VideoLibraryDto) | EntryAudio (l : AudioLibraryDto).

Definition photo_entry (e : MediaSnapshotEntry) : option PhotoLibraryDto := match e with EntryPhoto l => Some l | _ => None end.
Definition video_entry (e : MediaSnapshotEntry) : option VideoLibraryDto := match e with EntryVideo l => Some l | _ => None end.
Definition audio_entry (e : MediaSnapshotEntry) : option AudioLibraryDto := match e with EntryAudio l => Some l | _ => None end.

(** When the snapshots are looked at and when one is kept, and what the others do to them in between. *)
Record SnapshotTime := mkSnapshotTime {
  sn_before : Z; sn_after : Z; sn_meanwhile : MediaCache MediaSnapshotEntry -> MediaCache MediaSnapshotEntry }.

(** The snapshots and the rest of the application. *)
Definition Snapshots : Type := MediaCache MediaSnapshotEntry * App.

Definition cached_of {L} (key : MediaSnapshotKey) (unwrap : MediaSnapshotEntry -> option L) (wrap : L -> MediaSnapshotEntry)
    (fetch : App -> AppResult L * App) (n : SnapshotTime) (s : Snapshots) : AppResult L * Snapshots :=
  match cached_library key (sn_before n) s.1 ≫= unwrap with
  | Some snapshot => (Ok snapshot, s)
  | None =>
      let epoch := media_epoch s.1 in
      let (library, a) := fetch s.2 in
      let c := sn_meanwhile n s.1 in
      match library with
      | Err e => (Err e, (c, a))
      | Ok library => (Ok library, (keep_library key epoch (sn_after n) (wrap library) c, a))
      end
  end.

Definition paged {L} (limit : option Z) (page : nat -> L -> L) (cached : Snapshots -> AppResult L * Snapshots) (s : Snapshots)
  : AppResult L * Snapshots :=
  match validate_page_limit limit with
  | Err e => (Err e, s)
  | Ok limit =>
      let (full, s) := cached s in
      (match full with Ok full => Ok (page (Z.to_nat limit) full) | Err e => Err e end, s)
  end.

Section Pages.
Context `{Crypto} `{ProtoCodec} `{ClientCodec} (keys : SessionKeys).

Definition fetch_photo_library (id : Z) (ra : RequestAnswers) (t : CallTime) (a : App) : AppResult PhotoLibraryDto * App :=
  app_map strip_photo_thumbnails (request id "get_photo_library" (client_map PhotoLibraryDto_from (get_photo_library keys ra)) t a).

Definition cached_photo_library (id : Z) (ra : RequestAnswers) (t : CallTime) : SnapshotTime -> Snapshots -> AppResult PhotoLibraryDto * Snapshots :=
  cached_of (id, SnapshotPhoto) photo_entry EntryPhoto (fetch_photo_library id ra t).

Definition cached_video_library (id : Z) (ra : RequestAnswers) (t : CallTime) : SnapshotTime -> Snapshots -> AppResult VideoLibraryDto * Snapshots :=
  cached_of (id, SnapshotVideo) video_entry EntryVideo
    (request id "get_video_library" (client_map VideoLibraryDto_from (get_video_library keys ra)) t).

Definition cached_audio_library (id : Z) (ra : RequestAnswers) (t : CallTime) : SnapshotTime -> Snapshots -> AppResult AudioLibraryDto * Snapshots :=
  cached_of (id, SnapshotAudio) audio_entry EntryAudio
    (request id "get_audio_library" (client_map AudioLibraryDto_from (get_audio_library keys ra)) t).

Definition photo_page (cursor : option Z) (limit : nat) (full : PhotoLibraryDto) : PhotoLibraryDto :=
  let (images, next_cursor) := slice_page imd_media_id (pld_images full) cursor limit in
  mkPhotoLibraryDto images (pld_albums full) (pld_camera_album_id full) next_cursor.

Definition video_page (cursor : option Z) (limit : nat) (full : VideoLibraryDto) : VideoLibraryDto :=
  let (videos, next_cursor) := slice_page vdd_media_id (vld_videos full) cursor limit in
  mkVideoLibraryDto videos (vld_albums full) next_cursor.

Definition audio_page (cursor : option Z) (limit : nat) (full : AudioLibraryDto) : AudioLibraryDto :=
  let (tracks, next_cursor) := slice_page afd_media_id (ald_tracks full) cursor limit in
  mkAudioLibraryDto tracks (ald_albums full) next_cursor.

Definition get_photo_library_page (id : Z) (cursor limit : option Z) (ra : RequestAnswers) (t : CallTime) (n : SnapshotTime)
  : Snapshots -> AppResult PhotoLibraryDto * Snapshots :=
  paged limit (photo_page cursor) (cached_photo_library id ra t n).

Definition get_video_library_page (id : Z) (cursor limit : option Z) (ra : RequestAnswers) (t : CallTime) (n : SnapshotTime)
  : Snapshots -> AppResult VideoLibraryDto * Snapshots :=
  paged limit (video_page cursor) (cached_video_library id ra t n).

Definition get_audio_library_page (id : Z) (cursor limit : option Z) (ra : RequestAnswers) (t : CallTime) (n : SnapshotTime)
  : Snapshots -> AppResult AudioLibraryDto * Snapshots :=
  paged limit (audio_page cursor) (cached_audio_library id ra t n).
End Pages.

(** ** EXIF *)

Record ExifDataDto := mkExifDataDto {
  exd_orientation : option Z; exd_date_taken : option Z; exd_latitude : option string; exd_longitude : option string;
  exd_make : option string; exd_model : option string; exd_software : option string; exd_lens_model : option string;
  exd_focal_length : option f64; exd_exposure_time : option f64; exd_f_number : option f64; exd_iso : option Z }.

Definition ExifDataDto_from (data : ExifData) : ExifDataDto :=
  {| exd_orientation := ex_orientation data; exd_date_taken := ex_date_taken data; exd_latitude := ex_latitude data;
     exd_longitude := ex_longitude data; exd_make := ex_make data; exd_model := ex_model data; exd_software := ex_software data;
     exd_lens_model := ex_lens_model data; exd_focal_length := ex_focal_length data;
     exd_exposure_time := ex_exposure_time data; exd_f_number := ex_f_number data; exd_iso := ex_iso data |}.

Section Exif.
Context `{Crypto} `{ProtoCodec} `{ClientCodec} `{Kamadak} (keys : SessionKeys).

Definition fetch_exif (path : string) (a : DownloadAnswers) : client ExifData :=
  client_bind (download_bytes keys path EXIF_FETCH_LIMIT a) (fun bytes => client_ret (exif_from_bytes bytes)).

Definition app_fetch_exif (id : Z) (path : string) (a : DownloadAnswers) : CallTime -> App -> AppResult ExifDataDto * App :=
  request id "fetch_exif" (client_map ExifDataDto_from (fetch_exif path a)).
End Exif.

(** ** Single transfers *)

(** A file to bring over, and where it goes. *)
Record TransferRequest := mkTransferRequest {
  tq_session_id : Z; tq_local_path : path; tq_remote_path : string; tq_overwrite : bool }.

(** Registered, and its task spawned as [task] and published; its source and destination as they are shown.  The launch gate,
    which this holds, is part of the steps of Runtime.v. *)
Definition start_single (direction : TransferDirectionDto) (shown : TransferRequest -> string -> string * string)
    (q : TransferRequest) (task now : Z) (a : App) : AppResult Z * App :=
  if rt_shutting (ap_runtime a) then (Err (operation "transfer.start" (public_new RuntimeClosed "runtime is shutting down")), a)
  else
    match session_client (tq_session_id q) a with
    | Err e => (Err e, a)
    | Ok c =>
        let rt := touch (tq_session_id q) now (ap_runtime a) in
        let (source, destination) := shown q (resolve_remote_path (root_path c) (tq_remote_path q)) in
        let (id, rt) := begin_launch (mkLaunch (tq_session_id q) direction source destination) now rt in
        (Ok id, mkApp (on_registry (Transfer.call (CallPublished id task) now) rt) (ap_clients a))
    end.

Definition start_download : TransferRequest -> Z -> Z -> App -> AppResult Z * App :=
  start_single Download (fun q remote => (remote, tq_local_path q)).
Definition start_upload : TransferRequest -> Z -> Z -> App -> AppResult Z * App :=
  start_single Upload (fun q remote => (tq_local_path q, remote)).

(** The task of transfer [id], with what the client answered and what the others did meanwhile. *)
Definition single_task (op : string) (session_id id : Z) (outcome : Res Z) (t : CallTime) (rt : Runtime) : Runtime :=
  let rt := on_registry (fun r => (transition id Running (ct_now t) r).2) rt in
  let rt := ct_meanwhile t rt in
  let rt := on_registry (finish_transfer id outcome op (ct_now t)) rt in
  match outcome with
  | Err e => if transfer_closed_the_session e then mark_connection_lost session_id (ct_now t) rt else rt
  | Ok _ => rt
  end.

Definition download_task : Z -> Z -> Res Z -> CallTime -> Runtime -> Runtime := single_task "download".
Definition upload_task : Z -> Z -> Res Z -> CallTime -> Runtime -> Runtime := single_task "upload".

(** ** Blocking batches *)

(** What the client answers for a tree and for the files, told whether to overwrite. *)
Record BatchCalls := mkBatchCalls {
  bc_tree : nat -> TreeTransferDto -> bool -> Res CoreBatchResult;
  bc_files : list BatchTransferItemDto -> bool -> Res CoreBatchResult
}.

Definition batch_with (render : message -> string) (op : string) (files : string -> BatchTransferItemDto -> BatchTransferItemDto)
    (trees : string -> TreeTransferDto -> TreeTransferDto) (q : BatchTransferRequest) (calls : BatchCalls) (now : Z) (a : App)
  : option (AppResult BatchTransferResultDto) * App :=
  match ensure_open (ap_runtime a) with
  | Err e => (Some (Err e), a)
  | Ok _ =>
      match session_client (bq_session_id q) a with
      | Err e => (Some (Err e), a)
      | Ok c =>
          let a := mkApp (touch (bq_session_id q) now (ap_runtime a)) (ap_clients a) in
          let root := root_path c in
          let trees := trees root <$> bq_trees q in
          let answers := imap (fun i tree => bc_tree calls i tree (bq_overwrite q)) trees
                           ++ [bc_files calls (files root <$> bq_files q) (bq_overwrite q)] in
          (blocking_batch render op trees answers, a)
      end
  end.

Definition batch_download (render : message -> string) : BatchTransferRequest -> BatchCalls -> Z -> App
  -> option (AppResult BatchTransferResultDto) * App :=
  batch_with render "batch_download"
    (fun root item => Transfer.mkBatchItem (resolve_remote_path root (Transfer.bi_source item)) (Transfer.bi_target item))
    (fun root tree => mkTree (resolve_remote_path root (tt_source tree)) (tt_target tree)).

Definition batch_upload (render : message -> string) : BatchTransferRequest -> BatchCalls -> Z -> App
  -> option (AppResult BatchTransferResultDto) * App :=
  batch_with render "batch_upload"
    (fun root item => Transfer.mkBatchItem (Transfer.bi_source item) (resolve_remote_path root (Transfer.bi_target item)))
    (fun root tree => mkTree (tt_source tree) (resolve_remote_path root (tt_target tree))).
End Requests.

(** ** Ledgers *)

Record SyncLedgerStatusDto := mkLedgerStatus {
  ls_device_uuid : string; ls_remote_root : option string; ls_local_root : option string; ls_files : Z; ls_bytes : Z }.

(** [sum] of [u64]s in a release build. *)
Definition tracked_bytes (snapshot : SyncSnapshot) : Z :=
  foldr (fun record total => (sr_size record + total) mod 2 ^ 64) 0 ((map_to_list (ss_files snapshot)).*2).

Definition ledger_status_dto (identity : SyncLedgerIdentity) (snapshot : SyncSnapshot) : SyncLedgerStatusDto :=
  mkLedgerStatus (li_device_uuid identity) (Some (li_remote_root identity)) (Some (li_local_root identity))
    (Z.of_nat (size (ss_files snapshot))) (tracked_bytes snapshot).

(** What serde_json makes of a ledger read for listing: three fields, the others ignored. *)
Record LedgerListEntry := mkListEntry { le_schema_version : Z; le_identity : SyncLedgerIdentity; le_snapshot : SyncSnapshot }.
Class LedgerListJson := list_entry_from_slice : list byte -> option LedgerListEntry.

(** [std::fs::read_dir]: the names in a directory, in the order of the system. *)
Class DirectoryOrder := directory_order : list string -> list string.

Definition child_name (dir : key) (k : key) : option string :=
  match k with
  | [] => None
  | _ => match last k with
         | Some (Normal name) => if bool_decide (k = dir ++ [Normal name]) then Some name else None
         | _ => None
         end
  end.

Definition read_dir `{DirectoryOrder} (p : path) : io (result io_error (list path)) :=
  syscall (fun f => (match f !! components p with
                     | Some Dir => Ok (path_join p <$> directory_order (omap (child_name (components p)) (map_to_list f).*1))
                     | Some (File _) => Err err_not_dir
                     | None => Err err_not_found
                     end, f)) untouched.

(** [Path::extension] *)
Definition extension (name : string) : option string :=
  match last_dot name 0 None with
  | Some (S i) => Some (substring (S (S i)) (String.length name) name)
  | _ => None
  end.

Definition json_file (p : path) : bool :=
  match last (components p) with
  | Some (Normal name) => bool_decide (extension name = Some "json")
  | _ => false
  end.

Definition status_le (a b : SyncLedgerStatusDto) : bool :=
  match String.compare (default "" (ls_remote_root a)) (default "" (ls_remote_root b)) with
  | Lt => true
  | Gt => false
  | Eq => String.leb (default "" (ls_local_root a)) (default "" (ls_local_root b))
  end.
#[export] Instance status_le_dec : RelDecision (fun a b => status_le a b = true).
Proof. intros a b. apply _. Defined.

Section Ledgers.
Context `{Crypto} `{Json SyncLedgerFileV3} `{LedgerListJson} `{DirectoryOrder}.

(** [config_dir] is what [sync_config_dir] finds. *)
Definition sync_ledger_status (config_dir : AppResult path) (identity : SyncLedgerIdentity) (rt : Runtime)
  : io (AppResult SyncLedgerStatusDto) :=
  match ensure_open rt with
  | Err e => mret (Err e)
  | Ok _ =>
      if bool_decide (trim (li_device_uuid identity) = "")
      then mret (Err (operation "sync.status" (public_new InvalidArgument "device_uuid must not be empty")))
      else
        match config_dir with
        | Err e => mret (Err e)
        | Ok dir =>
            let* loaded := load (discover dir identity) in
            mret (match loaded with
                  | Err e => Err (from_core_error e "sync.status")
                  | Ok snapshot => Ok (ledger_status_dto identity (default (mkSyncSnapshot ∅) snapshot))
                  end)
        end
  end.

(** One entry of the directory. *)
Definition listed_ledger (device_uuid : option string) (bytes : list byte) : option SyncLedgerStatusDto :=
  match list_entry_from_slice bytes with
  | None => None
  | Some file =>
      if negb (le_schema_version file =? 3) then None
      else match device_uuid with
           | Some filter => if bool_decide (li_device_uuid (le_identity file) = filter)
                            then Some (ledger_status_dto (le_identity file) (le_snapshot file)) else None
           | None => Some (ledger_status_dto (le_identity file) (le_snapshot file))
           end
  end.

Fixpoint list_entries (device_uuid : option string) (entries : list path) : io (list SyncLedgerStatusDto) :=
  match entries with
  | [] => mret []
  | p :: entries =>
      if negb (json_file p) then list_entries device_uuid entries
      else
        let* bytes := read_file p in
        let* rest := list_entries device_uuid entries in
        mret (match bytes with
              | Ok bytes => match listed_ledger device_uuid bytes with Some s => s :: rest | None => rest end
              | Err _ => rest
              end)
  end.

Definition list_sync_ledgers (config_dir : AppResult path) (device_uuid : option string) (rt : Runtime)
  : io (AppResult (list SyncLedgerStatusDto)) :=
  match ensure_open rt with
  | Err e => mret (Err e)
  | Ok _ =>
      match config_dir with
      | Err e => mret (Err e)
      | Ok dir =>
          let* entries := read_dir (path_join dir "sync") in
          match entries with
          | Err e =>
              mret (match io_kind_of e with
                    | KNotFound => Ok []
                    | _ => Err (operation "sync.status" (with_detail (Text (io_text e))
                             (public_new LocalPathNotFound "cannot read sync ledger directory")))
                    end)
          | Ok entries =>
              let* ledgers := list_entries device_uuid entries in
              mret (Ok (merge_sort (fun a b => status_le a b = true) ledgers))
          end
      end
  end.
End Ledgers.

(** ** Connecting *)

Section Connect.
Context `{Crypto} `{ProtoCodec} `{ClientCodec} `{Json State} `{UsbText} `{AdbServer}.
Context (debug_str parse_error : string -> string) (render : message -> string).
Context (project_dirs : option path) (parse_address : string -> option string).

Lemma inserted_ready (device : DeviceDescriptor) (info : DeviceInfoDto) (now id : Z) (rt rt' : Runtime) :
  insert_session device info now rt = (Ok id, rt') ->
  id = rt_next_session rt /\ rt_shutting rt = false /\
  exists session, session_handle id rt' = Ok session /\ as_device session = reconcile_device_identity device info.
Proof.
  unfold insert_session. destruct (rt_shutting rt) eqn:Hs; [done|]. intros [= <- <-]. split_and!; [done..|].
  unfold session_handle. simpl. rewrite lookup_insert_eq. simpl. by eexists.
Qed.

Lemma insert_refused (device : DeviceDescriptor) (info : DeviceInfoDto) (now : Z) (e : PublicError) (rt rt' : Runtime) :
  insert_session device info now rt = (Err e, rt') -> rt' = rt.
Proof. unfold insert_session. destruct (rt_shutting rt); by intros [= _ <-]. Qed.

(** A connect registers one ready session, under a number of its own and with the identity the phone gave, or none at all: it
    never does once the shutdown has begun, and answers an error unless the session it registered was there to be told. *)
Theorem app_connect_exact (c : RuntimeConfig) (device : DeviceDescriptor) (w : ConnectWorld) (t : ConnectTime) (a : App) (s : adb_state) :
  let rt := cn_meanwhile t (ap_runtime a) in
  yields (app_connect debug_str parse_error render project_dirs parse_address c device w t a s) (fun o =>
    forall r a' held s', o = Some (r, a', held, s') ->
    match held with
    | None => (exists e, r = Err e) /\ ap_clients a' = ap_clients a /\ (ap_runtime a' = ap_runtime a \/ ap_runtime a' = rt)
    | Some _ =>
        let id := rt_next_session rt in
        rt_shutting (ap_runtime a) = false /\ rt_shutting rt = false /\
        exists client registered, insert_session device (device_info_to_dto (hc_device client)) (cn_inserted t) rt = (Ok id, registered) /\
          (exists session, session_handle id registered = Ok session /\
             as_device session = reconcile_device_identity device (device_info_to_dto (hc_device client))) /\
          ap_clients a' = set_client id client (ap_clients a) /\
          match get_session_snapshot id (cn_between t registered) with
          | Ok told => r = Ok id /\ ap_runtime a' = publish_backend (SessionStateChanged told) (cn_told t) (cn_between t registered)
          | Err e => r = Err e /\ ap_runtime a' = cn_between t registered
          end
    end).
Proof.
  cbv zeta. unfold app_connect, ensure_open. destruct (rt_shutting (ap_runtime a)) eqn:Ho.
  { apply yields_ret. intros r a' held s' [= <- <- <- <-]. split; [by eexists|]. by auto. }
  destruct (connection_target_for parse_address device) as [target|e].
  2: { apply yields_ret. intros r a' held s' [= <- <- <- <-]. split; [by eexists|]. by auto. }
  destruct (state_store project_dirs c) as [store|e].
  2: { apply yields_ret. intros r a' held s' [= <- <- <- <-]. split; [by eexists|]. by auto. }
  apply yields_then. intros [[[[[keys client] cleanup]|e] s1]|]; apply yields_ret; [| |done].
  2: { intros r a' held s' [= <- <- <- <-]. split; [by eexists|]. by auto. }
  destruct (insert_session device _ _ _) as [[id|e] registered] eqn:Ei.
  2: { apply insert_refused in Ei as ->. intros r a' held s' [= <- <- <- <-]. split; [by eexists|]. by auto. }
  intros r a' held s' Hr. pose proof (inserted_ready _ _ _ _ _ _ Ei) as (-> & Hs & Hready).
  destruct (get_session_snapshot _ _) as [told|e] eqn:Eg; injection Hr as <- <- <- <-; (split; [done|]); (split; [done|]);
    exists client, registered; (split; [exact Ei|]); (split; [exact Hready|]); by rewrite Eg.
Qed.
End Connect.

(** ** Requests *)

Section Requests.
Context `{HashOrder} {T : Type} (id : Z) (op : string) (call : client T).

(** Exactly the errors of the transport mean that the connection is lost. *)
Lemma lost_is_transport (e : Error) :
  connection_lost_code (pe_code (from_core_error e op)) = true <-> exists m, e = ETransport m.
Proof.
  unfold connection_lost_code. rewrite bool_decide_eq_true. split; [|by intros [m ->]].
  intros Hc. destruct e as [m|m|m|m|m|m|m|m|c m|m|m| |info]; try done; [by exists m|].
  unfold from_core_error in Hc. simpl in Hc. by destruct (ci_origin info).
Qed.

Definition state_of (rt : Runtime) (i : Z) : option SessionState := as_state <$> (rt_sessions rt !! i).

Lemma touch_state (now i : Z) (rt : Runtime) : state_of (touch id now rt) i = state_of rt i.
Proof.
  unfold state_of, touch. destruct (rt_sessions rt !! id) as [s|] eqn:E; [|done]. simpl.
  destruct (decide (i = id)) as [->|Hne]; [by rewrite lookup_insert_eq, E|by rewrite lookup_insert_ne].
Qed.

Lemma touch_rest (now : Z) (rt : Runtime) :
  rt_registry (touch id now rt) = rt_registry rt /\ rt_hub (touch id now rt) = rt_hub rt /\ rt_shutting (touch id now rt) = rt_shutting rt.
Proof. unfold touch. by destruct (rt_sessions rt !! id). Qed.

(** What losing the connection does to a runtime. *)
Definition session_failed (now : Z) (rt rt' : Runtime) : Prop :=
  (forall i, state_of rt' i = if decide (i = id) then match state_of rt id with Some SessionReady => Some SessionFailed | s => s end
                              else state_of rt i) /\
  rt_shutting rt' = rt_shutting rt /\
  match state_of rt id with
  | Some SessionReady =>
      rt_registry rt' = (cancel_for_session id now (rt_registry rt)).2 /\
      exists s, rt_hub rt' = publish (SessionStateChanged s) now (publish (ConnectionLostEvent id) now (rt_hub rt)) /\
        ssn_id s = id /\ ssn_state s = SessionFailed
  | _ => rt_registry rt' = rt_registry rt /\ rt_hub rt' = rt_hub rt
  end.

Lemma mark_lost_spec (now : Z) (rt : Runtime) : session_failed now rt (mark_connection_lost id now rt).
Proof.
  unfold session_failed, mark_connection_lost, fail_session, state_of. destruct (rt_sessions rt !! id) as [s|] eqn:E.
  - case_bool_decide as Hs.
    + cbn [fmap option_fmap option_map rt_sessions on_sessions on_registry publish_backend rt_registry rt_hub rt_shutting]. simpl.
      rewrite Hs. split_and!; [|done|done|by eexists].
      intros i. case_decide as Hi; [by rewrite Hi, lookup_insert_eq|by rewrite lookup_insert_ne].
    + simpl. destruct (as_state s) eqn:Es; try done; (split_and!; try done; intros i; case_decide as Hi; [by rewrite Hi, E, <- Es|done]).
  - split_and!; try done. intros i. case_decide as Hi; [by rewrite Hi, E|done].
Qed.

(** A request that is refused touches nothing, above all not the client.  One that is made runs the call once on the client of its
    session; sessions, transfers and events are then as the other tasks left them, unless the transport failed: then a session
    that was still ready has failed, its transfers are cancelled, and both events are published. *)
Theorem request_exact (t : CallTime) (a a' : App) (r : AppResult T) :
  request id op call t a = (r, a') ->
  match session_client id a with
  | Ok c =>
      if rt_shutting (ap_runtime a) then r = Err (public_new RuntimeClosed "runtime is shut down") /\ a' = a
      else
        let rt := ct_meanwhile t (ap_runtime a) in
        exists outcome c', call c = (outcome, c') /\ ap_clients a' id = c' /\
          (forall i, i <> id -> ap_clients a' i = ap_clients a i) /\
          r = match outcome with Ok v => Ok v | Err e => Err (from_core_error e op) end /\
          match outcome with
          | Err (ETransport _) => session_failed (ct_now t) (touch id (ct_now t) rt) (ap_runtime a')
          | _ => ap_runtime a' = touch id (ct_now t) rt
          end
  | Err e => (if rt_shutting (ap_runtime a) then r = Err (public_new RuntimeClosed "runtime is shut down") else r = Err e) /\ a' = a
  end.
Proof.
  unfold request, ensure_open. destruct (rt_shutting (ap_runtime a)).
  { intros [= <- <-]. by destruct (session_client id a). }
  destruct (session_client id a) as [c|e]; [|by intros [= <- <-]].
  destruct (call c) as [outcome c'] eqn:Ec. intros Heq. exists outcome, c'.
  assert (ap_clients a' = set_client id c' (ap_clients a)) as Hc by (destruct outcome; by injection Heq as _ <-).
  split_and!; [done|rewrite Hc; unfold set_client; by rewrite Z.eqb_refl| | |].
  - intros i Hi. rewrite Hc. unfold set_client. by replace (i =? id) with false by lia.
  - by destruct outcome; injection Heq as <- _.
  - destruct outcome as [v|e]; [by injection Heq as _ <-|]. injection Heq as _ <-.
    destruct (connection_lost_code _) eqn:El.
    + apply lost_is_transport in El as [m ->]. apply mark_lost_spec.
    + destruct e; try done; exfalso; by vm_compute in El.
Qed.

(** After a request that lost the connection no request reaches the client of the session, whoever makes it. *)
Theorem lost_connection_refuses {T' : Type} (op' : string) (call' : client T') (t t' : CallTime) (a : App) (m : message) :
  rt_shutting (ap_runtime a) = false -> (exists c, session_client id a = Ok c) -> (call (ap_clients a id)).1 = Err (ETransport m) ->
  exists e, request id op' call' t' (request id op call t a).2 = (Err e, (request id op call t a).2).
Proof.
  intros Hs [c Hcl] Hc. destruct (request id op call t a) as [r a'] eqn:E. pose proof (request_exact t a a' r E) as Hr.
  rewrite Hcl, Hs in Hr. destruct Hr as (outcome & c' & Hcall & _ & _ & _ & Hf).
  assert (c = ap_clients a id) as -> by (unfold session_client in Hcl; destruct (session_handle id (ap_runtime a)); congruence).
  rewrite Hcall in Hc. simpl in Hc. subst outcome. destruct Hf as (Hst & _). simpl.
  specialize (Hst id). rewrite decide_True in Hst by done.
  assert (exists e, session_client id a' = Err e) as [e He].
  { unfold session_client, session_handle. unfold state_of in Hst at 1. destruct (rt_sessions (ap_runtime a') !! id) as [s|] eqn:Es; [|by eexists].
    simpl in Hst. rewrite bool_decide_eq_false_2; [by eexists|]. intros Hready. rewrite Hready in Hst.
    by destruct (state_of _ id) as [[]|]. }
  unfold request. rewrite He. destruct (ensure_open (ap_runtime a')); by eexists.
Qed.
End Requests.

(** ** Paths *)

(** Nothing named, or a path that climbs out: the delete is sent for the root itself. *)
Lemma delete_of_nothing_is_delete_of_root :
  resolve_remote_path "/storage/emulated/0" "" = "/storage/emulated/0" /\
  resolve_remote_path "/storage/emulated/0" "photos/.." = "/storage/emulated/0" /\
  resolve_remote_path "/storage/emulated/0" "../../other" = "/storage/emulated/0".
Proof. by vm_compute. Qed.

(** The alias of the storage is expanded by the operations on files, not by those that update metadata or read tags. *)
Lemma update_keeps_alias (item : UpdateFileInfoItemDto) : rf_path (dto_to_remote_file item) = ui_path item.
Proof. done. Qed.

(** ** Blocking batches *)

Section Batches.
Context `{HashOrder} (render : message -> string).

(** The answers of the calls of a batch put together; the first that fails is all that is answered, whatever the others did. *)
Fixpoint batch_outcome (op : string) (answers : list (Res CoreBatchResult)) (acc : CoreBatchResult) : AppResult BatchTransferResultDto :=
  match answers with
  | [] => Ok (batch_result_to_dto render acc)
  | Ok partial :: answers => batch_outcome op answers (merge_core_batch acc partial)
  | Err e :: _ => Err (from_core_error e op)
  end.

Lemma blocking_trees_outcome (op : string) (trees : list TreeTransferDto) (answers : list (Res CoreBatchResult)) (last : Res CoreBatchResult)
    (acc : CoreBatchResult) :
  length answers = length trees ->
  match blocking_trees op trees (answers ++ [last]) acc with
  | Some (Err e, _) => batch_outcome op (answers ++ [last]) acc = Err e
  | Some (Ok result, rest) => rest = [last] /\ batch_outcome op (answers ++ [last]) acc = batch_outcome op [last] result
  | None => False
  end.
Proof.
  revert answers acc. induction trees as [|tree trees IH]; intros [|answer answers] acc; try done. simpl. intros [= Hl].
  destruct answer as [partial|e]; [|done]. by apply IH.
Qed.

Theorem batch_exact (op : string) (files : string -> BatchTransferItemDto -> BatchTransferItemDto) (trees : string -> TreeTransferDto -> TreeTransferDto)
    (q : BatchTransferRequest) (calls : BatchCalls) (now : Z) (a : App) (c : HandShakerClient) :
  rt_shutting (ap_runtime a) = false -> session_client (bq_session_id q) a = Ok c ->
  batch_with render op files trees q calls now a =
    (Some (batch_outcome op (imap (fun i tree => bc_tree calls i tree (bq_overwrite q)) (trees (root_path c) <$> bq_trees q)
                               ++ [bc_files calls (files (root_path c) <$> bq_files q) (bq_overwrite q)]) (core_result [] [])),
     mkApp (touch (bq_session_id q) now (ap_runtime a)) (ap_clients a)).
Proof.
  intros Hs Hc. unfold batch_with, ensure_open. rewrite Hs, Hc. f_equal. unfold blocking_batch.
  set (ts := trees (root_path c) <$> bq_trees q). set (answers := imap _ ts).
  pose proof (blocking_trees_outcome op ts answers (bc_files calls (files (root_path c) <$> bq_files q) (bq_overwrite q)) (core_result [] [])
    ltac:(by unfold answers; rewrite length_imap)) as Ht.
  destruct (blocking_trees _ _ _ _) as [[[result|e] rest]|]; [|by rewrite Ht|done]. destruct Ht as [-> ->]. simpl.
  by destruct (bc_files _ _ _).
Qed.
End Batches.

(** ** Ledgers *)

#[export] Instance status_le_total : Total (fun a b => status_le a b = true).
Proof.
  intros a b. unfold status_le. rewrite (String.compare_antisym (default "" (ls_remote_root a)) (default "" (ls_remote_root b))).
  destruct (String.compare (default "" (ls_remote_root b)) _); simpl; auto. destruct (String.leb_total (default "" (ls_local_root a)) (default "" (ls_local_root b))); auto.
Qed.

Section Ledgers.
Context `{Crypto} `{Json SyncLedgerFileV3} `{LedgerListJson} `{DirectoryOrder}.
Context (order_permutes : forall l, directory_order l ≡ₚ l).

(** What a listing answers of the files of a directory. *)
Definition listed (device_uuid : option string) (dir : path) (f : fs) (name : string) : option SyncLedgerStatusDto :=
  if json_file (path_join dir name) then
    match f !! components (path_join dir name) with Some (File bytes) => listed_ledger device_uuid bytes | _ => None end
  else None.

Lemma list_entries_exact (device_uuid : option string) (entries : list path) (w : world) :
  w_faults w = [] ->
  list_entries device_uuid entries w =
    (Ret (omap (fun p => if json_file p then match w_fs w !! components p with Some (File bytes) => listed_ledger device_uuid bytes | _ => None end
                         else None) entries), w).
Proof.
  intros Hw. induction entries as [|p entries IH]; [done|]. cbn [list_entries omap list_omap].
  destruct (json_file p); simpl; [|by rewrite IH].
  unfold mbind, io_bind, read_file, syscall. rewrite Hw. destruct w as [f fl rd]. simpl in *. subst fl. rewrite IH.
  destruct (f !! components p) as [[bytes|]|]; simpl; [destruct (listed_ledger device_uuid bytes); reflexivity|reflexivity..].
Qed.

Lemma omap_of_paths (device_uuid : option string) (dir : path) (f : fs) (names : list string) :
  omap (fun p => if json_file p then match f !! components p with Some (File bytes) => listed_ledger device_uuid bytes | _ => None end
                 else None) (path_join dir <$> names) = omap (listed device_uuid dir f) names.
Proof. induction names as [|name names IH]; [done|]. cbn [fmap list_fmap omap list_omap] in *. by rewrite IH. Qed.

Definition names_of (dir : path) (f : fs) : list string := omap (child_name (components dir)) (map_to_list f).*1.

(** On a working disk a listing answers every ledger of the directory that can be read and is of the device, each once, sorted by
    the roots, and changes nothing; a directory that is not there has none. *)
Theorem list_sync_ledgers_exact (dir : path) (device_uuid : option string) (rt : Runtime) (f : fs) (rd : list Z) :
  rt_shutting rt = false ->
  exists r, list_sync_ledgers (Ok dir) device_uuid rt (mkWorld f [] rd) = (Ret r, mkWorld f [] rd) /\
    match f !! components (path_join dir "sync"), r with
    | None, _ => r = Ok []
    | Some (File _), _ => exists e, r = Err e
    | Some Dir, Ok ledgers =>
        ledgers ≡ₚ omap (listed device_uuid (path_join dir "sync") f) (names_of (path_join dir "sync") f) /\
        Sorted (fun a b => status_le a b = true) ledgers
    | Some Dir, Err _ => False
    end.
Proof.
  intros Hs. unfold list_sync_ledgers, ensure_open. rewrite Hs. unfold read_dir, syscall. unfold mbind at 1, io_bind at 1. cbn [w_faults w_fs w_rand].
  destruct (f !! components (path_join dir "sync")) as [[bytes|]|] eqn:Ef;
    [eexists; split; [reflexivity|by eexists]| |eexists; split; reflexivity].
  unfold mbind, io_bind. rewrite list_entries_exact by done. eexists. split; [reflexivity|]. cbn [w_fs].
  split.
  - rewrite merge_sort_Permutation, omap_of_paths. by rewrite (order_permutes (names_of (path_join dir "sync") f)).
  - apply (Sorted_merge_sort (fun a b => status_le a b = true)).
Qed.
End Ledgers.

(** ** Single transfers *)

Definition ended_state (outcome : Res Z) : TransferState :=
  match outcome with
  | Ok _ => Completed
  | Err e => match error_code e with Cancelled | Interrupted => TransferIsCancelled | _ => Failed end
  end.

Section Transfers.
Context `{HashOrder}.

(** The transfer is listed and goes on. *)
Definition going (id : Z) (r : TransferRegistry) : Prop :=
  exists e, rg_transfers r !! id = Some e /\ terminal (ts_state (at_snapshot e)) = false.
Definition listed_as (id : Z) (st : TransferState) (r : TransferRegistry) : Prop :=
  exists e, rg_transfers r !! id = Some e /\ ts_state (at_snapshot e) = st.

Lemma going_transition (id : Z) (next : TransferState) (now : Z) (r : TransferRegistry) :
  going id r -> listed_as id next (transition id next now r).2 /\ listed_as id next (transition_publish id next now r).
Proof.
  intros (e & He & Ht). unfold transition_publish, transition. rewrite He. simpl.
  split; eexists; (split; [apply lookup_insert_eq|]); simpl; unfold next_snapshot; by rewrite Ht.
Qed.

Lemma going_report (id now : Z) (bytes : option Z) (f : TransferSnapshot -> TransferSnapshot) (r : TransferRegistry) :
  (forall s, ts_state (f s) = ts_state s) -> going id r -> going id (report id now bytes f r).
Proof.
  intros Hf (e & He & Ht). unfold report. rewrite He. destruct (throttle_allows now bytes (at_throttle e)) as [emit throttle].
  set (e' := with_throttle _ _).
  assert (terminal (ts_state (at_snapshot e')) = false) as Ht' by (simpl; unfold resume; by rewrite Hf, Ht).
  assert (going id (with_transfers (insert id e') r)) as Hg by (exists e'; split; [apply lookup_insert_eq|exact Ht']).
  destruct emit; [|exact Hg]. by destruct (get id _).
Qed.

Lemma finish_listed (id : Z) (outcome : Res Z) (op : string) (now : Z) (r : TransferRegistry) :
  going id r -> listed_as id (ended_state outcome) (finish_transfer id outcome op now r).
Proof.
  intros Hg. destruct outcome as [bytes|e]; cbn [finish_transfer ended_state].
  - apply (going_transition id Completed now). unfold set_progress. by apply going_report.
  - assert (forall err, going id (set_error id err r)) as He.
    { intros err. destruct Hg as (x & Hx & Ht). unfold set_error. eexists. split; [apply lookup_alter_Some; left; split; [done|];
        by exists x|exact Ht]. }
    assert (listed_as id (match error_code e with Cancelled | Interrupted => TransferIsCancelled | _ => Failed end)
              (settle_failure id e op now r)) as Hs.
    { unfold settle_failure. destruct (error_code e); apply going_transition; by try apply He. }
    cbv zeta. by destruct (get id (settle_failure id e op now r)).
Qed.

(** The task of a download or an upload that nobody has ended leaves its transfer listed as completed, cancelled or failed as its
    client answered; and the session has failed after it exactly when the answer says that the connection is gone. *)
Theorem single_task_exact (op : string) (session_id id : Z) (outcome : Res Z) (t : CallTime) (rt : Runtime) :
  let before := ct_meanwhile t (on_registry (fun r => (transition id Running (ct_now t) r).2) rt) in
  going id (rt_registry before) ->
  exists after, listed_as id (ended_state outcome) (rt_registry after) /\ rt_sessions after = rt_sessions before /\
    if match outcome with Err e => transfer_closed_the_session e | Ok _ => false end
    then session_failed session_id (ct_now t) after (single_task op session_id id outcome t rt)
    else single_task op session_id id outcome t rt = after.
Proof.
  cbv zeta. intros Hg. exists (on_registry (finish_transfer id outcome op (ct_now t)) (ct_meanwhile t
    (on_registry (fun r => (transition id Running (ct_now t) r).2) rt))).
  split; [by apply finish_listed|]. split; [done|]. unfold single_task. cbv zeta. destruct outcome as [bytes|e]; [done|].
  destruct (transfer_closed_the_session e); [apply mark_lost_spec|done].
Qed.
End Transfers.

(** ** Pages *)

Section Snapshots.
Context {L : Type} (key : MediaSnapshotKey) (unwrap : MediaSnapshotEntry -> option L) (wrap : L -> MediaSnapshotEntry).
Context (unwrap_wrap : forall l, unwrap (wrap l) = Some l) (fetch : App -> AppResult L * App).

(** A library that is fetched for a page, with no snapshot dropped meanwhile, is kept: for 30 seconds every further page is cut
    from it, and nothing is asked of the phone. *)
Theorem pages_of_one_library (page page' : nat -> L -> L) (limit limit' : option Z) (m m' : Z) (n n' : SnapshotTime) (s : Snapshots)
    (a : App) (l : L) :
  validate_page_limit limit = Ok m -> validate_page_limit limit' = Ok m' ->
  cached_library key (sn_before n) s.1 ≫= unwrap = None -> fetch s.2 = (Ok l, a) ->
  media_epoch (sn_meanwhile n s.1) = media_epoch s.1 ->
  sn_before n' < sn_after n + MEDIA_SNAPSHOT_TTL ->
  exists s', paged limit page (cached_of key unwrap wrap fetch n) s = (Ok (page (Z.to_nat m) l), s') /\ s'.2 = a /\
    paged limit' page' (cached_of key unwrap wrap fetch n') s' = (Ok (page' (Z.to_nat m') l), s').
Proof.
  intros Hm Hm' Hnone Hf He Hn. unfold paged, cached_of at 1. rewrite Hm, Hm', Hnone, Hf. eexists. split; [reflexivity|]. split; [done|].
  unfold cached_of, keep_library. rewrite He, Z.eqb_refl. unfold cached_library. cbn [fst media_snapshots]. rewrite lookup_insert_eq.
  unfold saturating_sub, MEDIA_SNAPSHOT_TTL in *. replace (_ <? _) with true by lia. simpl. by rewrite unwrap_wrap.
Qed.

(** What a page is cut from: a snapshot that was kept, or what the phone answered. *)
Lemma cached_from (P : L -> Prop) (n : SnapshotTime) (s s' : Snapshots) (l : L) :
  (forall t e l, media_snapshots s.1 !! key = Some (t, e) -> unwrap e = Some l -> P l) ->
  (forall l a, fetch s.2 = (Ok l, a) -> P l) ->
  cached_of key unwrap wrap fetch n s = (Ok l, s') -> P l.
Proof.
  intros Hk Hf. unfold cached_of, cached_library. destruct (media_snapshots s.1 !! key) as [[t e]|] eqn:E; simpl.
  - destruct (_ <? _); simpl; [destruct (unwrap e) as [l0|] eqn:Eu|].
    + intros [= <- _]. by eapply Hk.
    + destruct (fetch s.2) as [[l0|x] a] eqn:Ef; [|done]. intros [= <- _]. by eapply Hf.
    + destruct (fetch s.2) as [[l0|x] a] eqn:Ef; [|done]. intros [= <- _]. by eapply Hf.
  - destruct (fetch s.2) as [[l0|x] a] eqn:Ef; [|done]. intros [= <- _]. by eapply Hf.
Qed.

Lemma cached_kept_from (P : L -> Prop) (n : SnapshotTime) (s s' : Snapshots) (r : AppResult L) :
  (forall t e l, media_snapshots s.1 !! key = Some (t, e) -> unwrap e = Some l -> P l) ->
  (forall t e l, media_snapshots (sn_meanwhile n s.1) !! key = Some (t, e) -> unwrap e = Some l -> P l) ->
  (forall l a, fetch s.2 = (Ok l, a) -> P l) ->
  cached_of key unwrap wrap fetch n s = (r, s') ->
  forall t e l, media_snapshots s'.1 !! key = Some (t, e) -> unwrap e = Some l -> P l.
Proof.
  intros Hk Hm Hf. unfold cached_of. destruct (cached_library _ _ _ ≫= unwrap) as [l0|]; [by intros [= _ <-]|].
  destruct (fetch s.2) as [[l0|x] a] eqn:Ef; intros [= _ <-]; [|done]. cbn [fst]. intros t e l. unfold keep_library.
  case_match; [|by apply Hm]. cbn [media_snapshots]. rewrite lookup_insert_eq. intros [= <- <-]. rewrite unwrap_wrap.
  intros [= <-]. by eapply Hf.
Qed.
End Snapshots.

(** Lists that carry no thumbnails. *)
Definition bare_photos (l : PhotoLibraryDto) : Prop :=
  Forall (fun i => strip_image_file i = i) (pld_images l) /\ Forall (fun a => strip_cover a = a) (pld_albums l).
Definition bare_snapshots (c : MediaCache MediaSnapshotEntry) : Prop :=
  forall key t e l, media_snapshots c !! key = Some (t, e) -> photo_entry e = Some l -> bare_photos l.

Lemma stripped_bare (l : PhotoLibraryDto) : bare_photos (strip_photo_thumbnails l).
Proof.
  split; apply Forall_fmap, Forall_true; [done|]. intros a. unfold strip_cover, compose. simpl. by destruct (iad_cover_image a).
Qed.

Section Thumbnails.
Context `{HashOrder} `{Crypto} `{ProtoCodec} `{ClientCodec} (keys : SessionKeys) (id : Z) (ra : RequestAnswers) (t : CallTime).

(** No page of photos carries a thumbnail, nor does a snapshot kept for one. *)
Theorem photo_pages_bare (cursor limit : option Z) (n : SnapshotTime) (s s' : Snapshots) (r : AppResult PhotoLibraryDto) :
  bare_snapshots s.1 -> bare_snapshots (sn_meanwhile n s.1) ->
  get_photo_library_page keys id cursor limit ra t n s = (r, s') ->
  bare_snapshots s'.1 /\ forall l, r = Ok l -> bare_photos l.
Proof.
  intros Hs Hm. unfold get_photo_library_page, paged. destruct (validate_page_limit limit) as [m|e]; [|by intros [= <- <-]].
  destruct (cached_photo_library keys id ra t n s) as [full s1] eqn:E. intros [= <- <-]. unfold cached_photo_library in E.
  assert (forall l a, fetch_photo_library keys id ra t s.2 = (Ok l, a) -> bare_photos l) as Hf.
  { intros l a. unfold fetch_photo_library, app_map. destruct (request _ _ _ _ _).1 as [l0|e]; [|done]. intros [= <- _].
    apply stripped_bare. }
  split.
  - intros key tm e l. destruct (decide (key = (id, SnapshotPhoto))) as [->|Hk].
    + eapply (cached_kept_from (id, SnapshotPhoto) photo_entry EntryPhoto ltac:(done) _ bare_photos); [| |exact Hf|exact E]; intros; by eauto.
    + unfold cached_of in E. destruct (cached_library _ _ _ ≫= _); [injection E as _ <-; apply Hs|].
      destruct (fetch_photo_library keys id ra t s.2) as [[l0|x] a]; injection E as _ <-; cbn [fst]; [|apply Hm].
      unfold keep_library. case_match; [|apply Hm]. cbn [media_snapshots]. rewrite lookup_insert_ne by done. apply Hm.
  - intros l Hl. destruct full as [full|e]; [|done]. injection Hl as <-.
    assert (bare_photos full) as [Hi Ha].
    { eapply (cached_from (id, SnapshotPhoto) photo_entry EntryPhoto (fetch_photo_library keys id ra t) bare_photos); [|exact Hf|exact E].
      intros; by eauto. }
    unfold photo_page. destruct (slice_page imd_media_id (pld_images full) cursor (Z.to_nat m)) as [images next] eqn:Ep.
    split; [|exact Ha]. simpl. apply Forall_forall. intros i Hin. rewrite Forall_forall in Hi. apply Hi.
    apply (slice_page_subset imd_media_id (pld_images full) cursor (Z.to_nat m)). by rewrite Ep.
Qed.

(** A page of videos carries the thumbnails the phone sent with the library: it is cut from the answer itself. *)
Theorem video_pages_keep_thumbnails (cursor limit : option Z) (m : Z) (n : SnapshotTime) (s : Snapshots) (a : App) (library : VideoLibrary) :
  validate_page_limit limit = Ok m -> cached_library (id, SnapshotVideo) (sn_before n) s.1 = None ->
  request id "get_video_library" (client_map VideoLibraryDto_from (get_video_library keys ra)) t s.2 = (Ok (VideoLibraryDto_from library), a) ->
  exists s', get_video_library_page keys id cursor limit ra t n s = (Ok (video_page cursor (Z.to_nat m) (VideoLibraryDto_from library)), s') /\
    forall d, d ∈ vld_videos (video_page cursor (Z.to_nat m) (VideoLibraryDto_from library)) ->
      exists v, v ∈ vl_videos library /\ d = VideoFileDto_from v /\ vdd_thumbnail d = vid_thumbnail v.
Proof.
  intros Hm Hn Hr. unfold get_video_library_page, paged, cached_video_library, cached_of. rewrite Hm, Hn. simpl. rewrite Hr.
  eexists. split; [reflexivity|]. intros d Hd. unfold video_page in Hd.
  destruct (slice_page vdd_media_id _ cursor _) as [videos next] eqn:Ep. simpl in Hd.
  assert (d ∈ VideoFileDto_from <$> vl_videos library) as (v & -> & Hv)%list_elem_of_fmap.
  { apply (slice_page_subset vdd_media_id _ cursor (Z.to_nat m)). cbn [vld_videos VideoLibraryDto_from] in Ep. by rewrite Ep. }
  by exists v.
Qed.
End Thumbnails.

(** One video with a thumbnail: the whole library is answered without it, the page with it. *)
Example a_page_has_the_thumbnail :
  let v := mkVideoFile None None None None None None None (Some 7) None None (Some [x01]) false None in
  let full := VideoLibraryDto_from (mkVideoLibrary [v] []) in
  vdd_thumbnail <$> vld_videos (strip_video_thumbnails full) = [None] /\
  vdd_thumbnail <$> vld_videos (video_page None 500 full) = [Some [x01]].
Proof. by vm_compute. Qed.
