(* ===== verification/FfiCalls.v ===== *)
(** * The calls of the foreign function interface

    crates/handshaker-ffi/src: lib.rs, files.rs, clipboard.rs, trust.rs, batch.rs, monitor.rs,
    sync.rs, media.rs, diagnostics.rs.  Each function takes the handle, reads its request from JSON,
    asks the application once, and answers with the JSON of what it says.  The application is an
    interface ([Application]): it is asked a call and answers, fails, or panics.  How its records are
    written as JSON is a parameter, but for the descriptors of devices, which come back. *)

From Stdlib Require Import Strings.String Strings.Ascii.
From stdpp Require Import gmap strings.
From S2P Require Import Prelude Errors AppErrors Domain Handshake Text Paths Parse SyncRun TrustStore Transfer Devices FilePlan PlanRun MediaDto MediaPage AppRequests FfiThumb FfiCore Serde.

#[local] Open Scope string_scope.
#[local] Open Scope list_scope.
#[local] Open Scope Z_scope.

(** ** Requests *)

Section Decoding.
Context `{SerdeJson}.

(** The error of a text that is not the request. *)
Definition request_error (e : string) : PublicError :=
  with_detail (Text e) (public_new InvalidArgument "invalid request JSON").

Definition from_request {T} (d : decode T) (json : string) : AppResult T := map_err request_error (from_text d json).

Definition FfiRuntimeConfig : decode RuntimeConfig := fun v =>
  match struct_fields false ((fun k => (k, Nothing)) <$>
          ["adb_path_utf8"; "default_timeout_ms"; "heartbeat_interval_ms"; "host_name_utf8"; "state_dir_utf8"; "wire_log_utf8";
           "wire_log_payload"; "event_capacity"; "transfer_history_capacity"; "transfer_history_ttl_ms"]) v with
  | Some [adb; timeout; heartbeat; host; state; log; payload; events; history; ttl] =>
      adb ← optional as_string adb; timeout ← optional as_u64 timeout; heartbeat ← optional as_u64 heartbeat;
      host ← optional as_string host; state ← optional as_string state; log ← optional as_string log;
      payload ← optional as_bool payload; events ← optional as_u32 events; history ← optional as_u64 history;
      ttl ← optional as_u64 ttl;
      Some (mkRuntimeConfig (default "adb" adb) (default 30000 timeout) (default 10000 heartbeat) host state log
              (default false payload) (default 1024 events) (default 64 history) ttl)
  | _ => None
  end.

Definition config_from_json (json : string) : AppResult RuntimeConfig :=
  map_err (fun e => with_detail (Text e) (public_new InvalidArgument "invalid config JSON")) (from_text FfiRuntimeConfig json).

(** A listing, and how long it may browse. *)
Definition ListDevices : Type := ListDevicesRequest * Z.
Definition ListDevices_default : ListDevices := (mkListDevices true true true, 3000).

Definition FfiListDevicesRequest : decode ListDevices := fun v =>
  match struct_fields true ((fun k => (k, Nothing)) <$> ["include_adb"; "include_wifi"; "include_usb"; "wifi_browse_timeout_ms"]) v with
  | Some [adb; wifi; usb; timeout] =>
      adb ← optional as_bool adb; wifi ← optional as_bool wifi; usb ← optional as_bool usb; timeout ← optional as_u64 timeout;
      Some (mkListDevices (default true adb) (default true wifi) (default true usb), default 3000 timeout)
  | _ => None
  end.

Definition list_devices_request_from_json : string -> AppResult ListDevices := from_request FfiListDevicesRequest.

(** [DeviceDescriptor] and its parts. *)
Definition transport_name (t : TransportKind) : string :=
  match t with TAdb => "adb" | TWifi => "wifi" | TUsbAccessory => "usb_accessory" end.
Definition transport_named (s : string) : option TransportKind :=
  if bool_decide (s = "adb") then Some TAdb
  else if bool_decide (s = "wifi") then Some TWifi
  else if bool_decide (s = "usb_accessory") then Some TUsbAccessory
  else None.

Definition AdbDetailDto_from : decode AdbDetailDto := fun v =>
  match struct_fields false [("state", Required); ("product", Nothing); ("model", Nothing); ("device", Nothing)] v with
  | Some [state; product; model; device] =>
      state ← required as_string state; product ← optional as_string product; model ← optional as_string model;
      device ← optional as_string device;
      Some (mkAdbDetail state product model device)
  | _ => None
  end.

Definition UsbDetailDto_from : decode UsbDetailDto := fun v =>
  match struct_fields false [("bus_number", Required); ("serial", Nothing); ("vendor_id", Required); ("product_id", Required);
                             ("mode", Required)] v with
  | Some [bus; serial; vendor; product; mode] =>
      bus ← required as_u8 bus; serial ← optional as_string serial; vendor ← required as_u16 vendor;
      product ← required as_u16 product; mode ← required as_string mode;
      Some (mkUsbDetail bus serial vendor product mode)
  | _ => None
  end.

Definition device_fields : list field :=
  [("id", Required); ("stable_id", Defaulted); ("display_name", Nothing); ("model", Nothing); ("transport", Required);
   ("transport_address", Required); ("available", Required); ("adb", Nothing); ("usb", Nothing)].

Definition DeviceDescriptor_from : decode DeviceDescriptor := fun v =>
  match struct_fields false device_fields v with
  | Some [id; stable; display; model; transport; address; available; adb; usb] =>
      id ← required as_string id; stable ← optional as_string stable; display ← optional as_string display;
      model ← optional as_string model; transport ← required (as_variant transport_named) transport;
      address ← required as_string address; available ← required as_bool available;
      adb ← optional AdbDetailDto_from adb; usb ← optional UsbDetailDto_from usb;
      Some (mkDevice id stable display model transport address available adb usb)
  | _ => None
  end.

Definition AdbDetailDto_json (d : AdbDetailDto) : jvalue :=
  JObject [("state", JString (adt_state d)); ("product", json_option JString (adt_product d));
           ("model", json_option JString (adt_model d)); ("device", json_option JString (adt_device d))].
Definition UsbDetailDto_json (d : UsbDetailDto) : jvalue :=
  JObject [("bus_number", JInt (udt_bus_number d)); ("serial", json_option JString (udt_serial d));
           ("vendor_id", JInt (udt_vendor_id d)); ("product_id", JInt (udt_product_id d)); ("mode", JString (udt_mode d))].
Definition DeviceDescriptor_json (d : DeviceDescriptor) : jvalue :=
  JObject [("id", JString (dd_id d)); ("stable_id", json_option JString (dd_stable_id d));
           ("display_name", json_option JString (dd_display_name d)); ("model", json_option JString (dd_model d));
           ("transport", JString (transport_name (dd_transport d))); ("transport_address", JString (dd_transport_address d));
           ("available", JBool (dd_available d)); ("adb", json_option AdbDetailDto_json (dd_adb d));
           ("usb", json_option UsbDetailDto_json (dd_usb d))].

Definition device_request (json : string) : AppResult DeviceDescriptor :=
  map_err (fun e => with_detail (Text e) (public_new InvalidArgument "invalid device JSON")) (from_text DeviceDescriptor_from json).

(** [path] and [depth]. *)
Definition FfiListFilesRequest : decode (string * Z) := fun v =>
  match struct_fields true [("path", Nothing); ("depth", Nothing)] v with
  | Some [p; d] => p ← optional as_string p; d ← optional as_u32 d; Some (default "." p, default 1 d)
  | _ => None
  end.

Definition FfiStatFileRequest : decode string := fun v =>
  match struct_fields true [("path", Nothing)] v with
  | Some [p] => p ← optional as_string p; Some (default "." p)
  | _ => None
  end.

Definition FfiCountFilesRequest : decode (string * Z * list string) := fun v =>
  match struct_fields true [("path", Nothing); ("depth", Nothing); ("exclusions", Defaulted)] v with
  | Some [p; d; x] =>
      p ← optional as_string p; d ← optional as_u32 d; x ← defaulted [] (as_vec as_string) x; Some (default "." p, default 1 d, x)
  | _ => None
  end.

(** One text that is required: [path], [text] or [device_id]. *)
Definition text_request (name : string) : decode string := fun v =>
  match struct_fields true [(name, Required)] v with Some [t] => required as_string t | _ => None end.
Definition FfiCreateDirectoryRequest : decode string := text_request "path".
Definition FfiClipboardSetRequest : decode string := text_request "text".
Definition FfiTrustRemoveRequest : decode string := text_request "device_id".
Definition FfiFetchExifRequest : decode string := text_request "path".

Definition two_texts (a b : string) : decode (string * string) := fun v =>
  match struct_fields true [(a, Required); (b, Required)] v with
  | Some [x; y] => x ← required as_string x; y ← required as_string y; Some (x, y)
  | _ => None
  end.
Definition FfiMovePathRequest : decode (string * string) := two_texts "source" "target".
Definition FfiTrustResetRequest : decode (string * string) := two_texts "endpoint" "expected_device_id".

Definition FfiDeletePathsRequest : decode (list string * bool * bool) := fun v =>
  match struct_fields true [("paths", Defaulted); ("trash", Defaulted); ("sync", Defaulted)] v with
  | Some [p; t; s] =>
      p ← defaulted [] (as_vec as_string) p; t ← defaulted false as_bool t; s ← defaulted false as_bool s; Some (p, t, s)
  | _ => None
  end.

Definition UpdateFileInfoItemDto_from : decode UpdateFileInfoItemDto := fun v =>
  match struct_fields false [("path", Required); ("size", Required); ("created_at", Nothing); ("modified_at", Nothing);
                             ("is_directory", Required); ("checksum", Nothing); ("is_trash", Nothing); ("id", Nothing);
                             ("ext_data", Nothing)] v with
  | Some [p; size; created; modified; dir; checksum; trash; id; ext] =>
      p ← required as_string p; size ← required as_u64 size; created ← optional as_u64 created; modified ← optional as_u64 modified;
      dir ← required as_bool dir; checksum ← optional as_string checksum; trash ← optional as_bool trash;
      id ← optional as_u64 id; ext ← optional as_string ext;
      Some (mkUpdateItem p size created modified dir checksum trash id ext)
  | _ => None
  end.

Definition FfiUpdateFileInfoRequest : decode (list UpdateFileInfoItemDto * bool) := fun v =>
  match struct_fields true [("files", Defaulted); ("is_sync", Defaulted)] v with
  | Some [f; s] => f ← defaulted [] (as_vec UpdateFileInfoItemDto_from) f; s ← defaulted false as_bool s; Some (f, s)
  | _ => None
  end.

Definition FfiClipboardDeleteRequest : decode Z := fun v =>
  match struct_fields true [("timestamp_ms", Required)] v with Some [t] => required as_i64 t | _ => None end.

Definition FfiMonitorFolderRequest : decode (string * bool) := fun v =>
  match struct_fields true [("path", Required); ("enabled", Nothing)] v with
  | Some [p; e] => p ← required as_string p; e ← optional as_bool e; Some (p, default true e)
  | _ => None
  end.

(** [remote_path], [local_path] and [overwrite]. *)
Definition FfiTransferPaths : decode (string * string * bool) := fun v =>
  match struct_fields false [("remote_path", Required); ("local_path", Required); ("overwrite", Nothing)] v with
  | Some [r; l; o] => r ← required as_string r; l ← required as_string l; o ← optional as_bool o; Some (r, l, default false o)
  | _ => None
  end.
Definition ffi_transfer_paths : string -> AppResult (string * string * bool) := from_request FfiTransferPaths.

Definition BatchTransferItemDto_from : decode BatchTransferItemDto := fun v =>
  match struct_fields false [("source", Required); ("target", Required)] v with
  | Some [s; t] => s ← required as_string s; t ← required as_string t; Some (Transfer.mkBatchItem s t)
  | _ => None
  end.
Definition TreeTransferDto_from : decode TreeTransferDto := fun v =>
  match struct_fields false [("source", Required); ("target", Required)] v with
  | Some [s; t] => s ← required as_string s; t ← required as_string t; Some (mkTree s t)
  | _ => None
  end.

Definition FfiBatchRequest (session_id : Z) : decode BatchTransferRequest := fun v =>
  match struct_fields true [("files", Defaulted); ("trees", Defaulted); ("overwrite", Nothing)] v with
  | Some [f; t; o] =>
      f ← defaulted [] (as_vec BatchTransferItemDto_from) f; t ← defaulted [] (as_vec TreeTransferDto_from) t;
      o ← optional as_bool o; Some (mkBatchRequest session_id f t (default false o))
  | _ => None
  end.
Definition batch_request_from_json (json : string) (session_id : Z) : AppResult BatchTransferRequest :=
  from_request (FfiBatchRequest session_id) json.

Definition MediaPageRequestRaw_from : decode MediaPageRequestRaw := fun v =>
  match struct_fields true [("limit", Nothing); ("cursor", Nothing)] v with
  | Some [l; c] => l ← optional as_u64 l; c ← optional as_u64 c; Some (mkPageRaw l c)
  | _ => None
  end.
Definition page_request (json op : string) : AppResult MediaPageRequest := parse_page_request (from_text MediaPageRequestRaw_from json) op.

(** What [parse_profile] looks up in a [serde_json::Value]. *)
Definition json_view (v : jvalue) : json_object :=
  mkJson (fun k => value_get k v ≫= as_string) (fun k => value_get k v ≫= as_bool).
Definition profile_request (session_id : Z) (json op : string) : AppResult SyncProfileDto :=
  parse_profile session_id (from_text (fun v => json_view <$> as_value v) json) op.

Definition MediaKindDto_named (s : string) : option MediaKindDto :=
  if bool_decide (s = "photo") then Some PhotoDto
  else if bool_decide (s = "video") then Some VideoDto
  else if bool_decide (s = "audio") then Some AudioDto
  else None.

Definition MediaChangeItemDto_from : decode MediaChangeItemDto := fun v =>
  match struct_fields false ((fun k => (k, Nothing)) <$>
          ["media_id"; "path"; "size"; "created_at"; "modified_at"; "mime_type"; "title"; "album_name"]) v with
  | Some [id; p; size; created; modified; mime; title; album] =>
      id ← optional as_u64 id; p ← optional as_string p; size ← optional as_u64 size; created ← optional as_u64 created;
      modified ← optional as_u64 modified; mime ← optional as_string mime; title ← optional as_string title;
      album ← optional as_string album;
      Some (mkMediaChangeItem id p size created modified mime title album)
  | _ => None
  end.

Definition MediaChangeDto_from : decode MediaChangeDto := fun v =>
  match struct_fields false [("media_kind", Required); ("added", Required); ("deleted", Required); ("updated", Required)] v with
  | Some [kind; added; deleted; updated] =>
      kind ← required (as_variant MediaKindDto_named) kind; added ← required (as_vec MediaChangeItemDto_from) added;
      deleted ← required (as_vec MediaChangeItemDto_from) deleted; updated ← required (as_vec MediaChangeItemDto_from) updated;
      Some (mkMediaChange kind added deleted updated)
  | _ => None
  end.
End Decoding.

(** ** The application *)

(** What a function asks, by the type of the answer. *)
Inductive app_call : Type -> Type :=
  | AShutdown : app_call unit
  | AListDevices (request : ListDevices) : app_call (list DeviceDescriptor)
  | ADiscoverDevices (request : ListDevices) : app_call DeviceDiscoveryResult
  | AConnect (device : DeviceDescriptor) : app_call Z
  | ADisconnect (id : Z) : app_call unit
  | AGetSession (id : Z) : app_call SessionSnapshot
  | AListFiles (id : Z) (path : string) (depth : Z) : app_call (list FileEntryDto)
  | ACreateDirectory (id : Z) (path : string) : app_call unit
  | APing (id : Z) : app_call Z
  | AStartDownload (id : Z) (remote : string) (local : path) (overwrite : bool) : app_call Z
  | AStartUpload (id : Z) (local : path) (remote : string) (overwrite : bool) : app_call Z
  | ACancelTransfer (id : Z) : app_call unit
  | AGetTransfer (id : Z) : app_call TransferSnapshot
  | AListTransfers : app_call (list TransferSnapshot)
  | AStatFile (id : Z) (path : string) : app_call (option FileEntryDto)
  | ACountFiles (id : Z) (path : string) (depth : Z) (exclusions : list string) : app_call Z
  | AMovePath (id : Z) (source target : string) : app_call unit
  | ADeletePaths (id : Z) (paths : list string) (trash sync : bool) : app_call (list FileEntryDto)
  | AUpdateFilesInfo (id : Z) (files : list UpdateFileInfoItemDto) (is_sync : bool) : app_call bool
  | AListClipboards (id : Z) : app_call (list ClipboardEntryDto)
  | ASetClipboard (id : Z) (text : string) : app_call unit
  | ADeleteClipboard (id timestamp_ms : Z) : app_call unit
  | AClearClipboards (id : Z) : app_call unit
  | AListTrustRecords : app_call (list TrustRecordDto)
  | ARemoveTrustRecord (device_id : string) : app_call bool
  | AResetWifiTrust (endpoint expected_device_id : string) : app_call unit
  | AStartBatchDownload (request : BatchTransferRequest) : app_call Z
  | AStartBatchUpload (request : BatchTransferRequest) : app_call Z
  | AMonitorFolder (id : Z) (path : string) (enabled : bool) : app_call unit
  | APhotoLibrary (id : Z) (page : MediaPageRequest) : app_call PhotoLibraryDto
  | AVideoLibrary (id : Z) (page : MediaPageRequest) : app_call VideoLibraryDto
  | AAudioLibrary (id : Z) (page : MediaPageRequest) : app_call AudioLibraryDto
  | AFetchExif (id : Z) (path : string) : app_call ExifDataDto
  | APlanSync (profile : SyncProfileDto) : app_call SyncPlanDto
  | AStartSync (profile : SyncProfileDto) : app_call string
  | AGetSyncStatus (profile_id : string) : app_call SyncStatusDto
  | AStopSync (profile_id : string) : app_call unit
  | AStartSyncWatch (profile_id : string) : app_call unit
  | AStopSyncWatch (profile_id : string) : app_call unit.

(** It answers, or panics ([None]); how many sessions there are is always known. *)
Class Application (W : Type) := {
  ask : forall T, app_call T -> W -> option (AppResult T) * W;
  session_count : W -> Z
}.
#[global] Arguments ask {W _ T} _ _.

(** How the records of the application are written. *)
Class DtoJson := {
  discovery_json : DeviceDiscoveryResult -> jvalue;
  session_json : SessionSnapshot -> jvalue;
  transfer_json : TransferSnapshot -> jvalue;
  file_json : FileEntryDto -> jvalue;
  clipboard_json : ClipboardEntryDto -> jvalue;
  trust_json : TrustRecordDto -> jvalue;
  photo_json : PhotoLibraryDto -> jvalue;
  video_json : VideoLibraryDto -> jvalue;
  audio_json : AudioLibraryDto -> jvalue;
  exif_json : ExifDataDto -> jvalue;
  sync_plan_json : SyncPlanDto -> jvalue;
  sync_status_json : SyncStatusDto -> jvalue;
  photo_from_json : decode PhotoLibraryDto;
  video_from_json : decode VideoLibraryDto;
  audio_from_json : decode AudioLibraryDto
}.

(** A value is written by serde_json. *)
#[export] Instance jvalue_to_json `{SerdeJson} : ToJson jvalue := print_json.

(** [{ "name": value }] *)
Definition one (name : string) (v : jvalue) : jvalue := JObject [(name, v)].

(** The memory a pointer and a length describe. *)
Record Input := mkInput { in_ptr : Z; in_bytes : list byte }.

Definition utf8 (bytes : list byte) : bool := is_utf8 (string_of_list_byte bytes).

(** ** The functions *)

Section Calls.
Context `{Allocator} `{SerdeJson} `{ToJson PublicError} `{DtoJson} {W : Type} `{Application W}.

(** What the closure inside [catch] does: it asks the application, then builds the result in memory, or panics ([None]). *)
Definition body : Type := W -> (heap -> option (HsCallResult * heap)) * W.

Definition answer (r : AppResult jvalue) : body :=
  fun w => (fun h => Some (match r with Ok v => ffi_ok v h | Err e => ffi_err e h end), w).

(** [ffi_try!] *)
Definition try_ {T} (e : AppResult T) (k : T -> body) : body :=
  match e with Ok value => k value | Err error => answer (Err error) end.

Definition asking {T} (c : app_call T) (k : AppResult T -> body) : body :=
  fun w => match ask c w with
           | (Some r, w) => k r w
           | (None, w) => (fun _ => None, w)
           end.

Definition ask_and_answer {T} (c : app_call T) (show : T -> jvalue) : body :=
  asking c (fun r => answer (match r with Ok v => Ok (show v) | Err e => Err e end)).

Definition caught (op : string) (b : body) (w : W) (h : heap) : HsCallResult * heap * W :=
  let (f, w) := b w in (catch op f h, w).

(** A function with a handle, and one that reads a request as well. *)
Definition on_runtime (op : string) (runtime : Z) (b : body) : body := try_ (runtime_ref runtime op) (fun _ => b).
Definition reading (op : string) (request : Input) (k : string -> body) : body :=
  try_ (input_str utf8 (in_ptr request) (in_bytes request) op) k.
Definition requested (op : string) (runtime : Z) (request : Input) (k : string -> body) : body :=
  on_runtime op runtime (reading op request k).

(** *** lib.rs *)

(** [tokio] is whether an executor can be built, [create] what [HandShakerRuntime::create] answers, [boxed] the address of the
    new handle.  The third component is what is written to the slot. *)
Definition hs_runtime_create (config : Input) (out : Z) (tokio : result string unit)
    (create : RuntimeConfig -> W -> option (AppResult unit) * W) (boxed : Z) (w : W) (h : heap)
  : HsCallResult * heap * W * option Z :=
  let op := "runtime_create" in
  let created := map_err (fun e => with_detail (Text e) (public_new Internal "tokio runtime creation failed")) tokio in
  match out_slot out op with
  | Err e => (caught op (answer (Err e)) w h, None)
  | Ok _ =>
      match input_str utf8 (in_ptr config) (in_bytes config) op with
      | Err e => (caught op (answer (Err e)) w h, None)
      | Ok json =>
          match config_from_json json with
          | Err e => (caught op (answer (Err e)) w h, None)
          | Ok config =>
              match created with
              | Err e => (caught op (answer (Err e)) w h, None)
              | Ok _ =>
                  match create config w with
                  | (Some (Ok _), w) => (caught op (answer (Ok (one "created" (JBool true)))) w h, Some boxed)
                  | (Some (Err e), w) => (caught op (answer (Err e)) w h, None)
                  | (None, w) => (caught op (fun w => (fun _ => None, w)) w h, None)
                  end
              end
          end
      end
  end.

Definition hs_runtime_shutdown (runtime : Z) : W -> heap -> HsCallResult * heap * W :=
  caught "runtime_shutdown"
    (if runtime =? 0 then answer (Ok (one "shutdown" (JBool true)))
     else ask_and_answer AShutdown (fun _ => one "shutdown" (JBool true))).

(** Nothing is answered: the handle is gone, and so are panics. *)
Definition hs_runtime_destroy (runtime : Z) (w : W) : W := if runtime =? 0 then w else (ask AShutdown w).2.

Definition hs_list_devices (runtime : Z) (request : Input) : W -> heap -> HsCallResult * heap * W :=
  caught "list_devices" (requested "list_devices" runtime request (fun json =>
    try_ (list_devices_request_from_json json) (fun request =>
    ask_and_answer (AListDevices request) (json_list DeviceDescriptor_json)))).

Definition hs_connect (runtime : Z) (request : Input) : W -> heap -> HsCallResult * heap * W :=
  caught "connect" (requested "connect" runtime request (fun json =>
    try_ (device_request json) (fun device => ask_and_answer (AConnect device) (fun id => one "session_id" (JInt id))))).

Definition hs_disconnect (runtime session_id : Z) : W -> heap -> HsCallResult * heap * W :=
  caught "disconnect" (on_runtime "disconnect" runtime
    (ask_and_answer (ADisconnect session_id) (fun _ => one "disconnected" (JBool true)))).

Definition hs_get_session (runtime session_id : Z) : W -> heap -> HsCallResult * heap * W :=
  caught "get_session" (on_runtime "get_session" runtime (ask_and_answer (AGetSession session_id) session_json)).

Definition hs_list_files (runtime session_id : Z) (request : Input) : W -> heap -> HsCallResult * heap * W :=
  caught "list_files" (requested "list_files" runtime request (fun json =>
    try_ (from_request FfiListFilesRequest json) (fun r =>
    ask_and_answer (AListFiles session_id r.1 r.2) (json_list file_json)))).

Definition hs_create_directory (runtime session_id : Z) (request : Input) : W -> heap -> HsCallResult * heap * W :=
  caught "create_directory" (requested "create_directory" runtime request (fun json =>
    try_ (from_request FfiCreateDirectoryRequest json) (fun path =>
    ask_and_answer (ACreateDirectory session_id path) (fun _ => one "created" (JBool true))))).

Definition hs_ping (runtime session_id : Z) : W -> heap -> HsCallResult * heap * W :=
  caught "ping" (on_runtime "ping" runtime (ask_and_answer (APing session_id) (fun ms => one "round_trip_ms" (JInt ms)))).

Definition transfer_id (id : Z) : jvalue := one "transfer_id" (JInt id).

Definition hs_transfer_start_download (runtime session_id : Z) (request : Input) : W -> heap -> HsCallResult * heap * W :=
  caught "transfer_start_download" (requested "transfer_start_download" runtime request (fun json =>
    try_ (ffi_transfer_paths json) (fun '(remote, local, overwrite) =>
    ask_and_answer (AStartDownload session_id remote local overwrite) transfer_id))).

Definition hs_transfer_start_upload (runtime session_id : Z) (request : Input) : W -> heap -> HsCallResult * heap * W :=
  caught "transfer_start_upload" (requested "transfer_start_upload" runtime request (fun json =>
    try_ (ffi_transfer_paths json) (fun '(remote, local, overwrite) =>
    ask_and_answer (AStartUpload session_id local remote overwrite) transfer_id))).

Definition hs_transfer_cancel (runtime id : Z) : W -> heap -> HsCallResult * heap * W :=
  caught "transfer_cancel" (on_runtime "transfer_cancel" runtime
    (ask_and_answer (ACancelTransfer id) (fun _ => one "cancelled" (JBool true)))).

Definition hs_transfer_get (runtime id : Z) : W -> heap -> HsCallResult * heap * W :=
  caught "transfer_get" (on_runtime "transfer_get" runtime (ask_and_answer (AGetTransfer id) transfer_json)).

Definition hs_transfer_list (runtime : Z) : W -> heap -> HsCallResult * heap * W :=
  caught "transfer_list" (on_runtime "transfer_list" runtime (ask_and_answer AListTransfers (json_list transfer_json))).

(** *** files.rs *)

Definition hs_stat_file (runtime session_id : Z) (request : Input) : W -> heap -> HsCallResult * heap * W :=
  caught "stat_file" (requested "stat_file" runtime request (fun json =>
    try_ (from_request FfiStatFileRequest json) (fun path =>
    ask_and_answer (AStatFile session_id path) (fun file => one "file" (json_option file_json file))))).

Definition hs_count_files (runtime session_id : Z) (request : Input) : W -> heap -> HsCallResult * heap * W :=
  caught "count_files" (requested "count_files" runtime request (fun json =>
    try_ (from_request FfiCountFilesRequest json) (fun '(path, depth, exclusions) =>
    ask_and_answer (ACountFiles session_id path depth exclusions) (fun count => one "count" (JInt count))))).

Definition hs_move_path (runtime session_id : Z) (request : Input) : W -> heap -> HsCallResult * heap * W :=
  caught "move_path" (requested "move_path" runtime request (fun json =>
    try_ (from_request FfiMovePathRequest json) (fun '(source, target) =>
    ask_and_answer (AMovePath session_id source target) (fun _ => one "moved" (JBool true))))).

Definition hs_delete_paths (runtime session_id : Z) (request : Input) : W -> heap -> HsCallResult * heap * W :=
  caught "delete_paths" (requested "delete_paths" runtime request (fun json =>
    try_ (from_request FfiDeletePathsRequest json) (fun '(paths, trash, sync) =>
    ask_and_answer (ADeletePaths session_id paths trash sync) (fun deleted => one "deleted" (json_list file_json deleted))))).

(** Its error alone names the operation. *)
Definition hs_update_file_info (runtime session_id : Z) (request : Input) : W -> heap -> HsCallResult * heap * W :=
  caught "update_file_info" (requested "update_file_info" runtime request (fun json =>
    try_ (map_err (operation "update_file_info") (from_request FfiUpdateFileInfoRequest json)) (fun '(files, is_sync) =>
    ask_and_answer (AUpdateFilesInfo session_id files is_sync) (fun _ => one "updated" (JBool true))))).

(** *** clipboard.rs *)

Definition hs_clipboard_list (runtime session_id : Z) : W -> heap -> HsCallResult * heap * W :=
  caught "clipboard_list" (on_runtime "clipboard_list" runtime
    (ask_and_answer (AListClipboards session_id) (json_list clipboard_json))).

Definition hs_clipboard_set (runtime session_id : Z) (request : Input) : W -> heap -> HsCallResult * heap * W :=
  caught "clipboard_set" (requested "clipboard_set" runtime request (fun json =>
    try_ (from_request FfiClipboardSetRequest json) (fun text =>
    ask_and_answer (ASetClipboard session_id text) (fun _ => one "set" (JBool true))))).

Definition hs_clipboard_delete (runtime session_id : Z) (request : Input) : W -> heap -> HsCallResult * heap * W :=
  caught "clipboard_delete" (requested "clipboard_delete" runtime request (fun json =>
    try_ (from_request FfiClipboardDeleteRequest json) (fun timestamp_ms =>
    ask_and_answer (ADeleteClipboard session_id timestamp_ms) (fun _ => one "deleted" (JBool true))))).

Definition hs_clipboard_clear (runtime session_id : Z) : W -> heap -> HsCallResult * heap * W :=
  caught "clipboard_clear" (on_runtime "clipboard_clear" runtime
    (ask_and_answer (AClearClipboards session_id) (fun _ => one "cleared" (JBool true)))).

(** *** trust.rs *)

Definition normalize_device_id (raw : string) : string := if starts_with "phone:" raw then raw else "phone:" +:+ raw.

Definition hs_trust_list (runtime : Z) : W -> heap -> HsCallResult * heap * W :=
  caught "trust_list" (on_runtime "trust_list" runtime (ask_and_answer AListTrustRecords (json_list trust_json))).

Definition hs_trust_remove (runtime : Z) (request : Input) : W -> heap -> HsCallResult * heap * W :=
  caught "trust_remove" (requested "trust_remove" runtime request (fun json =>
    try_ (from_request FfiTrustRemoveRequest json) (fun device_id =>
    ask_and_answer (ARemoveTrustRecord (normalize_device_id device_id)) (fun removed => one "removed" (JBool removed))))).

Definition hs_trust_reset (runtime : Z) (request : Input) : W -> heap -> HsCallResult * heap * W :=
  caught "trust_reset" (requested "trust_reset" runtime request (fun json =>
    try_ (from_request FfiTrustResetRequest json) (fun '(endpoint, expected) =>
    ask_and_answer (AResetWifiTrust endpoint (normalize_device_id expected)) (fun _ => one "reset" (JBool true))))).

Definition hs_discover_devices (runtime : Z) : W -> heap -> HsCallResult * heap * W :=
  caught "discover_devices" (on_runtime "discover_devices" runtime
    (ask_and_answer (ADiscoverDevices ListDevices_default) discovery_json)).

(** *** batch.rs and monitor.rs *)

Definition hs_transfer_start_batch_download (runtime session_id : Z) (request : Input) : W -> heap -> HsCallResult * heap * W :=
  caught "transfer_start_batch_download" (requested "transfer_start_batch_download" runtime request (fun json =>
    try_ (batch_request_from_json json session_id) (fun request => ask_and_answer (AStartBatchDownload request) transfer_id))).

Definition hs_transfer_start_batch_upload (runtime session_id : Z) (request : Input) : W -> heap -> HsCallResult * heap * W :=
  caught "transfer_start_batch_upload" (requested "transfer_start_batch_upload" runtime request (fun json =>
    try_ (batch_request_from_json json session_id) (fun request => ask_and_answer (AStartBatchUpload request) transfer_id))).

Definition hs_monitor_folder (runtime session_id : Z) (request : Input) : W -> heap -> HsCallResult * heap * W :=
  caught "monitor_folder" (requested "monitor_folder" runtime request (fun json =>
    try_ (from_request FfiMonitorFolderRequest json) (fun '(path, enabled) =>
    ask_and_answer (AMonitorFolder session_id path enabled) (fun _ => one "registered" (JBool true))))).

(** *** media.rs *)

Definition hs_media_photo_library (runtime session_id : Z) (request : Input) : W -> heap -> HsCallResult * heap * W :=
  caught "media_photo_library" (requested "media_photo_library" runtime request (fun json =>
    try_ (page_request json "media_photo_library") (fun page => ask_and_answer (APhotoLibrary session_id page) photo_json))).

Definition hs_media_video_library (runtime session_id : Z) (request : Input) : W -> heap -> HsCallResult * heap * W :=
  caught "media_video_library" (requested "media_video_library" runtime request (fun json =>
    try_ (page_request json "media_video_library") (fun page => ask_and_answer (AVideoLibrary session_id page) video_json))).

Definition hs_media_audio_library (runtime session_id : Z) (request : Input) : W -> heap -> HsCallResult * heap * W :=
  caught "media_audio_library" (requested "media_audio_library" runtime request (fun json =>
    try_ (page_request json "media_audio_library") (fun page => ask_and_answer (AAudioLibrary session_id page) audio_json))).

Definition hs_media_fetch_exif (runtime session_id : Z) (request : Input) : W -> heap -> HsCallResult * heap * W :=
  caught "media_fetch_exif" (requested "media_fetch_exif" runtime request (fun json =>
    try_ (from_request FfiFetchExifRequest json) (fun path => ask_and_answer (AFetchExif session_id path) exif_json))).

(** Nothing is asked: the library and the change are both given. *)
Definition merge_json {L} (library_from : decode L) (merge : L -> MediaChangeDto -> AppResult L) (show : L -> jvalue)
    (invalid : string -> PublicError) (library_json : string) (change : MediaChangeDto) : body :=
  try_ (map_err invalid (from_text library_from library_json)) (fun library =>
  answer (match merge library change with Ok merged => Ok (show merged) | Err e => Err e end)).

Definition hs_media_merge_change (runtime : Z) (kind library change : Input) : W -> heap -> HsCallResult * heap * W :=
  let op := "media_merge_change" in
  let invalid e := operation op (with_detail (Text e) (public_new InvalidArgument "invalid JSON")) in
  caught op (on_runtime op runtime (reading op kind (fun kind => reading op library (fun library => reading op change (fun change =>
    try_ (map_err invalid (from_text MediaChangeDto_from change)) (fun change =>
    if bool_decide (kind = "photo") then merge_json photo_from_json merge_photo_library photo_json invalid library change
    else if bool_decide (kind = "video") then merge_json video_from_json merge_video_library video_json invalid library change
    else if bool_decide (kind = "audio") then merge_json audio_from_json merge_audio_library audio_json invalid library change
    else let quote := String "034" "" in
         answer (Err (operation op (public_new InvalidArgument ("invalid media kind " +:+ quote +:+ kind +:+ quote)))))))))).

(** *** sync.rs *)

Definition hs_sync_plan (runtime session_id : Z) (request : Input) : W -> heap -> HsCallResult * heap * W :=
  caught "sync.plan" (requested "sync.plan" runtime request (fun json =>
    try_ (profile_request session_id json "sync.plan") (fun profile => ask_and_answer (APlanSync profile) sync_plan_json))).

(** The session is looked up first. *)
Definition hs_sync_start (runtime session_id : Z) (request : Input) : W -> heap -> HsCallResult * heap * W :=
  caught "sync.start" (requested "sync.start" runtime request (fun json =>
    try_ (profile_request session_id json "sync.start") (fun profile =>
    asking (AGetSession session_id) (fun session =>
    match session with
    | Err _ => answer (Err (operation "sync.start" (public_new SessionNotFound "session not found")))
    | Ok _ => ask_and_answer (AStartSync profile) (fun profile_id => one "profile_id" (JString profile_id))
    end)))).

Definition hs_sync_status (runtime : Z) (profile_id : Input) : W -> heap -> HsCallResult * heap * W :=
  caught "sync.status" (requested "sync.status" runtime profile_id (fun id => ask_and_answer (AGetSyncStatus id) sync_status_json)).

Definition hs_sync_stop (runtime : Z) (profile_id : Input) : W -> heap -> HsCallResult * heap * W :=
  caught "sync.stop" (requested "sync.stop" runtime profile_id (fun id =>
    ask_and_answer (AStopSync id) (fun _ => one "stopped" (JBool true)))).

Definition hs_sync_start_watch (runtime : Z) (profile_id : Input) : W -> heap -> HsCallResult * heap * W :=
  caught "sync.start_watch" (requested "sync.start_watch" runtime profile_id (fun id =>
    ask_and_answer (AStartSyncWatch id) (fun _ => one "started" (JBool true)))).

Definition hs_sync_stop_watch (runtime : Z) (profile_id : Input) : W -> heap -> HsCallResult * heap * W :=
  caught "sync.stop_watch" (requested "sync.stop_watch" runtime profile_id (fun id =>
    ask_and_answer (AStopSyncWatch id) (fun _ => one "stopped" (JBool true)))).

(** *** diagnostics.rs *)

(** The probe of adb: what each poll of the child says, and its output when it has ended. *)
Inductive adb_poll := AdbExited (success : bool) | AdbRunning (past_deadline : bool) | AdbPollFails.

Record AdbChild := mkAdbChild { ac_polls : list adb_poll; ac_output : option string }.

(** The status, [Some None] for a child that is killed, [None] while it still runs. *)
Fixpoint adb_wait (polls : list adb_poll) : option (option bool) :=
  match polls with
  | [] => None
  | AdbExited success :: _ => Some (Some success)
  | AdbRunning true :: _ => Some None
  | AdbRunning false :: polls => adb_wait polls
  | AdbPollFails :: _ => Some None
  end.

Definition adb_probe (child : option AdbChild) : option (bool * option string) :=
  match child with
  | None => Some (false, None)
  | Some child =>
      match adb_wait (ac_polls child) with
      | None => None
      | Some (Some true) =>
          Some (match ac_output child with
                | None => (false, None)
                | Some stdout =>
                    (true, match head (lines (from_utf8_lossy stdout)) with
                           | Some line => if bool_decide (trim line = "") then None else Some (trim line)
                           | None => None
                           end)
                end)
      | Some _ => Some (false, None)
      end
  end.

Definition is_terminal (state : TransferState) : bool :=
  match state with Completed | Failed | TransferIsCancelled => true | _ => false end.

(** What the build knows of itself. *)
Record BuildInfo := mkBuildInfo { bi_crate_version : string; bi_platform : string; bi_arch : string }.

Definition ABI_VERSION : string := "1.5.0".
Definition APPLICATION_API_VERSION : string := "1.0.0".
Definition JSON_CONTRACT_VERSION : Z := 1.

Definition capabilities : list string :=
  ["files"; "clipboard"; "trust"; "media"; "batch"; "sync"; "monitor"; "events"; "discovery"; "diagnostics"; "update_file_info";
   "media_merge"].

(** [json!] keeps the keys in their order as text. *)
Definition diagnostics_json (build : BuildInfo) (config : RuntimeConfig) (adb : bool * option string)
    (sessions transfers subscriptions : Z) : jvalue :=
  JObject [("abi", JString ABI_VERSION); ("active_sessions", JInt sessions); ("active_subscriptions", JInt subscriptions);
           ("active_transfers", JInt transfers); ("adb_available", JBool adb.1); ("adb_path", JString (rc_adb_path config));
           ("adb_version", json_option JString adb.2); ("application_api", JString APPLICATION_API_VERSION);
           ("arch", JString (bi_arch build)); ("capabilities", json_list JString capabilities);
           ("crate_version", JString (bi_crate_version build)); ("json_contract", JInt JSON_CONTRACT_VERSION);
           ("platform", JString (bi_platform build)); ("state_dir", json_option JString (rc_state_dir config));
           ("wire_log_enabled", JBool (bool_decide (is_Some (rc_wire_log config))));
           ("wire_log_payload", JBool (rc_wire_log_payload config))].

(** [subscriptions] is the counter when it is read, at the end.  [None]: adb is still waited for. *)
Definition hs_runtime_diagnostics (runtime : Z) (build : BuildInfo) (config : RuntimeConfig) (adb : option AdbChild)
    (subscriptions : Z) (w : W) (h : heap) : option (HsCallResult * heap * W) :=
  let op := "runtime_diagnostics" in
  match runtime_ref runtime op with
  | Err e => Some (caught op (answer (Err e)) w h)
  | Ok _ =>
      probe ← adb_probe adb;
      Some (caught op (asking AListTransfers (fun transfers =>
        answer (Ok (diagnostics_json build config probe (session_count w)
          (match transfers with
           | Ok snapshots => zlen (filter (fun s => is_terminal (ts_state s) = false) snapshots)
           | Err _ => -1
           end) subscriptions)))) w h)
  end.
End Calls.
