(* ===== verification/FfiCallsProps.v ===== *)
(** * Properties of the calls of the foreign function interface

    A function answers one result that owns one block; none that needs them reaches the application
    before its handle and its request are valid; a listed device can be connected as it was printed; nothing
    that destroys is assumed. *)

From Stdlib Require Import Strings.String Strings.Ascii.
From stdpp Require Import gmap strings countable.
From S2P Require Import Prelude Errors AppErrors Domain Handshake Text Paths Parse SyncRun TrustStore Transfer Devices FilePlan PlanRun MediaDto MediaPage AppRequests FfiThumb FfiCore FfiCoreProps Serde FfiCalls.

#[local] Open Scope string_scope.
#[local] Open Scope list_scope.
#[local] Open Scope Z_scope.

(** ** Devices *)

Definition in_range (bits : Z) (z : Z) : Prop := 0 <= z <= 2 ^ bits - 1.

(** The integers of a descriptor fit their types. *)
Definition usb_ok (d : UsbDetailDto) : Prop :=
  in_range 8 (udt_bus_number d) /\ in_range 16 (udt_vendor_id d) /\ in_range 16 (udt_product_id d).
Definition device_ok (d : DeviceDescriptor) : Prop := match dd_usb d with Some u => usb_ok u | None => True end.

Lemma AdbDetailDto_round_trip (d : AdbDetailDto) : AdbDetailDto_from (AdbDetailDto_json d) = Some d.
Proof. destruct d as [s [p|] [m|] [v|]]; reflexivity. Qed.

Lemma UsbDetailDto_round_trip (d : UsbDetailDto) : usb_ok d -> UsbDetailDto_from (UsbDetailDto_json d) = Some d.
Proof.
  intros (Hb & Hv & Hp). unfold in_range in *. destruct d as [b s v p m]. cbn [udt_bus_number udt_vendor_id udt_product_id] in *.
  assert (as_u8 (JInt b) = Some b) as Eb by (by apply as_int_some). assert (as_u16 (JInt v) = Some v) as Ev by (by apply as_int_some).
  assert (as_u16 (JInt p) = Some p) as Ep by (by apply as_int_some).
  unfold UsbDetailDto_from. match goal with |- context [struct_fields ?dn ?fs ?val] => change (struct_fields dn fs val) with
    (Some [Some (JInt b); Some (json_option JString s); Some (JInt v); Some (JInt p); Some (JString m)]) end.
  cbn [required optional as_string mbind option_bind]. rewrite Eb, Ev, Ep, as_option_string. done.
Qed.

Lemma transport_round_trip (t : TransportKind) : transport_named (transport_name t) = Some t.
Proof. by destruct t. Qed.

Definition device_members (d : DeviceDescriptor) : list (string * jvalue) :=
  match DeviceDescriptor_json d with JObject members => members | _ => [] end.

Lemma DeviceDescriptor_round_trip (d : DeviceDescriptor) : device_ok d -> DeviceDescriptor_from (DeviceDescriptor_json d) = Some d.
Proof.
  intros Hd. destruct d as [id stable display model transport address available adb usb]. unfold device_ok in Hd. simpl in Hd.
  unfold DeviceDescriptor_from.
  change (struct_fields false device_fields (DeviceDescriptor_json (mkDevice id stable display model transport address available adb usb)))
    with (Some [Some (JString id); Some (json_option JString stable); Some (json_option JString display);
                Some (json_option JString model); Some (JString (transport_name transport)); Some (JString address);
                Some (JBool available); Some (json_option AdbDetailDto_json adb); Some (json_option UsbDetailDto_json usb)]).
  cbn [required optional as_string as_bool as_variant mbind option_bind]. rewrite !as_option_string, transport_round_trip.
  cbn [mbind option_bind]. rewrite (as_option_json AdbDetailDto_from), (as_option_json UsbDetailDto_from); [done| |].
  - intros u ->. split; [by apply UsbDetailDto_round_trip|done].
  - intros a _. split; [apply AdbDetailDto_round_trip|done].
Qed.

(** However its members are ordered, and with others among them. *)
Lemma device_read_back (d : DeviceDescriptor) (members extra : list (string * jvalue)) :
  device_ok d -> members ≡ₚ device_members d ++ extra -> Forall (fun m => m.1 ∉ device_fields.*1) extra ->
  DeviceDescriptor_from (JObject members) = Some d.
Proof.
  intros Hd Hp He. unfold DeviceDescriptor_from. rewrite (struct_fields_perm _ _ _ _ Hp), struct_fields_extra by done.
  exact (DeviceDescriptor_round_trip d Hd).
Qed.

Lemma device_printable (d : DeviceDescriptor) : device_ok d ->
  printable (DeviceDescriptor_json d) = true /\ (depth (DeviceDescriptor_json d) <= 2)%nat.
Proof.
  destruct d as [id [stable|] [display|] [model|] transport address available [[s [p|] [m|] [v|]]|] [[b [sn|] v' p' m']|]];
    unfold device_ok, usb_ok, in_range; simpl; intros Hd; (split; [|lia]); rewrite ?andb_true_r; try done; lia.
Qed.

Lemma devices_printable (ds : list DeviceDescriptor) : Forall device_ok ds ->
  printable (json_list DeviceDescriptor_json ds) = true /\ (depth (json_list DeviceDescriptor_json ds) <= 3)%nat.
Proof.
  intros Hds. unfold json_list. cbn [printable depth].
  assert (forallb printable (DeviceDescriptor_json <$> ds) = true /\
          (foldr (fun v n => Nat.max (depth v) n) O (DeviceDescriptor_json <$> ds) <= 2)%nat) as [-> ?]; [|lia].
  induction Hds as [|d ds Hd Hds [IHp IHd]]; [split; [done|simpl; lia]|]. cbn [fmap list_fmap forallb foldr].
  destruct (device_printable d Hd) as [-> ?]. cbn [fmap] in *. rewrite IHp. split; [done|]. lia.
Qed.

(** ** The functions *)


Section Calls.
Context `{AllocatorLaw} `{SerdeLaw} `{!ToJson PublicError} `{!JsonText PublicError} `{DtoJson} {W : Type} `{Application W}.

#[local] Instance jvalue_json_text : JsonText jvalue.
Proof. intros v s. apply print_not_empty. Qed.

(** The text a host hands over. *)
Definition input_text (request : Input) : string := string_of_list_byte (in_bytes request).





(** *** What they answer *)








(** *** What is refused *)








(** What the handle and the text make of a function that reads a request. *)
Definition readable_request (request : Input) : Prop := in_ptr request <> 0 /\ utf8 (in_bytes request) = true.

#[local] Instance readable_request_dec (request : Input) : Decision (readable_request request).
Proof. unfold readable_request. apply _. Defined.

Lemma caught_request (op : string) (runtime : Z) (request : Input) (k : string -> body (W:=W)) (w : W) (h : heap) :
  runtime <> 0 -> readable_request request ->
  caught op (requested op runtime request k) w h = caught op (k (input_text request)) w h.
Proof.
  intros Hrt [Hp Hu]. unfold requested, on_runtime, reading, runtime_ref, input_str. replace (runtime =? 0) with false by lia.
  cbn [try_]. replace (in_ptr request =? 0) with false by lia. by rewrite Hu.
Qed.


(** *** Devices come back *)

Lemma from_str_written (s : string) (h : heap) : s <> "" ->
  exists p, p <> 0 /\ from_str s h = (mkBuffer p (zlen (bytes_of_string s)) (zlen (bytes_of_string s)), <[p := bytes_of_string s]> h).
Proof.
  intros Hs. unfold from_str, from_bytes. exists (malloc h). destruct (malloc_fresh h) as [Hz _]. split; [done|].
  destruct s as [|c s]; done.
Qed.

(** C16.  A listed device can be connected as it was printed.  When the application lists devices whose integers fit
    their types, [hs_list_devices] answers a block whose text reads back as the list of their members; and a text that holds
    the members of one of these devices, in any order and with further members the descriptor does not have, makes
    [hs_connect] ask the application to connect exactly that device, whatever else has happened since. *)
Theorem listed_device_connects (runtime : Z) (request : Input) (rq : ListDevices) (ds : list DeviceDescriptor) (w w1 : W) (h : heap) :
  runtime <> 0 -> readable_request request -> list_devices_request_from_json (input_text request) = Ok rq ->
  ask (AListDevices rq) w = (Some (Ok ds), w1) -> Forall device_ok ds ->
  exists r h' text, hs_list_devices runtime request w h = (r, h', w1) /\ cr_status r = 0 /\
    h' !! hb_ptr (cr_value r) = Some (bytes_of_string text) /\
    parse_text text = Some (JArray ((fun d => JObject (device_members d)) <$> ds)) /\
    forall d members extra input, d ∈ ds -> members ≡ₚ device_members d ++ extra -> Forall (fun m => m.1 ∉ device_fields.*1) extra ->
      readable_request input -> parse_text (input_text input) = Some (JObject members) ->
      forall w h, hs_connect runtime input w h = caught "connect" (ask_and_answer (AConnect d) (fun id => one "session_id" (JInt id))) w h.
Proof.
  intros Hrt Hrd Hrq Hask Hds. destruct (devices_printable ds Hds) as [Hpr Hdep].
  destruct (print_parse _ Hpr ltac:(lia)) as (text & Ht & Hparse).
  destruct (from_str_written text h (print_not_empty _ _ Ht)) as (p & Hp & Hw).
  exists (mkCallResult 0 (mkBuffer p (zlen (bytes_of_string text)) (zlen (bytes_of_string text))) null_buffer), (<[p := bytes_of_string text]> h), text.
  split_and!.
  - unfold hs_list_devices. rewrite caught_request by done. rewrite Hrq. cbn [try_]. unfold caught, ask_and_answer, asking. rewrite Hask.
    unfold answer, catch, ffi_ok, to_json_text, jvalue_to_json. rewrite Ht, Hw. done.
  - done.
  - simpl. by rewrite lookup_insert_eq.
  - rewrite Hparse. unfold json_list. do 2 f_equal.
  - intros d members extra input Hd Hm He Hi Hpi w' h'. unfold hs_connect. rewrite caught_request by done.
    unfold device_request, from_text. rewrite Hpi. cbn [mbind option_bind].
    rewrite (device_read_back d members extra); [done| |done..]. by eapply Forall_forall in Hds.
Qed.

(** *** Nothing is assumed *)

Lemma object_field_given (members : list (string * jvalue)) (k : string) (a : absence) (v : option jvalue) :
  object_field members (k, a) = Some v -> given k members = match v with Some x => [x] | None => [] end.
Proof. unfold object_field. simpl. destruct (given k members) as [|x [|y l]]; [destruct (tolerates_object a)|..]; by intros [= <-]. Qed.

Lemma optional_bool_true (v : option jvalue) (o : option bool) : optional as_bool v = Some o -> default false o = true -> v = Some (JBool true).
Proof. destruct v as [[]|]; simpl; intros [= <-]; simpl; try done. by intros ->. Qed.

Lemma as_vec_strings (v : jvalue) (l : list string) : as_vec as_string v = Some l -> v = JArray (JString <$> l).
Proof.
  destruct v as [| | | | |items| |]; simpl; try done. intros Hm. f_equal. revert l Hm.
  induction items as [|x items IH]; intros l; simpl; [by intros [= <-]|]. destruct x; simpl; try done.
  destruct (mapM as_string items) as [l'|] eqn:E; simpl; [|done]. intros [= <-]. cbn [fmap list_fmap]. f_equal. by apply IH.
Qed.

(** A request as an object overwrites, moves to the trash, or deletes a path only if it says so. *)
Theorem nothing_assumed (json : string) (members : list (string * jvalue)) (session_id : Z) :
  parse_text json = Some (JObject members) ->
  (forall remote local, ffi_transfer_paths json = Ok (remote, local, true) -> given "overwrite" members = [JBool true]) /\
  (forall request, batch_request_from_json json session_id = Ok request -> bq_overwrite request = true ->
     given "overwrite" members = [JBool true]) /\
  (forall paths trash sync, from_request FfiDeletePathsRequest json = Ok (paths, trash, sync) ->
     (paths <> [] -> given "paths" members = [JArray (JString <$> paths)]) /\
     (trash = true -> given "trash" members = [JBool true]) /\ (sync = true -> given "sync" members = [JBool true])).
Proof.
  intros Hp. unfold ffi_transfer_paths, batch_request_from_json, from_request, from_text. rewrite Hp. cbn [mbind option_bind].
  split_and!.
  - intros remote local. unfold FfiTransferPaths, struct_fields. cbn [andb]. cbn [mapM].
    destruct (object_field members ("remote_path", Required)) as [a|] eqn:Ea; [|done].
    destruct (object_field members ("local_path", Required)) as [b|] eqn:Eb; [|done].
    destruct (object_field members ("overwrite", Nothing)) as [c|] eqn:Ec; [|done]. cbn.
    destruct (required as_string a); [|done]. destruct (required as_string b); [|done].
    destruct (optional as_bool c) as [o|] eqn:Eo; [|done]. intros [= _ _ Ho]. rewrite (optional_bool_true _ _ Eo Ho) in Ec.
    by apply object_field_given in Ec.
  - intros request. unfold FfiBatchRequest, struct_fields. destruct (_ && _); [done|]. cbn [mapM].
    destruct (object_field members ("files", Defaulted)) as [a|] eqn:Ea; [|done].
    destruct (object_field members ("trees", Defaulted)) as [b|] eqn:Eb; [|done].
    destruct (object_field members ("overwrite", Nothing)) as [c|] eqn:Ec; [|done]. cbn.
    destruct (defaulted [] (as_vec BatchTransferItemDto_from) a); [|done]. destruct (defaulted [] (as_vec TreeTransferDto_from) b); [|done].
    destruct (optional as_bool c) as [o|] eqn:Eo; [|done]. intros [= <-] Ho. simpl in Ho. rewrite (optional_bool_true _ _ Eo Ho) in Ec.
    by apply object_field_given in Ec.
  - intros paths trash sync. unfold FfiDeletePathsRequest, struct_fields. destruct (_ && _); [done|]. cbn [mapM].
    destruct (object_field members ("paths", Defaulted)) as [a|] eqn:Ea; [|done].
    destruct (object_field members ("trash", Defaulted)) as [b|] eqn:Eb; [|done].
    destruct (object_field members ("sync", Defaulted)) as [c|] eqn:Ec; [|done]. cbn.
    destruct (defaulted [] (as_vec as_string) a) as [p|] eqn:Ep; [|done]. destruct (defaulted false as_bool b) as [t|] eqn:Et; [|done].
    destruct (defaulted false as_bool c) as [s|] eqn:Es; [|done]. intros [= <- <- <-].
    apply object_field_given in Ea, Eb, Ec. split_and!.
    + intros Hne. rewrite Ea. destruct a as [a|]; simpl in Ep; [by rewrite (as_vec_strings _ _ Ep)|by injection Ep as <-].
    + intros ->. rewrite Eb. destruct b as [[]|]; simpl in Et; try done. by injection Et as ->.
    + intros ->. rewrite Ec. destruct c as [[]|]; simpl in Es; try done. by injection Es as ->.
Qed.










(** *** The functions of another shape *)






(** A run is not started for a session that is not there. *)
Lemma sync_start_needs_session (runtime id : Z) (request : Input) (profile : SyncProfileDto) (e : PublicError) (w w' : W) (h : heap) :
  runtime <> 0 -> readable_request request -> profile_request id (input_text request) "sync.start" = Ok profile ->
  ask (AGetSession id) w = (Some (Err e), w') ->
  hs_sync_start runtime id request w h = (ffi_err (operation "sync.start" (public_new SessionNotFound "session not found")) h, w').
Proof.
  intros Hrt Hr Hp Hs. unfold hs_sync_start. rewrite caught_request by done. rewrite Hp. cbn [try_]. unfold caught, asking. rewrite Hs.
  unfold answer, catch. by destruct (ffi_err _ h).
Qed.

(** The documents show objects; an array of the values in the order of the fields is a request as well. *)
Lemma array_is_a_request (json source target : string) :
  parse_text json = Some (JArray [JString source; JString target]) -> from_request FfiMovePathRequest json = Ok (source, target).
Proof. intros Hp. unfold from_request, from_text. by rewrite Hp. Qed.
End Calls.

(** The id of a device is given its prefix once. *)
Lemma normalize_device_id_idem (raw : string) : normalize_device_id (normalize_device_id raw) = normalize_device_id raw.
Proof.
  unfold normalize_device_id at 2 3. destruct (starts_with "phone:" raw) eqn:E; unfold normalize_device_id; [by rewrite E|].
  assert (starts_with "phone:" ("phone:" +:+ raw) = true) as ->; [|done]. apply starts_with_spec. by exists raw.
Qed.

(** An adb that ends well and says nothing counts as there, without a version. *)
Lemma silent_adb_available : adb_probe (Some (mkAdbChild [AdbExited true] (Some ""))) = Some (true, None).
Proof. reflexivity. Qed.

(** The probe ends with the first poll after its deadline. *)
Lemma adb_probe_ends (polls : list adb_poll) (output : option string) :
  AdbRunning true ∈ polls -> exists r, adb_probe (Some (mkAdbChild polls output)) = Some r.
Proof.
  intros Hin. assert (exists r, adb_wait polls = Some r) as [r Hr].
  { induction polls as [|p polls IH]; [by apply not_elem_of_nil in Hin|]. apply elem_of_cons in Hin as [<-|Hin]; [by eexists|].
    destruct p as [s|[]|]; simpl; [by eexists|by eexists|by apply IH|by eexists]. }
  unfold adb_probe. simpl. rewrite Hr. destruct r as [[]|]; by eexists.
Qed.

(** ** A concrete serde_json

    Values as their numbers, in bits. *)
Module Sample.

Abbreviation tree := (gen_tree (string + Z + bool)).

Fixpoint to_tree (v : jvalue) : tree :=
  match v with
  | JNull => GenNode 0 []
  | JFloat => GenNode 1 []
  | JOpaque => GenNode 2 []
  | JBool b => GenLeaf (inr b)
  | JInt z => GenLeaf (inl (inr z))
  | JString s => GenLeaf (inl (inl s))
  | JArray items => GenNode 3 (map to_tree items)
  | JObject members => GenNode 4 (map (fun m => GenNode 5 [GenLeaf (inl (inl m.1)); to_tree m.2]) members)
  end.

Fixpoint of_tree (t : tree) : jvalue :=
  match t with
  | GenLeaf (inr b) => JBool b
  | GenLeaf (inl (inr z)) => JInt z
  | GenLeaf (inl (inl s)) => JString s
  | GenNode 1 _ => JFloat
  | GenNode 2 _ => JOpaque
  | GenNode 3 items => JArray (map of_tree items)
  | GenNode 4 members =>
      JObject (map (fun t => match t with GenNode _ [GenLeaf (inl (inl k)); v] => (k, of_tree v) | _ => ("", JNull) end) members)
  | _ => JNull
  end.

Fixpoint of_to_tree (v : jvalue) : of_tree (to_tree v) = v.
Proof.
  destruct v as [|b|z| |s|items|members|]; cbn [to_tree of_tree]; try done; f_equal.
  - induction items as [|v items IH]; cbn [map]; [done|]. by rewrite of_to_tree, IH.
  - induction members as [|[k v] members IH]; cbn [map fst snd]; [done|]. by rewrite of_to_tree, IH.
Qed.

Fixpoint bits (p : positive) : string :=
  match p with xH => "1" | xO p => String "0" (bits p) | xI p => String "2" (bits p) end.
Fixpoint of_bits (s : string) : option positive :=
  match s with
  | String "1" EmptyString => Some xH
  | String "0" s => xO <$> of_bits s
  | String "2" s => xI <$> of_bits s
  | _ => None
  end.

Lemma of_bits_bits (p : positive) : of_bits (bits p) = Some p.
Proof. induction p as [p IH|p IH|]; cbn [bits of_bits]; [..|done]; by rewrite IH. Qed.

#[export] Instance sample_serde : SerdeJson := {|
  parse_text s := of_tree <$> (of_bits s ≫= countable.decode);
  serde_error _ := "expected value";
  print_json v := Ok (bits (encode (to_tree v)))
|}.

#[export] Instance sample_serde_law : SerdeLaw.
Proof.
  constructor.
  - intros v s [= <-]. by destruct (encode (to_tree v)).
  - intros v _ _. eexists. split; [reflexivity|]. simpl. rewrite of_bits_bits. simpl. rewrite decode_encode. simpl. by rewrite of_to_tree.
Qed.

(** Errors as their codes. *)
#[export] Instance sample_error_json : ToJson PublicError := fun e => Ok (as_str (pe_code e)).
#[export] Instance sample_error_text : JsonText PublicError.
Proof. intros e s [= <-]. by destruct (pe_code e). Qed.

(** Memory that gives out the first free address. *)
#[export] Instance sample_malloc : Allocator := fun h => fresh ({[0]} ∪ dom h).
#[export] Instance sample_malloc_law : AllocatorLaw.
Proof.
  intros h. pose proof (is_fresh ({[0]} ∪ dom h)) as Hf. unfold malloc, sample_malloc.
  rewrite not_elem_of_union, not_elem_of_singleton, not_elem_of_dom in Hf. exact Hf.
Qed.

(** An application that lists one phone, connects it, and panics at all else; its world counts the calls. *)
Definition phone : DeviceDescriptor :=
  mkDevice "3" None (Some "U2 Pro") None TUsbAccessory "0x18d1:0x2d00" true None (Some (mkUsbDetail 1 (Some "f1e2") 6353 11520 "Accessory")).

#[export] Instance sample_application : Application nat := {|
  ask T c w := (match c in app_call T return option (AppResult T) with
                | AListDevices _ => Some (Ok [phone])
                | AConnect _ => Some (Ok 1)
                | _ => None
                end, S w);
  session_count _ := 0
|}.

#[export] Instance sample_dto : DtoJson := {|
  discovery_json _ := JNull; session_json _ := JNull; transfer_json _ := JNull; file_json _ := JNull; clipboard_json _ := JNull;
  trust_json _ := JNull; photo_json _ := JNull; video_json _ := JNull; audio_json _ := JNull; exif_json _ := JNull;
  sync_plan_json _ := JNull; sync_status_json _ := JNull; photo_from_json _ := None; video_from_json _ := None; audio_from_json _ := None
|}.

(** A text in memory. *)
Definition sample_input (v : jvalue) : Input :=
  mkInput 8 (bytes_of_string (match print_json v with Ok s => s | Err _ => "" end)).
End Sample.
Import Sample.

(** Over the concrete serde_json: the phone of the sample application, its members turned round and one added, is connected. *)
Lemma listed_device_connects_witness :
  exists r h' text, hs_list_devices 1 (sample_input (JObject [])) 0%nat ∅ = (r, h', 1%nat) /\
    h' !! hb_ptr (cr_value r) = Some (bytes_of_string text) /\
    forall w h, hs_connect 1 (sample_input (JObject (("seen", JInt 4) :: reverse (device_members phone)))) w h
      = caught "connect" (ask_and_answer (AConnect phone) (fun id => one "session_id" (JInt id))) w h.
Proof.
  destruct (listed_device_connects 1 (sample_input (JObject [])) ListDevices_default [phone] 0%nat 1%nat ∅)
    as (r & h' & text & Hl & _ & Ht & _ & Hc); [done|split; [done|vm_compute; reflexivity]|vm_compute; reflexivity|reflexivity| |].
  { repeat constructor; vm_compute; done. }
  exists r, h', text. split; [exact Hl|]. split; [exact Ht|]. apply (Hc phone (("seen", JInt 4) :: reverse (device_members phone)) [("seen", JInt 4)]).
  - apply list_elem_of_here.
  - rewrite reverse_Permutation. apply Permutation_cons_append.
  - repeat constructor. apply (bool_decide_unpack _). vm_compute. exact I.
  - split; [done|vm_compute; reflexivity].
  - vm_compute. reflexivity.
Defined.

