(* ===== verification/Cli.v ===== *)
(** * The command line: pure parts

    crates/handshaker-cli/src/cli.rs: names and paths, confirmation, errors and exit codes, the choice
    of a device, previews of media, and what is printed.  The texts of the localizer are named by their
    keys. *)

From Stdlib Require Import Strings.String Strings.Ascii.
From stdpp Require Import gmap strings.
From S2P Require Import Prelude Errors AppErrors Domain Text Paths Parse Fs SyncStore Transfer Devices TrustStore RemotePath FilePlan SyncRun MediaDto FfiCore.

#[local] Open Scope string_scope.
#[local] Open Scope list_scope.
#[local] Open Scope Z_scope.

Inductive OutputFormat := Human | Json | Jsonl.

#[export] Instance OutputFormat_eq_dec : EqDecision OutputFormat.
Proof. solve_decision. Defined.

Record CommandContext := mkContext { cc_remote_cwd : string; cc_local_cwd : path; cc_in_shell : bool }.

(** ** Paths *)

Definition resolve_remote (base input : string) : string :=
  let start := if starts_with "/" input then [] else filter (fun part => part <> "") (split_slash base) in
  String slash (join_slash (reverse (normalize_parts (split_slash input) (reverse start)))).

(** [PathBuf::push] and [PathBuf::pop] of components. *)
Fixpoint normalize_components (cs : list Component) (normalized : list Component) : list Component :=
  match cs with
  | [] => normalized
  | CurDir :: cs => normalize_components cs normalized
  | ParentDir :: cs =>
      normalize_components cs (match normalized with Normal _ :: rest => rest | CurDir :: rest => rest | ParentDir :: rest => rest | other => other end)
  | c :: cs => normalize_components cs (c :: normalized)
  end.

Definition component_str (c : Component) : string :=
  match c with RootDir => String slash "" | CurDir => "." | ParentDir => ".." | Normal name => name end.

(** The pushes one after another. *)
Definition path_of (cs : list Component) : path := foldl (fun p c => path_join p (component_str c)) "" cs.

Definition normalize_local (p : path) : path := path_of (reverse (normalize_components (components p) [])).

Definition resolve_local (base input : path) : path :=
  if is_absolute input then input else normalize_local (path_join base input).

Definition remote_name (remote : string) : option string :=
  match last (split_slash remote) with
  | Some name => if bool_decide (name = "") then None else Some name
  | None => None
  end.

(** ** Errors *)

Definition app_error (display : PublicError -> message) (error : PublicError) : Error :=
  let text := display error in
  match pe_code error with
  | InvalidArgument | InvalidState => EUsage text
  | RuntimeClosed | DeviceNotFound | DeviceUnavailable => EDeviceSelection text
  | SessionNotFound | SessionClosed | ConnectFailed | ConnectionLost | PublicAdbUnavailable | AdbUnauthorized | AdbOffline
  | WifiDiscoveryFailed | UsbUnavailable | TransferNotFound | Internal | NotFound => ETransport text
  | TrustRequired | TrustRejected => EHandshake text
  | ProtocolError | DecodeError => EProtocol text
  | RemotePathNotFound | RemotePermissionDenied | RemotePathExists | PublicRemoteIo => ERemoteIo None text
  | LocalPathNotFound | LocalPermissionDenied | LocalPathExists => ELocalIo text
  | TransferCancelled => EInterrupted
  | RemoteCancelled => ERemoteIo None text
  | MediaError | ClipboardError | SyncError => ETransport text
  end.

(** ** Confirmation *)

Definition ascii_lowercase (s : string) : string :=
  string_of_list_ascii ((fun c => let n := nat_of_ascii c in if (65 <=? n)%nat && (n <=? 90)%nat then ascii_of_nat (n + 32) else c) <$> list_ascii_of_string s).

Definition confirmed (answer : string) : bool :=
  let a := ascii_lowercase (trim answer) in bool_decide (a = "y") || bool_decide (a = "yes").

(** [answer] is the line read, when one is asked for. *)
Definition confirm (action : string) (yes : bool) (format : OutputFormat) (terminal : bool) (answer : result string string) : Res () :=
  if yes then Ok ()
  else if negb (bool_decide (format = Human)) || negb terminal
  then Err (EConfirmationRequired (Msg "ConfirmationRequired" [action]))
  else match answer with
       | Err e => Err (ELocalIo (Msg e []))
       | Ok line => if confirmed line then Ok () else Err (EConfirmationRequired (Msg "UserNotConfirmed" []))
       end.

(** ** Devices *)

Record ConnectArgs := mkConnectArgs { ca_usb : bool; ca_wifi : option string; ca_serial : option string }.

(** [devices] is what the runtime lists of the ADB devices. *)
Definition select_device_descriptor (display : PublicError -> message) (cli : ConnectArgs) (devices : AppResult (list DeviceDescriptor))
  : Res DeviceDescriptor :=
  if ca_usb cli then
    let location := default "" (ca_serial cli) in
    Ok (mkDevice location None (if bool_decide (location = "") then None else Some location) None TUsbAccessory location true None None)
  else
    match ca_wifi cli with
    | Some address => Ok (mkDevice ("wifi:" +:+ address) None (Some address) None TWifi address true None None)
    | None =>
        match devices with
        | Err e => Err (app_error display e)
        | Ok devices =>
            let online := filter (fun d => dd_available d = true) devices in
            match ca_serial cli with
            | Some serial =>
                match find (fun d => bool_decide (dd_id d = serial)) online with
                | Some d => Ok d
                | None => Err (EDeviceSelection (Msg "adb.device_unavailable" [serial]))
                end
            | None =>
                match online with
                | [] => Err (EDeviceSelection (Msg "adb.no_online_device" []))
                | [d] => Ok d
                | _ => Err (EDeviceSelection (Msg "adb.multiple_devices" [pretty (zlen online)]))
                end
            end
        end
    end.

(** ** Synchronisation *)

Definition sync_device_uuid_from_info (info : DeviceInfoDto) : Res string :=
  match if_phone_id info with
  | None => Err (EProtocol (Msg "sync.device_uuid_missing" []))
  | Some device_uuid =>
      if negb (string_all uuid_char device_uuid) then Err (EProtocol (Msg "sync.device_uuid_invalid" [])) else Ok device_uuid
  end.

Definition sync_profile_for (session_id : Z) (device_uuid : string) (root : option string) (output_dir : string) : SyncProfileDto :=
  mkSyncProfile device_uuid session_id device_uuid (default DEFAULT_SYNC_ROOT root) output_dir true.

(** ** Previews and printing *)

Definition DEFAULT_MEDIA_PREVIEW_LIMIT : Z := 50.

Definition media_preview_limit (limit : option Z) (all : bool) : option Z :=
  if all then None else Some (default DEFAULT_MEDIA_PREVIEW_LIMIT limit).

Definition truncate {T} (entries : list T) (limit : option Z) : list T * bool :=
  match limit with
  | Some limit => if zlen entries >? limit then (take (Z.to_nat limit) entries, true)
                  else (take (Z.to_nat (Z.min limit (zlen entries))) entries, false)
  | None => (entries, false)
  end.

(** The characters dropped: C0 and DEL, and in UTF-8 the C1 controls and the overrides of direction. *)
Fixpoint sanitize_human (s : string) : string :=
  match s with
  | EmptyString => ""
  | String c s' =>
      if (code c <=? 31) || (code c =? 127) then sanitize_human s'
      else match s' with
           | String d s'' =>
               if (code c =? 0xC2) && (0x80 <=? code d) && (code d <=? 0x9F) then sanitize_human s''
               else match s'' with
                    | String e s''' =>
                        if (code c =? 0xE2) && (((code d =? 0x80) && (0xAA <=? code e) && (code e <=? 0xAE))
                                                || ((code d =? 0x81) && (0xA6 <=? code e) && (code e <=? 0xA9)))
                        then sanitize_human s''' else String c (sanitize_human s')
                    | EmptyString => String c (sanitize_human s')
                    end
           | EmptyString => String c ""
           end
  end.

Record CliFileEntry := mkCliEntry {
  ci_path : string; ci_size : Z; ci_created_at : option Z; ci_modified_at : option Z; ci_is_directory : bool;
  ci_checksum : option string; ci_is_trash : option bool; ci_id : option Z; ci_ext_data : option string }.

Definition cli_file_entry (file : FileEntryDto) : CliFileEntry :=
  mkCliEntry (fd_path file) (fd_size file) (fd_created_at_ms file) (fd_modified_at_ms file) (fd_is_directory file)
    (fd_checksum file) (fd_is_trash file) (fd_media_id file) None.

Definition TAB : string := String (ascii_of_nat 9) "".

Definition human_file (text : string -> string) (file : CliFileEntry) : string :=
  (if ci_is_directory file then text "Directory" else text "File") +:+ TAB +:+ pretty (ci_size file) +:+ TAB +:+
  match ci_modified_at file with Some t => pretty t | None => "-" end +:+ TAB +:+ ci_path file.

(** ** Thumbnails *)

Fixpoint rsplit_separator (s : string) (component : string) : string :=
  match s with
  | EmptyString => component
  | String c s => if bool_decide (c = "/"%char) || bool_decide (c = "\"%char) then rsplit_separator s ""
                  else rsplit_separator s (component +:+ String c "")
  end.

Definition stem_char (c : ascii) : bool :=
  negb (bool_decide (c = "/"%char) || bool_decide (c = "\"%char) || bool_decide (c = ":"%char) || (code c <=? 31) || (code c =? 127)).

Definition thumbnail_file_name (target : string) (index : Z) : string :=
  let last_component := rsplit_separator target "" in
  let component := if bool_decide (last_component = "") then pretty index else last_component in
  let stem := match last_dot component 0 None with
              | Some i => let stem := substring 0 i component in if bool_decide (stem = "") then component else stem
              | None => component
              end in
  let stem := string_filter stem_char stem in
  let stem := if bool_decide (stem = "") then pretty index else stem in
  pretty index +:+ "_" +:+ stem +:+ ".jpg".

Inductive ThumbnailOutcome := Written (target name : string) (bytes : list byte) | NotWritten (target reason : string).

(** One target against what the phone answered; writing the file may still fail. *)
Definition thumbnail_outcome (images : list ImageFileDto) (target : string) (media_id : option Z) (p : option string) (index : Z) : ThumbnailOutcome :=
  match find (fun image => (bool_decide (is_Some media_id) && bool_decide (imd_media_id image = media_id))
                           || (bool_decide (is_Some p) && bool_decide (imd_path image = p))) images with
  | None => NotWritten target "missing_response"
  | Some image =>
      if imd_thumbnail_error image then NotWritten target "thumbnail_error"
      else match imd_thumbnail image with
           | None => NotWritten target "missing_data"
           | Some bytes => Written target (thumbnail_file_name target index) bytes
           end
  end.

(** ** Words *)

Definition shell_command_argv (words : list string) : list string :=
  ["handshaker"] ++ (if bool_decide (head words = Some "ls") then ["fs"] else []) ++ words.

Definition strip_suffix (suffix s : string) : option string :=
  match str_strip_prefix (string_rev suffix) (string_rev s) with Some r => Some (string_rev r) | None => None end.

(** [str::parse::<u64>] *)
Definition parse_u64 (s : string) : result string Z :=
  let digits := match s with
                | String c (String d rest) => if bool_decide (c = "+"%char) then String d rest else s
                | _ => s
                end in
  if bool_decide (digits = "") then Err "cannot parse integer from empty string"
  else match parse_digits digits 0 with
       | None => Err "invalid digit found in string"
       | Some n => if n <? 2 ^ 64 then Ok n else Err "number too large to fit in target type"
       end.

(** Milliseconds. *)
Definition parse_duration (value : string) : result message Z :=
  let '(number, multiplier) :=
    match strip_suffix "ms" value with
    | Some v => (v, 1)
    | None => match strip_suffix "s" value with
              | Some v => (v, 1000)
              | None => match strip_suffix "m" value with Some v => (v, 60000) | None => (value, 1000) end
              end
    end in
  match parse_u64 number with
  | Err e => Err (Msg "InvalidDuration" [value; e])
  | Ok amount => Ok (Z.min (amount * multiplier) (2 ^ 64 - 1))
  end.
