(* ===== verification/CliCommands.v ===== *)
(** * The command line: commands

    crates/handshaker-cli/src/cli.rs: a command asks the runtime of the application, the user and the
    disk one question after another; what they answer is arbitrary.  A run of a program is the list of
    its questions with their answers.  [Outcome]s keep what was found, not its rendering.  The commands are
    those of [execute_connected], [media_command] and [sync_command]. *)

From Stdlib Require Import Strings.String Strings.Ascii.
From stdpp Require Import gmap strings.
From S2P Require Import Prelude Errors AppErrors Domain Text Paths Fs Transfer Devices RemotePath FilePlan PlanRun TrustStore Sync SyncRun MediaDto ClientBatch AppRequests Parse FfiCore Cli.

#[local] Open Scope string_scope.
#[local] Open Scope list_scope.
#[local] Open Scope Z_scope.

(** ** What a command found *)

Inductive Outcome :=
  | ODevices (adb usb : list DeviceDescriptor)
  | OInfo (info : DeviceInfoDto)
  | OPing (round_trip_ms : Z)
  | OEntries (command : string) (entries : list CliFileEntry)
  | OEntry (command : string) (entry : CliFileEntry)
  | OCount (p : string) (count : Z)
  | OExists (p : string) (there : bool)
  | OMoved (source target : string)
  | ODryRun (command : string) (files dirs bytes : Z)
  | OBatch (command : string) (result : BatchTransferResultDto)
  | OClipboards (entries : list ClipboardEntryDto)
  | OClipboardSet (bytes : Z)
  | OClipboardDeleted (timestamp : Z)
  | OClipboardCleared
  | OPhotos (shown : list ImageFileDto) (albums : list ImageAlbumDto) (camera : option Z) (total : Z) (truncated : bool)
  | OVideos (shown : list VideoFileDto) (albums : list VideoAlbumDto) (total : Z) (truncated : bool)
  | OAudio (shown : list AudioFileDto) (albums : list AudioAlbumDto) (total : Z) (truncated : bool)
  | OThumbnails (targets : list ThumbnailOutcome)
  | OLedgers (ledgers : list SyncLedgerStatusDto)
  | OPlan (added info_modified deleted conflicts : list string) (total : Z)
  | ORun (result : SyncRunResultDto)
  | ODiscovered (devices : list WifiDevice)
  | OTrust (records : list TrustRecordDto)
  | OTrustRemoved (device_uuid : string)
  | OTrustReset (device_uuid address : string).

(** ** Questions *)

(** What [events.recv()] and Ctrl-C race for. *)
Inductive NextEvent := NextIs (event : BackendEvent) | NextLagged (missed : Z) | NextClosed | CtrlC.

(** What the line editor returns. *)
Inductive ReadLine := ReadLineIs (line : string) | ReadInterrupted | ReadEof | ReadError (e : string).

(** Ctrl-C against a command: before its next question, or while that is being answered. *)
Inductive Interrupt := NoInterrupt | InterruptBefore | InterruptDuring.

Inductive question :=
  (* the runtime *)
  | QCreate | QDevices (adb usb : bool) | QConnect (device : DeviceDescriptor) | QSnapshot | QPing
  | QStat (p : string)
  | QList (p : string) (depth : Z)
  | QCount (p : string) (depth : Z) (exclusions : list string)
  | QMkdir (p : string)
  | QMove (source target : string)
  | QDelete (paths : list string) (trash sync : bool)
  | QPlanDownload (sources : list string) (destination : string) (recursive overwrite : bool)
  | QPlanUpload (sources : list string) (destination : string) (recursive overwrite : bool)
  | QBatchDownload (files : list BatchTransferItemDto) (trees : list TreeTransferDto) (overwrite : bool)
  | QBatchUpload (files : list BatchTransferItemDto) (trees : list TreeTransferDto) (overwrite : bool)
  | QClipboards | QSetClipboard (text : string) | QDeleteClipboard (timestamp : Z) | QClearClipboards
  | QPhotos | QVideos | QAudio | QThumbnails (images : list ImageFileDto)
  | QLedgers (device_uuid : string)
  | QPlanSync (profile : SyncProfileDto) | QStartSync (profile : SyncProfileDto)
  | QSyncStatus (id : string) | QLastResult (id : string) | QStopSync (id : string)
  | QStartWatch (id : string) | QStopWatch (id : string)
  | QMonitor (p : string) (on : bool)
  | QEvent | QTick                           (* 200 ms pass, or Ctrl-C *)
  | QShutdown | QDisconnect (session_id : Z)
  | QDiscover (timeout_ms : Z)
  | QTrust | QRemoveTrust (device_id : string) | QResetTrust (endpoint device_id : string)
  (* the machine and its user *)
  | QLocalTree (local : path)                (* what the disk has under a directory *)
  | QLocalExists (p : path) | QLocalDir (p : path)
  | QCreateDir (dir : path) | QWrite (dir : path) (name : string) (bytes : list byte)
  | QConfirm (action : message)              (* a line from the terminal *)
  | QConfirmOrCtrlC (action : message)       (* the same, [None] when Ctrl-C comes first *)
  | QStdin
  | QCurrentDir | QRender (output : Outcome * option DeviceInfoDto)
  | QEditor | QReadline | QHistory (line : string) | QInterrupt.

Definition answer (q : question) : Type :=
  match q with
  | QCreate => AppResult ()
  | QDevices _ _ => AppResult (list DeviceDescriptor)
  | QConnect _ => AppResult Z
  | QSnapshot => AppResult SessionSnapshot
  | QPing | QCount _ _ _ => AppResult Z
  | QStat _ => AppResult (option FileEntryDto)
  | QList _ _ | QDelete _ _ _ => AppResult (list FileEntryDto)
  | QMkdir _ | QMove _ _ | QSetClipboard _ | QDeleteClipboard _ | QClearClipboards => AppResult ()
  | QPlanDownload _ _ _ _ | QPlanUpload _ _ _ _ => AppResult FileOperationPlan
  | QBatchDownload _ _ _ | QBatchUpload _ _ _ => AppResult BatchTransferResultDto
  | QClipboards => AppResult (list ClipboardEntryDto)
  | QPhotos => AppResult PhotoLibraryDto
  | QVideos => AppResult VideoLibraryDto
  | QAudio => AppResult AudioLibraryDto
  | QThumbnails _ => AppResult ThumbnailsDto
  | QLedgers _ => AppResult (list SyncLedgerStatusDto)
  | QPlanSync _ => AppResult SyncPlanDto
  | QStartSync _ => AppResult string
  | QSyncStatus _ => AppResult SyncStatusDto
  | QLastResult _ => AppResult (option SyncRunResultDto)
  | QStartWatch _ | QMonitor _ _ | QDisconnect _ => AppResult ()
  | QStopSync _ | QStopWatch _ | QShutdown => ()
  | QDiscover _ => Res (list WifiDevice)
  | QTrust => AppResult (list TrustRecordDto)
  | QRemoveTrust _ => AppResult bool
  | QResetTrust _ _ => AppResult ()
  | QEvent => NextEvent
  | QTick | QLocalExists _ | QLocalDir _ => bool
  | QLocalTree _ => listing * (path -> option Z)   (* with the lengths of the files *)
  | QCreateDir _ | QWrite _ _ _ => result string ()
  | QConfirm _ | QStdin => result string string
  | QConfirmOrCtrlC _ => option (result string string)
  | QCurrentDir => result string path
  | QRender _ => Res ()
  | QEditor | QHistory _ => result string ()
  | QReadline => ReadLine
  | QInterrupt => Interrupt
  end.

(** ** Programs *)

Inductive prog (A : Type) : Type :=
  | Return (a : A)
  | Ask (q : question) (k : answer q -> prog A).
Arguments Return {A} a.
Arguments Ask {A} q k.

Fixpoint prog_bind {A B} (m : prog A) (k : A -> prog B) : prog B :=
  match m with
  | Return a => k a
  | Ask q f => Ask q (fun a => prog_bind (f a) k)
  end.
#[export] Instance prog_mret : MRet prog := fun A a => Return a.
#[export] Instance prog_mbind : MBind prog := fun A B k m => prog_bind m k.

(** One question with its answer. *)
Record turn := Turn { ex_question : question; ex_answer : answer ex_question }.

(** Every run of a program: what was asked and answered, in order, and the result. *)
Fixpoint runs {A} (m : prog A) (tr : list turn) (r : A) : Prop :=
  match m with
  | Return a => tr = [] /\ r = a
  | Ask q k => exists (a : answer q) tr', tr = Turn q a :: tr' /\ runs (k a) tr' r
  end.

(** The run with given answers. *)
Fixpoint run_with {A} (oracle : list turn -> forall q, answer q) (tr : list turn) (m : prog A) : list turn * A :=
  match m with
  | Return a => (tr, a)
  | Ask q k => let a := oracle tr q in run_with oracle (tr ++ [Turn q a]) (k a)
  end.

Notation "'ask*' x ':=' m 'in' k" := (mbind (M := prog) (fun x => k) m)
  (at level 10, x name, m at level 150, k at level 200) : hs_scope.
Notation "'ask?' x ':=' m 'in' k" :=
  (mbind (M := prog) (fun r => match r with Ok x => k | Err e => mret (M := prog) (Err e) end) m)
  (at level 10, x name, m at level 150, k at level 200) : hs_scope.

Definition ask (q : question) : prog (answer q) := Ask q Return.

(** [.map_err(app_error)] *)
Definition of_app {A} (display : PublicError -> message) (m : prog (AppResult A)) : prog (Res A) :=
  ask* r := m in mret (map_err (app_error display) r).

(** A command ends, panics at an [unreachable!], or is still going after the rounds it was given. *)
Inductive Executed (A : Type) := Done (r : Res A) | Panicked | Unfinished.
Arguments Done {A} r.
Arguments Panicked {A}.
Arguments Unfinished {A}.

Notation "'exec?' x ':=' m 'in' k" :=
  (mbind (M := prog) (fun r => match r with Done (Ok x) => k | Done (Err e) => mret (M := prog) (Done (Err e))
                                          | Panicked => mret (M := prog) Panicked | Unfinished => mret (M := prog) Unfinished end) m)
  (at level 10, x name, m at level 150, k at level 200) : hs_scope.

(** A command that ends. *)
Definition ends {A} (m : prog (Res A)) : prog (Executed A) := ask* r := m in mret (Done r).

(** ** Commands on files *)

(** ** The tree of a dry run *)

Definition local_tree_acc : Type := list BatchTransferItemDto * gset string * Z.

(** The accumulators are the code's three [&mut] arguments; a length that cannot be read counts 0. *)
Fixpoint collect_local_tree (file_len : path -> option Z) (local : path) (remote : string) (l : listing) (acc : local_tree_acc)
  : Res local_tree_acc :=
  let remote_base := trim_end_matches slash remote in
  match l with
  | Unreadable text => Err (ELocalIo (Msg "ReadDirFailed" [local; text]))
  | Listing entries =>
      (fix go (entries : list (string * entry)) (acc : local_tree_acc) : Res local_tree_acc :=
         match entries with
         | [] => Ok acc
         | (name, e) :: entries =>
             let path := path_join local name in
             let target := remote_base +:+ String slash name in
             match e with
             | BadEntry text => Err (ELocalIo (Msg "ReadDirFailed" [local; text]))
             | BadType text => Err (ELocalIo (Msg "ReadDirFailed" [path; text]))
             | IsDir children =>
                 match collect_local_tree file_len path target children (acc.1.1, {[target]} ∪ acc.1.2, acc.2) with
                 | Err e => Err e
                 | Ok acc => go entries acc
                 end
             | IsFile => go entries (acc.1.1 ++ [mkBatchItem path target], acc.1.2, (acc.2 + default 0 (file_len path)) mod 2 ^ 64)
             | IsOther => go entries acc
             end
         end) entries acc
  end.

Section Files.
Context (display : PublicError -> message) (context : CommandContext) (yes : bool) (format : OutputFormat) (terminal : bool).

Local Abbreviation of_app := (of_app display).

Definition confirmation (action : message) : prog (Res ()) :=
  if yes || negb (bool_decide (format = Human)) || negb terminal
  then mret (confirm (msg_key action) yes format terminal (Err ""))
  else ask* line := ask (QConfirm action) in mret (confirm (msg_key action) yes format terminal line).

Definition remote_missing (p : string) : Error := ERemoteIo None (Msg "RemoteMissing" [p]).

Definition fs_ls (p : option string) (depth : Z) : prog (Res Outcome) :=
  ask? entries := of_app (ask (QList (resolve_remote (cc_remote_cwd context) (default "." p)) depth)) in
  mret (Ok (OEntries "fs.ls" (cli_file_entry <$> entries))).

(** A path that is there. *)
Definition stat_back (p : string) : prog (Res FileEntryDto) :=
  ask? found := of_app (ask (QStat p)) in
  mret (match found with Some file => Ok file | None => Err (remote_missing p) end).

Definition fs_stat (p : string) : prog (Res Outcome) :=
  ask? file := stat_back (resolve_remote (cc_remote_cwd context) p) in
  mret (Ok (OEntry "fs.stat" (cli_file_entry file))).

Definition fs_count (p : string) (depth : Z) (exclusions : list string) : prog (Res Outcome) :=
  let p := resolve_remote (cc_remote_cwd context) p in
  ask? count := of_app (ask (QCount p depth exclusions)) in mret (Ok (OCount p count)).

Definition fs_exists (p : string) : prog (Res Outcome) :=
  let p := resolve_remote (cc_remote_cwd context) p in
  ask? found := of_app (ask (QStat p)) in
  mret (Ok (OExists p (match found with Some _ => true | None => false end))).

Definition fs_mkdir (p : string) : prog (Res Outcome) :=
  let p := resolve_remote (cc_remote_cwd context) p in
  ask? _ := of_app (ask (QMkdir p)) in
  ask? file := stat_back p in
  mret (Ok (OEntry "fs.mkdir" (cli_file_entry file))).

Definition fs_mv (source target : string) : prog (Res Outcome) :=
  let source := resolve_remote (cc_remote_cwd context) source in
  let target := resolve_remote (cc_remote_cwd context) target in
  ask? _ := of_app (ask (QMove source target)) in mret (Ok (OMoved source target)).

(** ** Removing *)

Fixpoint rm_checks (recursive : bool) (paths : list string) : prog (Res ()) :=
  match paths with
  | [] => mret (Ok ())
  | p :: paths =>
      ask? file := stat_back p in
      if fd_is_directory file && negb recursive then mret (Err (EUsage (Msg "DeleteRecursiveRequired" [p])))
      else rm_checks recursive paths
  end.

Definition fs_rm (paths : list string) (recursive trash : bool) : prog (Res Outcome) :=
  let paths := resolve_remote (cc_remote_cwd context) <$> paths in
  ask? _ := rm_checks recursive paths in
  ask? _ := confirmation (Msg "DeleteAction" [pretty (zlen paths)]) in
  ask? deleted := of_app (ask (QDelete paths trash false)) in
  mret (Ok (OEntries "fs.rm" (cli_file_entry <$> deleted))).

(** ** Downloading *)

(** [pull_target_misparsed] *)
Definition pull_target_misparsed (remote : list string) (local : option path) : prog bool :=
  match local, remote with
  | None, _ :: second :: _ => ask (QLocalExists (path_join (cc_local_cwd context) second))
  | _, _ => mret false
  end.

Record Translated := mkTranslated { tl_failures : list TransferFailureDto; tl_existing : Z; tl_first_existing : string }.

Definition existing_target (destination : string) (t : Translated) : Translated :=
  mkTranslated (tl_failures t) (tl_existing t + 1) (if bool_decide (tl_first_existing t = "") then destination else tl_first_existing t).

Definition collected_failure (failure : TransferFailureDto) (t : Translated) : Translated :=
  mkTranslated (tl_failures t ++ [failure]) (tl_existing t) (tl_first_existing t).

(** The conflicts of a plan as the errors of the command line. *)
Fixpoint pull_conflicts (conflicts : list FilePlanConflict) (t : Translated) : Res Translated :=
  match conflicts with
  | [] => Ok t
  | c :: conflicts =>
      match fc_kind c with
      | RecursiveRequired => Err (EUsage (Msg "RecursiveRequired" [fc_source c]))
      | DuplicateDestination => Err (EUsage (Msg "DuplicateTarget" [fc_destination c]))
      | SourceMissing =>
          pull_conflicts conflicts
            (collected_failure (mkTransferFailure (fc_source c) (fc_destination c) ("RemoteMissing " +:+ fc_source c)) t)
      | DestinationTypeMismatch => Err (ELocalIo (Msg (fc_message c) []))
      | DestinationExists => pull_conflicts conflicts (existing_target (fc_destination c) t)
      | LocalDenied => pull_conflicts conflicts t
      end
  end.

Fixpoint push_conflicts (remote_path : string) (conflicts : list FilePlanConflict) (t : Translated) : Res Translated :=
  match conflicts with
  | [] => Ok t
  | c :: conflicts =>
      match fc_kind c with
      | RecursiveRequired => Err (EUsage (Msg "RecursiveRequired" [fc_source c]))
      | DuplicateDestination => Err (EUsage (Msg "DuplicateTarget" [fc_destination c]))
      | SourceMissing | LocalDenied =>
          push_conflicts remote_path conflicts (collected_failure (mkTransferFailure (fc_source c) remote_path (fc_message c)) t)
      | DestinationTypeMismatch => Err (ERemoteIo None (Msg (fc_message c) []))
      | DestinationExists => push_conflicts remote_path conflicts (existing_target (fc_destination c) t)
      end
  end.

Definition count_entries (entries : list FileEntryDto) (counts : Z * Z * Z) : Z * Z * Z :=
  foldl (fun '(files, dirs, bytes) entry =>
           if fd_is_directory entry then (files, dirs + 1, bytes) else (files + 1, dirs, (bytes + fd_size entry) mod 2 ^ 64)) counts entries.

Fixpoint dry_run_pull (trees : list TreeTransferDto) (counts : Z * Z * Z) : prog (Res (Z * Z * Z)) :=
  match trees with
  | [] => mret (Ok counts)
  | tree :: trees =>
      ask? entries := of_app (ask (QList (tt_source tree) (2 ^ 32 - 1))) in
      dry_run_pull trees (count_entries entries counts)
  end.

Fixpoint dry_run_push (trees : list TreeTransferDto) (counts : Z * Z * Z) : prog (Res (Z * Z * Z)) :=
  match trees with
  | [] => mret (Ok counts)
  | tree :: trees =>
      ask* disk := ask (QLocalTree (tt_source tree)) in
      match collect_local_tree disk.2 (tt_source tree) (tt_target tree) disk.1 ([], ∅, 0) with
      | Err e => mret (Err e)
      | Ok (items, directories, bytes) =>
          dry_run_push trees (counts.1.1 + zlen items, counts.1.2 + Z.of_nat (size directories), (counts.2 + bytes) mod 2 ^ 64)
      end
  end.

(** Existing targets: refused without [--overwrite], asked about with it. *)
Definition overwrite_check (refusal : message -> Error) (key action : string) (t : Translated) (overwrite : bool) : prog (Res ()) :=
  if 0 <? tl_existing t then
    if negb overwrite then mret (Err (refusal (Msg key [tl_first_existing t])))
    else confirmation (Msg action [pretty (tl_existing t)])
  else mret (Ok ()).

(** The failures collected before the batch come last. *)
Definition with_failures (t : Translated) (result : BatchTransferResultDto) : BatchTransferResultDto :=
  mkBatchResult (br_ok result) (br_failures result ++ tl_failures t).

Definition fs_pull (remote : list string) (local : option path) (recursive overwrite dry_run : bool) : prog (Res Outcome) :=
  mbind (M := prog) (fun misparsed : bool =>
    if misparsed then mret (M := prog) (Err (EUsage (Msg "PullNeedsSeparator" [])))
    else
      let destination := match local with Some p => resolve_local (cc_local_cwd context) p | None => cc_local_cwd context end in
      let single_file_mode := (zlen remote =? 1) && negb recursive in
      let first := default "" (head remote) in
      if single_file_mode && bool_decide (local = None) && bool_decide (remote_name first = None)
      then mret (M := prog) (Err (EUsage (Msg "RemoteNameMissing" [first])))
      else
        ask? plan := of_app (ask (QPlanDownload remote destination recursive overwrite)) in
        match pull_conflicts (fp_conflicts plan) (mkTranslated [] 0 "") with
        | Err e => mret (M := prog) (Err e)
        | Ok t =>
            let files := file_parts plan in
            let trees := tree_parts plan in
            if dry_run then
              ask? counts := dry_run_pull trees (zlen files, zlen trees, default 0 (fp_total_bytes plan)) in
              mret (M := prog) (Ok (ODryRun "fs.pull" counts.1.1 counts.1.2 counts.2))
            else
              ask? _ := overwrite_check ELocalIo "LocalTargetExists" "OverwriteLocalBatch" t overwrite in
              ask? result := of_app (ask (QBatchDownload files trees overwrite)) in
              mret (M := prog) (Ok (OBatch "fs.pull" (with_failures t result)))
        end) (pull_target_misparsed remote local).

(** ** Uploading *)

Definition fs_push (local : list path) (remote : string) (recursive overwrite dry_run : bool) : prog (Res Outcome) :=
  let remote_path := resolve_remote (cc_remote_cwd context) remote in
  let sources := resolve_local (cc_local_cwd context) <$> local in
  ask? plan := of_app (ask (QPlanUpload sources remote_path recursive overwrite)) in
  match push_conflicts remote_path (fp_conflicts plan) (mkTranslated [] 0 "") with
  | Err e => mret (M := prog) (Err e)
  | Ok t =>
      let files := file_parts plan in
      let trees := (fun tree => mkTree (tt_source tree) remote_path) <$> tree_parts plan in
      if dry_run then
        ask? counts := dry_run_push trees (zlen files, zlen trees, default 0 (fp_total_bytes plan)) in
        mret (M := prog) (Ok (ODryRun "fs.push" counts.1.1 counts.1.2 counts.2))
      else
        ask? _ := overwrite_check (ERemoteIo None) "RemoteTargetExists" "OverwriteRemoteBatch" t overwrite in
        ask? result := of_app (ask (QBatchUpload files trees overwrite)) in
        mret (M := prog) (Ok (OBatch "fs.push" (with_failures t result)))
  end.
End Files.

(** ** Commands *)

Inductive DeviceCommand := DeviceList | DeviceInfoCommand | DevicePing | DeviceDiscover (timeout : string).

Inductive FsCommand :=
  | FsLs (p : option string) (depth : Z)
  | FsStat (p : string)
  | FsCount (p : string) (depth : Z) (exclusions : list string)
  | FsExists (p : string)
  | FsMkdir (p : string)
  | FsMv (source target : string)
  | FsRm (paths : list string) (recursive trash : bool)
  | FsPull (remote : list string) (local : option path) (recursive overwrite dry_run : bool)
  | FsPush (local : list path) (remote : string) (recursive overwrite dry_run : bool).

Inductive ClipboardCommand :=
  | ClipboardGet
  | ClipboardSet (text : option string) (stdin : bool)
  | ClipboardDelete (timestamp : Z)
  | ClipboardClear.

Inductive TrustCommand := TrustList | TrustRemove (device_uuid : string) | TrustReset (device_uuid : string).

Record MediaPreviewArgs := mkPreviewArgs { mp_limit : option Z; mp_all : bool }.
Inductive MediaCommand :=
  | MediaPhoto (args : MediaPreviewArgs)
  | MediaVideo (args : MediaPreviewArgs)
  | MediaAudio (args : MediaPreviewArgs)
  | MediaThumbnail (targets : list string) (output_dir : path).

Inductive SyncCommand :=
  | SyncPlanCommand (root : option string) (output_dir : option path)
  | SyncRunCommand (root : option string) (output_dir : option path) (yes : bool)
  | SyncWatchCommand (root : option string) (output_dir : option path) (yes : bool)
  | SyncStatusCommand.

Inductive Command :=
  | Device (c : DeviceCommand) | FsOf (c : FsCommand) | Clipboard (c : ClipboardCommand) | Trust (c : TrustCommand)
  | Media (c : MediaCommand) | SyncOf (c : SyncCommand) | Shell | Batch | Watch (paths : list string).

Section Commands.
Context (session_id : Z) (display message_of : PublicError -> message) (context : CommandContext) (yes : bool) (format : OutputFormat) (terminal : bool).

Local Abbreviation of_app := (of_app display).

(** ** Devices *)

(** [device_list]: errors of the runtime keep only their message. *)
Definition device_list : prog (Res Outcome) :=
  ask* created := ask QCreate in
  match created with
  | Err e => mret (Err (ELocalIo (message_of e)))
  | Ok _ =>
      ask* devices := ask (QDevices true true) in
      match devices with
      | Err e => mret (Err (ELocalIo (message_of e)))
      | Ok devices =>
          ask* _ := ask QShutdown in
          mret (Ok (ODevices (filter (fun d => dd_transport d = TAdb) devices) (filter (fun d => dd_transport d = TUsbAccessory) devices)))
      end
  end.

(** ** The clipboard *)

Definition clipboard_command (c : ClipboardCommand) : prog (Res Outcome) :=
  match c with
  | ClipboardGet => ask? entries := of_app (ask QClipboards) in mret (Ok (OClipboards entries))
  | ClipboardSet text stdin =>
      ask? text := (if stdin then
                      if cc_in_shell context then mret (Err (EUsage (Msg "ShellNoStdin" [])))
                      else ask* read := ask QStdin in mret (map_err (fun e => ELocalIo (Msg e [])) read)
                    else mret (match text with Some text => Ok text | None => Err (EUsage (Msg "ClipboardSetRequired" [])) end)) in
      ask? _ := of_app (ask (QSetClipboard text)) in mret (Ok (OClipboardSet (str_len text)))
  | ClipboardDelete timestamp =>
      ask? _ := confirmation yes format terminal (Msg "DeleteClipboardAction" [pretty timestamp]) in
      ask? _ := of_app (ask (QDeleteClipboard timestamp)) in mret (Ok (OClipboardDeleted timestamp))
  | ClipboardClear =>
      ask? _ := confirmation yes format terminal (Msg "ClearClipboardAction" []) in
      ask? _ := of_app (ask QClearClipboards) in mret (Ok OClipboardCleared)
  end.

(** ** Media *)

(** [ImageFileDto { media_id | path, ..Default::default() }] *)
Definition image_request (p : option string) (media_id : option Z) : ImageFileDto :=
  mkImageFileDto p None None None None None None media_id None None None None None None None None None false false.

(** One target of [media thumbnail]: digits are a media id. *)
Definition thumbnail_request (target : string) : Res ImageFileDto :=
  if string_all is_ascii_digit target then
    match parse_u64 target with
    | Ok media_id => Ok (image_request None (Some media_id))
    | Err _ => Err (EUsage (Msg "MediaThumbnailInvalidId" [target]))
    end
  else Ok (image_request (Some (resolve_remote (cc_remote_cwd context) target)) None).

Fixpoint thumbnail_requests (targets : list string) : Res (list ImageFileDto) :=
  match targets with
  | [] => Ok []
  | target :: targets =>
      match thumbnail_request target with
      | Err e => Err e
      | Ok request => match thumbnail_requests targets with Err e => Err e | Ok requests => Ok (request :: requests) end
      end
  end.

Fixpoint write_thumbnails (dir : path) (images : list ImageFileDto) (targets : list (string * ImageFileDto)) (index : Z)
    (done : list ThumbnailOutcome) : prog (Res (list ThumbnailOutcome)) :=
  match targets with
  | [] => mret (Ok done)
  | (target, request) :: targets =>
      match thumbnail_outcome images target (imd_media_id request) (imd_path request) index with
      | Written target name bytes as outcome =>
          ask* wrote := ask (QWrite dir name bytes) in
          match wrote with
          | Err e => mret (Err (ELocalIo (Msg "media.thumbnail_write_failed" [name; e])))
          | Ok _ => write_thumbnails dir images targets (index + 1) (done ++ [outcome])
          end
      | NotWritten _ _ as outcome => write_thumbnails dir images targets (index + 1) (done ++ [outcome])
      end
  end.

Definition media_command (c : MediaCommand) : prog (Res Outcome) :=
  match c with
  | MediaPhoto args =>
      ask? library := of_app (ask QPhotos) in
      let limit := media_preview_limit (mp_limit args) (mp_all args) in
      let '(shown, entries_truncated) := truncate (pld_images library) limit in
      let '(albums, albums_truncated) := truncate (pld_albums library) limit in
      mret (Ok (OPhotos shown albums (pld_camera_album_id library) (zlen (pld_images library)) (entries_truncated || albums_truncated)))
  | MediaVideo args =>
      ask? library := of_app (ask QVideos) in
      let limit := media_preview_limit (mp_limit args) (mp_all args) in
      let '(shown, entries_truncated) := truncate (vld_videos library) limit in
      let '(albums, albums_truncated) := truncate (vld_albums library) limit in
      mret (Ok (OVideos shown albums (zlen (vld_videos library)) (entries_truncated || albums_truncated)))
  | MediaAudio args =>
      ask? library := of_app (ask QAudio) in
      let limit := media_preview_limit (mp_limit args) (mp_all args) in
      let '(shown, entries_truncated) := truncate (ald_tracks library) limit in
      let '(albums, albums_truncated) := truncate (ald_albums library) limit in
      mret (Ok (OAudio shown albums (zlen (ald_tracks library)) (entries_truncated || albums_truncated)))
  | MediaThumbnail targets output_dir =>
      let dir := resolve_local (cc_local_cwd context) output_dir in
      ask* created := ask (QCreateDir dir) in
      match created with
      | Err e => mret (Err (ELocalIo (Msg "media.output_dir_create_failed" [dir; e])))
      | Ok _ =>
          match thumbnail_requests targets with
          | Err e => mret (Err e)
          | Ok requests =>
              ask? thumbnails := of_app (ask (QThumbnails requests)) in
              ask? outcomes := write_thumbnails dir (tnd_images thumbnails) (zip targets requests) 0 [] in
              mret (Ok (OThumbnails outcomes))
          end
      end
  end.

(** ** Synchronisation *)

(** [confirm_interruptible]; the answer to its question may be Ctrl-C. *)
Definition confirm_interruptible (action : message) (yes : bool) : prog (Res ()) :=
  if yes then mret (Ok ())
  else if negb (bool_decide (format = Human)) || negb terminal
  then mret (Err (EConfirmationRequired (Msg "ConfirmationRequired" [msg_key action])))
  else
    ask* answer := ask (QConfirmOrCtrlC action) in
    mret (match answer with
          | None => Err EInterrupted
          | Some (Err e) => Err (ELocalIo (Msg e []))
          | Some (Ok line) => if confirmed line then Ok () else Err (EConfirmationRequired (Msg "UserNotConfirmed" []))
          end).

(** Polls the status every 200 ms until the run has ended. *)
Fixpoint wait_sync_run (fuel : nat) (id : string) : prog (Executed ()) :=
  match fuel with
  | O => mret Unfinished
  | S fuel =>
      exec? status := ends (of_app (ask (QSyncStatus id))) in
      if negb (st_running status) then
        mret (Done (match st_last_error status with Some error => Err (app_error display error) | None => Ok () end))
      else
        ask* interrupted := ask QTick in
        if interrupted : bool then ask* _ := ask (QStopSync id) in mret (Done (Err EInterrupted)) else wait_sync_run fuel id
  end.

Definition required_output_dir (output_dir : option path) : Res path :=
  match output_dir with
  | None => Err (EUsage (Msg "sync.output_dir_required" []))
  | Some dir => Ok (resolve_local (cc_local_cwd context) dir)
  end.

(** The loop of [sync watch]. *)
Fixpoint sync_watch (fuel : nat) (id : string) : prog (Executed Outcome) :=
  match fuel with
  | O => mret Unfinished
  | S fuel =>
      ask* event := ask QEvent in
      match event with
      | NextIs (SyncWatchApplied _ _ _) =>
          if bool_decide (format = Jsonl) then exec? _ := ends (of_app (ask QSnapshot)) in sync_watch fuel id else sync_watch fuel id
      | NextIs _ | NextLagged _ => sync_watch fuel id
      | NextClosed => ask* _ := ask (QStopWatch id) in mret (Done (Err (ETransport (Msg "watch.disconnected" []))))
      | CtrlC => ask* _ := ask (QStopWatch id) in mret (Done (Err EInterrupted))
      end
  end.

Definition sync_command (fuel : nat) (c : SyncCommand) : prog (Executed Outcome) :=
  exec? snapshot := ends (of_app (ask QSnapshot)) in
  exec? device_uuid := Return (Done (sync_device_uuid_from_info (ssn_device_info snapshot))) in
  let profile_for := sync_profile_for session_id device_uuid in
  match c with
  | SyncStatusCommand => exec? ledgers := ends (of_app (ask (QLedgers device_uuid))) in mret (Done (Ok (OLedgers ledgers)))
  | SyncPlanCommand root output_dir =>
      exec? dir := Return (Done (required_output_dir output_dir)) in
      exec? plan := ends (of_app (ask (QPlanSync (profile_for root dir)))) in
      mret (Done (Ok (OPlan (act_remote_path <$> plan_downloads plan) (act_remote_path <$> plan_metadata_updates plan)
                        (act_remote_path <$> plan_deletions plan) (con_local_path <$> plan_conflicts plan)
                        (zlen (plan_downloads plan) + zlen (plan_metadata_updates plan) + zlen (plan_deletions plan)))))
  | SyncRunCommand root output_dir run_yes =>
      exec? dir := Return (Done (required_output_dir output_dir)) in
      exec? _ := ends (confirm_interruptible (Msg "sync.confirm_run" []) run_yes) in
      exec? id := ends (of_app (ask (QStartSync (profile_for root dir)))) in
      exec? _ := wait_sync_run fuel id in
      exec? result := ends (of_app (ask (QLastResult id))) in
      mret (Done (match result with
                  | Some result => Ok (ORun result)
                  | None => Err (EProtocol (Msg "sync run finished without a result" []))
                  end))
  | SyncWatchCommand root output_dir watch_yes =>
      exec? dir := Return (Done (required_output_dir output_dir)) in
      exec? _ := ends (confirm_interruptible (Msg "sync.confirm_run" []) watch_yes) in
      exec? id := ends (of_app (ask (QStartSync (profile_for root dir)))) in
      exec? _ := wait_sync_run fuel id in
      exec? _ := ends (of_app (ask (QStartWatch id))) in
      sync_watch fuel id
  end.

(** ** [execute_connected] *)

Definition fs_command (c : FsCommand) : prog (Res Outcome) :=
  match c with
  | FsLs p depth => fs_ls display context p depth
  | FsStat p => fs_stat display context p
  | FsCount p depth exclusions => fs_count display context p depth exclusions
  | FsExists p => fs_exists display context p
  | FsMkdir p => fs_mkdir display context p
  | FsMv source target => fs_mv display context source target
  | FsRm paths recursive trash => fs_rm display context yes format terminal paths recursive trash
  | FsPull remote local recursive overwrite dry_run => fs_pull display context yes format terminal remote local recursive overwrite dry_run
  | FsPush local remote recursive overwrite dry_run => fs_push display context yes format terminal local remote recursive overwrite dry_run
  end.

(** What is printed with the device it came from. *)
Abbreviation Output := (Outcome * option DeviceInfoDto)%type.

(** A finished command is followed by a snapshot of the session for its device. *)
Definition with_device (m : prog (Res Outcome)) : prog (Executed Output) :=
  exec? outcome := ends m in
  exec? snapshot := ends (of_app (ask QSnapshot)) in
  mret (Done (Ok (outcome, Some (ssn_device_info snapshot)))).

Definition bare (m : prog (Executed Outcome)) : prog (Executed Output) :=
  exec? outcome := m in mret (Done (Ok (outcome, None))).

(** A dry run and a refused command return at once. *)
Definition is_dry_run (o : Outcome) : bool := match o with ODryRun _ _ _ _ => true | _ => false end.

Definition execute_connected (fuel : nat) (c : Command) : prog (Executed Output) :=
  match c with
  | Device DeviceList => bare (ends device_list)
  | Device DeviceInfoCommand =>
      with_device (ask? snapshot := of_app (ask QSnapshot) in mret (Ok (OInfo (ssn_device_info snapshot))))
  | Device DevicePing => with_device (ask? ms := of_app (ask QPing) in mret (Ok (OPing ms)))
  | Device (DeviceDiscover _) | Trust _ => mret Panicked
  | FsOf c =>
      exec? outcome := ends (fs_command c) in
      if is_dry_run outcome then mret (Done (Ok (outcome, None))) else with_device (mret (Ok outcome))
  | Clipboard c => with_device (clipboard_command c)
  | Shell | Batch => mret (Done (Err (EUsage (Msg "ShellNested" []))))
  | Watch _ => mret (Done (Err (EUsage (Msg "WatchNested" []))))
  | SyncOf (SyncWatchCommand root output_dir yes) =>
      if cc_in_shell context then mret (Done (Err (EUsage (Msg "sync.watch_nested" []))))
      else bare (sync_command fuel (SyncWatchCommand root output_dir yes))
  | SyncOf c => bare (sync_command fuel c)
  | Media c => bare (ends (media_command c))
  end.
End Commands.
