(* ===== verification/CliMain.v ===== *)
(** * The command line: runs

    crates/handshaker-cli/src/cli.rs, [connect], [watch], [run_batch], [run_shell], [trust_*] and
    [run], and [cli_main] of main.rs.  The words of a line (shell_words) and the commands they are
    (clap) are parameters.  Then what is printed: the envelopes of output.rs, the listings, and
    the form of the output while the arguments are not understood. *)

From Stdlib Require Import Strings.String Strings.Ascii.
From stdpp Require Import gmap strings.
From S2P Require Import Prelude Errors AppErrors Domain Text Paths Fs Transfer Devices RemotePath FilePlan PlanRun TrustStore Sync SyncRun MediaDto AppRequests Parse I18n FfiCore Serde Cli CliCommands.

#[local] Open Scope string_scope.
#[local] Open Scope list_scope.
#[local] Open Scope Z_scope.

(** The parsed arguments. *)
Record Cli := mkCli { cl_connect : ConnectArgs; cl_output : OutputFormat; cl_yes : bool; cl_command : Command }.

(** What clap makes of a line of the shell: the help or version asked for, an error, or a command. *)
Inductive Parsed := ParsedHelp | ParsedError | ParsedAs (yes : bool) (c : Command).

Section Runs.
Context (display message_of : PublicError -> message) (terminal : bool)
  (split : string -> result string (list string)) (parse : list string -> Parsed).

Local Abbreviation of_app := (of_app display).

(** ** Connecting *)

Definition connect (cli : ConnectArgs) : prog (Res Z) :=
  ask? _ := of_app (ask QCreate) in
  ask* devices := (if ca_usb cli || bool_decide (is_Some (ca_wifi cli)) then mret (Ok []) else ask (QDevices true false)) in
  match select_device_descriptor display cli devices with
  | Err e => mret (Err e)
  | Ok device => of_app (ask (QConnect device))
  end.

Definition close_session (session_id : Z) : prog (Res ()) := of_app (ask (QDisconnect session_id)).

Definition current_dir : prog (Res path) := ask* dir := ask QCurrentDir in mret (map_err (fun e => ELocalIo (Msg e [])) dir).

(** The session, and where its commands start. *)
Definition open_context (in_shell : bool) (snapshot : SessionSnapshot) : prog (Res CommandContext) :=
  ask? dir := current_dir in mret (Ok (mkContext (if_root_path (ssn_device_info snapshot)) dir in_shell)).

(** What a batch and a single command begin with. *)
Definition open_session (cli : Cli) (in_shell : bool) : prog (Executed (Z * CommandContext)) :=
  exec? session_id := ends (connect (cl_connect cli)) in
  exec? snapshot := ends (of_app (ask QSnapshot)) in
  exec? context := ends (open_context in_shell snapshot) in
  mret (Done (Ok (session_id, context))).

(** ** Lines *)

Definition set_remote (p : string) (context : CommandContext) : CommandContext := mkContext p (cc_local_cwd context) (cc_in_shell context).
Definition set_local (p : path) (context : CommandContext) : CommandContext := mkContext (cc_remote_cwd context) p (cc_in_shell context).

(** The words the shell and the batch act on themselves; [None] is the end, else the context to go on with. *)
Definition shell_builtin (words : list string) (context : CommandContext) : option (prog (option CommandContext)) :=
  match words with
  | word :: rest =>
      if bool_decide (word = "exit") || bool_decide (word = "quit") then Some (mret None)
      else match rest with
           | [] => if bool_decide (word = "help") || bool_decide (word = "pwd") || bool_decide (word = "lpwd")
                   then Some (mret (Some context)) else None
           | [target] =>
               if bool_decide (word = "cd") then
                 let p := resolve_remote (cc_remote_cwd context) target in
                 Some (ask* found := ask (QStat p) in
                       mret (Some (match found with
                                   | Ok (Some file) => if fd_is_directory file then set_remote p context else context
                                   | _ => context
                                   end)))
               else if bool_decide (word = "lcd") then
                 let p := resolve_local (cc_local_cwd context) target in
                 Some (ask* there := ask (QLocalDir p) in mret (Some (if there : bool then set_local p context else context)))
               else None
           | _ => None
           end
  | [] => None
  end.

(** The errors that end a batch or a shell. *)
Definition fatal_class (e : Error) : bool :=
  match e with ETransport _ | EHandshake _ | ETimeout _ | EProtocol _ => true | _ => false end.

(** What a line leads to: the next line, with a failure or not; the end; or a panic. *)
Inductive LineEnd :=
  | LineNext (context : CommandContext) (failed : bool)
  | LineStop (fatal : option Error)
  | LinePanic
  | LineUnfinished.

Definition batch_line (session_id : Z) (output : OutputFormat) (fuel : nat) (context : CommandContext) (line : string) : prog LineEnd :=
  let line := trim line in
  if bool_decide (line = "") then mret (LineNext context false)
  else match split line with
  | Err _ => mret (LineNext context true)
  | Ok words =>
      match shell_builtin words context with
      | Some builtin => ask* next := builtin in mret (match next with Some context => LineNext context false | None => LineStop None end)
      | None =>
          match parse (shell_command_argv words) with
          | ParsedHelp => mret (LineNext context false)
          | ParsedError | ParsedAs _ Shell | ParsedAs _ Batch => mret (LineNext context true)
          | ParsedAs yes c =>
              ask* executed := execute_connected session_id display message_of context yes output terminal fuel c in
              match executed with
              | Done (Ok outcome) =>
                  ask* rendered := ask (QRender outcome) in
                  mret (match rendered with Ok _ => LineNext context false | Err e => LineStop (Some e) end)
              | Done (Err e) => mret (if fatal_class e then LineStop (Some e) else LineNext context true)
              | Panicked => mret LinePanic
              | Unfinished => mret LineUnfinished
              end
          end
      end
  end.

(** The lines of the input, an error of reading it last; the fatal error and the number of failures. *)
Fixpoint batch_lines (session_id : Z) (output : OutputFormat) (fuel : nat) (context : CommandContext) (lines : list (result string string))
    (failed : Z) : prog (Executed (option Error * Z)) :=
  match lines with
  | [] => mret (Done (Ok (None, failed)))
  | Err e :: _ => mret (Done (Ok (Some (ELocalIo (Msg "BatchReadFailed" [e])), failed)))
  | Ok line :: lines =>
      ask* next := batch_line session_id output fuel context line in
      match next with
      | LineNext context more => batch_lines session_id output fuel context lines (if more then (failed + 1) mod 2 ^ 32 else failed)
      | LineStop fatal => mret (Done (Ok (fatal, failed)))
      | LinePanic => mret Panicked
      | LineUnfinished => mret Unfinished
      end
  end.

Definition run_batch (cli : Cli) (fuel : nat) (lines : list (result string string)) : prog (Executed ()) :=
  exec? opened := open_session cli true in
  exec? run := batch_lines opened.1 (cl_output cli) fuel opened.2 lines 0 in
  ask* close := close_session opened.1 in
  mret (Done (match run.1 with
              | Some e => Err e
              | None => if 0 <? run.2 then Err (ELocalIo (Msg "BatchFailures" [pretty run.2])) else close
              end)).

(** ** The shell *)

(** A command that Ctrl-C may end, [None] then; the question it was at may have been answered or not. *)
Fixpoint interruptible {A} (m : prog A) : prog (option A) :=
  match m with
  | Return a => Return (Some a)
  | Ask q k =>
      Ask QInterrupt (fun i => match i with
                               | NoInterrupt => Ask q (fun a => interruptible (k a))
                               | InterruptBefore => Return None
                               | InterruptDuring => Ask q (fun _ => Return None)
                               end)
  end.

Definition is_pull (c : Command) : bool := match c with FsOf (FsPull _ _ _ _ _) => true | _ => false end.

(** [ShellReturn] leaves [run_shell] at once, the session still open. *)
Inductive ShellEnd := ShellNext (context : CommandContext) | ShellBreak (error : option Error) | ShellReturn (e : Error) | ShellPanic | ShellUnfinished.

Definition shell_command (session_id : Z) (fuel : nat) (context : CommandContext) (yes : bool) (c : Command) : prog ShellEnd :=
  ask* executed := interruptible (execute_connected session_id display message_of context yes Human terminal fuel c) in
  match executed with
  | None => mret (if is_pull c then ShellBreak (Some EInterrupted) else ShellNext context)
  | Some (Done (Ok outcome)) =>
      ask* rendered := ask (QRender outcome) in mret (match rendered with Ok _ => ShellNext context | Err e => ShellReturn e end)
  | Some (Done (Err e)) => mret (if fatal_class e then ShellBreak (Some e) else ShellNext context)
  | Some Panicked => mret ShellPanic
  | Some Unfinished => mret ShellUnfinished
  end.

Definition shell_line (session_id : Z) (fuel : nat) (context : CommandContext) (line : string) : prog ShellEnd :=
  let line := trim line in
  if bool_decide (line = "") then mret (ShellNext context)
  else
    ask* remembered := ask (QHistory line) in
    match remembered with
    | Err e => mret (ShellReturn (ELocalIo (Msg "shell.history_failed" [e])))
    | Ok _ =>
        match split line with
        | Err _ => mret (ShellNext context)
        | Ok words =>
            match shell_builtin words context with
            | Some builtin => ask* next := builtin in mret (match next with Some context => ShellNext context | None => ShellBreak None end)
            | None =>
                match parse (shell_command_argv words) with
                | ParsedHelp | ParsedError | ParsedAs _ Shell => mret (ShellNext context)
                | ParsedAs yes c => shell_command session_id fuel context yes c
                end
            end
        end
    end.

Fixpoint shell_loop (rounds : nat) (session_id : Z) (fuel : nat) (context : CommandContext) : prog ShellEnd :=
  match rounds with
  | O => mret ShellUnfinished
  | S rounds =>
      ask* read := ask QReadline in
      match read with
      | ReadInterrupted => shell_loop rounds session_id fuel context
      | ReadEof => mret (ShellBreak None)
      | ReadError e => mret (ShellReturn (ELocalIo (Msg "shell.readline_failed" [e])))
      | ReadLineIs line =>
          ask* next := shell_line session_id fuel context line in
          match next with
          | ShellNext context => shell_loop rounds session_id fuel context
          | other => mret other
          end
      end
  end.

Definition run_shell (cli : Cli) (rounds fuel : nat) : prog (Executed ()) :=
  exec? session_id := ends (connect (cl_connect cli)) in
  ask* editor := ask QEditor in
  match editor with
  | Err e => mret (Done (Err (ELocalIo (Msg "shell.readline_init_failed" [e]))))
  | Ok _ =>
      exec? snapshot := ends (of_app (ask QSnapshot)) in
      exec? context := ends (open_context true snapshot) in
      ask* left := shell_loop rounds session_id fuel context in
      match left with
      | ShellBreak command_error =>
          ask* close := close_session session_id in
          mret (Done (match command_error with Some e => Err e | None => close end))
      | ShellReturn e => mret (Done (Err e))
      | ShellPanic => mret Panicked
      | ShellNext _ | ShellUnfinished => mret Unfinished
      end
  end.

(** ** Watching *)

Fixpoint monitor_all (paths : list string) (on : bool) : prog () :=
  match paths with
  | [] => mret ()
  | p :: paths => ask* _ := ask (QMonitor p on) in monitor_all paths on
  end.

(** Registers the paths in order; a refusal unregisters those before it. *)
Fixpoint register_monitors (registered paths : list string) : prog (Res ()) :=
  match paths with
  | [] => mret (Ok ())
  | p :: paths =>
      ask* answered := ask (QMonitor p true) in
      match answered with
      | Ok _ => register_monitors (registered ++ [p]) paths
      | Err e => ask* _ := monitor_all registered false in ask* _ := ask QShutdown in mret (Err (app_error display e))
      end
  end.

Fixpoint watch_loop (fuel : nat) (output : OutputFormat) (paths : list string) : prog (Executed ()) :=
  match fuel with
  | O => mret Unfinished
  | S fuel =>
      ask* event := ask QEvent in
      match event with
      | NextIs _ =>
          if bool_decide (output = Jsonl) then
            ask* snapshot := ask QSnapshot in
            match snapshot with
            | Ok _ => watch_loop fuel output paths
            | Err e => ask* _ := monitor_all paths false in ask* _ := ask QShutdown in mret (Done (Err (app_error display e)))
            end
          else watch_loop fuel output paths
      | NextLagged _ => watch_loop fuel output paths
      | NextClosed => ask* _ := ask QShutdown in mret (Done (Err (ETransport (Msg "WatchDisconnected" []))))
      | CtrlC => ask* _ := monitor_all paths false in ask* _ := ask QShutdown in mret (Done (Err EInterrupted))
      end
  end.

Definition watch (cli : Cli) (fuel : nat) (paths : list string) : prog (Executed ()) :=
  exec? _ := ends (connect (cl_connect cli)) in
  exec? _ := ends (register_monitors [] paths) in
  watch_loop fuel (cl_output cli) paths.

(** ** Commands without a session *)

Definition device_discover (timeout : string) : prog (Res Outcome) :=
  match parse_duration timeout with
  | Err m => mret (Err (EUsage m))
  | Ok ms => ask? devices := ask (QDiscover ms) in mret (Ok (ODiscovered devices))
  end.

Definition trust_command (cli : Cli) (c : TrustCommand) : prog (Res Outcome) :=
  match c with
  | TrustList => ask? records := of_app (ask QTrust) in mret (Ok (OTrust records))
  | TrustRemove device_uuid =>
      ask? _ := confirmation (cl_yes cli) (cl_output cli) terminal (Msg "TrustRemoveAction" [device_uuid]) in
      ask? removed := of_app (ask (QRemoveTrust ("phone:" +:+ device_uuid))) in
      mret (if removed : bool then Ok (OTrustRemoved device_uuid) else Err (EConfiguration (Msg "TrustMissing" [device_uuid])))
  | TrustReset device_uuid =>
      match ca_wifi (cl_connect cli) with
      | None => mret (Err (EUsage (Msg "TrustResetNeedsWifi" [])))
      | Some address =>
          ask? _ := confirmation (cl_yes cli) (cl_output cli) terminal (Msg "TrustResetAction" [device_uuid]) in
          ask? _ := of_app (ask (QResetTrust address ("phone:" +:+ device_uuid))) in
          mret (Ok (OTrustReset device_uuid address))
      end
  end.

Definition rendered (outcome : Outcome) : prog (Executed ()) := ends (ask (QRender (outcome, None))).

Definition missing_output_dir (c : SyncCommand) : bool :=
  match c with
  | SyncPlanCommand _ dir | SyncRunCommand _ dir _ | SyncWatchCommand _ dir _ => bool_decide (dir = None)
  | SyncStatusCommand => false
  end.

(** One command on a session of its own. *)
Definition run_one (cli : Cli) (fuel : nat) : prog (Executed ()) :=
  exec? opened := open_session cli false in
  ask* executed := execute_connected opened.1 display message_of opened.2 (cl_yes cli) (cl_output cli) terminal fuel (cl_command cli) in
  match executed with
  | Done outcome =>
      ask* close := close_session opened.1 in
      match outcome, close with
      | Ok outcome, Ok _ => ends (ask (QRender outcome))
      | Ok _, Err e | Err e, _ => mret (Done (Err e))
      end
  | Panicked => mret Panicked
  | Unfinished => mret Unfinished
  end.

Definition run (cli : Cli) (rounds fuel : nat) (stdin : list (result string string)) : prog (Executed ()) :=
  match cl_command cli with
  | Device DeviceList => exec? outcome := ends (device_list message_of) in rendered outcome
  | Device (DeviceDiscover timeout) => exec? outcome := ends (device_discover timeout) in rendered outcome
  | Trust c =>
      exec? _ := ends (of_app (ask QCreate)) in
      exec? outcome := ends (trust_command cli c) in
      ask* _ := ask QShutdown in rendered outcome
  | Shell => if bool_decide (cl_output cli = Human) then run_shell cli rounds fuel else mret (Done (Err (EUsage (Msg "ShellOnlyHuman" []))))
  | Batch => run_batch cli fuel stdin
  | Watch paths => watch cli fuel paths
  | SyncOf c => if missing_output_dir c then mret (Done (Err (EUsage (Msg "sync.output_dir_required" [])))) else run_one cli fuel
  | _ => run_one cli fuel
  end.

(** ** [cli_main] *)

Definition self_handling_ctrl_c (c : Command) : bool :=
  match c with Shell | Watch _ | SyncOf (SyncRunCommand _ _ _) | SyncOf (SyncWatchCommand _ _ _) => true | _ => false end.

(** The exit code; [None] is a panic, [Some None] still going. *)
Definition cli_main (cli : Cli) (rounds fuel : nat) (stdin : list (result string string)) : prog (option (option Z)) :=
  let code (executed : Executed ()) : option (option Z) :=
    match executed with
    | Done (Ok _) => Some (Some 0)
    | Done (Err e) => Some (Some (exit_code e))
    | Panicked => None
    | Unfinished => Some None
    end in
  if self_handling_ctrl_c (cl_command cli) then ask* executed := run cli rounds fuel stdin in mret (code executed)
  else
    ask* executed := interruptible (run cli rounds fuel stdin) in
    mret (match executed with Some executed => code executed | None => Some (Some (exit_code EInterrupted)) end).
End Runs.

(** ** What is printed *)

Definition command_name (command : Command) : string :=
  match command with
  | Device DeviceList => "device.list"
  | Device DeviceInfoCommand => "device.info"
  | Device DevicePing => "device.ping"
  | Device (DeviceDiscover _) => "device.discover"
  | FsOf (FsLs _ _) => "fs.ls"
  | FsOf (FsStat _) => "fs.stat"
  | FsOf (FsCount _ _ _) => "fs.count"
  | FsOf (FsExists _) => "fs.exists"
  | FsOf (FsMkdir _) => "fs.mkdir"
  | FsOf (FsMv _ _) => "fs.mv"
  | FsOf (FsRm _ _ _) => "fs.rm"
  | FsOf (FsPull _ _ _ _ _) => "fs.pull"
  | FsOf (FsPush _ _ _ _ _) => "fs.push"
  | Clipboard ClipboardGet => "clipboard.get"
  | Clipboard (ClipboardSet _ _) => "clipboard.set"
  | Clipboard (ClipboardDelete _) => "clipboard.delete"
  | Clipboard ClipboardClear => "clipboard.clear"
  | Trust TrustList => "trust.list"
  | Trust (TrustRemove _) => "trust.remove"
  | Trust (TrustReset _) => "trust.reset"
  | Media (MediaPhoto _) => "media.photo"
  | Media (MediaVideo _) => "media.video"
  | Media (MediaAudio _) => "media.audio"
  | Media (MediaThumbnail _ _) => "media.thumbnail"
  | SyncOf (SyncPlanCommand _ _) => "sync.plan"
  | SyncOf (SyncRunCommand _ _ _) => "sync.run"
  | SyncOf (SyncWatchCommand _ _ _) => "sync.watch"
  | SyncOf SyncStatusCommand => "sync.status"
  | Shell => "shell"
  | Batch => "batch"
  | Watch _ => "watch"
  end.

(** The form of the output asked for by arguments that could not be parsed. *)
Definition named_output (value : string) : OutputFormat :=
  if bool_decide (value = "json") then Json else if bool_decide (value = "jsonl") then Jsonl else Human.

Fixpoint output_from_raw_args (args : list string) : OutputFormat :=
  match args with
  | [] => Human
  | arg :: args =>
      match str_strip_prefix "--output=" arg with
      | Some value => named_output value
      | None =>
          if bool_decide (arg = "--output") then match args with value :: _ => named_output value | [] => Human end
          else output_from_raw_args args
      end
  end.

(** [runtime_config] *)
Definition runtime_config (timeout : Z) (state_dir wire_log : option path) : RuntimeConfig :=
  mkRuntimeConfig "adb" timeout 10000 None state_dir wire_log false 1024 64 None.

(** serde's names of the error codes. *)
Definition code_token (c : ErrorCode) : string :=
  match c with
  | Usage => "usage" | Configuration => "configuration" | DeviceSelection => "device_selection"
  | AdbUnavailable => "adb_unavailable" | Transport => "transport" | Handshake => "handshake" | Timeout => "timeout"
  | Protocol => "protocol" | RemoteIo => "remote_io" | LocalIo => "local_io"
  | ConfirmationRequired => "confirmation_required" | Interrupted => "interrupted" | Cancelled => "cancelled"
  end.

(** [Outcome] of output.rs. *)
Record Rendered := mkRendered {
  rd_command : string; rd_device : option (string * option string); rd_data : jvalue; rd_human : string; rd_warnings : list string }.

Definition device_summary (device : string * option string) : jvalue :=
  JObject [("name", json_option JString device.2); ("serial", JString device.1)].

Definition with_device_info (info : DeviceInfoDto) (o : Rendered) : Rendered :=
  mkRendered (rd_command o) (Some (if_serial info, if_name info)) (rd_data o) (rd_human o) (rd_warnings o).

Definition with_warning (warning : string) (o : Rendered) : Rendered :=
  mkRendered (rd_command o) (rd_device o) (rd_data o) (rd_human o) (rd_warnings o ++ [warning]).

(** [json!] keeps the keys in their order as text. *)
Definition success_envelope (o : Rendered) : jvalue :=
  JObject [("command", JString (rd_command o)); ("data", rd_data o);
           ("device", match rd_device o with Some d => device_summary d | None => JNull end);
           ("ok", JBool true); ("schema_version", JInt 1); ("warnings", JArray (JString <$> rd_warnings o))].

(** The lines printed on the standard output, and on the standard error. *)
Definition Printed : Type := list string * list string.

Section Printing.
Context `{SerdeJson} (text : string -> string) (formatted : string -> list string -> string) (error_text : Error -> string).

Definition error_envelope (error : Error) (command : string) : jvalue :=
  JObject [("command", JString command); ("device", JNull);
           ("error", JObject [("code", JString (code_token (error_code error))); ("details", JNull); ("message", JString (error_text error))]);
           ("ok", JBool false); ("schema_version", JInt 1); ("warnings", JArray [])].

(** [flushed] is what flushing the standard output answers. *)
Definition render (o : Rendered) (format : OutputFormat) (flushed : Res ()) : Res () * Printed :=
  match format with
  | Human => (flushed, (if bool_decide (rd_human o = "") then [] else [rd_human o], rd_warnings o))
  | Json | Jsonl =>
      match print_json (success_envelope o) with
      | Err e => (Err (EProtocol (Msg "error.serialize_json" [e])), ([], []))
      | Ok line => (flushed, ([line], []))
      end
  end.

(** [value] is [Display] of a value, which is its text. *)
Definition render_error (value : jvalue -> string) (error : Error) (command : string) (format : OutputFormat) : Printed :=
  match format with
  | Human => ([], [formatted "Error" [error_text error]])
  | Json | Jsonl => ([value (error_envelope error command)], [])
  end.

Definition watch_envelope (info : DeviceInfoDto) (event : jvalue) : jvalue :=
  JObject [("command", JString "watch"); ("data", event); ("device", device_summary (if_serial info, if_name info));
           ("event", JString "watch"); ("ok", JBool true); ("schema_version", JInt 1); ("warnings", JArray [])].

Definition sync_watch_envelope (info : DeviceInfoDto) (result : SyncRunResultDto) : jvalue :=
  JObject [("command", JString "sync.watch");
           ("data", JObject [("applied", JInt (zlen (srd_downloaded result) + zlen (srd_deleted result)));
                             ("failures", JInt (zlen (srd_failures result)))]);
           ("device", device_summary (if_serial info, if_name info));
           ("event", JString "sync.watch"); ("ok", JBool true); ("schema_version", JInt 1); ("warnings", JArray [])].

Definition joined_lines (lines : list string) : string := String.concat (String newline "") lines.

Definition human_files (files : list CliFileEntry) : string := joined_lines (text "FileListHeader" :: (human_file text <$> files)).

Definition human_clipboard (entry : ClipboardEntry) : string :=
  pretty (ce_timestamp_ms entry) +:+ TAB +:+ I18n.replace (String newline "") "\n" (ce_text entry).
Definition human_clipboards (entries : list ClipboardEntry) : string :=
  joined_lines (text "ClipboardHeader" :: (human_clipboard <$> entries)).

Definition trust_device_uuid (record : TrustRecordDto) : string :=
  default (td_device_id record) (str_strip_prefix "phone:" (td_device_id record)).

Definition human_trust_records (records : list TrustRecordDto) : string :=
  match records with
  | [] => text "TrustNone"
  | _ => joined_lines (text "TrustListHeader" ::
           ((fun record => trust_device_uuid record +:+ TAB +:+ default "-" (td_device_name record)) <$> records))
  end.

Definition legacy_trust_records (records : list TrustRecordDto) : jvalue :=
  JArray ((fun record => JObject [("device_name", json_option JString (td_device_name record)); ("device_uuid", JString (trust_device_uuid record));
                                  ("updated_at", JInt (td_updated_at_ms record `div` 1000))]) <$> records).

Definition human_device_info (info : DeviceInfoDto) : string :=
  formatted "DeviceInfo"
    [sanitize_human (if_serial info); sanitize_human (default "-" (if_name info)); sanitize_human (default "-" (if_model info));
     sanitize_human (default "-" (if_brand info)); sanitize_human (default "-" (if_smartisan_version info));
     sanitize_human (default "-" (if_apk_version_name info)); sanitize_human (if_root_path info);
     match if_battery_percentage info with Some value => pretty value +:+ "%" | None => "-" end;
     if default false (if_phone_locked info) then text "Yes" else text "No"].

(** A line with a number of things, unless there are none. *)
Definition counted_line {A} (key : string) (l : list A) : list string :=
  match l with [] => [] | _ => [formatted key [pretty (zlen l)]] end.

Definition plan_human (plan : SyncPlanDto) : string :=
  joined_lines (formatted "sync.plan_added" [pretty (zlen (plan_downloads plan))] ::
    counted_line "sync.plan_info" (plan_metadata_updates plan) ++ counted_line "sync.plan_deleted" (plan_deletions plan) ++
    counted_line "sync.plan_conflicts" (plan_conflicts plan)).

Definition run_human (result : SyncRunResultDto) : string :=
  joined_lines (formatted "sync.run_done" [pretty (zlen (srd_downloaded result)); pretty (zlen (srd_deleted result))] ::
    counted_line "sync.run_failures" (srd_failures result) ++ counted_line "sync.plan_conflicts" (srd_conflicts result)).

(** [data[key] = value] of a value that is an object. *)
Fixpoint insert_member (key : string) (value : jvalue) (members : list (string * jvalue)) : list (string * jvalue) :=
  match members with
  | [] => [(key, value)]
  | (k, v) :: members =>
      match String.compare key k with
      | Eq => (key, value) :: members
      | Lt => (key, value) :: (k, v) :: members
      | Gt => (k, v) :: insert_member key value members
      end
  end.

(** The data is an object. *)
Definition preview_summary (human : string) (data : list (string * jvalue)) (total : Z) (truncated : bool) (limit : option Z)
  : string * jvalue :=
  (if truncated then joined_lines [human; formatted "MediaPreviewTruncated" [pretty total; pretty (default 0 limit)]] else human,
   JObject (insert_member "truncated" (JBool truncated) (insert_member "total" (JInt total) data))).
End Printing.
