(* ===== verification/CliProps.v ===== *)
(** * The command line is correct

    What every run of a command asks, whatever it is answered: deletions only after a confirmation and
    after every path was found, dry runs that only look and count what an upload sends, batches that
    report their failures and close their session, watches that unregister what they registered; and the
    pure parts: paths are plain, names of thumbnails stay in their directory and differ, printed text has
    no control characters, durations are exact up to saturation, exit codes survive the application but
    for a few classes; and the flaws of a few commands. *)

From Stdlib Require Import Strings.String Strings.Ascii.
From stdpp Require Import gmap strings.
From S2P Require Import Prelude Errors AppErrors Domain Text Paths Fs Handshake Transfer Devices RemotePath FilePlan SyncStore SyncLayout ClientTransfer ClientBatch PlanRun TrustStore Sync SyncRun MediaDto AppRequests Parse I18n FfiCore Serde Cli CliCommands CliMain.

#[local] Open Scope string_scope.
#[local] Open Scope list_scope.
#[local] Open Scope Z_scope.

(** ** Runs *)

Lemma prog_runs_bind {A B} (m : prog A) (k : A -> prog B) (tr : list turn) (r : B) :
  runs (mbind (M := prog) k m) tr r <-> exists tr1 a tr2, tr = tr1 ++ tr2 /\ runs m tr1 a /\ runs (k a) tr2 r.
Proof.
  unfold mbind, prog_mbind. revert tr. induction m as [a|q f IH]; intros tr; cbn.
  - split; [intros Hr; by exists [], a, tr|]. by intros (? & ? & ? & -> & [-> ->] & Hk).
  - split.
    + intros (a0 & tr' & -> & (tr1 & a & tr2 & -> & Hm & Hk)%IH). exists (Turn q a0 :: tr1), a, tr2. by split_and!; [|eauto|].
    + intros (? & a & tr2 & -> & (a0 & tr1 & -> & Hm) & Hk). exists a0, (tr1 ++ tr2). split; [done|]. apply IH. by exists tr1, a, tr2.
Qed.

(** The history of a program, as a weakest precondition: [allowed] holds of every question when it is
    asked, and [Q] of the whole history and the result. *)
Section Histories.
Context (allowed : list turn -> question -> Prop).

Fixpoint always {A} (m : prog A) (tr : list turn) (Q : list turn -> A -> Prop) : Prop :=
  match m with
  | Return a => Q tr a
  | Ask q k => allowed tr q /\ forall a, always (k a) (tr ++ [Turn q a]) Q
  end.

Lemma always_mono {A} (m : prog A) (tr : list turn) (Q Q' : list turn -> A -> Prop) :
  always m tr Q -> (forall tr' a, tr `prefix_of` tr' -> Q tr' a -> Q' tr' a) -> always m tr Q'.
Proof.
  revert tr. induction m as [a|q k IH]; intros tr; cbn; [by intros HQ Hi; apply Hi|].
  intros [Hq Hk] Hi. split; [done|]. intros a. apply IH; [apply Hk|].
  intros tr' r Hp. apply Hi. etrans; [|done]. by apply prefix_app_r.
Qed.

Lemma always_bind {A B} (m : prog A) (k : A -> prog B) (tr : list turn) (Q : list turn -> B -> Prop) :
  always m tr (fun tr' a => always (k a) tr' Q) -> always (mbind (M := prog) k m) tr Q.
Proof.
  unfold mbind, prog_mbind. revert tr. induction m as [a|q f IH]; intros tr; cbn; [done|].
  intros [Hq Hk]. split; [done|]. intros a. by apply IH.
Qed.

Lemma always_runs {A} (m : prog A) (tr tr' : list turn) (Q : list turn -> A -> Prop) (r : A) :
  always m tr Q -> runs m tr' r ->
  Q (tr ++ tr') r /\ forall before e after, tr' = before ++ e :: after -> allowed (tr ++ before) (ex_question e).
Proof.
  revert tr tr'. induction m as [a|q k IH]; intros tr tr'; cbn.
  - intros HQ [-> ->]. rewrite app_nil_r. split; [done|]. by intros [|] ? ?.
  - intros [Hq Hk] (a & tr1 & -> & Hr). destruct (IH a (tr ++ [Turn q a]) tr1 (Hk a) Hr) as [HQ Hall].
    rewrite <- app_assoc in HQ. split; [done|].
    intros [|e before] e' after Heq; injection Heq as <- Heq; [by rewrite app_nil_r|].
    rewrite (cons_middle _ tr before). rewrite app_assoc. by eapply Hall.
Qed.
End Histories.

(** Whatever is answered, only questions of [P]. *)
Fixpoint asks_only (P : question -> Prop) {A} (m : prog A) : Prop :=
  match m with
  | Return _ => True
  | Ask q k => P q /\ forall a, asks_only P (k a)
  end.

Lemma asks_only_bind (P : question -> Prop) {A B} (m : prog A) (k : A -> prog B) :
  asks_only P m -> (forall a, asks_only P (k a)) -> asks_only P (mbind (M := prog) k m).
Proof.
  unfold mbind, prog_mbind. induction m as [a|q f IH]; cbn; [done|]. intros [Hq Hf] Hk. split; [done|]. intros a. by apply IH.
Qed.

Lemma asks_only_mono (P Q : question -> Prop) {A} (m : prog A) : (forall q, P q -> Q q) -> asks_only P m -> asks_only Q m.
Proof. intros Hi. induction m as [a|q f IH]; cbn; [done|]. intros [Hq Hf]. split; [by apply Hi|]. intros a. by apply IH. Qed.

Lemma asks_only_always (allowed : list turn -> question -> Prop) (P : question -> Prop) {A} (m : prog A) (tr : list turn) :
  (forall tr q, P q -> allowed tr q) -> asks_only P m ->
  always allowed m tr (fun tr' _ => exists new, tr' = tr ++ new /\ Forall (fun e => P (ex_question e)) new).
Proof.
  intros Hi. revert tr. induction m as [a|q f IH]; intros tr; cbn.
  - intros _. exists []. by rewrite app_nil_r.
  - intros [Hq Hf]. split; [by apply Hi|]. intros a. eapply always_mono; [by apply IH|].
    intros tr' r _ (new & -> & Hnew). exists (Turn q a :: new). rewrite <- app_assoc. split; [done|]. by constructor.
Qed.

Lemma asks_only_runs (P : question -> Prop) {A} (m : prog A) (tr : list turn) (r : A) :
  asks_only P m -> runs m tr r -> Forall (fun e => P (ex_question e)) tr.
Proof.
  revert tr. induction m as [a|q f IH]; intros tr; cbn; [by intros _ [-> _]|].
  intros [Hq Hf] (a & tr' & -> & Hr). constructor; [done|]. by eapply IH.
Qed.

Lemma run_with_runs (oracle : list turn -> forall q, answer q) {A} (m : prog A) (tr : list turn) :
  exists new, (run_with oracle tr m).1 = tr ++ new /\ runs m new (run_with oracle tr m).2.
Proof.
  revert tr. induction m as [a|q f IH]; intros tr; cbn; [by exists []; rewrite app_nil_r|].
  destruct (IH (oracle tr q) (tr ++ [Turn q (oracle tr q)])) as (new & -> & Hr).
  exists (Turn q (oracle tr q) :: new). rewrite <- app_assoc. eauto.
Qed.

(** ** Consent *)

(** The user said yes. *)
Definition agreed (e : turn) : bool :=
  match e with
  | Turn q a =>
      match q return answer q -> bool with
      | QConfirm _ => fun a => match a with Ok line => confirmed line | Err _ => false end
      | QConfirmOrCtrlC _ => fun a => match a with Some (Ok line) => confirmed line | _ => false end
      | _ => fun _ => false
      end a
  end.

(** A plan found targets that are there. *)
Definition found_existing (e : turn) : bool :=
  match e with
  | Turn q a =>
      let existing (plan : AppResult FileOperationPlan) :=
        match plan with Ok plan => existsb (fun c => bool_decide (fc_kind c = DestinationExists)) (fp_conflicts plan) | Err _ => false end in
      match q return answer q -> bool with
      | QPlanDownload _ _ _ _ | QPlanUpload _ _ _ _ => existing
      | _ => fun _ => false
      end a
  end.

(** What is not to be done without asking, after what happened so far. *)
Definition needs_consent (before : list turn) (q : question) : bool :=
  match q with
  | QDelete _ _ _ | QDeleteClipboard _ | QClearClipboards | QStartSync _ | QRemoveTrust _ | QResetTrust _ _ => true
  | QBatchDownload _ _ _ | QBatchUpload _ _ _ => existsb found_existing before
  | _ => false
  end.

(** What can put new content in the place of files that no plan named: a thumbnail is written
    over whatever is there, a transfer with [--overwrite] goes over files inside directories. *)
Definition writes_over (q : question) : bool :=
  match q with
  | QWrite _ _ _ => true
  | QBatchDownload _ _ overwrite | QBatchUpload _ _ overwrite => overwrite
  | _ => false
  end.

(** The commands that may: [media thumbnail], and transfers given [--overwrite]. *)
Definition may_overwrite (c : Command) : bool :=
  match c with
  | Media (MediaThumbnail _ _) => true
  | FsOf (FsPull _ _ _ overwrite dry_run) | FsOf (FsPush _ _ _ overwrite dry_run) => overwrite && negb dry_run
  | _ => false
  end.

(** [--yes]; [sync run] and [sync watch] have their own. *)
Definition yes_of (yes : bool) (c : Command) : bool :=
  match c with SyncOf (SyncRunCommand _ _ y) | SyncOf (SyncWatchCommand _ _ y) => y | _ => yes end.

Definition consent (yes : bool) (format : OutputFormat) (terminal : bool) (tr : list turn) : Prop :=
  yes = true \/ (format = Human /\ terminal = true /\ existsb agreed tr = true).

(** Questions that never need it, and find no plan. *)
Definition harmless (q : question) : Prop :=
  match q with
  | QDelete _ _ _ | QDeleteClipboard _ | QClearClipboards | QStartSync _ | QBatchDownload _ _ _ | QBatchUpload _ _ _
  | QRemoveTrust _ | QResetTrust _ _ | QPlanDownload _ _ _ _ | QPlanUpload _ _ _ _ => False
  | _ => True
  end.

(** Commands are built of questions, results and sequences. *)
Ltac asks := repeat first
  [ progress intros
  | apply asks_only_bind
  | progress cbn [asks_only mret prog_mret of_app ends ask answer]
  | match goal with
    | |- _ /\ _ => split
    | |- harmless _ => exact I
    | |- True => exact I
    | |- asks_only _ (match ?x with _ => _ end) => destruct x
    | |- asks_only _ (if ?x then _ else _) => destruct x
    end ].

Lemma consent_app (yes : bool) (format : OutputFormat) (terminal : bool) (tr new : list turn) :
  consent yes format terminal tr -> consent yes format terminal (tr ++ new).
Proof. intros [?|(? & ? & Ha)]; [by left|]. right. split_and!; [done..|]. by rewrite existsb_app, Ha. Qed.

Section Consent.
Context (session_id : Z) (display message_of : PublicError -> message) (context : CommandContext) (yes : bool) (format : OutputFormat) (terminal : bool).

(** What is allowed by the time it is asked, with a [y] of its own for each command. *)
Definition consented (y : bool) (tr : list turn) (q : question) : Prop :=
  needs_consent tr q = true -> consent y format terminal tr.

Lemma harmless_consented (y : bool) (tr : list turn) (q : question) : harmless q -> consented y tr q.
Proof. unfold consented. by destruct q. Qed.

Lemma harmless_command (y : bool) {A} (m : prog A) (tr : list turn) :
  asks_only harmless m -> always (consented y) m tr (fun _ _ => True).
Proof.
  intros Hm. eapply always_mono; [by apply (asks_only_always _ harmless); [intros; by apply harmless_consented|]|done].
Qed.

Lemma confirmation_consents (action : message) (tr : list turn) :
  always (consented yes) (confirmation yes format terminal action) tr
    (fun tr' r => (exists new, tr' = tr ++ new /\ existsb found_existing new = false) /\ (r = Ok () -> consent yes format terminal tr')).
Proof.
  unfold confirmation, confirm. destruct yes eqn:Hyes; cbn.
  { split; [exists []; by rewrite app_nil_r|]. intros _. by left. }
  destruct (bool_decide (format = Human)) eqn:Hf; cbn; [|split; [exists []; by rewrite app_nil_r|done]].
  destruct terminal eqn:Ht; cbn; [|split; [exists []; by rewrite app_nil_r|done]].
  split; [by intros ?|]. intros [line|e]; cbn.
  - destruct (confirmed line) eqn:Hc; (split; [by eexists|]); [intros _|done].
    right. apply bool_decide_eq_true in Hf. split_and!; [done..|]. rewrite existsb_app. cbn. rewrite Hc. by rewrite orb_true_r.
  - split; [by eexists|done].
Qed.

Lemma confirmed_then (action : message) (q : question) {A} (k : answer q -> prog (Res A)) (tr : list turn) :
  (forall a, asks_only harmless (k a)) ->
  always (consented yes)
    (ask? _ := confirmation yes format terminal action in mbind (M := prog) k (ask q)) tr (fun _ _ => True).
Proof.
  intros Hk. apply always_bind. eapply always_mono; [apply confirmation_consents|].
  intros tr' [[]|e] _ [_ Hc]; [|done]. apply always_bind. cbn. split; [intros _; by apply Hc|]. intros a. by apply harmless_command.
Qed.
(** ** The commands on files *)

Lemma harmless_found (new : list turn) : Forall (fun e => harmless (ex_question e)) new -> existsb found_existing new = false.
Proof. induction 1 as [|[q a] new Hq _ IH]; [done|]. cbn. rewrite IH. by destruct q. Qed.

Lemma harmless_keeps (y : bool) {A} (m : prog A) (tr : list turn) :
  asks_only harmless m ->
  always (consented y) m tr (fun tr' _ => existsb found_existing tr = false -> existsb found_existing tr' = false).
Proof.
  intros Hm. eapply always_mono; [by apply (asks_only_always _ harmless); [intros; by apply harmless_consented|]|].
  intros tr' r _ (new & -> & Hnew) Htr. by rewrite existsb_app, Htr, (harmless_found new Hnew).
Qed.

Definition is_existing (c : FilePlanConflict) : bool := bool_decide (fc_kind c = DestinationExists).

Lemma pull_conflicts_existing (conflicts : list FilePlanConflict) (t t' : Translated) :
  pull_conflicts conflicts t = Ok t' -> tl_existing t + (if existsb is_existing conflicts then 1 else 0) <= tl_existing t'.
Proof.
  revert t. induction conflicts as [|c conflicts IH]; intros t; cbn [pull_conflicts existsb]; [intros [= ->]; lia|].
  unfold is_existing at 1. destruct (fc_kind c); cbn; try done; intros Hr%IH; case_bool_decide; destruct (existsb _ _); cbn in *; try done; lia.
Qed.

Lemma push_conflicts_existing (remote_path : string) (conflicts : list FilePlanConflict) (t t' : Translated) :
  push_conflicts remote_path conflicts t = Ok t' -> tl_existing t + (if existsb is_existing conflicts then 1 else 0) <= tl_existing t'.
Proof.
  revert t. induction conflicts as [|c conflicts IH]; intros t; cbn [push_conflicts existsb]; [intros [= ->]; lia|].
  unfold is_existing at 1. destruct (fc_kind c); cbn; try done; intros Hr%IH; case_bool_decide; destruct (existsb _ _); cbn in *; try done; lia.
Qed.

(** Existing targets are consented to, or there are none. *)
Lemma overwrite_check_consents (refusal : message -> Error) (key action : string) (t : Translated) (overwrite : bool) (tr : list turn) :
  (tl_existing t <= 0 -> existsb found_existing tr = false) ->
  always (consented yes) (overwrite_check yes format terminal refusal key action t overwrite) tr
    (fun tr' r => r = Ok () -> existsb found_existing tr' = true -> consent yes format terminal tr').
Proof.
  intros Hno. unfold overwrite_check. destruct (0 <? tl_existing t) eqn:Ht.
  - destruct overwrite; cbn; [|done]. eapply always_mono; [apply confirmation_consents|]. by intros tr' r _ [_ Hc] Hr _; apply Hc.
  - cbn. intros _ Hf. rewrite Hno in Hf by lia. done.
Qed.

Lemma dry_run_pull_harmless (trees : list TreeTransferDto) (counts : Z * Z * Z) : asks_only harmless (dry_run_pull display trees counts).
Proof. revert counts. induction trees as [|tree trees IH]; intros counts; cbn [dry_run_pull]; [done|]. asks; by try apply IH. Qed.

Lemma dry_run_push_harmless (trees : list TreeTransferDto) (counts : Z * Z * Z) : asks_only harmless (dry_run_push trees counts).
Proof. revert counts. induction trees as [|tree trees IH]; intros counts; cbn [dry_run_push]; [done|]. asks; by try apply IH. Qed.

Lemma batch_after_check (refusal : message -> Error) (key action : string) (t : Translated) (overwrite : bool)
    (q : question) {A} (k : answer q -> prog (Res A)) (tr : list turn) :
  (tl_existing t <= 0 -> existsb found_existing tr = false) ->
  (forall before, needs_consent before q = existsb found_existing before) -> (forall a, asks_only harmless (k a)) ->
  always (consented yes)
    (ask? _ := overwrite_check yes format terminal refusal key action t overwrite in mbind (M := prog) k (ask q)) tr (fun _ _ => True).
Proof.
  intros Hno Hq Hk. apply always_bind. eapply always_mono; [by apply overwrite_check_consents|].
  intros tr' [[]|e] _ Hc; [|done]. apply always_bind. cbn. split; [|intros a; by apply harmless_command].
  unfold consented. rewrite Hq. by apply Hc.
Qed.

Lemma of_app_bind {A B} (q : prog (AppResult A)) (k : Res A -> prog B) (tr : list turn) (y : bool) (Q : list turn -> B -> Prop) :
  always (consented y) (mbind (M := prog) (fun r => k (map_err (app_error display) r)) q) tr Q ->
  always (consented y) (mbind (M := prog) k (of_app display q)) tr Q.
Proof.
  unfold of_app. intros Ha. unfold mbind, prog_mbind in *. revert tr Ha.
  induction q as [a|q f IH]; intros tr; cbn; [done|]. intros [Hq Hf]. split; [done|]. intros a. by apply IH.
Qed.

Lemma fs_pull_consents (remote : list string) (local : option path) (recursive overwrite dry_run : bool) (tr : list turn) :
  existsb found_existing tr = false ->
  always (consented yes) (fs_pull display context yes format terminal remote local recursive overwrite dry_run) tr (fun _ _ => True).
Proof.
  intros Htr. unfold fs_pull. apply always_bind. eapply always_mono.
  { apply harmless_keeps. unfold pull_target_misparsed. destruct local, remote as [|? [|? ?]]; asks. }
  cbn beta. intros tr1 [] _ Htr1; [done|]. specialize (Htr1 Htr). case_match; [done|]. apply of_app_bind.
  cbn. split; [by intros ?|]. intros [plan|e]; [|done]. cbn. destruct (pull_conflicts _ _) as [t|e] eqn:Ht; [|done].
  destruct dry_run; [apply harmless_command; asks; apply dry_run_pull_harmless|].
  apply batch_after_check; [|done|asks]. apply pull_conflicts_existing in Ht. cbn in Ht. intros Hle.
  rewrite existsb_app, Htr1. cbn. by destruct (existsb is_existing (fp_conflicts plan)) eqn:Hx; [lia|rewrite orb_false_r; apply Hx].
Qed.

Lemma fs_push_consents (local : list path) (remote : string) (recursive overwrite dry_run : bool) (tr : list turn) :
  existsb found_existing tr = false ->
  always (consented yes) (fs_push display context yes format terminal local remote recursive overwrite dry_run) tr (fun _ _ => True).
Proof.
  intros Htr. unfold fs_push. apply of_app_bind. cbn. split; [by intros ?|]. intros [plan|e]; [|done]. cbn.
  destruct (push_conflicts _ _ _) as [t|e] eqn:Ht; [|done].
  destruct dry_run; [apply harmless_command; asks; apply dry_run_push_harmless|].
  apply batch_after_check; [|done|asks]. apply push_conflicts_existing in Ht. cbn in Ht. intros Hle.
  rewrite existsb_app, Htr. cbn. by destruct (existsb is_existing (fp_conflicts plan)) eqn:Hx; [lia|rewrite orb_false_r; apply Hx].
Qed.

Lemma rm_checks_harmless (recursive : bool) (paths : list string) : asks_only harmless (rm_checks display recursive paths).
Proof. induction paths as [|p paths IH]; cbn [rm_checks]; [done|]. asks; by try apply IH. Qed.

Lemma fs_rm_consents (paths : list string) (recursive trash : bool) (tr : list turn) :
  always (consented yes) (fs_rm display context yes format terminal paths recursive trash) tr (fun _ _ => True).
Proof.
  unfold fs_rm. apply always_bind. eapply always_mono; [apply harmless_command, rm_checks_harmless|].
  intros tr' [[]|e] _ _; [|done]. apply always_bind. eapply always_mono; [apply confirmation_consents|].
  intros tr2 [[]|e] _ [_ Hc]; [|done]. apply of_app_bind. cbn. split; [intros _; by apply Hc|]. by intros [?|?].
Qed.
(** ** The other commands *)

Lemma write_thumbnails_harmless (dir : path) (images : list ImageFileDto) (targets : list (string * ImageFileDto)) (index : Z)
    (outcomes : list ThumbnailOutcome) : asks_only harmless (write_thumbnails dir images targets index outcomes).
Proof.
  revert index outcomes. induction targets as [|[target request] targets IH]; intros index outcomes; cbn [write_thumbnails]; [done|].
  asks; by try apply IH.
Qed.

Lemma media_command_harmless (c : MediaCommand) : asks_only harmless (media_command display context c).
Proof. destruct c; cbn [media_command]; asks. apply write_thumbnails_harmless. Qed.

Lemma wait_sync_run_harmless (fuel : nat) (id : string) : asks_only harmless (wait_sync_run display fuel id).
Proof. induction fuel as [|fuel IH]; cbn [wait_sync_run]; [done|]. asks; by try apply IH. Qed.

Lemma sync_watch_harmless (fuel : nat) (id : string) : asks_only harmless (sync_watch display format fuel id).
Proof. induction fuel as [|fuel IH]; cbn [sync_watch]; [done|]. asks; by try apply IH. Qed.

Lemma confirm_interruptible_consents (action : message) (y : bool) (tr : list turn) :
  always (consented y) (confirm_interruptible format terminal action y) tr (fun tr' r => r = Ok () -> consent y format terminal tr').
Proof.
  unfold confirm_interruptible. destruct y eqn:Hyes; cbn; [by left|].
  destruct (bool_decide (format = Human)) eqn:Hf; cbn; [|done]. destruct terminal eqn:Ht; cbn; [|done].
  split; [by intros ?|]. intros [[line|e]|]; cbn; try done.
  destruct (confirmed line) eqn:Hc; [|done]. intros _. right. apply bool_decide_eq_true in Hf. split_and!; [done..|].
  rewrite existsb_app. cbn. rewrite Hc. by rewrite orb_true_r.
Qed.

(** A start of a synchronisation after its confirmation. *)
Lemma start_after_confirmation (y : bool) (profile : SyncProfileDto) {A} (k : string -> prog (Executed A)) (tr : list turn) :
  (forall id, asks_only harmless (k id)) ->
  always (consented y)
    (exec? _ := ends (confirm_interruptible format terminal (Msg "sync.confirm_run" []) y) in
     exec? id := ends (of_app display (ask (QStartSync profile))) in k id) tr (fun _ _ => True).
Proof.
  intros Hk. unfold ends at 1. do 2 apply always_bind. eapply always_mono; [apply confirm_interruptible_consents|].
  intros tr' [[]|e] _ Hc; [|done]. cbn. split; [intros _; by apply Hc|].
  intros [id|e]; [|done]. apply (harmless_command y (k id)), Hk.
Qed.

Lemma sync_command_consents (fuel : nat) (c : SyncCommand) (tr : list turn) :
  always (consented (yes_of yes (SyncOf c))) (sync_command session_id display context format terminal fuel c) tr (fun _ _ => True).
Proof.
  unfold sync_command. apply always_bind. eapply always_mono; [apply harmless_command; asks|].
  intros tr1 [[snapshot|e]| |] _ _; try done. cbn [mbind prog_mbind prog_bind]. destruct (sync_device_uuid_from_info _) as [id|e]; [|done].
  destruct c as [root dir|root dir y|root dir y|]; cbn [yes_of].
  - apply harmless_command. destruct (required_output_dir _ _); asks.
  - cbn [mbind prog_mbind prog_bind]. destruct (required_output_dir _ _); [|done]. apply start_after_confirmation. asks. apply wait_sync_run_harmless.
  - cbn [mbind prog_mbind prog_bind]. destruct (required_output_dir _ _); [|done]. apply start_after_confirmation.
    asks; [apply wait_sync_run_harmless|apply sync_watch_harmless].
  - apply harmless_command. asks.
Qed.

Lemma clipboard_command_consents (c : ClipboardCommand) (tr : list turn) :
  always (consented yes) (clipboard_command display context yes format terminal c) tr (fun _ _ => True).
Proof.
  destruct c as [|text stdin|timestamp|]; cbn [clipboard_command]; [apply harmless_command; asks..| |].
  all: apply always_bind; (eapply always_mono; [apply confirmation_consents|]); intros tr2 [[]|e] _ [_ Hc]; [|done];
    apply of_app_bind; cbn; split; [intros _; by apply Hc|]; by intros [?|?].
Qed.

Lemma fs_command_consents (c : FsCommand) :
  always (consented yes) (fs_command display context yes format terminal c) [] (fun _ _ => True).
Proof.
  destruct c; cbn [fs_command]; try (apply harmless_command; cbv [fs_ls fs_stat stat_back fs_count fs_exists fs_mkdir fs_mv]; asks; done).
  - apply fs_rm_consents.
  - by apply fs_pull_consents.
  - by apply fs_push_consents.
Qed.

Lemma execute_connected_consents (fuel : nat) (c : Command) :
  always (consented (yes_of yes c)) (execute_connected session_id display message_of context yes format terminal fuel c) [] (fun _ _ => True).
Proof.
  assert (Hafter : forall y (m : prog (Res Outcome)) tr, always (consented y) m tr (fun _ _ => True) ->
    always (consented y) (with_device display m) tr (fun _ _ => True)).
  { intros y m tr Hm. unfold with_device, ends at 1. do 2 apply always_bind. eapply always_mono; [done|].
    intros tr' [o|e] _ _; [|done]. apply harmless_command. asks. }
  assert (Hbare : forall y (m : prog (Executed Outcome)) tr, always (consented y) m tr (fun _ _ => True) ->
    always (consented y) (bare m) tr (fun _ _ => True)).
  { intros y m tr Hm. unfold bare. apply always_bind. eapply always_mono; [done|]. by intros tr' [[o|e]| |] _ _. }
  destruct c as [[]|c|c|c|c|c| | |paths]; cbn [execute_connected yes_of]; try done.
  - apply Hbare, harmless_command. unfold device_list. asks.
  - apply Hafter, harmless_command. asks.
  - apply Hafter, harmless_command. asks.
  - unfold ends at 1. do 2 apply always_bind. eapply always_mono; [apply fs_command_consents|]. intros tr [o|e] _ _; [|done].
    change (always (consented yes) (if is_dry_run o then Return (Done (Ok (o, None))) else with_device display (Return (Ok o))) tr
              (fun _ _ => True)).
    destruct (is_dry_run o); [done|]. by apply Hafter.
  - apply Hafter, clipboard_command_consents.
  - apply Hbare, harmless_command. asks. apply media_command_harmless.
  - pose proof (Hbare _ _ _ (sync_command_consents fuel c [])) as Hs.
    destruct c; try destruct (cc_in_shell context); [apply Hs..|done|apply Hs|apply Hs|apply Hs].
Qed.
End Consent.

(** Commands on trust records run without a session. *)
Lemma trust_command_consents (display : PublicError -> message) (terminal : bool) (cli : Cli) (c : TrustCommand) :
  always (consented (cl_output cli) terminal (cl_yes cli)) (trust_command display terminal cli c) [] (fun _ _ => True).
Proof.
  destruct c as [|device_uuid|device_uuid]; cbn [trust_command]; [apply harmless_command; asks| |destruct (ca_wifi _); [|done]].
  all: apply always_bind; (eapply always_mono; [apply confirmation_consents|]); intros tr [[]|e] _ [_ Hc]; [|done];
    apply of_app_bind; cbn; split; [intros _; by apply Hc|]; by intros [?|?].
Qed.

(** ** What is written over *)

Definition writes_nothing (q : question) : Prop := writes_over q = false.

Ltac keeps := repeat first
  [ progress intros
  | apply asks_only_bind
  | progress cbn [asks_only mret prog_mret of_app ends ask answer]
  | match goal with
    | |- _ /\ _ => split
    | |- writes_nothing _ => reflexivity
    | |- True => exact I
    | |- asks_only _ (match ?x with _ => _ end) => destruct x
    | |- asks_only _ (if ?x then _ else _) => destruct x
    end ].

Lemma confirmation_writes_nothing (yes : bool) (format : OutputFormat) (terminal : bool) (action : message) :
  asks_only writes_nothing (confirmation yes format terminal action).
Proof. unfold confirmation. keeps. Qed.

Lemma wait_sync_run_writes_nothing (display : PublicError -> message) (fuel : nat) (id : string) :
  asks_only writes_nothing (wait_sync_run display fuel id).
Proof. induction fuel as [|fuel IH]; cbn [wait_sync_run]; [done|]. keeps; by try apply IH. Qed.

Lemma sync_watch_writes_nothing (display : PublicError -> message) (format : OutputFormat) (fuel : nat) (id : string) :
  asks_only writes_nothing (sync_watch display format fuel id).
Proof. induction fuel as [|fuel IH]; cbn [sync_watch]; [done|]. keeps; by try apply IH. Qed.

Lemma rm_checks_writes_nothing (display : PublicError -> message) (recursive : bool) (paths : list string) :
  asks_only writes_nothing (rm_checks display recursive paths).
Proof. induction paths as [|p paths IH]; cbn [rm_checks]; [done|]. keeps; by try apply IH. Qed.

Lemma dry_run_pull_writes_nothing (display : PublicError -> message) (trees : list TreeTransferDto) (counts : Z * Z * Z) :
  asks_only writes_nothing (dry_run_pull display trees counts).
Proof. revert counts. induction trees as [|tree trees IH]; intros counts; cbn [dry_run_pull]; [done|]. keeps; by try apply IH. Qed.

Lemma dry_run_push_writes_nothing (trees : list TreeTransferDto) (counts : Z * Z * Z) : asks_only writes_nothing (dry_run_push trees counts).
Proof. revert counts. induction trees as [|tree trees IH]; intros counts; cbn [dry_run_push]; [done|]. keeps; by try apply IH. Qed.

Create HintDb writes.
#[local] Hint Resolve confirmation_writes_nothing wait_sync_run_writes_nothing sync_watch_writes_nothing rm_checks_writes_nothing
  dry_run_pull_writes_nothing dry_run_push_writes_nothing : writes.

Lemma execute_connected_writes (session_id : Z) (display message_of : PublicError -> message) (context : CommandContext)
    (yes : bool) (format : OutputFormat) (terminal : bool) (fuel : nat) (c : Command) :
  asks_only (fun q => writes_over q = true -> may_overwrite c = true)
    (execute_connected session_id display message_of context yes format terminal fuel c).
Proof.
  destruct (may_overwrite c) eqn:Hc.
  { generalize (execute_connected session_id display message_of context yes format terminal fuel c). intros m.
    induction m as [a|q k IH]; cbn; [done|]. split; [done|apply IH]. }
  apply (asks_only_mono writes_nothing); [by unfold writes_nothing; intros q ->|].
  destruct c as [[]|c|c|c|[]|c| | |paths]; cbn [execute_connected media_command]; try discriminate Hc;
    unfold bare, with_device, device_list, overwrite_check; try (keeps; done).
  - destruct c as [| | | | | | |remote local recursive [] []|local remote recursive [] []]; try discriminate Hc;
      cbn [fs_command]; unfold fs_ls, fs_stat, stat_back, fs_count, fs_exists, fs_mkdir, fs_mv, fs_rm, fs_pull, fs_push, pull_target_misparsed,
        overwrite_check, stat_back; keeps; auto with writes.
  - destruct c; cbn [clipboard_command]; keeps; auto with writes.
  - destruct c; try destruct (cc_in_shell context); unfold sync_command, confirm_interruptible, bare; keeps; auto with writes.
Qed.

(** C1: whatever the runtime, the disk and the user answer, no command (run alone, in a batch or in the
    shell, which all run it by the same function) deletes a file or a clipboard entry, clears the
    clipboards, starts a synchronisation, forgets or resets a trusted phone, or starts a transfer whose
    plan found targets that exist, unless the user said so: with [--yes], or with a line on a terminal
    that confirms it and comes before.  Nothing else puts new content over files but two kinds of
    command, which do so without asking: [media thumbnail] writes its files over what has their names,
    and a transfer the user gave [--overwrite] to goes over what is inside the directories it
    transfers, where the plan does not look. *)
Theorem nothing_destroyed_unasked (display message_of : PublicError -> message) (format : OutputFormat) (terminal : bool) :
  (forall (session_id : Z) (context : CommandContext) (yes : bool) (fuel : nat) (c : Command) (before after : list turn) (e : turn) r,
     runs (execute_connected session_id display message_of context yes format terminal fuel c) (before ++ e :: after) r ->
     (needs_consent before (ex_question e) = true -> consent (yes_of yes c) format terminal before) /\
     (writes_over (ex_question e) = true -> may_overwrite c = true)) /\
  (forall (cli : Cli) (c : TrustCommand) (before after : list turn) (e : turn) r,
     runs (trust_command display terminal cli c) (before ++ e :: after) r ->
     needs_consent before (ex_question e) = true -> consent (cl_yes cli) (cl_output cli) terminal before).
Proof.
  split.
  - intros session_id context yes fuel c before after e r Hr. split.
    + pose proof (execute_connected_consents session_id display message_of context yes format terminal fuel c) as Ha.
      destruct (always_runs _ _ _ _ _ _ Ha Hr) as [_ Hall]. by apply (Hall before e after).
    + pose proof (asks_only_runs _ _ _ _ (execute_connected_writes session_id display message_of context yes format terminal fuel c) Hr) as Hall.
      apply Forall_app in Hall as [_ Hall]. by apply Forall_cons in Hall as [He _].
  - intros cli c before after e r Hr. pose proof (trust_command_consents display terminal cli c) as Ha.
    destruct (always_runs _ _ _ _ _ _ Ha Hr) as [_ Hall]. by apply (Hall before e after).
Qed.

Module ConsentSamples.

Definition no_display (e : PublicError) : message := Msg "" [].
Definition at_root : CommandContext := mkContext "/" "/home" false.
Definition some_file : FileEntryDto := mkFileEntry "/a" 1 None None false None None None.
Definition gone : PublicError := public_new SessionClosed "".

(** [fs rm a], which is found, and the user answers y. *)
Definition before_delete : list turn :=
  [Turn (QStat "/a") (Ok (Some some_file)); Turn (QConfirm (Msg "DeleteAction" [pretty (zlen ["/a"])])) (Ok "y")].
Definition delete_turn : turn := Turn (QDelete ["/a"] false false) (Ok []).
End ConsentSamples.

Lemma nothing_destroyed_unasked_witness :
  runs (execute_connected 1 ConsentSamples.no_display ConsentSamples.no_display ConsentSamples.at_root false Human true 0 (FsOf (FsRm ["a"] false false)))
    (ConsentSamples.before_delete ++ ConsentSamples.delete_turn :: [Turn QSnapshot (Err ConsentSamples.gone)])
    (Done (Err (ETransport (Msg "" [])))) /\
  consent false Human true ConsentSamples.before_delete.
Proof.
  assert (runs (execute_connected 1 ConsentSamples.no_display ConsentSamples.no_display ConsentSamples.at_root false Human true 0 (FsOf (FsRm ["a"] false false)))
    (ConsentSamples.before_delete ++ ConsentSamples.delete_turn :: [Turn QSnapshot (Err ConsentSamples.gone)])
    (Done (Err (ETransport (Msg "" []))))) as Hr.
  { eexists _, _. split; [reflexivity|]. eexists _, _. split; [reflexivity|]. eexists _, _. split; [reflexivity|].
    eexists _, _. split; [reflexivity|]. split; reflexivity. }
  split; [exact Hr|].
  exact (proj1 (proj1 (nothing_destroyed_unasked _ _ Human true) 1 _ false 0%nat (FsOf (FsRm ["a"] false false)) _ _ _ _ Hr) eq_refl).
Defined.

(** ** Removing *)

(** The file a [QStat p] found. *)
Definition stat_found (p : string) (e : turn) : option FileEntryDto :=
  match e with
  | Turn q a =>
      match q return answer q -> option FileEntryDto with
      | QStat p' => fun a => match a with Ok found => if bool_decide (p = p') then found else None | Err _ => None end
      | _ => fun _ => None
      end a
  end.

(** Found, and a directory only if [recursive]. *)
Definition removable (recursive : bool) (tr : list turn) (p : string) : Prop :=
  exists e file, e ∈ tr /\ stat_found p e = Some file /\ (fd_is_directory file = true -> recursive = true).

Lemma removable_app (recursive : bool) (tr new : list turn) (p : string) : removable recursive tr p -> removable recursive (tr ++ new) p.
Proof. intros (e & file & He & Hs). exists e, file. split; [|done]. apply elem_of_app. by left. Qed.

Section Removing.
Context (display : PublicError -> message) (context : CommandContext) (yes : bool) (format : OutputFormat) (terminal : bool).

(** Once a path is asked to be deleted, all of them were found. *)
Definition found_first (recursive trash : bool) (paths : list string) (tr : list turn) (q : question) : Prop :=
  match q with
  | QDelete asked t s => asked = paths /\ t = trash /\ s = false /\ Forall (removable recursive tr) paths
  | _ => True
  end.

Lemma rm_checks_found (recursive trash : bool) (all paths : list string) (tr : list turn) :
  always (found_first recursive trash all) (rm_checks display recursive paths) tr
    (fun tr' r => (exists new, tr' = tr ++ new) /\ (r = Ok () -> Forall (removable recursive tr') paths)).
Proof.
  revert tr. induction paths as [|p paths IH]; intros tr; cbn [rm_checks].
  { cbn. split; [exists []; by rewrite app_nil_r|]. by constructor. }
  cbn. split; [done|]. intros [[file|]|e]; cbn; try by split; [eexists|].
  destruct (fd_is_directory file && negb recursive) eqn:Hdir; [by split; [eexists|]|].
  eapply always_mono; [apply IH|]. intros tr' r _ [[new ->] Hok]. split; [eexists; by rewrite <- app_assoc|].
  intros Hr. constructor; [|by apply Hok]. apply removable_app.
  exists (Turn (QStat p) (Ok (Some file))), file. split_and!; [apply elem_of_app; right; by left|cbn; by rewrite bool_decide_true|].
  destruct (fd_is_directory file), recursive; by cbn in Hdir.
Qed.

(** The deletion is of the resolved paths, each found before it, directories only with [-r]; the
    answer to it is the result. *)
Theorem rm_finds_first (paths : list string) (recursive trash : bool) (before after : list turn) (asked : list string) (t s : bool)
    (a : answer (QDelete asked t s)) (r : Res Outcome) :
  runs (fs_rm display context yes format terminal paths recursive trash) (before ++ Turn (QDelete asked t s) a :: after) r ->
  asked = resolve_remote (cc_remote_cwd context) <$> paths /\ t = trash /\ s = false /\ Forall (removable recursive before) asked.
Proof.
  intros Hr. set (all := resolve_remote (cc_remote_cwd context) <$> paths).
  assert (Ha : always (found_first recursive trash all) (fs_rm display context yes format terminal paths recursive trash) [] (fun _ _ => True)).
  { unfold fs_rm. fold all. apply always_bind. eapply always_mono; [apply rm_checks_found|]. intros tr [[]|e] _ [_ Hok]; [|done].
    specialize (Hok eq_refl). unfold confirmation. case_match; [|cbn; split; [done|intros line]].
    - destruct (confirm _ _ _ _ _) as [[]|]; [|done]. cbn. split; [done|]. by intros [?|?].
    - destruct (confirm _ _ _ _ _) as [[]|]; [|done]. cbn. split; [|by intros [?|?]]. split_and!; [done..|].
      eapply Forall_impl; [exact Hok|]. intros p Hp. by apply removable_app. }
  destruct (always_runs _ _ _ _ _ _ Ha Hr) as [_ Hall]. destruct (Hall before _ after eq_refl) as (-> & -> & -> & Hf). by cbn in Hf.
Qed.
End Removing.

(** ** Dry runs *)

Definition looks (q : question) : Prop :=
  match q with
  | QLocalExists _ | QPlanDownload _ _ _ _ | QPlanUpload _ _ _ _ | QList _ _ | QLocalTree _ => True
  | _ => False
  end.

Ltac asks_with H := repeat first
  [ progress intros
  | apply asks_only_bind
  | apply H
  | progress cbn [asks_only mret prog_mret of_app ends ask answer]
  | match goal with
    | |- _ /\ _ => split
    | |- looks _ => exact I
    | |- True => exact I
    | |- asks_only _ (match ?x with _ => _ end) => destruct x
    | |- asks_only _ (if ?x then _ else _) => destruct x
    end ].

Lemma dry_run_pull_looks (display : PublicError -> message) (trees : list TreeTransferDto) (counts : Z * Z * Z) :
  asks_only looks (dry_run_pull display trees counts).
Proof. revert counts. induction trees as [|tree trees IH]; intros counts; cbn [dry_run_pull]; [done|]. asks_with IH. Qed.

Lemma dry_run_push_looks (trees : list TreeTransferDto) (counts : Z * Z * Z) : asks_only looks (dry_run_push trees counts).
Proof. revert counts. induction trees as [|tree trees IH]; intros counts; cbn [dry_run_push]; [done|]. asks_with IH. Qed.

(** A dry run asks for plans and listings only: nothing is transferred, removed or confirmed. *)
Theorem dry_run_only_looks (display : PublicError -> message) (context : CommandContext) (yes : bool)
    (format : OutputFormat) (terminal recursive overwrite : bool) :
  (forall remote local tr r, runs (fs_pull display context yes format terminal remote local recursive overwrite true) tr r ->
     Forall (fun e => looks (ex_question e)) tr) /\
  (forall local remote tr r, runs (fs_push display context yes format terminal local remote recursive overwrite true) tr r ->
     Forall (fun e => looks (ex_question e)) tr).
Proof.
  split; intros remote local tr r; apply asks_only_runs.
  - unfold fs_pull, pull_target_misparsed. asks_with dry_run_pull_looks.
  - unfold fs_push. asks_with dry_run_push_looks.
Qed.

(** ** Batches *)

Lemma runs_exec {A B} (m : prog (Executed A)) (k : A -> prog (Executed B)) (tr : list turn) (r : Res B) :
  runs (exec? x := m in k x) tr (Done r) ->
  (exists e, r = Err e /\ runs m tr (Done (Err e))) \/
  (exists tr1 a tr2, tr = tr1 ++ tr2 /\ runs m tr1 (Done (Ok a)) /\ runs (k a) tr2 (Done r)).
Proof.
  rewrite prog_runs_bind. intros (tr1 & [[a|e]| |] & tr2 & -> & Hm & Hk); [right; by exists tr1, a, tr2| |by destruct Hk..].
  destruct Hk as [-> [= ->]]. left. exists e. by rewrite app_nil_r.
Qed.

Lemma runs_exec_ok {A B} (m : prog (Executed A)) (k : A -> prog (Executed B)) (tr1 tr2 : list turn) (a : A) (r : Executed B) :
  runs m tr1 (Done (Ok a)) -> runs (k a) tr2 r -> runs (exec? x := m in k x) (tr1 ++ tr2) r.
Proof. intros Hm Hk. rewrite prog_runs_bind. by exists tr1, (Done (Ok a)), tr2. Qed.

Section Batches.
Context (display message_of : PublicError -> message) (terminal : bool)
  (split : string -> result string (list string)) (parse : list string -> Parsed) (fuel : nat) (cli : Cli).

Local Abbreviation line := (batch_line display message_of terminal split parse).
Local Abbreviation all_lines := (batch_lines display message_of terminal split parse).
Local Abbreviation batch := (run_batch display message_of terminal split parse cli fuel).

(** A session whose lines all went well, to the end of the input or to [exit]. *)
Inductive clean (session_id : Z) : CommandContext -> list (result string string) -> list turn -> Prop :=
  | clean_end context : clean session_id context [] []
  | clean_exit context l lines tr :
      runs (line session_id (cl_output cli) fuel context l) tr (LineStop None) -> clean session_id context (Ok l :: lines) tr
  | clean_next context l lines tr context' tr' :
      runs (line session_id (cl_output cli) fuel context l) tr (LineNext context' false) ->
      clean session_id context' lines tr' -> clean session_id context (Ok l :: lines) (tr ++ tr').

Lemma batch_lines_counts (session_id : Z) (context : CommandContext) (lines : list (result string string)) (failed : Z) (tr : list turn)
    (fatal : option Error) (failed' : Z) :
  0 <= failed -> failed + zlen lines < 2 ^ 32 ->
  runs (all_lines session_id (cl_output cli) fuel context lines failed) tr (Done (Ok (fatal, failed'))) -> failed <= failed'.
Proof.
  revert context failed tr. induction lines as [|[l|e] lines IH]; intros context failed tr Hf Hz; cbn [batch_lines].
  - intros [_ [= _ ->]]. lia.
  - rewrite prog_runs_bind. intros (tr1 & [context' more|?| |] & tr2 & -> & Hl & Hk); [|by destruct Hk as [_ [= _ ->]]|by destruct Hk..].
    rewrite length_cons, Nat2Z.inj_succ in Hz.
    destruct more; [rewrite Z.mod_small in Hk by lia|]; apply IH in Hk; lia.
  - intros [_ [= _ ->]]. lia.
Qed.

Lemma batch_lines_clean (session_id : Z) (context : CommandContext) (lines : list (result string string)) (tr : list turn) :
  zlen lines < 2 ^ 32 ->
  runs (all_lines session_id (cl_output cli) fuel context lines 0) tr (Done (Ok (None, 0))) <-> clean session_id context lines tr.
Proof.
  revert context tr. induction lines as [|[l|e] lines IH]; intros context tr Hz; cbn [batch_lines].
  - split; [by intros [-> _]; constructor|]. by inversion 1.
  - assert (zlen lines < 2 ^ 32) by (cbn [length] in Hz; lia). rewrite prog_runs_bind. split.
    + intros (tr1 & [context' more|fatal| |] & tr2 & -> & Hl & Hk); [| |by destruct Hk..].
      * destruct more; [|econstructor; [done|]; by apply IH].
        change ((0 + 1) mod 2 ^ 32) with 1 in Hk. apply batch_lines_counts in Hk; [lia|lia|cbn [length] in *; lia].
      * destruct Hk as [-> [= <-]]. rewrite app_nil_r. by constructor.
    + inversion 1 as [|? ? ? ? Hl|? ? ? tr1 context' tr2 Hl Hc]; subst.
      * exists tr, (LineStop None), []. by rewrite app_nil_r.
      * exists tr1, (LineNext context' false), tr2. split_and!; [done..|]. by apply IH.
  - split; [by intros [_ [=]]|]. by inversion 1.
Qed.

(** A batch succeeds exactly when its session opened, every line went well, and the session closed:
    then nothing was asked after the request to close it. *)
Theorem batch_succeeds (lines : list (result string string)) (tr : list turn) :
  zlen lines < 2 ^ 32 ->
  runs (batch lines) tr (Done (Ok ())) <->
  exists tr1 session_id context tr2 a,
    tr = tr1 ++ tr2 ++ [Turn (QDisconnect session_id) (Ok a)] /\
    runs (open_session display cli true) tr1 (Done (Ok (session_id, context))) /\
    clean session_id context lines tr2.
Proof.
  intros Hz. split.
  - intros [(e & [=] & _)|(tr1 & [session_id context] & tr' & -> & Hopen & Hr)]%runs_exec.
    apply runs_exec in Hr as [(e & [=] & _)|(tr2 & [fatal failed] & tr3 & -> & Hl & Hr)]. cbn [fst snd] in *.
    unfold close_session, of_app in Hr. cbn in Hr. destruct Hr as (a & tr' & -> & -> & Hr).
    destruct fatal as [e|]; [done|]. destruct (0 <? failed) eqn:Hf; [done|]. destruct a as [a|]; [|done].
    exists tr1, session_id, context, tr2, a. split_and!; [done..|]. apply batch_lines_clean; [done|].
    apply batch_lines_counts in Hl as Hle; [|lia..]. by assert (failed = 0) as -> by lia.
  - intros (tr1 & session_id & context & tr2 & a & -> & Hopen & Hc). unfold run_batch. eapply runs_exec_ok; [done|]. cbn [fst snd].
    eapply runs_exec_ok; [by apply batch_lines_clean|]. unfold close_session, of_app. cbn. by exists (Ok a), []; destruct a.
Qed.

(** However it ends, a batch that opened its session closes it last; a panic is no end. *)
Theorem batch_closes (lines : list (result string string)) (tr : list turn) (r : Res ()) :
  runs (batch lines) tr (Done r) ->
  (exists e, r = Err e /\ runs (open_session display cli true) tr (Done (Err e))) \/
  (exists session_id context tr1 tr2 a,
     tr = tr1 ++ tr2 ++ [Turn (QDisconnect session_id) a] /\
     runs (open_session display cli true) tr1 (Done (Ok (session_id, context)))).
Proof.
  intros [?|(tr1 & [session_id context] & tr' & -> & Hopen & Hr)]%runs_exec; [by left|]. right.
  apply runs_exec in Hr as [(e & -> & Hr)|(tr2 & [fatal failed] & tr3 & -> & Hl & Hr)].
  - exfalso. clear -Hr. cbn [fst snd] in Hr. revert Hr. generalize 0 at 1. revert context tr'.
    induction lines as [|[l|e'] lines IH]; intros context tr n; cbn [batch_lines]; [by intros [_ ?]| |by intros [_ ?]].
    rewrite prog_runs_bind. intros (tr1 & [context' more|fatal| |] & tr2 & -> & Hl & Hk); [by eapply IH|by destruct Hk..].
  - cbn [fst snd] in *. unfold close_session, of_app in Hr. cbn in Hr. destruct Hr as (a & tr' & -> & -> & Hr).
    by exists session_id, context, tr1, tr2, a.
Qed.

(** A [cd] that fails, even for a lost connection, is no failure of the batch. *)
Lemma cd_failure_uncounted (session_id : Z) (context : CommandContext) (l target : string) (e : PublicError) :
  trim l <> "" -> split (trim l) = Ok ["cd"; target] ->
  runs (line session_id (cl_output cli) fuel context l)
    [Turn (QStat (resolve_remote (cc_remote_cwd context) target)) (Err e)] (LineNext context false).
Proof.
  intros Hl Hs. unfold batch_line. rewrite bool_decide_false by done. rewrite Hs. cbn. by exists (Err e), [].
Qed.

(** A [trust] command or a [device discover] in a batch panics, the session still open. *)
Lemma trust_in_batch_panics (session_id : Z) (context : CommandContext) (l : string) (words : list string) (yes : bool) (c : Command) :
  trim l <> "" -> split (trim l) = Ok words -> shell_builtin words context = None ->
  parse (shell_command_argv words) = ParsedAs yes c ->
  (exists t, c = Trust t) \/ (exists t, c = Device (DeviceDiscover t)) ->
  runs (line session_id (cl_output cli) fuel context l) [] LinePanic.
Proof.
  intros Hl Hs Hb Hp Hc. unfold batch_line. rewrite bool_decide_false by done. rewrite Hs, Hb, Hp.
  by destruct Hc as [[t ->]|[t ->]].
Qed.
End Batches.

(** ** Watches *)

(** The phone accepted to watch [p]. *)
Definition registered (p : string) (e : turn) : bool :=
  match e with
  | Turn q a =>
      match q return answer q -> bool with
      | QMonitor p' on => fun a => on && bool_decide (p = p') && match a with Ok _ => true | Err _ => false end
      | _ => fun _ => false
      end a
  end.

Definition asked (q : question) (tr : list turn) : Prop := q ∈ ex_question <$> tr.

Lemma asked_app (q : question) (tr1 tr2 : list turn) : asked q (tr1 ++ tr2) <-> asked q tr1 \/ asked q tr2.
Proof. unfold asked. rewrite fmap_app. apply elem_of_app. Qed.

Lemma asked_cons (q : question) (e : turn) (tr : list turn) : asked q (e :: tr) <-> q = ex_question e \/ asked q tr.
Proof. unfold asked. rewrite fmap_cons. apply elem_of_cons. Qed.

Lemma monitor_all_asks (paths : list string) (on : bool) (tr : list turn) (r : ()) :
  runs (monitor_all paths on) tr r -> ex_question <$> tr = (fun p => QMonitor p on) <$> paths.
Proof.
  revert tr. induction paths as [|p paths IH]; intros tr; cbn [monitor_all]; [by intros [-> _]|].
  intros (a & tr' & -> & Hr). cbn. f_equal. by apply IH.
Qed.

Lemma not_registered (p : string) (P : question -> Prop) (tr : list turn) :
  ~ P (QMonitor p true) -> Forall (fun e => P (ex_question e)) tr -> existsb (registered p) tr = false.
Proof.
  intros Hp. induction 1 as [|[q a] tr Hq _ IH]; [done|]. cbn. rewrite IH, orb_false_r.
  destruct q; try done. cbn in *. match goal with |- (?on && _) && _ = _ => destruct on end; [|done].
  case_bool_decide; [by subst|done].
Qed.

Section Watches.
Context (display message_of : PublicError -> message).

Lemma register_monitors_undone (paths before : list string) (tr : list turn) (e : Error) (p : string) :
  runs (register_monitors display before paths) tr (Err e) ->
  p ∈ before \/ existsb (registered p) tr = true -> asked (QMonitor p false) tr.
Proof.
  revert before tr. induction paths as [|p' paths IH]; intros before tr; cbn [register_monitors]; [by intros [_ ?]|].
  intros ([[]|e'] & tr' & -> & Hr).
  - intros Hp. apply asked_cons. right. eapply IH; [done|]. destruct Hp as [Hp|Hp]; [left; apply elem_of_app; by left|].
    cbn in Hp. destruct (bool_decide (p = p')) eqn:Heq; [|by right].
    apply bool_decide_eq_true in Heq as ->. left. apply elem_of_app. right. by left.
  - change (runs (ask* _ := monitor_all before false in ask* _ := ask QShutdown in mret (Err (app_error display e') : Res ())) tr' (Err e)) in Hr.
    apply prog_runs_bind in Hr as (tr1 & [] & tr2 & -> & Hm & Hk). apply monitor_all_asks in Hm.
    intros Hp. apply asked_cons. right. apply asked_app. left. unfold asked. rewrite Hm. apply list_elem_of_fmap.
    destruct Hp as [Hp|Hp]; [by exists p|]. exfalso. cbn in Hp. rewrite andb_false_r in Hp. rewrite existsb_app in Hp.
    rewrite (not_registered p (fun q => q <> QMonitor p true)) in Hp; [|naive_solver|].
    + destruct Hk as ([] & ? & -> & [-> _]). done.
    + rewrite <- (Forall_fmap ex_question (fun q => q <> QMonitor p true)), Hm. apply Forall_fmap, Forall_forall. by intros ? _.
Qed.

Lemma watch_loop_ends (fuel : nat) (output : OutputFormat) (paths : list string) (tr : list turn) (r : Res ()) :
  runs (watch_loop display fuel output paths) tr (Done r) ->
  (exists e, r = Err e) /\ (Turn QEvent NextClosed ∈ tr \/ forall p, p ∈ paths -> asked (QMonitor p false) tr).
Proof.
  assert (Hstop : forall e tr, runs (ask* _ := monitor_all paths false in ask* _ := ask QShutdown in mret (Done (Err e) : Executed ())) tr (Done r) ->
    (exists e, r = Err e) /\ forall p, p ∈ paths -> asked (QMonitor p false) tr).
  { intros e tr' (tr1 & [] & tr2 & -> & Hm%monitor_all_asks & Hk)%prog_runs_bind. destruct Hk as ([] & ? & -> & [-> [= ->]]).
    split; [by eexists|]. intros p Hp. apply asked_app. left. unfold asked. rewrite Hm. apply list_elem_of_fmap. by exists p. }
  assert (Hcons : forall e tr, (exists e, r = Err e) /\ (Turn QEvent NextClosed ∈ tr \/ forall p, p ∈ paths -> asked (QMonitor p false) tr) ->
    (exists e, r = Err e) /\ (Turn QEvent NextClosed ∈ e :: tr \/ forall p, p ∈ paths -> asked (QMonitor p false) (e :: tr))).
  { intros e tr' [He [Hc|Hp]]; (split; [done|]); [left; by right|]. right. intros p Hin. apply asked_cons. right. by apply Hp. }
  revert tr. induction fuel as [|fuel IH]; intros tr; cbn [watch_loop]; [by intros [_ ?]|].
  intros ([event|missed| |] & tr' & -> & Hr).
  - change (runs (if bool_decide (output = Jsonl) then
        ask* snapshot := ask QSnapshot in
        match snapshot with
        | Ok _ => watch_loop display fuel output paths
        | Err e => ask* _ := monitor_all paths false in ask* _ := ask QShutdown in mret (Done (Err (app_error display e)))
        end else watch_loop display fuel output paths) tr' (Done r)) in Hr.
    case_bool_decide; [|by apply Hcons, IH].
    destruct Hr as ([snapshot|e] & tr2 & -> & Hr); [by apply Hcons, Hcons, IH|]. apply Hcons, Hcons.
    destruct (Hstop _ _ Hr) as [He Hp]. split; [done|]. by right.
  - by apply Hcons, IH.
  - destruct Hr as ([] & ? & -> & [-> [= ->]]). split; [by eexists|]. left. by left.
  - apply Hcons. destruct (Hstop _ _ Hr) as [He Hp]. split; [done|]. by right.
Qed.

Lemma connect_registers_nothing (cli : ConnectArgs) (p : string) : asks_only (fun q => q <> QMonitor p true) (connect display cli).
Proof.
  unfold connect, of_app. repeat first
    [ progress intros | apply asks_only_bind | progress cbn [asks_only mret prog_mret ask answer]
    | match goal with
      | |- _ /\ _ => split
      | |- _ <> _ => done
      | |- True => done
      | |- asks_only _ (match ?x with _ => _ end) => destruct x
      | |- asks_only _ (if ?x then _ else _) => destruct x
      end ].
Qed.

(** A watch ends only with an error; every path the phone accepted to watch is unregistered again,
    unless the hub closed, which only a stopping runtime does. *)
Theorem watch_unregisters (cli : Cli) (fuel : nat) (paths : list string) (tr : list turn) (r : Res ()) :
  runs (watch display cli fuel paths) tr (Done r) ->
  (exists e, r = Err e) /\
  (Turn QEvent NextClosed ∈ tr \/ forall p, p ∈ paths -> existsb (registered p) tr = true -> asked (QMonitor p false) tr).
Proof.
  assert (Hends : forall A (m : prog (Res A)) tr e, runs (ends m) tr (Done e) -> runs m tr e).
  { intros A m tr' e (tr1 & a & tr2 & -> & Hm & [-> [= ->]])%prog_runs_bind. by rewrite app_nil_r. }
  assert (Hconnect : forall p tr (r : Res Z), runs (ends (connect display (cl_connect cli))) tr (Done r) -> existsb (registered p) tr = false).
  { intros p tr' r' Hr%Hends. apply (not_registered p (fun q => q <> QMonitor p true)); [naive_solver|].
    apply (asks_only_runs (fun q => q <> QMonitor p true) (connect display (cl_connect cli)) _ r'); [apply connect_registers_nothing|done]. }
  intros [(e & -> & Hc)|(tr1 & session_id & tr' & -> & Hc & Hr)]%runs_exec.
  { split; [by eexists|]. right. intros p _. by rewrite (Hconnect p _ _ Hc). }
  apply runs_exec in Hr as [(e & -> & Hr)|(tr2 & [] & tr3 & -> & Hr & Hw)].
  - split; [by eexists|]. right. intros p _. rewrite existsb_app, (Hconnect p _ _ Hc). intros Hp.
    apply asked_app. right. eapply register_monitors_undone; [by apply Hends|by right].
  - apply watch_loop_ends in Hw as [He Hw]. split; [done|]. destruct Hw as [Hw|Hw].
    + left. apply elem_of_app. right. apply elem_of_app. by right.
    + right. intros p Hin _. apply asked_app. right. apply asked_app. right. by apply Hw.
Qed.

(** ** Waiting for a run *)

(** A wait that has not ended has found the run going at every poll: it ends as soon as the run does. *)
Theorem wait_ends_with_the_run (fuel : nat) (id : string) (tr : list turn) :
  runs (wait_sync_run display fuel id) tr Unfinished ->
  exists statuses, length statuses = fuel /\ Forall (fun s => st_running s = true) statuses /\
    tr = statuses ≫= (fun s => [Turn (QSyncStatus id) (Ok s); Turn QTick false]).
Proof.
  revert tr. induction fuel as [|fuel IH]; intros tr; cbn [wait_sync_run]; [intros [-> _]; by exists []|].
  unfold ends, of_app. cbn. intros ([status|e] & tr' & -> & Hr); cbn in Hr; [|by destruct Hr].
  destruct (negb (st_running status)) eqn:Hs; [by destruct Hr|]. cbn in Hr. destruct Hr as ([] & tr2 & -> & Hr).
  - destruct Hr as (? & ? & _ & [_ ?]). done.
  - apply IH in Hr as (statuses & Hl & Hf & ->). exists (status :: statuses). split_and!; [cbn; lia| |done].
    constructor; [|done]. by apply negb_false_iff in Hs.
Qed.
End Watches.

(** ** Where a download starts *)

(** [fs pull] asks for its paths as they were typed: where the shell stands does not matter to it, as
    it does to every other command. *)
Lemma pull_ignores_cd (display : PublicError -> message) (context : CommandContext) (elsewhere : string) (yes : bool) (format : OutputFormat)
    (terminal : bool) (remote : list string) (local : option path) (recursive overwrite dry_run : bool) :
  fs_pull display (set_remote elsewhere context) yes format terminal remote local recursive overwrite dry_run
  = fs_pull display context yes format terminal remote local recursive overwrite dry_run.
Proof. reflexivity. Qed.

(** ** Remote paths *)

(** What a command asks of the phone is a plain absolute path: no empty segment, [.] or [..]. *)
Theorem resolve_remote_plain (base : list string) (input : string) :
  Forall proper_segment base ->
  exists parts, Forall proper_segment parts /\ resolve_remote (abs_path base) input = abs_path parts /\
    (input = "" \/ input = "." -> parts = base).
Proof.
  intros Hb. unfold resolve_remote.
  assert (filter (fun part => part <> "") (split_slash (abs_path base)) = base) as Hf.
  { rewrite split_abs by done. rewrite filter_cons_False by naive_solver.
    assert (Forall (fun part => part <> "") base) as Hne by (eapply Forall_impl; [exact Hb|]; by intros x (? & _)).
    destruct base as [|x base]; [done|]. induction Hne as [|y l Hy Hl IH]; [done|]. rewrite filter_cons_True by done. f_equal.
    clear -Hl. induction Hl as [|y l Hy Hl IH]; [done|]. rewrite filter_cons_True by done. by f_equal. }
  rewrite Hf. eexists. split; [|split; [reflexivity|]].
  - apply Forall_reverse, normalize_parts_proper; [apply split_slash_no_slash|]. destruct (starts_with _ _); [done|]. by apply Forall_reverse.
  - intros [->| ->]; apply reverse_involutive.
Qed.

(** ** Names of thumbnails *)

Lemma string_all_app (f : ascii -> bool) (a b : string) : string_all f (a +:+ b) = string_all f a && string_all f b.
Proof. induction a as [|c a IH]; [done|]. change (f c && string_all f (a +:+ b) = f c && string_all f a && string_all f b). by rewrite IH, andb_assoc. Qed.

Lemma string_all_filtered (f : ascii -> bool) (s : string) : string_all f (string_filter f s) = true.
Proof. induction s as [|c s IH]; [done|]. cbn. destruct (f c) eqn:Hc; [cbn; by rewrite Hc|done]. Qed.

Lemma string_all_mono (f g : ascii -> bool) (s : string) : (forall c, f c = true -> g c = true) -> string_all f s = true -> string_all g s = true.
Proof. intros Hi. induction s as [|c s IH]; [done|]. cbn. intros [Hc Hs]%andb_true_iff. by rewrite (Hi c Hc), IH. Qed.

(** Decimal numbers. *)
Definition number_char (c : ascii) : bool := is_ascii_digit c || bool_decide (c = "-"%char).

Lemma number_pretty (n : Z) : string_all number_char (pretty n) = true.
Proof.
  assert (forall x s, string_all number_char (pretty_N_go x s) = string_all number_char s) as Hgo.
  { intros x. induction (N.lt_wf_0 x) as [x _ IH]; intros s.
    destruct (decide (x = 0%N)) as [->|Hx]; [done|].
    rewrite pretty_N_go_step by lia. rewrite IH by (apply N.div_lt; lia). cbn. unfold pretty_N_char. by repeat case_match. }
  assert (forall x : N, string_all number_char (pretty x) = true) as HN.
  { intros x. unfold pretty, pretty_N. case_decide; [done|]. by rewrite Hgo. }
  destruct n as [|p|p]; [done|apply HN|]. exact (HN (N.pos p)).
Qed.

Lemma number_stem (c : ascii) : number_char c = true -> stem_char c = true.
Proof. destruct c as [[] [] [] [] [] [] [] []]; vm_compute; congruence. Qed.

Lemma before_underscore (a b x y : string) :
  string_all number_char a = true -> string_all number_char b = true -> a +:+ String "_"%char x = b +:+ String "_"%char y -> a = b.
Proof.
  revert b. induction a as [|c a IH]; intros [|d b] Ha Hb Heq; [done|injection Heq as <- _; by cbn in Hb|injection Heq as -> _; by cbn in Ha|].
  cbn in Ha, Hb. apply andb_true_iff in Ha as [_ Ha], Hb as [_ Hb]. injection Heq as -> Heq. f_equal. by eapply IH.
Qed.

(** The name written for a target is one component without separators, colons or control characters,
    and two targets of one command never write to the same name. *)
Theorem thumbnail_file_name_safe (target target' : string) (index index' : Z) :
  string_all stem_char (thumbnail_file_name target index) = true /\
  thumbnail_file_name target index <> "" /\ thumbnail_file_name target index <> "." /\ thumbnail_file_name target index <> ".." /\
  (thumbnail_file_name target index = thumbnail_file_name target' index' -> index = index').
Proof.
  assert (forall t i, exists stem, thumbnail_file_name t i = pretty i +:+ String "_"%char (stem +:+ ".jpg") /\ string_all stem_char stem = true) as Hname.
  { intros t i. unfold thumbnail_file_name. eexists. split; [reflexivity|]. case_bool_decide; [|apply string_all_filtered].
    eapply string_all_mono; [apply number_stem|apply number_pretty]. }
  destruct (Hname target index) as (stem & Heq & Hstem), (Hname target' index') as (stem' & Heq' & _).
  assert (forall (n : Z) (s : string), (pretty n : string) +:+ String "_"%char s <> "" /\ (pretty n : string) +:+ String "_"%char s <> "." /\ (pretty n : string) +:+ String "_"%char s <> "..") as Hdots.
  { intros n s. pose proof (number_pretty n) as Hn. destruct (pretty n) as [|c p]; [done|]. cbn in Hn. apply andb_true_iff in Hn as [Hc _].
    split_and!; [done|..]; intros Hx; injection Hx as -> _; by vm_compute in Hc. }
  rewrite Heq, Heq'. split_and!; [|apply Hdots..|].
  - rewrite string_all_app. rewrite (string_all_mono _ _ _ number_stem (number_pretty index)). cbn.
    by rewrite string_all_app, Hstem.
  - intros Hx%before_underscore; [|apply number_pretty..]. by apply (inj pretty).
Qed.

(** ** Printed text *)

Definition prints (c : ascii) : bool := negb ((code c <=? 31) || (code c =? 127)).

(** What is printed of a text from the phone has no control character of ASCII: no escape sequence, no
    line break and no tab. *)
Lemma sanitize_human_prints (s : string) : string_all prints (sanitize_human s) = true.
Proof.
  enough (forall n s, (String.length s <= n)%nat -> string_all prints (sanitize_human s) = true) as Hall by by eapply Hall.
  clear s. intros n. induction n as [|n IH]; intros s Hn; [by destruct s; cbn in Hn; [|lia]|].
  destruct s as [|c s]; [done|]. cbn in Hn. cbn [sanitize_human].
  destruct ((code c <=? 31) || (code c =? 127)) eqn:Hc; [apply IH; lia|].
  assert (prints c = true) as Hp by by unfold prints; rewrite Hc.
  assert (string_all prints (String c (sanitize_human s)) = true) as Hkeep by (cbn; rewrite Hp; apply IH; lia).
  destruct s as [|d s]; [cbn; by rewrite Hp|]. cbn [String.length] in Hn.
  match goal with |- context [if ?b then sanitize_human _ else _] => destruct b; [apply IH; lia|] end.
  destruct s as [|e s]; [done|]. cbn [String.length] in Hn.
  match goal with |- context [if ?b then sanitize_human s else _] => destruct b; [apply IH; lia|done] end.
Qed.

Example sanitize_escape : sanitize_human ("a" +:+ String (ascii_of_nat 27) "[2Jb") = "a[2Jb".
Proof. reflexivity. Qed.

(** The listing of files prints the path the phone gave, whatever it holds. *)
Lemma human_file_raw (text : string -> string) (file : CliFileEntry) : exists before, human_file text file = before +:+ ci_path file.
Proof.
  exists ((if ci_is_directory file then text "Directory" else text "File") +:+ TAB +:+ pretty (ci_size file) +:+ TAB +:+
          match ci_modified_at file with Some t => pretty t | None => "-" end +:+ TAB).
  unfold human_file. rewrite !app_assoc_str. done.
Qed.

(** ** Durations *)

Lemma parse_duration_range (value : string) (ms : Z) : parse_duration value = Ok ms -> 0 <= ms < 2 ^ 64.
Proof.
  unfold parse_duration. assert (forall s n, parse_u64 s = Ok n -> 0 <= n) as Hpos.
  { intros s n. unfold parse_u64. case_bool_decide; [done|]. destruct (parse_digits _ 0) as [m|] eqn:Hm; [|done].
    destruct (m <? 2 ^ 64); [|done]. intros [= <-]. by eapply parse_digits_nonneg in Hm. }
  repeat case_match; simplify_eq; intros [= <-]; match goal with H : parse_u64 _ = Ok _ |- _ => apply Hpos in H end; lia.
Qed.

Example durations :
  parse_duration "250ms" = Ok 250 /\ parse_duration "30s" = Ok 30000 /\ parse_duration "2m" = Ok 120000 /\ parse_duration "7" = Ok 7000 /\
  parse_duration "18446744073709551615m" = Ok (2 ^ 64 - 1) /\ parse_duration "s" = Err (Msg "InvalidDuration" ["s"; "cannot parse integer from empty string"]).
Proof. vm_compute. by split_and!. Qed.

(** ** Exit codes *)

(** An error of the core that reaches the command line through the application keeps its exit code,
    but for the errors of configuration, of adb and of confirmation. *)
Theorem app_error_exit_code (display : PublicError -> message) (e : Error) (op : string) :
  exit_code (app_error display (from_core_error e op)) = exit_code e <->
  match e with EConfiguration _ | EAdbUnavailable _ | EConfirmationRequired _ => False | _ => True end.
Proof.
  destruct e as [| | | | | | | | | | | |[sid [] closed]]; cbn; (split; [done|]); try done; by intros [].
Qed.

(** ** Dry runs *)

(** Names the system gives entries: nothing empty, no slash. *)
Fixpoint names_ok (l : listing) : Prop :=
  match l with
  | Unreadable _ => True
  | Listing entries =>
      (fix go (entries : list (string * entry)) : Prop :=
         match entries with
         | [] => True
         | (name, e) :: entries =>
             name <> "" /\ no_slash name = true /\ match e with IsDir children => names_ok children | _ => True end /\ go entries
         end) entries
  end.

Lemma trim_named (base name : string) :
  name <> "" -> no_slash name = true -> trim_end_matches slash (base +:+ String slash name) = base +:+ String slash name.
Proof.
  intros Hn Hs. unfold trim_end_matches. rewrite string_rev_app_distr, string_rev_cons.
  assert (exists c r, string_rev name = String c r /\ c <> slash) as (c & r & Hr & Hc).
  { destruct (string_rev name) as [|c r] eqn:Hr.
    - apply (f_equal string_rev) in Hr. by rewrite string_rev_involutive in Hr.
    - exists c, r. split; [done|]. intros ->. assert (name = string_rev r +:+ String slash "") as Hname.
      { rewrite <- string_rev_cons, <- Hr. by rewrite string_rev_involutive. }
      rewrite Hname, no_slash_app in Hs. by rewrite andb_comm in Hs. }
  rewrite Hr.
  change (drop_char slash ((String c r +:+ String slash "") +:+ string_rev base)) with
    (if bool_decide (c = slash) then drop_char slash ((r +:+ String slash "") +:+ string_rev base) else (String c r +:+ String slash "") +:+ string_rev base).
  rewrite bool_decide_eq_false_2 by done. rewrite <- Hr, <- string_rev_cons, <- string_rev_app_distr. apply string_rev_involutive.
Qed.

Section DryRun.
Context (file_len : path -> option Z) (own : string).

Definition sent_item (i : BatchTransferItemDto) : BatchTransferItem := mkBatchTransferItem (bi_source i) (bi_target i).

(** What was counted and what is to be sent: the same files, and the same directories but for the
    directory of the tree itself. *)
Definition same_tree (counted : local_tree_acc) (sent : upload_tree_acc) : Prop :=
  sent.1 = sent_item <$> counted.1.1 /\ sent.2 = {[own]} ∪ counted.1.2.

Definition same_result (counted : Res local_tree_acc) (sent : Res upload_tree_acc) : Prop :=
  match counted, sent with
  | Ok counted, Ok sent => same_tree counted sent
  | Err e, Err e' => exit_code e = exit_code e'
  | _, _ => False
  end.

Lemma collect_same (l : listing) : forall local remote counted sent,
  names_ok l -> same_tree counted (sent.1, {[trim_end_matches slash remote]} ∪ sent.2) ->
  same_result (collect_local_tree file_len local remote l counted) (collect_upload_tree local remote l sent).
Proof.
  revert l. fix IH 1. intros [text|entries] local remote counted sent; [done|]. cbn [collect_local_tree collect_upload_tree names_ok].
  generalize (sent.1, {[trim_end_matches slash remote]} ∪ sent.2). clear sent. revert counted.
  revert entries. fix IHe 1. intros [|[name e] entries] counted sent; [done|]. intros (Hn & Hs & Hc & Hok) Hsame.
  destruct e as [text|text| |children|]; [done|done| | |by apply IHe].
  - apply IHe; [done|]. destruct Hsame as [-> ->]. split; [|done]. cbn. by rewrite fmap_app.
  - pose proof (IH children (path_join local name) (trim_end_matches slash remote +:+ String slash name)
      (counted.1.1, {[trim_end_matches slash remote +:+ String slash name]} ∪ counted.1.2, counted.2) sent Hc) as Hdir.
    destruct (collect_local_tree _ _ _ children _) as [counted'|e], (collect_upload_tree _ _ children sent) as [sent'|e'].
    + apply IHe; [done|]. apply Hdir. split; [apply Hsame|]. cbn. rewrite trim_named by done. destruct Hsame as [_ ->]. set_solver.
    + exfalso. apply Hdir. split; [apply Hsame|]. cbn. rewrite trim_named by done. destruct Hsame as [_ ->]. set_solver.
    + exfalso. apply Hdir. split; [apply Hsame|]. cbn. rewrite trim_named by done. destruct Hsame as [_ ->]. set_solver.
    + apply Hdir. split; [apply Hsame|]. cbn. rewrite trim_named by done. destruct Hsame as [_ ->]. set_solver.
Qed.
End DryRun.

(** The files and directories a dry run of [fs push -r] counts are those the upload of the tree sends,
    but for the tree's own directory; both fail together. *)
Theorem dry_run_counts_what_is_sent (file_len : path -> option Z) (local remote : string) (l : listing) :
  names_ok l ->
  same_result (trim_end_matches slash remote) (collect_local_tree file_len local remote l ([], ∅, 0)) (collect_upload_tree local remote l ([], ∅)).
Proof. intros Hl. apply collect_same; [done|]. split; [done|]. cbn. done. Qed.

(** ** What is printed *)

Fixpoint newlines (s : string) : nat :=
  match s with
  | EmptyString => 0
  | String c s => if bool_decide (c = newline) then S (newlines s) else newlines s
  end.

Lemma newlines_app (a b : string) : newlines (a +:+ b) = (newlines a + newlines b)%nat.
Proof. induction a as [|c a IH]; [done|]. simpl. rewrite IH. by case_bool_decide. Qed.

Lemma newlines_escaped (s : string) : newlines (I18n.replace (String newline "") "\n" s) = 0%nat.
Proof.
  unfold I18n.replace. induction s as [|c s IH]; [done|]. cbn [replace_from]. unfold starts_with. cbn [str_strip_prefix].
  case_bool_decide as Hc; [cbn; exact IH|]. cbn [newlines]. by rewrite bool_decide_eq_false_2 by congruence.
Qed.

Lemma newlines_number (s : string) : string_all number_char s = true -> newlines s = 0%nat.
Proof.
  induction s as [|c s IH]; [done|]. cbn [string_all]. intros [Hc Hs]%andb_true_iff. cbn [newlines].
  case_bool_decide as He; [by subst|by apply IH].
Qed.

Definition lines_of (lines : list string) : nat := foldr (fun l n => newlines l + n)%nat O lines.

Lemma newlines_joined (line : string) (lines : list string) :
  newlines (joined_lines (line :: lines)) = (length lines + lines_of (line :: lines))%nat.
Proof.
  revert line. unfold joined_lines, lines_of. induction lines as [|l lines IH]; intros line.
  - cbn. lia.
  - change (String.concat _ (line :: l :: lines)) with (line +:+ String newline "" +:+ String.concat (String newline "") (l :: lines)).
    rewrite !newlines_app, IH. assert (newlines (String newline "") = 1%nat) as -> by done. cbn [length foldr]. lia.
Qed.

(** A listing of the clipboard has one line for each entry below its header, whatever the entries hold. *)
Theorem clipboard_lines (text : string -> string) (entries : list ClipboardEntry) :
  newlines (human_clipboards text entries) = (length entries + newlines (text "ClipboardHeader"))%nat.
Proof.
  unfold human_clipboards. rewrite newlines_joined, length_fmap. cbn [lines_of foldr].
  assert (foldr (fun l n => newlines l + n)%nat O (human_clipboard <$> entries) = 0%nat) as ->; [|lia].
  induction entries as [|e entries IH]; [done|]. cbn [fmap list_fmap foldr]. rewrite IH.
  unfold human_clipboard. by rewrite !newlines_app, newlines_escaped, newlines_number by apply number_pretty.
Qed.

(** The arguments that say how to print. *)
Definition output_flag (arg : string) : bool := bool_decide (arg = "--output") || starts_with "--output=" arg.

(** Before the arguments are understood the first flag decides, in either of its spellings. *)
Theorem first_output_flag_decides (before after : list string) (value : string) :
  Forall (fun arg => output_flag arg = false) before ->
  output_from_raw_args (before ++ "--output" :: value :: after) = named_output value /\
  output_from_raw_args (before ++ ("--output=" +:+ value) :: after) = named_output value /\
  output_from_raw_args before = Human.
Proof.
  induction 1 as [|arg before Ha Hb IH].
  - split_and!; [done|reflexivity|done].
  - apply orb_false_iff in Ha as [Hn Hs]. unfold starts_with in Hs. rewrite <- !app_comm_cons. cbn [output_from_raw_args].
    destruct (str_strip_prefix "--output=" arg) as [v|]; [discriminate Hs|]. rewrite Hn. exact IH.
Qed.

(** In JSON a command that ends well prints one line, which reads back as a success with its data. *)
Theorem json_line_reads_back `{SerdeLaw} (o : Rendered) (format : OutputFormat) :
  format <> Human -> printable (rd_data o) = true -> (depth (rd_data o) < 127)%nat ->
  exists line, render o format (Ok ()) = (Ok (), ([line], [])) /\ parse_text line = Some (success_envelope o).
Proof.
  intros Hf Hp Hd. destruct (print_parse (success_envelope o)) as (line & Hl & Hr).
  - unfold success_envelope. cbn [printable forallb fst snd]. rewrite Hp. cbn. rewrite andb_true_r.
    assert (forallb printable (JString <$> rd_warnings o) = true) as -> by (induction (rd_warnings o); done).
    by destruct (rd_device o) as [[serial [name|]]|].
  - unfold success_envelope. cbn [depth foldr fst snd].
    assert (foldr (fun v n => Nat.max (depth v) n) 0%nat (JString <$> rd_warnings o) = 0%nat) as -> by (induction (rd_warnings o); done).
    assert (depth (match rd_device o with Some d => device_summary d | None => JNull end) <= 1)%nat
      by (destruct (rd_device o) as [[serial [name|]]|]; cbn; lia). lia.
  - exists line. unfold render. rewrite Hl. by destruct format.
Qed.
